(* ===== verification/_CoqProject ===== *)
-Q . S2P
Prelude.v
Maps.v
Bytes.v
Text.v
Lines.v
Wire.v
Value.v
Shim.v
Table.v
Publish.v
Frame.v
Headers.v
Engine.v
Catalog.v
Programs.v
L2Fwd.v
L3Fwd.v
P4.v
X4cAbi.v
X4cRuntime.v
X4c.v
GenL2.v
GenL3.v
X4cModel.v
X4cNative.v
X4cRouter.v
UbpfTable.v
Objects.v
Elf.v
UbpfVm.v
UbpfPipeline.v
Config.v
Metrics.v
Tx.v
Punt.v
Socket.v
Shard.v
Arena.v
B64.v
Loopback.v
Messages.v
ErrorTexts.v
Probe.v
Toolchain.v
Xtask.v
Artifacts.v
Ctl.v
Codec.v
Up4ctl.v
Server.v
CtlSocket.v
Session.v
Warn.v
Traffic.v
Pktgen.v
FrontEnds.v
Load.v
Agree.v
Turn.v
Hop.v
Journey.v
Fixture.v
Node.v
Signal.v
Snapshots.v
Up4d.v
Lifecycle.v
Reference.v
