(* ===== verification/Prelude.v ===== *)
(** * up4: a verification library for the userspace P4 switch

    up4 is a software switch.  A node ([up4d]) carries frames between virtual
    ports over UDP; a P4 program, on one of three backends, decides what becomes
    of each frame; an operator changes the program's tables while frames flow.
    This library models the datapath, the three backends, the control plane and
    the daemon that ties them together, as executable definitions that read like
    the source, and proves what makes each part correct.

    ** The parts and where they are modelled

    Shared: [Prelude] (results with the [let?] notation, fixed-width integers
    [uint w] with their wrap-around, the word tactics [word_lia], lemmas on
    lists), [Maps] (finite maps), [Bytes] (big- and little-endian codecs,
    slices), [Text] (Rust's formatting and parsing of integers), [Lines] (UTF-8,
    white space, trimming and lines of text).

    The overlay (crates/up4-wire): [Wire], the twelve-byte header and the
    per-flow sequence tracker.

    The engine contract (crates/up4-engine/src): [Value] (value.rs), [Shim]
    (shim.rs: typed keys, schemas, the [TableOps] trait as a class, and
    [TableLaws], what a client may rely on), [Table] (table.rs: exact and
    longest-prefix tables), [Publish] (table.rs: [Shared] and [Cached], first as
    sequential operations, then as interleaved atomic actions), [Frame]
    (frame.rs), [Headers] (headers.rs), [Engine] (lib.rs and envelope.rs: the
    classes [Engine] and [Pipeline], [EngineLaws], boxed pipelines as [Object]),
    [Catalog] (catalog.rs), [Programs] (programs/mod.rs, null.rs), [L2Fwd] and
    [L3Fwd] (programs/l2fwd.rs, l3fwd.rs).

    The P4 programs of record (p4/programs): [P4].

    The x4c backend (crates/up4-x4c): [X4cAbi] (abi.rs), [X4c] (pipeline.rs),
    [X4cRuntime] (the code the compiler repeats for every header field, over the
    third-party bit vectors and runtime as classes), [GenL2] and [GenL3]
    (generated/l2fwd.rs, l3fwd.rs), [X4cModel] (a concrete runtime with every law
    stated), [X4cNative] and [X4cRouter] (the compiled programs against the
    native ones).
    The uBPF backend (crates/up4-ubpf): [UbpfTable] (table.rs), [Objects] (the
    two committed object files, byte for byte), [Elf] (elf.rs), [UbpfVm] (vm.rs),
    [UbpfPipeline] (pipeline.rs).  [Load] is the function that builds any of them
    (crates/up4-catalog), [Agree] compares what it builds.

    The datapath (crates/up4-io): [Tx] (tx.rs), [Punt] (punt.rs), [Socket]
    (socket.rs, with bind and what it grants; [Recorded] is a kernel that keeps
    every write it was given beside its answer, so that theorems on what leaves
    are about what the socket was handed), [Shard] (shard.rs), [Arena] (its
    receive arena, as the flat buffer it is), [Hop] (one shard sending to
    another over a network that loses frames), [Journey] (the frames of one peer
    through a pipeline that forwards them), [Warn] (warn.rs, clock.rs),
    [Probe] (probe.rs), [Signal] (signal.rs).  The counters
    (crates/up4-metrics): [Metrics], and [Snapshots] for the file they go to.
    The configuration (crates/up4-config): [Config].

    The control plane (crates/up4-ctl): [B64] (b64.rs), [Messages] (the texts
    refusals are shown as; [ErrorTexts] has those of the data plane's errors), [Ctl] (server.rs, handle and protocol.rs), [Codec]
    (codec.rs, client.rs), [Server] (server.rs, serve), [CtlSocket] (server.rs,
    bind and drop: the socket file, over a file system many nodes share),
    [Session] (client.rs and server.rs: the two ends of one connection, with
    [Client::call] as a send and a wait and the server a turn of [converse] at a
    time), [Up4ctl] (bin/up4ctl.rs and client.rs, connect).

    The tools (crates/up4-tools): [Traffic] (frame.rs), [Pktgen] (pktgen.rs),
    [FrontEnds] (bin/pktgen.rs, bin/probe.rs).  The benchmarks (benches):
    [Loopback], the routes and frames an engine is timed on, and [Fixture], what
    is pushed through a whole shard.
    The generation of committed code (xtask): [Toolchain] (tool.rs: finding or
    building the compilers), [Xtask] (main.rs: recipes, modes, the witness file)
    and [Artifacts], the theorems about both.

    The daemon (crates/up4d/src/main.rs): [Node] (start-up, and a running node as
    a sequence of shard turns and requests), [Up4d] ([run]: from the command line
    to a node), [Lifecycle] ([main] around it, the hint for the probe, and the end
    of [serve]: the wait, the last snapshot, the exit code).  [Turn] has the
    lemmas on one turn of a shard, [Reference] the comparison of a node with one
    over an abstract program.

    ** State, effects and errors

    A Rust [struct] is a [Record], an [enum] an [Inductive] with the same
    constructors; machine integers are [uint w], bytes [uint 8].  A method that
    takes [&mut self] returns the new state with its result; [Result] is
    [result], whose error carries what the source's error does.  A panic, where
    one is reachable, is [None] or an outcome of its own.  Interfaces between
    parts are classes: a client's theorems are proved against [TableLaws],
    [EngineLaws] and [UdpLaws], and each implementation proves its instance.
    Shared state is modelled as shared: [Publish] interleaves the atomic actions
    of one writer and any number of readers, [Node] interleaves whole turns and
    requests over one set of tables, counters, punt queue and stop flag.

    Code the repository only calls is a parameter with its documented behaviour
    as laws: the p4c-generated bytecode's machine ([Rbpf]), the bit vectors and the
    runtime of the x4c-generated code ([Bitvec], [P4rt]), the kernel's UDP sockets ([Udp], [UdpLaws]),
    parsing of socket addresses ([Addr]), TOML and JSON (functions of [World] and
    of [Codec]), clocks (their readings are arguments), what a host answers
    ([Machine] for the probe, [Host] and [Forge] for xtask, [Calls] for the
    control socket, [Sink] for a file that may refuse bytes).  Every property
    with such a law has a witness at a concrete instance.

    ** What the theorems show

    Data: what is read back is what was written (headers, values, keys, base64,
    control frames); windows never leave their buffer; parsers never read past
    the frame.

    Tables: the longest-prefix table refines a finite map, and so does its
    byte-masked twin of the uBPF backend; readers of a published table see a
    prefix of the updates at every interleaving.

    Backends: each native program refines its specification for every trace of
    requests and frames; l3fwd's frames are given byte by byte, and, while no
    route leads to the punt port, are those of the P4 program inside up4's
    envelope; the x4c journal keeps its bound and brings every shard to the
    installed entries, and, of requests that set no default, name no reserved
    port and spell prefixes without host bits, the generated code computes what
    the native programs compute, but for the fragment offset l3fwd mangles; a
    loaded uBPF object is the [.text] of the file with exactly the named
    immediates patched, and its maps answer as the native tables do; the envelope
    binds all three.

    Datapath: every segment of a read meets one counted fate; the writes the
    socket is given for a port, cut as the kernel cuts them, are the staged
    frames, numbered and in order; a receiving node counts of those the kernel
    took exactly what the network lost; what the load generator sends, a native
    switch hands its socket frame by frame as it came;
    counters are tallies; the punt ring is a bounded queue.

    Control: what reaches a program is typed; a batch stops at its first refusal;
    requests get one reply each, keep every invariant and take from the punt queue
    only by draining it, oldest first; however [up4ctl] and the server interleave,
    each answer is the answer to its question; a silent client cannot hold the
    server; a configuration is accepted only if it breaks no rule, and refused with
    exactly the broken rules that are judged; however nodes that may connect to
    each other start, stop and crash one after the other, each keeps its own
    socket; an operator who drains the punt queue sees each frame once, and what a
    dump of a native program prints can be typed back.

    Around the node: the probe reads the kernel's route table and CPU lists as
    they are printed; a line reported written is on disk, and snapshots keep
    their schedule; termination signals become the flag.  Of the committed
    artifacts: writing them settles the checkout, audit notices an edit, and
    looking changes nothing.

    The whole: a node stays sound under any interleaving, stops when told, with its last counts in its
    file and exit code 0, and is indistinguishable, down to its counters and sockets, from the same node over
    the program's specification; the daemon starts what its configuration names.

    ** Bounds and fuel

    Loops over lists recurse on them.  The other loops carry fuel that a lemma
    shows to be enough: [bisect] the length of the slice searched
    ([bisect_spec]), [dec] the number of bits of what is printed ([dec_fuel]),
    [Tx.runs_collect] and [Tx.gso_split] the number of segments
    ([runs_collect_spec], [gso_split_concat]), and [Server.converse] 150 waits
    for every message the peer still sends ([conversations_end], where running
    out of fuel is [None] and is excluded), and [Up4ctl.drain_loop] one call more
    than the queue is long ([drain_all_takes_the_queue]).  The run of a
    uBPF program is a parameter, so no fuel is needed.  Version numbers are
    64-bit and wrap: theorems that compare versions assume fewer than 2^64
    updates.  Sequence numbers wrap at 2^32 and the theorems hold across the
    wrap.

    ** Not modelled

    Logging, the creation of threads and core pinning.  The system calls
    themselves: what they answer is a parameter (see above), and what the source
    does with each answer is modelled.  The command-line parser.  What the
    scripts of xtask do inside.  The probes and dumps of the generated code,
    which no packet depends on.  Rates and percentages of reports, which are
    floating point (the front end prints them from parameters).  Two nodes starting at the same instant over one socket path
    are shown to interfere ([CtlSocket.Desk]) but are not part of the lives the
    theorem quantifies over.  Starting the socket fixture of the benchmarks,
    their allocation counter, and the tests.  The serde derives that print and parse JSON. *)

From stdpp Require Export prelude gmap strings list fin_maps sorting.
From Stdlib Require Export ZArith Lia.
From Stdlib Require Export Ascii.
From Stdlib Require Import Eqdep_dec Bool.

#[export] Set Default Goal Selector "!".

(** ** Results

    Rust's [Result<T, E>], with the [?] operator as a binder. *)

Inductive result (A E : Type) : Type :=
  | Ok (a : A)
  | Err (e : E).
Arguments Ok {A E} a.
Arguments Err {A E} e.

Definition rbind {A B E} (m : result A E) (k : A -> result B E) : result B E :=
  match m with Ok a => k a | Err e => Err e end.

Definition ok_or {A E} (o : option A) (e : E) : result A E :=
  match o with Some a => Ok a | None => Err e end.

Definition map_err {A E F} (f : E -> F) (m : result A E) : result A F :=
  match m with Ok a => Ok a | Err e => Err (f e) end.

Definition to_option {A E} (m : result A E) : option A :=
  match m with Ok a => Some a | Err _ => None end.

Definition is_ok {A E} (m : result A E) : bool :=
  match m with Ok _ => true | Err _ => false end.

Declare Scope up4_scope.
Delimit Scope up4_scope with up4.
Notation "'let?' x := m 'in' k" := (rbind m (fun x => k))
  (at level 10, x pattern, m at level 100, k at level 200) : up4_scope.
Open Scope up4_scope.

#[export] Instance result_eq_dec {A E} `{EqDecision A, EqDecision E} : EqDecision (result A E).
Proof. solve_decision. Defined.

Lemma rbind_Ok_inv {A B E} (m : result A E) (k : A -> result B E) b :
  rbind m k = Ok b -> exists a, m = Ok a /\ k a = Ok b.
Proof. destruct m; simpl; [eauto | done]. Qed.

Lemma rbind_Err_inv {A B E} (m : result A E) (k : A -> result B E) e :
  rbind m k = Err e -> m = Err e \/ exists a, m = Ok a /\ k a = Err e.
Proof. destruct m; simpl; [eauto | intros [= ->]; by left]. Qed.

(** A loop whose body may return early with an error. *)
Fixpoint rmapM {A B E} (f : A -> result B E) (l : list A) : result (list B) E :=
  match l with
  | [] => Ok []
  | x :: l => let? y := f x in let? ys := rmapM f l in Ok (y :: ys)
  end.

Fixpoint rfold {A S E} (f : S -> A -> result S E) (s : S) (l : list A) : result S E :=
  match l with
  | [] => Ok s
  | x :: l => let? s := f s x in rfold f s l
  end.

Lemma ok_or_Ok {A E} (o : option A) (e : E) x : ok_or o e = Ok x <-> o = Some x.
Proof. destruct o; split; by intros [= ->]. Qed.

(** What holds initially and is kept by every iteration holds at the end. *)
Lemma rfold_inv {A S E} (P : S -> Prop) (f : S -> A -> result S E) l s s' :
  (forall s x s', x ∈ l -> P s -> f s x = Ok s' -> P s') -> P s -> rfold f s l = Ok s' -> P s'.
Proof.
  revert s. induction l as [| x l IH]; intros s Hf Hs H; cbn [rfold] in H; [by injection H as <- |].
  apply rbind_Ok_inv in H as (s1 & H1 & H). apply (IH s1); [| | done].
  - intros s2 y s3 Hy. apply Hf. by apply list_elem_of_further.
  - eapply Hf; [apply list_elem_of_here | exact Hs | exact H1].
Qed.

Lemma rmapM_Ok {A B E} (f : A -> result B E) l ys :
  rmapM f l = Ok ys <-> Forall2 (fun x y => f x = Ok y) l ys.
Proof.
  revert ys. induction l as [| x l IH]; intros ys; cbn [rmapM].
  - split; [intros [= <-]; constructor | by inversion 1].
  - split.
    + intros (y & Hy & (ys' & Hys & [= <-])%rbind_Ok_inv)%rbind_Ok_inv. constructor; [done | by apply IH].
    + inversion 1 as [| ? y ? ys' Hy Hys]; subst. rewrite Hy. cbn. apply IH in Hys. by rewrite Hys.
Qed.

(** ** Lists *)

(** What a filter keeps. *)
Lemma filter_all {A} (P : A -> Prop) `{forall x, Decision (P x)} l : Forall P l -> filter P l = l.
Proof. induction 1 as [| x l Hx _ IH]; [done |]. by rewrite filter_cons_True, IH. Qed.

Lemma filter_none {A} (P : A -> Prop) `{forall x, Decision (P x)} l : Forall (fun x => ~ P x) l -> filter P l = [].
Proof. induction 1 as [| x l Hx _ IH]; [done |]. by rewrite filter_cons_False, IH. Qed.

Lemma Forall_filter {A} (P Q : A -> Prop) `{forall x, Decision (P x)} l : Forall Q l -> Forall Q (filter P l).
Proof. rewrite !Forall_forall. intros Hl x [_ Hx]%list_elem_of_filter. by apply Hl. Qed.

Lemma last_cons_default {A} (l : list A) : forall x y, List.last (y :: l) x = List.last l y.
Proof. induction l as [| z l IH]; intros x y; [done |]. cbn [List.last] in *. by rewrite (IH x z), (IH y z). Qed.

(** ** Machine words

    [uint w] is the type of [w]-bit unsigned integers: an integer together
    with a decidable proof that it fits.  [u_of] is Rust's [as] cast (it wraps
    modulo [2^w]); all arithmetic is written on [Z] and wrapped explicitly. *)

Local Open Scope Z_scope.

Definition in_width (w : N) (z : Z) : bool := (0 <=? z) && (z <? 2 ^ Z.of_N w).

Record uint (w : N) : Type := UInt { uv : Z; uv_ok : in_width w uv = true }.
Arguments UInt {w} uv uv_ok.
Arguments uv {w} _ : simpl never.
Arguments uv_ok {w} _.

Lemma in_width_spec w z : in_width w z = true <-> 0 <= z < 2 ^ Z.of_N w.
Proof.
  unfold in_width. rewrite andb_true_iff, Z.leb_le, Z.ltb_lt. done.
Qed.

Lemma in_width_wrap w z : in_width w (z mod 2 ^ Z.of_N w) = false -> False.
Proof.
  intros H. apply not_true_iff_false in H. apply H, in_width_spec.
  apply Z.mod_pos_bound. apply Z.pow_pos_nonneg; lia.
Qed.

Definition u_of (w : N) (z : Z) : uint w :=
  let v := z mod 2 ^ Z.of_N w in
  match Sumbool.sumbool_of_bool (in_width w v) with
  | left H => UInt v H
  | right H => False_rect _ (in_width_wrap w z H)
  end.

Abbreviation byte := (uint 8).
Abbreviation u16 := (uint 16).
Abbreviation u32 := (uint 32).
Abbreviation u64 := (uint 64).
Abbreviation U8 := (u_of 8).
Abbreviation U16 := (u_of 16).
Abbreviation U32 := (u_of 32).
Abbreviation U64 := (u_of 64).

Lemma uv_of w z : uv (u_of w z) = z mod 2 ^ Z.of_N w.
Proof.
  unfold u_of. destruct (Sumbool.sumbool_of_bool _) as [H | H]; [done |].
  destruct (in_width_wrap _ _ H).
Qed.

Lemma uint_range {w} (x : uint w) : 0 <= uv x < 2 ^ Z.of_N w.
Proof. apply in_width_spec, uv_ok. Qed.

Lemma uint_eq {w} (x y : uint w) : uv x = uv y -> x = y.
Proof.
  destruct x as [a Ha], y as [b Hb]. unfold uv. intros <-.
  f_equal. apply UIP_dec, bool_dec.
Qed.

Lemma u_of_uv {w} (x : uint w) : u_of w (uv x) = x.
Proof. apply uint_eq. rewrite uv_of. apply Z.mod_small, uint_range. Qed.

Lemma uv_of_small w z : 0 <= z < 2 ^ Z.of_N w -> uv (u_of w z) = z.
Proof. intros H. rewrite uv_of. by apply Z.mod_small. Qed.

#[export] Instance uint_eq_dec {w} : EqDecision (uint w).
Proof.
  intros x y. destruct (Z.eq_dec (uv x) (uv y)) as [H | H].
  - left. by apply uint_eq.
  - right. by intros ->.
Defined.

#[export] Instance uint_countable {w} : Countable (uint w).
Proof. apply (inj_countable' uv (u_of w)). apply u_of_uv. Defined.

#[export] Instance uint_inhabited {w} : Inhabited (uint w) := populate (u_of w 0).

Create HintDb up4.
Create Rewrite HintDb up4.
#[export] Hint Rewrite @u_of_uv : up4.
#[export] Hint Resolve uint_range : up4.

(** The widest value of a width, [uN::MAX]. *)
Definition umax (w : N) : Z := 2 ^ Z.of_N w - 1.

(** [usize::MAX] on the 64-bit targets up4 ships for. *)
Definition usize_max : Z := 2 ^ 64 - 1.

(** [uN::try_from]: a value of a wider type, if it fits. *)
Definition try_u (w : N) (z : Z) : option (uint w) :=
  if in_width w z then Some (u_of w z) else None.

Lemma try_u_Some w z (x : uint w) : try_u w z = Some x <-> z = uv x.
Proof.
  unfold try_u. destruct (in_width w z) eqn:E.
  - apply in_width_spec in E. split.
    + intros [= <-]. by rewrite uv_of_small.
    + intros ->. by rewrite u_of_uv.
  - split; [done |]. intros ->. by rewrite uv_ok in E.
Qed.

(** Bring the range of every word in sight into the context, evaluate the
    moduli and call [lia]. *)
Ltac word_ranges :=
  repeat match goal with
  | x : uint _ |- _ =>
      lazymatch goal with
      | _ : 0 <= uv x < _ |- _ => fail
      | _ => pose proof (uint_range x)
      end
  end;
  change (Z.of_N 8) with 8 in *; change (Z.of_N 16) with 16 in *;
  change (Z.of_N 32) with 32 in *; change (Z.of_N 64) with 64 in *;
  change (2 ^ 8) with 256 in *; change (2 ^ 16) with 65536 in *;
  change (2 ^ 32) with 4294967296 in *;
  change (2 ^ 64) with 18446744073709551616 in *;
  change (256 ^ Z.of_nat 2) with 65536 in *;
  change (256 ^ Z.of_nat 4) with 4294967296 in *;
  change (256 ^ Z.of_nat 6) with 281474976710656 in *;
  change (256 ^ Z.of_nat 8) with 18446744073709551616 in *.
Ltac word_lia := word_ranges; Z.to_euclidean_division_equations; lia.
