(* ===== verification/Maps.v ===== *)
(** * Association lists and finite maps

    The lists of key-value pairs the components keep (journal entries, table
    buckets) read as the finite maps they stand for.  Nothing here is specific
    to the switch. *)

From S2P Require Import Prelude.

Section lists.
Context {A B : Type}.

Lemma alter_middle (f : A -> A) l1 x l2 : alter f (length l1) (l1 ++ x :: l2) = l1 ++ f x :: l2.
Proof. induction l1 as [| y l1 IH]; [done |]. cbn. f_equal. apply IH. Qed.

Lemma lookup_split_middle (l : list A) i x :
  l !! i = Some x -> exists l1 l2, l = l1 ++ x :: l2 /\ i = length l1.
Proof.
  intros H. exists (take i l), (drop (S i) l). split; [by rewrite take_drop_middle |].
  apply lookup_lt_Some in H. rewrite length_take_le; lia.
Qed.

Lemma NoDup_fmap_filter (f : A -> B) (P : A -> Prop) `{!forall x, Decision (P x)} (l : list A) :
  NoDup (f <$> l) -> NoDup (f <$> filter P l).
Proof.
  induction l as [| x l IH]; [done |]. rewrite fmap_cons, NoDup_cons, filter_cons. intros [Hn Hd].
  case_decide; [| by apply IH]. rewrite fmap_cons. apply NoDup_cons. split; [| by apply IH].
  intros (y & E & [_ Hy]%list_elem_of_filter)%list_elem_of_fmap. apply Hn, list_elem_of_fmap. eauto.
Qed.

Lemma filter_fmap (f : A -> B) (P : B -> Prop) (Q : A -> Prop)
    `{!forall x, Decision (P x), !forall x, Decision (Q x)} (l : list A) :
  (forall x, P (f x) <-> Q x) -> filter P (f <$> l) = f <$> filter Q l.
Proof.
  intros HPQ. induction l as [| x l IH]; [done |]. rewrite fmap_cons, !filter_cons.
  destruct (decide (P (f x))) as [Hp | Hp], (decide (Q x)) as [Hq | Hq]; rewrite ?fmap_cons, ?IH; try done.
  - by apply HPQ in Hp.
  - by apply HPQ in Hq.
Qed.

Lemma filter_filter_none (P Q : A -> Prop)
    `{!forall x, Decision (P x), !forall x, Decision (Q x)} (l : list A) :
  (forall x, P x -> ~ Q x) -> filter P (filter Q l) = [].
Proof.
  intros HPQ. rewrite list_filter_filter. induction l as [| x l IH]; [done |].
  rewrite filter_cons. case_decide as Hx; [| done]. destruct Hx as [Hp Hq]. by destruct (HPQ _ Hp).
Qed.
End lists.

Section maps.
Context {K V : Type} `{Countable K}.
Implicit Types (l : list (K * V)).

Abbreviation of_list := (list_to_map (M := gmap K V)).

Lemma of_list_middle_None l1 p l2 :
  NoDup (fst <$> (l1 ++ p :: l2)) -> of_list (l1 ++ l2) !! p.1 = None.
Proof.
  rewrite fmap_app, fmap_cons. intros (_ & Hd & [Hn _]%NoDup_cons)%NoDup_app.
  apply not_elem_of_list_to_map_1. rewrite fmap_app, elem_of_app. intros [Hp | Hp]; [| done].
  apply (Hd _ Hp). apply list_elem_of_here.
Qed.

Lemma of_list_middle l1 p l2 :
  NoDup (fst <$> (l1 ++ p :: l2)) -> of_list (l1 ++ p :: l2) = <[p.1 := p.2]> (of_list (l1 ++ l2)).
Proof.
  intros Hd. rewrite (list_to_map_proper _ (p :: l1 ++ l2)).
  - by destruct p.
  - done.
  - symmetry. apply Permutation_middle.
Qed.

Lemma of_list_filter (P : K * V -> Prop) `{!forall x, Decision (P x)} l :
  NoDup (fst <$> l) -> filter P (of_list l) = of_list (filter P l).
Proof.
  intros Hd. apply map_eq. intros i. apply option_eq. intros x.
  rewrite map_lookup_filter_Some, <- !elem_of_list_to_map, list_elem_of_filter; [tauto | | done].
  by apply NoDup_fmap_filter.
Qed.
End maps.

Lemma size_kmap `{Countable K1, Countable K2} {A} (f : K1 -> K2) `{!Inj (=) (=) f} (m : gmap K1 A) :
  size (kmap (M2 := gmap K2) f m) = size m.
Proof.
  unfold kmap. rewrite map_size_list_to_map; [by rewrite length_fmap, length_map_to_list |].
  rewrite <- list_fmap_compose. change (NoDup (f ∘ fst <$> map_to_list m)).
  rewrite list_fmap_compose. apply (NoDup_fmap_2 f), NoDup_fst_map_to_list.
Qed.
