(* ===== verification/Bytes.v ===== *)
(** * Byte strings

    Byte slices as lists of 8-bit words: big- and little-endian encodings of
    integers ([to_be_bytes], [from_be_bytes] and their little-endian twins),
    and the in-place writes Rust performs on [&mut [u8]]. *)

From S2P Require Import Prelude.

Local Open Scope Z_scope.

Abbreviation bytes := (list byte).

(** ** Endianness *)

Fixpoint le_bytes (n : nat) (z : Z) : bytes :=
  match n with
  | O => []
  | S n => U8 z :: le_bytes n (z / 256)
  end.

Fixpoint le_val (bs : bytes) : Z :=
  match bs with
  | [] => 0
  | b :: bs => uv b + 256 * le_val bs
  end.

Definition be_bytes (n : nat) (z : Z) : bytes := reverse (le_bytes n z).
Definition be_val (bs : bytes) : Z := le_val (reverse bs).

Lemma length_le_bytes n z : length (le_bytes n z) = n.
Proof. revert z. induction n; intros z; simpl; [done | by rewrite IHn]. Qed.

Lemma length_be_bytes n z : length (be_bytes n z) = n.
Proof. unfold be_bytes. by rewrite length_reverse, length_le_bytes. Qed.

Lemma le_val_bound bs : 0 <= le_val bs < 256 ^ Z.of_nat (length bs).
Proof.
  induction bs as [| b bs IH]; simpl; [lia |].
  replace (Z.of_nat (S (length bs))) with (Z.succ (Z.of_nat (length bs))) by lia.
  rewrite Z.pow_succ_r by lia. word_lia.
Qed.

Lemma le_val_le_bytes n z : le_val (le_bytes n z) = z mod 256 ^ Z.of_nat n.
Proof.
  revert z. induction n as [| n IH]; intros z; simpl; [by rewrite Z.mod_1_r |].
  rewrite IH, uv_of.
  replace (Z.of_nat (S n)) with (1 + Z.of_nat n) by lia.
  rewrite Z.pow_add_r, Z.pow_1_r by lia.
  rewrite Z.rem_mul_r by lia. word_lia.
Qed.

Lemma le_bytes_le_val bs : le_bytes (length bs) (le_val bs) = bs.
Proof.
  induction bs as [| b bs IH]; simpl; [done |].
  f_equal.
  - apply uint_eq. rewrite uv_of.
    rewrite (Z.mul_comm 256), Z.mod_add by lia. apply Z.mod_small, uint_range.
  - rewrite (Z.mul_comm 256), Z.div_add by lia.
    rewrite Z.div_small by apply (uint_range b). apply IH.
Qed.

Lemma be_val_bound bs : 0 <= be_val bs < 256 ^ Z.of_nat (length bs).
Proof. unfold be_val. rewrite <- (length_reverse bs). apply le_val_bound. Qed.

Lemma be_val_be_bytes n z : be_val (be_bytes n z) = z mod 256 ^ Z.of_nat n.
Proof. unfold be_val, be_bytes. by rewrite reverse_involutive, le_val_le_bytes. Qed.

Lemma be_bytes_be_val bs : be_bytes (length bs) (be_val bs) = bs.
Proof.
  unfold be_bytes, be_val. rewrite <- (length_reverse bs), le_bytes_le_val.
  by rewrite reverse_involutive.
Qed.

Lemma le_val_app xs ys :
  le_val (xs ++ ys) = le_val xs + 256 ^ Z.of_nat (length xs) * le_val ys.
Proof.
  induction xs as [| x xs IH]; simpl; [lia |].
  rewrite IH. replace (Z.of_nat (S (length xs))) with (Z.succ (Z.of_nat (length xs))) by lia.
  rewrite Z.pow_succ_r by lia. lia.
Qed.

Lemma le_val_inj xs ys : length xs = length ys -> le_val xs = le_val ys -> xs = ys.
Proof. intros Hl Hv. by rewrite <- (le_bytes_le_val xs), Hl, Hv, le_bytes_le_val. Qed.

Lemma be_val_inj xs ys : length xs = length ys -> be_val xs = be_val ys -> xs = ys.
Proof. intros Hl Hv. by rewrite <- (be_bytes_be_val xs), Hl, Hv, be_bytes_be_val. Qed.

(** [uN::from_be_bytes] and [uN::to_be_bytes], for the widths the code uses. *)

Definition be_u16 (bs : bytes) : u16 := U16 (be_val bs).
Definition be_u32 (bs : bytes) : u32 := U32 (be_val bs).

Definition u16_be (x : u16) : bytes := be_bytes 2 (uv x).
Definition u32_be (x : u32) : bytes := be_bytes 4 (uv x).

Lemma be_u16_u16_be x : be_u16 (u16_be x) = x.
Proof.
  apply uint_eq. unfold be_u16, u16_be. rewrite be_val_be_bytes, uv_of.
  rewrite !Z.mod_small; [done | word_lia | word_lia].
Qed.

Lemma be_u32_u32_be x : be_u32 (u32_be x) = x.
Proof.
  apply uint_eq. unfold be_u32, u32_be. rewrite be_val_be_bytes, uv_of.
  rewrite !Z.mod_small; [done | word_lia | word_lia].
Qed.

Lemma uv_be_u16 bs : length bs = 2%nat -> uv (be_u16 bs) = be_val bs.
Proof.
  intros H. unfold be_u16. apply uv_of_small.
  pose proof (be_val_bound bs) as B. rewrite H in B. word_lia.
Qed.

Lemma uv_be_u32 bs : length bs = 4%nat -> uv (be_u32 bs) = be_val bs.
Proof.
  intros H. unfold be_u32. apply uv_of_small.
  pose proof (be_val_bound bs) as B. rewrite H in B. word_lia.
Qed.

Lemma u16_be_be_u16 bs : length bs = 2%nat -> u16_be (be_u16 bs) = bs.
Proof. intros H. unfold u16_be. rewrite uv_be_u16, <- H by done. apply be_bytes_be_val. Qed.

Lemma u32_be_be_u32 bs : length bs = 4%nat -> u32_be (be_u32 bs) = bs.
Proof. intros H. unfold u32_be. rewrite uv_be_u32, <- H by done. apply be_bytes_be_val. Qed.

#[export] Hint Rewrite be_u16_u16_be be_u32_u32_be length_be_bytes length_le_bytes : up4.

(** ** Slices *)

(** [slice.first_chunk::<n>()]. *)
Definition first_chunk {A} (n : nat) (l : list A) : option (list A) :=
  if decide (n <= length l)%nat then Some (take n l) else None.

(** [slice.get(a..b)], for [a <= b]. *)
Definition get_range {A} (a b : nat) (l : list A) : option (list A) :=
  if decide (a <= b /\ b <= length l)%nat then Some (take (b - a) (drop a l)) else None.

(** [&slice[a..b]] where the range is known to lie inside the slice. *)
Definition slice {A} (a b : nat) (l : list A) : list A := take (b - a) (drop a l).
Arguments slice : simpl never.

(** [slice[i]], for an index the caller has checked. *)
Definition byte_at (l : bytes) (i : nat) : byte := l !!! i.

(** [slice[i..i + src.len()].copy_from_slice(src)] is [list_inserts i src]. *)
Abbreviation copy_at := list_inserts.

Lemma first_chunk_Some {A} n (l c : list A) :
  first_chunk n l = Some c <-> (n <= length l)%nat /\ c = take n l.
Proof.
  unfold first_chunk. case_decide; split.
  - by intros [= <-].
  - by intros [_ ->].
  - done.
  - lia.
Qed.

Lemma first_chunk_None {A} n (l : list A) :
  first_chunk n l = None <-> (length l < n)%nat.
Proof. unfold first_chunk. case_decide; split; try done; lia. Qed.

Lemma length_first_chunk {A} n (l c : list A) :
  first_chunk n l = Some c -> length c = n.
Proof. intros [H ->]%first_chunk_Some. rewrite length_take. lia. Qed.

Lemma length_slice {A} a b (l : list A) :
  (b <= length l)%nat -> length (slice a b l) = (b - a)%nat.
Proof. intros H. unfold slice. rewrite length_take, length_drop. lia. Qed.

Lemma slice_lookup {A} a b (l : list A) i :
  (i < b - a)%nat -> slice a b l !! i = l !! (a + i)%nat.
Proof. intros H. unfold slice. rewrite lookup_take_lt by lia. apply lookup_drop. Qed.

Lemma lookup_copy_at {A} (l : list A) i src j :
  (i + length src <= length l)%nat ->
  copy_at i src l !! j =
    if decide (i <= j /\ j < i + length src)%nat then src !! (j - i)%nat else l !! j.
Proof.
  intros H. case_decide as D.
  - apply list_lookup_inserts; lia.
  - destruct (decide (j < i)%nat); [apply list_lookup_inserts_lt; lia |].
    apply list_lookup_inserts_ge. lia.
Qed.

(** A write inside a prefix. *)
Lemma copy_at_app {A} i (src p q : list A) :
  (i + length src <= length p)%nat -> copy_at i src (p ++ q) = copy_at i src p ++ q.
Proof.
  intros H. apply list_eq. intros j. rewrite lookup_copy_at by (rewrite length_app; lia).
  destruct (decide (j < length p)%nat).
  - rewrite !lookup_app_l by (rewrite ?length_inserts; lia). by rewrite lookup_copy_at by lia.
  - rewrite decide_False by lia. rewrite !lookup_app_r by (rewrite ?length_inserts; lia). by rewrite length_inserts.
Qed.

Lemma copy_at_all {A} (src l : list A) :
  length src = length l -> copy_at 0 src l = src.
Proof.
  intros H. pose proof (list_inserts_0_r src l [] H) as E. by rewrite !app_nil_r in E.
Qed.
