(* ===== verification/Text.v ===== *)
(** * Text

    The parts of Rust's standard library through which operator text becomes
    numbers and numbers become text: [uN::from_str], [from_str_radix],
    [to_string], the two-digit hex format, [str::split] and [str::split_once].
    Text is a [string] at the interfaces and a list of characters inside. *)

From S2P Require Import Prelude Bytes.

Local Open Scope Z_scope.

Abbreviation chars := String.list_ascii_of_string.
Abbreviation unchars := String.string_of_list_ascii.

Lemma chars_unchars l : chars (unchars l) = l.
Proof. apply String.list_ascii_of_string_of_list_ascii. Qed.

Lemma unchars_chars s : unchars (chars s) = s.
Proof. apply String.string_of_list_ascii_of_string. Qed.

#[export] Hint Rewrite chars_unchars unchars_chars : up4.

(** The character with a given code. *)
Definition chr (z : Z) : ascii := Ascii.ascii_of_nat (Z.to_nat z).
Definition code (c : ascii) : Z := Z.of_nat (Ascii.nat_of_ascii c).

Lemma chr_code c : chr (code c) = c.
Proof. unfold chr, code. by rewrite Nat2Z.id, Ascii.ascii_nat_embedding. Qed.

(** ** Digits *)

(** [char::to_digit(radix)], for radix at most 16. *)
Definition to_digit (radix : Z) (c : ascii) : option Z :=
  let n := code c in
  let v :=
    if (48 <=? n) && (n <=? 57) then Some (n - 48)
    else if (97 <=? n) && (n <=? 102) then Some (n - 87)
    else if (65 <=? n) && (n <=? 70) then Some (n - 55)
    else None in
  match v with
  | Some d => if d <? radix then Some d else None
  | None => None
  end.

Definition digit_char (d : Z) : ascii := if d <? 10 then chr (48 + d) else chr (87 + d).

Fixpoint parse_digits (radix : Z) (cs : list ascii) (acc : Z) : option Z :=
  match cs with
  | [] => Some acc
  | c :: cs =>
      match to_digit radix c with
      | Some d => parse_digits radix cs (acc * radix + d)
      | None => None
      end
  end.

(** [uN::from_str_radix]: an optional [+], then at least one digit, and no
    overflow.  ([uN::from_str] is radix 10.)  [max] is [uN::MAX]. *)
Definition from_str_radix (max radix : Z) (cs : list ascii) : option Z :=
  let digits := match cs with
                | "+"%char :: rest => rest
                | _ => cs
                end in
  match digits with
  | [] => None
  | _ =>
      match parse_digits radix digits 0 with
      | Some v => if v <=? max then Some v else None
      | None => None
      end
  end.

(** Decimal rendering, [uN::to_string]; the fuel is the number of bits. *)
Fixpoint dec_aux (fuel : nat) (n : Z) (acc : list ascii) : list ascii :=
  match fuel with
  | O => acc
  | S f =>
      if n <? 10 then digit_char n :: acc
      else dec_aux f (n / 10) (digit_char (n mod 10) :: acc)
  end.

Definition dec (n : Z) : list ascii := dec_aux (S (Z.to_nat (Z.log2 n))) n [].

(** [{:02x}] of a byte. *)
Definition hex2 (b : byte) : list ascii := [digit_char (uv b / 16); digit_char (uv b mod 16)].

Lemma to_digit_digit_char radix d :
  0 <= d < radix -> radix <= 16 -> to_digit radix (digit_char d) = Some d.
Proof.
  intros H Hr.
  assert (exists n : nat, d = Z.of_nat n /\ (n < 16)%nat) as (n & -> & Hn)
    by (exists (Z.to_nat d); lia).
  assert (to_digit 16 (digit_char (Z.of_nat n)) = Some (Z.of_nat n)) as E.
  { do 16 (destruct n as [| n]; [reflexivity |]). lia. }
  unfold to_digit in *. destruct (if _ : bool then _ else _) as [v |]; [| done].
  destruct (v <? 16); [| done]. injection E as ->. by rewrite (proj2 (Z.ltb_lt _ _)) by lia.
Qed.

Lemma parse_dec_aux fuel n acc :
  0 <= n < 2 ^ Z.of_nat fuel ->
  parse_digits 10 (dec_aux fuel n acc) 0 = parse_digits 10 acc n.
Proof.
  revert n acc. induction fuel as [| f IH]; intros n acc H.
  { assert (n = 0) as -> by (cbn in H; lia). done. }
  cbn [dec_aux]. destruct (Z.ltb_spec n 10).
  - cbn [parse_digits]. by rewrite to_digit_digit_char by lia.
  - rewrite Nat2Z.inj_succ, Z.pow_succ_r in H by lia.
    rewrite IH by (Z.to_euclidean_division_equations; lia). cbn [parse_digits].
    rewrite to_digit_digit_char by (Z.to_euclidean_division_equations; lia).
    f_equal. Z.to_euclidean_division_equations; lia.
Qed.

Lemma dec_fuel n : 0 <= n -> 0 <= n < 2 ^ Z.of_nat (S (Z.to_nat (Z.log2 n))).
Proof.
  intros H. split; [done |]. rewrite Nat2Z.inj_succ, Z2Nat.id by apply Z.log2_nonneg.
  destruct (Z.eq_dec n 0) as [-> |]; [done |]. apply Z.log2_spec. lia.
Qed.

Lemma parse_dec n : 0 <= n -> parse_digits 10 (dec n) 0 = Some n.
Proof. intros H. unfold dec. by rewrite parse_dec_aux by by apply dec_fuel. Qed.

(** A rendered number consists of decimal digits and is not empty. *)
Definition is_dec_digit (c : ascii) : Prop := exists d, 0 <= d < 10 /\ c = digit_char d.

Lemma dec_aux_digits fuel n acc :
  0 <= n -> Forall is_dec_digit acc -> Forall is_dec_digit (dec_aux fuel n acc).
Proof.
  revert n acc. induction fuel as [| f IH]; intros n acc Hn Hacc; [done |].
  cbn [dec_aux]. destruct (Z.ltb_spec n 10).
  - constructor; [exists n; split; [lia | done] | done].
  - apply IH; [Z.to_euclidean_division_equations; lia |].
    constructor; [| done]. eexists. split; [| done].
    Z.to_euclidean_division_equations; lia.
Qed.

Lemma dec_digits n : 0 <= n -> Forall is_dec_digit (dec n).
Proof. intros H. by apply dec_aux_digits. Qed.

Lemma dec_not_nil n : dec n <> [].
Proof.
  assert (forall f m acc, acc <> [] -> dec_aux f m acc <> []) as Haux.
  { induction f as [| f IH]; intros m acc Ha; [done |]. cbn [dec_aux].
    destruct (m <? 10); [done |]. by apply IH. }
  unfold dec. cbn [dec_aux]. destruct (n <? 10); [done |]. by apply Haux.
Qed.

Lemma digit_char_inj d e : 0 <= d < 10 -> 0 <= e < 10 -> digit_char d = digit_char e -> d = e.
Proof.
  intros Hd He E. assert (to_digit 10 (digit_char d) = to_digit 10 (digit_char e)) as F
    by by rewrite E.
  rewrite !to_digit_digit_char in F by lia. congruence.
Qed.

Lemma is_dec_digit_ne c (x : ascii) :
  is_dec_digit c -> to_digit 10 x = None -> c <> x.
Proof. intros (d & Hd & ->) Hx <-. by rewrite to_digit_digit_char in Hx by lia. Qed.

(** [to_string] then [parse] is the identity on [uN]. *)
Lemma from_str_dec max n :
  0 <= n <= max -> from_str_radix max 10 (dec n) = Some n.
Proof.
  intros H. pose proof (dec_digits n ltac:(lia)) as Hd.
  pose proof (dec_not_nil n) as Hn. pose proof (parse_dec n ltac:(lia)) as Hp.
  unfold from_str_radix. destruct (dec n) as [| c cs]; [done |].
  apply Forall_cons_1 in Hd as [Hc _].
  pose proof (is_dec_digit_ne c "+"%char Hc eq_refl) as Hne.
  replace (match c with
           | "+"%char => cs
           | _ => c :: cs
           end) with (c :: cs)
    by (destruct c as [[] [] [] [] [] [] [] []]; done).
  rewrite Hp. by rewrite (proj2 (Z.leb_le _ _)) by lia.
Qed.

(** ** Splitting and joining *)

(** [str::split(pattern)] for a one-character pattern: never empty. *)
Fixpoint split_on (p : ascii -> bool) (cs : list ascii) : list (list ascii) :=
  match cs with
  | [] => [[]]
  | c :: cs =>
      if p c then [] :: split_on p cs
      else match split_on p cs with
           | part :: parts => (c :: part) :: parts
           | [] => [[c]]
           end
  end.

(** The pieces with a separator between them. *)
Fixpoint join (sep : ascii) (parts : list (list ascii)) : list ascii :=
  match parts with
  | [] => []
  | [p] => p
  | p :: parts => p ++ sep :: join sep parts
  end.

(** [str::strip_prefix]. *)
Fixpoint strip_prefix (p cs : list ascii) : option (list ascii) :=
  match p, cs with
  | [], _ => Some cs
  | _, [] => None
  | a :: p, c :: cs => if Ascii.eqb a c then strip_prefix p cs else None
  end.

(** [str::split_once(c)]. *)
Fixpoint split_once (sep : ascii) (cs : list ascii) : option (list ascii * list ascii) :=
  match cs with
  | [] => None
  | c :: cs =>
      if Ascii.eqb c sep then Some ([], cs)
      else match split_once sep cs with
           | Some (a, b) => Some (c :: a, b)
           | None => None
           end
  end.

Lemma split_on_app p part rest c :
  Forall (fun x => p x = false) part -> p c = true ->
  split_on p (part ++ c :: rest) = part :: split_on p rest.
Proof.
  intros Hp Hc. induction Hp as [| x part Hx Hp IH]; simpl; [by rewrite Hc |].
  by rewrite Hx, IH.
Qed.

Lemma split_on_none p part :
  Forall (fun x => p x = false) part -> split_on p part = [part].
Proof. induction 1 as [| x part Hx Hp IH]; simpl; [done |]. by rewrite Hx, IH. Qed.

Lemma split_join p sep parts :
  parts <> [] -> p sep = true -> Forall (Forall (fun x => p x = false)) parts ->
  split_on p (join sep parts) = parts.
Proof.
  intros Hn Hs. induction parts as [| a [| b parts] IH]; [done | |].
  - intros [Ha _]%Forall_cons_1. by apply split_on_none.
  - intros [Ha Hrest]%Forall_cons_1. change (join sep (a :: b :: parts)) with
      (a ++ sep :: join sep (b :: parts)).
    rewrite split_on_app by done. f_equal. by apply IH.
Qed.

Lemma split_once_app sep a b :
  Forall (fun x => Ascii.eqb x sep = false) a ->
  split_once sep (a ++ sep :: b) = Some (a, b).
Proof.
  induction 1 as [| x a Hx Ha IH]; simpl; [by rewrite Ascii.eqb_refl |].
  by rewrite Hx, IH.
Qed.

Lemma split_once_none sep a :
  Forall (fun x => Ascii.eqb x sep = false) a -> split_once sep a = None.
Proof. induction 1 as [| x a Hx Ha IH]; simpl; [done |]. by rewrite Hx, IH. Qed.

(** Rendered numbers contain none of the separators. *)
Lemma dec_no_sep (p : ascii -> bool) n :
  0 <= n -> (forall c, p c = true -> to_digit 10 c = None) ->
  Forall (fun x => p x = false) (dec n).
Proof.
  intros Hn Hp. eapply Forall_impl; [by apply dec_digits |].
  intros c Hc. cbn. destruct (p c) eqn:E; [| done].
  by destruct (is_dec_digit_ne c c Hc (Hp c E)).
Qed.

(** Statements about every byte are checked by evaluation. *)
Lemma byte_forall (P : byte -> bool) :
  forallb (fun z => P (U8 z)) (seqZ 0 256) = true -> forall b, P b = true.
Proof.
  intros H b. rewrite forallb_forall in H.
  rewrite <- (u_of_uv b). apply H. apply list_elem_of_In, elem_of_seqZ. word_lia.
Qed.

(** A rendered number never starts with a prefix whose second character is
    not a digit. *)
Lemma strip_prefix_dec n a x :
  0 <= n -> to_digit 10 x = None -> strip_prefix [a; x] (dec n) = None.
Proof.
  intros Hn Hx. pose proof (dec_digits n Hn) as Hd.
  destruct (dec n) as [| c1 [| c2 cs]]; [done | |]; cbn [strip_prefix].
  - by destruct (Ascii.eqb a c1).
  - destruct (Ascii.eqb a c1); [| done]. destruct (Ascii.eqb_spec x c2) as [-> |]; [| done].
    apply Forall_cons_1 in Hd as [_ [Hc _]%Forall_cons_1].
    by destruct (is_dec_digit_ne c2 c2 Hc Hx).
Qed.
