(* ===== verification/Lines.v ===== *)
(** * Lines and words

    The parts of Rust's [str] through which whole files are read as text:
    [from_utf8], [str::lines], [str::trim], [str::trim_start],
    [str::split_whitespace] and [str::contains].  A text is a list of bytes (the
    characters of [Text]); white space is Unicode's, in its UTF-8 encoding. *)

From S2P Require Import Prelude Bytes Text.

Local Open Scope Z_scope.

Definition LF : ascii := chr 10.
Definition CR : ascii := chr 13.

(** ** UTF-8 *)

Definition in_range (lo hi : Z) (c : ascii) : bool := (lo <=? code c) && (code c <=? hi).
Definition cont (c : ascii) : bool := in_range 128 191 c.

(** [core::str::from_utf8]: well-formed sequences, no overlong form, no
    surrogate, nothing past U+10FFFF. *)
Fixpoint utf8_valid (cs : list ascii) : bool :=
  match cs with
  | [] => true
  | a :: r =>
      if in_range 0 127 a then utf8_valid r
      else match r with
      | [] => false
      | b :: r2 =>
          if in_range 194 223 a then cont b && utf8_valid r2
          else match r2 with
          | [] => false
          | c :: r3 =>
              if in_range 224 239 a then
                (if code a =? 224 then in_range 160 191 b
                 else if code a =? 237 then in_range 128 159 b else cont b)
                && cont c && utf8_valid r3
              else match r3 with
              | [] => false
              | d :: r4 =>
                  in_range 240 244 a
                  && (if code a =? 240 then in_range 144 191 b
                      else if code a =? 244 then in_range 128 143 b else cont b)
                  && cont c && cont d && utf8_valid r4
              end
          end
      end
  end.

(** ** White space ([char::is_whitespace], on encoded text) *)

Definition ws1 (a : ascii) : bool := in_range 9 13 a || (code a =? 32).
Definition ws2 (a b : ascii) : bool := (code a =? 194) && ((code b =? 133) || (code b =? 160)).
Definition ws3 (a b c : ascii) : bool :=
  ((code a =? 225) && (code b =? 154) && (code c =? 128))
  || ((code a =? 226) && (code b =? 128)
      && (in_range 128 138 c || (code c =? 168) || (code c =? 169) || (code c =? 175)))
  || ((code a =? 226) && (code b =? 129) && (code c =? 159))
  || ((code a =? 227) && (code b =? 128) && (code c =? 128)).

(** Drop white space from the front of a sequence; the encodings as given. *)
Fixpoint drop_ws (two : ascii -> ascii -> bool) (three : ascii -> ascii -> ascii -> bool)
    (cs : list ascii) : list ascii :=
  match cs with
  | [] => []
  | a :: r =>
      if ws1 a then drop_ws two three r
      else match r with
      | [] => cs
      | b :: r2 =>
          if two a b then drop_ws two three r2
          else match r2 with
          | [] => cs
          | c :: r3 => if three a b c then drop_ws two three r3 else cs
          end
      end
  end.

Definition trim_start (cs : list ascii) : list ascii := drop_ws ws2 ws3 cs.
Definition trim_end (cs : list ascii) : list ascii :=
  reverse (drop_ws (fun b a => ws2 a b) (fun c b a => ws3 a b c) (reverse cs)).
Definition trim (cs : list ascii) : list ascii := trim_end (trim_start cs).

(** The pieces between white space, the empty ones too. *)
Definition cons_head (a : ascii) (ps : list (list ascii)) : list (list ascii) :=
  match ps with p :: ps => (a :: p) :: ps | [] => [[a]] end.

Fixpoint split_ws (cs : list ascii) : list (list ascii) :=
  match cs with
  | [] => [[]]
  | a :: r =>
      if ws1 a then [] :: split_ws r
      else match r with
      | [] => [[a]]
      | b :: r2 =>
          if ws2 a b then [] :: split_ws r2
          else match r2 with
          | [] => cons_head a (split_ws r)
          | c :: r3 => if ws3 a b c then [] :: split_ws r3 else cons_head a (split_ws r)
          end
      end
  end.

(** [str::split_whitespace] *)
Definition split_whitespace (cs : list ascii) : list (list ascii) := filter (fun p => p <> []) (split_ws cs).

(** ** Lines *)

(** [split_inclusive('\n')]: every piece but the last ends in a line feed, and
    no piece is empty. *)
Fixpoint split_inclusive (cs : list ascii) : list (list ascii) :=
  match cs with
  | [] => []
  | c :: r =>
      if decide (c = LF) then [c] :: split_inclusive r
      else match split_inclusive r with
      | [] => [[c]]
      | l :: ls => (c :: l) :: ls
      end
  end.

(** A line without its line feed, and without the carriage return before it. *)
Definition line_end (l : list ascii) : list ascii :=
  match reverse l with
  | c :: r =>
      if decide (c = LF) then
        match r with
        | d :: r' => if decide (d = CR) then reverse r' else reverse r
        | [] => []
        end
      else l
  | [] => l
  end.

(** [str::lines] *)
Definition lines (cs : list ascii) : list (list ascii) := line_end <$> split_inclusive cs.

(** [str::starts_with] and [str::contains] of a pattern that is a string. *)
Fixpoint starts_with (p cs : list ascii) : bool :=
  match p, cs with
  | [], _ => true
  | a :: p, c :: cs => bool_decide (a = c) && starts_with p cs
  | _ :: _, [] => false
  end.

Fixpoint contains (p cs : list ascii) : bool :=
  starts_with p cs || match cs with [] => false | _ :: cs => contains p cs end.

(** ** Lemmas *)

(** Each line followed by a line feed. *)
Definition unlines (ls : list (list ascii)) : list ascii := ls ≫= (fun l => l ++ [LF]).

(** A line that comes back as it was written: no line feed in it, no carriage
    return at its end. *)
Definition clean_line (l : list ascii) : Prop := (LF ∉ l) /\ last l <> Some CR.

#[export] Instance clean_line_dec l : Decision (clean_line l).
Proof. unfold clean_line. apply _. Defined.

Lemma split_inclusive_line l cs :
  LF ∉ l -> split_inclusive (l ++ LF :: cs) = (l ++ [LF]) :: split_inclusive cs.
Proof.
  induction l as [| c l IH]; intros H; cbn [app split_inclusive]; [by rewrite decide_True |].
  rewrite not_elem_of_cons in H. destruct H as [Hc Hl].
  rewrite decide_False by congruence. by rewrite IH.
Qed.

Lemma split_inclusive_rest l : LF ∉ l -> l <> [] -> split_inclusive l = [l].
Proof.
  induction l as [| c l IH]; intros H Hn; [done |]. cbn [split_inclusive].
  rewrite not_elem_of_cons in H. destruct H as [Hc Hl].
  rewrite decide_False by congruence. destruct l as [| d l]; [done |]. by rewrite IH.
Qed.

Lemma line_end_clean l : clean_line l -> line_end (l ++ [LF]) = l.
Proof.
  intros [_ Hl]. unfold line_end. rewrite reverse_app. change (reverse [LF]) with [LF].
  cbn [app]. rewrite decide_True by done. destruct (reverse l) as [| d r] eqn:E.
  - by rewrite <-(reverse_involutive l), E.
  - assert (l = reverse r ++ [d]) as Hld
      by (rewrite <-(reverse_involutive l), E, reverse_cons; done).
    rewrite decide_False.
    + rewrite reverse_cons. done.
    + intros ->. apply Hl. rewrite Hld. by rewrite last_snoc.
Qed.

Lemma line_end_rest l : LF ∉ l -> line_end l = l.
Proof.
  intros H. unfold line_end. destruct (reverse l) as [| d r] eqn:E; [done |].
  rewrite decide_False; [done |]. intros ->. apply H.
  rewrite <-(reverse_involutive l), E. rewrite elem_of_reverse. left.
Qed.

Lemma lines_line l cs : clean_line l -> lines (l ++ LF :: cs) = l :: lines cs.
Proof.
  intros H. unfold lines. rewrite split_inclusive_line by apply H. rewrite fmap_cons.
  by rewrite line_end_clean.
Qed.

(** Lines written with a line feed each are the lines read. *)
Lemma lines_unlines ls : Forall clean_line ls -> lines (unlines ls) = ls.
Proof.
  induction 1 as [| l ls Hl _ IH]; [done |].
  unfold unlines. cbn [mbind list_bind]. rewrite <-app_assoc. cbn [app].
  rewrite lines_line by done. by rewrite <-IH at 2.
Qed.

Lemma split_inclusive_concat cs : concat (split_inclusive cs) = cs.
Proof.
  induction cs as [| c cs IH]; [done |]. cbn [split_inclusive].
  case_decide; cbn [concat]; [by rewrite IH |].
  destruct (split_inclusive cs) as [| l ls]; cbn [concat app] in *; by rewrite IH.
Qed.

Lemma split_inclusive_pieces cs p :
  p ∈ split_inclusive cs -> exists l, (LF ∉ l) /\ (p = l ++ [LF] \/ p = l /\ l <> []).
Proof.
  revert p. induction cs as [| c cs IH]; intros p H; cbn [split_inclusive] in H;
    [by apply not_elem_of_nil in H |].
  case_decide as Hc.
  - apply elem_of_cons in H as [-> | H]; [| eauto]. exists []. subst c.
    split; [apply not_elem_of_nil | by left].
  - destruct (split_inclusive cs) as [| q ls] eqn:E.
    + apply list_elem_of_singleton in H as ->. exists [c].
      split; [rewrite list_elem_of_singleton; congruence | by right].
    + apply elem_of_cons in H as [-> | H]; [| apply IH; by right].
      destruct (IH q) as (l & Hl & Hq); [by left |]. exists (c :: l).
      split; [rewrite not_elem_of_cons; split; congruence || done |].
      destruct Hq as [-> | [-> _]]; [by left | by right].
Qed.

(** No line contains a line feed. *)
Lemma lines_no_LF cs l : l ∈ lines cs -> LF ∉ l.
Proof.
  unfold lines. rewrite list_elem_of_fmap. intros (p & -> & (q & Hq & [-> | [-> _]])%split_inclusive_pieces).
  - unfold line_end. rewrite reverse_app. change (reverse [LF]) with [LF]. cbn [app].
    rewrite decide_True by done. destruct (reverse q) as [| d r] eqn:E; [apply not_elem_of_nil |].
    assert (q = reverse r ++ [d]) as Hld
      by (rewrite <-(reverse_involutive q), E, reverse_cons; done).
    case_decide; [| by rewrite reverse_cons, <-Hld].
    intros Hr. apply Hq. rewrite Hld, elem_of_app. by left.
  - by rewrite line_end_rest.
Qed.

(** Text that begins and ends with printable ASCII is its own trimming. *)
Definition solid (c : ascii) : bool := in_range 33 126 c.

Lemma solid_range c : solid c = true -> 33 <= code c <= 126.
Proof. unfold solid, in_range. lia. Qed.

Lemma dec_solid n : 0 <= n -> Forall (fun c => solid c = true) (dec n).
Proof.
  intros H. eapply Forall_impl; [by apply dec_digits |]. intros c (d & Hd & ->).
  assert (exists k : nat, d = Z.of_nat k /\ (k < 10)%nat) as (k & -> & Hk) by (exists (Z.to_nat d); lia).
  do 10 (destruct k as [| k]; [done |]). lia.
Qed.

Lemma drop_ws_solid two three c r :
  solid c = true ->
  (forall b, two c b = false) -> (forall b d, three c b d = false) ->
  drop_ws two three (c :: r) = c :: r.
Proof.
  intros H%solid_range H2 H3. cbn [drop_ws].
  assert (ws1 c = false) as -> by (unfold ws1, in_range; lia).
  destruct r as [| b r]; [done |]. rewrite H2. destruct r as [| d r]; [done |]. by rewrite H3.
Qed.

Lemma trim_solid cs c d :
  head cs = Some c -> last cs = Some d -> solid c = true -> solid d = true -> trim cs = cs.
Proof.
  intros Hh Hl Hc Hd. unfold trim, trim_start. destruct cs as [| a r]; [done |].
  injection Hh as ->. rewrite drop_ws_solid; [| done | |].
  - unfold trim_end.
    destruct (reverse (c :: r)) as [| e s] eqn:E.
    { apply (f_equal reverse) in E. by rewrite reverse_involutive in E. }
    assert (e = d) as ->.
    { rewrite <-(reverse_involutive (c :: r)), E, reverse_cons, last_snoc in Hl. by injection Hl. }
    rewrite drop_ws_solid; [by rewrite <-E, reverse_involutive | done | |];
      intros; pose proof (solid_range _ Hd); unfold ws2, ws3, in_range; lia.
  - intros b. pose proof (solid_range _ Hc). unfold ws2. lia.
  - intros b e. pose proof (solid_range _ Hc). unfold ws3. lia.
Qed.

(** Words of printable ASCII. *)
Lemma split_ws_solid a r : solid a = true -> split_ws (a :: r) = cons_head a (split_ws r).
Proof.
  intros H%solid_range. cbn [split_ws].
  assert (ws1 a = false) as -> by (unfold ws1, in_range; lia).
  destruct r as [| b r2]; [done |].
  assert (ws2 a b = false) as -> by (unfold ws2; lia). destruct r2 as [| c r3]; [done |].
  by assert (ws3 a b c = false) as -> by (unfold ws3; lia).
Qed.

Lemma split_ws_word w rest :
  Forall (fun c => solid c = true) w ->
  split_ws (w ++ rest) = match split_ws rest with p :: ps => (w ++ p) :: ps | [] => [w] end.
Proof.
  induction 1 as [| a w Ha _ IH]; cbn [app].
  - destruct (split_ws rest) eqn:E; [| done]. exfalso. revert E. clear.
    assert (forall cs, split_ws cs <> []) as H; [| by apply H].
    intros [| a r]; [done |]. cbn [split_ws]. destruct (ws1 a); [done |].
    destruct r as [| b r2]; [done |]. destruct (ws2 a b); [done |].
    assert (forall ps, cons_head a ps <> []) as Hc by by intros [].
    destruct r2 as [| c r3]; [apply Hc |]. destruct (ws3 a b c); [done | apply Hc].
  - rewrite split_ws_solid by done. rewrite IH. by destruct (split_ws rest).
Qed.

Lemma split_whitespace_word w b rest :
  Forall (fun c => solid c = true) w -> w <> [] -> ws1 b = true ->
  split_whitespace (w ++ b :: rest) = w :: split_whitespace rest.
Proof.
  intros Hw Hn Hb. unfold split_whitespace. rewrite split_ws_word by done. cbn [split_ws]. rewrite Hb.
  rewrite app_nil_r, filter_cons_True by done. done.
Qed.

Lemma split_whitespace_last w :
  Forall (fun c => solid c = true) w -> w <> [] -> split_whitespace w = [w].
Proof.
  intros Hw Hn. unfold split_whitespace. pose proof (split_ws_word w [] Hw) as E. rewrite app_nil_r in E.
  rewrite E. cbn [split_ws]. by rewrite app_nil_r, filter_cons_True.
Qed.
