(* ===== verification/Wire.v ===== *)
(** * The overlay wire format (crates/up4-wire)

    The 12-byte overlay header ([encode], [decode]) and the per-flow sequence
    classifier ([Seq], [SeqTracker::observe]). *)

From S2P Require Import Prelude Bytes.

Local Open Scope Z_scope.

(** ** Constants and data *)

Definition OVERLAY_HDR_LEN : nat := 12.
Definition VERSION : byte := U8 1.
Definition VER_FLAGS : byte := U8 (Z.shiftl (uv VERSION) 4).
Definition INNER_MTU_V4 : nat := 1460.
Definition INNER_MTU_V6 : nat := 1440.
Definition PUNT_VPORT : u16 := U16 65535.

Definition segment_len (inner_len : nat) : nat := (OVERLAY_HDR_LEN + inner_len)%nat.

Record Seq := Seq_new { Seq_get : u32 }.

Record Hdr := MkHdr {
  hdr_ingress_vport : u16;
  hdr_seq : Seq;
  hdr_ts_us : u32;
}.

Inductive WireError :=
  | ShortBuffer
  | BadVersion (v : byte).

#[export] Instance Seq_eq_dec : EqDecision Seq.
Proof. solve_decision. Defined.
#[export] Instance Hdr_eq_dec : EqDecision Hdr.
Proof. solve_decision. Defined.
#[export] Instance WireError_eq_dec : EqDecision WireError.
Proof. solve_decision. Defined.

(** ** The codec *)

Definition encode (hdr : Hdr) : bytes :=
  [VER_FLAGS; U8 0] ++ u16_be (hdr_ingress_vport hdr)
    ++ u32_be (Seq_get (hdr_seq hdr)) ++ u32_be (hdr_ts_us hdr).

Definition version_nibble (b : byte) : byte := U8 (Z.shiftr (uv b) 4).

Definition decode (buf : bytes) : result Hdr WireError :=
  match first_chunk OVERLAY_HDR_LEN buf with
  | None => Err ShortBuffer
  | Some b =>
      let version := version_nibble (byte_at b 0) in
      if decide (version <> VERSION) then Err (BadVersion version)
      else Ok {| hdr_ingress_vport := be_u16 (slice 2 4 b);
                 hdr_seq := Seq_new (be_u32 (slice 4 8 b));
                 hdr_ts_us := be_u32 (slice 8 12 b) |}
  end.

(** ** Sequence numbers *)

Definition REORDER_WINDOW : Z := 1024.

Definition Seq_next (s : Seq) : Seq := Seq_new (U32 (uv (Seq_get s) + 1)).

(** [x as i32] of a [u32]: two's complement. *)
Definition as_i32 (z : Z) : Z := (z + 2 ^ 31) mod 2 ^ 32 - 2 ^ 31.

(** [self.0.wrapping_sub(other.0) as i32] *)
Definition Seq_delta (self other : Seq) : Z :=
  as_i32 (uv (U32 (uv (Seq_get self) - uv (Seq_get other)))).

Inductive SeqEvent :=
  | InOrder
  | Gap (missing : Z)
  | Reorder.

#[export] Instance SeqEvent_eq_dec : EqDecision SeqEvent.
Proof. solve_decision. Defined.

Record SeqTracker := MkSeqTracker { expected : option Seq }.

Definition SeqTracker_new : SeqTracker := MkSeqTracker None.

(** [observe(&mut self, seq)]: the event and the tracker afterwards. *)
Definition observe (t : SeqTracker) (s : Seq) : SeqEvent * SeqTracker :=
  match expected t with
  | None => (InOrder, MkSeqTracker (Some (Seq_next s)))
  | Some e =>
      let d := Seq_delta s e in
      if d =? 0 then (InOrder, MkSeqTracker (Some (Seq_next s)))
      else if 0 <? d then (Gap (Z.abs d), MkSeqTracker (Some (Seq_next s)))
      else if Z.abs d <=? REORDER_WINDOW then (Reorder, t)
      else (Reorder, MkSeqTracker (Some (Seq_next s)))
  end.

(** The receive path drives [observe] over the frames of a flow in order. *)
Fixpoint observe_all (t : SeqTracker) (ss : list Seq) : list SeqEvent * SeqTracker :=
  match ss with
  | [] => ([], t)
  | s :: ss =>
      let '(ev, t1) := observe t s in
      let '(evs, t2) := observe_all t1 ss in
      (ev :: evs, t2)
  end.

(** ** Codec lemmas *)

Lemma encode_unfold h :
  exists a b c d e f g i j k,
    u16_be (hdr_ingress_vport h) = [a; b] /\ u32_be (Seq_get (hdr_seq h)) = [c; d; e; f] /\
    u32_be (hdr_ts_us h) = [g; i; j; k] /\
    encode h = [VER_FLAGS; U8 0; a; b; c; d; e; f; g; i; j; k].
Proof.
  unfold encode, u16_be, u32_be, be_bytes.
  do 10 eexists. repeat split; reflexivity.
Qed.

Lemma length_encode h : length (encode h) = OVERLAY_HDR_LEN.
Proof. destruct (encode_unfold h) as (?&?&?&?&?&?&?&?&?&?&_&_&_&->). done. Qed.

#[export] Hint Rewrite length_encode : up4.

Lemma decode_short buf : decode buf = Err ShortBuffer <-> (length buf < OVERLAY_HDR_LEN)%nat.
Proof.
  unfold decode. destruct (first_chunk _ _) as [c |] eqn:E.
  - apply first_chunk_Some in E as [E _]. case_decide; split; try done; lia.
  - apply first_chunk_None in E. done.
Qed.

Lemma decode_segment h payload : decode (encode h ++ payload) = Ok h.
Proof.
  unfold decode. destruct (first_chunk _ _) as [c |] eqn:E.
  2: { apply first_chunk_None in E. rewrite length_app, (length_encode h) in E. lia. }
  apply first_chunk_Some in E as [_ ->].
  rewrite (take_app_length' (encode h)) by (symmetry; apply length_encode).
  destruct (encode_unfold h) as (a&b&c&d&e&f&g&i&j&k&Hv&Hs&Ht&->).
  rewrite decide_False by (intros H; apply H; reflexivity).
  unfold slice. cbn [take drop Nat.sub].
  rewrite <- Hv, <- Hs, <- Ht. autorewrite with up4.
  by destruct h as [? [?] ?].
Qed.

(** What the receiver ignores: the flag nibble and the reserved byte. *)
Definition mask_ignored (b : bytes) : bytes :=
  match b with
  | v :: _ :: rest => U8 (Z.shiftl (Z.shiftr (uv v) 4) 4) :: U8 0 :: rest
  | _ => b
  end.

(** A frame with the number the tracker expects. *)
Lemma observe_next s : observe (MkSeqTracker (Some s)) s = (InOrder, MkSeqTracker (Some (Seq_next s))).
Proof. unfold observe, Seq_delta. cbn [expected]. by rewrite Z.sub_diag. Qed.

(** ** Properties *)

(** Whatever follows it in the segment, an encoded overlay header decodes
    to the header that was encoded. *)
Theorem decode_encode h payload : decode (encode h ++ payload) = Ok h.
Proof. apply decode_segment. Qed.

Lemma version_nibble_flags b :
  version_nibble b = VERSION <-> U8 (Z.shiftl (Z.shiftr (uv b) 4) 4) = VER_FLAGS.
Proof.
  unfold version_nibble, VER_FLAGS, VERSION.
  rewrite !Z.shiftl_mul_pow2, !Z.shiftr_div_pow2 by lia.
  split; intros E%(f_equal uv); apply uint_eq; rewrite !uv_of in *; word_lia.
Qed.

Lemma list_12 {A} (l : list A) :
  (12 <= length l)%nat ->
  exists a b c d e f g h i j k m t, l = [a; b; c; d; e; f; g; h; i; j; k; m] ++ t.
Proof.
  intros H. do 12 (destruct l as [| ? l]; [simpl in H; lia |]). by do 13 eexists.
Qed.

(** [decode] accepts exactly the buffers of at least 12 bytes whose
    version nibble is 1, and the header it returns re-encodes to the bytes it
    read, up to the flag nibble and the reserved byte the format ignores. *)
Theorem decode_Ok_iff buf h :
  decode buf = Ok h <->
    (OVERLAY_HDR_LEN <= length buf)%nat /\
    mask_ignored (take OVERLAY_HDR_LEN buf) = encode h.
Proof.
  destruct (decide (OVERLAY_HDR_LEN <= length buf)%nat) as [Hl | Hl].
  2: { split; [| tauto]. intros H. assert (decode buf = Err ShortBuffer) as E
         by (apply decode_short; lia). congruence. }
  destruct (list_12 buf Hl) as (a&b&c&d&e&f&g&i&j&k&m&n&t&->).
  unfold decode, first_chunk. rewrite decide_True by done.
  change (take OVERLAY_HDR_LEN _) with [a; b; c; d; e; f; g; i; j; k; m; n].
  unfold slice, mask_ignored, byte_at, encode. cbn [take drop Nat.sub lookup_total list_lookup_total].
  transitivity (version_nibble a = VERSION /\
    h = {| hdr_ingress_vport := be_u16 [c; d]; hdr_seq := Seq_new (be_u32 [e; f; g; i]);
           hdr_ts_us := be_u32 [j; k; m; n] |}).
  { case_decide; split; try tauto; try done; [by intros [= <-] | by intros [_ ->]]. }
  rewrite version_nibble_flags. split.
  - intros [Hv ->]. split; [done |]. cbn [hdr_ingress_vport hdr_seq hdr_ts_us Seq_get].
    rewrite u16_be_be_u16, !u32_be_be_u32 by done. simpl. by rewrite Hv.
  - intros [_ E]. destruct (encode_unfold h) as (?&?&?&?&?&?&?&?&?&?&Hv&Hs&Ht&_).
    rewrite Hv, Hs, Ht in E. injection E as E0 <- <- <- <- <- <- <- <- <- <-.
    split; [done |]. rewrite <- Hv, <- Hs, <- Ht. autorewrite with up4.
    by destruct h as [? [?] ?].
Qed.

(** A non-version-1 segment long enough to carry a header is refused with the
    version it announced. *)
Lemma decode_bad_version buf v :
  decode buf = Err (BadVersion v) <->
    (OVERLAY_HDR_LEN <= length buf)%nat /\ v <> VERSION /\
    v = version_nibble (byte_at buf 0).
Proof.
  destruct (decide (OVERLAY_HDR_LEN <= length buf)%nat) as [Hl | Hl].
  2: { split; [| tauto]. intros H. assert (decode buf = Err ShortBuffer) as E
         by (apply decode_short; lia). congruence. }
  destruct (list_12 buf Hl) as (a&b&c&d&e&f&g&i&j&k&m&n&t&->).
  unfold decode, first_chunk. rewrite decide_True by done.
  change (byte_at (take OVERLAY_HDR_LEN _) 0) with a. change (byte_at (_ ++ t) 0) with a.
  case_decide as D; split; try done; [by intros [= <-] | by intros (_ & _ & ->) | intros (_ & ? & ->)].
  by destruct D.
Qed.

(** ** Sequence lemmas

    [seq_at p] is the wire value of the [p]-th frame of a flow: positions
    count without bound, the wire counter wraps. *)

Definition seq_at (p : Z) : Seq := Seq_new (U32 p).

Lemma Seq_next_at p : Seq_next (seq_at p) = seq_at (p + 1).
Proof.
  unfold Seq_next, seq_at. f_equal. cbn [Seq_get]. apply uint_eq. rewrite !uv_of.
  word_lia.
Qed.

Lemma Seq_delta_at p q :
  - 2 ^ 31 <= p - q < 2 ^ 31 -> Seq_delta (seq_at p) (seq_at q) = p - q.
Proof.
  intros H. unfold Seq_delta, seq_at, as_i32. cbn [Seq_get]. rewrite !uv_of.
  change (2 ^ 31) with 2147483648 in *. word_lia.
Qed.

(** Every sequence number is the position it spells. *)
Lemma seq_at_get s : seq_at (uv (Seq_get s)) = s.
Proof. destruct s. unfold seq_at. cbn [Seq_get]. by rewrite u_of_uv. Qed.

Lemma observe_at p q :
  - 2 ^ 31 <= q - p < 2 ^ 31 ->
  observe (MkSeqTracker (Some (seq_at p))) (seq_at q) =
    if q =? p then (InOrder, MkSeqTracker (Some (seq_at (q + 1))))
    else if p <? q then (Gap (q - p), MkSeqTracker (Some (seq_at (q + 1))))
    else if p - q <=? REORDER_WINDOW then (Reorder, MkSeqTracker (Some (seq_at p)))
    else (Reorder, MkSeqTracker (Some (seq_at (q + 1)))).
Proof.
  intros H. unfold observe. cbn [expected].
  rewrite Seq_delta_at, Seq_next_at by done.
  destruct (Z.eqb_spec q p) as [-> | Hn].
  - by rewrite Z.sub_diag.
  - rewrite (proj2 (Z.eqb_neq (q - p) 0)) by lia.
    destruct (Z.ltb_spec p q).
    + rewrite (proj2 (Z.ltb_lt 0 (q - p))) by lia. by rewrite Z.abs_eq by lia.
    + rewrite (proj2 (Z.ltb_ge 0 (q - p))) by lia.
      replace (Z.abs (q - p)) with (p - q) by lia. done.
Qed.

(** The frames of a lossy flow that does not reorder: each one is a later
    position, at most [2^31] ahead of the one before. *)
Fixpoint lossy (p : Z) (ps : list Z) : Prop :=
  match ps with
  | [] => True
  | q :: ps => p < q <= p + 2 ^ 31 /\ lossy q ps
  end.

Definition gap_of (e : SeqEvent) : Z := match e with Gap n => n | _ => 0 end.
Definition total_gap (es : list SeqEvent) : Z := foldr (fun e n => gap_of e + n) 0 es.

Lemma observe_lossy_tail p ps :
  lossy p ps ->
  exists es, observe_all (MkSeqTracker (Some (seq_at (p + 1)))) (seq_at <$> ps)
      = (es, MkSeqTracker (Some (seq_at (List.last ps p + 1)))) /\
    total_gap es = List.last ps p - p - Z.of_nat (length ps) /\
    Reorder ∉ es.
Proof.
  revert p. induction ps as [| q ps IH]; intros p.
  { intros _. exists []. cbn. repeat split; [lia | apply not_elem_of_nil]. }
  rewrite fmap_cons. cbn [lossy observe_all]. intros [Hq Hps].
  rewrite observe_at by lia.
  destruct (IH q Hps) as (es & E & Hg & Hr).
  rewrite last_cons_default.
  cbn [length]. destruct (Z.eqb_spec q (p + 1)) as [-> | Hn].
  - rewrite E. exists (InOrder :: es). repeat split; [cbn [total_gap foldr gap_of]; fold (total_gap es); lia |].
    by intros [? | ?]%elem_of_cons.
  - rewrite (proj2 (Z.ltb_lt (p + 1) q)), E by lia.
    exists (Gap (q - (p + 1)) :: es).
    repeat split; [cbn [total_gap foldr gap_of]; fold (total_gap es); lia |].
    by intros [? | ?]%elem_of_cons.
Qed.

(** C21: on a flow that loses frames but does not reorder them, starting
    anywhere on the ring, the gaps the tracker reports add up to exactly the
    number of frames missing between the first and the last arrival, nothing
    is called a reorder, and the tracker expects the frame after the last. *)
Theorem observe_all_counts_losses p ps :
  lossy p ps ->
  exists es, observe_all SeqTracker_new (seq_at <$> (p :: ps))
      = (es, MkSeqTracker (Some (seq_at (List.last ps p + 1)))) /\
    total_gap es = List.last ps p - p - Z.of_nat (length ps) /\
    Reorder ∉ es.
Proof.
  intros H. rewrite fmap_cons. cbn [observe_all]. unfold observe at 1. cbn [expected SeqTracker_new].
  rewrite Seq_next_at. destruct (observe_lossy_tail p ps H) as (es & -> & Hg & Hr).
  exists (InOrder :: es). repeat split; [done |]. by intros [? | ?]%elem_of_cons.
Qed.

(** The counter wraps between the second and the third frame; frames 1 and 5
    past the start are missing. *)
Example observe_all_counts_losses_witness :
  let ps := [2 ^ 32 - 1; 2 ^ 32; 2 ^ 32 + 2] in
  exists es, observe_all SeqTracker_new (seq_at <$> (2 ^ 32 - 3 :: ps))
      = (es, MkSeqTracker (Some (seq_at 3))) /\ total_gap es = 2 /\ Reorder ∉ es.
Proof.
  assert (lossy (2 ^ 32 - 3) [2 ^ 32 - 1; 2 ^ 32; 2 ^ 32 + 2]) as H by (cbn [lossy]; lia).
  exact (observe_all_counts_losses _ _ H).
Defined.

Lemma observe_all_run q n :
  fst (observe_all (MkSeqTracker (Some (seq_at q))) (seq_at <$> seqZ q (Z.of_nat n)))
    = replicate n InOrder.
Proof.
  revert q. induction n as [| n IH]; intros q; [done |].
  rewrite seqZ_cons, fmap_cons by lia. cbn [observe_all].
  rewrite observe_at, Z.eqb_refl by lia.
  replace (Z.pred (Z.of_nat (S n))) with (Z.of_nat n) by lia.
  replace (Z.succ q) with (q + 1) by lia.
  specialize (IH (q + 1)). destruct (observe_all _ _) as [es t]. cbn in *. congruence.
Qed.

(** A frame behind the expectation is a reorder; within the window the
    expectation stays (late frames do not create gaps), and further back the
    tracker resynchronises, so the peer's restarted run is in order again. *)
Theorem observe_behind p k n :
  0 < k <= 2 ^ 31 ->
  observe (MkSeqTracker (Some (seq_at p))) (seq_at (p - k)) =
    (Reorder, MkSeqTracker (Some (seq_at (if k <=? REORDER_WINDOW then p else p - k + 1)))) /\
  (REORDER_WINDOW < k ->
   fst (observe_all (MkSeqTracker (Some (seq_at p)))
          (seq_at <$> seqZ (p - k) (Z.of_nat (S n)))) = Reorder :: replicate n InOrder).
Proof.
  intros Hk.
  assert (observe (MkSeqTracker (Some (seq_at p))) (seq_at (p - k)) =
    (Reorder, MkSeqTracker (Some (seq_at (if k <=? REORDER_WINDOW then p else p - k + 1))))) as E.
  { rewrite observe_at by lia.
    rewrite (proj2 (Z.eqb_neq _ _)), (proj2 (Z.ltb_ge _ _)) by lia.
    replace (p - (p - k)) with k by lia. by destruct (k <=? REORDER_WINDOW). }
  split; [done |]. intros Hw.
  rewrite seqZ_cons, fmap_cons by lia. cbn [observe_all]. rewrite E.
  rewrite (proj2 (Z.leb_gt k REORDER_WINDOW)) by lia.
  replace (Z.pred (Z.of_nat (S n))) with (Z.of_nat n) by lia.
  replace (Z.succ (p - k)) with (p - k + 1) by lia.
  rewrite <- (observe_all_run (p - k + 1) n). by destruct (observe_all _ _) as [es t].
Qed.

Example observe_behind_witness :
  0 < 2000 <= 2 ^ 31 /\
  observe (MkSeqTracker (Some (seq_at 5000))) (seq_at (5000 - 2000)) =
    (Reorder, MkSeqTracker (Some (seq_at 3001))).
Proof.
  assert (0 < 2000 <= 2 ^ 31) as H by lia. split; [exact H |].
  exact (proj1 (observe_behind 5000 2000 3 H)).
Defined.
