(* ===== verification/Value.v ===== *)
(** * Control-plane scalars (crates/up4-engine/src/value.rs)

    MAC addresses, the closed set of value kinds, and the single gate through
    which operator text becomes a typed value.  [Ipv4Addr] is the standard
    library's type; its text form is modelled as the standard library reads
    and prints it. *)

From S2P Require Import Prelude Bytes Text.

Local Open Scope Z_scope.

(** ** Addresses *)

Inductive MacAddr := Mac (a b c d e g : byte).

#[export] Instance MacAddr_eq_dec : EqDecision MacAddr.
Proof. solve_decision. Defined.

Definition octets (m : MacAddr) : bytes :=
  let '(Mac a b c d e g) := m in [a; b; c; d; e; g].

(** [MacAddr::new] from six octets in wire order. *)
Definition mac_of (bs : bytes) : MacAddr :=
  Mac (bs !!! 0%nat) (bs !!! 1%nat) (bs !!! 2%nat) (bs !!! 3%nat) (bs !!! 4%nat) (bs !!! 5%nat).

Definition BROADCAST : MacAddr :=
  Mac (U8 255) (U8 255) (U8 255) (U8 255) (U8 255) (U8 255).

Definition is_group (m : MacAddr) : bool :=
  let '(Mac a _ _ _ _ _) := m in Z.land (uv a) 1 =? 1.

(** [Ipv4Addr::new(a, b, c, d)] *)
Inductive Ipv4Addr := Ipv4 (a b c d : byte).

#[export] Instance Ipv4Addr_eq_dec : EqDecision Ipv4Addr.
Proof. solve_decision. Defined.

Definition ip_octets (a : Ipv4Addr) : bytes := let '(Ipv4 a b c d) := a in [a; b; c; d].
Definition ip_of (bs : bytes) : Ipv4Addr :=
  Ipv4 (bs !!! 0%nat) (bs !!! 1%nat) (bs !!! 2%nat) (bs !!! 3%nat).

Lemma mac_of_octets m : mac_of (octets m) = m.
Proof. by destruct m. Qed.

Lemma octets_mac_of bs : length bs = 6%nat -> octets (mac_of bs) = bs.
Proof. intros H. do 7 (destruct bs as [| ? bs]; try done). Qed.

Lemma ip_of_octets a : ip_of (ip_octets a) = a.
Proof. by destruct a. Qed.

Lemma ip_octets_of bs : length bs = 4%nat -> ip_octets (ip_of bs) = bs.
Proof. intros H. do 5 (destruct bs as [| ? bs]; try done). Qed.

#[export] Instance MacAddr_countable : Countable MacAddr.
Proof. apply (inj_countable' octets mac_of). apply mac_of_octets. Defined.
#[export] Instance Ipv4Addr_countable : Countable Ipv4Addr.
Proof. apply (inj_countable' ip_octets ip_of). apply ip_of_octets. Defined.

(** ** Text of addresses *)

Definition mac_to_string (m : MacAddr) : string := unchars (join ":" (hex2 <$> octets m)).

Definition is_mac_sep (c : ascii) : bool := Ascii.eqb c ":" || Ascii.eqb c "-".

(** [u8::from_str_radix(part, 16)] over the parts, six of them exactly. *)
Definition mac_from_str (s : string) : option MacAddr :=
  let parts := split_on is_mac_sep (chars s) in
  match mapM (fun p => U8 <$> from_str_radix 255 16 p) parts with
  | Some [a; b; c; d; e; g] => Some (Mac a b c d e g)
  | _ => None
  end.

(** [Ipv4Addr::from_str]: four decimal octets, each of one to three digits,
    without a leading zero. *)
Definition ip_octet (cs : list ascii) : option byte :=
  match cs with
  | [] => None
  | c :: rest =>
      if decide (3 < length cs)%nat then None
      else if Ascii.eqb c "0" && negb (bool_decide (rest = [])) then None
      else match parse_digits 10 cs 0 with
           | Some v => if v <=? 255 then Some (U8 v) else None
           | None => None
           end
  end.

Definition ip_from_str (s : string) : option Ipv4Addr :=
  match mapM ip_octet (split_on (fun c => Ascii.eqb c ".") (chars s)) with
  | Some [a; b; c; d] => Some (Ipv4 a b c d)
  | _ => None
  end.

Definition ip_to_string (a : Ipv4Addr) : string :=
  unchars (join "." ((fun b => dec (uv b)) <$> ip_octets a)).

(** ** Kinds and values *)

Inductive ValKind := KindU8 | KindU16 | KindU32 | KindMac | KindIpv4.

Definition syntax (k : ValKind) : string :=
  match k with
  | KindU8 => "u8 (e.g. 64 or 0x40)"
  | KindU16 => "u16 (e.g. 1 or 0x1f)"
  | KindU32 => "u32"
  | KindMac => "mac (aa:bb:cc:dd:ee:ff)"
  | KindIpv4 => "ipv4 (10.0.0.1)"
  end.

Inductive TypedVal :=
  | ValU8 (v : byte)
  | ValU16 (v : u16)
  | ValU32 (v : u32)
  | ValMac (v : MacAddr)
  | ValIpv4 (v : Ipv4Addr).

Inductive ValueError :=
  | Malformed (kind : ValKind) (text : string)
  | Mismatched (expected got : ValKind).

#[export] Instance ValKind_eq_dec : EqDecision ValKind.
Proof. solve_decision. Defined.
#[export] Instance TypedVal_eq_dec : EqDecision TypedVal.
Proof. solve_decision. Defined.
#[export] Instance ValueError_eq_dec : EqDecision ValueError.
Proof. solve_decision. Defined.

Definition kind (v : TypedVal) : ValKind :=
  match v with
  | ValU8 _ => KindU8
  | ValU16 _ => KindU16
  | ValU32 _ => KindU32
  | ValMac _ => KindMac
  | ValIpv4 _ => KindIpv4
  end.

(** Decimal, or hexadecimal with an [0x] prefix, as a [u64]. *)
Definition parse_int (text : string) : option Z :=
  let cs := chars text in
  match strip_prefix (chars "0x") cs with
  | Some hex => from_str_radix (umax 64) 16 hex
  | None =>
      match strip_prefix (chars "0X") cs with
      | Some hex => from_str_radix (umax 64) 16 hex
      | None => from_str_radix (umax 64) 10 cs
      end
  end.

(** [TypedVal::parse(kind, text)]: the single text gate. *)
Definition parse (k : ValKind) (text : string) : result TypedVal ValueError :=
  let bad := Malformed k text in
  match k with
  | KindU8 => ok_or (v ← parse_int text; ValU8 <$> try_u 8 v) bad
  | KindU16 => ok_or (v ← parse_int text; ValU16 <$> try_u 16 v) bad
  | KindU32 => ok_or (v ← parse_int text; ValU32 <$> try_u 32 v) bad
  | KindMac => ok_or (ValMac <$> mac_from_str text) bad
  | KindIpv4 => ok_or (ValIpv4 <$> ip_from_str text) bad
  end.

(** [TypedVal::require] *)
Definition require (v : TypedVal) (expected : ValKind) : result TypedVal ValueError :=
  if decide (kind v = expected) then Ok v else Err (Mismatched expected (kind v)).

Definition as_u16 (v : TypedVal) : option u16 :=
  match v with ValU16 x => Some x | _ => None end.
Definition as_mac (v : TypedVal) : option MacAddr :=
  match v with ValMac x => Some x | _ => None end.
Definition as_ipv4 (v : TypedVal) : option Ipv4Addr :=
  match v with ValIpv4 x => Some x | _ => None end.

(** [impl Display for TypedVal] *)
Definition val_to_string (v : TypedVal) : string :=
  match v with
  | ValU8 x => unchars (dec (uv x))
  | ValU16 x => unchars (dec (uv x))
  | ValU32 x => unchars (dec (uv x))
  | ValMac x => mac_to_string x
  | ValIpv4 x => ip_to_string x
  end.

(** ** Lemmas *)

Lemma parse_hex2 b : from_str_radix 255 16 (hex2 b) = Some (uv b).
Proof.
  eapply bool_decide_eq_true_1.
  revert b. apply (byte_forall (fun b => bool_decide (from_str_radix 255 16 (hex2 b) = Some (uv b)))).
  vm_compute. reflexivity.
Qed.

Lemma hex2_no_sep b : Forall (fun c => is_mac_sep c = false) (hex2 b).
Proof.
  eapply bool_decide_eq_true_1.
  revert b. apply (byte_forall (fun b => bool_decide (Forall (fun c => is_mac_sep c = false) (hex2 b)))).
  vm_compute. reflexivity.
Qed.

Lemma ip_octet_dec b : ip_octet (dec (uv b)) = Some b.
Proof.
  eapply bool_decide_eq_true_1.
  revert b. apply (byte_forall (fun b => bool_decide (ip_octet (dec (uv b)) = Some b))).
  vm_compute. reflexivity.
Qed.

Lemma mac_from_to_string m : mac_from_str (mac_to_string m) = Some m.
Proof.
  unfold mac_from_str, mac_to_string. rewrite chars_unchars, split_join.
  - destruct m as [a b c d e g]. cbn [octets fmap list_fmap mapM].
    rewrite !parse_hex2. cbn. by rewrite !u_of_uv.
  - by destruct m.
  - reflexivity.
  - apply Forall_fmap, Forall_true. intros b. apply hex2_no_sep.
Qed.

Lemma ip_from_to_string a : ip_from_str (ip_to_string a) = Some a.
Proof.
  unfold ip_from_str, ip_to_string. rewrite chars_unchars, split_join.
  - destruct a as [a b c d]. cbn [ip_octets fmap list_fmap mapM].
    rewrite !ip_octet_dec. done.
  - by destruct a.
  - reflexivity.
  - apply Forall_fmap, Forall_true. intros b. apply dec_no_sep; [word_lia |].
    intros c. destruct (Ascii.eqb_spec c ".") as [-> |]; done.
Qed.

Lemma parse_int_dec n : 0 <= n <= umax 64 -> parse_int (unchars (dec n)) = Some n.
Proof.
  intros H. unfold parse_int. rewrite chars_unchars.
  change (chars "0x") with ["0"%char; "x"%char]. change (chars "0X") with ["0"%char; "X"%char].
  rewrite !strip_prefix_dec by (done || lia). by apply from_str_dec.
Qed.

Lemma mac_to_string_inj m1 m2 : mac_to_string m1 = mac_to_string m2 -> m1 = m2.
Proof. intros H%(f_equal mac_from_str). rewrite !mac_from_to_string in H. congruence. Qed.

Lemma ip_to_string_inj a1 a2 : ip_to_string a1 = ip_to_string a2 -> a1 = a2.
Proof. intros H%(f_equal ip_from_str). rewrite !ip_from_to_string in H. congruence. Qed.

#[export] Hint Rewrite mac_from_to_string ip_from_to_string : up4.

(** The kind of a parsed value is the kind that was asked for. *)
Lemma parse_kind k text v : parse k text = Ok v -> kind v = k.
Proof.
  unfold parse. destruct k; cbn -[parse_int mac_from_str ip_from_str try_u].
  all: repeat match goal with
    | |- context [ok_or (mbind _ ?o) _] => destruct o as [z |]; cbn -[try_u]; [| done]
    | |- context [ok_or (fmap _ ?o) _] => destruct o; cbn; [| done]
    end.
  all: by intros [= <-].
Qed.

(** Printing then parsing, for every kind. *)
Lemma parse_val_to_string v : parse (kind v) (val_to_string v) = Ok v.
Proof.
  assert (forall w (x : uint w), (w <= 64)%N -> 0 <= uv x <= umax 64) as Hmax.
  { intros w x Hw. pose proof (uint_range x). unfold umax.
    pose proof (Z.pow_le_mono_r 2 (Z.of_N w) (Z.of_N 64)). lia. }
  destruct v; cbn [kind val_to_string]; unfold parse.
  1-3: rewrite parse_int_dec by (apply Hmax; lia); cbn [mbind option_bind];
       rewrite (proj2 (try_u_Some _ _ _) eq_refl); done.
  - by rewrite mac_from_to_string.
  - by rewrite ip_from_to_string.
Qed.

(** ** Properties *)


(** Text is accepted as an integer kind exactly when it spells, in
    decimal or after [0x] in hexadecimal, a number that fits the kind's width;
    nothing is truncated. *)
Theorem parse_integer_iff text (n : Z) :
  parse_int text = Some n ->
  (forall v, parse KindU8 text = Ok v <-> exists x, v = ValU8 x /\ uv x = n) /\
  (forall v, parse KindU16 text = Ok v <-> exists x, v = ValU16 x /\ uv x = n) /\
  (forall v, parse KindU32 text = Ok v <-> exists x, v = ValU32 x /\ uv x = n) /\
  (2 ^ 16 <= n -> parse KindU16 text = Err (Malformed KindU16 text)).
Proof.
  intros H. unfold parse. rewrite H. cbn [mbind option_bind].
  assert (forall w (K : uint w -> TypedVal) (e : ValueError) v,
    (forall x y, K x = K y -> x = y) ->
    ok_or (K <$> try_u w n) e = Ok v <-> exists x, v = K x /\ uv x = n) as Hw.
  { intros w K e v HK. destruct (try_u w n) as [x |] eqn:E; cbn.
    - apply try_u_Some in E. split; [intros [= <-]; eauto |].
      intros (y & -> & Hy). f_equal. f_equal. apply uint_eq. congruence.
    - split; [done |]. intros (y & -> & Hy). symmetry in Hy. apply try_u_Some in Hy. congruence. }
  split; [| split; [| split]]; [by intros v; apply Hw; intros ?? [=] .. |].
  intros Hn. destruct (try_u 16 n) as [x |] eqn:E; [| done].
  apply try_u_Some in E. word_lia.
Qed.

Lemma parse_integer_iff_witness :
  parse KindU16 "0x10000" = Err (Malformed KindU16 "0x10000").
Proof.
  apply (parse_integer_iff "0x10000" 65536); [vm_compute; reflexivity | done].
Defined.
