(* ===== verification/Shim.v ===== *)
(** * The table shim (crates/up4-engine/src/shim.rs)

    Typed keys and their text form, the self-describing table schemas with the
    two gates [check_key] and [check], the errors of the control plane, and
    [TableOps], the interface between the control channel and the tables of a
    pipeline, with the laws its clients rely on. *)

From S2P Require Import Prelude Bytes Text Value.

Local Open Scope Z_scope.

(** ** Keys *)

Inductive KeyKind :=
  | KindExact (k : ValKind)
  | KindLpm (k : ValKind).

#[export] Instance KeyKind_eq_dec : EqDecision KeyKind.
Proof. solve_decision. Defined.

Definition value_kind (k : KeyKind) : ValKind :=
  match k with KindExact k | KindLpm k => k end.

Definition key_syntax (k : KeyKind) : string :=
  match k with
  | KindExact k => syntax k
  | KindLpm k => String.append (syntax k) "/prefix_len"
  end.

Inductive TypedKey :=
  | KeyExact (v : TypedVal)
  | KeyLpm (value : TypedVal) (prefix_len : byte).

#[export] Instance TypedKey_eq_dec : EqDecision TypedKey.
Proof. solve_decision. Defined.

(** The number of bits of a value of each kind, as [TypedKey::parse] has it. *)
Definition key_width (k : ValKind) : Z :=
  match k with
  | KindU8 => 8
  | KindU16 => 16
  | KindU32 | KindIpv4 => 32
  | KindMac => 48
  end.

(** [TypedKey::parse(kind, text)] *)
Definition key_parse (kd : KeyKind) (text : string) : result TypedKey ValueError :=
  match kd with
  | KindExact vk => let? v := parse vk text in Ok (KeyExact v)
  | KindLpm vk =>
      let? p :=
        match split_once "/" (chars text) with
        | None => Ok (text, None)
        | Some (v, l) =>
            let? n := ok_or (U8 <$> from_str_radix (umax 8) 10 l) (Malformed vk text) in
            Ok (unchars v, Some n)
        end in
      let '(value, len) := p in
      let? value := parse vk value in
      let prefix_len := default (U8 (key_width vk)) len in
      if uv prefix_len >? key_width vk then Err (Malformed vk text)
      else Ok (KeyLpm value prefix_len)
  end.

Definition key_value (k : TypedKey) : TypedVal :=
  match k with KeyExact v | KeyLpm v _ => v end.

Definition key_kind (k : TypedKey) : KeyKind :=
  match k with
  | KeyExact v => KindExact (kind v)
  | KeyLpm v _ => KindLpm (kind v)
  end.

(** [impl Display for TypedKey] *)
Definition key_to_string (k : TypedKey) : string :=
  match k with
  | KeyExact v => val_to_string v
  | KeyLpm v n => unchars (chars (val_to_string v) ++ "/"%char :: dec (uv n))
  end.

(** A key whose prefix, if it has one, is no longer than its value. *)
Definition key_wf (k : TypedKey) : Prop :=
  match k with
  | KeyExact _ => True
  | KeyLpm v n => uv n <= key_width (kind v)
  end.

(** ** Schemas *)

Record ParamSchema := { param_name : string; param_kind : ValKind }.
Record ActionSchema := { action_name : string; action_params : list ParamSchema }.
Record TableSchema := {
  table_name : string;
  key_field : string;
  table_key : KeyKind;
  actions : list ActionSchema;
}.

(** The owned renderings that travel over the control socket. *)
Record ParamDesc := { pd_name : string; pd_kind : ValKind }.
Record ActionDesc := { ad_name : string; ad_params : list ParamDesc }.
Record SchemaDesc := {
  sd_name : string;
  sd_key_field : string;
  sd_key : KeyKind;
  sd_actions : list ActionDesc;
}.

(** [TableSchema::describe] *)
Definition schema_describe (s : TableSchema) : SchemaDesc := {|
  sd_name := table_name s;
  sd_key_field := key_field s;
  sd_key := table_key s;
  sd_actions :=
    (fun a => {| ad_name := action_name a;
                 ad_params := (fun p => {| pd_name := param_name p; pd_kind := param_kind p |})
                                <$> action_params a |}) <$> actions s;
|}.

(** The first element a test accepts, [Iterator::find]. *)
Fixpoint find {A} (f : A -> bool) (l : list A) : option A :=
  match l with
  | [] => None
  | x :: l => if f x then Some x else find f l
  end.

Definition schema_action (s : TableSchema) (name : string) : option ActionSchema :=
  find (fun a => bool_decide (action_name a = name)) (actions s).

(** ** Errors and dumps *)

Record EntryDesc := {
  entry_key : string;
  entry_action : string;
  entry_params : gmap string string;
}.

Inductive TableError :=
  | Unsupported (table reason : string)
  | UnknownTable (name : string) (known : list string)
  | UnknownAction (table action : string) (known : list string)
  | KeyKindMismatch (table : string) (want got : KeyKind)
  | Arity (table action : string) (want got : nat)
  | Value (e : ValueError)
  | NotFound (table key : string)
  | NoTables (pipeline : string).

#[export] Instance EntryDesc_eq_dec : EqDecision EntryDesc.
Proof. solve_decision. Defined.
#[export] Instance TableError_eq_dec : EqDecision TableError.
Proof. solve_decision. Defined.

(** [TableSchema::check_key] *)
Definition check_key (s : TableSchema) (key : TypedKey) : result unit TableError :=
  let got := match key with
             | KeyExact v => KindExact (kind v)
             | KeyLpm v _ => KindLpm (kind v)
             end in
  if decide (got = table_key s) then Ok tt
  else Err (KeyKindMismatch (table_name s) (table_key s) got).

(** The parameter loop of [check]: the pairs in order, the first mismatch. *)
Fixpoint check_params (given : list TypedVal) (want : list ParamSchema)
    : result unit TableError :=
  match given, want with
  | v :: given, w :: want =>
      let? _ := map_err Value (require v (param_kind w)) in
      check_params given want
  | _, _ => Ok tt
  end.

(** [TableSchema::check] *)
Definition check (s : TableSchema) (action : string) (params : list TypedVal)
    : result ActionSchema TableError :=
  let? schema :=
    ok_or (schema_action s action)
          (UnknownAction (table_name s) action (action_name <$> actions s)) in
  if negb (length params =? length (action_params schema))%nat
  then Err (Arity (table_name s) (action_name schema)
                  (length (action_params schema)) (length params))
  else
    let? _ := check_params params (action_params schema) in
    Ok schema.

(** ** The control-plane surface of a pipeline

    The operations take [&self] and mutate through [crate::table::Shared]; in
    the model each is a transition on the state [T] of the tables, with the
    [Result] it returns.  That a transition is atomic with respect to packets
    is the subject of [Publish]. *)

Class TableOps (T : Type) := {
  schemas : T -> list TableSchema;
  table_add : string -> TypedKey -> string -> list TypedVal -> T -> T * result unit TableError;
  table_remove : string -> TypedKey -> T -> T * result unit TableError;
  table_dump : string -> T -> result (list EntryDesc) TableError;
  table_default : string -> T -> result EntryDesc TableError;
  table_set_default : string -> string -> list TypedVal -> T -> T * result unit TableError;
  table_clear : string -> T -> T * result nat TableError;
}.

(** The provided method [TableOps::schema], on the list of schemas. *)
Definition find_schema (ss : list TableSchema) (table : string) : result TableSchema TableError :=
  ok_or (find (fun t => bool_decide (table_name t = table)) ss)
        (UnknownTable table (table_name <$> ss)).

Definition schema `{TableOps T} (s : T) (table : string) : result TableSchema TableError :=
  find_schema (schemas s) table.

(** The [?] of an operation: an error leaves the tables as they are. *)
Definition try_op {T A B} (m : result A TableError) (s : T) (k : A -> T * result B TableError)
    : T * result B TableError :=
  match m with Ok a => k a | Err e => (s, Err e) end.

(** What the control channel can tell apart. *)
Definition same_tables `{TableOps T} (s s' : T) : Prop :=
  schemas s = schemas s' /\
  forall t, table_dump t s = table_dump t s' /\ table_default t s = table_default t s'.

#[export] Instance same_tables_equivalence `{TableOps T} : Equivalence (same_tables (T := T)).
Proof.
  split.
  - intros s. done.
  - intros s s' (H1 & H2). split; [done |]. intros t. by destruct (H2 t) as [-> ->].
  - intros s1 s2 s3 (H1 & H2) (H3 & H4). split; [congruence |]. intros t.
    destruct (H2 t) as [-> ->]. apply H4.
Qed.

(** What a client of the interface relies on, whatever the backend: the
    schemas never change, an operation that fails changes nothing the control
    channel can see, and no entry or default action gets in without passing
    both gates of its schema. *)
Class TableLaws (T : Type) `{TableOps T} (inv : T -> Prop) := {
  law_add_schemas t k a ps s : schemas (table_add t k a ps s).1 = schemas s;
  law_remove_schemas t k s : schemas (table_remove t k s).1 = schemas s;
  law_set_default_schemas t a ps s : schemas (table_set_default t a ps s).1 = schemas s;
  law_clear_schemas t s : schemas (table_clear t s).1 = schemas s;
  law_add_inv t k a ps s : inv s -> inv (table_add t k a ps s).1;
  law_remove_inv t k s : inv s -> inv (table_remove t k s).1;
  law_set_default_inv t a ps s : inv s -> inv (table_set_default t a ps s).1;
  law_clear_inv t s : inv s -> inv (table_clear t s).1;
  law_add_err t k a ps s s' e : inv s -> table_add t k a ps s = (s', Err e) -> same_tables s s';
  law_remove_err t k s s' e : inv s -> table_remove t k s = (s', Err e) -> same_tables s s';
  law_set_default_err t a ps s s' e : inv s -> table_set_default t a ps s = (s', Err e) -> same_tables s s';
  law_clear_err t s s' e : inv s -> table_clear t s = (s', Err e) -> same_tables s s';
  law_add_checked t k a ps s s' :
    table_add t k a ps s = (s', Ok tt) ->
    exists sch, schema s t = Ok sch /\ check_key sch k = Ok tt /\ is_ok (check sch a ps) = true;
  law_set_default_checked t a ps s s' :
    table_set_default t a ps s = (s', Ok tt) ->
    exists sch, schema s t = Ok sch /\ is_ok (check sch a ps) = true;
  law_clear_dump t s s' n :
    table_clear t s = (s', Ok n) -> table_dump t s' = Ok [];
  law_clear_count t s s' n l :
    inv s -> table_clear t s = (s', Ok n) -> table_dump t s = Ok l -> n = length l;
}.

(** [NoTables(pipeline)]: the surface of a pipeline without tables. *)
Record NoTablesOps := { no_tables_name : string }.

#[export] Instance NoTables_TableOps : TableOps NoTablesOps := {
  schemas _ := [];
  table_add _ _ _ _ s := (s, Err (NoTables (no_tables_name s)));
  table_remove _ _ s := (s, Err (NoTables (no_tables_name s)));
  table_dump _ s := Err (NoTables (no_tables_name s));
  table_default _ s := Err (NoTables (no_tables_name s));
  table_set_default _ _ _ s := (s, Err (NoTables (no_tables_name s)));
  table_clear _ s := (s, Err (NoTables (no_tables_name s)));
}.

#[export] Instance NoTables_laws : TableLaws NoTablesOps (fun _ => True).
Proof. split; cbn; intros; simplify_eq; done. Qed.

(** ** Lemmas *)

Lemma find_Some {A} (f : A -> bool) l x : find f l = Some x -> x ∈ l /\ f x = true.
Proof.
  induction l as [| y l IH]; simpl; [done |]. destruct (f y) eqn:E.
  - intros [= <-]. split; [apply list_elem_of_here | done].
  - intros [Hx Hf]%IH. split; [by apply list_elem_of_further | done].
Qed.

Lemma find_None {A} (f : A -> bool) l : find f l = None <-> Forall (fun x => f x = false) l.
Proof.
  induction l as [| y l IH]; simpl; [done |]. rewrite Forall_cons.
  destruct (f y); [by split; [| intros [[=] _]] |]. rewrite IH. tauto.
Qed.

Lemma find_schema_name ss t sch : find_schema ss t = Ok sch -> table_name sch = t.
Proof.
  unfold find_schema. destruct (find _ _) as [x |] eqn:E; [| done]. intros [= ->].
  apply find_Some in E as [_ Hx]. by apply bool_decide_eq_true_1 in Hx.
Qed.

Lemma find_schema_in ss t sch : find_schema ss t = Ok sch -> sch ∈ ss.
Proof.
  unfold find_schema. destruct (find _ _) as [x |] eqn:E; [| done]. intros [= ->].
  by apply find_Some in E as [Hx _].
Qed.

Lemma check_key_Ok s k : check_key s k = Ok tt <-> key_kind k = table_key s.
Proof.
  unfold check_key. fold (key_kind k). by case_decide.
Qed.

Lemma check_params_Ok given want :
  length given = length want ->
  check_params given want = Ok tt <-> kind <$> given = param_kind <$> want.
Proof.
  revert want. induction given as [| v given IH]; intros [| w want] Hl; simplify_eq/=; [done |].
  unfold require. case_decide as E; simpl.
  - rewrite IH by done. split; [by intros -> ; rewrite E | by intros [= _ ?]].
  - split; [done | by intros [= ? _]].
Qed.

Lemma check_Ok s action params sch :
  check s action params = Ok sch <->
  schema_action s action = Some sch /\ kind <$> params = param_kind <$> action_params sch.
Proof.
  unfold check. destruct (schema_action s action) as [a |]; simpl; [| by split; [| intros [? _]]].
  destruct (Nat.eqb_spec (length params) (length (action_params a))) as [Hl | Hl]; simpl.
  - pose proof (check_params_Ok _ _ Hl) as Hc.
    destruct (check_params _ _) as [[] |]; simpl.
    + split; [intros [= <-]; split; [done | by apply Hc] | by intros [[= <-] _]].
    + split; [done |]. intros [[= <-] Hk]. by apply Hc in Hk.
  - split; [done |]. intros [[= <-] Hk%(f_equal length)]. by rewrite !length_fmap in Hk.
Qed.

Lemma schema_action_name s action sch :
  schema_action s action = Some sch -> action_name sch = action.
Proof. intros [_ H]%find_Some. by apply bool_decide_eq_true_1 in H. Qed.

Lemma no_slash_val v : Forall (fun c => Ascii.eqb c "/" = false) (chars (val_to_string v)).
Proof.
  assert (forall c, Ascii.eqb c "/" = true -> to_digit 10 c = None) as Hd.
  { intros c. by destruct (Ascii.eqb_spec c "/") as [-> |]. }
  assert (forall sep parts, Ascii.eqb sep "/" = false ->
    Forall (Forall (fun c => Ascii.eqb c "/" = false)) parts ->
    Forall (fun c => Ascii.eqb c "/" = false) (join sep parts)) as Hj.
  { intros sep parts Hs. induction 1 as [| p parts Hp Hps IH]; [constructor |].
    destruct parts as [| q parts]; [done |].
    change (Forall (fun c => Ascii.eqb c "/" = false) (p ++ sep :: join sep (q :: parts))).
    apply Forall_app. split; [done |]. by constructor. }
  destruct v; cbn [val_to_string]; unfold mac_to_string, ip_to_string; rewrite chars_unchars.
  1-3: apply dec_no_sep; [word_lia | done].
  - apply Hj; [done |]. apply Forall_fmap, Forall_true. intros b.
    eapply bool_decide_eq_true_1. revert b.
    apply (byte_forall (fun b => bool_decide (Forall (fun c => Ascii.eqb c "/" = false) (hex2 b)))).
    vm_compute. reflexivity.
  - apply Hj; [done |]. apply Forall_fmap, Forall_true. intros b. apply dec_no_sep; [word_lia | done].
Qed.

(** ** Properties *)

(** The text of a key is read back, against the match kind it was built
    for, as the same key. *)
Theorem key_parse_to_string k :
  key_wf k -> key_parse (key_kind k) (key_to_string k) = Ok k.
Proof.
  destruct k as [v | v n]; cbn [key_wf key_kind key_parse key_to_string]; intros Hw.
  - by rewrite parse_val_to_string.
  - rewrite chars_unchars, split_once_app by apply no_slash_val.
    rewrite from_str_dec by (unfold umax; word_lia). cbn [fmap option_fmap option_map ok_or rbind].
    rewrite unchars_chars, parse_val_to_string. cbn [rbind default].
    rewrite u_of_uv, Z.gtb_ltb. by rewrite (proj2 (Z.ltb_ge _ _)).
Qed.

Lemma key_parse_to_string_witness :
  let k := KeyLpm (ValIpv4 (Ipv4 (U8 10) (U8 0) (U8 0) (U8 0))) (U8 24) in
  key_to_string k = "10.0.0.0/24" /\ key_parse (key_kind k) (key_to_string k) = Ok k.
Proof. split; [vm_compute; reflexivity | apply key_parse_to_string; vm_compute; done]. Defined.

(** Text becomes a key only of the kind asked for, and never a prefix
    longer than the value; a bare value is a host route. *)
Theorem key_parse_sound kd text k :
  key_parse kd text = Ok k ->
  key_kind k = kd /\ key_wf k /\
  (split_once "/" (chars text) = None ->
     match kd with
     | KindExact vk => exists v, parse vk text = Ok v /\ k = KeyExact v
     | KindLpm vk => exists v, parse vk text = Ok v /\ k = KeyLpm v (U8 (key_width vk))
     end).
Proof.
  unfold key_parse. destruct kd as [vk | vk].
  - intros (v & Hv & [= <-])%rbind_Ok_inv. pose proof (parse_kind _ _ _ Hv). cbn.
    split; [congruence |]. split; [done | eauto].
  - intros ([value len] & Hp & (v & Hv & Hk)%rbind_Ok_inv)%rbind_Ok_inv.
    destruct (_ >? _) eqn:E; [done |]. injection Hk as <-.
    pose proof (parse_kind _ _ _ Hv) as Hkind. cbn. rewrite Hkind.
    split; [done |]. split; [by rewrite Z.gtb_ltb, Z.ltb_ge in E |].
    intros Hs. rewrite Hs in Hp. injection Hp as <- <-. eauto.
Qed.

Lemma key_parse_sound_witness :
  key_wf (KeyLpm (ValIpv4 (Ipv4 (U8 10) (U8 0) (U8 0) (U8 1))) (U8 32)).
Proof. apply (key_parse_sound (KindLpm KindIpv4) "10.0.0.1"). vm_compute. reflexivity. Defined.

(** An action gets past [check] exactly when the table declares it and the
    parameters have the declared kinds, in order; otherwise the error is about
    the name first, then the count, then the first parameter of a wrong kind. *)
Theorem check_complete s action params :
  match schema_action s action with
  | None => check s action params =
              Err (UnknownAction (table_name s) action (action_name <$> actions s))
  | Some a =>
      let want := action_params a in
      if decide (length params = length want) then
        (kind <$> params = param_kind <$> want /\ check s action params = Ok a) \/
        (exists i v w, params !! i = Some v /\ want !! i = Some w /\ kind v <> param_kind w /\
           kind <$> take i params = param_kind <$> take i want /\
           check s action params = Err (Value (Mismatched (param_kind w) (kind v))))
      else check s action params =
             Err (Arity (table_name s) action (length want) (length params))
  end.
Proof.
  destruct (schema_action s action) as [a |] eqn:Ha; unfold check; rewrite Ha; [| done].
  cbn [ok_or rbind]. pose proof (schema_action_name _ _ _ Ha) as Hname.
  case_decide as Hl.
  - rewrite (proj2 (Nat.eqb_eq _ _) Hl). cbn [negb].
    assert (forall ps ws, length ps = length ws ->
      (kind <$> ps = param_kind <$> ws /\ check_params ps ws = Ok tt) \/
      exists i v w, ps !! i = Some v /\ ws !! i = Some w /\ kind v <> param_kind w /\
        kind <$> take i ps = param_kind <$> take i ws /\
        check_params ps ws = Err (Value (Mismatched (param_kind w) (kind v)))) as Hloop.
    { induction ps as [| v ps IH]; intros [| w ws] E; simplify_eq/=; [by left |].
      unfold require. case_decide as Hk; simpl.
      - destruct (IH ws E) as [[H1 H2] | (i & v' & w' & H1 & H2 & H3 & H4 & H5)].
        + left. by rewrite Hk, H1.
        + right. exists (S i), v', w'. rewrite H5. cbn. rewrite Hk.
          repeat split; try done. by f_equal.
      - right. exists 0%nat, v, w. done. }
    destruct (Hloop _ _ Hl) as [[H1 H2] | (i & v & w & H1 & H2 & H3 & H4 & H5)].
    + left. by rewrite H2.
    + right. exists i, v, w. by rewrite H5.
  - rewrite (proj2 (Nat.eqb_neq _ _) Hl). cbn [negb]. by rewrite Hname.
Qed.
