(* ===== verification/Table.v ===== *)
(** * The match-action tables (crates/up4-engine/src/table.rs)

    The exact-match table, IPv4 prefixes in canonical form, and the
    longest-prefix-match table that groups its routes by prefix length.  The
    LPM table is shown to implement a finite map from prefixes to actions with
    the reference lookup "try every length from 32 down to 0". *)

From S2P Require Import Prelude Bytes Text Value Shim.

Local Open Scope Z_scope.

(** ** Exact match *)

Module Exact.
Section exact.
Context {K A : Type} `{Countable K}.

Record ExactTable := { entries : gmap K A; default_action : A }.

Definition new (default_action : A) : ExactTable :=
  {| entries := ∅; default_action := default_action |}.

Definition apply (t : ExactTable) (key : K) : A :=
  default (default_action t) (entries t !! key).

Definition get (t : ExactTable) (key : K) : option A := entries t !! key.

(** Insert or replace; the flag tells whether an entry was replaced. *)
Definition insert (key : K) (action : A) (t : ExactTable) : ExactTable * bool :=
  ({| entries := <[key := action]> (entries t); default_action := default_action t |},
   bool_decide (is_Some (entries t !! key))).

Definition remove (key : K) (t : ExactTable) : ExactTable * bool :=
  ({| entries := delete key (entries t); default_action := default_action t |},
   bool_decide (is_Some (entries t !! key))).

Definition set_default (action : A) (t : ExactTable) : ExactTable :=
  {| entries := entries t; default_action := action |}.

Definition len (t : ExactTable) : nat := size (entries t).
Definition is_empty (t : ExactTable) : bool := bool_decide (entries t = ∅).

Definition clear (t : ExactTable) : ExactTable * nat :=
  let n := size (entries t) in
  ({| entries := ∅; default_action := default_action t |}, n).

(** The hash map's iteration order is not specified; clients sort. *)
Definition iter (t : ExactTable) : list (K * A) := map_to_list (entries t).

Lemma apply_insert t key action key' :
  apply (insert key action t).1 key' = if decide (key' = key) then action else apply t key'.
Proof.
  unfold apply, insert; cbn. case_decide as E; [subst; by rewrite lookup_insert_eq |].
  by rewrite lookup_insert_ne.
Qed.

Lemma apply_remove t key key' :
  apply (remove key t).1 key' = if decide (key' = key) then default_action t else apply t key'.
Proof.
  unfold apply, remove; cbn. case_decide as E; [subst; by rewrite lookup_delete_eq |].
  by rewrite lookup_delete_ne.
Qed.
End exact.
Arguments ExactTable K A {_ _}.
End Exact.

(** ** Prefixes *)

(** [(a & b)] on [u32]. *)
Definition and32 (a b : u32) : u32 := U32 (Z.land (uv a) (uv b)).

(** [u32::MAX << (32 - len)]: bits shifted past the top are lost. *)
Definition mask_of (len : byte) : u32 :=
  if uv len =? 0 then U32 0 else U32 (Z.shiftl (umax 32) (32 - uv len)).

Record Ipv4Prefix := Prefix { base : u32; plen : byte }.

#[export] Instance Ipv4Prefix_eq_dec : EqDecision Ipv4Prefix.
Proof. solve_decision. Defined.
#[export] Instance Ipv4Prefix_countable : Countable Ipv4Prefix.
Proof.
  apply (inj_countable' (fun p => (base p, plen p)) (fun p => Prefix p.1 p.2)). by intros [].
Defined.

(** [u32::from_be_bytes(addr.octets())] *)
Definition ip_u32 (a : Ipv4Addr) : u32 := be_u32 (ip_octets a).

(** [Ipv4Prefix::new] *)
Definition prefix_new (addr : Ipv4Addr) (len : byte) : option Ipv4Prefix :=
  if uv len >? 32 then None
  else Some (Prefix (and32 (ip_u32 addr) (mask_of len)) len).

(** [Ipv4Prefix::addr] *)
Definition prefix_addr (p : Ipv4Prefix) : Ipv4Addr :=
  Ipv4 (U8 (Z.shiftr (uv (base p)) 24)) (U8 (Z.shiftr (uv (base p)) 16))
       (U8 (Z.shiftr (uv (base p)) 8)) (U8 (uv (base p))).

Definition is_default_route (p : Ipv4Prefix) : bool := uv (plen p) =? 0.

(** [impl Display for Ipv4Prefix] *)
Definition prefix_to_string (p : Ipv4Prefix) : string :=
  unchars (chars (ip_to_string (prefix_addr p)) ++ "/"%char :: dec (uv (plen p))).

(** What [Ipv4Prefix::new] guarantees: the type is opaque outside its file. *)
Definition prefix_wf (p : Ipv4Prefix) : Prop :=
  uv (plen p) <= 32 /\ and32 (base p) (mask_of (plen p)) = base p.

(** The prefix of a given length an address lies in. *)
Definition prefix_of (key : u32) (len : byte) : Ipv4Prefix := Prefix (and32 key (mask_of len)) len.

Definition prefix_matches (p : Ipv4Prefix) (key : u32) : bool :=
  bool_decide (and32 key (mask_of (plen p)) = base p).

(** ** [<[T]>::binary_search_by]

    The standard library's bisection: [size] shrinks by half while [base] only
    moves right past elements that do not compare greater.  The fuel is the
    length of the slice, which bounds the number of halvings. *)

Section bsearch.
Context {A : Type} (f : A -> comparison) (l : list A).

Definition cmp_at (i : nat) : comparison :=
  match l !! i with Some x => f x | None => Gt end.

Fixpoint bisect (fuel base size : nat) : nat :=
  match fuel with
  | O => base
  | S fuel =>
      if (size <=? 1)%nat then base
      else
        let half := Nat.div2 size in
        let mid := (base + half)%nat in
        let base := match cmp_at mid with Gt => base | _ => mid end in
        bisect fuel base (size - half)
  end.

Definition binary_search_by : result nat nat :=
  match l with
  | [] => Err 0%nat
  | _ =>
      let base := bisect (length l) 0 (length l) in
      match cmp_at base with
      | Eq => Ok base
      | Lt => Err (S base)
      | Gt => Err base
      end
  end.

(** The documented precondition: the slice is sorted with respect to [f]. *)
Definition bs_sorted : Prop :=
  forall i j x y, (i < j)%nat -> l !! i = Some x -> l !! j = Some y ->
    (f x = Lt \/ f y = Gt).

Lemma bisect_spec fuel base size :
  bs_sorted ->
  (size <= fuel)%nat -> (0 < size)%nat -> (base + size <= length l)%nat ->
  (base = 0%nat \/ cmp_at base <> Gt) ->
  (forall i, (base + size <= i)%nat -> cmp_at i = Gt) ->
  let r := bisect fuel base size in
  (r < length l)%nat /\ (r = 0%nat \/ cmp_at r <> Gt) /\
  (forall i, (r < i)%nat -> cmp_at i = Gt).
Proof.
  intros Hs. revert base size. induction fuel as [| fuel IH]; intros base size Hf Hp Hl Hb Hr; [lia |].
  cbn [bisect]. destruct (Nat.leb_spec size 1).
  { assert (size = 1%nat) as -> by lia. split; [lia | split; [done |]].
    intros i Hi. apply Hr. lia. }
  pose proof (Nat.div2_odd size) as Hodd.
  assert (0 < Nat.div2 size < size)%nat as Hhalf
    by (destruct (Nat.odd size); cbn in Hodd; lia).
  set (half := Nat.div2 size) in *.
  assert (forall i, cmp_at (base + half)%nat = Gt -> (base + half <= i)%nat -> cmp_at i = Gt) as Hgt.
  { intros i Hg Hi. unfold cmp_at in *. destruct (l !! i) as [y |] eqn:Ey; [| done].
    destruct (decide (i = base + half)%nat) as [-> |]; [by rewrite Ey in Hg |].
    destruct (l !! (base + half)%nat) as [x |] eqn:Ex.
    - destruct (Hs (base + half)%nat i x y ltac:(lia) Ex Ey); congruence.
    - apply lookup_ge_None in Ex. apply lookup_lt_Some in Ey. lia. }
  destruct (cmp_at (base + half)) eqn:E; apply IH; try lia; try (by right; rewrite E); try done.
  1-2: intros i Hi; apply Hr; lia.
  intros i Hi. apply Hgt; [done |]. destruct (Nat.odd size); cbn in Hodd; lia.
Qed.

Lemma binary_search_by_spec :
  bs_sorted ->
  match binary_search_by with
  | Ok pos => exists x, l !! pos = Some x /\ f x = Eq
  | Err pos =>
      (pos <= length l)%nat /\
      (forall i x, (i < pos)%nat -> l !! i = Some x -> f x = Lt) /\
      (forall i x, (pos <= i)%nat -> l !! i = Some x -> f x = Gt)
  end.
Proof.
  intros Hs. unfold binary_search_by. destruct l as [| x0 l'] eqn:El.
  { split; [done | split; intros i x _ Hx; by rewrite lookup_nil in Hx]. }
  rewrite <- El.
  destruct (bisect_spec (length l) 0 (length l) Hs) as (H1 & H2 & H3); [lia | | lia | by left | |].
  { rewrite El; cbn; lia. }
  { intros i Hi. unfold cmp_at. by rewrite (proj2 (lookup_ge_None l i)) by lia. }
  set (r := bisect _ _ _) in *.
  assert (forall i x, (r < i)%nat -> l !! i = Some x -> f x = Gt) as H3'.
  { intros i x Hi Hx. specialize (H3 i Hi). unfold cmp_at in H3. by rewrite Hx in H3. }
  destruct (lookup_lt_is_Some_2 l r H1) as [x Hx].
  unfold cmp_at in *. rewrite Hx in *.
  destruct (f x) eqn:E; [by eauto | |].
  - split; [lia | split].
    + intros i y Hi Hy. destruct (decide (i = r)) as [-> |]; [congruence |].
      destruct (Hs i r y x ltac:(lia) Hy Hx); congruence.
    + intros i y Hi Hy. apply (H3' i); [lia | done].
  - destruct H2 as [-> | H2]; [| done].
    split; [lia | split; [lia |]]. intros i y _ Hy.
    destruct i; [congruence |]. apply (H3' (S i)); [lia | done].
Qed.
End bsearch.

(** ** Longest-prefix match *)

(** [Vec::insert]. *)
Definition insert_at {A} (pos : nat) (x : A) (l : list A) : list A := take pos l ++ x :: drop pos l.

(** [Iterator::find_map]. *)
Fixpoint find_map {A B} (f : A -> option B) (l : list A) : option B :=
  match l with
  | [] => None
  | x :: l => match f x with Some b => Some b | None => find_map f l end
  end.

Module Lpm.
Section lpm.
Context {A : Type}.

Record LpmGroup := Group { g_len : byte; g_mask : u32; g_entries : gmap u32 A }.
Record LpmTable := { groups : list LpmGroup; default_action : A }.

Definition new (default_action : A) : LpmTable :=
  {| groups := []; default_action := default_action |}.

Definition apply (t : LpmTable) (addr : Ipv4Addr) : A :=
  let key := ip_u32 addr in
  default (default_action t)
    (find_map (fun g => g_entries g !! and32 key (g_mask g)) (groups t)).

Definition search (len : byte) (gs : list LpmGroup) : result nat nat :=
  binary_search_by (fun g => uv len ?= uv (g_len g)) gs.

(** The index is in range by [insert_in_range]; Rust would panic otherwise. *)
Definition insert (p : Ipv4Prefix) (action : A) (t : LpmTable) : LpmTable * bool :=
  let '(gs, pos) :=
    match search (plen p) (groups t) with
    | Ok pos => (groups t, pos)
    | Err pos => (insert_at pos (Group (plen p) (mask_of (plen p)) ∅) (groups t), pos)
    end in
  match gs !! pos with
  | Some g =>
      ({| groups := <[pos := Group (g_len g) (g_mask g) (<[base p := action]> (g_entries g))]> gs;
          default_action := default_action t |},
       bool_decide (is_Some (g_entries g !! base p)))
  | None => (t, false)
  end.

Definition remove (p : Ipv4Prefix) (t : LpmTable) : LpmTable * bool :=
  match search (plen p) (groups t) with
  | Err _ => (t, false)
  | Ok pos =>
      match groups t !! pos with
      | None => (t, false)
      | Some g =>
          let es := delete (base p) (g_entries g) in
          let gs := if decide (es = ∅) then delete pos (groups t)
                    else <[pos := Group (g_len g) (g_mask g) es]> (groups t) in
          ({| groups := gs; default_action := default_action t |},
           bool_decide (is_Some (g_entries g !! base p)))
      end
  end.

Definition set_default (action : A) (t : LpmTable) : LpmTable :=
  {| groups := groups t; default_action := action |}.

Definition len (t : LpmTable) : nat := sum_list_with (fun g => size (g_entries g)) (groups t).
Definition is_empty (t : LpmTable) : bool := bool_decide (length (groups t) = 0%nat).

Definition clear (t : LpmTable) : LpmTable * nat :=
  let n := len t in
  ({| groups := []; default_action := default_action t |}, n).

Definition iter (t : LpmTable) : list (Ipv4Prefix * A) :=
  groups t ≫= fun g => (fun e => (Prefix e.1 (g_len g), e.2)) <$> map_to_list (g_entries g).

(** The invariant of the struct: strictly decreasing lengths, no empty
    group, and what each group's fields mean. *)
Definition g_longer (g1 g2 : LpmGroup) : Prop := uv (g_len g2) < uv (g_len g1).

Definition group_wf (g : LpmGroup) : Prop :=
  uv (g_len g) <= 32 /\ g_mask g = mask_of (g_len g) /\ g_entries g <> ∅ /\
  map_Forall (fun b _ => and32 b (g_mask g) = b) (g_entries g).

Definition wf (t : LpmTable) : Prop :=
  StronglySorted g_longer (groups t) /\ Forall group_wf (groups t).

(** *** The abstract table: a finite map from prefixes *)

Definition group_routes (g : LpmGroup) : gmap Ipv4Prefix A :=
  kmap (fun b => Prefix b (g_len g)) (g_entries g).

Definition gs_routes (gs : list LpmGroup) : gmap Ipv4Prefix A :=
  foldr (fun g m => group_routes g ∪ m) ∅ gs.

Definition routes (t : LpmTable) : gmap Ipv4Prefix A := gs_routes (groups t).

(** The reference lookup: every length from [n] down to 0. *)
Fixpoint longest (m : gmap Ipv4Prefix A) (key : u32) (n : nat) : option A :=
  match m !! prefix_of key (U8 (Z.of_nat n)) with
  | Some a => Some a
  | None => match n with O => None | S n => longest m key n end
  end.

#[local] Instance prefix_inj len : Inj (=) (=) (fun b => Prefix b len).
Proof. by intros ?? [=]. Qed.

Lemma lookup_group_routes g p :
  group_routes g !! p = if decide (plen p = g_len g) then g_entries g !! base p else None.
Proof.
  unfold group_routes. destruct p as [b l]; cbn. case_decide as E.
  - subst l. apply (lookup_kmap (fun b => Prefix b (g_len g))).
  - apply (lookup_kmap_None (fun b => Prefix b (g_len g))). by intros i [= _ ->].
Qed.

Lemma gs_routes_app l1 l2 : gs_routes (l1 ++ l2) = gs_routes l1 ∪ gs_routes l2.
Proof.
  induction l1 as [| g l1 IH]; simpl; [by rewrite (left_id_L ∅ _) |].
  by rewrite IH, (assoc_L (∪)).
Qed.

Lemma gs_routes_other gs p :
  Forall (fun g => g_len g <> plen p) gs -> gs_routes gs !! p = None.
Proof.
  induction 1 as [| g gs Hg _ IH]; simpl; [by apply lookup_empty |].
  rewrite lookup_union, IH, lookup_group_routes, decide_False by congruence. done.
Qed.

(** Only the group of a prefix's length decides about it. *)
Lemma gs_routes_mid l1 g l2 p :
  Forall (fun g' => g_len g' <> g_len g) l1 -> Forall (fun g' => g_len g' <> g_len g) l2 ->
  gs_routes (l1 ++ g :: l2) !! p =
    if decide (plen p = g_len g) then g_entries g !! base p else gs_routes (l1 ++ l2) !! p.
Proof.
  intros H1 H2. rewrite !gs_routes_app. simpl. rewrite !lookup_union, lookup_group_routes.
  case_decide as E; [| by rewrite (left_id_L None (∪))].
  rewrite <- E in H1, H2.
  rewrite (gs_routes_other l1), (gs_routes_other l2) by done.
  by destruct (g_entries g !! base p).
Qed.

Lemma sorted_mid l1 g l2 :
  StronglySorted g_longer (l1 ++ g :: l2) ->
  Forall (fun g' => g_len g' <> g_len g) l1 /\ Forall (fun g' => g_len g' <> g_len g) l2.
Proof.
  intros (H1 & H2 & H3)%StronglySorted_app. apply StronglySorted_inv in H3 as [H3 H4].
  split; apply Forall_forall; intros g' Hg E.
  - specialize (H1 g' g Hg (list_elem_of_here _ _)). unfold g_longer in H1. rewrite E in H1. lia.
  - rewrite Forall_forall in H4. specialize (H4 g' Hg). unfold g_longer in H4. rewrite E in H4. lia.
Qed.

Lemma groups_bs_sorted (len : byte) gs :
  StronglySorted g_longer gs -> bs_sorted (fun g => uv len ?= uv (g_len g)) gs.
Proof.
  intros Hs i j x y Hij Hx Hy.
  rewrite <- (take_drop_middle gs j y Hy) in Hs.
  apply StronglySorted_app in Hs as (H1 & _ & _).
  assert (g_longer x y) as Hxy.
  { apply H1; [| apply list_elem_of_here]. apply (list_elem_of_lookup_2 _ i).
    by rewrite lookup_take_lt. }
  unfold g_longer in Hxy. rewrite Z.compare_lt_iff, Z.compare_gt_iff.
  destruct (Z.lt_ge_cases (uv len) (uv (g_len x))); [by left | right; lia].
Qed.

(** What a search of a well-formed table finds. *)
Lemma search_spec len gs :
  StronglySorted g_longer gs ->
  match search len gs with
  | Ok pos => exists l1 g l2, gs = l1 ++ g :: l2 /\ length l1 = pos /\ g_len g = len
  | Err pos => exists l1 l2, gs = l1 ++ l2 /\ length l1 = pos /\
      Forall (fun g => uv len < uv (g_len g)) l1 /\ Forall (fun g => uv (g_len g) < uv len) l2
  end.
Proof.
  intros Hs. unfold search. pose proof (groups_bs_sorted len gs Hs) as Hbs.
  pose proof (binary_search_by_spec (fun g => uv len ?= uv (g_len g)) gs) as Hb.
  destruct (binary_search_by _ gs) as [pos | pos].
  - destruct (Hb Hbs) as (g & Hg & He).
    exists (take pos gs), g, (drop (S pos) gs).
    rewrite take_drop_middle by done. split; [done |]. split.
    + rewrite length_take. apply lookup_lt_Some in Hg. lia.
    + apply Z.compare_eq in He. by apply uint_eq.
  - destruct (Hb Hbs) as (Hp & H1 & H2).
    exists (take pos gs), (drop pos gs).
    rewrite take_drop. split; [done |]. split; [rewrite length_take; lia |].
    split; apply Forall_lookup; intros i g Hg.
    + apply lookup_take_Some in Hg as [Hg Hi]. specialize (H1 i g Hi Hg).
      by apply Z.compare_lt_iff in H1.
    + rewrite lookup_drop in Hg. specialize (H2 (pos + i)%nat g ltac:(lia) Hg).
      by apply Z.compare_gt_iff in H2.
Qed.

(** *** Every operation keeps the invariant and implements the map *)

Lemma search_in_range p t :
  wf t ->
  let '(gs, pos) :=
    match search (plen p) (groups t) with
    | Ok pos => (groups t, pos)
    | Err pos => (insert_at pos (Group (plen p) (mask_of (plen p)) ∅) (groups t), pos)
    end in
  exists l1 g l2, gs = l1 ++ g :: l2 /\ length l1 = pos /\ g_len g = plen p /\
    g_mask g = mask_of (plen p) /\
    Forall group_wf l1 /\ Forall group_wf l2 /\ StronglySorted g_longer (l1 ++ g :: l2) /\
    map_Forall (fun b _ => and32 b (g_mask g) = b) (g_entries g) /\
    (forall q, gs_routes gs !! q = routes t !! q).
Proof.
  intros [Hs Hw]. unfold routes. pose proof (search_spec (plen p) (groups t) Hs) as Hb.
  destruct (search _ _) as [pos | pos].
  - destruct Hb as (l1 & g & l2 & E & Hl & Hg). exists l1, g, l2. rewrite E in *.
    apply Forall_app in Hw as [Hw1 [(Hg1 & Hg2 & Hg3 & Hg4) Hw2]%Forall_cons_1].
    repeat split; try done. congruence.
  - destruct Hb as (l1 & l2 & E & Hl & H1 & H2).
    exists l1, (Group (plen p) (mask_of (plen p)) ∅), l2. rewrite E in *.
    apply Forall_app in Hw as [Hw1 Hw2]. apply StronglySorted_app in Hs as (Hs1 & Hs2 & Hs3).
    split; [unfold insert_at; by rewrite <- Hl, take_app_length, drop_app_length |].
    repeat split; try done.
    + apply StronglySorted_app. split; [| split; [done |]].
      * rewrite Forall_forall in H1. intros x y Hx [-> | Hy]%elem_of_cons; [by apply H1 |].
        by apply Hs1.
      * constructor; [done |]. eapply Forall_impl; [exact H2 |]. by intros g.
    + intros q. unfold insert_at. rewrite <- Hl, take_app_length, drop_app_length.
      rewrite !gs_routes_app. simpl. rewrite !lookup_union, lookup_group_routes. simpl.
      rewrite lookup_empty. case_decide; by rewrite (left_id_L None (∪)).
Qed.

Lemma insert_middle {B} (l1 l2 : list B) x y : <[length l1 := y]> (l1 ++ x :: l2) = l1 ++ y :: l2.
Proof. pose proof (insert_app_r l1 (x :: l2) 0 y) as E. by rewrite Nat.add_0_r in E. Qed.

(** Replacing the entries of one group. *)
Lemma replace_entries l1 g l2 es :
  let g' := Group (g_len g) (g_mask g) es in
  StronglySorted g_longer (l1 ++ g :: l2) ->
  StronglySorted g_longer (l1 ++ g' :: l2) /\
  (forall q, gs_routes (l1 ++ g' :: l2) !! q =
     if decide (plen q = g_len g) then es !! base q else gs_routes (l1 ++ g :: l2) !! q).
Proof.
  intros g' Hs. destruct (sorted_mid _ _ _ Hs) as [H1 H2]. split.
  - apply StronglySorted_app in Hs as (Hs1 & Hs2 & [Hs3 Hs4]%StronglySorted_inv).
    apply StronglySorted_app. split; [| split; [done | by constructor]].
    intros x y Hx [-> | Hy]%elem_of_cons.
    + apply (Hs1 x g Hx). apply list_elem_of_here.
    + apply (Hs1 x y Hx). by apply list_elem_of_further.
  - intros q. rewrite !gs_routes_mid by done. cbn. by case_decide.
Qed.

Lemma insert_spec p a t :
  wf t -> prefix_wf p ->
  wf (insert p a t).1 /\ routes (insert p a t).1 = <[p := a]> (routes t) /\
  (insert p a t).2 = bool_decide (is_Some (routes t !! p)) /\
  default_action (insert p a t).1 = default_action t.
Proof.
  intros Hwf [Hp1 Hp2]. pose proof (search_in_range p t Hwf) as Hb. unfold insert.
  destruct (match search _ _ with Ok pos => _ | Err pos => _ end) as [gs pos].
  destruct Hb as (l1 & g & l2 & -> & <- & Hg & Hm & Hw1 & Hw2 & Hs & He & Hr).
  rewrite lookup_app_r, Nat.sub_diag by lia. cbn [lookup list_lookup].
  rewrite insert_middle. cbn [fst snd].
  destruct (replace_entries l1 g l2 (<[base p:=a]> (g_entries g)) Hs) as [Hs' Hr'].
  destruct (sorted_mid _ _ _ Hs) as [D1 D2].
  split; [split | split; [| split]]; cbn [groups default_action].
  - done.
  - apply Forall_app. split; [done |]. constructor; [| done].
    split; [cbn; congruence | split; [cbn; congruence | split]]; cbn.
    + apply insert_non_empty.
    + apply map_Forall_insert_2; [by rewrite Hm | done].
  - apply map_eq. intros q. unfold routes at 1. cbn [groups]. rewrite (Hr' q), Hr.
    destruct (decide (q = p)) as [-> |].
    + rewrite decide_True by congruence. by rewrite !lookup_insert_eq.
    + rewrite (lookup_insert_ne (routes t)) by done. rewrite <- Hr, gs_routes_mid by done.
      case_decide as E; [| done]. rewrite lookup_insert_ne; [done |].
      intros Hbq. apply n. destruct p, q; cbn in *; congruence.
  - rewrite <- Hr, gs_routes_mid by done. by rewrite decide_True by done.
  - done.
Qed.

Lemma remove_spec p t :
  wf t ->
  wf (remove p t).1 /\ routes (remove p t).1 = delete p (routes t) /\
  (remove p t).2 = bool_decide (is_Some (routes t !! p)) /\
  default_action (remove p t).1 = default_action t.
Proof.
  intros [Hs Hw]. unfold remove. pose proof (search_spec (plen p) (groups t) Hs) as Hb.
  destruct (search _ _) as [pos | pos].
  2:{ destruct Hb as (l1 & l2 & E & Hl & H1 & H2).
      assert (routes t !! p = None) as Hn.
      { apply gs_routes_other. rewrite E. apply Forall_app. split.
        - eapply Forall_impl; [exact H1 |]. intros g Hg Eg. cbn in Hg. rewrite Eg in Hg. lia.
        - eapply Forall_impl; [exact H2 |]. intros g Hg Eg. cbn in Hg. rewrite Eg in Hg. lia. }
      split; [done |]. rewrite delete_id by done. by rewrite Hn. }
  destruct Hb as (l1 & g & l2 & E & <- & Hg).
  destruct (sorted_mid l1 g l2) as [D1 D2]; [by rewrite <- E |].
  assert (forall q, gs_routes (l1 ++ g :: l2) !! q = routes t !! q) as Hr
    by (unfold routes; by rewrite E).
  rewrite E in *. rewrite lookup_app_r, Nat.sub_diag by lia. cbn [lookup list_lookup].
  apply Forall_app in Hw as [Hw1 [(Hg1 & Hg2 & Hg3 & Hg4) Hw2]%Forall_cons_1].
  assert (forall q, (if decide (plen q = g_len g) then delete (base p) (g_entries g) !! base q
                     else gs_routes (l1 ++ g :: l2) !! q) = delete p (routes t) !! q) as Hdel.
  { intros q. destruct (decide (q = p)) as [-> |].
    - rewrite decide_True by congruence. by rewrite !lookup_delete_eq.
    - rewrite (lookup_delete_ne (routes t)) by done. rewrite <- Hr, gs_routes_mid by done.
      case_decide as Eq; [| done]. rewrite lookup_delete_ne; [done |].
      intros Hbq. apply n. destruct p, q; cbn in *; congruence. }
  split; [| split; [| split; [| done]]]; cbn [groups default_action fst snd].
  - case_decide as Hempty; unfold wf; cbn [groups].
    + rewrite delete_middle.
      split; [| by apply Forall_app]. apply StronglySorted_app in Hs as (S1 & S2 & [S3 S4]%StronglySorted_inv).
      apply StronglySorted_app. split; [| done]. intros x y Hx Hy. apply S1; [done |].
      by apply list_elem_of_further.
    + rewrite insert_middle.
      split; [by apply replace_entries |]. apply Forall_app. split; [done |].
      constructor; [| done]. repeat split; try done. by apply map_Forall_delete.
  - apply map_eq. intros q. rewrite <- Hdel. unfold routes. cbn [groups]. case_decide as Hempty.
    + rewrite delete_middle.
      rewrite gs_routes_mid by done. rewrite Hempty, lookup_empty. case_decide as Eq; [| done].
      apply gs_routes_other. rewrite Eq. by apply Forall_app.
    + rewrite insert_middle.
      by rewrite (proj2 (replace_entries l1 g l2 _ Hs)).
  - rewrite <- Hr, gs_routes_mid by done. by rewrite decide_True by done.
Qed.

(** A removal that finds nothing leaves the table as it is. *)
Lemma remove_miss p t : wf t -> (remove p t).2 = false -> (remove p t).1 = t.
Proof.
  unfold remove. intros [Hs Hw]. pose proof (search_spec (plen p) (groups t) Hs) as Hb.
  destruct (search _ _) as [pos |]; [| done]. destruct Hb as (l1 & g & l2 & E & <- & Hg).
  rewrite E in *. rewrite lookup_app_r, Nat.sub_diag by lia. cbn [lookup list_lookup fst snd].
  apply Forall_app in Hw as [_ [(_ & _ & Hne & _) _]%Forall_cons_1].
  case_bool_decide as D; [done |]. intros _. apply eq_None_not_Some in D.
  rewrite delete_id by done. rewrite decide_False by done. rewrite insert_middle.
  destruct t as [gs d], g as [a b c]. cbn in *. by rewrite E.
Qed.

Lemma clear_spec t :
  wf (clear t).1 /\ routes (clear t).1 = ∅ /\ default_action (clear t).1 = default_action t.
Proof. split; [split; constructor | done]. Qed.

Lemma wf_new d : wf (new d).
Proof. split; constructor. Qed.

(** The iteration lists each route once. *)
Lemma NoDup_iter t : wf t -> NoDup (iter t).*1.
Proof.
  intros [Hs _]. unfold iter. induction Hs as [| g gs Hs IH Hg]; [constructor |].
  cbn [mbind list_bind]. rewrite fmap_app. apply NoDup_app. split; [| split; [| done]].
  - rewrite <- list_fmap_compose.
    change (NoDup ((fun b => Prefix b (g_len g)) ∘ fst <$> map_to_list (g_entries g))).
    rewrite list_fmap_compose. apply (NoDup_fmap_2 _). apply NoDup_fst_map_to_list.
  - intros p (e & -> & (e' & -> & _)%list_elem_of_fmap)%list_elem_of_fmap Hin. cbn in Hin.
    apply list_elem_of_fmap in Hin as (e2 & He2 & (g2 & Hin & Hg2)%list_elem_of_bind).
    apply list_elem_of_fmap in Hin as (e3 & -> & _). injection He2 as _ Heq.
    rewrite Forall_forall in Hg. specialize (Hg g2 Hg2). unfold g_longer in Hg.
    rewrite Heq in Hg. lia.
Qed.

Lemma iter_routes t : wf t -> iter t ≡ₚ map_to_list (routes t).
Proof.
  intros Hwf. rewrite <- (map_to_list_to_map (M := gmap Ipv4Prefix) (iter t)) by by apply NoDup_iter.
  enough (list_to_map (iter t) = routes t) as -> by done.
  destruct t as [gs d]. clear Hwf. unfold iter, routes. cbn [groups].
  induction gs as [| g gs IH]; [done |]. cbn [mbind list_bind]. rewrite list_to_map_app, IH. simpl.
  by unfold group_routes, kmap.
Qed.

Lemma iter_wf t q a : wf t -> (q, a) ∈ iter t -> prefix_wf q.
Proof.
  intros [_ Hw]. unfold iter. intros (g & He & Hg)%list_elem_of_bind. rewrite Forall_forall in Hw.
  destruct (Hw g Hg) as (H1 & H2 & _ & H4). apply list_elem_of_fmap in He as ([b a'] & [= -> ->] & Hb).
  apply elem_of_map_to_list in Hb. split; [done |]. cbn [plen base]. rewrite <- H2. by apply (H4 b a').
Qed.

Lemma len_iter t : len t = length (iter t).
Proof.
  destruct t as [gs d]. unfold len, iter. cbn [groups].
  induction gs as [| g gs IH]; [done |]. cbn [sum_list_with mbind list_bind].
  by rewrite length_app, length_fmap, length_map_to_list, IH.
Qed.

Lemma len_routes t : wf t -> len t = size (routes t).
Proof. intros H. by rewrite len_iter, (iter_routes t H), length_map_to_list. Qed.

(** *** Lookup *)

Lemma longest_ext m1 m2 key n :
  (forall l, uv l <= Z.of_nat n -> m1 !! prefix_of key l = m2 !! prefix_of key l) ->
  longest m1 key n = longest m2 key n.
Proof.
  assert (forall k, uv (U8 (Z.of_nat k)) <= Z.of_nat k) as Hle
    by (intros k; rewrite uv_of; apply Z.mod_le; [lia | done]).
  induction n as [| n IH]; intros H; cbn [longest].
  - by rewrite (H (U8 (Z.of_nat 0))) by apply Hle.
  - rewrite (H (U8 (Z.of_nat (S n)))) by apply Hle.
    rewrite IH; [done |]. intros l Hl. apply H. lia.
Qed.

Lemma longest_skip m key (l : byte) n :
  (n < 256)%nat -> (forall l', uv l < uv l' <= Z.of_nat n -> m !! prefix_of key l' = None) ->
  uv l <= Z.of_nat n -> longest m key n = longest m key (Z.to_nat (uv l)).
Proof.
  intros Hn Hm Hl. pose proof (uint_range l) as [Hl0 _]. induction n as [| n IH].
  - by replace (Z.to_nat (uv l)) with 0%nat by lia.
  - destruct (decide (uv l = Z.of_nat (S n))) as [-> |]; [by rewrite Nat2Z.id |].
    cbn [longest]. rewrite (Hm (U8 (Z.of_nat (S n)))).
    + apply IH; [lia | | lia]. intros l' Hl'. apply Hm. lia.
    + rewrite uv_of_small by word_lia. lia.
Qed.

(** Probing the groups in order is the reference lookup. *)
Lemma find_map_longest gs key n :
  StronglySorted g_longer gs -> Forall group_wf gs ->
  Forall (fun g => uv (g_len g) <= Z.of_nat n) gs -> (n < 256)%nat ->
  find_map (fun g => g_entries g !! and32 key (g_mask g)) gs = longest (gs_routes gs) key n.
Proof.
  intros Hs. revert n. induction Hs as [| g gs Hs IH Hg]; intros n Hw Hb Hn.
  - cbn. induction n as [| n IHn]; cbn [longest]; rewrite lookup_empty; [done |]. apply IHn; [done | lia].
  - apply Forall_cons_1 in Hw as [(Hg1 & Hm & Hg3 & Hg4) Hw]. apply Forall_cons_1 in Hb as [Hb1 Hb].
    pose proof (uint_range (g_len g)) as [Hl0 _].
    rewrite Forall_forall in Hg. unfold g_longer in Hg.
    assert (Forall (fun g' => g_len g' <> g_len g) gs) as D.
    { apply Forall_forall. intros g' Hg' E. specialize (Hg g' Hg'). rewrite E in Hg. lia. }
    rewrite (longest_skip _ _ (g_len g)).
    2: done.
    2:{ intros l' Hl'. apply gs_routes_other. cbn. constructor; [intros E; rewrite E in Hl'; lia |].
        apply Forall_forall. intros g' Hg' E. specialize (Hg g' Hg'). rewrite E in Hg. lia. }
    2: done.
    pose proof (fun p => gs_routes_mid [] g gs p (Forall_nil_2 _) D) as Hmid. cbn [app] in Hmid.
    cbn [find_map]. rewrite Hm.
    destruct (Z.to_nat (uv (g_len g))) as [| k] eqn:Ek; cbn [longest].
    + rewrite (Hmid (prefix_of key (U8 (Z.of_nat 0)))). replace (U8 (Z.of_nat 0)) with (g_len g)
        by (apply uint_eq; rewrite uv_of_small; lia).
      cbn [plen base prefix_of]. rewrite decide_True by done.
      destruct (g_entries g !! _); [done |].
      destruct gs as [| g' gs]; [done |]. specialize (Hg g' (list_elem_of_here _ _)).
      pose proof (uint_range (g_len g')). lia.
    + assert (U8 (Z.of_nat (S k)) = g_len g) as El
        by (apply uint_eq; rewrite uv_of_small; word_lia).
      rewrite Hmid, El. cbn [plen base prefix_of]. rewrite decide_True by done.
      destruct (g_entries g !! _); [done |].
      rewrite (longest_ext _ (gs_routes gs)).
      * apply IH; [done | | lia]. apply Forall_forall. intros g' Hg'. specialize (Hg g' Hg'). lia.
      * intros l Hl. rewrite Hmid. cbn [plen prefix_of]. rewrite decide_False; [done |].
        intros ->. lia.
Qed.

Lemma apply_longest t addr :
  wf t -> apply t addr = default (default_action t) (longest (routes t) (ip_u32 addr) 32).
Proof.
  intros [Hs Hw]. unfold apply, routes. rewrite (find_map_longest _ _ 32); try done; [| lia].
  eapply Forall_impl; [exact Hw |]. by intros g (Hg & _).
Qed.

Lemma routes_plen t q : wf t -> is_Some (routes t !! q) -> uv (plen q) <= 32.
Proof.
  intros [_ Hw] [a Ha]. unfold routes in Ha. destruct t as [gs d]; cbn in *.
  induction Hw as [| g gs (Hg & _) _ IH]; cbn in Ha; [by rewrite lookup_empty in Ha |].
  rewrite lookup_union, lookup_group_routes in Ha. case_decide as E; [by rewrite E |].
  apply IH. by rewrite (left_id_L None (∪)) in Ha.
Qed.

(** What the reference lookup finds: the entry of the longest length, or
    nothing at any length. *)
Lemma longest_spec m key n :
  (n < 256)%nat ->
  match longest m key n with
  | Some a => exists l, uv l <= Z.of_nat n /\ m !! prefix_of key l = Some a /\
                forall l', uv l < uv l' <= Z.of_nat n -> m !! prefix_of key l' = None
  | None => forall l, uv l <= Z.of_nat n -> m !! prefix_of key l = None
  end.
Proof.
  induction n as [| n IH]; intros Hn; cbn [longest].
  - destruct (m !! _) as [a |] eqn:E.
    + exists (U8 (Z.of_nat 0)). rewrite uv_of_small by word_lia. split; [done |]. split; [done | lia].
    + intros l Hl. replace l with (U8 (Z.of_nat 0)); [done |]. apply uint_eq.
      rewrite uv_of_small by word_lia. word_lia.
  - destruct (m !! prefix_of key (U8 (Z.of_nat (S n)))) as [a |] eqn:E.
    + exists (U8 (Z.of_nat (S n))). rewrite uv_of_small by word_lia.
      split; [lia |]. split; [done | lia].
    + assert (forall l', uv l' <= Z.of_nat (S n) -> uv l' <= Z.of_nat n \/
                m !! prefix_of key l' = None) as Hlast.
      { intros l' Hl'. destruct (decide (uv l' = Z.of_nat (S n))) as [D |]; [right | left; lia].
        by replace l' with (U8 (Z.of_nat (S n))) by (apply uint_eq; rewrite uv_of_small; word_lia). }
      specialize (IH ltac:(lia)). destruct (longest m key n) as [a |].
      * destruct IH as (l & H1 & H2 & H3). exists l. split; [lia |]. split; [done |].
        intros l' Hl'. destruct (Hlast l' ltac:(lia)); [apply H3; lia | done].
      * intros l Hl. destruct (Hlast l Hl); [by apply IH | done].
Qed.

(** *** Operation traces *)

(** The operations a table sees, as the control plane and the datapath issue
    them: routes are named by an address and a length. *)
Inductive Op :=
  | OInsert (addr : Ipv4Addr) (len : byte) (action : A)
  | ORemove (addr : Ipv4Addr) (len : byte)
  | OSetDefault (action : A)
  | OClear
  | OApply (addr : Ipv4Addr)
  | OLen.

Inductive Reply := Refused | Flag (b : bool) | Act (a : A) | Count (n : nat) | Done.

Definition step (o : Op) (t : LpmTable) : LpmTable * Reply :=
  match o with
  | OInsert addr len a =>
      match prefix_new addr len with
      | Some p => let '(t, b) := insert p a t in (t, Flag b)
      | None => (t, Refused)
      end
  | ORemove addr len =>
      match prefix_new addr len with
      | Some p => let '(t, b) := remove p t in (t, Flag b)
      | None => (t, Refused)
      end
  | OSetDefault a => (set_default a t, Done)
  | OClear => let '(t, n) := clear t in (t, Count n)
  | OApply addr => (t, Act (apply t addr))
  | OLen => (t, Count (len t))
  end.

(** The same operations on a finite map and a default. *)
Definition spec_step (o : Op) (s : gmap Ipv4Prefix A * A) : (gmap Ipv4Prefix A * A) * Reply :=
  let '(m, d) := s in
  match o with
  | OInsert addr len a =>
      match prefix_new addr len with
      | Some p => ((<[p := a]> m, d), Flag (bool_decide (is_Some (m !! p))))
      | None => (s, Refused)
      end
  | ORemove addr len =>
      match prefix_new addr len with
      | Some p => ((delete p m, d), Flag (bool_decide (is_Some (m !! p))))
      | None => (s, Refused)
      end
  | OSetDefault a => ((m, a), Done)
  | OClear => ((∅, d), Count (size m))
  | OApply addr => (s, Act (default d (longest m (ip_u32 addr) 32)))
  | OLen => (s, Count (size m))
  end.

Fixpoint run {St} (f : Op -> St -> St * Reply) (ops : list Op) (s : St) : St * list Reply :=
  match ops with
  | [] => (s, [])
  | o :: ops => let '(s, r) := f o s in let '(s, rs) := run f ops s in (s, r :: rs)
  end.
End lpm.
Arguments LpmTable A : clear implicits.
Arguments LpmGroup A : clear implicits.
End Lpm.

(** ** Masks and prefixes *)

(** The mask keeps the leading bits. *)
Lemma uv_and_mask key (len : byte) :
  uv len <= 32 ->
  uv (and32 key (mask_of len)) =
    Z.shiftl (Z.shiftr (uv key) (32 - uv len)) (32 - uv len).
Proof.
  intros H. pose proof (uint_range len) as Hl. pose proof (uint_range key) as Hk.
  change (Z.of_N 32) with 32 in *.
  assert (uv (mask_of len) = Z.shiftl (Z.ones (uv len)) (32 - uv len)) as Hm.
  { unfold mask_of. destruct (Z.eqb_spec (uv len) 0) as [-> | Hn]; [done |].
    rewrite uv_of. change (umax 32) with (Z.ones 32). apply Z.bits_inj'. intros i Hi.
    change (Z.of_N 32) with 32. rewrite Z.shiftl_spec by lia.
    destruct (Z.ltb_spec i 32).
    - rewrite Z.mod_pow2_bits_low, Z.shiftl_spec by lia.
      rewrite !Z.testbit_ones by lia.
      destruct (Z.leb_spec 0 (i - (32 - uv len))); [| done].
      by rewrite !(proj2 (Z.ltb_lt _ _)) by lia.
    - rewrite Z.mod_pow2_bits_high by lia. symmetry. apply Z.ones_spec_high. lia. }
  unfold and32. rewrite uv_of, Hm.
  assert (Z.land (uv key) (Z.shiftl (Z.ones (uv len)) (32 - uv len)) =
          Z.shiftl (Z.shiftr (uv key) (32 - uv len)) (32 - uv len)) as E.
  { apply Z.bits_inj'. intros i Hi. rewrite Z.land_spec, !Z.shiftl_spec by lia.
    destruct (Z.leb_spec (32 - uv len) i).
    - rewrite Z.shiftr_spec by lia. replace (i - (32 - uv len) + (32 - uv len)) with i by lia.
      destruct (Z.ltb_spec i 32).
      + rewrite Z.ones_spec_low by lia. apply andb_true_r.
      + rewrite Z.ones_spec_high by lia. rewrite andb_false_r. symmetry.
        apply (Z.bits_above_log2 (uv key)); [lia |].
        destruct (Z.eq_dec (uv key) 0) as [-> |]; [cbn; lia |].
        apply Z.log2_lt_pow2; [lia |]. pose proof (Z.pow_le_mono_r 2 32 i). lia.
    - rewrite !(Z.testbit_neg_r _ (i - _)) by lia. apply andb_false_r. }
  rewrite E. apply Z.mod_small. rewrite Z.shiftr_div_pow2, Z.shiftl_mul_pow2 by lia.
  assert (0 < 2 ^ (32 - uv len)) by lia.
  pose proof (Z.mul_div_le (uv key) (2 ^ (32 - uv len))).
  pose proof (Z.div_pos (uv key) (2 ^ (32 - uv len))). change (Z.of_N 32) with 32. nia.
Qed.

(** Two keys agree under a mask when their leading bits agree. *)
Lemma and_mask_eq k1 k2 (len : byte) :
  uv len <= 32 ->
  and32 k1 (mask_of len) = and32 k2 (mask_of len) <->
  Z.shiftr (uv k1) (32 - uv len) = Z.shiftr (uv k2) (32 - uv len).
Proof.
  intros H. split.
  - intros E%(f_equal uv). rewrite !uv_and_mask, !Z.shiftl_mul_pow2 in E by lia.
    apply Z.mul_cancel_r in E; [done |]. apply Z.pow_nonzero; lia.
  - intros E. apply uint_eq. by rewrite !uv_and_mask, E.
Qed.

Lemma and_mask_idem k (len : byte) :
  uv len <= 32 -> and32 (and32 k (mask_of len)) (mask_of len) = and32 k (mask_of len).
Proof.
  intros H. apply and_mask_eq; [done |]. rewrite uv_and_mask by done.
  rewrite Z.shiftr_shiftl_l by lia. by rewrite Z.sub_diag, Z.shiftl_0_r.
Qed.

Lemma prefix_new_Some addr len p :
  prefix_new addr len = Some p <->
  uv len <= 32 /\ p = prefix_of (ip_u32 addr) len.
Proof.
  unfold prefix_new. rewrite Z.gtb_ltb. destruct (Z.ltb_spec 32 (uv len)); split; try done; try lia.
  - by intros [= <-].
  - by intros [_ ->].
Qed.

Lemma prefix_new_wf addr len p : prefix_new addr len = Some p -> prefix_wf p.
Proof. intros [H ->]%prefix_new_Some. split; [done |]. by apply and_mask_idem. Qed.

(** The address of a prefix and a 32-bit key are the same thing. *)
Lemma ip_octets_prefix_addr p : ip_octets (prefix_addr p) = u32_be (base p).
Proof.
  unfold prefix_addr, ip_octets, u32_be, be_bytes. cbn [le_bytes].
  change (reverse [?a; ?b; ?c; ?d]) with [d; c; b; a].
  generalize (uv (base p)); intros z. rewrite !Z.shiftr_div_pow2 by lia.
  assert (forall a, a / 2 ^ 16 = a / 256 / 256 /\ a / 2 ^ 24 = a / 256 / 256 / 256) as E.
  { intros a. split; [by rewrite (Z.div_div a 256 256) by lia |].
    by rewrite (Z.div_div a 256 256), (Z.div_div a (256 * 256) 256) by lia. }
  destruct (E z) as [-> ->]. reflexivity.
Qed.

Lemma ip_u32_prefix_addr p : ip_u32 (prefix_addr p) = base p.
Proof. unfold ip_u32. by rewrite ip_octets_prefix_addr, be_u32_u32_be. Qed.

Lemma ip_u32_inj a b : ip_u32 a = ip_u32 b -> a = b.
Proof.
  intros H%(f_equal u32_be). unfold ip_u32 in H.
  rewrite !u32_be_be_u32 in H by by destruct a, b.
  destruct a, b. cbn in H. congruence.
Qed.

Lemma prefix_new_addr p : prefix_wf p -> prefix_new (prefix_addr p) (plen p) = Some p.
Proof.
  intros [H1 H2]. apply prefix_new_Some. split; [done |]. unfold prefix_of.
  rewrite ip_u32_prefix_addr, H2. by destruct p.
Qed.

Lemma prefix_to_string_inj p q :
  prefix_wf p -> prefix_wf q -> prefix_to_string p = prefix_to_string q -> p = q.
Proof.
  intros Hp Hq E%(f_equal chars). unfold prefix_to_string in E.
  rewrite !chars_unchars in E. pose proof (f_equal (split_once "/") E) as F.
  pose proof (no_slash_val (ValIpv4 (prefix_addr p))) as N1. cbn [val_to_string] in N1.
  pose proof (no_slash_val (ValIpv4 (prefix_addr q))) as N2. cbn [val_to_string] in N2.
  rewrite (split_once_app _ _ _ N1), (split_once_app _ _ _ N2) in F.
  apply (inj Some), pair_eq in F as [F1 F2].
  apply (f_equal unchars) in F1. rewrite !unchars_chars in F1. apply ip_to_string_inj in F1.
  apply (f_equal (from_str_radix (umax 8) 10)) in F2.
  pose proof (uint_range (plen p)). pose proof (uint_range (plen q)).
  rewrite !from_str_dec in F2 by (unfold umax; word_lia).
  apply (inj Some) in F2.
  apply uint_eq in F2. pose proof (prefix_new_addr p Hp) as P. rewrite F1, F2 in P.
  rewrite prefix_new_addr in P by done. congruence.
Qed.

(** ** Properties *)

Lemma Lpm_step_refines {A} (o : Lpm.Op (A := A)) t :
  Lpm.wf t ->
  let '(t', r) := Lpm.step o t in
  Lpm.wf t' /\ Lpm.spec_step o (Lpm.routes t, Lpm.default_action t) =
    ((Lpm.routes t', Lpm.default_action t'), r).
Proof.
  intros Hw. destruct o as [addr len a | addr len | a | | addr |]; cbn [Lpm.step Lpm.spec_step].
  - destruct (prefix_new addr len) as [p |] eqn:E; [| done].
    destruct (Lpm.insert_spec p a t Hw (prefix_new_wf _ _ _ E)) as (H1 & H2 & H3 & H4).
    destruct (Lpm.insert p a t) as [t' b]; cbn in *. split; [done |]. by rewrite H2, H4, H3.
  - destruct (prefix_new addr len) as [p |] eqn:E; [| done].
    destruct (Lpm.remove_spec p t Hw) as (H1 & H2 & H3 & H4).
    destruct (Lpm.remove p t) as [t' b]; cbn in *. split; [done |]. by rewrite H2, H4, H3.
  - done.
  - cbn. split; [split; constructor |]. by rewrite Lpm.len_routes.
  - split; [done |]. by rewrite Lpm.apply_longest.
  - split; [done |]. by rewrite Lpm.len_routes.
Qed.

(** C11: the grouped LPM table refines the finite map: any sequence of inserts,
    removals, default changes, clears, lookups and counts, from an empty table,
    gets reply for reply what a map from canonical prefixes to actions with the
    try-every-length lookup would give, and the struct's invariant holds at the
    end. *)
Theorem lpm_refines_map {A} (ops : list (Lpm.Op (A := A))) d :
  (Lpm.run Lpm.step ops (Lpm.new d)).2 = (Lpm.run Lpm.spec_step ops (∅, d)).2 /\
  Lpm.wf (Lpm.run Lpm.step ops (Lpm.new d)).1.
Proof.
  assert (forall t, Lpm.wf t ->
    (Lpm.run Lpm.step ops t).2 =
      (Lpm.run Lpm.spec_step ops (Lpm.routes t, Lpm.default_action t)).2 /\
    Lpm.wf (Lpm.run Lpm.step ops t).1) as H.
  { induction ops as [| o ops IH]; intros t Hw; [done |]. cbn [Lpm.run].
    pose proof (Lpm_step_refines o t Hw) as Hs. destruct (Lpm.step o t) as [t' r].
    destruct Hs as [Hw' ->]. destruct (IH t' Hw') as [H1 H2].
    destruct (Lpm.run Lpm.step ops t'), (Lpm.run Lpm.spec_step ops _); cbn in *.
    split; [by f_equal | done]. }
  apply (H (Lpm.new d)). apply Lpm.wf_new.
Qed.

(** A lookup takes the longest installed prefix the address lies in, and
    the default action exactly when it lies in none. *)
Theorem lpm_apply_longest_match {A} (t : Lpm.LpmTable A) addr :
  Lpm.wf t ->
  (exists p, Lpm.routes t !! p = Some (Lpm.apply t addr) /\
     prefix_matches p (ip_u32 addr) = true /\
     (forall q, is_Some (Lpm.routes t !! q) -> prefix_matches q (ip_u32 addr) = true ->
        uv (plen q) <= uv (plen p))) \/
  (Lpm.apply t addr = Lpm.default_action t /\
   forall q, is_Some (Lpm.routes t !! q) -> prefix_matches q (ip_u32 addr) = false).
Proof.
  intros Hw. rewrite Lpm.apply_longest by done.
  set (m := Lpm.routes t). set (key := ip_u32 addr).
  assert (forall q, prefix_matches q key = true -> q = prefix_of key (plen q)) as Hmatch.
  { intros [b l] H%bool_decide_eq_true_1. cbn in *. by rewrite <- H. }
  assert (forall q, is_Some (m !! q) -> uv (plen q) <= 32) as Hle
    by (intros q; by apply Lpm.routes_plen).
  pose proof (Lpm.longest_spec m key 32 ltac:(lia)) as Hn.
  destruct (Lpm.longest m key 32) as [a |]; cbn [default].
  - left. destruct Hn as (l & H1 & H2 & H3). exists (prefix_of key l). split; [done |].
    split; [by apply bool_decide_eq_true_2 |]. intros q Hq Hm. cbn.
    destruct (Z.le_gt_cases (uv (plen q)) (uv l)) as [| Hgt]; [done |].
    specialize (Hle q Hq). rewrite (Hmatch q Hm), (H3 (plen q)) in Hq by lia.
    by destruct Hq.
  - right. split; [done |]. intros q Hq. destruct (prefix_matches q key) eqn:Hm; [| done].
    pose proof (Hle q Hq) as Hl. rewrite (Hmatch q Hm), (Hn (plen q) Hl) in Hq. by destruct Hq.
Qed.

Lemma lpm_apply_longest_match_witness :
  exists p, Lpm.routes (Lpm.new 0%nat) !! p = Some (Lpm.apply (Lpm.new 0%nat) (Ipv4 (U8 10) (U8 0) (U8 0) (U8 1))) \/
    Lpm.apply (Lpm.new 0%nat) (Ipv4 (U8 10) (U8 0) (U8 0) (U8 1)) = 0%nat.
Proof.
  destruct (lpm_apply_longest_match (Lpm.new 0%nat) (Ipv4 (U8 10) (U8 0) (U8 0) (U8 1)))
    as [(p & H & _) | [H _]].
  - split; constructor.
  - exists p. by left.
  - exists (Prefix (U32 0) (U8 0)). by right.
Defined.

(** [Ipv4Prefix::new] refuses exactly the lengths above 32; what it builds
    is canonical (building it again from its own address gives it back) and is
    determined by the leading [len] bits of the address, so two spellings of
    one route are one key. *)
Theorem prefix_new_canonical addr (len : byte) :
  match prefix_new addr len with
  | None => 32 < uv len
  | Some p =>
      uv len <= 32 /\ plen p = len /\ prefix_new (prefix_addr p) len = Some p /\
      (forall addr', prefix_new addr' len = Some p <->
         Z.shiftr (uv (ip_u32 addr')) (32 - uv len) = Z.shiftr (uv (ip_u32 addr)) (32 - uv len)) /\
      (forall key, prefix_matches p key = true <->
         Z.shiftr (uv key) (32 - uv len) = Z.shiftr (uv (ip_u32 addr)) (32 - uv len))
  end.
Proof.
  destruct (prefix_new addr len) as [p |] eqn:E.
  - pose proof (prefix_new_wf _ _ _ E) as Hw. apply prefix_new_Some in E as [H ->].
    split; [done |]. split; [done |]. split; [by apply (prefix_new_addr (prefix_of _ _)) |].
    split.
    + intros addr'. rewrite prefix_new_Some, <- and_mask_eq by done. unfold prefix_of. split.
      * by intros [_ [= ->]].
      * by intros ->.
    + intros key. unfold prefix_matches, prefix_of. cbn. by rewrite bool_decide_eq_true, and_mask_eq.
  - unfold prefix_new in E. rewrite Z.gtb_ltb in E. destruct (Z.ltb_spec 32 (uv len)); done.
Qed.
