(* ===== verification/Publish.v ===== *)
(** * Publication of table values (crates/up4-engine/src/table.rs, [Shared]
    and [Cached])

    Two views of the same code.  The sequential operations are what one thread
    runs when nobody interleaves with it; the pipelines are built on them.  The
    interleaving model takes [Shared::update], [Cached::get] and the
    construction of a reader apart into the atomic actions other threads can
    observe, and shows what a shard sees while the control plane writes. *)

From S2P Require Import Prelude.

Local Open Scope Z_scope.

(** ** The operations, one thread at a time *)

Record Shared (T : Type) := { version : u64; current : T }.
Arguments version {T} _.
Arguments current {T} _.

Definition shared_new {T} (value : T) : Shared T := {| version := U64 0; current := value |}.

Definition load {T} (s : Shared T) : T := current s.

(** Copy-on-write: [f] returns the successor and a result; the version wraps
    as [AtomicU64::fetch_add] does. *)
Definition update {T R} (f : T -> T * R) (s : Shared T) : Shared T * R :=
  let '(next, out) := f (current s) in
  ({| version := U64 (uv (version s) + 1); current := next |}, out).

Record Cached (T : Type) := { c_value : T; c_version : u64 }.
Arguments c_value {T} _.
Arguments c_version {T} _.

Definition cached_new {T} (s : Shared T) : Cached T :=
  {| c_version := version s; c_value := load s |}.

Definition get {T} (s : Shared T) (c : Cached T) : Cached T :=
  if decide (version s = c_version c) then c
  else {| c_value := load s; c_version := version s |}.

(** A reader's view after [n] updates: it is at some version up to the current
    one, and at the current one it holds the current value. *)
Definition view {T} (n : nat) (s : Shared T) (c : Cached T) : Prop :=
  version s = U64 (Z.of_nat n) /\
  exists m, c_version c = U64 (Z.of_nat m) /\ (m <= n)%nat /\ (m = n -> c_value c = current s).

Lemma view_new {T} (v : T) : view 0 (shared_new v) (cached_new (shared_new v)).
Proof. split; [done |]. by exists 0%nat. Qed.

Lemma view_update {T R} (f : T -> T * R) n s c :
  Z.of_nat n < 2 ^ 64 -> view n s c -> view (S n) (update f s).1 c.
Proof.
  intros Hn (Hv & m & Hm & Hle & Heq). unfold update. destruct (f (current s)) as [x r].
  split; cbn.
  - rewrite Hv, uv_of_small by (change (Z.of_N 64) with 64; lia). f_equal. lia.
  - exists m. split; [done | lia].
Qed.

Lemma view_get {T} n (s : Shared T) c :
  Z.of_nat n < 2 ^ 64 -> view n s c -> c_value (get s c) = current s /\ view n s (get s c).
Proof.
  intros Hn (Hv & m & Hm & Hle & Heq). unfold get. case_decide as D.
  - assert (m = n) as ->; [| split; [by apply Heq | by split; [| exists n]]].
    rewrite Hv, Hm in D. apply (f_equal uv) in D.
    rewrite !uv_of_small in D by (change (Z.of_N 64) with 64; lia). lia.
  - split; [done |]. split; [done |]. by exists n.
Qed.

(** ** The atomic actions, interleaved

    [update] holds the mutex from before it stores the new value until after
    it has bumped the version; [load] takes the mutex.  So between an update's
    store and its bump a reader may read the version, but not the value. *)

Section interleaving.
Context {T : Type}.

(** Where a reader is inside [get] (or inside its constructor): nowhere, or
    past its version read with that version in hand and the value still to
    be loaded.  [r_began] is how many updates had completed at that read. *)
Record Reader := {
  r_index : nat;            (* which stored value the view holds *)
  r_version : u64;
  r_refresh : option u64;
  r_began : nat;
}.

(** [stored] is every value ever put in the slot, oldest first; the last is
    the current one. *)
Record System := {
  stored : list T;
  sys_version : u64;
  completed : nat;          (* updates that have bumped the version *)
  held : bool;              (* an update is between its store and its bump *)
  readers : gmap nat Reader;
}.

Inductive Event :=
  | EStore (f : T -> T)       (* [update]: lock, compute, store *)
  | EBump                     (* [update]: fetch_add, unlock *)
  | ENew (r : nat)            (* [Cached::new]: read the version *)
  | EGet (r : nat)            (* [Cached::get]: read the version, compare *)
  | ELoad (r : nat)           (* the refresh: lock, clone the value, unlock *)
  | EValueFirst (r : nat)     (* a constructor that clones the value first ... *)
  | EVersionNext (r : nat).   (* ... and reads the version next *)

(** What a completed [get] handed to the datapath. *)
Record Got := { got_reader : nat; got_began : nat; got_index : nat; got_value : T }.

Definition last_index (s : System) : nat := pred (length (stored s)).

Definition with_reader (r : nat) (x : Reader) (s : System) : System :=
  {| stored := stored s; sys_version := sys_version s; completed := completed s;
     held := held s; readers := <[r := x]> (readers s) |}.

Definition give (r : nat) (x : Reader) (s : System) : option (System * list Got) :=
  v ← stored s !! r_index x;
  Some (with_reader r x s,
        [{| got_reader := r; got_began := r_began x; got_index := r_index x; got_value := v |}]).

(** One action; [None] when the action is not enabled. *)
Definition exec (e : Event) (s : System) : option (System * list Got) :=
  match e with
  | EStore f =>
      if held s then None
      else v ← last (stored s);
           Some ({| stored := stored s ++ [f v]; sys_version := sys_version s;
                    completed := completed s; held := true; readers := readers s |}, [])
  | EBump =>
      if held s then
        Some ({| stored := stored s; sys_version := U64 (uv (sys_version s) + 1);
                 completed := S (completed s); held := false; readers := readers s |}, [])
      else None
  | ENew r =>
      match readers s !! r with
      | Some _ => None
      | None =>
          Some (with_reader r {| r_index := 0; r_version := sys_version s;
                                 r_refresh := Some (sys_version s);
                                 r_began := completed s |} s, [])
      end
  | EGet r =>
      x ← readers s !! r;
      match r_refresh x with
      | Some _ => None
      | None =>
          if decide (sys_version s = r_version x)
          then give r {| r_index := r_index x; r_version := r_version x;
                         r_refresh := None; r_began := completed s |} s
          else Some (with_reader r {| r_index := r_index x; r_version := r_version x;
                                      r_refresh := Some (sys_version s);
                                      r_began := completed s |} s, [])
      end
  | ELoad r =>
      x ← readers s !! r;
      v ← r_refresh x;
      if held s then None
      else give r {| r_index := last_index s; r_version := v; r_refresh := None;
                     r_began := r_began x |} s
  | EValueFirst r =>
      match readers s !! r with
      | Some _ => None
      | None =>
          if held s then None
          else Some (with_reader r {| r_index := last_index s; r_version := sys_version s;
                                      r_refresh := None; r_began := completed s |} s, [])
      end
  | EVersionNext r =>
      x ← readers s !! r;
      Some (with_reader r {| r_index := r_index x; r_version := sys_version s;
                             r_refresh := None; r_began := completed s |} s, [])
  end.

Fixpoint run (es : list Event) (s : System) : option (System * list Got) :=
  match es with
  | [] => Some (s, [])
  | e :: es =>
      '(s1, o1) ← exec e s;
      '(s2, o2) ← run es s1;
      Some (s2, o1 ++ o2)
  end.

Definition init (v : T) : System :=
  {| stored := [v]; sys_version := U64 0; completed := 0; held := false; readers := ∅ |}.

(** The constructors of [Cached] and of the native engines read the version
    first. *)
Definition version_first (e : Event) : bool :=
  match e with EValueFirst _ | EVersionNext _ => false | _ => true end.

Lemma run_app es1 es2 s s1 o1 :
  run es1 s = Some (s1, o1) ->
  run (es1 ++ es2) s = '(s2, o2) ← run es2 s1; Some (s2, o1 ++ o2).
Proof.
  revert s o1. induction es1 as [| e es1 IH]; intros s o1 H; cbn [run app] in *.
  - injection H as -> <-. by destruct (run es2 s1) as [[]|].
  - apply bind_Some in H as ([s0 o0] & E & H). apply bind_Some in H as ([s2 o2] & E2 & [= -> <-]).
    rewrite E. cbn. rewrite (IH _ _ E2). destruct (run es2 s1) as [[s3 o3] |]; [| done].
    cbn. by rewrite (assoc_L (++)).
Qed.

(** *** The invariant *)

Definition reader_ok (s : System) (x : Reader) : Prop :=
  (r_index x < length (stored s))%nat /\ (r_began x <= completed s)%nat /\
  (match r_refresh x with
   | None => exists k, r_version x = U64 (Z.of_nat k) /\ (k <= r_index x)%nat /\ (k <= completed s)%nat
   | Some v => exists k, v = U64 (Z.of_nat k) /\ (r_began x <= k)%nat /\ (k <= completed s)%nat
   end).

Definition inv (s : System) : Prop :=
  length (stored s) = (completed s + if held s then 2 else 1)%nat /\
  sys_version s = U64 (Z.of_nat (completed s)) /\
  map_Forall (fun _ x => reader_ok s x) (readers s).

Lemma inv_init v : inv (init v).
Proof. split; [done | split; [done |]]. intros r x Hx. cbn in Hx. by rewrite lookup_empty in Hx. Qed.

Lemma inv_with_reader s r x : inv s -> reader_ok s x -> inv (with_reader r x s).
Proof.
  intros (H1 & H2 & H3) Hx. split; [done | split; [done |]].
  by apply map_Forall_insert_2.
Qed.

Lemma give_inv s r x s' o :
  give r x s = Some (s', o) -> exists v, stored s !! r_index x = Some v /\ s' = with_reader r x s /\
    o = [{| got_reader := r; got_began := r_began x; got_index := r_index x; got_value := v |}].
Proof.
  unfold give. intros H. apply bind_Some in H as (v & Hv & [= <- <-]). eauto.
Qed.

(** The updates an event performs. *)
Definition updates (es : list Event) : list (T -> T) :=
  omap (fun e => match e with EStore f => Some f | _ => None end) es.

Definition apply_all (fs : list (T -> T)) (v : T) : T := foldl (fun v f => f v) v fs.

(** What one action does to the invariant, the slot and the views. *)
Record step_facts (e : Event) (s s' : System) (o : list Got) : Prop := {
  sf_inv : inv s';
  sf_completed : (completed s <= completed s' <= S (completed s))%nat;
  sf_stored : match e with
              | EStore f => exists v, last (stored s) = Some v /\ stored s' = stored s ++ [f v]
              | _ => stored s' = stored s
              end;
  sf_readers r x : readers s !! r = Some x ->
    exists x', readers s' !! r = Some x' /\ (r_index x <= r_index x')%nat;
  sf_got : o = [] \/ exists g x', o = [g] /\ readers s' !! got_reader g = Some x' /\
    r_index x' = got_index g /\ (got_began g <= got_index g)%nat /\
    stored s' !! got_index g = Some (got_value g);
}.

Lemma with_reader_mono s r x y :
  (forall x0, readers s !! r = Some x0 -> (r_index x0 <= r_index x)%nat) ->
  forall r', readers s !! r' = Some y ->
    exists x', readers (with_reader r x s) !! r' = Some x' /\ (r_index y <= r_index x')%nat.
Proof.
  intros H r' Hy. cbn. destruct (decide (r' = r)) as [-> |].
  - rewrite lookup_insert_eq. eauto.
  - rewrite lookup_insert_ne by done. eauto.
Qed.

(** A step that only touches one reader. *)
Lemma reader_step e s r x o :
  inv s -> reader_ok s x -> (forall x0, readers s !! r = Some x0 -> (r_index x0 <= r_index x)%nat) ->
  match e with EStore _ => False | _ => True end ->
  (o = [] \/ exists v, stored s !! r_index x = Some v /\ (r_began x <= r_index x)%nat /\
     o = [{| got_reader := r; got_began := r_began x; got_index := r_index x; got_value := v |}]) ->
  step_facts e s (with_reader r x s) o.
Proof.
  intros Hi Hx Hm He Ho. split.
  - by apply inv_with_reader.
  - cbn. lia.
  - by destruct e.
  - intros r' y Hy. by apply with_reader_mono.
  - destruct Ho as [-> | (v & Hv & Hb & ->)]; [by left | right].
    exists {| got_reader := r; got_began := r_began x; got_index := r_index x; got_value := v |}, x.
    cbn. rewrite lookup_insert_eq. done.
Qed.

Lemma reader_ok_grow s s' x :
  reader_ok s x -> (length (stored s) <= length (stored s'))%nat ->
  (completed s <= completed s')%nat -> reader_ok s' x.
Proof.
  unfold reader_ok. intros (H1 & H2 & H3) Hl Hc. split; [lia | split; [lia |]].
  destruct (r_refresh x); destruct H3 as (k & ? & ? & ?); exists k; repeat split; try done; lia.
Qed.

Lemma exec_facts e s s' o :
  inv s -> Z.of_nat (completed s) < 2 ^ 64 -> version_first e = true ->
  exec e s = Some (s', o) -> step_facts e s s' o.
Proof.
  intros Hi Hb Hv H. pose proof Hi as (Hl & Hver & Hr).
  assert (forall k, (k <= completed s)%nat -> uv (U64 (Z.of_nat k)) = Z.of_nat k) as Hk
    by (intros k Hk; apply uv_of_small; change (Z.of_N 64) with 64; lia).
  destruct e as [f | | r | r | r | r | r]; cbn [exec version_first] in *; try done.
  - destruct (held s) eqn:Hh; [done |]. apply bind_Some in H as (v & Hlast & [= <- <-]).
    split; cbn; [| lia | eauto | eauto | by left].
    split; [cbn; rewrite length_app; cbn; lia | split; [done |]].
    intros r x Hx. apply (reader_ok_grow s); cbn; [by apply (Hr r) | rewrite length_app; lia | lia].
  - destruct (held s) eqn:Hh; [| done]. injection H as <- <-.
    split; cbn; [| lia | done | eauto | by left].
    split; [cbn; lia | split].
    + cbn. rewrite Hver, Hk by lia. f_equal. lia.
    + intros r x Hx. apply (reader_ok_grow s); cbn; [by apply (Hr r) | lia | lia].
  - destruct (readers s !! r) eqn:E; [done |]. injection H as <- <-.
    apply reader_step; try done; [| by intros x0 Hx0; rewrite E in Hx0 | by left].
    split; cbn; [destruct (held s); lia | split; [lia |]]. eauto.
  - apply bind_Some in H as (x & Hx & H). destruct (Hr r x Hx) as (H1 & H2 & H3).
    destruct (r_refresh x) as [v |] eqn:Href; [done |]. destruct H3 as (k & Hk1 & Hk2 & Hk3).
    case_decide as D.
    + apply give_inv in H as (v & Hg & -> & ->). cbn in *.
      assert (k = completed s) as ->.
      { rewrite Hver, Hk1 in D. apply (f_equal uv) in D. rewrite !Hk in D by lia. lia. }
      apply reader_step; try done; cbn.
      * split; cbn; [done | split; [lia | eauto]].
      * intros x0 Hx0. rewrite Hx in Hx0. injection Hx0 as <-. lia.
      * right. eauto.
    + injection H as <- <-. apply reader_step; try done; [| | by left].
      * split; cbn; [done | split; [lia | eauto]].
      * intros x0 Hx0. rewrite Hx in Hx0. injection Hx0 as <-. cbn. lia.
  - apply bind_Some in H as (x & Hx & H). destruct (Hr r x Hx) as (H1 & H2 & H3).
    destruct (r_refresh x) as [v |] eqn:Href; [| done]. destruct H3 as (k & Hk1 & Hk2 & Hk3).
    cbn in H. destruct (held s) eqn:Hh; [done |].
    apply give_inv in H as (w & Hg & -> & ->). cbn [r_index r_began] in *. unfold last_index in *.
    apply reader_step; try done; cbn.
    + split; cbn; [unfold last_index; lia | split; [lia |]]. exists k. unfold last_index.
      split; [done | lia].
    + intros x0 Hx0. rewrite Hx in Hx0. injection Hx0 as <-. unfold last_index. lia.
    + right. exists w. split; [done | split; [| done]]. unfold last_index. lia.
Qed.

(** Two reads by one reader, the later not older. *)
Definition not_older (g1 g2 : Got) : Prop :=
  got_reader g1 = got_reader g2 -> (got_index g1 <= got_index g2)%nat.

Lemma stored_updates e s s' o :
  step_facts e s s' o -> inv s -> exists tl, stored s' = stored s ++ tl /\
    length tl = length (updates [e]).
Proof.
  intros Hf _. pose proof (sf_stored _ _ _ _ Hf) as Hs. destruct e; try (exists []; rewrite app_nil_r; done).
  destruct Hs as (v & _ & ->). by exists [f v].
Qed.

Lemma apply_all_last fs v l :
  (forall i, (i < length l)%nat -> l !! i = Some (apply_all (take i fs) v)) ->
  length l = S (length fs) -> last l = Some (apply_all fs v).
Proof.
  intros H Hl. rewrite last_lookup, H by lia. f_equal. rewrite Hl. cbn.
  by rewrite firstn_all.
Qed.

(** Running the actions from a state whose slot already holds the results of
    [fs]. *)
Lemma run_facts es s s' outs fs v :
  inv s -> Z.of_nat (completed s + length es) < 2 ^ 64 ->
  forallb version_first es = true -> run es s = Some (s', outs) ->
  length (stored s) = S (length fs) ->
  (forall i, (i < length (stored s))%nat -> stored s !! i = Some (apply_all (take i fs) v)) ->
  let all := fs ++ updates es in
  inv s' /\
  length (stored s') = S (length all) /\
  Forall (fun g => (got_began g <= got_index g)%nat /\ (got_index g <= length all)%nat /\
                   got_value g = apply_all (take (got_index g) all) v /\
                   forall x, readers s !! got_reader g = Some x -> (r_index x <= got_index g)%nat) outs /\
  StronglySorted not_older outs.
Proof.
  revert s outs fs. induction es as [| e es IH]; intros s outs fs Hi Hb Hv H Hl Hs all.
  { injection H as <- <-. unfold all. cbn. rewrite app_nil_r.
    split; [done | split; [done | split; constructor]]. }
  cbn [forallb] in Hv. apply andb_true_iff in Hv as [Hv1 Hv]. cbn [run] in H.
  apply bind_Some in H as ([s1 o1] & H1 & H). apply bind_Some in H as ([s2 o2] & H2 & [= <- <-]).
  cbn [length] in Hb.
  pose proof (exec_facts e s s1 o1 Hi ltac:(lia) Hv1 H1) as Hf.
  destruct Hf as [Hi1 Hc1 Hst Hrd Hgot].
  assert (length (stored s1) = S (length (fs ++ updates [e])) /\
    forall i, (i < length (stored s1))%nat ->
      stored s1 !! i = Some (apply_all (take i (fs ++ updates [e])) v)) as [Hl1 Hs1].
  { destruct e as [f | | | | | |]; cbn [updates omap list_omap] in *; rewrite ?app_nil_r, ?Hst; try done.
    destruct Hst as (w & Hw & ->). rewrite !length_app. cbn. split; [lia |].
    intros i Hlt. rewrite (apply_all_last fs v) in Hw by done. injection Hw as <-.
    destruct (decide (i = length (stored s))) as [-> |].
    - rewrite lookup_app_r, Nat.sub_diag by lia. cbn. f_equal.
      rewrite firstn_all2 by (rewrite length_app; cbn; lia).
      unfold apply_all. by rewrite foldl_app.
    - rewrite lookup_app_l, Hs by lia. by rewrite take_app_le by lia. }
  destruct (IH s1 o2 (fs ++ updates [e]) Hi1 ltac:(lia) Hv H2 Hl1 Hs1) as (R1 & R2 & R3 & R4).
  assert ((fs ++ updates [e]) ++ updates es = all) as Eall.
  { unfold all. rewrite <- (assoc_L (++)). f_equal. unfold updates. by rewrite <- omap_app. }
  rewrite Eall in *. split; [done | split; [done |]]. rewrite Forall_forall in R3.
  assert (Forall (fun g => (got_began g <= got_index g)%nat /\ (got_index g <= length all)%nat /\
                   got_value g = apply_all (take (got_index g) all) v /\
                   forall x, readers s !! got_reader g = Some x -> (r_index x <= got_index g)%nat) o2) as F2.
  { apply Forall_forall. intros g Hg. destruct (R3 g Hg) as (G1 & G2 & G3 & G4).
    split; [done | split; [done | split; [done |]]]. intros x Hx.
    destruct (Hrd _ _ Hx) as (x' & Hx' & Hle). specialize (G4 x' Hx'). lia. }
  destruct Hgot as [-> | (g & x' & -> & Hx' & Hix & Hbe & Hval)]; [done |].
  assert (got_index g < length (stored s1))%nat as Hlt by by apply lookup_lt_Some in Hval.
  split.
  - constructor; [| done]. split; [done |]. split; [rewrite <- Eall, length_app; lia |]. split.
    + rewrite (Hs1 _ Hlt) in Hval. injection Hval as <-. rewrite <- Eall.
      by rewrite (take_app_le _ (updates es)) by lia.
    + intros x Hx. destruct (Hrd _ _ Hx) as (x2 & Hx2 & Hle). rewrite Hx' in Hx2. injection Hx2 as <-. lia.
  - constructor; [done |]. apply Forall_forall. intros g2 Hg2 E.
    destruct (R3 g2 Hg2) as (_ & _ & _ & G4). rewrite <- Hix. apply G4. by rewrite <- E.
Qed.
End interleaving.
Arguments System T : clear implicits.
Arguments Event T : clear implicits.
Arguments Got T : clear implicits.

(** ** Properties *)

(** C10: a shard sees the tables entirely before or entirely after each control
    operation.  Whatever the interleaving of updates and lookups (fewer than
    2^64 actions, so the version counter cannot come round), the value a
    lookup uses is the result of the first [n] updates in order, for an [n]
    that counts at least every update completed before the lookup began, and
    that never decreases from one lookup of a reader to the next. *)
Theorem readers_see_prefixes {T} (es : list (Event T)) (v : T) s outs :
  forallb version_first es = true -> Z.of_nat (length es) < 2 ^ 64 ->
  run es (init v) = Some (s, outs) ->
  Forall (fun g => (got_began g <= got_index g <= length (updates es))%nat /\
                   got_value g = apply_all (take (got_index g) (updates es)) v) outs /\
  StronglySorted not_older outs.
Proof.
  intros Hv Hb H.
  destruct (run_facts es (init v) s outs [] v (inv_init v)) as (_ & _ & F & S); try done.
  { intros i Hi. cbn in Hi. by replace i with 0%nat by lia. }
  split; [| done]. eapply Forall_impl; [exact F |]. cbn. intros g (? & ? & ? & _). split; [lia | done].
Qed.

Lemma readers_see_prefixes_witness :
  exists s outs,
    run [ENew 0; ELoad 0; EStore S; EGet 0; EBump; EGet 0; ELoad 0] (init 7%nat) = Some (s, outs) /\
    got_value <$> outs = [7; 7; 8]%nat /\ StronglySorted not_older outs.
Proof.
  eexists _, _. split; [vm_compute; reflexivity |]. split; [reflexivity |].
  refine (proj2 (readers_see_prefixes
    [ENew 0; ELoad 0; EStore S; EGet 0; EBump; EGet 0; ELoad 0] 7%nat _ _ _ _ _)); vm_compute; reflexivity.
Defined.

(** Reading the version before the value is what the guarantee rests on.  A
    view built the other way round (value first) can be overtaken by an update
    in between, and then never notices it: every later lookup, however long
    after that update completed, uses the old value, until another update. *)
Theorem value_first_goes_stale {T} (v : T) (f : T -> T) (n : nat) :
  exists s outs,
    run ([EValueFirst 0; EStore f; EBump; EVersionNext 0] ++ replicate n (EGet 0)) (init v)
      = Some (s, outs) /\
    length outs = n /\
    Forall (fun g => got_began g = 1%nat /\ got_index g = 0%nat /\ got_value g = v) outs.
Proof.
  set (x := {| r_index := 0; r_version := U64 1; r_refresh := None; r_began := 1 |}).
  set (s1 := {| stored := [v; f v]; sys_version := U64 1; completed := 1; held := false;
                readers := {[0%nat := x]} |}).
  assert (exists s outs, run (replicate n (EGet 0)) s1 = Some (s, outs) /\ length outs = n /\
    Forall (fun g => got_began g = 1%nat /\ got_index g = 0%nat /\ got_value g = v) outs)
    as (s & outs & Hr & Hl & Hf).
  { induction n as [| n (s & outs & Hr & Hl & Hf)]; [by exists s1, [] |].
    exists s, ({| got_reader := 0; got_began := 1; got_index := 0; got_value := v |} :: outs).
    cbn [replicate run].
    assert (exec (EGet 0) s1 =
      Some (s1, [{| got_reader := 0; got_began := 1; got_index := 0; got_value := v |}])) as ->.
    { reflexivity. }
    cbn. rewrite Hr. cbn. split; [done |]. split; [by rewrite Hl |]. by constructor. }
  exists s, outs. split; [| done].
  by rewrite (run_app _ _ _ s1 []), Hr by reflexivity.
Qed.
