(* ===== verification/Frame.v ===== *)
(** * The buffer a pipeline is handed (crates/up4-engine/src/frame.rs)

    A [FrameCtx] is a window onto a receive slot: headroom, then the frame,
    then growth capacity.  The window's fields are private in the code, and
    every operation that could break "the window fits the buffer" returns a
    [Result]; [ok] is that relation. *)

From S2P Require Import Prelude Bytes.

Local Open Scope Z_scope.

Definition MIN_HEADROOM : nat := 64.

Inductive FrameError :=
  | NotEnoughHeadroom (want have : nat)
  | NotEnoughCapacity (want have : nat)
  | FrameTooShort (want have : nat).

#[export] Instance FrameError_eq_dec : EqDecision FrameError.
Proof. solve_decision. Defined.

Record FrameCtx := {
  buf : bytes;
  headroom : nat;
  len : nat;
  ingress_vport : u16;
  rx_ts_us : u32;
}.

(** [usize::checked_add] *)
Definition checked_add (a b : nat) : option nat :=
  if decide (Z.of_nat a + Z.of_nat b <= usize_max) then Some (a + b)%nat else None.

(** [FrameCtx::new] *)
Definition frame_new (b : bytes) (headroom len : nat) (ingress_vport : u16) (rx_ts_us : u32)
    : option FrameCtx :=
  fin ← checked_add headroom len;
  if decide (fin <= length b)%nat
  then Some {| buf := b; headroom := headroom; len := len;
               ingress_vport := ingress_vport; rx_ts_us := rx_ts_us |}
  else None.

(** [FrameCtx::frame] *)
Definition frame (f : FrameCtx) : bytes := slice (headroom f) (headroom f + len f) (buf f).

Definition with_buf (b : bytes) (f : FrameCtx) : FrameCtx :=
  {| buf := b; headroom := headroom f; len := len f;
     ingress_vport := ingress_vport f; rx_ts_us := rx_ts_us f |}.

Definition with_window (headroom len : nat) (f : FrameCtx) : FrameCtx :=
  {| buf := buf f; headroom := headroom; len := len;
     ingress_vport := ingress_vport f; rx_ts_us := rx_ts_us f |}.

(** What the holder of [frame_mut] leaves in the slice: [g] rewrites the bytes
    of the frame in place and cannot change how many there are. *)
Definition frame_mut (g : bytes -> bytes) (f : FrameCtx) : FrameCtx :=
  with_buf (copy_at (headroom f) (g (frame f)) (buf f)) f.

Definition is_empty (f : FrameCtx) : bool := (len f =? 0)%nat.

Definition capacity (f : FrameCtx) : nat := (length (buf f) - headroom f)%nat.

Definition set_len (n : nat) (f : FrameCtx) : result FrameCtx FrameError :=
  if decide (capacity f < n)%nat then Err (NotEnoughCapacity n (capacity f))
  else Ok (with_window (headroom f) n f).

Definition truncate (n : nat) (f : FrameCtx) : FrameCtx :=
  with_window (headroom f) (len f `min` n)%nat f.

(** [push_front] moves the window; the slice it returns, [n] bytes at the new
    front, is what [fill_front] then writes. *)
Definition push_front (n : nat) (f : FrameCtx) : result FrameCtx FrameError :=
  if decide (headroom f < n)%nat then Err (NotEnoughHeadroom n (headroom f))
  else Ok (with_window (headroom f - n) (len f + n) f).

Definition fill_front (bs : bytes) (f : FrameCtx) : FrameCtx :=
  with_buf (copy_at (headroom f) bs (buf f)) f.

Definition pop_front (n : nat) (f : FrameCtx) : result FrameCtx FrameError :=
  if decide (len f < n)%nat then Err (FrameTooShort n (len f))
  else Ok (with_window (headroom f + n) (len f - n) f).

(** ** The window invariant *)

Definition ok (f : FrameCtx) : Prop := (headroom f + len f <= length (buf f))%nat.

(** The room and the metadata an operation must leave alone. *)
Definition same_slot (f g : FrameCtx) : Prop :=
  length (buf g) = length (buf f) /\
  ingress_vport g = ingress_vport f /\ rx_ts_us g = rx_ts_us f.

(** ** Lemmas *)

Lemma frame_new_Some b h l v t f :
  frame_new b h l v t = Some f <->
  Z.of_nat h + Z.of_nat l <= usize_max /\ (h + l <= length b)%nat /\
  f = {| buf := b; headroom := h; len := l; ingress_vport := v; rx_ts_us := t |}.
Proof.
  unfold frame_new, checked_add. split.
  - intros H. apply bind_Some in H as (e & He & H). repeat case_decide; simplify_eq. done.
  - intros (H1 & H2 & ->). rewrite decide_True by done. cbn. by rewrite decide_True.
Qed.

Lemma length_frame f : ok f -> length (frame f) = len f.
Proof. unfold ok, frame. intros H. rewrite length_slice by done. lia. Qed.

Lemma frame_mut_ok g f :
  ok f -> length (g (frame f)) = len f ->
  ok (frame_mut g f) /\ same_slot f (frame_mut g f) /\ frame (frame_mut g f) = g (frame f).
Proof.
  unfold ok, same_slot, frame_mut, with_buf. intros Ho Hl. cbn.
  rewrite length_inserts. split; [done | split; [done |]].
  unfold frame at 1. cbn. apply list_eq. intros i.
  destruct (decide (i < len f)%nat) as [Hi | Hi].
  - rewrite slice_lookup, lookup_copy_at by lia. rewrite decide_True by lia.
    f_equal. lia.
  - rewrite !lookup_ge_None_2; [done | lia |].
    rewrite length_slice; [lia | by rewrite length_inserts].
Qed.

Lemma frame_mut_kept g f : ok f -> ok (frame_mut g f) /\ same_slot f (frame_mut g f).
Proof. intros Ho. unfold ok, same_slot, frame_mut, with_buf. cbn. by rewrite length_inserts. Qed.

(** Outside the window [frame_mut] changes nothing. *)
Lemma frame_mut_outside g f i :
  ok f -> length (g (frame f)) = len f -> (i < headroom f \/ headroom f + len f <= i)%nat ->
  buf (frame_mut g f) !! i = buf f !! i.
Proof.
  unfold ok, frame_mut. cbn. intros Ho Hl Hi. rewrite lookup_copy_at by lia.
  by rewrite decide_False by lia.
Qed.

Lemma frame_mut_id f : ok f -> frame_mut (fun b => b) f = f.
Proof.
  intros Ho. unfold frame_mut, with_buf. destruct f as [b h l v t]; cbn. f_equal.
  unfold ok, frame in *; cbn in *. apply list_eq. intros i.
  assert (length (slice h (h + l) b) = l) as Hl by (rewrite length_slice; lia).
  rewrite lookup_copy_at by lia. case_decide; [| done].
  rewrite slice_lookup by lia. f_equal. lia.
Qed.

Lemma frame_lookup f i : ok f -> (i < len f)%nat -> frame f !! i = buf f !! (headroom f + i)%nat.
Proof. intros Ho Hi. unfold frame. by rewrite slice_lookup by lia. Qed.

(** Two rewrites of the frame in a row are one. *)
Lemma frame_mut_compose g h f :
  ok f -> length (h (frame f)) = len f -> length (g (h (frame f))) = len f ->
  frame_mut g (frame_mut h f) = frame_mut (fun b => g (h b)) f.
Proof.
  intros Ho Hh Hg. pose proof (frame_mut_ok h f Ho Hh) as (_ & _ & E).
  unfold frame_mut at 1. rewrite E. unfold frame_mut, with_buf. cbn. f_equal.
  unfold ok in Ho. apply list_eq. intros i. rewrite !lookup_copy_at by (rewrite ?length_inserts; lia).
  rewrite Hh, Hg. by case_decide.
Qed.

Lemma frame_mut_ext g h f : g (frame f) = h (frame f) -> frame_mut g f = frame_mut h f.
Proof. intros E. unfold frame_mut. by rewrite E. Qed.

(** ** Sequences of operations *)

Inductive WindowOp :=
  | WSetLen (n : nat)
  | WTruncate (n : nat)
  | WPushFront (bs : bytes)
  | WPopFront (n : nat).

(** An operation with its outcome; a refusal leaves the frame as it was, which
    is how Rust's [?] at the call site leaves it. *)
Definition window_op (o : WindowOp) (f : FrameCtx) : FrameCtx * option FrameError :=
  match o with
  | WSetLen n => match set_len n f with Ok g => (g, None) | Err e => (f, Some e) end
  | WTruncate n => (truncate n f, None)
  | WPushFront bs =>
      match push_front (length bs) f with
      | Ok g => (fill_front bs g, None)
      | Err e => (f, Some e)
      end
  | WPopFront n => match pop_front n f with Ok g => (g, None) | Err e => (f, Some e) end
  end.

Fixpoint window_ops (os : list WindowOp) (f : FrameCtx) : FrameCtx :=
  match os with
  | [] => f
  | o :: os => window_ops os (window_op o f).1
  end.

Lemma window_op_ok o f : ok f -> ok (window_op o f).1 /\ same_slot f (window_op o f).1.
Proof.
  unfold ok, same_slot. intros H.
  destruct o as [n | n | bs | n]; cbn [window_op]; unfold set_len, push_front, pop_front, capacity.
  all: repeat case_decide; cbn; rewrite ?length_inserts; repeat split; try done; lia.
Qed.

(** ** Properties *)

(** No sequence of window operations, from any frame the harness builds,
    can make the frame stick out of its buffer, change the buffer's size or
    the metadata: the states a pipeline must not reach cannot be built. *)
Theorem window_invariant b h l v t f os :
  frame_new b h l v t = Some f ->
  let g := window_ops os f in
  (headroom g + len g <= length b)%nat /\ length (frame g) = len g /\ length (buf g) = length b /\
  ingress_vport g = v /\ rx_ts_us g = t.
Proof.
  intros (_ & Hl & ->)%frame_new_Some.
  set (f := {| buf := b; headroom := h; len := l; ingress_vport := v; rx_ts_us := t |}).
  assert (forall g, ok g -> same_slot f g ->
    ok (window_ops os g) /\ same_slot f (window_ops os g)) as H.
  { induction os as [| o os IH]; intros g Hg Hs; [done |]. cbn [window_ops].
    destruct (window_op_ok o g Hg) as [Ho (E1 & E2 & E3)]. apply IH; [done |].
    destruct Hs as (S1 & S2 & S3). repeat split; congruence. }
  destruct (H f) as [Ho (E1 & E2 & E3)]; [done | done |]. cbn in *.
  split; [by rewrite <- E1 | split; [by apply length_frame | done]].
Qed.

Lemma window_invariant_witness :
  let os := [WPushFront [U8 1; U8 2]; WSetLen 9; WPopFront 3; WPushFront (replicate 9 (U8 0))] in
  exists f, frame_new (replicate 8 (U8 7)) 2 4 (U16 1) (U32 0) = Some f /\
    length (frame (window_ops os f)) = len (window_ops os f) /\ len (window_ops os f) = 3%nat.
Proof.
  eexists. split; [vm_compute; reflexivity |]. split; [| reflexivity].
  eapply (window_invariant (replicate 8 (U8 7)) 2 4 (U16 1) (U32 0)). vm_compute. reflexivity.
Defined.

(** Encapsulation and decapsulation are inverse.  [push_front] is refused
    exactly when the headroom is short; when it is not, the new frame is the
    bytes written in front of the old frame, and popping as many bytes gives
    back the old frame in the old place, every byte behind it untouched. *)
Theorem push_pop_front f bs :
  ok f ->
  match push_front (length bs) f with
  | Err e => (headroom f < length bs)%nat /\ e = NotEnoughHeadroom (length bs) (headroom f)
  | Ok g =>
      (length bs <= headroom f)%nat /\
      let g := fill_front bs g in
      frame g = bs ++ frame f /\
      (forall i, (headroom f <= i)%nat -> buf g !! i = buf f !! i) /\
      exists f', pop_front (length bs) g = Ok f' /\
        frame f' = frame f /\ headroom f' = headroom f /\ len f' = len f
  end.
Proof.
  intros Ho. unfold push_front. case_decide as D; [done |]. split; [lia |]. unfold ok in Ho.
  set (g := fill_front bs (with_window (headroom f - length bs) (len f + length bs) f)).
  assert (forall i, buf g !! i = if decide (headroom f - length bs <= i < headroom f)%nat
                                 then bs !! (i - (headroom f - length bs))%nat else buf f !! i) as Hb.
  { intros i. unfold g, fill_front. cbn. rewrite lookup_copy_at by lia.
    destruct (decide (headroom f - length bs <= i < headroom f)%nat);
      destruct (decide _); try lia; done. }
  assert (length (buf g) = length (buf f)) as Hlen by (unfold g; cbn; by rewrite length_inserts).
  assert (forall k, frame (with_window (headroom f) k g) = frame (with_window (headroom f) k f)) as Hback.
  { intros k. unfold frame, slice. cbn [headroom len buf with_window]. f_equal. apply list_eq. intros i.
    rewrite !lookup_drop. change (buf g !! (headroom f + i)%nat = buf f !! (headroom f + i)%nat).
    rewrite Hb. by rewrite decide_False by lia. }
  split; [| split].
  - apply list_eq. intros i. unfold frame at 1.
    change (headroom g) with (headroom f - length bs)%nat. change (len g) with (len f + length bs)%nat.
    destruct (decide (i < len f + length bs)%nat) as [Hi |].
    + rewrite slice_lookup, Hb by lia. case_decide.
      * rewrite lookup_app_l by lia. f_equal. lia.
      * rewrite lookup_app_r by lia. unfold frame. rewrite slice_lookup by lia. f_equal. lia.
    + rewrite !lookup_ge_None_2; [done | |].
      * rewrite length_app, length_frame by done. lia.
      * rewrite length_slice by lia. lia.
  - intros i Hi. rewrite Hb. by rewrite decide_False by lia.
  - unfold pop_front. rewrite decide_False by (cbn; lia).
    exists (with_window (headroom f) (len f) g). split; [| split; [| done]].
    + change (headroom g) with (headroom f - length bs)%nat. change (len g) with (len f + length bs)%nat.
      f_equal. f_equal; lia.
    + rewrite Hback. by destruct f.
Qed.

Lemma push_pop_front_witness :
  let f := {| buf := replicate 8 (U8 7); headroom := 4; len := 3;
              ingress_vport := U16 0; rx_ts_us := U32 0 |} in
  exists g, push_front 2 f = Ok g /\ frame (fill_front [U8 1; U8 2] g) = [U8 1; U8 2] ++ frame f.
Proof.
  eexists. split; [reflexivity |].
  apply (push_pop_front {| buf := replicate 8 (U8 7); headroom := 4; len := 3;
              ingress_vport := U16 0; rx_ts_us := U32 0 |} [U8 1; U8 2]).
  unfold ok. cbn. lia.
Defined.
