(* ===== verification/Headers.v ===== *)
(** * Header parsing and deparsing (crates/up4-engine/src/headers.rs)

    Ethernet and IPv4 headers as views into the frame, the in-place writes,
    and the zeroing of inner checksums, with what each reads and writes byte by
    byte. *)

From S2P Require Import Prelude Bytes Value.

Local Open Scope Z_scope.

Definition ETH_HDR_LEN : nat := 14.
Definition IPV4_MIN_HDR_LEN : nat := 20.
Definition MIN_FRAME_LEN : nat := 60.
Definition ETHERTYPE_IPV4 : u16 := U16 2048.
Definition IP_PROTO_TCP : byte := U8 6.
Definition IP_PROTO_UDP : byte := U8 17.

Record Ethernet := {
  eth_dst : MacAddr;
  eth_src : MacAddr;
  ethertype : u16;
}.

(** [Ethernet::parse] *)
Definition eth_parse (frame : bytes) : option Ethernet :=
  b ← first_chunk ETH_HDR_LEN frame;
  Some {|
    eth_dst := Mac (byte_at b 0) (byte_at b 1) (byte_at b 2) (byte_at b 3) (byte_at b 4) (byte_at b 5);
    eth_src := Mac (byte_at b 6) (byte_at b 7) (byte_at b 8) (byte_at b 9) (byte_at b 10) (byte_at b 11);
    ethertype := be_u16 [byte_at b 12; byte_at b 13];
  |}.

Definition set_dst (frame : bytes) (mac : MacAddr) : bytes :=
  if decide (ETH_HDR_LEN <= length frame)%nat then copy_at 0 (octets mac) frame else frame.

Definition set_src (frame : bytes) (mac : MacAddr) : bytes :=
  if decide (ETH_HDR_LEN <= length frame)%nat then copy_at 6 (octets mac) frame else frame.

(** The struct [headers::Ipv4]. *)
Record Ipv4Hdr := {
  ip_offset : nat;
  ip_hdr_len : nat;
  ip_total_len : u16;
  ip_ttl : byte;
  ip_protocol : byte;
  ip_src : Ipv4Addr;
  ip_dst : Ipv4Addr;
}.

(** [Ipv4::parse] *)
Definition ip_parse (frame : bytes) (offset : nat) : option Ipv4Hdr :=
  if decide (length frame < offset)%nat then None else
  b ← first_chunk IPV4_MIN_HDR_LEN (drop offset frame);
  if negb (Z.shiftr (uv (byte_at b 0)) 4 =? 4) then None else
  let hdr_len := (Z.to_nat (Z.land (uv (byte_at b 0)) 15) * 4)%nat in
  if decide (hdr_len < IPV4_MIN_HDR_LEN \/ length frame < offset + hdr_len)%nat then None else
  Some {|
    ip_offset := offset;
    ip_hdr_len := hdr_len;
    ip_total_len := be_u16 [byte_at b 2; byte_at b 3];
    ip_ttl := byte_at b 8;
    ip_protocol := byte_at b 9;
    ip_src := Ipv4 (byte_at b 12) (byte_at b 13) (byte_at b 14) (byte_at b 15);
    ip_dst := Ipv4 (byte_at b 16) (byte_at b 17) (byte_at b 18) (byte_at b 19);
  |}.

Definition payload_offset (ip : Ipv4Hdr) : nat := (ip_offset ip + ip_hdr_len ip)%nat.

(** [get_mut(offset + 8)]: past the end nothing is written. *)
Definition set_ttl (ip : Ipv4Hdr) (frame : bytes) (ttl : byte) : bytes :=
  <[(ip_offset ip + 8)%nat := ttl]> frame.

Definition zero_at (frame : bytes) (at_ : nat) : bytes :=
  if decide (at_ + 2 <= length frame)%nat then copy_at at_ [U8 0; U8 0] frame else frame.

Definition zero_inner_checksums (frame : bytes) : bytes :=
  match eth_parse frame with
  | None => frame
  | Some eth =>
      if negb (bool_decide (ethertype eth = ETHERTYPE_IPV4)) then frame else
      match ip_parse frame ETH_HDR_LEN with
      | None => frame
      | Some ip =>
          let frame := zero_at frame (ip_offset ip + 10) in
          let l4 := payload_offset ip in
          if decide (ip_protocol ip = IP_PROTO_TCP) then zero_at frame (l4 + 16)
          else if decide (ip_protocol ip = IP_PROTO_UDP) then zero_at frame (l4 + 6)
          else frame
      end
  end.

(** ** What the parsers read *)

Lemma byte_at_lookup l i b : l !! i = Some b -> byte_at l i = b.
Proof. apply list_lookup_total_correct. Qed.

Lemma byte_at_take n l i : (i < n)%nat -> byte_at (take n l) i = byte_at l i.
Proof. intros H. unfold byte_at. by rewrite !list_lookup_total_alt, lookup_take_lt. Qed.

Lemma byte_at_drop n l i : byte_at (drop n l) i = byte_at l (n + i).
Proof. unfold byte_at. by rewrite !list_lookup_total_alt, lookup_drop. Qed.

(** The fields of a parsed Ethernet header, as bytes of the frame. *)
Lemma eth_parse_unfold f :
  eth_parse f =
    if decide (ETH_HDR_LEN <= length f)%nat
    then Some {|
      eth_dst := Mac (byte_at f 0) (byte_at f 1) (byte_at f 2) (byte_at f 3) (byte_at f 4) (byte_at f 5);
      eth_src := Mac (byte_at f 6) (byte_at f 7) (byte_at f 8) (byte_at f 9) (byte_at f 10) (byte_at f 11);
      ethertype := be_u16 [byte_at f 12; byte_at f 13] |}
    else None.
Proof.
  unfold eth_parse, first_chunk. case_decide; [| done]. cbn [mbind option_bind].
  unfold ETH_HDR_LEN. by rewrite !byte_at_take by lia.
Qed.

Definition ip_first (f : bytes) (o : nat) : Z := uv (byte_at f o).

Definition ip_len_at (f : bytes) (o : nat) : nat := (Z.to_nat (Z.land (ip_first f o) 15) * 4)%nat.

(** When an IPv4 header is accepted. *)
Definition ip_coherent (f : bytes) (o : nat) : Prop :=
  (o + IPV4_MIN_HDR_LEN <= length f)%nat /\ Z.shiftr (ip_first f o) 4 = 4 /\
  (IPV4_MIN_HDR_LEN <= ip_len_at f o)%nat /\ (o + ip_len_at f o <= length f)%nat.

#[export] Instance ip_coherent_dec f o : Decision (ip_coherent f o).
Proof. unfold ip_coherent. apply _. Defined.

Lemma ip_parse_unfold f o :
  ip_parse f o =
    if decide (ip_coherent f o)
    then Some {|
      ip_offset := o; ip_hdr_len := ip_len_at f o;
      ip_total_len := be_u16 [byte_at f (o + 2); byte_at f (o + 3)];
      ip_ttl := byte_at f (o + 8); ip_protocol := byte_at f (o + 9);
      ip_src := Ipv4 (byte_at f (o + 12)) (byte_at f (o + 13)) (byte_at f (o + 14)) (byte_at f (o + 15));
      ip_dst := Ipv4 (byte_at f (o + 16)) (byte_at f (o + 17)) (byte_at f (o + 18)) (byte_at f (o + 19)) |}
    else None.
Proof.
  unfold ip_parse, first_chunk. unfold ip_coherent, ip_len_at, ip_first, IPV4_MIN_HDR_LEN.
  destruct (decide (length f < o)%nat).
  { by rewrite decide_False by lia. }
  rewrite length_drop. destruct (decide (20 <= length f - o)%nat); cbn [mbind option_bind].
  2:{ by rewrite decide_False by lia. }
  rewrite !byte_at_take, !byte_at_drop by lia. rewrite Nat.add_0_r.
  destruct (Z.eqb_spec (Z.shiftr (uv (byte_at f o)) 4) 4); cbn [negb].
  2:{ rewrite decide_False; [done |]. by intros (_ & ? & _). }
  destruct (decide _) as [D | D]; [rewrite decide_False; [done | lia] |].
  rewrite decide_True; [done |]. lia.
Qed.

(** Two frames of one length that agree on what a parser reads parse alike. *)
Lemma eth_parse_agree f g :
  length f = length g -> (forall i, (i < 14)%nat -> f !! i = g !! i) -> eth_parse f = eth_parse g.
Proof.
  intros Hl H. rewrite !eth_parse_unfold, Hl. unfold byte_at. rewrite !list_lookup_total_alt.
  by rewrite !H by lia.
Qed.

(** The bytes of an IPv4 header that [ip_parse] reads: all but the
    identification, the fragment fields, DSCP and the checksum. *)
Definition ip_reads (i : nat) : bool :=
  bool_decide (i ∈ [0; 2; 3; 8; 9; 12; 13; 14; 15; 16; 17; 18; 19]%nat).

Lemma ip_parse_agree f g o :
  length f = length g -> (forall i, ip_reads i = true -> f !! (o + i)%nat = g !! (o + i)%nat) ->
  ip_parse f o = ip_parse g o.
Proof.
  intros Hl H. rewrite !ip_parse_unfold.
  assert (byte_at f o = byte_at g o) as H0.
  { unfold byte_at. rewrite !list_lookup_total_alt.
    specialize (H 0%nat eq_refl). rewrite Nat.add_0_r in H. by rewrite H. }
  assert (ip_len_at f o = ip_len_at g o) as Hn by (unfold ip_len_at, ip_first; by rewrite H0).
  assert (ip_coherent f o <-> ip_coherent g o) as Hc
    by (unfold ip_coherent, ip_first; by rewrite Hl, H0, Hn).
  destruct (decide (ip_coherent f o)) as [D | D], (decide (ip_coherent g o)) as [E | E]; try tauto.
  rewrite Hn. unfold byte_at. rewrite !list_lookup_total_alt. by rewrite !H by reflexivity.
Qed.

(** ** What the writers write *)

Lemma length_set_dst f m : length (set_dst f m) = length f.
Proof. unfold set_dst. case_decide; [apply length_inserts | done]. Qed.

Lemma length_zero_at f i : length (zero_at f i) = length f.
Proof. unfold zero_at. case_decide; [apply length_inserts | done]. Qed.

Lemma length_set_ttl ip f t : length (set_ttl ip f t) = length f.
Proof. apply length_insert. Qed.

Lemma length_zero_inner f : length (zero_inner_checksums f) = length f.
Proof.
  unfold zero_inner_checksums. destruct (eth_parse f) as [e |]; [| done].
  destruct (negb _); [done |]. destruct (ip_parse f ETH_HDR_LEN) as [ip |]; [| done].
  repeat case_decide; by rewrite ?length_zero_at.
Qed.

Lemma lookup_set_dst f m i :
  (ETH_HDR_LEN <= length f)%nat ->
  set_dst f m !! i = if decide (i < 6)%nat then octets m !! i else f !! i.
Proof.
  unfold ETH_HDR_LEN. intros H. unfold set_dst, ETH_HDR_LEN. rewrite decide_True by done.
  assert (length (octets m) = 6%nat) as Hm by by destruct m.
  rewrite lookup_copy_at by lia. rewrite Hm.
  destruct (decide (i < 6)%nat), (decide _); try lia; [| done]. f_equal. lia.
Qed.

Lemma lookup_zero_at f a i :
  zero_at f a !! i =
    if decide (a + 2 <= length f /\ a <= i < a + 2)%nat then Some (U8 0) else f !! i.
Proof.
  unfold zero_at. case_decide as D.
  - rewrite lookup_copy_at by (cbn; lia). cbn [length].
    destruct (decide (a <= i /\ i < a + 2)%nat) as [E |].
    + rewrite decide_True by lia.
      assert (i = a \/ i = S a) as [-> | ->] by lia.
      * by rewrite Nat.sub_diag.
      * by replace (S a - a)%nat with 1%nat by lia.
    + by rewrite decide_False by lia.
  - by rewrite decide_False by lia.
Qed.

(** The positions [zero_inner_checksums] clears. *)
Definition inner_checksum (f : bytes) (i : nat) : bool :=
  match eth_parse f, ip_parse f ETH_HDR_LEN with
  | Some eth, Some ip =>
      bool_decide (ethertype eth = ETHERTYPE_IPV4) &&
      (bool_decide (24 <= i < 26)%nat ||
       let at_ := if decide (ip_protocol ip = IP_PROTO_TCP) then Some (payload_offset ip + 16)%nat
                  else if decide (ip_protocol ip = IP_PROTO_UDP) then Some (payload_offset ip + 6)%nat
                  else None in
       match at_ with
       | Some a => bool_decide (a + 2 <= length f /\ a <= i < a + 2)%nat
       | None => false
       end)
  | _, _ => false
  end.

Lemma ip_parse_inv f o ip :
  ip_parse f o = Some ip ->
  ip_coherent f o /\ ip_offset ip = o /\ ip_hdr_len ip = ip_len_at f o /\
  ip_ttl ip = byte_at f (o + 8) /\ ip_protocol ip = byte_at f (o + 9).
Proof. rewrite ip_parse_unfold. case_decide; [| done]. by intros [= <-]. Qed.

Lemma lookup_zero_inner f i :
  zero_inner_checksums f !! i = if inner_checksum f i then Some (U8 0) else f !! i.
Proof.
  unfold zero_inner_checksums, inner_checksum. destruct (eth_parse f) as [e |]; [| done].
  destruct (ip_parse f ETH_HDR_LEN) as [ip |] eqn:Hip; [| by destruct (negb _)].
  apply ip_parse_inv in Hip as ((Hc1 & _ & _ & Hc4) & Ho & Hl & _).
  unfold ETH_HDR_LEN, IPV4_MIN_HDR_LEN in *. rewrite Ho.
  case_bool_decide as E; cbn [negb andb]; [| done].
  assert (zero_at f (14 + 10) !! i =
    if bool_decide (24 <= i < 26)%nat then Some (U8 0) else f !! i) as Hz.
  { rewrite lookup_zero_at. repeat case_decide; repeat case_bool_decide; done || lia. }
  pose proof (length_zero_at f (14 + 10)) as Hlen. cbn zeta.
  destruct (decide (ip_protocol ip = IP_PROTO_TCP)); [| destruct (decide (ip_protocol ip = IP_PROTO_UDP))].
  3: by rewrite orb_false_r.
  all: rewrite lookup_zero_at, Hlen, Hz; repeat case_decide; repeat case_bool_decide; cbn [orb];
    done || lia.
Qed.

(** None of them is a byte the parsers read. *)
Lemma inner_checksum_range f i :
  inner_checksum f i = true -> (24 <= i < 26 \/ 34 <= i)%nat.
Proof.
  unfold inner_checksum. destruct (eth_parse f); [| done].
  destruct (ip_parse f ETH_HDR_LEN) as [ip |] eqn:Hip; [| done].
  apply ip_parse_inv in Hip as ((Hc1 & _ & Hc3 & Hc4) & Ho & Hl & _).
  unfold ETH_HDR_LEN, IPV4_MIN_HDR_LEN, payload_offset in *. rewrite Ho, Hl.
  intros [_ [H%bool_decide_eq_true | H]%orb_true_iff]%andb_true_iff; [by left | right].
  repeat case_decide; try done; apply bool_decide_eq_true in H; lia.
Qed.

Lemma zero_inner_agree f i :
  (i < 24 \/ 26 <= i < 34)%nat -> zero_inner_checksums f !! i = f !! i.
Proof.
  intros Hi. rewrite lookup_zero_inner. destruct (inner_checksum f i) eqn:E; [| done].
  apply inner_checksum_range in E. lia.
Qed.

Lemma ip_reads_range i : ip_reads i = true -> (i < 10 \/ 12 <= i < 20)%nat.
Proof.
  unfold ip_reads. rewrite bool_decide_eq_true, !elem_of_cons, elem_of_nil. lia.
Qed.

Lemma eth_parse_zero_inner f : eth_parse (zero_inner_checksums f) = eth_parse f.
Proof.
  apply eth_parse_agree; [apply length_zero_inner |]. intros i Hi. apply zero_inner_agree. lia.
Qed.

Lemma ip_parse_zero_inner f :
  ip_parse (zero_inner_checksums f) ETH_HDR_LEN = ip_parse f ETH_HDR_LEN.
Proof.
  apply ip_parse_agree; [apply length_zero_inner |]. intros i Hi%ip_reads_range.
  apply zero_inner_agree. unfold ETH_HDR_LEN. lia.
Qed.

(** Which bytes are cleared depends on little of what was parsed. *)
Lemma inner_checksum_parse f g i :
  length f = length g -> (ethertype <$> eth_parse f) = (ethertype <$> eth_parse g) ->
  (ip_protocol <$> ip_parse f ETH_HDR_LEN) = (ip_protocol <$> ip_parse g ETH_HDR_LEN) ->
  (payload_offset <$> ip_parse f ETH_HDR_LEN) = (payload_offset <$> ip_parse g ETH_HDR_LEN) ->
  inner_checksum f i = inner_checksum g i.
Proof.
  intros Hl He Hp Ho. unfold inner_checksum. rewrite Hl.
  destruct (eth_parse f), (eth_parse g), (ip_parse f ETH_HDR_LEN), (ip_parse g ETH_HDR_LEN);
    simplify_eq/=; try done.
  by rewrite He, Hp, Ho.
Qed.

Definition with_ttl (ip : Ipv4Hdr) (ttl : byte) : Ipv4Hdr := {|
  ip_offset := ip_offset ip; ip_hdr_len := ip_hdr_len ip; ip_total_len := ip_total_len ip;
  ip_ttl := ttl; ip_protocol := ip_protocol ip; ip_src := ip_src ip; ip_dst := ip_dst ip;
|}.

Lemma byte_at_insert_ne f i j b : i <> j -> byte_at (<[i := b]> f) j = byte_at f j.
Proof. intros H. unfold byte_at. by rewrite !list_lookup_total_alt, list_lookup_insert_ne. Qed.

Lemma byte_at_insert_eq f i b : (i < length f)%nat -> byte_at (<[i := b]> f) i = b.
Proof. intros H. apply byte_at_lookup. by apply list_lookup_insert_eq. Qed.

(** Writing the TTL changes the TTL and nothing else the parser reads. *)
Lemma ip_parse_set_ttl f o ip ttl :
  ip_parse f o = Some ip -> ip_parse (set_ttl ip f ttl) o = Some (with_ttl ip ttl).
Proof.
  intros H. pose proof (ip_parse_inv _ _ _ H) as (Hc & Ho & _). unfold set_ttl. rewrite Ho.
  assert (ip_len_at (<[(o + 8)%nat := ttl]> f) o = ip_len_at f o) as Hlen.
  { unfold ip_len_at, ip_first. by rewrite byte_at_insert_ne by lia. }
  assert (ip_coherent (<[(o + 8)%nat := ttl]> f) o) as Hc'.
  { unfold ip_coherent, ip_first in *. rewrite Hlen, length_insert, byte_at_insert_ne by lia. done. }
  rewrite ip_parse_unfold, decide_True in H by done. injection H as <-.
  rewrite ip_parse_unfold, decide_True by done.
  rewrite Hlen. destruct Hc as (Hc & _). unfold IPV4_MIN_HDR_LEN in Hc.
  rewrite byte_at_insert_eq by lia. by rewrite !byte_at_insert_ne by lia.
Qed.

Lemma eth_parse_set_ttl f ip ttl :
  (6 <= ip_offset ip)%nat -> eth_parse (set_ttl ip f ttl) = eth_parse f.
Proof.
  intros H. apply eth_parse_agree; [apply length_set_ttl |]. intros i Hi. unfold set_ttl.
  apply list_lookup_insert_ne. lia.
Qed.

Lemma ip_parse_set_dst f m o : (6 <= o)%nat -> ip_parse (set_dst f m) o = ip_parse f o.
Proof.
  intros Ho. apply ip_parse_agree; [apply length_set_dst |]. intros i _.
  destruct (decide (ETH_HDR_LEN <= length f)%nat) as [D | D].
  - rewrite lookup_set_dst by done. by rewrite decide_False by lia.
  - unfold set_dst. by rewrite decide_False.
Qed.

Lemma ethertype_set_dst f m : (ethertype <$> eth_parse (set_dst f m)) = (ethertype <$> eth_parse f).
Proof.
  rewrite !eth_parse_unfold, length_set_dst. case_decide as D; [| done]. cbn. unfold byte_at.
  rewrite !list_lookup_total_alt, !lookup_set_dst by done. done.
Qed.

Lemma zero_inner_idem f : zero_inner_checksums (zero_inner_checksums f) = zero_inner_checksums f.
Proof.
  apply list_eq. intros i. rewrite (lookup_zero_inner (zero_inner_checksums f)).
  rewrite (inner_checksum_parse _ f).
  - rewrite lookup_zero_inner. by destruct (inner_checksum f i).
  - apply length_zero_inner.
  - by rewrite eth_parse_zero_inner.
  - by rewrite ip_parse_zero_inner.
  - by rewrite ip_parse_zero_inner.
Qed.

(** ** Properties *)

(** An extracted IPv4 header lies inside the frame, whatever the IHL field
    claims, so the payload offset and the TTL write are in range; and the
    header is refused exactly when the frame is truncated, the version is not
    4 or the claimed length is short or runs past the end. *)
Theorem ip_parse_in_bounds f o :
  match ip_parse f o with
  | Some ip =>
      (o + 20 <= payload_offset ip <= length f)%nat /\ (payload_offset ip <= o + 60)%nat /\
      (forall ttl, set_ttl ip f ttl !! (o + 8)%nat = Some ttl)
  | None =>
      (length f < o + 20)%nat \/ Z.shiftr (uv (byte_at f o)) 4 <> 4 \/
      (ip_len_at f o < 20)%nat \/ (length f < o + ip_len_at f o)%nat
  end.
Proof.
  destruct (ip_parse f o) as [ip |] eqn:E.
  - apply ip_parse_inv in E as ((H1 & _ & H3 & H4) & Ho & Hl & _).
    unfold payload_offset, IPV4_MIN_HDR_LEN in *. rewrite Ho, Hl in *.
    split; [lia |]. split.
    + unfold ip_len_at in *. assert (Z.land (ip_first f o) 15 < 16); [| lia].
      change 15 with (Z.ones 4). rewrite Z.land_ones by lia. apply Z.mod_pos_bound. lia.
    + intros ttl. unfold set_ttl. rewrite Ho. apply list_lookup_insert_eq. lia.
  - rewrite ip_parse_unfold in E. case_decide as D; [done |].
    unfold ip_coherent, ip_first, IPV4_MIN_HDR_LEN in D.
    destruct (decide (length f < o + 20)%nat); [by left | right].
    destruct (decide (Z.shiftr (uv (byte_at f o)) 4 = 4)); [right | by left].
    destruct (decide (ip_len_at f o < 20)%nat); [by left | right]. lia.
Qed.

(** Zeroing the inner checksums clears exactly the IPv4 header checksum
    and the TCP or UDP checksum that lies inside the frame, and nothing else:
    the length, both parses and every other byte are as before, and doing it
    twice is doing it once. *)
Theorem zero_inner_checksums_exact f :
  let g := zero_inner_checksums f in
  length g = length f /\
  (forall i, g !! i = if inner_checksum f i then Some (U8 0) else f !! i) /\
  eth_parse g = eth_parse f /\ ip_parse g ETH_HDR_LEN = ip_parse f ETH_HDR_LEN /\
  zero_inner_checksums g = g.
Proof.
  cbn. split; [apply length_zero_inner |]. split; [apply lookup_zero_inner |].
  split; [apply eth_parse_zero_inner |]. split; [apply ip_parse_zero_inner |].
  apply zero_inner_idem.
Qed.

(** Rewriting the destination changes the destination and nothing a
    parser can see beside it. *)
Theorem set_dst_parse f m :
  match eth_parse f with
  | Some e => eth_parse (set_dst f m) =
                Some {| eth_dst := m; eth_src := eth_src e; ethertype := ethertype e |}
  | None => set_dst f m = f
  end /\
  (forall o, (6 <= o)%nat -> ip_parse (set_dst f m) o = ip_parse f o).
Proof.
  split.
  - rewrite eth_parse_unfold. case_decide as D.
    2:{ unfold set_dst. by rewrite decide_False. }
    rewrite eth_parse_unfold, length_set_dst, decide_True by done. unfold byte_at.
    rewrite !list_lookup_total_alt, !lookup_set_dst by done. by destruct m.
  - intros o. apply ip_parse_set_dst.
Qed.
