(* ===== verification/Engine.v ===== *)
(** * The pipeline contracts (crates/up4-engine/src/lib.rs) and the envelope
    around a program (crates/up4-engine/src/envelope.rs)

    An [Engine] is one shard's packet processor; a [Pipeline] is the shared
    half that owns the tables and mints engines.  Engines share the pipeline's
    tables, so [process] reads the shared state [P] next to its own state [E].
    A boxed trait object is an [Object]: the types, the instances and a value.
    [serve_state] is a pipeline told requests and given frames from load on. *)

From S2P Require Import Prelude Bytes Value Shim Frame Headers.

Local Open Scope Z_scope.

(** ** Verdicts, engines, pipelines *)

Inductive Verdict :=
  | Forward (vport : u16)
  | Broadcast
  | Punt
  | Drop.

#[export] Instance Verdict_eq_dec : EqDecision Verdict.
Proof. solve_decision. Defined.

(** [Engine::process] with its per-shard state threaded. *)
Class Engine (P E : Type) := {
  process : P -> FrameCtx -> E -> E * FrameCtx * Verdict;
  engine_name : E -> string;
}.

(** [mints] is false where [engine] panics, and its value means nothing. *)
Class Pipeline (P E : Type) `{TableOps P} `{Engine P E} := {
  pipeline_name : P -> string;
  engine : P -> E;
  mints : P -> bool;
}.

(** [PipelineParams] *)
Record PipelineParams := { vports : list u16 }.

(** What the harness relies on from an engine: it stays inside the slot it was
    handed and does not touch the metadata. *)
Class EngineLaws (P E : Type) `{Engine P E} := {
  process_ok p f e : ok f -> ok (process p f e).1.2 /\ same_slot f (process p f e).1.2;
}.

(** [Box<dyn Pipeline>] with the engine type its [engine] mints. *)
Record Object := Obj {
  obj_state : Type;
  obj_engine : Type;
  obj_tables : TableOps obj_state;
  obj_process : Engine obj_state obj_engine;
  obj_pipeline : Pipeline obj_state obj_engine;
  obj_value : obj_state;
}.

Definition obj_name (o : Object) : string :=
  let '(Obj _ _ _ _ p v) := o in pipeline_name v.

Definition obj_schemas (o : Object) : list TableSchema :=
  let '(Obj _ _ _ _ _ v) := o in schemas v.

(** The first frame through a freshly minted engine. *)
Definition obj_first (o : Object) (f : FrameCtx) : FrameCtx * Verdict :=
  let '(Obj _ _ _ _ _ v) := o in
  let '(_, f, vd) := process v f (engine v) in (f, vd).

(** ** Traces

    What a node sees of a loaded pipeline: control-plane operations and the
    frames of one shard, in the order they take effect. *)

Inductive Request :=
  | RAdd (table : string) (key : TypedKey) (action : string) (params : list TypedVal)
  | RRemove (table : string) (key : TypedKey)
  | RSetDefault (table action : string) (params : list TypedVal)
  | RClear (table : string)
  | RDump (table : string)
  | RDefault (table : string)
  | RFrame (f : FrameCtx).

Inductive Response :=
  | RUnit (r : result unit TableError)
  | RCount (r : result nat TableError)
  | RDumped (r : result (list EntryDesc) TableError)
  | REntry (r : result EntryDesc TableError)
  | RVerdict (f : FrameCtx) (v : Verdict).

Definition serve `{TableOps P} `{Engine P E} (r : Request) (s : P * E) : (P * E) * Response :=
  let '(p, e) := s in
  match r with
  | RAdd t k a ps => let '(p, x) := table_add t k a ps p in ((p, e), RUnit x)
  | RRemove t k => let '(p, x) := table_remove t k p in ((p, e), RUnit x)
  | RSetDefault t a ps => let '(p, x) := table_set_default t a ps p in ((p, e), RUnit x)
  | RClear t => let '(p, x) := table_clear t p in ((p, e), RCount x)
  | RDump t => (s, RDumped (table_dump t p))
  | RDefault t => (s, REntry (table_default t p))
  | RFrame f => let '(e, f, v) := process p f e in ((p, e), RVerdict f v)
  end.

Fixpoint serve_all `{TableOps P} `{Engine P E} (rs : list Request) (s : P * E) : list Response :=
  match rs with
  | [] => []
  | r :: rs => let '(s, o) := serve r s in o :: serve_all rs s
  end.

(** Two pipelines that answer every request alike answer every trace alike.
    The index counts the writes so far; [bound] is how many the relation
    survives. *)
Lemma serve_all_sim `{TableOps P1} `{Engine P1 E1} `{TableOps P2} `{Engine P2 E2}
    (R : nat -> P1 * E1 -> P2 * E2 -> Prop) (bound : nat) (good : Request -> Prop) :
  (forall n s1 s2 r, R n s1 s2 -> (n < bound)%nat -> good r ->
     (serve r s1).2 = (serve r s2).2 /\
     exists n', (n' <= S n)%nat /\ R n' (serve r s1).1 (serve r s2).1) ->
  forall rs n s1 s2, R n s1 s2 -> (n + length rs <= bound)%nat -> Forall good rs ->
    serve_all rs s1 = serve_all rs s2.
Proof.
  intros Hstep. induction rs as [| r rs IH]; intros n s1 s2 HR Hb Hg; [done |].
  cbn [length] in Hb. apply Forall_cons_1 in Hg as [Hg Hgs].
  destruct (Hstep n s1 s2 r HR ltac:(lia) Hg) as (Ho & n' & Hn' & HR').
  cbn [serve_all]. destruct (serve r s1) as [s1' o1], (serve r s2) as [s2' o2]. cbn in *.
  rewrite Ho. f_equal. apply (IH n'); [done | lia | done].
Qed.

(** The state a trace of requests and frames leads to. *)
Definition serve_state `{TableOps P} `{Engine P E} (rs : list Request) (s : P * E) : P * E :=
  foldl (fun s r => (serve r s).1) s rs.

(** Related states stay related. *)
Lemma serve_state_sim `{TableOps P1} `{Engine P1 E1} `{TableOps P2} `{Engine P2 E2}
    (R : nat -> P1 * E1 -> P2 * E2 -> Prop) (bound : nat) :
  (forall n s1 s2 r, R n s1 s2 -> (n < bound)%nat -> exists n', (n' <= S n)%nat /\ R n' (serve r s1).1 (serve r s2).1) ->
  forall rs n s1 s2, R n s1 s2 -> (n + length rs <= bound)%nat ->
    exists n', (n' <= bound)%nat /\ R n' (serve_state rs s1) (serve_state rs s2).
Proof.
  intros Hstep. induction rs as [| r rs IH]; intros n s1 s2 HR Hb; [by exists n; split; [cbn in Hb; lia |] |].
  cbn [length] in Hb. destruct (Hstep n s1 s2 r HR ltac:(lia)) as (n' & Hn & HR'). unfold serve_state. cbn [foldl].
  apply (IH n' _ _ HR'). lia.
Qed.

(** ** The envelope *)

Inductive Admission :=
  | Everything
  | CoherentIpv4.

Inductive Scrub :=
  | Nothing
  | InnerChecksums.

#[export] Instance Admission_eq_dec : EqDecision Admission.
Proof. solve_decision. Defined.
#[export] Instance Scrub_eq_dec : EqDecision Scrub.
Proof. solve_decision. Defined.

(** [Scrub::apply] *)
Definition scrub_apply (s : Scrub) (frame : bytes) : bytes :=
  match s with
  | Nothing => frame
  | InnerChecksums => zero_inner_checksums frame
  end.

(** [Admission::admits] *)
Definition admits (a : Admission) (frame : bytes) : bool :=
  match a with
  | Everything => true
  | CoherentIpv4 =>
      match eth_parse frame with
      | Some eth =>
          if decide (ethertype eth = ETHERTYPE_IPV4)
          then bool_decide (is_Some (ip_parse frame ETH_HDR_LEN))
          else true
      | None => true
      end
  end.

Record Envelope := { env_admit : Admission; scrub : Scrub }.

#[export] Instance Envelope_eq_dec : EqDecision Envelope.
Proof. solve_decision. Defined.

Definition IDENTITY : Envelope := {| env_admit := Everything; scrub := Nothing |}.

Record Enveloped (P : Type) := { e_envelope : Envelope; e_inner : P }.
Arguments e_envelope {P} _.
Arguments e_inner {P} _.

Record EnvelopedEngine (E : Type) := { ee_envelope : Envelope; ee_inner : E }.
Arguments ee_envelope {E} _.
Arguments ee_inner {E} _.

(** [EnvelopedEngine::process] *)
Definition enveloped_process `{Engine P E} (p : Enveloped P) (f : FrameCtx) (e : EnvelopedEngine E)
    : EnvelopedEngine E * FrameCtx * Verdict :=
  if admits (env_admit (ee_envelope e)) (frame f) then
    let '(inner, f, verdict) := process (e_inner p) f (ee_inner e) in
    let f := match verdict with
             | Forward _ | Broadcast => frame_mut (scrub_apply (scrub (ee_envelope e))) f
             | _ => f
             end in
    ({| ee_envelope := ee_envelope e; ee_inner := inner |}, f, verdict)
  else (e, f, Drop).

#[export] Instance Enveloped_Engine `{Engine P E} : Engine (Enveloped P) (EnvelopedEngine E) := {
  process := enveloped_process;
  engine_name e := engine_name (P := P) (ee_inner e);
}.

Definition lift {P A} (p : Enveloped P) (r : P * A) : Enveloped P * A :=
  ({| e_envelope := e_envelope p; e_inner := r.1 |}, r.2).

(** The control-plane surface is the inner pipeline's. *)
#[export] Instance Enveloped_TableOps `{TableOps P} : TableOps (Enveloped P) := {
  schemas p := schemas (e_inner p);
  table_add t k a ps p := lift p (table_add t k a ps (e_inner p));
  table_remove t k p := lift p (table_remove t k (e_inner p));
  table_dump t p := table_dump t (e_inner p);
  table_default t p := table_default t (e_inner p);
  table_set_default t a ps p := lift p (table_set_default t a ps (e_inner p));
  table_clear t p := lift p (table_clear t (e_inner p));
}.

#[export] Instance Enveloped_Pipeline `{Pipeline P E} : Pipeline (Enveloped P) (EnvelopedEngine E) := {
  pipeline_name p := pipeline_name (e_inner p);
  engine p := {| ee_envelope := e_envelope p; ee_inner := engine (e_inner p) |};
  mints p := mints (e_inner p);
}.

(** [Envelope::wrap] *)
Definition wrap (env : Envelope) (o : Object) : Object :=
  if decide (env = IDENTITY) then o
  else let '(Obj P E _ _ _ v) := o in
       Obj (Enveloped P) (EnvelopedEngine E) _ _ _ {| e_envelope := env; e_inner := v |}.

(** ** Lemmas *)

Lemma length_scrub s f : length (scrub_apply s f) = length f.
Proof. destruct s; [done | apply length_zero_inner]. Qed.

(** What the ingress check admits, as one test. *)
Lemma admits_coherent f :
  admits CoherentIpv4 f =
    match eth_parse f with
    | Some eth => negb (bool_decide (ethertype eth = ETHERTYPE_IPV4)) ||
                  bool_decide (is_Some (ip_parse f ETH_HDR_LEN))
    | None => true
    end.
Proof.
  cbn. destruct (eth_parse f); [| done]. case_decide as D.
  - by rewrite (bool_decide_eq_true_2 _ D).
  - by rewrite (bool_decide_eq_false_2 _ D).
Qed.

#[export] Instance Enveloped_EngineLaws `{EngineLaws P E} : EngineLaws (Enveloped P) (EnvelopedEngine E).
Proof.
  split. intros p f e Ho. cbn. unfold enveloped_process. destruct (admits _ _); [| done].
  pose proof (process_ok (e_inner p) f (ee_inner e) Ho) as [Hok Hs].
  destruct (process (e_inner p) f (ee_inner e)) as [[inner g] vd]. cbn in *.
  assert (ok (frame_mut (scrub_apply (scrub (ee_envelope e))) g) /\
          same_slot f (frame_mut (scrub_apply (scrub (ee_envelope e))) g)) as Hscrub.
  { destruct (frame_mut_ok (scrub_apply (scrub (ee_envelope e))) g) as (H1 & (E1 & E2 & E3) & _); [done | |].
    - rewrite length_scrub. by apply length_frame.
    - destruct Hs as (S1 & S2 & S3). split; [done |]. repeat split; congruence. }
  by destruct vd.
Qed.

(** ** Properties *)

(** The envelope that does nothing is the identity on the datapath, so
    leaving it off, as [wrap] does, is not an approximation: around any engine
    it gives every frame the inner engine's verdict and the inner engine's
    bytes, and threads the inner engine's state. *)
Theorem identity_envelope `{EngineLaws P E} (p : P) (e : E) f :
  ok f ->
  let '(e', g, vd) := process p f e in
  process {| e_envelope := IDENTITY; e_inner := p |} f {| ee_envelope := IDENTITY; ee_inner := e |}
    = ({| ee_envelope := IDENTITY; ee_inner := e' |}, g, vd).
Proof.
  intros Ho. cbn. pose proof (process_ok p f e Ho) as [Hg _].
  unfold enveloped_process. cbn [admits env_admit IDENTITY ee_envelope ee_inner e_inner].
  destruct (process p f e) as [[e' g] vd]. cbn in *.
  destruct vd; try done; by rewrite frame_mut_id.
Qed.
