(* ===== verification/Catalog.v ===== *)
(** * The catalog (crates/up4-engine/src/catalog.rs)

    What a binary can load: programs, backends, their product with the
    benchmark oracle beside it, the facts each backend reports, and the one
    door from configured names to a selection.  Two compile-time switches are
    parameters: whether the [oracle] feature is on, and whether the target has
    a JIT. *)

From S2P Require Import Prelude Bytes Text Shim Engine.

Inductive Program := PL2Fwd | PL3Fwd.
Inductive Arch := SoftNpu | ArchUbpf.
Inductive Backend := Native | X4c | Ubpf.

#[export] Instance Program_eq_dec : EqDecision Program.
Proof. solve_decision. Defined.
#[export] Instance Backend_eq_dec : EqDecision Backend.
Proof. solve_decision. Defined.

Definition Program_ALL : list Program := [PL2Fwd; PL3Fwd].

Definition program_name (p : Program) : string :=
  match p with PL2Fwd => "l2fwd" | PL3Fwd => "l3fwd" end.

(** [Program::envelope] *)
Definition envelope (p : Program) : Envelope :=
  match p with
  | PL2Fwd => IDENTITY
  | PL3Fwd => {| env_admit := CoherentIpv4; scrub := InnerChecksums |}
  end.

Definition summary (p : Program) : string :=
  match p with
  | PL2Fwd => "L2 switch: exact match on destination MAC, broadcast on miss"
  | PL3Fwd => "IPv4 router: longest-prefix match, TTL decrement, checksum zero-fill"
  end.

Definition source (p : Program) (a : Arch) : string :=
  match p, a with
  | PL2Fwd, SoftNpu => "p4/programs/l2fwd/l2fwd.softnpu.p4"
  | PL2Fwd, ArchUbpf => "p4/programs/l2fwd/l2fwd.ubpf.p4"
  | PL3Fwd, SoftNpu => "p4/programs/l3fwd/l3fwd.softnpu.p4"
  | PL3Fwd, ArchUbpf => "p4/programs/l3fwd/l3fwd.ubpf.p4"
  end.

Definition program_parse (s : string) : option Program :=
  find (fun p => bool_decide (program_name p = s)) Program_ALL.

Definition Backend_ALL : list Backend := [Native; X4c; Ubpf].

Definition backend_name (b : Backend) : string :=
  match b with Native => "native" | X4c => "x4c" | Ubpf => "ubpf" end.

Definition arch (b : Backend) : Arch :=
  match b with Native | X4c => SoftNpu | Ubpf => ArchUbpf end.

Definition backend_parse (s : string) : option Backend :=
  find (fun b => bool_decide (backend_name b = s)) Backend_ALL.

Inductive Provenance := HandRendered | Compiled (compiler : string).
Inductive AllocProfile := AllocNone | PerFrame (reason : string).
Inductive ExecMode := Interpreted | Jit.
Inductive ExecProfile := ExecNative | Bytecode (mode : ExecMode).

#[export] Instance ExecMode_eq_dec : EqDecision ExecMode.
Proof. solve_decision. Defined.

(** On a target without a JIT the mode does not exist. *)
Definition ExecMode_ALL (jit : bool) : list ExecMode := if jit then [Jit; Interpreted] else [Interpreted].

Definition preferred (jit : bool) : ExecMode := if jit then Jit else Interpreted.

Definition mode_name (m : ExecMode) : string :=
  match m with Interpreted => "interpreted" | Jit => "jit" end.

Record BackendFacts := { provenance : Provenance; alloc : AllocProfile; exec_profile : ExecProfile }.

Definition facts (jit : bool) (b : Backend) : BackendFacts :=
  match b with
  | Native => {| provenance := HandRendered; alloc := AllocNone; exec_profile := ExecNative |}
  | X4c => {| provenance := Compiled "x4c";
              alloc := PerFrame "x4c runtime models header fields as heap BitVec and returns Vec per packet";
              exec_profile := ExecNative |}
  | Ubpf => {| provenance := Compiled "p4c --target ubpf"; alloc := AllocNone;
               exec_profile := Bytecode (preferred jit) |}
  end.

Inductive Selection :=
  | P4 (program : Program) (backend : Backend)
  | Oracle.

Inductive SelectError :=
  | UnknownProgram (got : string)
  | UnknownBackend (got : string)
  | BackendNotApplicable (pipeline : string).

#[export] Instance Selection_eq_dec : EqDecision Selection.
Proof. solve_decision. Defined.
#[export] Instance SelectError_eq_dec : EqDecision SelectError.
Proof. solve_decision. Defined.

Definition concat_str (l : list string) : string := foldr String.append EmptyString l.

(** [impl Display for SelectError] *)
Definition select_error_to_string (e : SelectError) : string :=
  match e with
  | UnknownProgram got =>
      concat_str ["unknown pipeline `"; got; "`; known: "; String.concat ", " (program_name <$> Program_ALL)]
  | UnknownBackend got =>
      concat_str ["unknown backend `"; got; "`; known: "; String.concat ", " (backend_name <$> Backend_ALL)]
  | BackendNotApplicable pipeline => concat_str ["pipeline `"; pipeline; "` takes no backend"]
  end.

Definition selection_all (oracle : bool) : list Selection :=
  (Program_ALL ≫= fun program => P4 program <$> Backend_ALL) ++ (if oracle then [Oracle] else []).

Definition selection_parse (oracle : bool) (pipeline : string) (backend : option string)
    : result Selection SelectError :=
  if oracle && bool_decide (pipeline = "null") then
    match backend with
    | None => Ok Oracle
    | Some _ => Err (BackendNotApplicable "null")
    end
  else
    let? program := ok_or (program_parse pipeline) (UnknownProgram pipeline) in
    let? backend :=
      match backend with
      | None => Ok Native
      | Some b => ok_or (backend_parse b) (UnknownBackend b)
      end in
    Ok (P4 program backend).

Definition selection_name (s : Selection) : string :=
  match s with
  | P4 PL2Fwd Native => "l2fwd/native"
  | P4 PL2Fwd X4c => "l2fwd/x4c"
  | P4 PL2Fwd Ubpf => "l2fwd/ubpf"
  | P4 PL3Fwd Native => "l3fwd/native"
  | P4 PL3Fwd X4c => "l3fwd/x4c"
  | P4 PL3Fwd Ubpf => "l3fwd/ubpf"
  | Oracle => "null"
  end.

Definition selection_facts (jit : bool) (s : Selection) : BackendFacts :=
  match s with
  | P4 _ backend => facts jit backend
  | Oracle => {| provenance := HandRendered; alloc := AllocNone; exec_profile := ExecNative |}
  end.

(** ** Lemmas *)

Lemma program_parse_Some s p : program_parse s = Some p <-> s = program_name p.
Proof.
  split.
  - intros [_ H%bool_decide_eq_true_1]%find_Some. done.
  - intros ->. by destruct p.
Qed.

Lemma backend_parse_Some s b : backend_parse s = Some b <-> s = backend_name b.
Proof.
  split.
  - intros [_ H%bool_decide_eq_true_1]%find_Some. done.
  - intros ->. by destruct b.
Qed.

(** ** Properties *)

(** The one door into a selection.  A pair of names is accepted exactly
    when it spells a member of the catalog (no backend meaning the native
    one, the oracle taking none and existing only when compiled in); what is
    refused says which of the two names is to blame; and the display names of
    the catalog are [program/backend] and all different. *)
Theorem selection_parse_spec oracle :
  (forall pipeline backend sel, selection_parse oracle pipeline backend = Ok sel <->
     match sel with
     | P4 p b => pipeline = program_name p /\ (backend = Some (backend_name b) \/ (backend = None /\ b = Native))
     | Oracle => oracle = true /\ pipeline = "null" /\ backend = None
     end) /\
  (forall pipeline backend e, selection_parse oracle pipeline backend = Err e ->
     match e with
     | UnknownProgram got => got = pipeline /\ forall p, program_name p <> got
     | UnknownBackend got => backend = Some got /\ forall b, backend_name b <> got
     | BackendNotApplicable got => got = pipeline /\ is_Some backend
     end) /\
  (forall sel, sel ∈ selection_all oracle <-> exists pipeline backend, selection_parse oracle pipeline backend = Ok sel) /\
  NoDup (selection_name <$> selection_all oracle) /\
  (forall p b, selection_name (P4 p b) = concat_str [program_name p; "/"; backend_name b]).
Proof.
  assert (forall pipeline backend sel, selection_parse oracle pipeline backend = Ok sel <->
     match sel with
     | P4 p b => pipeline = program_name p /\ (backend = Some (backend_name b) \/ (backend = None /\ b = Native))
     | Oracle => oracle = true /\ pipeline = "null" /\ backend = None
     end) as Hok.
  { intros pipeline backend sel. unfold selection_parse.
    destruct (oracle && bool_decide (pipeline = "null")) eqn:En.
    - apply andb_true_iff in En as [-> ->%bool_decide_eq_true_1].
      destruct sel as [p b |].
      + split; [by destruct backend | intros [H _]; by destruct p].
      + destruct backend; split; try done. by intros (_ & _ & ?).
    - split.
      + intros (p & Hp & (b & Hb & [= <-])%rbind_Ok_inv)%rbind_Ok_inv.
        destruct (program_parse pipeline) as [p' |] eqn:E; [| done]. injection Hp as ->.
        apply program_parse_Some in E. split; [done |].
        destruct backend as [bn |]; [left | right; by injection Hb as <-].
        destruct (backend_parse bn) as [b' |] eqn:Eb; [| done]. injection Hb as ->.
        apply backend_parse_Some in Eb. by rewrite Eb.
      + destruct sel as [p b |].
        * intros [-> [-> | [-> ->]]]; by destruct p; try destruct b.
        * intros (-> & -> & _). done. }
  split; [done | split; [| split; [| split]]].
  - intros pipeline backend e. unfold selection_parse.
    destruct (oracle && bool_decide (pipeline = "null")) eqn:En.
    + apply andb_true_iff in En as [-> ->%bool_decide_eq_true_1].
      destruct backend; [intros [= <-]; eauto | done].
    + destruct (program_parse pipeline) as [p |] eqn:Ep; cbn [ok_or rbind].
      * destruct backend as [bn |]; [| done]. destruct (backend_parse bn) as [b |] eqn:Eb; cbn [ok_or rbind]; [done |].
        intros [= <-]. split; [done |]. intros b Hb. symmetry in Hb.
        apply backend_parse_Some in Hb. congruence.
      * intros [= <-]. split; [done |]. intros p Hp. symmetry in Hp.
        apply program_parse_Some in Hp. congruence.
  - assert (forall p b, P4 p b ∈ selection_all oracle) as Hall
      by (intros p b; apply (bool_decide_unpack _); by destruct oracle, p, b).
    assert (Oracle ∈ selection_all oracle <-> oracle = true) as Hor.
    { split; [| intros ->; by apply (bool_decide_unpack _)].
      destruct oracle; [done |]. intros H%(bool_decide_pack _). vm_compute in H. done. }
    intros [p b |]; split; intros H.
    + exists (program_name p), (Some (backend_name b)). apply Hok. auto.
    + done.
    + apply Hor in H. exists "null", None. by apply Hok.
    + destruct H as (pl & bk & (H & _)%Hok). by apply Hor.
  - destruct oracle; apply (bool_decide_unpack _); vm_compute; exact I.
  - by intros [] [].
Qed.
