(* ===== verification/Programs.v ===== *)
(** * What the compiled-in programs share, and the null oracle
    (crates/up4-engine/src/programs/mod.rs and null.rs)

    The extraction of a typed key or parameter from a control-plane call, the
    order in which dumps are sorted, and the benchmark oracle that forwards
    round the ring of vports without looking at the frame. *)

From S2P Require Import Prelude Bytes Text Value Shim Table Frame Headers Engine.

Local Open Scope Z_scope.

(** ** Typed extraction *)

Definition exact_mac (s : TableSchema) (key : TypedKey) : result MacAddr TableError :=
  match key with
  | KeyExact (ValMac m) => Ok m
  | other => Err (KeyKindMismatch (table_name s) (table_key s) (key_kind other))
  end.

Definition lpm_ipv4 (s : TableSchema) (key : TypedKey) : result Ipv4Prefix TableError :=
  let mismatch := KeyKindMismatch (table_name s) (table_key s) (key_kind key) in
  match key with
  | KeyLpm (ValIpv4 addr) prefix_len => ok_or (prefix_new addr prefix_len) mismatch
  | _ => Err mismatch
  end.

Definition param_u16 (s : TableSchema) (action : string) (params : list TypedVal) (i : nat)
    : result u16 TableError :=
  ok_or (v ← params !! i; as_u16 v) (Arity (table_name s) action (i + 1) (length params)).

Definition param_mac (s : TableSchema) (action : string) (params : list TypedVal) (i : nat)
    : result MacAddr TableError :=
  ok_or (v ← params !! i; as_mac v) (Arity (table_name s) action (i + 1) (length params)).

(** ** Sorting a dump

    [slice::sort_by] with a comparison: a stable sort that puts no element
    before one it compares greater than. *)

Definition cmp_le {A} (cmp : A -> A -> comparison) (x y : A) : Prop := cmp x y <> Gt.

#[export] Instance cmp_le_dec {A} (cmp : A -> A -> comparison) : RelDecision (cmp_le cmp).
Proof. intros x y. unfold cmp_le. destruct (cmp x y); [left | left | right]; congruence. Defined.

Definition sort_by {A} (cmp : A -> A -> comparison) (l : list A) : list A := merge_sort (cmp_le cmp) l.

(** [Ordering::then] *)
Definition cmp_then (c d : comparison) : comparison := match c with Eq => d | _ => c end.

Lemma string_compare_refl s : String.compare s s = Eq.
Proof. induction s as [| a s IH]; [done |]. cbn. unfold Ascii.compare. by rewrite N.compare_refl. Qed.

Lemma string_le_trans s1 s2 s3 :
  String.compare s1 s2 <> Gt -> String.compare s2 s3 <> Gt -> String.compare s1 s3 <> Gt.
Proof.
  revert s2 s3. induction s1 as [| a s1 IH]; intros [| b s2] [| c s3]; cbn; try done.
  unfold Ascii.compare.
  destruct (N.compare_spec (Ascii.N_of_ascii a) (Ascii.N_of_ascii b)) as [E1 | E1 | E1],
    (N.compare_spec (Ascii.N_of_ascii b) (Ascii.N_of_ascii c)) as [E2 | E2 | E2],
    (N.compare_spec (Ascii.N_of_ascii a) (Ascii.N_of_ascii c)) as [E3 | E3 | E3];
    try done; try lia. apply IH.
Qed.

Lemma string_le_total s1 s2 : String.compare s1 s2 <> Gt \/ String.compare s2 s1 <> Gt.
Proof.
  destruct (String.leb_total s1 s2) as [H | H]; [left | right]; unfold String.leb in H;
    by destruct (String.compare _ _).
Qed.

Lemma string_le_antisym s1 s2 :
  String.compare s1 s2 <> Gt -> String.compare s2 s1 <> Gt -> s1 = s2.
Proof.
  intros H1 H2. apply String.leb_antisym; unfold String.leb.
  - by destruct (String.compare s1 s2).
  - by destruct (String.compare s2 s1).
Qed.

Lemma sort_by_perm {A} (cmp : A -> A -> comparison) l : sort_by cmp l ≡ₚ l.
Proof. apply merge_sort_Permutation. Qed.

(** A sort by a key that is never repeated does not depend on the order the
    elements came in. *)
Lemma sort_by_unique {A} (cmp : A -> A -> comparison) l1 l2 :
  Transitive (cmp_le cmp) -> Total (cmp_le cmp) ->
  (forall x y, x ∈ l1 -> y ∈ l1 -> cmp_le cmp x y -> cmp_le cmp y x -> x = y) ->
  l1 ≡ₚ l2 -> sort_by cmp l1 = sort_by cmp l2.
Proof.
  intros Ht Htot Hu Hp. unfold sort_by.
  apply (StronglySorted_unique_strong (cmp_le cmp)).
  - intros x y Hx Hy. rewrite merge_sort_Permutation in Hx. apply Hu; [done |].
    by rewrite merge_sort_Permutation, <- Hp in Hy.
  - by apply StronglySorted_merge_sort.
  - by apply StronglySorted_merge_sort.
  - by rewrite !merge_sort_Permutation.
Qed.

(** ** The null oracle *)

Module Null.

Definition NAME : string := "null".

Record NullPipeline := {
  egress : list (option u16);
  tables : NoTablesOps;
}.

(** One turn of the loop in [new]; the indexing is in range because [width]
    exceeds every id. *)
Definition set_egress (vports : list u16) (egress : list (option u16)) (e : nat * u16)
    : list (option u16) :=
  let '(i, id) := e in
  let next := vports !!! ((i + 1) mod length vports)%nat in
  <[Z.to_nat (uv id) := Some next]> egress.

Definition width (vports : list u16) : nat :=
  foldr (fun id w => max (S (Z.to_nat (uv id))) w) 0%nat vports.

Definition new (params : PipelineParams) : NullPipeline := {|
  egress := foldl (set_egress (vports params)) (replicate (width (vports params)) None)
                  (imap pair (vports params));
  tables := {| no_tables_name := NAME |};
|}.

(** The engine holds the same map as the pipeline. *)
Record NullEngine := { e_egress : list (option u16) }.

Definition null_process (f : FrameCtx) (e : NullEngine) : Verdict :=
  match e_egress e !! Z.to_nat (uv (ingress_vport f)) with
  | Some (Some port) => Forward port
  | _ => Drop
  end.

#[global] Instance Null_TableOps : TableOps NullPipeline := {
  schemas p := schemas (tables p);
  table_add t k a ps p := (p, (table_add t k a ps (tables p)).2);
  table_remove t k p := (p, (table_remove t k (tables p)).2);
  table_dump t p := table_dump t (tables p);
  table_default t p := table_default t (tables p);
  table_set_default t a ps p := (p, (table_set_default t a ps (tables p)).2);
  table_clear t p := (p, (table_clear t (tables p)).2);
}.

#[global] Instance Null_Engine : Engine NullPipeline NullEngine := {
  process _ f e := (e, f, null_process f e);
  engine_name _ := NAME;
}.

#[global] Instance Null_Pipeline : Pipeline NullPipeline NullEngine := {
  pipeline_name _ := NAME;
  engine p := {| e_egress := egress p |};
  mints _ := true;
}.

#[global] Instance Null_EngineLaws : EngineLaws NullPipeline NullEngine.
Proof. done. Qed.

#[global] Instance Null_TableLaws : TableLaws NullPipeline (fun _ => True).
Proof. split; cbn; intros; simplify_eq; done. Qed.

Lemma width_bound vports id : id ∈ vports -> (Z.to_nat (uv id) < width vports)%nat.
Proof.
  induction vports as [| x l IH]; [by intros ?%not_elem_of_nil |].
  intros [-> | H]%elem_of_cons; cbn [width foldr]; [lia |]. specialize (IH H). unfold width in IH. lia.
Qed.

Lemma fill_lookup vports l eg k :
  NoDup l.*2 -> (forall e, e ∈ l -> (Z.to_nat (uv e.2) < length eg)%nat) ->
  foldl (set_egress vports) eg l !! k =
    match find (fun e => Z.to_nat (uv e.2) =? k)%nat l with
    | Some (i, _) => Some (Some (vports !!! ((i + 1) mod length vports)%nat))
    | None => eg !! k
    end.
Proof.
  revert eg. induction l as [| [i id] l IH]; intros eg Hn Hl; [done |].
  cbn [foldl find snd]. rewrite fmap_cons in Hn. apply NoDup_cons in Hn as [Hnin Hn]. cbn in Hnin.
  assert (length (set_egress vports eg (i, id)) = length eg) as Hlen by apply length_insert.
  rewrite IH; [| done |].
  2:{ intros e He. rewrite Hlen. apply Hl. by apply list_elem_of_further. }
  destruct (Nat.eqb_spec (Z.to_nat (uv id)) k) as [E | E].
  - destruct (find _ l) as [[j id'] |] eqn:Ef.
    + apply find_Some in Ef as [Hin Hk]. apply Nat.eqb_eq in Hk. cbn in Hk. exfalso. apply Hnin.
      assert (id' = id) as ->.
      { apply uint_eq. pose proof (uint_range id). pose proof (uint_range id'). lia. }
      apply list_elem_of_fmap. by exists (j, id).
    + subst k. unfold set_egress. apply list_lookup_insert_eq.
      apply (Hl (i, id)). apply list_elem_of_here.
  - destruct (find _ l) as [[j id'] |]; [done |]. unfold set_egress. by apply list_lookup_insert_ne.
Qed.

End Null.

(** ** Properties *)

(** The oracle sends every frame to the next vport in configuration order,
    cyclically, drops what arrives on a vport the node does not have, and
    never touches the frame. *)
Theorem null_next_port params f :
  NoDup (vports params) ->
  let ps := vports params in
  let '(_, g, v) := process (Null.new params) f (engine (Null.new params)) in
  g = f /\
  (forall i, ps !! i = Some (ingress_vport f) -> v = Forward (ps !!! ((i + 1) mod length ps)%nat)) /\
  (ingress_vport f ∉ ps -> v = Drop).
Proof.
  intros Hn ps. cbn. split; [done |]. unfold Null.null_process. cbn [Null.e_egress Null.new Null.egress].
  assert ((imap pair ps).*2 = ps) as Hsnd.
  { apply list_eq. intros k. rewrite list_lookup_fmap, list_lookup_imap. by destruct (ps !! k). }
  fold ps. rewrite Null.fill_lookup.
  2: by rewrite Hsnd.
  2:{ intros [i x] He. rewrite length_replicate. apply Null.width_bound.
      rewrite <- Hsnd. apply list_elem_of_fmap. by exists (i, x). }
  destruct (find _ _) as [[i x] |] eqn:E.
  - apply find_Some in E as [Hin Hk%Nat.eqb_eq]. cbn in Hk.
    apply list_elem_of_lookup in Hin as [j Hj]. rewrite list_lookup_imap in Hj.
    apply fmap_Some in Hj as (y & Hy & [= <- <-]).
    assert (x = ingress_vport f) as ->.
    { apply uint_eq. pose proof (uint_range x). pose proof (uint_range (ingress_vport f)). lia. }
    split.
    + intros i' Hi. by rewrite (NoDup_lookup _ _ _ _ Hn Hy Hi).
    + intros Hnot. destruct Hnot. by apply list_elem_of_lookup_2 in Hy.
  - apply find_None in E. split.
    + intros i Hi. rewrite Forall_forall in E.
      specialize (E (i, ingress_vport f)). cbn in E. rewrite Nat.eqb_refl in E.
      discriminate E. apply list_elem_of_lookup. exists i. rewrite list_lookup_imap, Hi. done.
    + intros _. destruct (replicate _ None !! _) as [o |] eqn:Er; [| done].
      apply lookup_replicate in Er as [-> _]. done.
Qed.

Lemma null_next_port_witness :
  let params := {| vports := [U16 3; U16 9] |} in
  let f := {| buf := []; headroom := 0; len := 0; ingress_vport := U16 9; rx_ts_us := U32 0 |} in
  (process (Null.new params) f (engine (Null.new params))).2 = Forward (U16 3).
Proof.
  cbn zeta.
  apply (null_next_port {| vports := [U16 3; U16 9] |}
    {| buf := []; headroom := 0; len := 0; ingress_vport := U16 9; rx_ts_us := U32 0 |}) with (i := 1%nat).
  - apply (bool_decide_unpack _). vm_compute. exact I.
  - reflexivity.
Defined.

(** The witness of [Engine.identity_envelope]. *)
Lemma identity_envelope_witness :
  let p := Null.new {| vports := [U16 0; U16 1] |} in
  let f := {| buf := [U8 7]; headroom := 0; len := 1; ingress_vport := U16 0; rx_ts_us := U32 0 |} in
  let '(e', g, vd) := process p f (engine p) in
  process {| e_envelope := IDENTITY; e_inner := p |} f
          {| ee_envelope := IDENTITY; ee_inner := engine p |}
    = ({| ee_envelope := IDENTITY; ee_inner := e' |}, g, vd).
Proof. apply identity_envelope. unfold ok. cbn. lia. Defined.
