(* ===== verification/L2Fwd.v ===== *)
(** * l2fwd, the native rendering (crates/up4-engine/src/programs/l2fwd.rs)

    An L2 switch with a static forwarding database: the whole control-plane
    surface, the engine, and the refinement of both to a specification that
    knows nothing of publication, versions or cached views. *)

From S2P Require Import Prelude Bytes Text Value Shim Table Publish Frame Headers Engine Programs.

Local Open Scope Z_scope.

Module L2.

Definition NAME : string := "l2fwd/native".

Definition SCHEMAS : list TableSchema := [{|
  table_name := "mac_dst";
  key_field := "ethernet.dst";
  table_key := KindExact KindMac;
  actions := [
    {| action_name := "forward"; action_params := [{| param_name := "port"; param_kind := KindU16 |}] |};
    {| action_name := "broadcast"; action_params := [] |};
    {| action_name := "drop"; action_params := [] |}
  ];
|}].

Inductive Action :=
  | AForward (port : u16)
  | ABroadcast
  | ADrop.

#[global] Instance Action_eq_dec : EqDecision Action.
Proof. solve_decision. Defined.

(** [Action::from_call] *)
Definition from_call (s : TableSchema) (action : string) (params : list TypedVal)
    : result Action TableError :=
  let? sig := check s action params in
  if decide (action_name sig = "forward")
  then let? port := param_u16 s (action_name sig) params 0 in Ok (AForward port)
  else if decide (action_name sig = "broadcast") then Ok ABroadcast
  else Ok ADrop.

Definition describe (a : Action) (key : string) : EntryDesc :=
  let '(action, params) :=
    match a with
    | AForward port => ("forward", {["port" := unchars (dec (uv port))]})
    | ABroadcast => ("broadcast", ∅)
    | ADrop => ("drop", ∅)
    end in
  {| entry_key := key; entry_action := action; entry_params := params |}.

Definition verdict (a : Action) : Verdict :=
  match a with
  | AForward port => Forward port
  | ABroadcast => Broadcast
  | ADrop => Drop
  end.

Abbreviation Fdb := (Exact.ExactTable MacAddr Action).

Record L2Fwd := { mac_dst : Shared Fdb }.

Definition new (_ : PipelineParams) : L2Fwd := {| mac_dst := shared_new (Exact.new ABroadcast) |}.

Definition publish {R} (f : Fdb -> Fdb * R) (p : L2Fwd) : L2Fwd * R :=
  let '(s, r) := update f (mac_dst p) in ({| mac_dst := s |}, r).

Definition add (table : string) (key : TypedKey) (action : string) (params : list TypedVal)
    (p : L2Fwd) : L2Fwd * result unit TableError :=
  try_op (find_schema SCHEMAS table) p (fun schema =>
  try_op (exact_mac schema key) p (fun mac =>
  try_op (from_call schema action params) p (fun action =>
  let '(p, _) := publish (fun t => ((Exact.insert mac action t).1, tt)) p in
  (p, Ok tt)))).

Definition remove (table : string) (key : TypedKey) (p : L2Fwd) : L2Fwd * result unit TableError :=
  try_op (find_schema SCHEMAS table) p (fun schema =>
  try_op (exact_mac schema key) p (fun mac =>
  let '(p, removed) := publish (fun t => Exact.remove mac t) p in
  (p, if removed then Ok tt else Err (NotFound (table_name schema) (mac_to_string mac))))).

(** [String]'s order is the order of its bytes. *)
Definition by_key (a b : EntryDesc) : comparison := String.compare (entry_key a) (entry_key b).

Definition dump (table : string) (p : L2Fwd) : result (list EntryDesc) TableError :=
  let? _ := find_schema SCHEMAS table in
  let fdb := load (mac_dst p) in
  Ok (sort_by by_key ((fun e => describe e.2 (mac_to_string e.1)) <$> Exact.iter fdb)).

Definition default_entry (table : string) (p : L2Fwd) : result EntryDesc TableError :=
  let? _ := find_schema SCHEMAS table in
  Ok (describe (Exact.default_action (load (mac_dst p))) "*").

Definition set_default (table action : string) (params : list TypedVal) (p : L2Fwd)
    : L2Fwd * result unit TableError :=
  try_op (find_schema SCHEMAS table) p (fun schema =>
  try_op (from_call schema action params) p (fun action =>
  let '(p, _) := publish (fun t => (Exact.set_default action t, tt)) p in
  (p, Ok tt))).

Definition clear (table : string) (p : L2Fwd) : L2Fwd * result nat TableError :=
  try_op (find_schema SCHEMAS table) p (fun _ =>
  let '(p, n) := publish Exact.clear p in
  (p, Ok n)).

#[global] Instance L2_TableOps : TableOps L2Fwd := {
  schemas _ := SCHEMAS;
  table_add := add;
  table_remove := remove;
  table_dump := dump;
  table_default := default_entry;
  table_set_default := set_default;
  table_clear := clear;
}.

Record L2Engine := { cached : Cached Fdb }.

Definition l2_process (p : L2Fwd) (f : FrameCtx) (e : L2Engine) : L2Engine * FrameCtx * Verdict :=
  match eth_parse (frame f) with
  | None => (e, f, Drop)
  | Some eth =>
      let c := get (mac_dst p) (cached e) in
      ({| cached := c |}, f, verdict (Exact.apply (c_value c) (eth_dst eth)))
  end.

#[global] Instance L2_Engine : Engine L2Fwd L2Engine := {
  process := l2_process;
  engine_name _ := NAME;
}.

#[global] Instance L2_Pipeline : Pipeline L2Fwd L2Engine := {
  pipeline_name _ := NAME;
  engine p := {| cached := cached_new (mac_dst p) |};
  mints _ := true;
}.

#[global] Instance L2_EngineLaws : EngineLaws L2Fwd L2Engine.
Proof. split. intros p f e Ho. cbn. unfold l2_process. by destruct (eth_parse _). Qed.

(** ** The specification: a map, a default, and no publication *)

Record Spec := { fdb : gmap MacAddr Action; miss : Action }.

Definition spec_new : Spec := {| fdb := ∅; miss := ABroadcast |}.

#[global] Instance Spec_TableOps : TableOps Spec := {
  schemas _ := SCHEMAS;
  table_add t k a ps s :=
    match (let? schema := find_schema SCHEMAS t in let? mac := exact_mac schema k in
           let? act := from_call schema a ps in Ok (mac, act)) with
    | Ok (mac, act) => ({| fdb := <[mac := act]> (fdb s); miss := miss s |}, Ok tt)
    | Err e => (s, Err e)
    end;
  table_remove t k s :=
    match (let? schema := find_schema SCHEMAS t in exact_mac schema k) with
    | Ok mac =>
        match fdb s !! mac with
        | Some _ => ({| fdb := delete mac (fdb s); miss := miss s |}, Ok tt)
        | None => (s, Err (NotFound t (mac_to_string mac)))
        end
    | Err e => (s, Err e)
    end;
  table_dump t s :=
    let? _ := find_schema SCHEMAS t in
    Ok (sort_by by_key ((fun e => describe e.2 (mac_to_string e.1)) <$> map_to_list (fdb s)));
  table_default t s := let? _ := find_schema SCHEMAS t in Ok (describe (miss s) "*");
  table_set_default t a ps s :=
    match (let? schema := find_schema SCHEMAS t in from_call schema a ps) with
    | Ok act => ({| fdb := fdb s; miss := act |}, Ok tt)
    | Err e => (s, Err e)
    end;
  table_clear t s :=
    match find_schema SCHEMAS t with
    | Ok _ => ({| fdb := ∅; miss := miss s |}, Ok (size (fdb s)))
    | Err e => (s, Err e)
    end;
}.

(** The datapath: a frame with an Ethernet header takes the action of its
    destination; the frame itself is never modified. *)
#[global] Instance Spec_Engine : Engine Spec unit := {
  process s f _ :=
    (tt, f, match eth_parse (frame f) with
            | Some eth => verdict (default (miss s) (fdb s !! eth_dst eth))
            | None => Drop
            end);
  engine_name _ := NAME;
}.

Definition abs (t : Fdb) : Spec := {| fdb := Exact.entries t; miss := Exact.default_action t |}.

Definition sim (n : nat) (s1 : L2Fwd * L2Engine) (s2 : Spec * unit) : Prop :=
  view n (mac_dst s1.1) (cached s1.2) /\ s2.1 = abs (current (mac_dst s1.1)).

(** A published update keeps the simulation when the specification takes the
    same step. *)
Lemma l2_sim_publish {R} (f : Fdb -> Fdb * R) n p e s :
  Z.of_nat n < 2 ^ 64 -> sim n (p, e) (s, tt) ->
  sim (S n) ((publish f p).1, e) (abs (f (current (mac_dst p))).1, tt) /\
  (publish f p).2 = (f (current (mac_dst p))).2.
Proof.
  intros Hn [Hv Hs]. cbn in *. pose proof (view_update f n _ _ Hn Hv) as Hv'.
  unfold publish, sim. unfold update in *. destruct (f (current (mac_dst p))) as [t r]. cbn in *.
  done.
Qed.

(** A frame gets the specification's verdict, and no index is used up. *)
Lemma l2_sim_frame n p e s f :
  Z.of_nat n < 2 ^ 64 -> sim n (p, e) (s, tt) ->
  (process p f e).1.2 = (process s f tt).1.2 /\ (process p f e).2 = (process s f tt).2 /\
  sim n (p, (process p f e).1.1) (s, (process s f tt).1.1).
Proof.
  intros Hn Hsim. pose proof Hsim as [Hv Hs]. cbn in Hv, Hs. cbn [process L2_Engine Spec_Engine]. unfold l2_process.
  destruct (eth_parse (frame f)) as [eth |]; cbn; [| done].
  destruct (view_get n _ _ Hn Hv) as [Hc Hv']. by rewrite Hc, Hs.
Qed.

Lemma l2_sim_step n s1 s2 r :
  Z.of_nat n < 2 ^ 64 -> sim n s1 s2 ->
  (serve r s1).2 = (serve r s2).2 /\
  exists n', (n' <= S n)%nat /\ sim n' (serve r s1).1 (serve r s2).1.
Proof.
  intros Hn Hsim. destruct s1 as [p e], s2 as [s []]. pose proof Hsim as [Hv Hs]. cbn in Hv, Hs.
  destruct r as [t k a ps | t k | t a ps | t | t | t | f]; cbn [serve table_add table_remove
    table_set_default table_clear table_dump table_default process L2_TableOps L2_Engine
    Spec_TableOps Spec_Engine].
  - unfold add, try_op. destruct (find_schema SCHEMAS t) as [sch |]; cbn [rbind]; [| by eauto].
    destruct (exact_mac sch k) as [mac |]; cbn [rbind]; [| by eauto].
    destruct (from_call sch a ps) as [act |]; cbn [rbind]; [| by eauto].
    destruct (l2_sim_publish (fun t => ((Exact.insert mac act t).1, tt)) n p e s Hn Hsim) as [H _].
    destruct (publish _ p) as [p' r']. cbn in *. split; [done |]. subst s. eauto.
  - unfold remove, try_op. destruct (find_schema SCHEMAS t) as [sch |] eqn:Ef; cbn [rbind]; [| by eauto].
    apply find_schema_name in Ef. destruct (exact_mac sch k) as [mac |]; cbn [rbind]; [| by eauto].
    destruct (l2_sim_publish (Exact.remove mac) n p e s Hn Hsim) as [H Hr].
    destruct (publish _ p) as [p' r']. cbn in H, Hr. subst r' s. rewrite Ef. cbn [abs fdb].
    destruct (Exact.entries (current (mac_dst p)) !! mac) eqn:El; cbn; [by eauto |].
    split; [done |]. exists (S n). split; [done |]. unfold abs in *. cbn in *.
    by rewrite delete_id in H.
  - unfold set_default, try_op. destruct (find_schema SCHEMAS t) as [sch |]; cbn [rbind]; [| by eauto].
    destruct (from_call sch a ps) as [act |]; cbn [rbind]; [| by eauto].
    destruct (l2_sim_publish (fun t => (Exact.set_default act t, tt)) n p e s Hn Hsim) as [H _].
    destruct (publish _ p) as [p' r']. cbn in *. split; [done |]. subst s. eauto.
  - unfold clear, try_op. destruct (find_schema SCHEMAS t) as [sch |]; cbn [rbind]; [| by eauto].
    destruct (l2_sim_publish Exact.clear n p e s Hn Hsim) as [H Hr].
    destruct (publish _ p) as [p' r']. cbn in *. subst r' s. split; [done |]. eauto.
  - split; [| by eauto]. unfold dump. by rewrite Hs.
  - split; [| by eauto]. unfold default_entry. by rewrite Hs.
  - destruct (l2_sim_frame n p e s f Hn Hsim) as (H1 & H2 & H3). cbn in H1, H2, H3.
    destruct (l2_process p f e) as [[e' g] v]. cbn in *. subst g v. split; [done |]. exists n. split; [lia | done].
Qed.

(** ** The laws of the control-plane interface *)

Lemma exact_mac_Ok s k mac : exact_mac s k = Ok mac <-> k = KeyExact (ValMac mac).
Proof.
  unfold exact_mac. split; [| by intros ->].
  destruct k as [v | v l]; [| done]. destruct v; try done. by intros [= ->].
Qed.

Lemma l2_schema_lpm_key s : s ∈ SCHEMAS -> table_key s = KindExact KindMac.
Proof. by intros [-> | ?%not_elem_of_nil]%elem_of_cons. Qed.

Lemma l2_from_call_check s a ps act : from_call s a ps = Ok act -> is_ok (check s a ps) = true.
Proof. unfold from_call. by intros (sig & -> & _)%rbind_Ok_inv. Qed.

Lemma publish_clear p : (publish Exact.clear p).2 = size (Exact.entries (current (mac_dst p))).
Proof. done. Qed.

#[global] Instance L2_TableLaws : TableLaws L2Fwd (fun _ => True).
Proof.
  split; cbn; try done; unfold add, remove, set_default, clear, try_op.
  - intros t k a ps s s' e _. destruct (find_schema _ _); [| by intros [= -> _]].
    destruct (exact_mac _ _); [| by intros [= -> _]]. by destruct (from_call _ _ _); [| intros [= -> _]].
  - intros t k s s' e _. destruct (find_schema _ _); [| by intros [= -> _]].
    destruct (exact_mac _ _) as [mac |]; [| by intros [= -> _]]. unfold publish, update. cbn.
    case_bool_decide as D; [done |]. intros [= <- _].
    apply eq_None_not_Some in D. split; [done |]. intros t'. cbn. unfold dump, default_entry. cbn.
    by rewrite delete_id.
  - intros t a ps s s' e _. destruct (find_schema _ _); [| by intros [= -> _]].
    by destruct (from_call _ _ _); [| intros [= -> _]].
  - intros t s s' e _. by destruct (find_schema _ _); [| intros [= -> _]].
  - intros t k a ps s s'. destruct (find_schema _ _) as [sch |] eqn:E; [| done].
    destruct (exact_mac _ _) as [mac |] eqn:Ek; [| done].
    destruct (from_call _ _ _) eqn:Ec; [| done]. intros _. exists sch. split; [done |].
    apply exact_mac_Ok in Ek as ->. split; [| by eapply l2_from_call_check].
    apply check_key_Ok. cbn. by rewrite (l2_schema_lpm_key sch) by by eapply find_schema_in.
  - intros t a ps s s'. destruct (find_schema _ _) as [sch |] eqn:E; [| done].
    destruct (from_call _ _ _) eqn:Ec; [| done]. intros _. exists sch.
    split; [done |]. by eapply l2_from_call_check.
  - intros t s s' n. unfold dump. destruct (find_schema _ _); [| done]. by intros [= <- <-].
  - intros t s s' n l _. unfold dump. destruct (find_schema _ _); [| done]. cbn.
    intros [= <- <-] [= <-]. unfold sort_by. rewrite merge_sort_Permutation, length_fmap.
    unfold Exact.iter. by rewrite length_map_to_list.
Qed.

Lemma describe_key a key : entry_key (describe a key) = key.
Proof. by destruct a. Qed.

#[global] Instance by_key_trans : Transitive (cmp_le by_key).
Proof. intros x y z. apply string_le_trans. Qed.

#[global] Instance by_key_total : Total (cmp_le by_key).
Proof. intros x y. apply string_le_total. Qed.

End L2.

(** ** Properties *)

(** C4: the native l2fwd, from load, answers every sequence of control-plane
    requests and frames (fewer than 2^64 of them) exactly as a finite map from
    addresses to actions with a default of broadcast does: every verdict, every
    dump, every error, no stale lookup, and no frame modified. *)
Theorem l2_refines_spec params (rs : list Request) :
  Z.of_nat (length rs) < 2 ^ 64 ->
  serve_all rs (L2.new params, engine (L2.new params)) = serve_all rs (L2.spec_new, tt).
Proof.
  intros Hb. apply (serve_all_sim L2.sim (length rs) (fun _ => True)) with (n := 0%nat).
  - intros n s1 s2 r HR Hn _. apply L2.l2_sim_step; [lia | done].
  - split; [apply view_new | done].
  - lia.
  - by apply Forall_true.
Qed.

Lemma l2_refines_spec_witness :
  let mac := Mac (U8 170) (U8 187) (U8 204) (U8 221) (U8 238) (U8 1) in
  let rs := [RAdd "mac_dst" (KeyExact (ValMac mac)) "forward" [ValU16 (U16 1)]; RDump "mac_dst"] in
  serve_all rs (L2.new {| vports := [] |}, engine (L2.new {| vports := [] |}))
    = serve_all rs (L2.spec_new, tt) /\
  serve_all rs (L2.spec_new, tt) =
    [RUnit (Ok tt); RDumped (Ok [L2.describe (L2.AForward (U16 1)) "aa:bb:cc:dd:ee:01"])].
Proof. split; [apply l2_refines_spec; cbn; lia | vm_compute; reflexivity]. Defined.

(** A dump does not depend on the order in which the hash map yields its
    entries, which the standard library leaves open: sorting any listing of
    the installed entries gives the same answer, and it is in ascending order
    of the keys. *)
Theorem l2_dump_deterministic (p : L2.L2Fwd) (listing : list (MacAddr * L2.Action)) :
  listing ≡ₚ Exact.iter (load (L2.mac_dst p)) ->
  L2.dump "mac_dst" p =
    Ok (sort_by L2.by_key ((fun e => L2.describe e.2 (mac_to_string e.1)) <$> listing)) /\
  exists l, L2.dump "mac_dst" p = Ok l /\
    StronglySorted (cmp_le L2.by_key) l.
Proof.
  intros Hp. unfold L2.dump.
  destruct (find_schema L2.SCHEMAS "mac_dst") as [sch | e] eqn:Es; [| done]. cbn [rbind]. split.
  - f_equal. apply sort_by_unique; [apply _ | apply _ | | by rewrite Hp].
    intros x y ([m1 a1] & -> & H1)%list_elem_of_fmap ([m2 a2] & -> & H2)%list_elem_of_fmap.
    unfold cmp_le, L2.by_key. cbn [fst snd]. rewrite !L2.describe_key. intros L1 L2.
    assert (m1 = m2) as -> by (apply mac_to_string_inj; by apply string_le_antisym).
    apply elem_of_map_to_list in H1, H2. rewrite H1 in H2. by injection H2 as ->.
  - eexists. split; [done |].
    by apply StronglySorted_merge_sort; apply _.
Qed.

Lemma l2_dump_deterministic_witness :
  exists l, L2.dump "mac_dst" (L2.new {| vports := [] |}) = Ok l /\
    StronglySorted (cmp_le L2.by_key) l.
Proof. by apply (l2_dump_deterministic (L2.new {| vports := [] |}) []). Defined.
