(* ===== verification/L3Fwd.v ===== *)
(** * l3fwd, the native rendering (crates/up4-engine/src/programs/l3fwd.rs)

    An IPv4 router: longest-prefix match, TTL decrement, destination rewrite
    and checksum zeroing.  The control-plane surface and the engine are shown
    to refine a specification on a finite map of prefixes, and the bytes of a
    forwarded frame are given one by one. *)

From S2P Require Import Prelude Bytes Text Value Shim Table Publish Frame Headers Engine Programs.

Local Open Scope Z_scope.

Module L3.

Definition NAME : string := "l3fwd/native".

Definition SCHEMAS : list TableSchema := [{|
  table_name := "ipv4_lpm";
  key_field := "ipv4.dst";
  table_key := KindLpm KindIpv4;
  actions := [
    {| action_name := "forward"; action_params := [
         {| param_name := "port"; param_kind := KindU16 |};
         {| param_name := "dmac"; param_kind := KindMac |}] |};
    {| action_name := "punt"; action_params := [] |};
    {| action_name := "drop"; action_params := [] |}
  ];
|}].

Inductive Action :=
  | AForward (port : u16) (dmac : MacAddr)
  | APunt
  | ADrop.

#[global] Instance Action_eq_dec : EqDecision Action.
Proof. solve_decision. Defined.

(** [Action::from_call] *)
Definition from_call (s : TableSchema) (action : string) (params : list TypedVal)
    : result Action TableError :=
  let? sig := check s action params in
  if decide (action_name sig = "forward") then
    let? port := param_u16 s (action_name sig) params 0 in
    let? dmac := param_mac s (action_name sig) params 1 in
    Ok (AForward port dmac)
  else if decide (action_name sig = "punt") then Ok APunt
  else Ok ADrop.

Definition describe (a : Action) (key : string) : EntryDesc :=
  let '(action, params) :=
    match a with
    | AForward port dmac =>
        ("forward", <["port" := unchars (dec (uv port))]> {["dmac" := mac_to_string dmac]})
    | APunt => ("punt", ∅)
    | ADrop => ("drop", ∅)
    end in
  {| entry_key := key; entry_action := action; entry_params := params |}.

Abbreviation Routes := (Lpm.LpmTable Action).

Record L3Fwd := { ipv4_lpm : Shared Routes }.

Definition new (_ : PipelineParams) : L3Fwd := {| ipv4_lpm := shared_new (Lpm.new ADrop) |}.

Definition publish {R} (f : Routes -> Routes * R) (p : L3Fwd) : L3Fwd * R :=
  let '(s, r) := update f (ipv4_lpm p) in ({| ipv4_lpm := s |}, r).

Definition add (table : string) (key : TypedKey) (action : string) (params : list TypedVal)
    (p : L3Fwd) : L3Fwd * result unit TableError :=
  try_op (find_schema SCHEMAS table) p (fun schema =>
  try_op (lpm_ipv4 schema key) p (fun prefix =>
  try_op (from_call schema action params) p (fun action =>
  let '(p, _) := publish (fun t => ((Lpm.insert prefix action t).1, tt)) p in
  (p, Ok tt)))).

Definition remove (table : string) (key : TypedKey) (p : L3Fwd) : L3Fwd * result unit TableError :=
  try_op (find_schema SCHEMAS table) p (fun schema =>
  try_op (lpm_ipv4 schema key) p (fun prefix =>
  let '(p, removed) := publish (fun t => Lpm.remove prefix t) p in
  (p, if removed then Ok tt else Err (NotFound (table_name schema) (prefix_to_string prefix))))).

(** Longest prefix first, then by address. *)
Definition by_route (a b : byte * Ipv4Addr * EntryDesc) : comparison :=
  cmp_then (uv b.1.1 ?= uv a.1.1) (uv (ip_u32 a.1.2) ?= uv (ip_u32 b.1.2)).

Definition row (e : Ipv4Prefix * Action) : byte * Ipv4Addr * EntryDesc :=
  (plen e.1, prefix_addr e.1, describe e.2 (prefix_to_string e.1)).

Definition dump (table : string) (p : L3Fwd) : result (list EntryDesc) TableError :=
  let? _ := find_schema SCHEMAS table in
  let routes := load (ipv4_lpm p) in
  Ok ((fun r => r.2) <$> sort_by by_route (row <$> Lpm.iter routes)).

Definition default_entry (table : string) (p : L3Fwd) : result EntryDesc TableError :=
  let? _ := find_schema SCHEMAS table in
  Ok (describe (Lpm.default_action (load (ipv4_lpm p))) "*").

Definition set_default (table action : string) (params : list TypedVal) (p : L3Fwd)
    : L3Fwd * result unit TableError :=
  try_op (find_schema SCHEMAS table) p (fun schema =>
  try_op (from_call schema action params) p (fun action =>
  let '(p, _) := publish (fun t => (Lpm.set_default action t, tt)) p in
  (p, Ok tt))).

Definition clear (table : string) (p : L3Fwd) : L3Fwd * result nat TableError :=
  try_op (find_schema SCHEMAS table) p (fun _ =>
  let '(p, n) := publish Lpm.clear p in
  (p, Ok n)).

#[global] Instance L3_TableOps : TableOps L3Fwd := {
  schemas _ := SCHEMAS;
  table_add := add;
  table_remove := remove;
  table_dump := dump;
  table_default := default_entry;
  table_set_default := set_default;
  table_clear := clear;
}.

(** The [forward] arm: what happens to the bytes of the frame. *)
Definition rewrite (ip : Ipv4Hdr) (dmac : MacAddr) (fr : bytes) : bytes :=
  let fr := set_ttl ip fr (U8 (uv (ip_ttl ip) - 1)) in
  let fr := set_dst fr dmac in
  zero_inner_checksums fr.

Record L3Engine := { cached : Cached Routes }.

Definition l3_process (p : L3Fwd) (f : FrameCtx) (e : L3Engine) : L3Engine * FrameCtx * Verdict :=
  match eth_parse (frame f) with
  | None => (e, f, Drop)
  | Some eth =>
      if negb (bool_decide (ethertype eth = ETHERTYPE_IPV4)) then (e, f, Drop) else
      match ip_parse (frame f) ETH_HDR_LEN with
      | None => (e, f, Drop)
      | Some ip =>
          if uv (ip_ttl ip) =? 0 then (e, f, Drop) else
          let c := get (ipv4_lpm p) (cached e) in
          let e := {| cached := c |} in
          match Lpm.apply (c_value c) (ip_dst ip) with
          | AForward port dmac => (e, frame_mut (rewrite ip dmac) f, Forward port)
          | APunt => (e, f, Punt)
          | ADrop => (e, f, Drop)
          end
      end
  end.

#[global] Instance L3_Engine : Engine L3Fwd L3Engine := {
  process := l3_process;
  engine_name _ := NAME;
}.

#[global] Instance L3_Pipeline : Pipeline L3Fwd L3Engine := {
  pipeline_name _ := NAME;
  engine p := {| cached := cached_new (ipv4_lpm p) |};
  mints _ := true;
}.

Lemma length_rewrite ip dmac fr : length (rewrite ip dmac fr) = length fr.
Proof. unfold rewrite. by rewrite length_zero_inner, length_set_dst, length_set_ttl. Qed.

#[global] Instance L3_EngineLaws : EngineLaws L3Fwd L3Engine.
Proof.
  split. intros p f e Ho. cbn. unfold l3_process. destruct (eth_parse _); [| done].
  destruct (negb _); [done |]. destruct (ip_parse _ _) as [ip |]; [| done].
  destruct (_ =? 0); [done |]. destruct (Lpm.apply _ _) as [port dmac | |]; [| done | done].
  cbn. destruct (frame_mut_ok (rewrite ip dmac) f Ho) as (H1 & H2 & _); [| done].
  rewrite length_rewrite. by apply length_frame.
Qed.

(** ** The specification *)

Record Spec := { routes : gmap Ipv4Prefix Action; miss : Action }.

Definition spec_new : Spec := {| routes := ∅; miss := ADrop |}.

#[global] Instance Spec_TableOps : TableOps Spec := {
  schemas _ := SCHEMAS;
  table_add t k a ps s :=
    match (let? schema := find_schema SCHEMAS t in let? prefix := lpm_ipv4 schema k in
           let? act := from_call schema a ps in Ok (prefix, act)) with
    | Ok (prefix, act) => ({| routes := <[prefix := act]> (routes s); miss := miss s |}, Ok tt)
    | Err e => (s, Err e)
    end;
  table_remove t k s :=
    match (let? schema := find_schema SCHEMAS t in lpm_ipv4 schema k) with
    | Ok prefix =>
        match routes s !! prefix with
        | Some _ => ({| routes := delete prefix (routes s); miss := miss s |}, Ok tt)
        | None => (s, Err (NotFound t (prefix_to_string prefix)))
        end
    | Err e => (s, Err e)
    end;
  table_dump t s :=
    let? _ := find_schema SCHEMAS t in
    Ok ((fun r => r.2) <$> sort_by by_route (row <$> map_to_list (routes s)));
  table_default t s := let? _ := find_schema SCHEMAS t in Ok (describe (miss s) "*");
  table_set_default t a ps s :=
    match (let? schema := find_schema SCHEMAS t in from_call schema a ps) with
    | Ok act => ({| routes := routes s; miss := act |}, Ok tt)
    | Err e => (s, Err e)
    end;
  table_clear t s :=
    match find_schema SCHEMAS t with
    | Ok _ => ({| routes := ∅; miss := miss s |}, Ok (size (routes s)))
    | Err e => (s, Err e)
    end;
}.

(** What is routed: an IPv4 frame with a coherent header and a live TTL. *)
Definition routable (fr : bytes) : option Ipv4Hdr :=
  match eth_parse fr, ip_parse fr ETH_HDR_LEN with
  | Some eth, Some ip =>
      if decide (ethertype eth = ETHERTYPE_IPV4 /\ uv (ip_ttl ip) <> 0) then Some ip else None
  | _, _ => None
  end.

#[global] Instance Spec_Engine : Engine Spec unit := {
  process s f _ :=
    match routable (frame f) with
    | None => (tt, f, Drop)
    | Some ip =>
        match default (miss s) (Lpm.longest (routes s) (ip_u32 (ip_dst ip)) 32) with
        | AForward port dmac => (tt, frame_mut (rewrite ip dmac) f, Forward port)
        | APunt => (tt, f, Punt)
        | ADrop => (tt, f, Drop)
        end
    end;
  engine_name _ := NAME;
}.

Definition abs (t : Routes) : Spec := {| routes := Lpm.routes t; miss := Lpm.default_action t |}.

Definition sim (n : nat) (s1 : L3Fwd * L3Engine) (s2 : Spec * unit) : Prop :=
  view n (ipv4_lpm s1.1) (cached s1.2) /\ Lpm.wf (current (ipv4_lpm s1.1)) /\
  s2.1 = abs (current (ipv4_lpm s1.1)).

Lemma by_route_le x y :
  cmp_le by_route x y <->
  (uv y.1.1 < uv x.1.1 \/ (uv x.1.1 = uv y.1.1 /\ uv (ip_u32 x.1.2) <= uv (ip_u32 y.1.2))).
Proof.
  unfold cmp_le, by_route, cmp_then.
  destruct (Z.compare_spec (uv y.1.1) (uv x.1.1)); [| by split; [left |] | by split; [| lia]].
  change ((uv (ip_u32 x.1.2) ?= uv (ip_u32 y.1.2)) <> Gt) with (uv (ip_u32 x.1.2) <= uv (ip_u32 y.1.2)).
  split; [by right | lia].
Qed.

#[global] Instance by_route_trans : Transitive (cmp_le by_route).
Proof. intros x y z. rewrite !by_route_le. lia. Qed.

#[global] Instance by_route_total : Total (cmp_le by_route).
Proof. intros x y. rewrite !by_route_le. lia. Qed.

(** The rows of a dump come out in one order whatever the listing. *)
Lemma sort_rows l1 l2 :
  (forall p a1 a2, (p, a1) ∈ l1 -> (p, a2) ∈ l1 -> a1 = a2) -> l1 ≡ₚ l2 ->
  sort_by by_route (row <$> l1) = sort_by by_route (row <$> l2).
Proof.
  intros Hu Hp. apply sort_by_unique; [apply _ | apply _ | | by rewrite Hp].
  intros x y ([p1 a1] & -> & H1)%list_elem_of_fmap ([p2 a2] & -> & H2)%list_elem_of_fmap.
  rewrite !by_route_le. unfold row. cbn [fst snd]. rewrite !ip_u32_prefix_addr. intros L1 L2.
  assert (p1 = p2) as ->.
  { destruct p1 as [b1 l1'], p2 as [b2 l2']. cbn in *. f_equal; apply uint_eq; lia. }
  by rewrite (Hu p2 a1 a2 H1 H2).
Qed.

Lemma dump_abs t p :
  Lpm.wf (current (ipv4_lpm p)) -> dump t p = table_dump t (abs (current (ipv4_lpm p))).
Proof.
  intros Hw. unfold dump. cbn. destruct (find_schema SCHEMAS t); [| done]. cbn [rbind].
  do 2 f_equal. unfold load. apply sort_rows; [| by apply Lpm.iter_routes].
  intros q a1 a2. rewrite (Lpm.iter_routes _ Hw). intros H1%elem_of_map_to_list H2%elem_of_map_to_list.
  congruence.
Qed.

Lemma l3_sim_publish {R} (f : Routes -> Routes * R) n p e s :
  Z.of_nat n < 2 ^ 64 -> sim n (p, e) (s, tt) ->
  Lpm.wf (f (current (ipv4_lpm p))).1 ->
  sim (S n) ((publish f p).1, e) (abs (f (current (ipv4_lpm p))).1, tt) /\
  (publish f p).2 = (f (current (ipv4_lpm p))).2.
Proof.
  intros Hn (Hv & Hw & Hs) Hw'. cbn in *. pose proof (view_update f n _ _ Hn Hv) as Hv'.
  unfold publish, sim. unfold update in *. destruct (f (current (ipv4_lpm p))) as [t r]. cbn in *.
  done.
Qed.

Lemma lpm_ipv4_Ok s k p :
  lpm_ipv4 s k = Ok p <-> exists addr len, k = KeyLpm (ValIpv4 addr) len /\ prefix_new addr len = Some p.
Proof.
  unfold lpm_ipv4. split.
  - destruct k as [v | v l]; [done |]. destruct v as [| | | | addr]; try done.
    destruct (prefix_new addr l) as [q |] eqn:E; cbn; [| done]. intros [= ->]. eauto.
  - intros (addr & len & -> & ->). done.
Qed.

(** A frame gets the specification's verdict and bytes, and no index is used up. *)
Lemma l3_sim_frame n p e s f :
  Z.of_nat n < 2 ^ 64 -> sim n (p, e) (s, tt) ->
  (process p f e).1.2 = (process s f tt).1.2 /\ (process p f e).2 = (process s f tt).2 /\
  sim n (p, (process p f e).1.1) (s, (process s f tt).1.1).
Proof.
  intros Hn Hsim. pose proof Hsim as (Hv & Hw & Hs). cbn in Hv, Hw, Hs. cbn [process L3_Engine Spec_Engine].
  unfold l3_process, routable. destruct (eth_parse (frame f)) as [eth |]; cbn; [| done].
  case_bool_decide as Het; cbn.
  2:{ destruct (ip_parse _ _); [rewrite decide_False by tauto |]; done. }
  destruct (ip_parse (frame f) ETH_HDR_LEN) as [ip |]; cbn; [| done].
  destruct (Z.eqb_spec (uv (ip_ttl ip)) 0) as [Ht | Ht].
  { by rewrite decide_False by tauto. }
  rewrite decide_True by done. destruct (view_get n _ _ Hn Hv) as [Hc Hv']. rewrite Hc, Hs.
  rewrite Lpm.apply_longest by done. cbn [abs routes miss].
  by destruct (default _ _).
Qed.

Lemma l3_sim_step n s1 s2 r :
  Z.of_nat n < 2 ^ 64 -> sim n s1 s2 ->
  (serve r s1).2 = (serve r s2).2 /\
  exists n', (n' <= S n)%nat /\ sim n' (serve r s1).1 (serve r s2).1.
Proof.
  intros Hn Hsim. destruct s1 as [p e], s2 as [s []]. pose proof Hsim as (Hv & Hw & Hs).
  cbn in Hv, Hw, Hs.
  destruct r as [t k a ps | t k | t a ps | t | t | t | f]; cbn [serve table_add table_remove
    table_set_default table_clear table_default process L3_TableOps L3_Engine Spec_TableOps Spec_Engine].
  - unfold add, try_op. destruct (find_schema SCHEMAS t) as [sch |]; cbn [rbind]; [| by eauto].
    destruct (lpm_ipv4 sch k) as [q |] eqn:Eq; cbn [rbind]; [| by eauto].
    destruct (from_call sch a ps) as [act |]; cbn [rbind]; [| by eauto].
    apply lpm_ipv4_Ok in Eq as (addr & len & _ & Hq%prefix_new_wf).
    destruct (Lpm.insert_spec q act _ Hw Hq) as (W & Rr & _ & Dd).
    destruct (l3_sim_publish (fun t => ((Lpm.insert q act t).1, tt)) n p e s Hn Hsim W) as [H _].
    destruct (publish _ p) as [p' r']. cbn in *. split; [done |]. subst s.
    unfold abs in H. rewrite Rr, Dd in H. eauto.
  - unfold remove, try_op. destruct (find_schema SCHEMAS t) as [sch |] eqn:Ef; cbn [rbind]; [| by eauto].
    apply find_schema_name in Ef. destruct (lpm_ipv4 sch k) as [q |] eqn:Eq; cbn [rbind]; [| by eauto].
    destruct (Lpm.remove_spec q _ Hw) as (W & Rr & Fl & Dd).
    destruct (l3_sim_publish (Lpm.remove q) n p e s Hn Hsim W) as [H Hr].
    destruct (publish _ p) as [p' r']. cbn in H, Hr. rewrite Fl in Hr. subst r' s. rewrite Ef.
    unfold abs in H. rewrite Rr, Dd in H. cbn [abs routes].
    destruct (Lpm.routes (current (ipv4_lpm p)) !! q) eqn:El; cbn; [by eauto |].
    split; [done |]. exists (S n). split; [done |]. by rewrite delete_id in H.
  - unfold set_default, try_op. destruct (find_schema SCHEMAS t) as [sch |]; cbn [rbind]; [| by eauto].
    destruct (from_call sch a ps) as [act |]; cbn [rbind]; [| by eauto].
    destruct (l3_sim_publish (fun t => (Lpm.set_default act t, tt)) n p e s Hn Hsim Hw) as [H _].
    destruct (publish _ p) as [p' r']. cbn in *. split; [done |]. subst s. eauto.
  - unfold clear, try_op. destruct (find_schema SCHEMAS t) as [sch |]; cbn [rbind]; [| by eauto].
    destruct (l3_sim_publish Lpm.clear n p e s Hn Hsim (proj1 (Lpm.clear_spec _))) as [H Hr].
    destruct (publish _ p) as [p' r']. cbn in *. subst r' s. cbn. rewrite Lpm.len_routes by done.
    split; [done |]. eauto.
  - split; [| by eauto]. cbn [snd]. f_equal. rewrite Hs. by apply dump_abs.
  - split; [| by eauto]. unfold default_entry. by rewrite Hs.
  - destruct (l3_sim_frame n p e s f Hn Hsim) as (H1 & H2 & H3). cbn in H1, H2, H3.
    destruct (l3_process p f e) as [[e' g] v]. cbn in H1, H2, H3 |- *.
    destruct (match routable (frame f) with Some _ => _ | None => _ end) as [[[] g2] v2]. cbn in *. subst g2 v2.
    split; [done |]. exists n. split; [lia | done].
Qed.

(** ** The laws of the control-plane interface *)

Lemma l3_schema_lpm_key s : s ∈ SCHEMAS -> table_key s = KindLpm KindIpv4.
Proof. by intros [-> | ?%not_elem_of_nil]%elem_of_cons. Qed.

Lemma l3_from_call_check s a ps act : from_call s a ps = Ok act -> is_ok (check s a ps) = true.
Proof. unfold from_call. by intros (sig & -> & _)%rbind_Ok_inv. Qed.

(** The invariant of the shared state: the published table is well formed. *)
Definition l3_inv (p : L3Fwd) : Prop := Lpm.wf (current (ipv4_lpm p)).

#[global] Instance L3_TableLaws : TableLaws L3Fwd l3_inv.
Proof.
  split; cbn; try done; unfold add, remove, set_default, clear, try_op, l3_inv.
  - intros t k a ps s Hw. destruct (find_schema _ _); [| done].
    destruct (lpm_ipv4 _ _) as [q |] eqn:Eq; [| done]. destruct (from_call _ _ _); [| done].
    apply lpm_ipv4_Ok in Eq as (addr & len & _ & Hq%prefix_new_wf). cbn. by apply Lpm.insert_spec.
  - intros t k s Hw. destruct (find_schema _ _); [| done]. destruct (lpm_ipv4 _ _) as [q |]; [| done].
    unfold publish, update. pose proof (Lpm.remove_spec q (current (ipv4_lpm s)) Hw) as (W & _).
    by destruct (Lpm.remove q _).
  - intros t a ps s Hw. destruct (find_schema _ _); [| done]. by destruct (from_call _ _ _).
  - intros t s Hw. destruct (find_schema _ _); [| done]. apply Lpm.clear_spec.
  - intros t k a ps s s' e _. destruct (find_schema _ _); [| by intros [= -> _]].
    destruct (lpm_ipv4 _ _); [| by intros [= -> _]]. by destruct (from_call _ _ _); [| intros [= -> _]].
  - intros t k s s' e Hw. destruct (find_schema _ _); [| by intros [= -> _]].
    destruct (lpm_ipv4 _ _) as [q |]; [| by intros [= -> _]]. unfold publish, update.
    destruct (Lpm.remove q _) as [t' []] eqn:E; [done |]. intros [= <- _].
    pose proof (Lpm.remove_miss q (current (ipv4_lpm s)) Hw) as Hm. rewrite E in Hm.
    specialize (Hm eq_refl). cbn in Hm. subst t'. by split.
  - intros t a ps s s' e _. destruct (find_schema _ _); [| by intros [= -> _]].
    by destruct (from_call _ _ _); [| intros [= -> _]].
  - intros t s s' e _. by destruct (find_schema _ _); [| intros [= -> _]].
  - intros t k a ps s s'. destruct (find_schema _ _) as [sch |] eqn:E; [| done].
    destruct (lpm_ipv4 _ _) as [q |] eqn:Ek; [| done].
    destruct (from_call _ _ _) eqn:Ec; [| done]. intros _. exists sch. split; [done |].
    apply lpm_ipv4_Ok in Ek as (addr & len & -> & _). split; [| by eapply l3_from_call_check].
    apply check_key_Ok. cbn. by rewrite (l3_schema_lpm_key sch) by by eapply find_schema_in.
  - intros t a ps s s'. destruct (find_schema _ _) as [sch |] eqn:E; [| done].
    destruct (from_call _ _ _) eqn:Ec; [| done]. intros _. exists sch.
    split; [done |]. by eapply l3_from_call_check.
  - intros t s s' n. unfold dump. destruct (find_schema _ _); [| done]. by intros [= <- <-].
  - intros t s s' n l _. unfold dump. destruct (find_schema _ _); [| done]. cbn.
    intros [= <- <-] [= <-]. rewrite length_fmap. unfold sort_by.
    rewrite merge_sort_Permutation, length_fmap. apply Lpm.len_iter.
Qed.

(** ** The bytes of a forwarded frame *)

Lemma rewrite_bytes fr ip dmac i :
  ip_parse fr ETH_HDR_LEN = Some ip ->
  rewrite ip dmac fr !! i =
    if inner_checksum fr i then Some (U8 0)
    else if decide (i < 6)%nat then octets dmac !! i
    else if decide (i = 22)%nat then Some (U8 (uv (ip_ttl ip) - 1))
    else fr !! i.
Proof.
  intros Hip. unfold rewrite. pose proof (ip_parse_inv _ _ _ Hip) as ((Hc & _) & Ho & _).
  unfold ETH_HDR_LEN, IPV4_MIN_HDR_LEN in Hc, Ho.
  set (t := U8 (uv (ip_ttl ip) - 1)). pose proof (ip_parse_set_ttl _ _ _ t Hip) as Hip1.
  assert (ip_parse (set_dst (set_ttl ip fr t) dmac) ETH_HDR_LEN = Some (with_ttl ip t)) as Hip2
    by (rewrite ip_parse_set_dst; [done | unfold ETH_HDR_LEN; lia]).
  rewrite lookup_zero_inner. rewrite (inner_checksum_parse _ fr).
  - destruct (inner_checksum fr i); [done |].
    rewrite lookup_set_dst by (rewrite length_set_ttl; unfold ETH_HDR_LEN; lia).
    case_decide; [done |]. unfold set_ttl. rewrite Ho. case_decide as E.
    + rewrite E. apply list_lookup_insert_eq. lia.
    + apply list_lookup_insert_ne. lia.
  - by rewrite length_set_dst, length_set_ttl.
  - rewrite ethertype_set_dst, eth_parse_set_ttl; [done | lia].
  - by rewrite Hip, Hip2.
  - by rewrite Hip, Hip2.
Qed.

Lemma routable_Some fr ip :
  routable fr = Some ip ->
  ip_parse fr ETH_HDR_LEN = Some ip /\ uv (ip_ttl ip) <> 0 /\
  exists eth, eth_parse fr = Some eth /\ ethertype eth = ETHERTYPE_IPV4.
Proof.
  unfold routable. destruct (eth_parse fr) as [eth |]; [| done].
  destruct (ip_parse fr ETH_HDR_LEN) as [ip' |]; [| done].
  case_decide as D; [| done]. intros [= <-]. destruct D. eauto.
Qed.

End L3.

(** ** Properties *)

(** C3: the native l3fwd, from load, answers every sequence of control-plane
    requests and frames (fewer than 2^64 of them) exactly as the router
    specification on a finite map of canonical prefixes does: the same
    verdicts, the same bytes, the same dumps and the same errors. *)
Theorem l3_refines_spec params (rs : list Request) :
  Z.of_nat (length rs) < 2 ^ 64 ->
  serve_all rs (L3.new params, engine (L3.new params)) = serve_all rs (L3.spec_new, tt).
Proof.
  intros Hb. apply (serve_all_sim L3.sim (length rs) (fun _ => True)) with (n := 0%nat).
  - intros n s1 s2 r HR Hn _. apply L3.l3_sim_step; [lia | done].
  - split; [apply view_new | split; [apply Lpm.wf_new | done]].
  - lia.
  - by apply Forall_true.
Qed.

Lemma l3_refines_spec_witness :
  let dmac := Mac (U8 2) (U8 0) (U8 0) (U8 0) (U8 0) (U8 1) in
  let key n len := KeyLpm (ValIpv4 (Ipv4 (U8 10) (U8 0) (U8 0) (U8 n))) (U8 len) in
  let rs := [RAdd "ipv4_lpm" (key 5 24) "forward" [ValU16 (U16 1); ValMac dmac];
             RAdd "ipv4_lpm" (key 0 24) "punt" []; RDump "ipv4_lpm"; RRemove "ipv4_lpm" (key 0 25)] in
  serve_all rs (L3.new {| vports := [] |}, engine (L3.new {| vports := [] |}))
    = serve_all rs (L3.spec_new, tt) /\
  serve_all rs (L3.spec_new, tt) =
    [RUnit (Ok tt); RUnit (Ok tt); RDumped (Ok [L3.describe L3.APunt "10.0.0.0/24"]);
     RUnit (Err (NotFound "ipv4_lpm" "10.0.0.0/25"))].
Proof. split; [apply l3_refines_spec; cbn; lia | vm_compute; reflexivity]. Defined.

(** C14: what routing does to a frame, byte by byte.  A forwarded frame was a
    coherent IPv4 frame with a TTL above zero; in it the destination address is
    the route's, the TTL is one less (it cannot wrap), the inner checksums are
    zero, and every other byte is the one that arrived.  A frame that is not
    forwarded leaves as it came, and one that is not routable is dropped
    without the table being read. *)
Theorem l3_frame_bytes (p : L3.L3Fwd) (e : L3.L3Engine) f :
  ok f ->
  let '(e', g, v) := process p f e in
  match v with
  | Forward port => exists ip dmac,
      L3.routable (frame f) = Some ip /\ 1 <= uv (ip_ttl ip) /\
      Lpm.apply (c_value (L3.cached e')) (ip_dst ip) = L3.AForward port dmac /\
      length (frame g) = length (frame f) /\
      (forall i b, frame g !! i = Some b ->
         if inner_checksum (frame f) i then uv b = 0
         else if decide (i < 6)%nat then octets dmac !! i = Some b
         else if decide (i = 22)%nat then uv b = uv (ip_ttl ip) - 1
         else frame f !! i = Some b)
  | Broadcast => False
  | _ => g = f /\ (L3.routable (frame f) = None -> v = Drop /\ e' = e)
  end.
Proof.
  intros Ho. cbn. unfold L3.l3_process, L3.routable.
  destruct (eth_parse (frame f)) as [eth |] eqn:Eeth; [| done].
  case_bool_decide as Het; cbn [negb]; [| done].
  destruct (ip_parse (frame f) ETH_HDR_LEN) as [ip |] eqn:Eip; [| done].
  destruct (Z.eqb_spec (uv (ip_ttl ip)) 0) as [Ht | Ht]; [done |].
  rewrite decide_True by done.
  destruct (Lpm.apply _ _) as [port dmac | |] eqn:Ea; [| done | done].
  pose proof (uint_range (ip_ttl ip)) as Hr. change (Z.of_N 8) with 8 in Hr.
  destruct (frame_mut_ok (L3.rewrite ip dmac) f Ho) as (_ & _ & Hf).
  { rewrite L3.length_rewrite. by apply length_frame. }
  exists ip, dmac. split; [done |]. split; [lia |]. split; [done |]. rewrite Hf.
  split; [apply L3.length_rewrite |]. intros i b. rewrite (L3.rewrite_bytes _ _ _ _ Eip).
  destruct (inner_checksum _ i); [by intros [= <-] |]. case_decide; [done |].
  case_decide; [| done]. intros [= <-]. apply uv_of_small. change (Z.of_N 8) with 8. lia.
Qed.

Lemma l3_frame_bytes_witness :
  let f := {| buf := replicate 64 (U8 0); headroom := 0; len := 64;
              ingress_vport := U16 0; rx_ts_us := U32 0 |} in
  let p := L3.new {| vports := [] |} in
  let '(e', g, v) := process p f (engine p) in
  match v with
  | Forward _ | Broadcast => False
  | _ => g = f /\ (L3.routable (frame f) = None -> v = Drop /\ e' = engine p)
  end.
Proof.
  apply (l3_frame_bytes (L3.new {| vports := [] |}) (engine (L3.new {| vports := [] |}))
    {| buf := replicate 64 (U8 0); headroom := 0; len := 64;
       ingress_vport := U16 0; rx_ts_us := U32 0 |}).
  unfold ok. vm_compute. lia.
Defined.
