(* ===== verification/P4.v ===== *)
(** * The P4 programs of record (p4/programs/*/*.softnpu.p4)

    The two shipped programs as their P4 sources have them: a parser that
    rejects when [extract] runs out of bytes and for no other reason, the
    ingress control on header fields of their declared widths, and a deparser
    that emits the headers in front of the unparsed payload.  With up4's
    envelope around them they compute what the native renderings compute. *)

From S2P Require Import Prelude Bytes Text Value Shim Table Publish Frame Headers Engine Catalog Programs L2Fwd L3Fwd.

Local Open Scope Z_scope.

(** The reserved egress ports, as the sources and both adapters write them. *)
Definition PUNT_PORT : u16 := U16 65535.
Definition BROADCAST_PORT : u16 := U16 65534.

(** [egress_metadata_t], the fields the programs write. *)
Record egress_metadata := { eg_port : u16; eg_broadcast : bool; eg_drop : bool }.

Definition egress_init : egress_metadata := {| eg_port := U16 0; eg_broadcast := false; eg_drop := false |}.

(** The verdict mapping the sources state: drop, broadcast, the reserved punt
    port, any other port. *)
Definition verdict_of (eg : egress_metadata) : Verdict :=
  if eg_drop eg then Drop
  else if eg_broadcast eg then Broadcast
  else if decide (eg_port eg = PUNT_PORT) then Punt
  else Forward (eg_port eg).

(** ** Headers *)

Record ethernet_h := { h_dst : MacAddr; h_src : MacAddr; h_ether_type : u16 }.

Record ipv4_h := {
  h_version : uint 4;
  h_ihl : uint 4;
  h_diffserv : byte;
  h_total_len : u16;
  h_identification : u16;
  h_flags : uint 3;
  h_frag_offset : uint 13;
  h_ttl : byte;
  h_protocol : byte;
  h_hdr_checksum : u16;
  h_saddr : u32;
  h_daddr : u32;
}.

(** [pkt.extract]: the header and the rest of the packet, or a parser error. *)
Definition extract_ethernet (pkt : bytes) : option (ethernet_h * bytes) :=
  b ← first_chunk 14 pkt;
  Some ({| h_dst := mac_of (slice 0 6 b); h_src := mac_of (slice 6 12 b);
           h_ether_type := be_u16 (slice 12 14 b) |}, drop 14 pkt).

Definition extract_ipv4 (pkt : bytes) : option (ipv4_h * bytes) :=
  b ← first_chunk 20 pkt;
  Some ({|
    h_version := u_of 4 (Z.shiftr (uv (byte_at b 0)) 4);
    h_ihl := u_of 4 (uv (byte_at b 0));
    h_diffserv := byte_at b 1;
    h_total_len := be_u16 (slice 2 4 b);
    h_identification := be_u16 (slice 4 6 b);
    h_flags := u_of 3 (Z.shiftr (uv (byte_at b 6)) 5);
    h_frag_offset := u_of 13 (uv (be_u16 (slice 6 8 b)));
    h_ttl := byte_at b 8;
    h_protocol := byte_at b 9;
    h_hdr_checksum := be_u16 (slice 10 12 b);
    h_saddr := be_u32 (slice 12 16 b);
    h_daddr := be_u32 (slice 16 20 b);
  |}, drop 20 pkt).

(** The deparser's [emit]. *)
Definition emit_ethernet (h : ethernet_h) : bytes :=
  octets (h_dst h) ++ octets (h_src h) ++ u16_be (h_ether_type h).

Definition emit_ipv4 (h : ipv4_h) : bytes :=
  [U8 (uv (h_version h) * 16 + uv (h_ihl h)); h_diffserv h] ++ u16_be (h_total_len h) ++
  u16_be (h_identification h) ++ u16_be (U16 (uv (h_flags h) * 8192 + uv (h_frag_offset h))) ++
  [h_ttl h; h_protocol h] ++ u16_be (h_hdr_checksum h) ++ u32_be (h_saddr h) ++ u32_be (h_daddr h).

(** ** l2fwd *)

(** [table mac_dst], with its entries and its default, is [L2.Spec]. *)
Definition l2_ingress (s : L2.Spec) (hdr : ethernet_h) (eg : egress_metadata) : egress_metadata :=
  match default (L2.miss s) (L2.fdb s !! h_dst hdr) with
  | L2.AForward port => {| eg_port := port; eg_broadcast := eg_broadcast eg; eg_drop := eg_drop eg |}
  | L2.ABroadcast => {| eg_port := eg_port eg; eg_broadcast := true; eg_drop := eg_drop eg |}
  | L2.ADrop => {| eg_port := eg_port eg; eg_broadcast := eg_broadcast eg; eg_drop := true |}
  end.

(** The program on a packet: its verdict and the packet the deparser emits. *)
Definition l2_program (s : L2.Spec) (pkt : bytes) : Verdict * bytes :=
  match extract_ethernet pkt with
  | None => (Drop, pkt)
  | Some (eth, payload) =>
      (verdict_of (l2_ingress s eth egress_init), emit_ethernet eth ++ payload)
  end.

(** ** l3fwd *)

Definition l3_ingress (s : L3.Spec) (eth : ethernet_h) (ip : ipv4_h) (eg : egress_metadata)
    : ethernet_h * ipv4_h * egress_metadata :=
  let dropped := {| eg_port := eg_port eg; eg_broadcast := eg_broadcast eg; eg_drop := true |} in
  if negb (bool_decide (h_ether_type eth = U16 2048)) then (eth, ip, dropped)
  else if bool_decide (h_ttl ip = U8 0) then (eth, ip, dropped)
  else
    match default (L3.miss s) (Lpm.longest (L3.routes s) (h_daddr ip) 32) with
    | L3.AForward port dmac =>
        ({| h_dst := dmac; h_src := h_src eth; h_ether_type := h_ether_type eth |},
         {| h_version := h_version ip; h_ihl := h_ihl ip; h_diffserv := h_diffserv ip;
            h_total_len := h_total_len ip; h_identification := h_identification ip;
            h_flags := h_flags ip; h_frag_offset := h_frag_offset ip;
            h_ttl := U8 (uv (h_ttl ip) - 1); h_protocol := h_protocol ip;
            h_hdr_checksum := U16 0; h_saddr := h_saddr ip; h_daddr := h_daddr ip |},
         {| eg_port := port; eg_broadcast := eg_broadcast eg; eg_drop := eg_drop eg |})
    | L3.APunt =>
        (eth, ip, {| eg_port := PUNT_PORT; eg_broadcast := eg_broadcast eg; eg_drop := eg_drop eg |})
    | L3.ADrop => (eth, ip, dropped)
    end.

Definition l3_program (s : L3.Spec) (pkt : bytes) : Verdict * bytes :=
  match extract_ethernet pkt with
  | None => (Drop, pkt)
  | Some (eth, rest) =>
      match extract_ipv4 rest with
      | None => (Drop, pkt)
      | Some (ip, payload) =>
          let '(eth, ip, eg) := l3_ingress s eth ip egress_init in
          (verdict_of eg, emit_ethernet eth ++ emit_ipv4 ip ++ payload)
      end
  end.

(** ** A program as an engine

    The bytes the deparser emitted go back into the frame when it is going
    out; a dropped or punted frame is left as it came, as both adapters do. *)


Definition run_frame {S} (prog : S -> bytes -> Verdict * bytes) (s : S) (f : FrameCtx)
    : FrameCtx * Verdict :=
  let '(v, out) := prog s (frame f) in
  match v with
  | Forward _ | Broadcast => (frame_mut (fun _ => out) f, v)
  | _ => (f, v)
  end.

(** up4's composition [admit ; p4 ; scrub] over a program. *)
Definition up4_frame {S} (env : Envelope) (prog : S -> bytes -> Verdict * bytes) (s : S) (f : FrameCtx)
    : FrameCtx * Verdict :=
  if admits (env_admit env) (frame f) then
    let '(f, v) := run_frame prog s f in
    match v with
    | Forward _ | Broadcast => (frame_mut (scrub_apply (scrub env)) f, v)
    | _ => (f, v)
    end
  else (f, Drop).

(** ** Emitting what was extracted *)

Lemma slice_app {A} a b c (l : list A) : (a <= b <= c)%nat -> slice a b l ++ slice b c l = slice a c l.
Proof.
  intros H. unfold slice. replace (c - a)%nat with ((b - a) + (c - b))%nat by lia.
  rewrite <- take_take_drop, drop_drop. by replace (a + (b - a))%nat with b by lia.
Qed.

Lemma slice_one l i : (i < length l)%nat -> slice i (S i) l = [byte_at l i].
Proof.
  intros H. apply lookup_lt_is_Some_2 in H as [x Hx]. unfold slice.
  rewrite (drop_S l x i Hx), (byte_at_lookup _ _ _ Hx). by replace (S i - i)%nat with 1%nat by lia.
Qed.

Lemma slice_two l i : (S i < length l)%nat -> slice i (S (S i)) l = [byte_at l i; byte_at l (S i)].
Proof. intros H. rewrite <- (slice_app i (S i)) by lia. by rewrite !slice_one by lia. Qed.

Lemma slice_take {A} a b n (l : list A) : (b <= n)%nat -> slice a b (take n l) = slice a b l.
Proof.
  intros H. unfold slice. rewrite skipn_firstn_comm, take_take. f_equal. lia.
Qed.

Lemma slice_drop {A} a b n (l : list A) : slice a b (drop n l) = slice (n + a) (n + b) l.
Proof. unfold slice. rewrite drop_drop. f_equal. lia. Qed.

Lemma slice_full {A} b (l : list A) : length l = b -> slice 0 b l = l.
Proof. intros <-. unfold slice. rewrite Nat.sub_0_r. apply firstn_all. Qed.

Lemma be_val_two a b : be_val [a; b] = uv a * 256 + uv b.
Proof. unfold be_val. change (reverse [a; b]) with [b; a]. cbn [le_val]. lia. Qed.

(** The Ethernet header, with the destination the control left in it. *)
Lemma emit_extract_ethernet pkt eth rest dst :
  extract_ethernet pkt = Some (eth, rest) ->
  (14 <= length pkt)%nat /\ rest = drop 14 pkt /\
  h_dst eth = mac_of (slice 0 6 pkt) /\ h_ether_type eth = be_u16 (slice 12 14 pkt) /\
  emit_ethernet {| h_dst := dst; h_src := h_src eth; h_ether_type := h_ether_type eth |} =
    octets dst ++ slice 6 14 pkt.
Proof.
  unfold extract_ethernet. intros (b & (Hl & ->)%first_chunk_Some & [= <- <-])%bind_Some.
  rewrite !slice_take by lia. split; [done |]. split; [done |].
  cbn [h_dst h_src h_ether_type]. split; [done |]. split; [done |].
  unfold emit_ethernet. cbn [h_dst h_src h_ether_type].
  rewrite octets_mac_of, u16_be_be_u16 by (rewrite length_slice; lia).
  by rewrite slice_app by lia.
Qed.

(** The IPv4 header, with the TTL and the checksum the control left in it. *)
Lemma emit_extract_ipv4 pkt ip rest ttl cks :
  extract_ipv4 pkt = Some (ip, rest) ->
  (20 <= length pkt)%nat /\ rest = drop 20 pkt /\
  h_ttl ip = byte_at pkt 8 /\ h_daddr ip = be_u32 (slice 16 20 pkt) /\
  emit_ipv4 {|
    h_version := h_version ip; h_ihl := h_ihl ip; h_diffserv := h_diffserv ip;
    h_total_len := h_total_len ip; h_identification := h_identification ip;
    h_flags := h_flags ip; h_frag_offset := h_frag_offset ip; h_ttl := ttl;
    h_protocol := h_protocol ip; h_hdr_checksum := cks; h_saddr := h_saddr ip; h_daddr := h_daddr ip |} =
    slice 0 8 pkt ++ [ttl] ++ slice 9 10 pkt ++ u16_be cks ++ slice 12 20 pkt.
Proof.
  unfold extract_ipv4. intros (b & (Hl & ->)%first_chunk_Some & [= <- <-])%bind_Some.
  split; [done |]. split; [done |]. cbn [h_ttl h_daddr h_version h_ihl h_diffserv h_total_len
    h_identification h_flags h_frag_offset h_protocol h_hdr_checksum h_saddr].
  rewrite !slice_take, !byte_at_take by lia. split; [done |]. split; [done |].
  unfold emit_ipv4. cbn [h_ttl h_daddr h_version h_ihl h_diffserv h_total_len
    h_identification h_flags h_frag_offset h_protocol h_hdr_checksum h_saddr].
  assert (U8 (uv (u_of 4 (Z.shiftr (uv (byte_at pkt 0)) 4)) * 16 + uv (u_of 4 (uv (byte_at pkt 0))))
          = byte_at pkt 0) as ->.
  { apply uint_eq. rewrite !uv_of, Z.shiftr_div_pow2 by lia. pose proof (uint_range (byte_at pkt 0)).
    change (Z.of_N 4) with 4. change (2 ^ 4) with 16. word_lia. }
  assert (u16_be (U16 (uv (u_of 3 (Z.shiftr (uv (byte_at pkt 6)) 5)) * 8192 +
            uv (u_of 13 (uv (be_u16 (slice 6 8 pkt)))))) = slice 6 8 pkt) as ->.
  { rewrite slice_two by lia.
    transitivity (u16_be (be_u16 [byte_at pkt 6; byte_at pkt 7])); [| by apply u16_be_be_u16].
    f_equal. apply uint_eq. unfold be_u16. rewrite be_val_two.
    pose proof (uint_range (byte_at pkt 6)). pose proof (uint_range (byte_at pkt 7)).
    rewrite !uv_of, Z.shiftr_div_pow2 by lia. change (Z.of_N 3) with 3. change (Z.of_N 13) with 13.
    change (2 ^ 3) with 8. change (2 ^ 13) with 8192. change (2 ^ 5) with 32. word_lia. }
  rewrite !u16_be_be_u16, !u32_be_be_u32 by (rewrite length_slice; lia).
  change [byte_at pkt 0; byte_at pkt 1] with ([byte_at pkt 0] ++ [byte_at pkt 1]).
  change [ttl; byte_at pkt 9] with ([ttl] ++ [byte_at pkt 9]).
  rewrite <- !slice_one by lia. rewrite <- !(assoc_L (++)).
  rewrite !(assoc_L (++) (slice 0 1 pkt)), slice_app by lia.
  rewrite !(assoc_L (++) (slice 0 2 pkt)), slice_app by lia.
  rewrite !(assoc_L (++) (slice 0 4 pkt)), slice_app by lia.
  rewrite !(assoc_L (++) (slice 0 6 pkt)), slice_app by lia.
  by rewrite (slice_app 12 16 20) by lia.
Qed.

(** ** The parsers agree *)

Lemma slice_lookup_byte a b l i : (i < b - a)%nat -> byte_at (slice a b l) i = byte_at l (a + i).
Proof. intros H. unfold byte_at. by rewrite !list_lookup_total_alt, slice_lookup. Qed.

Lemma extract_ethernet_parse pkt :
  match extract_ethernet pkt with
  | None => eth_parse pkt = None
  | Some (h, _) =>
      eth_parse pkt = Some {| eth_dst := h_dst h; eth_src := h_src h; ethertype := h_ether_type h |}
  end.
Proof.
  unfold extract_ethernet, first_chunk. rewrite eth_parse_unfold. unfold ETH_HDR_LEN.
  case_decide as H; [| done]. cbn [mbind option_bind]. cbn [h_dst h_src h_ether_type].
  rewrite !slice_take by lia. rewrite (slice_two pkt 12) by lia.
  unfold mac_of. fold (byte_at (slice 0 6 pkt)). fold (byte_at (slice 6 12 pkt)).
  change (slice 0 6 pkt !!! ?i) with (byte_at (slice 0 6 pkt) i).
  change (slice 6 12 pkt !!! ?i) with (byte_at (slice 6 12 pkt) i).
  by rewrite !slice_lookup_byte by lia.
Qed.

(** The fields of the IPv4 header the control reads are those up4 reads. *)
Lemma ip_parse_fields pkt ip :
  ip_parse pkt ETH_HDR_LEN = Some ip ->
  (34 <= length pkt)%nat /\ ip_ttl ip = byte_at pkt 22 /\ ip_u32 (ip_dst ip) = be_u32 (slice 30 34 pkt).
Proof.
  rewrite ip_parse_unfold. case_decide as H; [| done]. intros [= <-].
  destruct H as (H & _). unfold ETH_HDR_LEN, IPV4_MIN_HDR_LEN in *. split; [lia |]. split; [done |].
  cbn [ip_dst]. rewrite <- (slice_app 30 32 34) by lia. by rewrite !slice_two by lia.
Qed.

(** The bytes a forwarded packet leaves the deparser with. *)
Lemma l3_emitted pkt eth rest ip payload dmac ttl :
  extract_ethernet pkt = Some (eth, rest) -> extract_ipv4 rest = Some (ip, payload) ->
  emit_ethernet {| h_dst := dmac; h_src := h_src eth; h_ether_type := h_ether_type eth |} ++
  emit_ipv4 {|
    h_version := h_version ip; h_ihl := h_ihl ip; h_diffserv := h_diffserv ip;
    h_total_len := h_total_len ip; h_identification := h_identification ip;
    h_flags := h_flags ip; h_frag_offset := h_frag_offset ip; h_ttl := ttl;
    h_protocol := h_protocol ip; h_hdr_checksum := U16 0; h_saddr := h_saddr ip;
    h_daddr := h_daddr ip |} ++ payload
  = zero_at (set_dst (<[22%nat := ttl]> pkt) dmac) 24.
Proof.
  intros He Hi. destruct (emit_extract_ethernet _ _ _ dmac He) as (H1 & -> & _ & _ & ->).
  destruct (emit_extract_ipv4 _ _ _ ttl (U16 0) Hi) as (H2 & -> & _ & _ & ->).
  rewrite length_drop in H2. rewrite !slice_drop, drop_drop. cbn [Nat.add].
  assert (u16_be (U16 0) = [U8 0; U8 0]) as -> by (vm_compute; reflexivity).
  unfold zero_at, set_dst, ETH_HDR_LEN. rewrite !length_insert.
  rewrite (decide_True (P := (14 <= _)%nat)) by done.
  rewrite length_inserts, length_insert, decide_True by lia.
  clear He Hi H1. do 34 (destruct pkt as [| ? pkt]; [cbn in H2; lia |]).
  destruct dmac. reflexivity.
Qed.

Lemma l2_emitted pkt eth rest :
  extract_ethernet pkt = Some (eth, rest) -> emit_ethernet eth ++ rest = pkt.
Proof.
  intros He. destruct (emit_extract_ethernet _ _ _ (h_dst eth) He) as (H1 & -> & Hd & _ & Hemit).
  destruct eth as [d s t]. cbn [h_dst h_src h_ether_type] in *. rewrite Hemit, Hd.
  rewrite octets_mac_of by (rewrite length_slice; lia). rewrite slice_app by lia.
  unfold slice. rewrite Nat.sub_0_r. apply take_drop.
Qed.

(** No installed action forwards to the reserved punt port. *)
Definition l2_unreserved (s : L2.Spec) : Prop :=
  forall port, (L2.miss s = L2.AForward port \/ exists mac, L2.fdb s !! mac = Some (L2.AForward port)) ->
    port <> PUNT_PORT.

Definition l3_unreserved (s : L3.Spec) : Prop :=
  forall port dmac,
    (L3.miss s = L3.AForward port dmac \/ exists p, L3.routes s !! p = Some (L3.AForward port dmac)) ->
    port <> PUNT_PORT.

Lemma longest_in {A} (m : gmap Ipv4Prefix A) key n a :
  Lpm.longest m key n = Some a -> exists p, m !! p = Some a.
Proof.
  induction n as [| n IH]; cbn [Lpm.longest]; destruct (m !! _) eqn:E; try done; intros H;
    simplify_eq; eauto.
Qed.

(** Scrubbing what the deparser emitted is the native rewrite. *)
Lemma rewrite_emitted fr eth ip dmac ttl :
  eth_parse fr = Some eth -> ethertype eth = ETHERTYPE_IPV4 ->
  ip_parse fr ETH_HDR_LEN = Some ip -> ttl = U8 (uv (ip_ttl ip) - 1) ->
  zero_inner_checksums (zero_at (set_dst (<[22%nat := ttl]> fr) dmac) 24) = L3.rewrite ip dmac fr.
Proof.
  intros Heth Het Hip Ht. pose proof (ip_parse_inv _ _ _ Hip) as ((H1 & _ & H3 & H4) & Ho & _).
  unfold L3.rewrite. rewrite <- Ht. unfold ETH_HDR_LEN, IPV4_MIN_HDR_LEN in H1.
  set (g := set_dst (set_ttl ip fr ttl) dmac).
  assert (set_dst (<[22%nat := ttl]> fr) dmac = g) as -> by (unfold g, set_ttl; by rewrite Ho).
  assert (ip_parse g ETH_HDR_LEN = Some (with_ttl ip ttl)) as Hg.
  { unfold g. rewrite ip_parse_set_dst by (unfold ETH_HDR_LEN; lia). by apply ip_parse_set_ttl. }
  assert (length (zero_at g 24) = length g) as Hl by apply length_zero_at.
  assert (eth_parse (zero_at g 24) = eth_parse g) as He.
  { apply eth_parse_agree; [done |]. intros i Hi. rewrite lookup_zero_at. by rewrite decide_False by lia. }
  assert (ip_parse (zero_at g 24) ETH_HDR_LEN = ip_parse g ETH_HDR_LEN) as Hz.
  { apply ip_parse_agree; [done |]. intros i Hi%ip_reads_range. rewrite lookup_zero_at.
    unfold ETH_HDR_LEN. by rewrite decide_False by lia. }
  apply list_eq. intros i. rewrite !lookup_zero_inner.
  rewrite (inner_checksum_parse (zero_at g 24) g i) by (done || by rewrite He || by rewrite Hz).
  destruct (inner_checksum g i) eqn:Ei; [done |]. rewrite lookup_zero_at. case_decide as D; [| done].
  exfalso. unfold inner_checksum in Ei. rewrite Hg in Ei.
  assert ((ethertype <$> eth_parse g) = Some ETHERTYPE_IPV4) as Hge.
  { unfold g. rewrite ethertype_set_dst, eth_parse_set_ttl, Heth; [by cbn; f_equal |].
    rewrite Ho. unfold ETH_HDR_LEN. lia. }
  destruct (eth_parse g) as [e |]; [| done]. injection Hge as Hge.
  rewrite (bool_decide_eq_true_2 _ Hge), (bool_decide_eq_true_2 (24 <= i < 26)%nat) in Ei by lia.
  done.
Qed.

(** The ingress check, the program and the scrub compute the specification. *)
Lemma l3_enveloped (s : L3.Spec) f :
  ok f -> l3_unreserved s ->
  process s f tt = (tt, (up4_frame (envelope PL3Fwd) l3_program s f).1,
                        (up4_frame (envelope PL3Fwd) l3_program s f).2).
Proof.
  intros Ho Hu. cbn [process L3.Spec_Engine]. unfold up4_frame, run_frame, L3.routable, l3_program.
  cbn [envelope env_admit scrub admits scrub_apply].
  pose proof (extract_ethernet_parse (frame f)) as Hx.
  destruct (extract_ethernet (frame f)) as [[eth rest] |] eqn:Ee; rewrite Hx; [| done].
  cbn [ethertype]. destruct (ip_parse (frame f) ETH_HDR_LEN) as [ip |] eqn:Eip.
  2:{ case_decide as D.
      - rewrite bool_decide_eq_false_2; [done |]. by intros [].
      - destruct (extract_ipv4 rest) as [[h pl] |]; [| done]. unfold l3_ingress.
        rewrite bool_decide_eq_false_2 by done. done. }
  rewrite bool_decide_eq_true_2 by eauto.
  destruct (decide (h_ether_type eth = ETHERTYPE_IPV4)) as [D | D].
  2:{ rewrite decide_False by tauto. destruct (extract_ipv4 rest) as [[h pl] |]; [| done].
      unfold l3_ingress. rewrite bool_decide_eq_false_2 by done. done. }
  pose proof (ip_parse_fields _ _ Eip) as (Hlen & Httl & Hdst).
  destruct (emit_extract_ethernet _ _ _ (h_dst eth) Ee) as (_ & Hrest & _).
  destruct (extract_ipv4 rest) as [[h pl] |] eqn:Ei.
  2:{ exfalso. unfold extract_ipv4 in Ei. destruct (first_chunk 20 rest) as [b |] eqn:Eb; [done |].
      apply first_chunk_None in Eb. rewrite Hrest, length_drop in Eb. lia. }
  destruct (emit_extract_ipv4 _ _ _ (U8 0) (U16 0) Ei) as (_ & _ & Ht & Hd & _).
  rewrite Hrest, byte_at_drop in Ht. rewrite Hrest, slice_drop in Hd. cbn [Nat.add] in Ht, Hd.
  unfold l3_ingress. change (U16 2048) with ETHERTYPE_IPV4.
  rewrite (bool_decide_eq_true_2 (h_ether_type eth = _)) by done. cbn [negb].
  rewrite Ht, <- Httl, Hd, <- Hdst.
  destruct (decide (uv (ip_ttl ip) = 0)) as [Hz | Hz].
  { rewrite decide_False by tauto.
    rewrite bool_decide_eq_true_2; [done | by apply uint_eq]. }
  rewrite decide_True by done.
  rewrite (bool_decide_eq_false_2 (ip_ttl ip = U8 0)) by (intros E; by rewrite E in Hz).
  destruct (default (L3.miss s) _) as [port dmac | |] eqn:Ea; [| done | done].
  assert (port <> PUNT_PORT) as Hport.
  { apply (Hu port dmac). destruct (Lpm.longest _ _ _) as [a |] eqn:El; cbn in Ea; [right | by left].
    subst a. by eapply longest_in. }
  unfold verdict_of. cbn [eg_drop eg_broadcast eg_port egress_init].
  rewrite (decide_False (P := port = PUNT_PORT)) by done.
  rewrite Hdst, <- Hd, (l3_emitted _ _ _ _ _ _ _ Ee Ei). cbn [fst snd]. f_equal. f_equal.
  rewrite frame_mut_compose; rewrite ?length_zero_inner, ?length_zero_at, ?length_set_dst,
    ?length_insert; try done; try by apply length_frame.
  apply frame_mut_ext. symmetry. by eapply rewrite_emitted.
Qed.

(** ** Properties *)

(** C5: the native l3fwd is the P4 program inside up4's envelope.  After any
    requests and frames from load, as long as no route or default in force
    forwards to the reserved punt port, the native router gives the next frame
    the verdict and the bytes that [admit ; p4 ; scrub] gives it, on the routes
    the requests leave. *)
Theorem l3_is_enveloped_p4 (params : PipelineParams) (rs : list Request) f :
  Z.of_nat (length rs) < 2 ^ 64 - 1 -> ok f ->
  let '(p, e) := serve_state rs (L3.new params, engine (L3.new params)) in
  let s := (serve_state rs (L3.spec_new, tt)).1 in
  l3_unreserved s ->
  let '(_, g, v) := L3.l3_process p f e in (g, v) = up4_frame (envelope PL3Fwd) l3_program s f.
Proof.
  intros Hn Ho. destruct (serve_state_sim L3.sim (length rs)) with (rs := rs) (n := 0%nat)
    (s1 := (L3.new params, engine (L3.new params))) (s2 := (L3.spec_new, tt)) as (n & Hle & Hs).
  - intros n s1 s2 r HR Hlt. apply (L3.l3_sim_step n s1 s2 r); [lia | done].
  - split; [apply view_new | split; [apply Lpm.wf_new | done]].
  - lia.
  - destruct (serve_state rs (L3.new params, _)) as [p e]. destruct (serve_state rs (L3.spec_new, tt)) as [s []]. cbn [fst].
    intros Hu. destruct (L3.l3_sim_frame n p e s f ltac:(lia) Hs) as (H1 & H2 & _).
    rewrite (l3_enveloped s f Ho Hu) in H1, H2. cbn [process L3.L3_Engine fst snd] in H1, H2.
    destruct (L3.l3_process p f e) as [[e' g] v]. cbn [fst snd] in H1, H2. subst g v. by destruct (up4_frame _ _ _ _).
Qed.

(** A route, and a packet it forwards. *)
Lemma l3_is_enveloped_p4_witness :
  let rs := [RAdd "ipv4_lpm" (KeyLpm (ValIpv4 (ip_of [U8 10; U8 0; U8 0; U8 0])) (U8 8)) "forward"
               [ValU16 (U16 1); ValMac (mac_of (replicate 6 (U8 2)))]] in
  let f := {| buf := replicate 12 (U8 0) ++ [U8 8; U8 0] ++
                [U8 69; U8 0; U8 0; U8 20; U8 0; U8 0; U8 0; U8 0; U8 64; U8 17; U8 0; U8 0] ++
                replicate 4 (U8 192) ++ [U8 10; U8 1; U8 2; U8 3] ++ replicate 26 (U8 0);
              headroom := 0; len := 60; ingress_vport := U16 0; rx_ts_us := U32 0 |} in
  let '(p, e) := serve_state rs (L3.new {| vports := [] |}, engine (L3.new {| vports := [] |})) in
  let s := (serve_state rs (L3.spec_new, tt)).1 in
  (let '(_, g, v) := L3.l3_process p f e in (g, v) = up4_frame (envelope PL3Fwd) l3_program s f) /\
  (up4_frame (envelope PL3Fwd) l3_program s f).2 = Forward (U16 1).
Proof.
  intros rs f. pose proof (l3_is_enveloped_p4 {| vports := [] |} rs f ltac:(cbn; lia) ltac:(unfold ok; vm_compute; lia)) as H.
  destruct (serve_state rs (L3.new _, _)) as [p e]. split; [apply H | vm_compute; reflexivity].
  intros port dmac [Hm | [q Hq]]; [done |].
  change (L3.routes _) with (<[Prefix (U32 167772160) (U8 8) := L3.AForward (U16 1) (mac_of (replicate 6 (U8 2)))]> (∅ : gmap Ipv4Prefix L3.Action)) in Hq.
  apply lookup_insert_Some in Hq as [[_ [= <- _]] | [_ Hq]]; [vm_compute; done | by rewrite lookup_empty in Hq].
Defined.

(** The native l2fwd is the P4 program, which needs no envelope: the same
    verdict for every frame, and a frame that goes out byte for byte as it
    came. *)
Theorem l2_is_p4 (s : L2.Spec) f :
  ok f -> l2_unreserved s ->
  process s f tt = (tt, (up4_frame (envelope PL2Fwd) l2_program s f).1,
                        (up4_frame (envelope PL2Fwd) l2_program s f).2).
Proof.
  intros Ho Hu. cbn [process L2.Spec_Engine]. unfold up4_frame, run_frame, l2_program.
  cbn [envelope IDENTITY env_admit scrub admits].
  pose proof (extract_ethernet_parse (frame f)) as Hx.
  destruct (extract_ethernet (frame f)) as [[eth rest] |] eqn:Ee; rewrite Hx; [| done].
  rewrite (l2_emitted _ _ _ Ee). cbn [eth_dst]. unfold l2_ingress.
  assert (frame_mut (scrub_apply Nothing) (frame_mut (fun _ => frame f) f) = f) as Hid.
  { change (scrub_apply Nothing) with (fun b : bytes => b).
    assert (frame_mut (fun _ => frame f) f = frame_mut (fun b => b) f) as -> by by apply frame_mut_ext.
    by rewrite !(frame_mut_id f). }
  destruct (default (L2.miss s) _) as [port | |] eqn:Ea; cbn [L2.verdict verdict_of eg_drop
    eg_broadcast eg_port egress_init]; [| by rewrite Hid | done].
  unfold verdict_of. cbn. rewrite decide_False; [by rewrite Hid |].
  apply Hu. destruct (L2.fdb s !! h_dst eth) as [a |] eqn:El; cbn in Ea; [right | by left].
  subst a. eauto.
Qed.

Lemma l2_is_p4_witness :
  let f := {| buf := replicate 64 (U8 0); headroom := 0; len := 64;
              ingress_vport := U16 0; rx_ts_us := U32 0 |} in
  process L2.spec_new f tt = (tt, (up4_frame (envelope PL2Fwd) l2_program L2.spec_new f).1,
                                  (up4_frame (envelope PL2Fwd) l2_program L2.spec_new f).2).
Proof.
  apply l2_is_p4.
  - unfold ok. vm_compute. lia.
  - intros port [? | [p Hp]]; [done |]. cbn in Hp. by rewrite lookup_empty in Hp.
Defined.

(** The hypothesis of the equivalence is needed.  The control plane may
    install [forward] to port 65535, which the P4 sources reserve: on such a
    route the native program forwards, the P4 program (and with it the
    compiled backends) punts to the control channel. *)
Theorem reserved_port_diverges (s : L2.Spec) f :
  ok f -> is_Some (eth_parse (frame f)) ->
  L2.miss s = L2.AForward PUNT_PORT -> L2.fdb s = ∅ ->
  (process s f tt).2 = Forward PUNT_PORT /\
  (up4_frame (envelope PL2Fwd) l2_program s f).2 = Punt.
Proof.
  intros Ho [e He] Hm Hf. cbn [process L2.Spec_Engine]. unfold up4_frame, run_frame, l2_program.
  cbn [envelope IDENTITY env_admit admits]. pose proof (extract_ethernet_parse (frame f)) as Hx.
  destruct (extract_ethernet (frame f)) as [[eth rest] |]; [| congruence].
  rewrite He. unfold l2_ingress. rewrite Hf, Hm, !lookup_empty. cbn [default]. done.
Qed.

Lemma reserved_port_diverges_witness :
  let f := {| buf := replicate 64 (U8 0); headroom := 0; len := 64;
              ingress_vport := U16 0; rx_ts_us := U32 0 |} in
  let s := {| L2.fdb := ∅; L2.miss := L2.AForward PUNT_PORT |} in
  (process s f tt).2 = Forward PUNT_PORT /\ (up4_frame (envelope PL2Fwd) l2_program s f).2 = Punt.
Proof.
  apply reserved_port_diverges.
  - unfold ok. vm_compute. lia.
  - vm_compute. eauto.
  - done.
  - done.
Defined.
