(* ===== verification/X4cAbi.v ===== *)
(** * The byte encoding of the x4c backend (crates/up4-x4c/src/abi.rs and the
    seam it came from, crates/up4-engine/src/x4c.rs)

    Keys and action parameters as the generated tables take them: exact keys
    and parameters least-significant byte first, LPM keys in wire order with
    the prefix length behind.  Within one match kind the encoding of keys is
    injective, and so is their text, which is what lets the adapter identify
    an entry by either. *)

From S2P Require Import Prelude Bytes Text Value Shim.

Local Open Scope Z_scope.

Definition MAX_ENCODED : nat := 16.

(** [Encoded]: the bytes written so far.  A push beyond the capacity is a
    failed assertion, [None]. *)
Definition Encoded : Type := bytes.

Definition push_le (src : bytes) (e : Encoded) : option Encoded :=
  if decide (length e + length src <= MAX_ENCODED)%nat then Some (e ++ reverse src) else None.

Definition push_wire (src : bytes) (e : Encoded) : option Encoded :=
  if decide (length e + length src <= MAX_ENCODED)%nat then Some (e ++ src) else None.

(** [wire_bytes]: the first [n] bytes of the returned array. *)
Definition wire_bytes (v : TypedVal) : bytes :=
  match v with
  | ValU8 x => [x]
  | ValU16 x => u16_be x
  | ValU32 x => u32_be x
  | ValMac m => octets m
  | ValIpv4 a => ip_octets a
  end.

Definition encode_key (key : TypedKey) : option Encoded :=
  match key with
  | KeyExact v => push_le (wire_bytes v) []
  | KeyLpm value prefix_len => e ← push_wire (wire_bytes value) []; push_wire [prefix_len] e
  end.

Fixpoint encode_from (acc : Encoded) (params : list TypedVal) : option Encoded :=
  match params with
  | [] => Some acc
  | p :: params => acc ← push_le (wire_bytes p) acc; encode_from acc params
  end.

Definition encode_params (params : list TypedVal) : option Encoded := encode_from [] params.

(** The width in bytes of a value of each kind. *)
Definition width (k : ValKind) : nat :=
  match k with
  | KindU8 => 1
  | KindU16 => 2
  | KindU32 | KindIpv4 => 4
  | KindMac => 6
  end.

Definition encoded_key_width (k : KeyKind) : nat :=
  match k with
  | KindExact v => width v
  | KindLpm v => width v + 1
  end.

(** The earlier seam's encoders, [up4_engine::x4c::abi]. *)
Definition seam_lpm_key (v : TypedVal) : bytes := wire_bytes v.
Definition seam_exact_key (v : TypedVal) : bytes := reverse (wire_bytes v).
Definition seam_action_param (v : TypedVal) : bytes := seam_exact_key v.

(** ** Lemmas *)

Lemma length_wire_bytes v : length (wire_bytes v) = width (kind v).
Proof.
  destruct v as [x | x | x | m | a]; [done | apply length_be_bytes | apply length_be_bytes | by destruct m |].
  by destruct a.
Qed.

Lemma width_range k : (1 <= width k <= 6)%nat.
Proof. destruct k; cbn; lia. Qed.

Lemma wire_bytes_inj v w : kind v = kind w -> wire_bytes v = wire_bytes w -> v = w.
Proof.
  destruct v, w; try done; intros _; cbn [wire_bytes]; intros H.
  - congruence.
  - apply (f_equal be_u16) in H. rewrite !be_u16_u16_be in H. congruence.
  - apply (f_equal be_u32) in H. rewrite !be_u32_u32_be in H. congruence.
  - apply (f_equal mac_of) in H. rewrite !mac_of_octets in H. congruence.
  - apply (f_equal ip_of) in H. rewrite !ip_of_octets in H. congruence.
Qed.

(** The assertion never fires on a key, whatever its kind. *)
Lemma encode_key_total k :
  encode_key k = Some match k with
                      | KeyExact v => reverse (wire_bytes v)
                      | KeyLpm v n => wire_bytes v ++ [n]
                      end.
Proof.
  destruct k as [v | v n]; cbn [encode_key]; unfold push_le, push_wire;
    pose proof (length_wire_bytes v); pose proof (width_range (kind v)); unfold MAX_ENCODED;
    rewrite decide_True by (cbn; lia); [done |]. cbn. by rewrite decide_True by lia.
Qed.

Lemma encode_key_inj k1 k2 : key_kind k1 = key_kind k2 -> encode_key k1 = encode_key k2 -> k1 = k2.
Proof.
  rewrite !encode_key_total. destruct k1 as [v | v n], k2 as [w | w m]; try done; cbn [key_kind];
    intros [= Hk] [= H].
  - apply (inj reverse) in H. f_equal. by apply wire_bytes_inj.
  - apply app_inj_tail in H as [H ->]. f_equal. by apply wire_bytes_inj.
Qed.

(** A key is also identified by its text. *)
Lemma val_to_string_inj v w : kind v = kind w -> val_to_string v = val_to_string w -> v = w.
Proof.
  intros Hk Ht. pose proof (parse_val_to_string v) as H. rewrite Hk, Ht, parse_val_to_string in H.
  congruence.
Qed.

Lemma key_to_string_inj k1 k2 :
  key_kind k1 = key_kind k2 -> key_to_string k1 = key_to_string k2 -> k1 = k2.
Proof.
  destruct k1 as [v | v n], k2 as [w | w m]; try done; cbn [key_kind key_to_string]; intros [= Hk] H.
  - f_equal. by apply val_to_string_inj.
  - apply (f_equal chars) in H. rewrite !chars_unchars in H.
    pose proof (f_equal (split_once "/") H) as F.
    rewrite (split_once_app _ _ _ (no_slash_val v)), (split_once_app _ _ _ (no_slash_val w)) in F.
    apply (inj Some), pair_eq in F as [F1 F2].
    apply (f_equal unchars) in F1. rewrite !unchars_chars in F1.
    apply (f_equal (from_str_radix (umax 8) 10)) in F2.
    rewrite !from_str_dec in F2 by (unfold umax; word_lia). apply (inj Some), uint_eq in F2 as ->.
    f_equal. by apply val_to_string_inj.
Qed.

(** Parameters that fit are the reversed fields one behind the other. *)
Lemma encode_from_spec acc params :
  (length acc + sum_list_with (fun p => width (kind p)) params <= MAX_ENCODED)%nat ->
  encode_from acc params = Some (acc ++ (params ≫= fun p => reverse (wire_bytes p))).
Proof.
  revert acc. induction params as [| p params IH]; intros acc H; cbn [encode_from mbind list_bind].
  - by rewrite app_nil_r.
  - cbn [sum_list_with] in H. unfold push_le. rewrite length_wire_bytes, decide_True by lia.
    cbn [mbind option_bind]. rewrite IH.
    + by rewrite <- (assoc_L (++)).
    + rewrite length_app, length_reverse, length_wire_bytes. lia.
Qed.

(** ** Properties *)

(** Encoding loses nothing.  Every key encodes without overrunning the
    buffer, to the width its kind declares; two keys of one match kind have
    the same encoding, or the same text, only if they are the same key; and
    parameter lists of the same kinds that fit the buffer have the same
    encoding only if they are equal. *)
Theorem encoding_injective :
  (forall k, exists e, encode_key k = Some e /\ length e = encoded_key_width (key_kind k)) /\
  (forall k1 k2, key_kind k1 = key_kind k2 ->
     encode_key k1 = encode_key k2 \/ key_to_string k1 = key_to_string k2 -> k1 = k2) /\
  (forall ps qs, kind <$> ps = kind <$> qs ->
     (sum_list_with (fun p => width (kind p)) ps <= MAX_ENCODED)%nat ->
     is_Some (encode_params ps) /\ (encode_params ps = encode_params qs -> ps = qs)).
Proof.
  split; [| split].
  - intros k. rewrite encode_key_total. eexists. split; [done |].
    destruct k as [v | v n]; cbn; rewrite ?length_reverse, ?length_app, ?length_wire_bytes; cbn; lia.
  - intros k1 k2 Hk [H | H]; [by apply encode_key_inj | by apply key_to_string_inj].
  - intros ps qs Hk Hf.
    assert (sum_list_with (fun p => width (kind p)) qs = sum_list_with (fun p => width (kind p)) ps) as Hq.
    { clear Hf. revert qs Hk. induction ps as [| p ps IH]; intros [| q qs] Hk; simplify_eq/=; [done |].
      rewrite (IH qs) by done. congruence. }
    unfold encode_params. rewrite !encode_from_spec by (cbn; lia). split; [eauto |].
    cbn [app]. intros [= H]. clear Hf Hq. revert qs Hk H.
    induction ps as [| p ps IH]; intros [| q qs] Hk H; try done.
    rewrite !fmap_cons in Hk. injection Hk as Hp Hk. cbn [mbind list_bind] in H.
    apply app_inj_1 in H as [H1 H2].
    + apply (inj reverse) in H1. f_equal; [by apply wire_bytes_inj | by apply IH].
    + rewrite !length_reverse, !length_wire_bytes. congruence.
Qed.
