(* ===== verification/X4cRuntime.v ===== *)
(** * What x4c-generated code stands on (crates/up4-x4c/src/generated)

    The generated pipelines store every header field as a bit vector and keep
    their tables in the compiler's runtime.  Both are third-party (bitvec and
    p4rs), so they are the classes [Bitvec] and [P4rt], and what the generated
    code relies on in them is [BitvecLaws] and [P4rtLaws].  The code the
    compiler writes out again for every field, to read it from a packet and to
    put it back, is modelled here once. *)

From S2P Require Import Prelude Bytes.

Local Open Scope Z_scope.

(** ** Bits of bytes, most significant first *)

Definition byte_bits (b : byte) : list bool := (fun i => Z.testbit (uv b) i) <$> [7; 6; 5; 4; 3; 2; 1; 0].

Definition bits_of (l : bytes) : list bool := l ≫= byte_bits.

Lemma length_bits_of l : length (bits_of l) = (8 * length l)%nat.
Proof. unfold bits_of. induction l as [| b l IH]; [done |]. cbn [mbind list_bind length]. rewrite length_app, IH. cbn [byte_bits length fmap list_fmap]. lia. Qed.

Lemma bits_of_app l l' : bits_of (l ++ l') = bits_of l ++ bits_of l'.
Proof. apply bind_app. Qed.

Lemma byte_bits_inj b b' : byte_bits b = byte_bits b' -> b = b'.
Proof.
  intros H. apply uint_eq. pose proof (uint_range b) as Hb. pose proof (uint_range b') as Hb'.
  change (2 ^ Z.of_N 8) with (2 ^ 8) in *. injection H as H7 H6 H5 H4 H3 H2 H1 H0.
  apply Z.bits_inj'. intros i Hi. destruct (Z_lt_le_dec i 8) as [Hlt | Hge].
  - assert (i = 0 \/ i = 1 \/ i = 2 \/ i = 3 \/ i = 4 \/ i = 5 \/ i = 6 \/ i = 7) as Hc by lia.
    destruct Hc as [-> | [-> | [-> | [-> | [-> | [-> | [-> | ->]]]]]]]; done.
  - rewrite <- (Z.mod_small (uv b) (2 ^ 8)), <- (Z.mod_small (uv b') (2 ^ 8)) by done.
    by rewrite !Z.mod_pow2_bits_high by lia.
Qed.

Lemma bits_of_inj l l' : bits_of l = bits_of l' -> l = l'.
Proof.
  revert l'. induction l as [| b l IH]; intros [| b' l'] H; try done.
  change (byte_bits b ++ bits_of l = byte_bits b' ++ bits_of l') in H.
  apply app_inj_1 in H as [Hb Hl]; [| done]. f_equal; [by apply byte_bits_inj | by apply IH].
Qed.

Lemma drop_bits_of n l : drop (8 * n) (bits_of l) = bits_of (drop n l).
Proof.
  revert n. induction l as [| b l IH]; intros [| n]; [done | by rewrite !drop_nil; change (bits_of []) with (@nil bool); rewrite drop_nil | done |].
  replace (8 * S n)%nat with (length (byte_bits b) + 8 * n)%nat by (cbn; lia).
  change (bits_of (b :: l)) with (byte_bits b ++ bits_of l). rewrite drop_app_add. apply IH.
Qed.

Lemma take_bits_of n l : take (8 * n) (bits_of l) = bits_of (take n l).
Proof.
  revert n. induction l as [| b l IH]; intros [| n]; [done | by rewrite !take_nil; change (bits_of []) with (@nil bool); rewrite take_nil | done |].
  replace (8 * S n)%nat with (length (byte_bits b) + 8 * n)%nat by (cbn; lia).
  change (bits_of (b :: l)) with (byte_bits b ++ bits_of l). rewrite take_app_add, IH. done.
Qed.

Lemma slice_bits_of a b l : slice (8 * a) (8 * b) (bits_of l) = bits_of (slice a b l).
Proof.
  unfold slice. rewrite drop_bits_of. replace (8 * b - 8 * a)%nat with (8 * (b - a))%nat by lia. apply take_bits_of.
Qed.

(** [|=] on a range: the bits of the right operand, as far as they go. *)
Fixpoint zip_or (x y : list bool) : list bool :=
  match x, y with
  | a :: x, b :: y => (a || b) :: zip_or x y
  | x, _ => x
  end.

(** ** Bit vectors *)

Class Bitvec (BV : Type) := {
  bv_default : BV;
  bv_zeros : nat -> BV;
  view_bits : bytes -> nat -> nat -> BV;
  from_vec : bytes -> BV;
  into_vec : BV -> bytes;
  bv_resize : nat -> bool -> BV -> BV;
  bv_len : BV -> nat;
  or_range : nat -> nat -> nat -> BV -> BV -> BV;
  as_raw_slice : BV -> bytes;
  store_le : Z -> BV -> BV;
  load_le : BV -> Z;
  bv_eq : BV -> BV -> bool;
}.

(** [bits] are those of the vector; [head] is where in its first byte they
    start, which a vector copied out of the middle of a byte keeps.  The bits
    of the storage outside the vector are unspecified. *)
Class BitvecLaws (BV : Type) `{Bitvec BV} (bits : BV -> list bool) (head : BV -> nat) : Prop := {
  bits_default : bits bv_default = [];
  bits_zeros n : bits (bv_zeros n) = replicate n false /\ head (bv_zeros n) = 0%nat;
  bits_view l a b : (a <= b <= 8 * length l)%nat ->
    bits (view_bits l a b) = slice a b (bits_of l) /\ head (view_bits l a b) = (a mod 8)%nat;
  bits_from l : bits (from_vec l) = bits_of l /\ head (from_vec l) = 0%nat;
  bits_into x : (8 * length (into_vec x) < head x + length (bits x) + 8)%nat /\
    slice (head x) (head x + length (bits x)) (bits_of (into_vec x)) = bits x;
  bits_resize n v x : (n <= length (bits x))%nat ->
    bits (bv_resize n v x) = take n (bits x) /\ head (bv_resize n v x) = head x;
  bits_len x : bv_len x = length (bits x);
  bits_or a b m y x : (a <= b <= length (bits x))%nat -> (m <= length (bits y))%nat ->
    bits (or_range a b m y x) = take a (bits x) ++ zip_or (slice a b (bits x)) (drop m (bits y)) ++ drop b (bits x) /\
    head (or_range a b m y x) = head x;
  bits_raw x : as_raw_slice x = into_vec x;
  bits_store n w : bits (store_le n (bv_zeros (8 * w))) = bits_of (le_bytes w n) /\ head (store_le n (bv_zeros (8 * w))) = 0%nat;
  bits_load x l : bits x = bits_of l -> load_le x = le_val l;
  bits_eq x y : bv_eq x y = true <-> bits x = bits y;
}.

(** ** The runtime *)

(** [p4rs::table::TableEntry] of dimension one. *)
Record TableEntry (Key A : Type) := {
  te_key : Key;
  te_priority : u32;
  te_name : string;
  te_action : A;
  te_action_id : string;
  te_parameter_data : bytes;
}.
Arguments te_key {Key A} _.
Arguments te_priority {Key A} _.
Arguments te_name {Key A} _.
Arguments te_action {Key A} _.
Arguments te_action_id {Key A} _.
Arguments te_parameter_data {Key A} _.

(** [p4rs::Header], the part [extract] uses; sizes are in bits. *)
Class Header (H : Type) := {
  h_size : nat;
  h_set : bytes -> H -> H;
  h_set_valid : H -> H;
}.

(** [extract] panics ([None]) when the packet runs out. *)
Class P4rt (BV : Type) := {
  Key : Type;
  key_eq_dec :: EqDecision Key;
  extract_exact_key : bytes -> nat -> nat -> Key;
  extract_lpm_key : bytes -> nat -> nat -> Key;
  extract_bit_action_parameter : bytes -> nat -> nat -> BV;
  biguint : BV -> Z;
  key_to_bytes : Key -> bytes;
  sub_le : BV -> BV -> BV;
  Tab : Type -> Type;
  tab_new : forall A, Tab A;
  entries : forall {A}, Tab A -> list (TableEntry Key A);
  entries_insert : forall {A}, TableEntry Key A -> Tab A -> Tab A;
  entries_remove : forall {A}, TableEntry Key A -> Tab A -> Tab A;
  match_selector : forall {A}, list Z -> Tab A -> list (TableEntry Key A);
  Packet : Type;
  packet_in : bytes -> Packet;
  packet_data : Packet -> bytes;
  extract : forall {H} `{Header H}, Packet -> H -> option (Packet * H);
}.

(** What a key stands for: a number, or a prefix of 32-bit numbers. *)
Inductive KeyView := VExact (n : Z) | VLpm (addr len : Z).

Definition key_matches (v : KeyView) (sel : Z) : bool :=
  match v with
  | VExact n => n =? sel
  | VLpm addr len => Z.shiftr addr (32 - len) =? Z.shiftr sel (32 - len)
  end.

Definition key_weight (v : KeyView) : Z := match v with VExact _ => 0 | VLpm _ len => len end.

Definition key_sane (v : KeyView) : Prop := 0 <= key_weight v <= 32.

(** Exact keys and action parameters are least-significant byte first, a
    longest-prefix key is in wire order with its length appended; a lookup
    answers the matching entries, longest prefix first. *)
Class P4rtLaws (BV : Type) `{Bitvec BV} `{P4rt BV} (bits : BV -> list bool) (head : BV -> nat)
    (view : Key -> KeyView) (off : Packet -> nat) : Prop := {
  rt_view_inj k k' : view k = view k' -> k = k';
  rt_exact kb n : (n <= length kb)%nat -> view (extract_exact_key kb 0 n) = VExact (le_val (take n kb));
  rt_lpm kb : length kb = 5%nat -> view (extract_lpm_key kb 0 4) = VLpm (be_val (take 4 kb)) (uv (byte_at kb 4));
  rt_param pd o w : (o + w <= length pd)%nat ->
    bits (extract_bit_action_parameter pd o (8 * w)) = bits_of (slice o (o + w) pd) /\
    head (extract_bit_action_parameter pd o (8 * w)) = 0%nat;
  rt_biguint x l : bits x = bits_of l -> head x = 0%nat -> biguint x = le_val l;
  rt_sub x y a b : bits x = bits_of [a] -> bits y = bits_of [b] -> uv b <= uv a ->
    bits (sub_le x y) = bits_of [U8 (uv a - uv b)];
  rt_new A : entries (tab_new A) = [];
  rt_insert A (e : TableEntry Key A) t : Forall (fun x => te_key x <> te_key e) (entries t) ->
    entries (entries_insert e t) ≡ₚ e :: entries t;
  rt_remove A (e : TableEntry Key A) t :
    entries (entries_remove e t) ≡ₚ filter (fun x => te_key x <> te_key e) (entries t);
  rt_match A sel (t : Tab A) :
    Forall (fun e => key_sane (view (te_key e))) (entries t) ->
    Forall (fun e => e ∈ entries t /\ key_matches (view (te_key e)) sel = true) (match_selector [sel] t) /\
    forall e, e ∈ entries t -> key_matches (view (te_key e)) sel = true ->
      exists first rest, match_selector [sel] t = first :: rest /\
        key_weight (view (te_key e)) <= key_weight (view (te_key first));
  rt_packet l : packet_data (packet_in l) = l /\ off (packet_in l) = 0%nat;
  rt_extract H `{Header H} n p (h : H) : h_size (H := H) = (8 * n)%nat -> (off p + n <= length (packet_data p))%nat ->
    exists p', extract p h = Some (p', h_set_valid (h_set (slice (off p) (off p + n) (packet_data p)) h)) /\
      packet_data p' = packet_data p /\ off p' = (off p + n)%nat;
}.

(** ** One field of a header *)

(** [if let Some(x) = v.iter_mut().last()] *)
Definition on_last (f : byte -> byte) (v : bytes) : bytes := alter f (length v - 1)%nat v.

Definition byte_shl (n : nat) (b : byte) : byte := U8 (Z.shiftl (uv b) (Z.of_nat n)).
Definition byte_shr (n : nat) (b : byte) : byte := U8 (Z.shiftr (uv b) (Z.of_nat n)).

Section fields.
Context {BV : Type} `{Bitvec BV}.

(** One field of [set]: bits [a] to [b] of the header. *)
Definition field_set (a b : nat) (buf : bytes) : BV :=
  let bv := view_bits buf a b in
  if (8 <? b - a)%nat then
    let v := reverse (into_vec bv) in
    let v := if ((b - a) mod 8 =? 0)%nat then v else on_last (byte_shl (a mod 8)) v in
    bv_resize (b - a) false (from_vec v)
  else bv.

(** One field of [to_bitvec]. *)
Definition field_emit (a b : nat) (f x : BV) : BV :=
  if (8 <? b - a)%nat then
    let v := into_vec f in
    let v := if ((b - a) mod 8 =? 0)%nat then v else on_last (byte_shr ((b - a) mod 8)) v in
    let m := ((b - a) mod 8)%nat in
    let r := from_vec (reverse v) in
    if (m <? bv_len r)%nat then or_range a b m r x else x
  else or_range a b 0 f x.

Context {bits : BV -> list bool} {head : BV -> nat} {HL : BitvecLaws BV bits head}.

Lemma zip_or_false n y : (length y <= n)%nat -> zip_or (replicate n false) y = y ++ replicate (n - length y) false.
Proof.
  revert y. induction n as [| n IH]; intros [| b y] Hl; cbn in *; try done; [lia |]. rewrite IH by lia. done.
Qed.

(** A vector that starts at the front and fills its last byte is its storage. *)
Lemma into_whole x l : head x = 0%nat -> bits x = bits_of l -> into_vec x = l.
Proof.
  intros Hh Hb. destruct (bits_into x) as [H1 H2]. rewrite Hh, Hb, length_bits_of in *. apply bits_of_inj. rewrite <- H2.
  unfold slice. rewrite drop_0, take_ge; [done |]. rewrite length_bits_of. lia.
Qed.

(** A field of whole bytes is kept least significant byte first. *)
Lemma field_set_bytes i j buf :
  (i + 1 < j <= length buf)%nat ->
  bits (field_set (8 * i) (8 * j) buf) = bits_of (reverse (slice i j buf)) /\ head (field_set (8 * i) (8 * j) buf) = 0%nat.
Proof.
  intros Hij. unfold field_set. destruct (bits_view buf (8 * i) (8 * j)) as [V1 V2]; [lia |].
  replace (8 * i)%nat with (i * 8)%nat in V2 by lia. rewrite Nat.Div0.mod_mul in V2. replace (i * 8)%nat with (8 * i)%nat in V2 by lia.
  rewrite slice_bits_of in V1. rewrite (into_whole _ _ V2 V1).
  rewrite (proj2 (Nat.ltb_lt _ _)) by lia. replace (8 * j - 8 * i)%nat with ((j - i) * 8)%nat by lia.
  rewrite Nat.Div0.mod_mul. cbn [Nat.eqb]. destruct (bits_from (reverse (slice i j buf))) as [F1 F2].
  assert (length (bits (from_vec (reverse (slice i j buf)))) = ((j - i) * 8)%nat) as Hl.
  { rewrite F1, length_bits_of, length_reverse, length_slice by lia. lia. }
  destruct (bits_resize ((j - i) * 8) false (from_vec (reverse (slice i j buf)))) as [R1 R2]; [lia |].
  rewrite R1, R2, F2, take_ge by lia. by rewrite F1.
Qed.

(** A field of at most eight bits is the bits themselves. *)
Lemma field_set_small a b buf :
  (b - a <= 8)%nat -> (a <= b <= 8 * length buf)%nat -> bits (field_set a b buf) = slice a b (bits_of buf).
Proof.
  intros Hs Hab. unfold field_set. rewrite (proj2 (Nat.ltb_ge _ _)) by lia. by apply bits_view.
Qed.

(** Headers are written front to back over zeros. *)
Definition written (x : BV) (pre : list bool) (total : nat) : Prop :=
  bits x = pre ++ replicate (total - length pre) false /\ head x = 0%nat /\ (length pre <= total)%nat.

Lemma written_start total : written (bv_zeros total) [] total.
Proof. destruct (bits_zeros total) as [H1 H2]. split; [by rewrite H1, Nat.sub_0_r | split; [done | cbn; lia]]. Qed.

Lemma or_written x pre total b m y :
  written x pre total -> (length pre <= b <= total)%nat -> (m <= length (bits y))%nat ->
  (length (bits y) - m <= b - length pre)%nat ->
  written (or_range (length pre) b m y x)
    (pre ++ drop m (bits y) ++ replicate (b - length pre - (length (bits y) - m)) false) total.
Proof.
  intros (W1 & W2 & W3) Hb Hm Hl. destruct (bits_or (length pre) b m y x) as [O1 O2].
  { rewrite W1, length_app, length_replicate. lia. }
  { done. }
  assert (length (drop m (bits y)) = (length (bits y) - m)%nat) as Hd by apply length_drop.
  split; [| split; [congruence | rewrite !length_app, Hd, length_replicate; lia]].
  rewrite O1, W1, take_app_length. unfold slice. rewrite drop_app_length, take_replicate.
  rewrite Nat.min_l by lia. rewrite zip_or_false by lia. rewrite drop_app_ge by lia. rewrite drop_replicate, Hd, <- !app_assoc.
  rewrite <- (replicate_add (b - length pre - (length (bits y) - m))).
  rewrite !length_app, Hd, length_replicate. do 3 f_equal.
  replace (total - (length pre + (length (bits y) - m + (b - length pre - (length (bits y) - m)))))%nat with (total - b)%nat by lia.
  rewrite replicate_add. do 2 f_equal. lia.
Qed.

Lemma emit_bytes i j l f x pre total :
  written x pre total -> length pre = (8 * i)%nat -> (i + 1 < j)%nat -> (8 * j <= total)%nat ->
  bits f = bits_of l -> head f = 0%nat -> length l = (j - i)%nat ->
  written (field_emit (8 * i) (8 * j) f x) (pre ++ bits_of (reverse l)) total.
Proof.
  intros W Hp Hij Ht Hf Hh Hl. unfold field_emit. rewrite (proj2 (Nat.ltb_lt _ _)) by lia.
  replace (8 * j - 8 * i)%nat with ((j - i) * 8)%nat by lia. rewrite Nat.Div0.mod_mul. cbn [Nat.eqb].
  rewrite (into_whole _ _ Hh Hf). destruct (bits_from (reverse l)) as [F1 F2].
  assert (length (bits (from_vec (reverse l))) = (8 * (j - i))%nat) as Hy by (by rewrite F1, length_bits_of, length_reverse, Hl).
  rewrite bits_len, Hy, (proj2 (Nat.ltb_lt _ _)) by lia. rewrite <- Hp.
  pose proof (or_written x pre total (8 * j) 0 (from_vec (reverse l)) W) as Hw. rewrite Hy, drop_0, F1 in Hw.
  replace (8 * j - length pre - (8 * (j - i) - 0))%nat with 0%nat in Hw by lia. rewrite app_nil_r in Hw. apply Hw; lia.
Qed.

Lemma emit_small a b f x pre total :
  written x pre total -> length pre = a -> (a <= b <= total)%nat -> (b - a <= 8)%nat -> length (bits f) = (b - a)%nat ->
  written (field_emit a b f x) (pre ++ bits f) total.
Proof.
  intros W <- Hab Hs Hf. unfold field_emit. rewrite (proj2 (Nat.ltb_ge _ _)) by lia.
  pose proof (or_written x pre total b 0 f W) as Hw. rewrite Hf, drop_0 in Hw.
  replace (b - length pre - (b - length pre - 0))%nat with 0%nat in Hw by lia. rewrite app_nil_r in Hw. apply Hw; lia.
Qed.

(** What is written to the end is read out byte by byte. *)
Lemma written_raw x l : written x (bits_of l) (8 * length l) -> as_raw_slice x = l.
Proof.
  intros (W1 & W2 & _). rewrite bits_raw. apply into_whole; [done |]. by rewrite W1, length_bits_of, Nat.sub_diag, app_nil_r.
Qed.
End fields.

(** ** Tables *)

Section tables.
Context {BV : Type} `{HB : Bitvec BV} `{HP : !P4rt BV} {bits : BV -> list bool} {head_ : BV -> nat} {view : Key -> KeyView} {off : Packet -> nat}.
Context {HR : P4rtLaws BV bits head_ view off} {A : Type}.
Implicit Types (l : list (TableEntry Key A)) (t : Tab A).

(** The entry of a key. *)
Definition entry_at (k : Key) (l : list (TableEntry Key A)) : option (TableEntry Key A) :=
  find (fun e => bool_decide (te_key e = k)) l.

Definition distinct (t : Tab A) : Prop := NoDup (te_key <$> entries t).

Lemma entry_at_None k l : entry_at k l = None <-> Forall (fun e => te_key e <> k) l.
Proof.
  unfold entry_at. induction l as [| e l IH]; [done |]. cbn [find]. rewrite Forall_cons.
  case_bool_decide; [split; [done | tauto] | tauto].
Qed.

Lemma entry_at_Some k l e : NoDup (te_key <$> l) -> entry_at k l = Some e <-> e ∈ l /\ te_key e = k.
Proof.
  unfold entry_at. induction l as [| e' l IH]; intros Hn; cbn [find]; [split; [done | intros [[]%not_elem_of_nil _]] |].
  rewrite fmap_cons, NoDup_cons in Hn. destruct Hn as [Hn1 Hn2]. rewrite elem_of_cons. case_bool_decide as Hk.
  - split; [intros [= <-]; auto |]. intros [[-> | Hin] He]; [done |]. exfalso. apply Hn1. rewrite Hk, <- He. by apply list_elem_of_fmap_2.
  - rewrite (IH Hn2). split; [tauto |]. intros [[-> | Hin] He]; [done | auto].
Qed.

Lemma entry_at_perm k l l' : NoDup (te_key <$> l) -> l ≡ₚ l' -> entry_at k l = entry_at k l'.
Proof.
  intros Hn Hp. assert (NoDup (te_key <$> l')) as Hn' by (by rewrite <- Hp). apply option_eq. intros e.
  rewrite !entry_at_Some by done. by rewrite Hp.
Qed.

Lemma new_at k : distinct (tab_new A) /\ entry_at k (entries (tab_new A)) = None.
Proof. unfold distinct. rewrite rt_new. split; [constructor | done]. Qed.

Lemma insert_at e t : distinct t -> entry_at (te_key e) (entries t) = None ->
  distinct (entries_insert e t) /\
  (forall x, x ∈ entries (entries_insert e t) <-> x = e \/ x ∈ entries t) /\
  forall k, entry_at k (entries (entries_insert e t)) = if decide (te_key e = k) then Some e else entry_at k (entries t).
Proof.
  intros Hd Hn%entry_at_None. pose proof (rt_insert A e t Hn) as Hp.
  assert (distinct (entries_insert e t)) as Hd'.
  { unfold distinct. rewrite Hp, fmap_cons. apply NoDup_cons. split; [| done].
    intros (x & Hx & Hin)%list_elem_of_fmap. rewrite Forall_forall in Hn. by apply (Hn x). }
  split; [done |]. split; [intros x; by rewrite Hp, elem_of_cons |].
  intros k. rewrite (entry_at_perm k _ _ Hd' Hp). unfold entry_at. cbn [find]. case_bool_decide; case_decide; done.
Qed.

Lemma remove_at e t : distinct t ->
  distinct (entries_remove e t) /\
  (forall x, x ∈ entries (entries_remove e t) <-> te_key x <> te_key e /\ x ∈ entries t) /\
  forall k, entry_at k (entries (entries_remove e t)) = if decide (te_key e = k) then None else entry_at k (entries t).
Proof.
  intros Hd. pose proof (rt_remove A e t) as Hp.
  assert (distinct (entries_remove e t)) as Hd'.
  { unfold distinct. rewrite Hp. eapply sublist_NoDup; [exact Hd |]. apply fmap_sublist, sublist_filter. }
  split; [done |]. split; [intros x; by rewrite Hp, list_elem_of_filter |].
  intros k. apply option_eq. intros x. rewrite entry_at_Some by done. rewrite Hp, list_elem_of_filter.
  case_decide as Hk; [split; [naive_solver | done] |]. rewrite entry_at_Some by done. naive_solver.
Qed.

(** An exact table answers with the entry of the key. *)
Lemma match_exact k n t :
  distinct t -> view k = VExact n -> Forall (fun e => exists n', view (te_key e) = VExact n') (entries t) ->
  head (match_selector [n] t) = entry_at k (entries t).
Proof.
  intros Hd Hk Hx. destruct (rt_match A n t) as [M1 M2].
  { eapply Forall_impl; [exact Hx |]. intros e [n' ->]. unfold key_sane. cbn. lia. } destruct (entry_at k (entries t)) as [e |] eqn:Ee.
  - apply entry_at_Some in Ee as [Hin He]; [| done]. destruct (M2 e Hin) as (first & rest & Hm & _).
    { rewrite He, Hk. cbn. lia. }
    rewrite Hm in M1 |- *. apply Forall_cons in M1 as [[Hin1 Hm1] _]. cbn [head]. f_equal.
    rewrite Forall_forall in Hx. destruct (Hx _ Hin1) as [n' Hn']. rewrite Hn' in Hm1. cbn in Hm1. apply Z.eqb_eq in Hm1 as ->.
    assert (te_key first = te_key e) as Hkey by (apply rt_view_inj; congruence).
    enough (entry_at k (entries t) = Some first /\ entry_at k (entries t) = Some e) by naive_solver.
    rewrite !entry_at_Some by done. split; split; congruence.
  - destruct (match_selector [n] t) as [| first rest]; [done |]. exfalso. apply Forall_cons in M1 as [[Hin1 Hm1] _].
    apply entry_at_None in Ee. rewrite Forall_forall in Ee, Hx. apply (Ee _ Hin1), rt_view_inj.
    destruct (Hx _ Hin1) as [n' Hn']. rewrite Hn' in Hm1 |- *. cbn in Hm1. apply Z.eqb_eq in Hm1 as ->. done.
Qed.

(** *** Tables addressed by the bytes of a key *)

Context (ext : bytes -> Key) (K : bytes -> Prop).
Hypothesis ext_inj : forall k k', K k -> K k' -> ext k = ext k' -> k = k'.

(** The action and the parameters installed under a key. *)
Definition held (t : Tab A) (k : bytes) : option (string * bytes) :=
  e ← entry_at (ext k) (entries t); Some (te_action_id e, te_parameter_data e).

Lemma held_new k : held (tab_new A) k = None.
Proof. unfold held. by rewrite rt_new. Qed.

Lemma held_None t k : held t k = None -> entry_at (ext k) (entries t) = None.
Proof. unfold held. by destruct (entry_at _ _). Qed.

Lemma decide_ext k k' {B} (x y : B) :
  K k -> K k' -> (if decide (ext k = ext k') then x else y) = if decide (k = k') then x else y.
Proof. intros Hk Hk'. case_decide as E1; case_decide as E2; try done; exfalso; [by apply E2, ext_inj | congruence]. Qed.

Lemma held_insert e t k :
  K k -> te_key e = ext k -> distinct t -> held t k = None ->
  distinct (entries_insert e t) /\
  (forall x, x ∈ entries (entries_insert e t) <-> x = e \/ x ∈ entries t) /\
  forall k', K k' -> held (entries_insert e t) k' =
    if decide (k = k') then Some (te_action_id e, te_parameter_data e) else held t k'.
Proof.
  intros Hk He Hd Hn%held_None. rewrite <- He in Hn. destruct (insert_at e t Hd Hn) as (H1 & H2 & H3).
  split; [done |]. split; [done |]. intros k' Hk'. unfold held. rewrite H3, He, <- (decide_ext k k') by done. by case_decide.
Qed.

Lemma held_remove e t k :
  K k -> te_key e = ext k -> distinct t ->
  distinct (entries_remove e t) /\
  (forall x, x ∈ entries (entries_remove e t) <-> te_key x <> te_key e /\ x ∈ entries t) /\
  forall k', K k' -> held (entries_remove e t) k' = if decide (k = k') then None else held t k'.
Proof.
  intros Hk He Hd. destruct (remove_at e t Hd) as (H1 & H2 & H3).
  split; [done |]. split; [done |]. intros k' Hk'. unfold held. rewrite H3, He, <- (decide_ext k k') by done. by case_decide.
Qed.
End tables.
