(* ===== verification/X4c.v ===== *)
(** * The x4c backend (crates/up4-x4c/src/pipeline.rs)

    The adapter over the code x4c generates, which it knows by the interface
    [P4rs] only; [GenL2] and [GenL3] are the two pipelines it is used with, and
    show the laws [P4rsLaws] of them.  What the adapter publishes is
    a journal of control-plane operations that every shard folds into a
    pipeline of its own; compaction rewrites it to one operation per entry. *)

From S2P Require Import Prelude Maps Bytes Text Value Shim Publish Frame Headers Engine Programs P4 L2Fwd L3Fwd X4cAbi.

Local Open Scope Z_scope.

#[export] Instance TypedVal_countable : Countable TypedVal.
Proof.
  apply (inj_countable'
    (fun v => match v with
              | ValU8 x => inl (inl x) | ValU16 x => inl (inr x)
              | ValU32 x => inr (inl x) | ValMac x => inr (inr (inl x)) | ValIpv4 x => inr (inr (inr x))
              end)
    (fun s => match s with
              | inl (inl x) => ValU8 x | inl (inr x) => ValU16 x
              | inr (inl x) => ValU32 x | inr (inr (inl x)) => ValMac x | inr (inr (inr x)) => ValIpv4 x
              end)).
  by intros [].
Defined.

#[export] Instance TypedKey_countable : Countable TypedKey.
Proof.
  apply (inj_countable'
    (fun k => match k with KeyExact v => inl v | KeyLpm v n => inr (v, n) end)
    (fun s => match s with inl v => KeyExact v | inr (v, n) => KeyLpm v n end)).
  by intros [].
Defined.

(** ** The interface of generated code *)

(** [p4rs::packet_out]. *)
Record packet_out := { header_data : bytes; payload_data : bytes }.

Class P4rs (Pipe : Type) := {
  add_table_entry : string -> string -> bytes -> bytes -> u32 -> Pipe -> Pipe;
  remove_table_entry : string -> bytes -> Pipe -> Pipe;
  process_packet : u16 -> bytes -> Pipe -> Pipe * list (packet_out * u16);
}.

Record Desc (Pipe : Type) := {
  d_name : string;
  d_schemas : list TableSchema;
  d_ids : list (string * string);
  d_new : u16 -> Pipe;
  d_min_parse : nat;
}.
Arguments d_name {Pipe} _.
Arguments d_schemas {Pipe} _.
Arguments d_ids {Pipe} _.
Arguments d_new {Pipe} _ _.
Arguments d_min_parse {Pipe} _.

(** The two shipped descriptions; the constructor of the generated pipeline is
    theirs to name. *)
Definition L2FWD {Pipe} (new : u16 -> Pipe) : Desc Pipe := {|
  d_name := "l2fwd/x4c"; d_schemas := L2.SCHEMAS; d_ids := [("mac_dst", "ingress.mac_dst")];
  d_new := new; d_min_parse := 14;
|}.

Definition L3FWD {Pipe} (new : u16 -> Pipe) : Desc Pipe := {|
  d_name := "l3fwd/x4c"; d_schemas := L3.SCHEMAS; d_ids := [("ipv4_lpm", "ingress.ipv4_lpm")];
  d_new := new; d_min_parse := 34;
|}.

(** [Desc::id]; it panics on a table without an identifier, which no shipped
    table is ([shipped_ids]). *)
Definition table_id {Pipe} (d : Desc Pipe) (table : string) : string :=
  default EmptyString (snd <$> find (fun e => bool_decide (e.1 = table)) (d_ids d)).

(** ** The journal *)

Inductive JOp :=
  | JAdd (table : string) (key : TypedKey) (action : string) (params : list TypedVal)
  | JRemove (table : string) (key : TypedKey).

Record Live := { l_key : TypedKey; l_action : string; l_params : list TypedVal }.

Record Journal := {
  generation : u64;
  ops : list JOp;
  live : list ((string * string) * Live);
}.

Definition journal_default : Journal := {| generation := U64 0; ops := []; live := [] |}.

(** [key_id] spells a key as its [Display] does. *)
Definition key_id (k : TypedKey) : string := key_to_string k.

Definition journal_find (j : Journal) (table : string) (key : TypedKey) : option nat :=
  fst <$> list_find (fun e => e.1 = (table, key_id key)) (live j).

Definition re_add (e : (string * string) * Live) : JOp :=
  JAdd e.1.1 (l_key e.2) (l_action e.2) (l_params e.2).

Definition compact (j : Journal) : Journal :=
  if decide (length (ops j) <= 2 * length (live j) + 16)%nat then j
  else {| generation := U64 (uv (generation j) + 1); ops := re_add <$> live j; live := live j |}.

(** The three updates the control plane publishes. *)
Definition journal_add (table : string) (key : TypedKey) (action : string) (params : list TypedVal)
    (j : Journal) : Journal :=
  let entry := {| l_key := key; l_action := action; l_params := params |} in
  let live' :=
    match journal_find j table key with
    | Some i => alter (fun e => (e.1, entry)) i (live j)
    | None => live j ++ [((table, key_id key), entry)]
    end in
  compact {| generation := generation j; ops := ops j ++ [JAdd table key action params]; live := live' |}.

Definition journal_remove (table : string) (key : TypedKey) (j : Journal) : Journal :=
  let live' := match journal_find j table key with Some i => delete i (live j) | None => live j end in
  compact {| generation := generation j; ops := ops j ++ [JRemove table key]; live := live' |}.

Definition journal_clear (table : string) (j : Journal) : Journal * nat :=
  let victims := (fun e => l_key e.2) <$> filter (fun e => e.1.1 = table) (live j) in
  let live' := filter (fun e => e.1.1 <> table) (live j) in
  (compact {| generation := generation j; ops := ops j ++ (JRemove table <$> victims); live := live' |},
   length victims).

(** ** The control-plane surface *)

Record X4cPipeline (Pipe : Type) := { desc : Desc Pipe; radix : u16; journal : Shared Journal }.
Arguments desc {Pipe} _.
Arguments radix {Pipe} _.
Arguments journal {Pipe} _.

(** [X4cPipeline::new]: two spare ports above the highest vport, saturating. *)
Definition x4c_new {Pipe} (d : Desc Pipe) (params : PipelineParams) : X4cPipeline Pipe :=
  let highest := foldr Z.max 0 (uv <$> vports params) in
  {| desc := d; radix := U16 (Z.min (umax 16) (highest + 3)); journal := shared_new journal_default |}.

Definition x4c_publish {Pipe R} (f : Journal -> Journal * R) (p : X4cPipeline Pipe) : X4cPipeline Pipe * R :=
  let '(s, r) := update f (journal p) in ({| desc := desc p; radix := radix p; journal := s |}, r).

Definition x4c_add {Pipe} (table : string) (key : TypedKey) (action : string) (params : list TypedVal)
    (p : X4cPipeline Pipe) : X4cPipeline Pipe * result unit TableError :=
  try_op (find_schema (d_schemas (desc p)) table) p (fun schema =>
  try_op (check_key schema key) p (fun _ =>
  try_op (check schema action params) p (fun action =>
  let '(p, _) := x4c_publish (fun j => (journal_add (table_name schema) key (action_name action) params j, tt)) p in
  (p, Ok tt)))).

Definition x4c_remove {Pipe} (table : string) (key : TypedKey) (p : X4cPipeline Pipe)
    : X4cPipeline Pipe * result unit TableError :=
  try_op (find_schema (d_schemas (desc p)) table) p (fun schema =>
  try_op (check_key schema key) p (fun _ =>
  let '(p, _) := x4c_publish (fun j => (journal_remove (table_name schema) key j, tt)) p in
  (p, Ok tt))).

Definition x4c_clear {Pipe} (table : string) (p : X4cPipeline Pipe)
    : X4cPipeline Pipe * result nat TableError :=
  try_op (find_schema (d_schemas (desc p)) table) p (fun schema =>
  let '(p, n) := x4c_publish (journal_clear (table_name schema)) p in
  (p, Ok n)).

(** [describe]; the action is one of the schema's, so the lookup succeeds. *)
Definition x4c_describe (s : TableSchema) (e : Live) : EntryDesc :=
  let params := match schema_action s (l_action e) with
                | Some a => action_params a
                | None => []
                end in
  {| entry_key := key_id (l_key e);
     entry_action := l_action e;
     entry_params := list_to_map (reverse (zip_with (fun p v => (param_name p, val_to_string v)) params (l_params e))) |}.

Definition x4c_by_key (a b : EntryDesc) : comparison := String.compare (entry_key a) (entry_key b).

Definition x4c_dump {Pipe} (table : string) (p : X4cPipeline Pipe) : result (list EntryDesc) TableError :=
  let? schema := find_schema (d_schemas (desc p)) table in
  let j := load (journal p) in
  Ok (sort_by x4c_by_key
        ((fun e => x4c_describe schema e.2) <$> filter (fun e => e.1.1 = table_name schema) (live j))).

(** [default_action_of]; it panics on a table it does not know. *)
Definition default_action_of (s : TableSchema) : string :=
  if decide (table_name s = "mac_dst") then "broadcast"
  else if decide (table_name s = "ipv4_lpm") then "drop"
  else EmptyString.

Definition x4c_default {Pipe} (table : string) (p : X4cPipeline Pipe) : result EntryDesc TableError :=
  let? schema := find_schema (d_schemas (desc p)) table in
  Ok {| entry_key := "*"; entry_action := default_action_of schema; entry_params := ∅ |}.

Definition x4c_set_default {Pipe} (table : string) (_action : string) (_params : list TypedVal)
    (p : X4cPipeline Pipe) : X4cPipeline Pipe * result unit TableError :=
  try_op (find_schema (d_schemas (desc p)) table) p (fun schema =>
  (p, Err (Unsupported (table_name schema)
     "the x4c backend compiles `default_action` in; it cannot be changed at run time"))).

#[export] Instance X4c_TableOps {Pipe} : TableOps (X4cPipeline Pipe) := {
  schemas p := d_schemas (desc p);
  table_add := x4c_add;
  table_remove := x4c_remove;
  table_dump := x4c_dump;
  table_default := x4c_default;
  table_set_default := x4c_set_default;
  table_clear := x4c_clear;
}.

(** ** The engine *)

Record X4cEngine (Pipe : Type) := {
  e_desc : Desc Pipe;
  pipe : Pipe;
  e_radix : u16;
  e_generation : u64;
  applied : nat;
  e_version : u64;
  scratch_in : bytes;
  scratch_out : bytes;
}.
Arguments e_desc {Pipe} _.
Arguments pipe {Pipe} _.
Arguments e_radix {Pipe} _.
Arguments e_generation {Pipe} _.
Arguments applied {Pipe} _.
Arguments e_version {Pipe} _.
Arguments scratch_in {Pipe} _.
Arguments scratch_out {Pipe} _.

(** A version no journal starts at, so the first frame syncs. *)
Definition x4c_engine {Pipe} (p : X4cPipeline Pipe) : X4cEngine Pipe := {|
  e_desc := desc p; pipe := d_new (desc p) (radix p); e_radix := radix p;
  e_generation := U64 0; applied := 0; e_version := U64 (umax 64);
  scratch_in := []; scratch_out := [];
|}.

Section engine.
Context {Pipe : Type} `{P4rs Pipe}.

(** [apply]: replay one operation.  A key always encodes; parameters that do
    not fit would fail an assertion, which a schema-checked list cannot
    ([checked_params_fit]). *)
Definition apply_op (d : Desc Pipe) (op : JOp) (p : Pipe) : Pipe :=
  match op with
  | JAdd table key action params =>
      let k := default [] (encode_key key) in
      let p := remove_table_entry (table_id d table) k p in
      add_table_entry (table_id d table) action k (default [] (encode_params params)) (U32 0) p
  | JRemove table key => remove_table_entry (table_id d table) (default [] (encode_key key)) p
  end.

Definition replay (d : Desc Pipe) (os : list JOp) (p : Pipe) : Pipe :=
  foldl (fun p op => apply_op d op p) p os.

(** [X4cEngine::sync] *)
Definition sync (shared : Shared Journal) (e : X4cEngine Pipe) : X4cEngine Pipe :=
  if decide (version shared = e_version e) then e else
  let j := load shared in
  let '(p0, applied0) :=
    if decide (generation j = e_generation e) then (pipe e, applied e)
    else (d_new (e_desc e) (e_radix e), 0%nat) in
  {| e_desc := e_desc e;
     pipe := replay (e_desc e) (drop applied0 (ops j)) p0;
     e_radix := e_radix e;
     e_generation := generation j;
     applied := length (ops j);
     e_version := version shared;
     scratch_in := scratch_in e;
     scratch_out := scratch_out e |}.

Definition with_run (e : X4cEngine Pipe) (p : Pipe) (i o : bytes) : X4cEngine Pipe := {|
  e_desc := e_desc e; pipe := p; e_radix := e_radix e; e_generation := e_generation e;
  applied := applied e; e_version := e_version e; scratch_in := i; scratch_out := o |}.

(** What the outputs of the pipeline mean, and what the scratch buffer holds
    afterwards: it is filled on the two arms that carry bytes. *)
Definition read_outputs (out : list (packet_out * u16)) (scratch : bytes) : Verdict * bytes :=
  match out with
  | [] => (Drop, scratch)
  | [(pkt, port)] =>
      if decide (port = PUNT_PORT) then (Punt, scratch)
      else if decide (port = BROADCAST_PORT) then (Broadcast, scratch)
      else (Forward port, header_data pkt ++ payload_data pkt)
  | (pkt, _) :: _ => (Broadcast, header_data pkt ++ payload_data pkt)
  end.

(** [X4cEngine::run] *)
Definition x4c_run (f : FrameCtx) (e : X4cEngine Pipe) : X4cEngine Pipe * FrameCtx * Verdict :=
  if decide (len f < d_min_parse (e_desc e))%nat then (e, f, Drop) else
  let input := frame f in
  let '(p, out) := process_packet (U16 0) input (pipe e) in
  let '(verdict, scratch) := read_outputs out (scratch_out e) in
  let e := with_run e p input scratch in
  match verdict with
  | Drop | Punt => (e, f, verdict)
  | _ =>
      let n := (len f `min` length scratch)%nat in
      (e, frame_mut (fun fr => take n scratch ++ drop n fr) f, verdict)
  end.

Definition x4c_process (p : X4cPipeline Pipe) (f : FrameCtx) (e : X4cEngine Pipe)
    : X4cEngine Pipe * FrameCtx * Verdict :=
  x4c_run f (sync (journal p) e).

#[export] Instance X4c_Engine : Engine (X4cPipeline Pipe) (X4cEngine Pipe) := {
  process := x4c_process;
  engine_name e := d_name (e_desc e);
}.

#[export] Instance X4c_Pipeline : Pipeline (X4cPipeline Pipe) (X4cEngine Pipe) := {
  pipeline_name p := d_name (desc p);
  engine := x4c_engine;
  mints _ := true;
}.

#[export] Instance X4c_EngineLaws : EngineLaws (X4cPipeline Pipe) (X4cEngine Pipe).
Proof.
  split. intros p f e Ho. cbn. unfold x4c_process, x4c_run. case_decide; [done |].
  destruct (process_packet _ _ _) as [p' out]. destruct (read_outputs out _) as [vd scratch].
  assert (ok (frame_mut (fun fr => take (len f `min` length scratch)%nat scratch ++
                                   drop (len f `min` length scratch)%nat fr) f) /\
          same_slot f (frame_mut (fun fr => take (len f `min` length scratch)%nat scratch ++
                                   drop (len f `min` length scratch)%nat fr) f)) as Hg.
  { destruct (frame_mut_ok (fun fr => take (len f `min` length scratch)%nat scratch ++
                                   drop (len f `min` length scratch)%nat fr) f Ho) as (H1 & H2 & _); [| done].
    rewrite length_app, length_take, length_drop, length_frame by done. lia. }
  by destruct vd.
Qed.
End engine.

(** ** Lemmas: the shipped descriptions *)

(** The parameters every shipped schema lets through fit the encoder. *)
Lemma shipped_params_fit (sch : TableSchema) a params act :
  sch ∈ L2.SCHEMAS ++ L3.SCHEMAS -> check sch a params = Ok act ->
  encode_params params = Some (params ≫= fun p => reverse (wire_bytes p)).
Proof.
  intros Hs [Ha Hk]%check_Ok. unfold encode_params. rewrite encode_from_spec; [done |].
  replace (sum_list_with (fun p => width (kind p)) params)
    with (sum_list_with width (param_kind <$> action_params act)).
  - revert act Ha Hk. cut (forall act, act ∈ ((L2.SCHEMAS ++ L3.SCHEMAS) ≫= actions) ->
      (sum_list_with width (param_kind <$> action_params act) <= MAX_ENCODED)%nat).
    + intros H act Ha _. apply H. apply find_Some in Ha as [Ha _].
      apply list_elem_of_bind. by exists sch.
    + apply Forall_forall. eapply (bool_decide_unpack _). vm_compute. reflexivity.
  - rewrite <- Hk. clear. induction params as [| p ps IH]; [done |]. cbn. by rewrite IH.
Qed.

(** ** Lemmas: the journal *)

(** The entries of a control plane: what is installed under a table and a
    key. *)
Abbreviation Entries := (gmap (string * TypedKey) (string * list TypedVal)).

Definition entry_of (e : (string * string) * Live) : (string * TypedKey) * (string * list TypedVal) :=
  ((e.1.1, l_key e.2), (l_action e.2, l_params e.2)).

Definition live_map (j : Journal) : Entries := list_to_map (entry_of <$> live j).

(** What one journalled operation means, and the whole log from nothing. *)
Definition op_map (m : Entries) (op : JOp) : Entries :=
  match op with
  | JAdd t k a ps => <[(t, k) := (a, ps)]> m
  | JRemove t k => delete (t, k) m
  end.

Definition replay_map (os : list JOp) : Entries := foldl op_map ∅ os.

Section journal.
Variable ss : list TableSchema.

(** A key that belongs to a table of the pipeline. *)
Definition key_ok (t : string) (k : TypedKey) : Prop :=
  exists sch, find_schema ss t = Ok sch /\ key_kind k = table_key sch.

Definition op_ok (op : JOp) : Prop :=
  match op with
  | JAdd t k a ps => key_ok t k /\ exists sch, find_schema ss t = Ok sch /\ is_ok (check sch a ps) = true
  | JRemove t k => key_ok t k
  end.

Definition entry_ok (e : (string * string) * Live) : Prop :=
  e.1.2 = key_id (l_key e.2) /\ op_ok (re_add e).

Record journal_inv (j : Journal) : Prop := {
  ji_live : Forall entry_ok (live j);
  ji_nodup : NoDup (fst <$> live j);
  ji_ops : Forall op_ok (ops j);
  ji_replay : replay_map (ops j) = live_map j;
  ji_bound : (length (ops j) <= 2 * length (live j) + 16)%nat;
}.

Lemma key_id_inj t k1 k2 : key_ok t k1 -> key_ok t k2 -> key_id k1 = key_id k2 -> k1 = k2.
Proof.
  intros (s1 & H1 & K1) (s2 & H2 & K2) H. rewrite H1 in H2. injection H2 as <-.
  apply key_to_string_inj; [congruence | done].
Qed.

Lemma entry_key_ok e : entry_ok e -> key_ok e.1.1 (l_key e.2).
Proof. by intros (_ & H & _). Qed.

Lemma live_keys_nodup l :
  Forall entry_ok l -> NoDup (fst <$> l) -> NoDup (fst <$> (entry_of <$> l)).
Proof.
  intros Hl. rewrite <- list_fmap_compose. induction Hl as [| e l He Hl IH]; [constructor |].
  rewrite !fmap_cons, !NoDup_cons. intros [Hn Hd]. split; [| by apply IH].
  intros (e' & Heq & Hin)%list_elem_of_fmap. apply Hn. apply list_elem_of_fmap. exists e'. split; [| done].
  rewrite Forall_forall in Hl. destruct (Hl e' Hin) as [He' _]. destruct He as [He _].
  cbn in Heq. injection Heq as E1 E2. destruct e as [[t k] x], e' as [[t' k'] x']. cbn in *. congruence.
Qed.

(** [find] finds an entry by its key. *)
Lemma journal_find_Some j t k i :
  Forall entry_ok (live j) -> key_ok t k -> journal_find j t k = Some i ->
  exists e, live j !! i = Some e /\ e.1 = (t, key_id k) /\ l_key e.2 = k.
Proof.
  intros Hl Hk. unfold journal_find. intros H. apply fmap_Some in H as ([i' e] & H & ->).
  apply list_find_Some in H as (He & Hkey & _). exists e. split; [done | split; [done |]].
  rewrite Forall_lookup in Hl. pose proof (Hl _ _ He) as Hok. pose proof (entry_key_ok _ Hok) as Hek.
  destruct Hok as [Hid _]. rewrite Hkey in Hid, Hek. cbn in Hid, Hek. symmetry in Hid.
  by apply (key_id_inj t).
Qed.

Lemma journal_find_None j t k :
  Forall entry_ok (live j) -> journal_find j t k = None ->
  ((t, key_id k) ∉ (fst <$> live j)) /\ live_map j !! (t, k) = None.
Proof.
  intros Hl. unfold journal_find. rewrite fmap_None, list_find_None, Forall_forall. intros H. split.
  - intros (e & He & Hin)%list_elem_of_fmap. apply (H e Hin). congruence.
  - apply not_elem_of_list_to_map. intros (p & Hp & (e & -> & Hin)%list_elem_of_fmap)%list_elem_of_fmap.
    apply (H e Hin). rewrite Forall_forall in Hl. destruct (Hl e Hin) as [Hid _].
    cbn in Hp. injection Hp as -> ->. destruct e as [[t' k'] x]. cbn in *. congruence.
Qed.

Lemma re_add_map l :
  Forall entry_ok l -> NoDup (fst <$> l) -> replay_map (re_add <$> l) = list_to_map (entry_of <$> l).
Proof.
  induction l as [| e l IH] using rev_ind; intros Hl Hd; [done |].
  apply Forall_app in Hl as [Hl He]. rewrite Forall_singleton in He.
  assert (Forall entry_ok (l ++ [e])) as Hf by (by apply Forall_app; rewrite Forall_singleton).
  pose proof (live_keys_nodup _ Hf Hd) as Hn. rewrite !fmap_app in *.
  unfold replay_map in *. rewrite foldl_app. rewrite IH by (apply NoDup_app in Hd as [??]; done).
  symmetry. cbn [fmap list_fmap foldl op_map re_add]. apply (list_to_map_snoc (M := gmap _)).
  apply NoDup_app in Hn as (_ & Hn & _). intros Hin. apply (Hn _ Hin). cbn. apply list_elem_of_here.
Qed.

(** Compaction keeps the meaning of the log and bounds its length. *)
Lemma compact_inv j :
  Forall entry_ok (live j) -> NoDup (fst <$> live j) -> Forall op_ok (ops j) ->
  replay_map (ops j) = live_map j -> journal_inv (compact j).
Proof.
  intros Hl Hd Ho Hr. unfold compact. case_decide as Hc; [by split |]. split; cbn; try done.
  - apply Forall_fmap. eapply Forall_impl; [exact Hl | by intros e [_ H]].
  - by apply re_add_map.
  - rewrite length_fmap. lia.
Qed.

Lemma compact_live j : live (compact j) = live j.
Proof. unfold compact. by case_decide. Qed.

Lemma journal_inv_default : journal_inv journal_default.
Proof. split; cbn; try constructor. lia. Qed.

(** The three updates of the journal are the three updates of the map. *)
Lemma journal_add_refines t k a ps j :
  op_ok (JAdd t k a ps) -> journal_inv j ->
  journal_inv (journal_add t k a ps j) /\
  live_map (journal_add t k a ps j) = <[(t, k) := (a, ps)]> (live_map j).
Proof.
  intros Ho [Hl Hd Hops Hr Hb]. pose proof (proj1 Ho) as Hk. unfold journal_add.
  set (x := {| l_key := k; l_action := a; l_params := ps |}).
  set (live' := match journal_find j t k with Some i => _ | None => _ end).
  assert (entry_ok ((t, key_id k), x)) as Hx by done.
  assert (Forall entry_ok live' /\ NoDup (fst <$> live') /\
    list_to_map (entry_of <$> live') = <[(t, k) := (a, ps)]> (live_map j)) as (L1 & L2 & L3).
  { unfold live'. destruct (journal_find j t k) as [i |] eqn:Hf.
    - destruct (journal_find_Some _ _ _ _ Hl Hk Hf) as (e & He & Hid & Hke).
      apply lookup_split_middle in He as (l1 & l2 & El & ->). rewrite El, alter_middle. rewrite El in Hl, Hd.
      pose proof (live_keys_nodup _ Hl Hd) as Hn.
      apply Forall_app in Hl as [Hl1 Hl2]. apply Forall_cons in Hl2 as [He Hl2].
      rewrite fmap_app, fmap_cons in Hd. split; [| split].
      + apply Forall_app. split; [done |]. constructor; [| done]. by rewrite Hid.
      + by rewrite fmap_app, fmap_cons.
      + unfold live_map. rewrite El, !(fmap_app entry_of), !(fmap_cons entry_of). rewrite !(fmap_app entry_of), !(fmap_cons entry_of) in Hn.
        assert ((entry_of e).1 = (t, k)) as Hek by (unfold entry_of; rewrite Hid, Hke; done).
        assert (entry_of (e.1, x) = ((t, k), (a, ps))) as -> by (unfold entry_of; cbn; by rewrite Hid).
        rewrite (of_list_middle (_ <$> _) (entry_of e)) by done. rewrite of_list_middle.
        * cbn [fst snd]. by rewrite Hek, insert_insert_eq.
        * rewrite fmap_app, fmap_cons in Hn |- *. cbn [fst]. by rewrite <- Hek.
    - destruct (journal_find_None _ _ _ Hl Hf) as [Hn1 Hn2]. split; [| split].
      + apply Forall_app. split; [done | by constructor].
      + rewrite fmap_app. apply NoDup_app. split; [done | split; [| by apply NoDup_singleton]].
        intros y Hy ->%list_elem_of_singleton. done.
      + rewrite fmap_app. apply (list_to_map_snoc (M := gmap _)). by apply not_elem_of_list_to_map_2. }
  split; [| unfold live_map at 1; rewrite compact_live; exact L3].
  apply compact_inv; cbn; [done | done | | ].
  - apply Forall_app. split; [done | by constructor].
  - unfold replay_map in *. rewrite foldl_app, Hr. cbn. done.
Qed.

Lemma journal_remove_refines t k j :
  key_ok t k -> journal_inv j ->
  journal_inv (journal_remove t k j) /\ live_map (journal_remove t k j) = delete (t, k) (live_map j).
Proof.
  intros Hk [Hl Hd Hops Hr Hb]. unfold journal_remove.
  set (live' := match journal_find j t k with Some i => _ | None => _ end).
  assert (Forall entry_ok live' /\ NoDup (fst <$> live') /\
    list_to_map (entry_of <$> live') = delete (t, k) (live_map j)) as (L1 & L2 & L3).
  { unfold live'. destruct (journal_find j t k) as [i |] eqn:Hf.
    - destruct (journal_find_Some _ _ _ _ Hl Hk Hf) as (e & He & Hid & Hke).
      apply lookup_split_middle in He as (l1 & l2 & El & ->). rewrite El, delete_middle. rewrite El in Hl, Hd.
      pose proof (live_keys_nodup _ Hl Hd) as Hn.
      apply Forall_app in Hl as [Hl1 Hl2]. apply Forall_cons in Hl2 as [He Hl2].
      rewrite fmap_app, fmap_cons in Hd. apply NoDup_app in Hd as (Hd1 & Hd2 & Hd3).
      apply NoDup_cons in Hd3 as [_ Hd3]. split; [| split].
      + by apply Forall_app.
      + rewrite fmap_app. apply NoDup_app. split; [done | split; [| done]].
        intros y Hy Hy2. apply (Hd2 y Hy). by apply list_elem_of_further.
      + unfold live_map. rewrite El, !(fmap_app entry_of), !(fmap_cons entry_of). rewrite !(fmap_app entry_of), !(fmap_cons entry_of) in Hn.
        assert ((entry_of e).1 = (t, k)) as Hek by (unfold entry_of; rewrite Hid, Hke; done).
        rewrite (of_list_middle (_ <$> _) (entry_of e)), Hek by done. rewrite delete_insert_id; [done |].
        rewrite <- Hek. by apply (of_list_middle_None (_ <$> _) (entry_of e)).
    - destruct (journal_find_None _ _ _ Hl Hf) as [Hn1 Hn2]. split; [done | split; [done |]].
      by rewrite delete_id. }
  split; [| unfold live_map at 1; rewrite compact_live; exact L3].
  apply compact_inv; cbn; [done | done | |].
  - apply Forall_app. split; [done | by constructor].
  - unfold replay_map in *. rewrite foldl_app, Hr. cbn. done.
Qed.

Lemma replay_removes t ks m :
  foldl op_map m (JRemove t <$> ks) = filter (fun p => p.1 ∉ (pair t <$> ks)) m.
Proof.
  revert m. induction ks as [| k ks IH]; intros m; cbn.
  - symmetry. apply map_filter_id. intros i x _. cbn. apply not_elem_of_nil.
  - rewrite IH. apply map_eq. intros i. apply option_eq. intros x.
    rewrite !map_lookup_filter_Some, lookup_delete_Some. cbn. rewrite not_elem_of_cons.
    split; [intros ((? & ?) & ?) | intros (? & ? & ?)]; by repeat split; try intros ->.
Qed.

Lemma journal_clear_refines t j :
  journal_inv j ->
  journal_inv (journal_clear t j).1 /\
  live_map (journal_clear t j).1 = filter (fun p => p.1.1 <> t) (live_map j) /\
  (journal_clear t j).2 = size (filter (fun p => p.1.1 = t) (live_map j)).
Proof.
  intros [Hl Hd Hops Hr Hb].
  pose proof (live_keys_nodup _ Hl Hd) as Hn. unfold journal_clear. cbn [fst snd].
  set (victims := (fun e => l_key e.2) <$> filter (fun e => e.1.1 = t) (live j)).
  set (live' := filter (fun e => e.1.1 <> t) (live j)).
  assert (forall (P : (string * TypedKey) * (string * list TypedVal) -> Prop) (Q : (string * string) * Live -> Prop)
      (dP : forall x, Decision (P x)) (dQ : forall x, Decision (Q x)),
      (forall e, P (entry_of e) <-> Q e) ->
      list_to_map (M := Entries) (entry_of <$> filter Q (live j)) = filter P (live_map j)) as Hfilter.
  { intros P Q dP dQ HPQ. unfold live_map. symmetry. rewrite of_list_filter by done. f_equal.
    apply filter_fmap. intros e. apply HPQ. }
  assert (list_to_map (entry_of <$> live') = filter (fun p => p.1.1 <> t) (live_map j)) as L3
    by by apply Hfilter.
  split; [| split].
  - apply compact_inv; cbn [live ops].
    + rewrite Forall_forall in Hl |- *. intros e [_ He]%list_elem_of_filter. by apply Hl.
    + apply NoDup_fmap_filter. done.
    + apply Forall_app. split; [done |]. apply Forall_fmap, Forall_fmap.
      apply Forall_forall. intros e [<- He]%list_elem_of_filter. cbn.
      apply entry_key_ok. rewrite Forall_forall in Hl. by apply Hl.
    + unfold replay_map in *. rewrite foldl_app, Hr, replay_removes.
      trans (list_to_map (M := Entries) (entry_of <$> live')); [rewrite L3 | done]. apply map_filter_ext. intros [t' k] x Hx. cbn. unfold live_map in Hx.
      apply elem_of_list_to_map in Hx; [| done].
      apply list_elem_of_fmap in Hx as (e & He & Hin). injection He as -> -> _.
      split.
      * intros Hv Ht. apply Hv. apply list_elem_of_fmap. exists (l_key e.2). cbn. rewrite Ht. split; [done |].
        apply list_elem_of_fmap. exists e. by rewrite list_elem_of_filter.
      * intros Hne (k' & E & _)%list_elem_of_fmap. cbn in E. congruence.
  - unfold live_map at 1. by rewrite compact_live.
  - unfold victims. rewrite length_fmap. rewrite <- (Hfilter (fun p => p.1.1 = t) (fun e => e.1.1 = t) _ _) by done.
    rewrite map_size_list_to_map; [by rewrite length_fmap |].
    rewrite <- list_fmap_compose. apply NoDup_fmap_filter. by rewrite list_fmap_compose.
Qed.
End journal.

(** ** The laws of the interface *)

(** A control operation is a gate in front of one update of the journal. *)
Lemma x4c_publish_journal {Pipe R} (f : Journal -> Journal * R) (p : X4cPipeline Pipe) :
  desc (x4c_publish f p).1 = desc p /\ radix (x4c_publish f p).1 = radix p /\
  load (journal (x4c_publish f p).1) = (f (load (journal p))).1 /\
  version (journal (x4c_publish f p).1) = U64 (uv (version (journal p)) + 1) /\
  (x4c_publish f p).2 = (f (load (journal p))).2.
Proof. unfold x4c_publish, update, load. by destruct (f _). Qed.

Definition x4c_inv {Pipe} (p : X4cPipeline Pipe) : Prop :=
  journal_inv (d_schemas (desc p)) (load (journal p)).

(** How the installed entries answer a control operation. *)
Section spec.
Variable ss : list TableSchema.

Definition spec_add (t : string) (k : TypedKey) (a : string) (ps : list TypedVal) (m : Entries) : Entries :=
  match find_schema ss t with
  | Ok sch => if is_ok (check_key sch k) && is_ok (check sch a ps) then <[(t, k) := (a, ps)]> m else m
  | Err _ => m
  end.

Definition spec_remove (t : string) (k : TypedKey) (m : Entries) : Entries :=
  match find_schema ss t with
  | Ok sch => if is_ok (check_key sch k) then delete (t, k) m else m
  | Err _ => m
  end.

Definition spec_clear (t : string) (m : Entries) : Entries :=
  match find_schema ss t with
  | Ok _ => filter (fun p => p.1.1 <> t) m
  | Err _ => m
  end.
End spec.

Lemma is_ok_check_key sch k : is_ok (check_key sch k) = true <-> check_key sch k = Ok tt.
Proof. by destruct (check_key sch k) as [[] |]. Qed.

Lemma x4c_add_refines {Pipe} t k a ps (p : X4cPipeline Pipe) :
  x4c_inv p -> x4c_inv (x4c_add t k a ps p).1 /\
  live_map (load (journal (x4c_add t k a ps p).1)) =
    spec_add (d_schemas (desc p)) t k a ps (live_map (load (journal p))).
Proof.
  unfold x4c_inv, x4c_add, spec_add. intros Hi.
  destruct (find_schema _ t) as [sch | e] eqn:Hs; [| done]. cbn [try_op].
  pose proof (find_schema_name _ _ _ Hs) as Ht.
  destruct (check_key sch k) as [[] | e] eqn:Hk; [| done]. cbn [try_op is_ok andb].
  destruct (check sch a ps) as [act | e] eqn:Hc; [| done]. cbn [try_op is_ok].
  apply check_Ok in Hc as Ha. destruct Ha as [Ha%schema_action_name _]. rewrite Ht, Ha.
  pose proof (x4c_publish_journal (fun j => (journal_add t k a ps j, tt)) p) as (Hd & _ & Hl & _).
  destruct (x4c_publish _ p) as [p' r]. cbn [fst snd] in *. rewrite Hd, Hl.
  apply journal_add_refines; [| done]. split; exists sch; split; try done; [by apply check_key_Ok | by rewrite Hc].
Qed.

Lemma x4c_remove_refines {Pipe} t k (p : X4cPipeline Pipe) :
  x4c_inv p -> x4c_inv (x4c_remove t k p).1 /\
  live_map (load (journal (x4c_remove t k p).1)) =
    spec_remove (d_schemas (desc p)) t k (live_map (load (journal p))).
Proof.
  unfold x4c_inv, x4c_remove, spec_remove. intros Hi.
  destruct (find_schema _ t) as [sch | e] eqn:Hs; [| done]. cbn [try_op].
  pose proof (find_schema_name _ _ _ Hs) as Ht.
  destruct (check_key sch k) as [[] | e] eqn:Hk; [| done]. cbn [try_op is_ok]. rewrite Ht.
  pose proof (x4c_publish_journal (fun j => (journal_remove t k j, tt)) p) as (Hd & _ & Hl & _).
  destruct (x4c_publish _ p) as [p' r]. cbn [fst snd] in *. rewrite Hd, Hl.
  apply journal_remove_refines; [| done]. exists sch. split; [done | by apply check_key_Ok].
Qed.

Lemma x4c_clear_refines {Pipe} t (p : X4cPipeline Pipe) :
  x4c_inv p -> x4c_inv (x4c_clear t p).1 /\
  live_map (load (journal (x4c_clear t p).1)) =
    spec_clear (d_schemas (desc p)) t (live_map (load (journal p))).
Proof.
  unfold x4c_inv, x4c_clear, spec_clear. intros Hi.
  destruct (find_schema _ t) as [sch | e] eqn:Hs; [| done]. cbn [try_op].
  pose proof (find_schema_name _ _ _ Hs) as Ht. rewrite Ht.
  pose proof (x4c_publish_journal (journal_clear t) p) as (Hd & _ & Hl & _).
  destruct (x4c_publish _ p) as [p' r]. cbn [fst snd] in *. rewrite Hd, Hl.
  destruct (journal_clear_refines _ t _ Hi) as (H1 & H2 & _). done.
Qed.

Ltac x4c_gates :=
  repeat match goal with
  | |- context [find_schema ?s ?t] =>
      let E := fresh "Hs" in destruct (find_schema s t) eqn:E; cbn [try_op rbind fst snd]; [| try done]
  | |- context [check_key ?s ?k] =>
      let E := fresh "Hk" in destruct (check_key s k) as [[] |] eqn:E; cbn [try_op rbind fst snd]; [| try done]
  | |- context [check ?s ?a ?ps] =>
      let E := fresh "Hc" in destruct (check s a ps) eqn:E; cbn [try_op rbind fst snd]; [| try done]
  | |- context [x4c_publish ?f ?p] =>
      let H := fresh "Hp" in pose proof (x4c_publish_journal f p) as H;
      destruct (x4c_publish f p); cbn [try_op rbind fst snd] in *; destruct H as (Hdesc & Hradix & Hjournal & Hversion & Hret)
  end.

#[export] Instance x4c_laws {Pipe} : TableLaws (X4cPipeline Pipe) x4c_inv.
Proof.
  split; cbn -[x4c_add x4c_remove x4c_clear x4c_set_default].
  - intros. unfold x4c_add. x4c_gates. congruence.
  - intros. unfold x4c_remove. x4c_gates. congruence.
  - intros. unfold x4c_set_default. by x4c_gates.
  - intros. unfold x4c_clear. x4c_gates. congruence.
  - intros. by apply x4c_add_refines.
  - intros. by apply x4c_remove_refines.
  - intros t a ps s Hi. unfold x4c_set_default. by x4c_gates.
  - intros. by apply x4c_clear_refines.
  - intros t k a ps s s' e _. unfold x4c_add. x4c_gates; by intros [= <- <-].
  - intros t k s s' e _. unfold x4c_remove. x4c_gates; by intros [= <- <-].
  - intros t a ps s s' e _. unfold x4c_set_default. x4c_gates; by intros [= <- <-].
  - intros t s s' e _. unfold x4c_clear. x4c_gates; by intros [= <- <-].
  - intros t k a ps s s'. unfold x4c_add, schema. cbn [schemas X4c_TableOps]. x4c_gates.
    intros _. eexists. split; [done |]. split; [done |]. by rewrite Hc.
  - intros t a ps s s'. unfold x4c_set_default. by x4c_gates.
  - intros t s s' n. unfold x4c_clear. x4c_gates. intros [= <- <-]. unfold x4c_dump.
    rewrite Hdesc, Hs. cbn [rbind]. rewrite Hjournal. cbn [fst journal_clear]. rewrite compact_live. cbn [live].
    rewrite filter_filter_none; [done |]. tauto.
  - intros t s s' n l _. unfold x4c_clear, x4c_dump. x4c_gates. intros [= <- ->] [= <-].
    rewrite Hret. cbn. unfold sort_by. rewrite (Permutation_length (merge_sort_Permutation _ _)). by rewrite !length_fmap.
Qed.

(** ** Shards

    Any number of engines fold the one journal into pipelines of their own.
    The events of a run are control operations, the start of another shard,
    and a frame on some shard. *)

Inductive XEvent :=
  | XAdd (t : string) (k : TypedKey) (a : string) (ps : list TypedVal)
  | XRemove (t : string) (k : TypedKey)
  | XSetDefault (t a : string) (ps : list TypedVal)
  | XClear (t : string)
  | XSpawn
  | XFrame (shard : nat) (f : FrameCtx).

(** Frames are well formed when they come. *)
Definition event_ok (e : XEvent) : Prop := match e with XFrame _ f => ok f | _ => True end.

Definition spec_event (ss : list TableSchema) (m : Entries) (e : XEvent) : Entries :=
  match e with
  | XAdd t k a ps => spec_add ss t k a ps m
  | XRemove t k => spec_remove ss t k m
  | XClear t => spec_clear ss t m
  | _ => m
  end.

Definition spec_events (ss : list TableSchema) (es : list XEvent) : Entries := foldl (spec_event ss) ∅ es.

(** What the encoders give, where they do not fail. *)
Definition key_bytes (k : TypedKey) : bytes := default [] (encode_key k).
Definition param_bytes (ps : list TypedVal) : bytes := default [] (encode_params ps).

(** The contents of a generated pipeline hold the entries [m]: under the
    identifier of every table and the encoding of every key that belongs to
    it, the action of its entry with the encoded parameters. *)
Definition represents {Pipe} (d : Desc Pipe) (c : string -> bytes -> option (string * bytes)) (m : Entries) : Prop :=
  forall t k, key_ok (d_schemas d) t k ->
    c (table_id d t) (key_bytes k) = (fun x => (x.1, param_bytes x.2)) <$> m !! (t, k).

(** What the adapter relies on in the generated code: a new pipeline (over the
    three ports the adapter gives it at least) is sound and empty, removing a key removes its entry, adding an entry for a key that
    has none installs it, and processing a packet long enough to be parsed leaves
    the tables alone.  (Adding an entry for a key that has one is not relied on,
    nor is anything of keys, actions or parameters that no schema declares.) *)
Class P4rsLaws (Pipe : Type) `{P4rs Pipe} (d : Desc Pipe) (good : Pipe -> Prop)
    (contents : Pipe -> string -> bytes -> option (string * bytes)) : Prop := {
  p4_new r : 3 <= uv r -> good (d_new d r) /\ forall t k, contents (d_new d r) t k = None;
  p4_add t k a ps n p :
    op_ok (d_schemas d) (JAdd t k a ps) -> good p -> contents p (table_id d t) (key_bytes k) = None ->
    good (add_table_entry (table_id d t) a (key_bytes k) (param_bytes ps) n p) /\
    forall t' k', key_ok (d_schemas d) t' k' ->
      contents (add_table_entry (table_id d t) a (key_bytes k) (param_bytes ps) n p) (table_id d t') (key_bytes k') =
      if decide ((table_id d t, key_bytes k) = (table_id d t', key_bytes k')) then Some (a, param_bytes ps)
      else contents p (table_id d t') (key_bytes k');
  p4_remove t k p :
    key_ok (d_schemas d) t k -> good p ->
    good (remove_table_entry (table_id d t) (key_bytes k) p) /\
    forall t' k', key_ok (d_schemas d) t' k' ->
      contents (remove_table_entry (table_id d t) (key_bytes k) p) (table_id d t') (key_bytes k') =
      if decide ((table_id d t, key_bytes k) = (table_id d t', key_bytes k')) then None
      else contents p (table_id d t') (key_bytes k');
  p4_process port b p :
    good p -> (d_min_parse d <= length b)%nat ->
    good (process_packet port b p).1 /\ forall t k, contents (process_packet port b p).1 t k = contents p t k;
}.

(** Distinct tables have distinct identifiers. *)
Definition ids_distinct {Pipe} (d : Desc Pipe) : Prop :=
  Forall (fun s => Forall (fun s' => table_id d (table_name s) = table_id d (table_name s') ->
                                     table_name s = table_name s') (d_schemas d)) (d_schemas d).

Lemma shipped_ids {Pipe} (new : u16 -> Pipe) :
  Forall (fun d => ids_distinct d /\
            Forall (fun s => is_Some (find (fun e => bool_decide (e.1 = table_name s)) (d_ids d))) (d_schemas d))
    [L2FWD new; L3FWD new].
Proof. repeat (constructor; cbn; eauto). Qed.

Section shards.
Context {Pipe : Type} `{P4rsLaws Pipe d good contents}.
Hypothesis Hids : ids_distinct d.

Lemma key_ok_inj t1 k1 t2 k2 :
  key_ok (d_schemas d) t1 k1 -> key_ok (d_schemas d) t2 k2 ->
  (table_id d t1, key_bytes k1) = (table_id d t2, key_bytes k2) -> (t1, k1) = (t2, k2).
Proof.
  intros (s1 & Hs1 & Hk1) (s2 & Hs2 & Hk2) E. injection E as Et Ek.
  pose proof (find_schema_name _ _ _ Hs1) as N1. pose proof (find_schema_name _ _ _ Hs2) as N2.
  pose proof (find_schema_in _ _ _ Hs1) as I1. pose proof (find_schema_in _ _ _ Hs2) as I2.
  unfold ids_distinct in Hids. rewrite Forall_forall in Hids. specialize (Hids _ I1).
  rewrite Forall_forall in Hids. specialize (Hids _ I2). rewrite N1, N2 in Hids. rewrite (Hids Et) in *.
  f_equal. rewrite Hs1 in Hs2. injection Hs2 as <-. apply encode_key_inj; [congruence |].
  unfold key_bytes in Ek. rewrite !encode_key_total in *. cbn in Ek. by rewrite Ek.
Qed.

(** A sound pipeline that holds the entries [m]. *)
Definition holds_entries (p : Pipe) (m : Entries) : Prop := good p /\ represents d (contents p) m.

(** Replaying an operation on a pipeline is the operation on what it holds. *)
Lemma represents_remove t k p m :
  key_ok (d_schemas d) t k -> holds_entries p m ->
  holds_entries (remove_table_entry (table_id d t) (key_bytes k) p) (delete (t, k) m).
Proof.
  intros Hk [Hg Hr]. destruct (p4_remove t k p Hk Hg) as [Hg' Hl]. split; [done |]. intros t' k' Hk'. rewrite Hl by done.
  case_decide as E.
  - apply key_ok_inj in E as [= <- <-]; [| done | done]. by rewrite lookup_delete_eq.
  - rewrite lookup_delete_ne by (intros [= <- <-]; done). by apply Hr.
Qed.

Lemma represents_op op p m :
  op_ok (d_schemas d) op -> holds_entries p m -> holds_entries (apply_op d op p) (op_map m op).
Proof.
  intros Ho Hh. destruct op as [t k a ps | t k]; cbn [apply_op op_map]; [| by apply represents_remove].
  fold (key_bytes k) (param_bytes ps). destruct (represents_remove t k p m (proj1 Ho) Hh) as [Hg Hr].
  destruct (p4_add t k a ps (U32 0) _ Ho Hg) as [Hg' Hl]; [by rewrite Hr, lookup_delete_eq by apply Ho |].
  split; [done |]. intros t' k' Hk'. rewrite Hl by done. case_decide as E.
  - apply key_ok_inj in E as [= <- <-]; [| apply Ho | done]. by rewrite lookup_insert_eq.
  - assert ((t, k) <> (t', k')) as Hne by (intros [= <- <-]; done).
    rewrite Hr by done. by rewrite lookup_insert_ne, lookup_delete_ne by done.
Qed.

Lemma represents_replay os p m :
  Forall (op_ok (d_schemas d)) os -> holds_entries p m -> holds_entries (replay d os p) (foldl op_map m os).
Proof.
  intros Hos. revert p m. induction Hos as [| op os Ho Hos IH]; intros p m Hr; [done |].
  cbn. by apply IH, represents_op.
Qed.

Lemma represents_new r : 3 <= uv r -> holds_entries (d_new d r) ∅.
Proof. intros H3. destruct (p4_new r H3) as [Hg Hn]. split; [done |]. intros t k _. by rewrite Hn, lookup_empty. Qed.

(** *** The invariant of a run

    After [n] updates: an engine is at the current generation or an earlier
    one; at the current one it has replayed a prefix of the log; at the
    current version it has replayed all of it. *)

Record engine_inv (n : nat) (p : X4cPipeline Pipe) (e : X4cEngine Pipe) : Prop := {
  ei_desc : e_desc e = d;
  ei_generation : uv (e_generation e) <= uv (generation (load (journal p)));
  ei_prefix : e_generation e = generation (load (journal p)) ->
    (applied e <= length (ops (load (journal p))))%nat /\
    represents d (contents (pipe e)) (replay_map (take (applied e) (ops (load (journal p)))));
  ei_good : good (pipe e);
  ei_radix : 3 <= uv (e_radix e);
  ei_version : (exists m, (m <= n)%nat /\ e_version e = U64 (Z.of_nat m)) \/ e_version e = U64 (umax 64);
  ei_current : e_version e = version (journal p) ->
    e_generation e = generation (load (journal p)) /\ applied e = length (ops (load (journal p)));
}.

Record pipeline_inv (n : nat) (p : X4cPipeline Pipe) : Prop := {
  pi_desc : desc p = d;
  pi_journal : x4c_inv p;
  pi_version : version (journal p) = U64 (Z.of_nat n);
  pi_generation : uv (generation (load (journal p))) <= Z.of_nat n;
  pi_radix : 3 <= uv (radix p);
}.

(** What every update does: append operations, and maybe compact. *)
Definition extends (j j' : Journal) : Prop :=
  exists os, j' = compact {| generation := generation j; ops := ops j ++ os; live := live j' |}.

Lemma uv_U64_nat n : Z.of_nat n < 2 ^ 64 -> uv (U64 (Z.of_nat n)) = Z.of_nat n.
Proof. intros H1. apply uv_of_small. change (Z.of_N 64) with 64. lia. Qed.

Lemma engine_inv_update n p p' e :
  Z.of_nat (S n) < 2 ^ 64 - 1 -> pipeline_inv n p -> engine_inv n p e ->
  version (journal p') = U64 (uv (version (journal p)) + 1) ->
  extends (load (journal p)) (load (journal p')) ->
  engine_inv (S n) p' e.
Proof.
  intros Hn [Hd Hj Hv Hg _] [E1 E2 E3 E6 E7 E4 E5] Hv' [os Hx].
  assert (version (journal p') = U64 (Z.of_nat (S n))) as Hv1.
  { rewrite Hv', Hv, uv_U64_nat by lia. f_equal. lia. }
  split; [done | | | done | done | |].
  - rewrite Hx. unfold compact. case_decide; cbn; [done |].
    rewrite uv_of_small by (change (Z.of_N 64) with 64; pose proof (uint_range (generation (load (journal p)))); lia).
    lia.
  - rewrite Hx. unfold compact. case_decide; cbn; intros Eg.
    + destruct (E3 Eg) as [Ha Hr]. rewrite length_app, take_app_le by done. split; [lia | done].
    + exfalso. rewrite Eg in E2. rewrite uv_of_small in E2; [lia |].
      change (Z.of_N 64) with 64. pose proof (uint_range (generation (load (journal p)))). lia.
  - destruct E4 as [(m & Hm & E4) | E4]; [left; exists m; split; [lia | done] | by right].
  - intros Ev. exfalso. destruct E4 as [(m & Hm & E4) | E4]; rewrite E4, Hv1 in Ev; apply (f_equal uv) in Ev.
    + rewrite !uv_U64_nat in Ev by lia. lia.
    + rewrite uv_U64_nat, uv_of_small in Ev by (unfold umax; cbn; lia). unfold umax in Ev. cbn in Ev. lia.
Qed.

(** A synced engine holds exactly the live entries. *)
Lemma sync_inv n p e :
  pipeline_inv n p -> engine_inv n p e ->
  engine_inv n p (sync (journal p) e) /\
  holds_entries (pipe (sync (journal p) e)) (live_map (load (journal p))).
Proof.
  intros [Hd Hj Hv Hg Hr3] He. pose proof He as [E1 E2 E3 E6 E7 E4 E5]. unfold x4c_inv in Hj. rewrite Hd in Hj.
  unfold sync. case_decide as D.
  - split; [done |]. destruct (E5 (eq_sym D)) as [Hgen Happ]. destruct (E3 Hgen) as [_ Hr].
    rewrite Happ, take_ge, (ji_replay _ _ Hj) in Hr by done. by split.
  - destruct (if decide _ then _ else _) as [p0 applied0] eqn:Hp0.
    set (j := load (journal p)) in *.
    assert ((applied0 <= length (ops j))%nat /\ holds_entries p0 (replay_map (take applied0 (ops j))))
      as [Ha Hr].
    { case_decide as G; injection Hp0 as <- <-; [by destruct (E3 (eq_sym G)) |]. split; [lia |].
      rewrite E1. by apply represents_new. }
    assert (holds_entries (replay d (drop applied0 (ops j)) p0) (live_map j)) as Hlive.
    { rewrite <- (ji_replay _ _ Hj). rewrite <- (take_drop applied0 (ops j)) at 2.
      unfold replay_map at 1. rewrite foldl_app. apply represents_replay; [| done].
      apply Forall_drop, (ji_ops _ _ Hj). }
    rewrite E1. split; [| exact Hlive]. split; cbn; fold j.
    + done.
    + done.
    + intros _. fold (replay_map (take (length (ops j)) (ops j))). rewrite take_ge, (ji_replay _ _ Hj) by done.
      split; [done | apply Hlive].
    + apply Hlive.
    + done.
    + left. exists n. split; [done | exact Hv].
    + done.
Qed.
End shards.

Section runs.
Context {Pipe : Type} `{P4rs Pipe}.

Definition run_event (s : X4cPipeline Pipe * list (X4cEngine Pipe)) (e : XEvent)
    : X4cPipeline Pipe * list (X4cEngine Pipe) :=
  let '(p, engines) := s in
  match e with
  | XAdd t k a ps => ((table_add t k a ps p).1, engines)
  | XRemove t k => ((table_remove t k p).1, engines)
  | XSetDefault t a ps => ((table_set_default t a ps p).1, engines)
  | XClear t => ((table_clear t p).1, engines)
  | XSpawn => (p, engines ++ [engine p])
  | XFrame i f => (p, alter (fun e => (process p f e).1.1) i engines)
  end.

Definition run_events (d : Desc Pipe) (params : PipelineParams) (es : list XEvent)
    : X4cPipeline Pipe * list (X4cEngine Pipe) :=
  foldl run_event (x4c_new d params, []) es.
End runs.

(** A control operation publishes one successor of the journal, or nothing. *)
Definition publishes {Pipe E} (p : X4cPipeline Pipe) (engines : E) (s : X4cPipeline Pipe * E) : Prop :=
  s.1 = p \/ exists (f : Journal -> Journal * nat), s = ((x4c_publish f p).1, engines) /\ forall j, extends j (f j).1.

Lemma compacted_extends j j' os :
  j' = compact {| generation := generation j; ops := ops j ++ os; live := live j' |} -> extends j j'.
Proof. intros H. by exists os. Qed.

Lemma run_event_publishes `{P4rs Pipe} (p : X4cPipeline Pipe) engines e :
  publishes p engines (run_event (p, engines) e).
Proof.
  destruct e as [t k a ps | t k | t a ps | t | | i f]; cbn -[x4c_add x4c_remove x4c_clear x4c_set_default];
    [| | | | by left | by left].
  - unfold x4c_add. destruct (find_schema _ _) as [sch |]; cbn [try_op]; [| by left].
    destruct (check_key _ _); cbn [try_op]; [| by left]. destruct (check _ _ _) as [act |]; cbn [try_op]; [| by left].
    right. exists (fun j => (journal_add (table_name sch) k (action_name act) ps j, 0%nat)). split; [done |].
    intros j. cbn [fst].
    eapply compacted_extends. unfold journal_add, journal_remove. rewrite compact_live. reflexivity.
  - unfold x4c_remove. destruct (find_schema _ _) as [sch |]; cbn [try_op]; [| by left].
    destruct (check_key _ _); cbn [try_op]; [| by left].
    right. exists (fun j => (journal_remove (table_name sch) k j, 0%nat)). split; [done |].
    intros j. cbn [fst].
    eapply compacted_extends. unfold journal_add, journal_remove. rewrite compact_live. reflexivity.
  - left. unfold x4c_set_default. by destruct (find_schema _ _).
  - unfold x4c_clear. destruct (find_schema _ _) as [sch |]; cbn [try_op]; [| by left].
    right. exists (journal_clear (table_name sch)). split; [by destruct (x4c_publish _ _) |].
    intros j. eapply compacted_extends. cbn [fst journal_clear]. rewrite compact_live. reflexivity.
Qed.

Lemma run_event_refines `{P4rs Pipe} (p : X4cPipeline Pipe) engines e :
  x4c_inv p -> x4c_inv (run_event (p, engines) e).1 /\
  live_map (load (journal (run_event (p, engines) e).1)) =
    spec_event (d_schemas (desc p)) (live_map (load (journal p))) e.
Proof.
  destruct e as [t k a ps | t k | t a ps | t | | i f]; cbn -[x4c_add x4c_remove x4c_clear x4c_set_default];
    [apply x4c_add_refines | apply x4c_remove_refines | | apply x4c_clear_refines | done | done].
  unfold x4c_set_default. by destruct (find_schema _ _).
Qed.

Section runs_inv.
Context {Pipe : Type} `{P4rsLaws Pipe d good contents}.
Hypothesis Hids : ids_distinct d.

Definition system_inv (n : nat) (s : X4cPipeline Pipe * list (X4cEngine Pipe)) : Prop :=
  pipeline_inv (d := d) n s.1 /\ Forall (engine_inv (d := d) (good := good) (contents := contents) n s.1) s.2.

(** An update of the journal, seen from the whole system. *)
Lemma system_inv_publish {R} (f : Journal -> Journal * R) n p engines :
  Z.of_nat (S n) < 2 ^ 64 - 1 -> system_inv n (p, engines) ->
  x4c_inv (x4c_publish f p).1 ->
  extends (load (journal p)) (f (load (journal p))).1 ->
  system_inv (S n) ((x4c_publish f p).1, engines).
Proof.
  intros Hn [Hp He] Hj Hx. cbn [fst snd] in *. pose proof (x4c_publish_journal f p) as (Hd & Hrx & Hl & Hv & _).
  pose proof Hp as [P1 P2 P3 P4 P5].
  split; cbn [fst snd].
  - split; [congruence | done | | | by rewrite Hrx].
    + rewrite Hv, P3, uv_U64_nat by lia. f_equal. lia.
    + rewrite Hl. destruct Hx as [os ->]. unfold compact. case_decide; cbn; [lia |].
      rewrite uv_of_small; [lia |]. change (Z.of_N 64) with 64.
      pose proof (uint_range (generation (load (journal p)))). lia.
  - eapply Forall_impl; [exact He |]. intros e Hi.
    apply (engine_inv_update n p); try done. by rewrite Hl.
Qed.

Lemma process_pipe p f e :
  e_desc (sync (journal p) e) = d -> good (pipe (sync (journal p) e)) -> ok f ->
  exists q b sc, (process p f e).1.1 = with_run (sync (journal p) e) q b sc /\ good q /\
    forall t k, contents q t k = contents (pipe (sync (journal p) e)) t k.
Proof.
  change (process p f e) with (x4c_run f (sync (journal p) e)). generalize (sync (journal p) e) as e'.
  intros e' Hd Hg Hf. unfold x4c_run. case_decide.
  - exists (pipe e'), (scratch_in e'), (scratch_out e'). by destruct e'.
  - destruct (p4_process (U16 0) (frame f) (pipe e') Hg) as [Hg' Hc]; [rewrite length_frame, <- Hd by done; lia |].
    destruct (process_packet _ _ _) as [p' out]. destruct (read_outputs out _) as [vd scratch].
    exists p', (frame f), scratch. by destruct vd.
Qed.

Lemma system_inv_event n s e :
  Z.of_nat (S n) < 2 ^ 64 - 1 -> event_ok e -> system_inv n s -> exists m, (m <= S n)%nat /\ system_inv m (run_event s e).
Proof.
  destruct s as [p engines]. intros Hn Hev Hs. pose proof Hs as [Hp He]. cbn [fst snd] in *.
  destruct (run_event_refines p engines e (pi_journal _ _ Hp)) as [Hinv _].
  destruct (run_event_publishes p engines e) as [Hpub | (f & Hpub & Hx)].
  - exists n. split; [lia |]. destruct e as [t k a ps | t k | t a ps | t | | i f]; cbn [run_event] in *;
      cbn [fst] in Hpub; try (rewrite Hpub; done).
    + split; [done |]. cbn [snd fst]. apply Forall_app. split; [done |]. apply Forall_singleton.
      destruct Hp as [P1 P2 P3 P4 P5]. split; cbn.
      * done.
      * rewrite uv_of_small by (cbn; lia). apply uint_range.
      * intros _. rewrite P1. split; [lia |]. by apply represents_new.
      * rewrite P1. by destruct (p4_new (P4rsLaws := H0) (radix p) P5).
      * done.
      * by right.
      * intros E. rewrite P3 in E. apply (f_equal uv) in E.
        rewrite uv_U64_nat, uv_of_small in E by (unfold umax; cbn; lia). unfold umax in E. cbn in E. lia.
    + split; [done |]. cbn [snd fst]. apply Forall_alter; [done |]. intros e _ Hie.
      destruct (sync_inv Hids n p e Hp Hie) as [[E1 E2 E3 E6 E7 E4 E5] _].
      destruct (process_pipe p f e E1 E6 Hev) as (q & b & sc & -> & Hq & Hc).
      split; cbn [with_run e_desc e_generation applied e_version pipe]; try done.
      intros Eg. destruct (E3 Eg) as [Ha Hr]. split; [done |]. intros t k Hk. rewrite Hc. by apply Hr.
  - exists (S n). split; [done |].
    rewrite Hpub. apply (system_inv_publish f n p engines Hn Hs); [| apply Hx].
    rewrite Hpub in Hinv. exact Hinv.
Qed.
End runs_inv.

#[export] Instance x4c_by_key_trans : Transitive (cmp_le x4c_by_key).
Proof. intros x y z. apply string_le_trans. Qed.
#[export] Instance x4c_by_key_total : Total (cmp_le x4c_by_key).
Proof. intros x y. apply string_le_total. Qed.

Lemma run_events_inv `{P4rs Pipe} (d : Desc Pipe) params es :
  let p := (run_events d params es).1 in
  desc p = d /\ x4c_inv p /\ live_map (load (journal p)) = spec_events (d_schemas d) es.
Proof.
  unfold run_events, spec_events. induction es as [| e es IH] using rev_ind.
  - split; [done | split; [apply journal_inv_default | done]].
  - rewrite !foldl_app. cbn [foldl]. destruct (foldl _ _ _) as [p engines].
    destruct IH as (Hd & Hi & Hm). cbn [fst] in *.
    destruct (run_event_refines p engines e Hi) as [Hi' Hm']. rewrite Hm', Hd, Hm. split; [| done].
    destruct (run_event_publishes p engines e) as [-> | (f & -> & _)]; [done |]. cbn [fst].
    by rewrite (proj1 (x4c_publish_journal f p)).
Qed.

(** The row of a dump an installed entry becomes. *)
Definition x4c_row (sch : TableSchema) (x : (string * TypedKey) * (string * list TypedVal)) : EntryDesc :=
  x4c_describe sch {| l_key := x.1.2; l_action := x.2.1; l_params := x.2.2 |}.

Lemma live_map_perm ss j : journal_inv ss j -> map_to_list (live_map j) ≡ₚ entry_of <$> live j.
Proof. intros [Hl Hd _ _ _]. apply map_to_list_to_map. by apply (live_keys_nodup ss). Qed.

Lemma x4c_dump_entries {Pipe} t (p : X4cPipeline Pipe) sch :
  x4c_inv p -> find_schema (d_schemas (desc p)) t = Ok sch ->
  x4c_dump t p = Ok (sort_by x4c_by_key (x4c_row sch <$>
    map_to_list (filter (fun x => x.1.1 = t) (live_map (load (journal p)))))).
Proof.
  intros Hi Hs. unfold x4c_dump. rewrite Hs. cbn [rbind]. f_equal.
  rewrite (find_schema_name _ _ _ Hs). unfold x4c_inv in Hi. set (j := load (journal p)) in *.
  pose proof Hi as [Hl Hd _ _ _]. set (ss := d_schemas (desc p)) in *.
  assert (((fun e => x4c_describe sch e.2) <$> filter (fun e => e.1.1 = t) (live j)) =
          x4c_row sch <$> (entry_of <$> filter (fun e => e.1.1 = t) (live j))) as ->.
  { rewrite <- list_fmap_compose. apply list_fmap_ext. by intros i [k []] _. }
  apply sort_by_unique; try apply _.
  - intros x y (x' & -> & (e1 & -> & [T1 H1]%list_elem_of_filter)%list_elem_of_fmap)%list_elem_of_fmap
      (y' & -> & (e2 & -> & [T2 H2]%list_elem_of_filter)%list_elem_of_fmap)%list_elem_of_fmap L1 L2.
    pose proof (string_le_antisym _ _ L1 L2) as E. cbn in E.
    rewrite Forall_forall in Hl. pose proof (entry_key_ok ss _ (Hl _ H1)) as K1.
    pose proof (entry_key_ok ss _ (Hl _ H2)) as K2. rewrite T1 in K1. rewrite T2 in K2.
    pose proof (key_id_inj ss t _ _ K1 K2 E) as Ek.
    assert (entry_of e1 = entry_of e2) as ->; [| done].
    assert ((entry_of e1).1 = (entry_of e2).1) as E1 by (cbn; congruence).
    assert (live_map j !! (entry_of e1).1 = Some (entry_of e1).2) as M1.
    { apply elem_of_list_to_map; [apply (live_keys_nodup ss); [by apply Forall_forall | done] |].
      rewrite <- surjective_pairing. by apply list_elem_of_fmap_2. }
    assert (live_map j !! (entry_of e2).1 = Some (entry_of e2).2) as M2.
    { apply elem_of_list_to_map; [apply (live_keys_nodup ss); [by apply Forall_forall | done] |].
      rewrite <- surjective_pairing. by apply list_elem_of_fmap_2. }
    rewrite E1, M2 in M1. rewrite (surjective_pairing (entry_of e1)), (surjective_pairing (entry_of e2)).
    congruence.
  - apply fmap_Permutation. unfold live_map. rewrite of_list_filter by by apply (live_keys_nodup ss).
    rewrite map_to_list_to_map; [by rewrite (filter_fmap _ _ (fun e => e.1.1 = t)) |].
    apply NoDup_fmap_filter. by apply (live_keys_nodup ss).
Qed.

(** ** Properties *)

(** C12: the journal is a faithful history.  After any sequence of control
    operations (and whatever else happens) the log replayed from nothing and
    the live set are both exactly the entries those operations leave
    installed; the log is bounded by twice their number plus sixteen; and a
    dump lists them, sorted by the text of their keys. *)
Theorem x4c_journal_refines {Pipe} `{P4rs Pipe} (d : Desc Pipe) (params : PipelineParams) (es : list XEvent) :
  let j := load (journal (run_events d params es).1) in
  let m := spec_events (d_schemas d) es in
  replay_map (ops j) = m /\ live_map j = m /\
  (length (ops j) <= 2 * size m + 16)%nat /\
  forall t sch, find_schema (d_schemas d) t = Ok sch ->
    table_dump t (run_events d params es).1 =
      Ok (sort_by x4c_by_key (x4c_row sch <$> map_to_list (filter (fun x => x.1.1 = t) m))).
Proof.
  intros j m. destruct (run_events_inv d params es) as (Hd & Hi & Hm). fold j m in Hm.
  pose proof Hi as Hj. unfold x4c_inv in Hj. fold j in Hj.
  split; [| split; [done | split]].
  - by rewrite (ji_replay _ _ Hj).
  - pose proof (ji_bound _ _ Hj). rewrite <- Hm, <- length_map_to_list, (live_map_perm _ _ Hj), length_fmap. done.
  - intros t sch Hs. rewrite <- Hm. apply x4c_dump_entries; [done |]. by rewrite Hd.
Qed.

Lemma x4c_radix {Pipe} (d : Desc Pipe) params : 3 <= uv (radix (x4c_new d params)).
Proof.
  cbn [x4c_new radix]. set (highest := foldr Z.max 0 _).
  assert (0 <= highest) by (unfold highest; clear; generalize (uv <$> vports params); intros l; induction l as [| v l IH]; cbn [foldr]; lia).
  change (umax 16) with 65535. rewrite uv_of_small; [lia |]. change (2 ^ Z.of_N 16) with 65536. lia.
Qed.

(** A shard meets its next frame with the installed entries. *)
Lemma shards_hold {Pipe} `{P4rsLaws Pipe d good contents} (params : PipelineParams) (es : list XEvent) i e :
  ids_distinct d -> Forall event_ok es -> Z.of_nat (length es) < 2 ^ 64 - 1 ->
  (run_events d params es).2 !! i = Some e ->
  e_desc (sync (journal (run_events d params es).1) e) = d /\
  holds_entries (d := d) (good := good) (contents := contents)
    (pipe (sync (journal (run_events d params es).1) e)) (spec_events (d_schemas d) es).
Proof.
  intros Hids Hok Hn Hi. destruct (run_events_inv d params es) as (Hd & Hinv & Hm). rewrite <- Hm.
  assert (exists n, (n <= length es)%nat /\
    system_inv (d := d) (good := good) (contents := contents) n (run_events d params es)) as (n & Hle & [Hp He]).
  { clear Hi Hd Hinv Hm. unfold run_events. induction es as [| ev es IH] using rev_ind.
    - exists 0%nat. split; [done |]. split; [| constructor].
      split; cbn; [done | apply journal_inv_default | done | done | apply (x4c_radix d)].
    - rewrite length_app in Hn. cbn [length] in Hn. apply Forall_app in Hok as [Hok Hev]. apply Forall_inv in Hev.
      destruct IH as (n & Hle & Hs); [done | lia |].
      rewrite foldl_app. cbn [foldl]. destruct (system_inv_event Hids n _ ev ltac:(lia) Hev Hs) as (m & Hm & Hs').
      exists m. split; [rewrite length_app; cbn; lia | done]. }
  rewrite Forall_lookup in He. destruct (sync_inv Hids n _ e Hp (He _ _ Hi)) as [[E1 _ _ _ _ _ _] Hr]. done.
Qed.


(** A generated pipeline reduced to its tables: it drops every packet. *)
#[local] Instance Toy_P4rs : P4rs (gmap (string * bytes) (string * bytes)) := {
  add_table_entry t a k ps _ p := <[(t, k) := (a, ps)]> p;
  remove_table_entry t k p := delete (t, k) p;
  process_packet _ _ p := (p, []);
}.

Definition toy : Desc (gmap (string * bytes) (string * bytes)) := L2FWD (fun _ => ∅).

#[local] Instance Toy_laws : P4rsLaws _ toy (fun _ => True) (fun p t k => p !! (t, k)).
Proof.
  split; try done.
  - intros t a k ps n p _ _ _. split; [done |]. intros t' k' _. cbn. case_decide as E; [rewrite E; apply lookup_insert_eq |].
    by apply lookup_insert_ne.
  - intros t k p _ _. split; [done |]. intros t' k' _. cbn. case_decide as E; [rewrite E; apply lookup_delete_eq |].
    by apply lookup_delete_ne.
Qed.


(** The frame a lone output to the broadcast port leaves behind is not that
    output.  The adapter takes the bytes of a [Forward] and of an expanded
    broadcast from the packet, but on the arm for port 65534 it fills nothing
    in and then writes back the buffer of the last frame that was: here, the
    bytes of an earlier frame, forwarded somewhere else. *)
Theorem x4c_lone_broadcast_is_stale {Pipe} `{P4rs Pipe} (e : X4cEngine Pipe) (f1 f2 : FrameCtx)
    pkt1 port pkt2 q1 q2 :
  ok f2 -> (d_min_parse (e_desc e) <= len f1)%nat -> (d_min_parse (e_desc e) <= len f2)%nat ->
  process_packet (U16 0) (frame f1) (pipe e) = (q1, [(pkt1, port)]) ->
  process_packet (U16 0) (frame f2) q1 = (q2, [(pkt2, BROADCAST_PORT)]) ->
  port <> PUNT_PORT -> port <> BROADCAST_PORT ->
  (x4c_run f1 e).2 = Forward port /\
  let bytes1 := header_data pkt1 ++ payload_data pkt1 in
  let '(_, f2', verdict) := x4c_run f2 (x4c_run f1 e).1.1 in
  verdict = Broadcast /\ frame f2' = take (len f2) bytes1 ++ drop (length bytes1) (frame f2).
Proof.
  intros Hok Hm1 Hm2 H1 H2 Hp Hb.
  assert (exists f1', x4c_run f1 e =
    (with_run e q1 (frame f1) (header_data pkt1 ++ payload_data pkt1), f1', Forward port)) as [f1' ->].
  { unfold x4c_run. rewrite (decide_False (P := (_ < _)%nat)) by lia. rewrite H1. cbn [read_outputs].
    rewrite (decide_False (P := port = PUNT_PORT)), (decide_False (P := port = BROADCAST_PORT)) by done. eauto. }
  cbn [fst snd]. split; [done |].
  unfold x4c_run. cbn [with_run e_desc pipe]. rewrite (decide_False (P := (_ < _)%nat)) by lia. rewrite H2.
  cbn [read_outputs]. rewrite (decide_False (P := BROADCAST_PORT = PUNT_PORT)) by done.
  rewrite (decide_True (P := BROADCAST_PORT = BROADCAST_PORT)) by done. split; [done |].
  cbn [scratch_out with_run]. set (b := header_data pkt1 ++ payload_data pkt1).
  set (g := fun fr => take (len f2 `min` length b)%nat b ++ drop (len f2 `min` length b)%nat fr).
  destruct (frame_mut_ok g f2 Hok) as (_ & _ & ->).
  { unfold g. rewrite length_app, length_take, length_drop, length_frame by done. lia. }
  unfold g. destruct (decide (len f2 <= length b)%nat) as [D | D].
  - rewrite Nat.min_l by done. rewrite !drop_ge; [done | |]; rewrite length_frame; (done || lia).
  - rewrite Nat.min_r by lia. by rewrite !take_ge by lia.
Qed.

(** A pipeline with one output per packet: to port 7 when the frame starts
    with a 1, to the broadcast port otherwise. *)
#[local] Instance Echo_P4rs : P4rs unit := {
  add_table_entry _ _ _ _ _ p := p;
  remove_table_entry _ _ p := p;
  process_packet _ b p :=
    (p, [({| header_data := b; payload_data := [] |},
          if decide (head b = Some (U8 1)) then U16 7 else BROADCAST_PORT)]);
}.

Lemma x4c_lone_broadcast_is_stale_witness :
  let e := x4c_engine (x4c_new (L2FWD (fun _ => tt)) {| vports := [] |}) in
  let f x := {| buf := replicate 14 (U8 x); headroom := 0; len := 14; ingress_vport := U16 0; rx_ts_us := U32 0 |} in
  (x4c_run (f 1) e).2 = Forward (U16 7) /\
  let '(_, f2', verdict) := x4c_run (f 2) (x4c_run (f 1) e).1.1 in
  verdict = Broadcast /\ frame f2' = take 14 (replicate 14 (U8 1)) ++ drop 14 (replicate 14 (U8 2)).
Proof.
  intros e f.
  apply (x4c_lone_broadcast_is_stale e (f 1) (f 2)
    {| header_data := replicate 14 (U8 1); payload_data := [] |} (U16 7)
    {| header_data := replicate 14 (U8 2); payload_data := [] |} tt tt).
  - unfold ok. cbn. lia.
  - cbn. lia.
  - cbn. lia.
  - vm_compute. reflexivity.
  - vm_compute. reflexivity.
  - intros E. apply (f_equal uv) in E. vm_compute in E. done.
  - intros E. apply (f_equal uv) in E. vm_compute in E. done.
Defined.

(** The live set identifies a prefix by its text as it was given, host bits
    included; the native router by the canonical prefix. *)
Lemma x4c_prefixes_not_canonical :
  let key x := KeyLpm (ValIpv4 (ip_of [U8 10; U8 0; U8 0; U8 x])) (U8 24) in
  let ps := [ValU16 (U16 1); ValMac (mac_of [U8 2; U8 0; U8 0; U8 0; U8 0; U8 1])] in
  let '(p1, r1) := x4c_add "ipv4_lpm" (key 0) "forward" ps (x4c_new (L3FWD (fun _ => tt)) {| vports := [] |}) in
  let '(p2, r2) := x4c_add "ipv4_lpm" (key 5) "forward" ps p1 in
  let '(n1, s1) := L3.add "ipv4_lpm" (key 0) "forward" ps (L3.new {| vports := [] |}) in
  let '(n2, s2) := L3.add "ipv4_lpm" (key 5) "forward" ps n1 in
  r1 = Ok tt /\ r2 = Ok tt /\ s1 = Ok tt /\ s2 = Ok tt /\
  (map entry_key <$> to_option (x4c_dump "ipv4_lpm" p2)) = Some ["10.0.0.0/24"; "10.0.0.5/24"] /\
  (map entry_key <$> to_option (L3.dump "ipv4_lpm" n2)) = Some ["10.0.0.0/24"].
Proof. vm_compute. repeat split. Qed.
