(* ===== verification/GenL2.v ===== *)
(** * l2fwd as x4c compiled it (crates/up4-x4c/src/generated/l2fwd.rs)

    The generated pipeline over the classes of [X4cRuntime].  A method that
    panics answers [None]; the trait object [P4rs] sees that as a pipeline that
    is gone. *)

From S2P Require Import Prelude Bytes Text Value Shim Frame L2Fwd P4 X4cAbi X4cRuntime X4c.

Local Open Scope Z_scope.

(** ** The Ethernet header, which both programs have *)

Module Eth.
Section header.
Context {BV : Type} `{HB : Bitvec BV}.

Record ethernet_h := { valid : bool; dst : BV; src : BV; ether_type : BV }.

Definition ethernet_default : ethernet_h := {| valid := false; dst := bv_default; src := bv_default; ether_type := bv_default |}.

Definition set (buf : bytes) (h : ethernet_h) : ethernet_h :=
  {| valid := valid h; dst := field_set 0 48 buf; src := field_set 48 96 buf; ether_type := field_set 96 112 buf |}.

Definition set_valid (h : ethernet_h) : ethernet_h :=
  {| valid := true; dst := dst h; src := src h; ether_type := ether_type h |}.

#[global] Instance ethernet_Header : Header ethernet_h := { h_size := 112; h_set := set; h_set_valid := set_valid }.

Definition to_bitvec (h : ethernet_h) : BV :=
  field_emit 96 112 (ether_type h) (field_emit 48 96 (src h) (field_emit 0 48 (dst h) (bv_zeros 112))).
End header.
Arguments ethernet_h BV : clear implicits.

Section laws.
Context {BV : Type} `{HB : Bitvec BV} {bits : BV -> list bool} {head : BV -> nat} {HL : BitvecLaws BV bits head}.

(** A header that stands for fourteen bytes of a frame. *)
Record holds (h : ethernet_h BV) (d s t : bytes) : Prop := {
  ho_dst : bits (dst h) = bits_of (reverse d) /\ head (dst h) = 0%nat;
  ho_src : bits (src h) = bits_of (reverse s) /\ head (src h) = 0%nat;
  ho_type : bits (ether_type h) = bits_of (reverse t) /\ head (ether_type h) = 0%nat;
  ho_valid : valid h = true;
}.

Lemma eth_set_holds buf h :
  length buf = 14%nat -> holds (set_valid (set buf h)) (slice 0 6 buf) (slice 6 12 buf) (slice 12 14 buf).
Proof.
  intros Hl. split; cbn [set_valid set dst src ether_type valid]; [| | | done].
  - apply (field_set_bytes 0 6); lia.
  - apply (field_set_bytes 6 12); lia.
  - apply (field_set_bytes 12 14); lia.
Qed.

Lemma eth_to_bitvec_holds h d s t :
  holds h d s t -> length d = 6%nat -> length s = 6%nat -> length t = 2%nat ->
  written (bits := bits) (head := head) (to_bitvec h) (bits_of (d ++ s ++ t)) 112.
Proof.
  intros [[D1 D2] [S1 S2] [T1 T2] _] Hd Hs Ht. unfold to_bitvec.
  pose proof (emit_bytes 0 6 (reverse d) (dst h) (bv_zeros 112) [] 112 (written_start 112)) as W1.
  rewrite reverse_involutive in W1. specialize (W1 eq_refl ltac:(lia) ltac:(lia) D1 D2 ltac:(by rewrite length_reverse)).
  pose proof (emit_bytes 6 12 (reverse s) (src h) _ _ 112 W1) as W2.
  rewrite reverse_involutive in W2.
  specialize (W2 ltac:(cbn [app]; rewrite length_bits_of; lia) ltac:(lia) ltac:(lia) S1 S2 ltac:(by rewrite length_reverse)).
  pose proof (emit_bytes 12 14 (reverse t) (ether_type h) _ _ 112 W2) as W3.
  rewrite reverse_involutive in W3.
  specialize (W3 ltac:(cbn [app]; rewrite length_app, !length_bits_of; lia) ltac:(lia) ltac:(lia) T1 T2 ltac:(by rewrite length_reverse)).
  rewrite !bits_of_app, (assoc_L (++)). exact W3.
Qed.
End laws.
End Eth.

(** ** The pipeline *)

Module G2.
Section program.
Context {BV : Type} `{HB : Bitvec BV} `{HP : !P4rt BV}.

Record egress_metadata_t := {
  eg_port : BV;
  nexthop_v6 : BV;
  nexthop_v4 : BV;
  eg_drop : bool;
  eg_broadcast : bool;
}.

Definition egress_default : egress_metadata_t :=
  {| eg_port := bv_default; nexthop_v6 := bv_default; nexthop_v4 := bv_default; eg_drop := false; eg_broadcast := false |}.

Record ingress_metadata_t := { in_port : BV; nat_ : bool; nat_id : BV; in_drop : bool }.

Record headers_t := { ethernet : Eth.ethernet_h BV }.

Definition headers_default : headers_t := {| ethernet := Eth.ethernet_default |}.

Definition valid_header_size (h : headers_t) : nat :=
  if Eth.valid (ethernet h) then 112 else 0.

Definition headers_to_bitvec (h : headers_t) : BV :=
  let x := bv_zeros (valid_header_size h) in
  if Eth.valid (ethernet h) then or_range 0 112 0 (Eth.to_bitvec (ethernet h)) x else x.

(** The three things a closure of the table may change. *)
Abbreviation State := (headers_t * ingress_metadata_t * egress_metadata_t)%type.
Abbreviation Act := (State -> State).

Definition ingress_action_forward (port : BV) : Act := fun '(hdr, ingress, egress) =>
  (hdr, ingress,
   {| eg_port := port; nexthop_v6 := nexthop_v6 egress; nexthop_v4 := nexthop_v4 egress;
      eg_drop := eg_drop egress; eg_broadcast := eg_broadcast egress |}).

Definition ingress_action_drop : Act := fun '(hdr, ingress, egress) =>
  (hdr, ingress,
   {| eg_port := eg_port egress; nexthop_v6 := nexthop_v6 egress; nexthop_v4 := nexthop_v4 egress;
      eg_drop := true; eg_broadcast := eg_broadcast egress |}).

Definition ingress_action_broadcast : Act := fun '(hdr, ingress, egress) =>
  (hdr, ingress,
   {| eg_port := eg_port egress; nexthop_v6 := nexthop_v6 egress; nexthop_v4 := nexthop_v4 egress;
      eg_drop := eg_drop egress; eg_broadcast := true |}).

Definition parse_start (pkt : Packet) (hdr : headers_t) : option (Packet * headers_t * bool) :=
  '(pkt, eth) ← extract pkt (ethernet hdr);
  Some (pkt, {| ethernet := eth |}, true).

Definition egress_apply : Act := fun s => s.

Definition ingress_mac_dst : Tab Act := tab_new Act.

Definition ingress_apply (mac_dst : Tab Act) : Act := fun s =>
  match match_selector [biguint (Eth.dst (ethernet s.1.1))] mac_dst with
  | first :: _ => te_action first s
  | [] => ingress_action_broadcast s
  end.

(** [main_pipeline], less the three function fields, which [new] fixes. *)
Record main_pipeline := { mac_dst : Tab Act; radix : u16 }.

Definition new (radix : u16) : main_pipeline := {| mac_dst := ingress_mac_dst; radix := radix |}.

(** The sixteen bits of a port, as the generated code spells them. *)
Definition port_bits (p : u16) : BV := store_le (uv p) (bv_zeros 16).

(** The ports an outcome goes to. *)
Definition out_ports (radix port : u16) (egress : egress_metadata_t) : list u16 :=
  if eg_broadcast egress then
    filter (fun p => p <> port) ((fun p => U16 (Z.of_nat p)) <$> seq 0 (Z.to_nat (uv radix)))
  else if (bv_len (eg_port egress) =? 0)%nat || eg_drop egress then []
  else [U16 (load_le (eg_port egress))].

(** One copy out, unless the egress control drops it. *)
Definition emit (data : bytes) (parsed_size : nat) (s : State) (eport : u16) : list (packet_out * u16) :=
  let '(hdr, ingress, egm) := s in
  let egm := {| eg_port := port_bits eport; nexthop_v6 := nexthop_v6 egm; nexthop_v4 := nexthop_v4 egm;
                eg_drop := eg_drop egm; eg_broadcast := eg_broadcast egm |} in
  let '(hdr, _, egm) := egress_apply (hdr, ingress, egm) in
  if eg_drop egm then []
  else [({| header_data := as_raw_slice (headers_to_bitvec hdr); payload_data := drop parsed_size data |}, eport)].

Definition process_packet (port : u16) (data : bytes) (p : main_pipeline) : option (list (packet_out * u16)) :=
  let ingress := {| in_port := port_bits port; nat_ := false; nat_id := bv_default; in_drop := false |} in
  '(pkt, parsed, accept) ← parse_start (packet_in data) headers_default;
  if negb accept then Some []
  else
    let parsed_size := (valid_header_size parsed / 8)%nat in
    let s := ingress_apply (mac_dst p) (parsed, ingress, egress_default) in
    Some (out_ports (radix p) port s.2 ≫= emit (packet_data pkt) parsed_size s).

(** The same without the deparser: the headers as they are and the port. *)
Definition emit_headers (s : State) (eport : u16) : list (headers_t * u16) :=
  let '(hdr, ingress, egm) := s in
  let egm := {| eg_port := port_bits eport; nexthop_v6 := nexthop_v6 egm; nexthop_v4 := nexthop_v4 egm;
                eg_drop := eg_drop egm; eg_broadcast := eg_broadcast egm |} in
  let '(hdr, _, egm) := egress_apply (hdr, ingress, egm) in
  if eg_drop egm then [] else [(hdr, eport)].

Definition process_packet_headers (port : u16) (data : bytes) (p : main_pipeline) : option (list (headers_t * u16)) :=
  let ingress := {| in_port := port_bits port; nat_ := false; nat_id := bv_default; in_drop := false |} in
  '(pkt, parsed, accept) ← parse_start (packet_in data) headers_default;
  if negb accept then Some []
  else
    let s := ingress_apply (mac_dst p) (parsed, ingress, egress_default) in
    Some (out_ports (radix p) port s.2 ≫= emit_headers s).

(** [None]: an action the program has not, a panic. *)
Definition action_of (action_id : string) (parameter_data : bytes) : option Act :=
  if decide (action_id = "forward") then
    let port := extract_bit_action_parameter parameter_data 0 16 in
    Some (ingress_action_forward port)
  else if decide (action_id = "broadcast") then Some ingress_action_broadcast
  else if decide (action_id = "drop") then Some ingress_action_drop
  else None.

Definition entry (key : Key) (priority : u32) (action : Act) (action_id : string) (parameter_data : bytes) : TableEntry Key Act :=
  {| te_key := key; te_priority := priority; te_name := "your name here"; te_action := action;
     te_action_id := action_id; te_parameter_data := parameter_data |}.

Definition add_ingress_mac_dst_entry (action_id : string) (keyset_data parameter_data : bytes) (priority : u32)
    (p : main_pipeline) : option main_pipeline :=
  let key := extract_exact_key keyset_data 0 6 in
  action ← action_of action_id parameter_data;
  Some {| mac_dst := entries_insert (entry key priority action action_id parameter_data) (mac_dst p); radix := radix p |}.

Definition remove_ingress_mac_dst_entry (keyset_data : bytes) (p : main_pipeline) : main_pipeline :=
  let key := extract_exact_key keyset_data 0 6 in
  {| mac_dst := entries_remove (entry key (U32 0) (fun s => s) EmptyString []) (mac_dst p); radix := radix p |}.

(** [impl p4rs::Pipeline for main_pipeline]; an unknown table is ignored. *)
Definition add_entry (table_id action_id : string) (keyset_data parameter_data : bytes) (priority : u32)
    (p : main_pipeline) : option main_pipeline :=
  if decide (table_id = "ingress.mac_dst")
  then add_ingress_mac_dst_entry action_id keyset_data parameter_data priority p
  else Some p.

Definition remove_entry (table_id : string) (keyset_data : bytes) (p : main_pipeline) : main_pipeline :=
  if decide (table_id = "ingress.mac_dst") then remove_ingress_mac_dst_entry keyset_data p else p.

(** The rows of [get_table_entries]: the action, the bytes of the key, the
    parameters. *)
Definition get_ingress_mac_dst_entries (p : main_pipeline) : list (string * bytes * bytes) :=
  (fun e => (te_action_id e, key_to_bytes (te_key e), te_parameter_data e)) <$> entries (mac_dst p).

Definition get_table_entries (table_id : string) (p : main_pipeline) : option (list (string * bytes * bytes)) :=
  if decide (table_id = "ingress.mac_dst") then Some (get_ingress_mac_dst_entries p) else None.

Definition get_table_ids (_ : main_pipeline) : list string := ["ingress.mac_dst"].

#[global] Instance l2_P4rs : P4rs (option main_pipeline) := {
  add_table_entry t a k ps n p := p ← p; add_entry t a k ps n p;
  remove_table_entry t k p := remove_entry t k <$> p;
  X4c.process_packet port data p :=
    match (p ← p; out ← process_packet port data p; Some (p, out)) with
    | Some (p, out) => (Some p, out)
    | None => (None, [])
    end;
}.
End program.
Arguments egress_metadata_t BV : clear implicits.
Arguments ingress_metadata_t BV : clear implicits.
Arguments headers_t BV : clear implicits.
Arguments main_pipeline BV {HP}.

(** ** What it computes *)

(** The calls the schema lets through. *)
Lemma l2_calls sch a ps :
  sch ∈ L2.SCHEMAS -> is_ok (check sch a ps) = true ->
  (a = "forward" /\ exists port, ps = [ValU16 port]) \/ (a = "broadcast" /\ ps = []) \/ (a = "drop" /\ ps = []).
Proof.
  intros ->%list_elem_of_singleton Hc. destruct (check _ _ _) as [sig |] eqn:E; [| done].
  apply check_Ok in E as [Ha Hk]. pose proof (schema_action_name _ _ _ Ha) as Hn. apply find_Some in Ha as [Hin _].
  cbn [actions] in Hin. rewrite !elem_of_cons, elem_of_nil in Hin.
  destruct Hin as [-> | [-> | [-> | []]]]; cbn in Hn, Hk; subst a.
  - left. split; [done |]. destruct ps as [| [] [|]]; try discriminate Hk. by eexists.
  - right. left. split; [done |]. by apply fmap_nil_inv in Hk.
  - right. right. split; [done |]. by apply fmap_nil_inv in Hk.
Qed.

Lemma l2_keys t k : key_ok L2.SCHEMAS t k -> t = "mac_dst" /\ exists mac, k = KeyExact (ValMac mac) /\ key_bytes k = reverse (octets mac).
Proof.
  intros (sch & Hs & Hk). pose proof (find_schema_name _ _ _ Hs) as Hn. apply find_schema_in, list_elem_of_singleton in Hs as ->.
  cbn in Hn, Hk. split; [done |]. destruct k as [v | v n]; [| done]. destruct v as [| | | mac |]; try done.
  exists mac. split; [done |]. unfold key_bytes. by rewrite encode_key_total.
Qed.

Section laws.
Context {BV : Type} `{HB : Bitvec BV} `{HP : !P4rt BV} {bits : BV -> list bool} {head_ : BV -> nat} {view : Key -> KeyView} {off : Packet -> nat}.
Context {HL : BitvecLaws BV bits head_} {HR : P4rtLaws BV bits head_ view off}.
Implicit Types p : main_pipeline BV.

Definition deparse (data : bytes) (parsed_size : nat) (x : headers_t BV * u16) : packet_out * u16 :=
  ({| header_data := as_raw_slice (headers_to_bitvec x.1); payload_data := drop parsed_size data |}, x.2).

(** Both entry points of the pipeline run one program: deparsing what
    [process_packet_headers] answers is what [process_packet] answers. *)
Lemma l2_headers_agree port data p :
  process_packet port data p =
    match parse_start (packet_in data) headers_default with
    | Some (pkt, parsed, _) =>
        map (deparse (packet_data pkt) (valid_header_size parsed / 8)) <$> process_packet_headers port data p
    | None => None
    end.
Proof.
  unfold process_packet, process_packet_headers. destruct (parse_start _ _) as [[[pkt parsed] []] |]; [| done | done].
  cbn [mbind option_bind negb fmap option_fmap option_map]. f_equal. set (s := ingress_apply _ _). clearbody s. destruct s as [[hdr ing] eg]. cbn [snd].
  generalize (out_ports (radix p) port eg). intros l. induction l as [| q l IH]; [done |].
  cbn [mbind list_bind]. rewrite map_app, IH. f_equal. unfold emit, emit_headers. cbn. by destruct (eg_drop eg).
Qed.

Definition TABLE : string := "ingress.mac_dst".

Record entry_good (e : TableEntry Key ((headers_t BV * ingress_metadata_t BV * egress_metadata_t BV) ->
    (headers_t BV * ingress_metadata_t BV * egress_metadata_t BV))) : Prop := {
  eg_key : exists mac, te_key e = extract_exact_key (reverse (octets mac)) 0 6;
  eg_action : action_of (te_action_id e) (te_parameter_data e) = Some (te_action e);
  eg_params : te_action_id e = "forward" -> length (te_parameter_data e) = 2%nat;
}.

Definition good (p : option (main_pipeline BV)) : Prop :=
  match p with
  | Some p => (distinct (mac_dst p) /\ forall e, e ∈ entries (mac_dst p) -> entry_good e) /\ 3 <= uv (radix p)
  | None => False
  end.

Definition ext (k : bytes) : Key := extract_exact_key k 0 6.

Definition contents (p : option (main_pipeline BV)) (t : string) (k : bytes) : option (string * bytes) :=
  p ← p; if decide (t = TABLE) then held ext (mac_dst p) k else None.

Lemma table_l2 {Pipe} (new : u16 -> Pipe) : table_id (L2FWD new) "mac_dst" = TABLE.
Proof. done. Qed.

Lemma l2_contents_at p k : contents (Some p) TABLE k = held ext (mac_dst p) k.
Proof. unfold contents. cbn [mbind option_bind]. by rewrite decide_True. Qed.

Lemma length_octets m : length (octets m) = 6%nat.
Proof. by destruct m. Qed.

Lemma exact_view k : length k = 6%nat -> view (ext k) = VExact (le_val k).
Proof. intros Hl. unfold ext. rewrite rt_exact by lia. by rewrite take_ge by lia. Qed.

Lemma l2_ext_inj k k' : length k = 6%nat -> length k' = 6%nat -> ext k = ext k' -> k = k'.
Proof. intros Hk Hk' H%(f_equal view). rewrite !exact_view in H by done. injection H as H. by apply le_val_inj; [congruence |]. Qed.

Lemma length_key mac : length (reverse (octets mac)) = 6%nat.
Proof. by rewrite length_reverse, length_octets. Qed.

#[global] Instance l2_laws :
  P4rsLaws (option (main_pipeline BV)) (L2FWD (fun r => Some (new r))) good contents.
Proof.
  split.
  - intros r H3. cbn [d_new L2FWD good new mac_dst radix]. unfold ingress_mac_dst. split.
    + split; [| exact H3]. split; [apply (new_at (ext [])) |]. intros e. rewrite rt_new. by intros ?%not_elem_of_nil.
    + intros t k. unfold contents. cbn. case_decide; [apply held_new | done].
  - intros t k a ps n [p |] [Hk Hc] Hg; [| done]. destruct Hg as [[Hd Hg] H3]. intros Hnone.
    apply l2_keys in Hk as [-> (mac & -> & Hkb)]. destruct Hc as (sch & Hs%find_schema_in & Hc). apply (l2_calls _ _ _ Hs) in Hc.
    assert (exists act, action_of (BV := BV) a (param_bytes ps) = Some act /\ (a = "forward" -> length (param_bytes ps) = 2%nat))
      as (act & Ha & Hl) by (destruct Hc as [[-> [port ->]] | [[-> ->] | [-> ->]]]; eexists; split; reflexivity || done).
    rewrite table_l2, Hkb, l2_contents_at in *.
    set (e := entry (ext (reverse (octets mac))) n act a (param_bytes ps)).
    assert (add_table_entry TABLE a (reverse (octets mac)) (param_bytes ps) n (Some p)
            = Some {| mac_dst := entries_insert e (mac_dst p); radix := radix p |}) as ->.
    { cbn. unfold add_entry, add_ingress_mac_dst_entry. rewrite decide_True by done. by rewrite Ha. }
    destruct (held_insert ext _ l2_ext_inj e (mac_dst p) _ (length_key mac) eq_refl Hd Hnone) as (Hd' & Hin & Hat). split.
    + split; [| exact H3]. split; [done |]. intros x. cbn [mac_dst]. rewrite Hin. intros [-> | Hx]; [| by apply Hg]. split; [by exists mac | exact Ha | exact Hl].
    + intros t' k' Hk'. apply l2_keys in Hk' as [-> (mac' & -> & ->)]. rewrite table_l2, !l2_contents_at. cbn [mac_dst].
      rewrite Hat by apply length_key. case_decide as E1; case_decide as E2; done || congruence.
  - intros t k [p |] Hk Hg; [| done]. destruct Hg as [[Hd Hg] H3]. apply l2_keys in Hk as [-> (mac & -> & Hkb)].
    rewrite table_l2, Hkb.
    set (e := entry (BV := BV) (ext (reverse (octets mac))) (U32 0) (fun s => s) EmptyString []).
    change (remove_table_entry _ _ _) with (Some {| mac_dst := entries_remove e (mac_dst p); radix := radix p |}).
    destruct (held_remove ext _ l2_ext_inj e (mac_dst p) _ (length_key mac) eq_refl Hd) as (Hd' & Hin & Hat). split.
    + split; [| exact H3]. split; [done |]. intros x. cbn [mac_dst]. rewrite Hin. intros [_ Hx]. by apply Hg.
    + intros t' k' Hk'. apply l2_keys in Hk' as [-> (mac' & -> & ->)]. rewrite table_l2, !l2_contents_at. cbn [mac_dst].
      rewrite Hat by apply length_key. case_decide as E1; case_decide as E2; done || congruence.
  - intros port b [p |] Hg Hl; [| done]. cbn in Hl |- *.
    assert (exists out, process_packet port b p = Some out) as [out ->]; [| done].
    unfold process_packet, parse_start. destruct (rt_packet b) as [P1 P2].
    destruct (rt_extract (Eth.ethernet_h BV) 14 (packet_in b) (ethernet headers_default)) as (p' & -> & _); [done | rewrite P1, P2; lia |].
    cbn. by eexists.
Qed.

(** The frame, as every copy carries it. *)
Definition whole (b : bytes) : packet_out := {| header_data := take 14 b; payload_data := drop 14 b |}.

(** Every port but the one it came from. *)
Definition copies (radix port : u16) (b : bytes) : list (packet_out * u16) :=
  pair (whole b) <$> filter (fun q => q <> port) ((fun q => U16 (Z.of_nat q)) <$> seq 0 (Z.to_nat (uv radix))).

(** What the table says of a frame, as an outcome. *)
Definition outcome (entry : option (string * bytes)) (radix port : u16) (b : bytes) : list (packet_out * u16) :=
  match entry with
  | Some (a, pd) =>
      if decide (a = "forward") then [(whole b, U16 (le_val pd))]
      else if decide (a = "drop") then []
      else copies radix port b
  | None => copies radix port b
  end.

Lemma l2_headers_raw h b :
  (14 <= length b)%nat ->
  Eth.holds (bits := bits) (head := head_) (ethernet h) (slice 0 6 b) (slice 6 12 b) (slice 12 14 b) ->
  as_raw_slice (headers_to_bitvec h) = take 14 b.
Proof.
  intros Hl Hh. pose proof Hh as [_ _ _ Hv]. unfold headers_to_bitvec, valid_header_size. rewrite Hv.
  pose proof (Eth.eth_to_bitvec_holds _ _ _ _ Hh ltac:(by rewrite length_slice by lia) ltac:(by rewrite length_slice by lia)
    ltac:(by rewrite length_slice by lia)) as (W1 & W2 & _).
  rewrite slice_app, slice_app in W1 by lia. change (slice 0 14 b) with (take 14 b) in *.
  assert (length (bits_of (take 14 b)) = 112%nat) as H112 by (rewrite length_bits_of, length_take; lia).
  rewrite H112, app_nil_r in W1.
  pose proof (or_written (bv_zeros 112) [] 112 112 0 (Eth.to_bitvec (ethernet h)) (written_start 112)) as Hw.
  rewrite W1, H112, drop_0 in Hw. cbn [length app] in Hw. specialize (Hw ltac:(lia) ltac:(lia) ltac:(lia)).
  rewrite app_nil_r in Hw. apply (written_raw (bits := bits) (head := head_)).
  by replace (8 * length (take 14 b))%nat with 112%nat by (rewrite length_take; lia).
Qed.

Lemma outs (s : headers_t BV * ingress_metadata_t BV * egress_metadata_t BV) b ports :
  (14 <= length b)%nat ->
  Eth.holds (bits := bits) (head := head_) (ethernet s.1.1) (slice 0 6 b) (slice 6 12 b) (slice 12 14 b) ->
  eg_drop s.2 = false ->
  ports ≫= emit b 14 s = pair (whole b) <$> ports.
Proof.
  intros Hl Hh Hd. destruct s as [[hdr ing] eg]. cbn in Hh, Hd. induction ports as [| q ports IH]; [done |].
  cbn [mbind list_bind fmap list_fmap]. f_equal. unfold emit at 1. cbn. rewrite Hd, (l2_headers_raw _ b) by done. cbn. f_equal. exact IH.
Qed.

Lemma l2_process_spec port b p :
  good (Some p) -> (14 <= length b)%nat ->
  process_packet port b p =
    Some (outcome (contents (Some p) TABLE (reverse (slice 0 6 b))) (radix p) port b).
Proof.
  intros [[Hd Hg] _] Hl. unfold process_packet, parse_start. destruct (rt_packet b) as [P1 P2].
  destruct (rt_extract (Eth.ethernet_h BV) 14 (packet_in b) (ethernet headers_default)) as (pkt & -> & P3 & _);
    [done | rewrite P1, P2; lia |].
  rewrite P1, P2 in *. cbn [mbind option_bind negb]. change (h_set_valid (h_set ?x ?h)) with (Eth.set_valid (Eth.set x h)).
  change (slice 0 (0 + 14) b) with (take 14 b). rewrite P3.
  pose proof (Eth.eth_set_holds (bits := bits) (head := head_) (take 14 b) (Eth.ethernet_default (BV := BV)) ltac:(rewrite length_take; lia)) as Hh.
  rewrite !slice_take in Hh by lia. set (hdr := {| ethernet := _ |}). change (Eth.set_valid _) with (ethernet hdr) in Hh.
  set (ing := {| in_port := _ |}). change (valid_header_size hdr / 8)%nat with 14%nat. f_equal.
  destruct Hh as [D S T V]. pose proof D as [D1 D2].
  unfold ingress_apply. cbn [fst snd]. rewrite (rt_biguint _ _ D1 D2). set (mac := slice 0 6 b) in *.
  assert (length mac = 6%nat) as Hm by (unfold mac; rewrite length_slice; lia).
  set (k := ext (reverse mac)).
  assert (head (match_selector [le_val (reverse mac)] (mac_dst p)) = entry_at k (entries (mac_dst p))) as Hmatch.
  { apply match_exact; [done | by apply exact_view; rewrite length_reverse |]. apply Forall_forall. intros e He.
    destruct (eg_key _ (Hg e He)) as [m ->]. eexists. apply exact_view, length_key. }
  rewrite l2_contents_at. unfold held. fold k.
  destruct (match_selector _ _) as [| first rest]; cbn [head] in Hmatch; rewrite <- Hmatch; cbn [mbind option_bind].
  - apply outs; [done | by split | done].
  - assert (first ∈ entries (mac_dst p)) as Hin by (symmetry in Hmatch; apply entry_at_Some in Hmatch; [apply Hmatch | done]).
    destruct (Hg _ Hin) as [_ Ha Hp]. unfold outcome, action_of in *.
    destruct (decide (te_action_id first = "forward")) as [E |].
    + injection Ha as <-. specialize (Hp E).
      destruct (rt_param (te_parameter_data first) 0 2 ltac:(lia)) as [A1 _].
      change (0 + 2)%nat with 2%nat in A1. change (8 * 2)%nat with 16%nat in A1.
      assert (slice 0 2 (te_parameter_data first) = te_parameter_data first) as Hsl by (unfold slice; rewrite drop_0, take_ge by lia; done).
      rewrite Hsl in A1. unfold out_ports, ingress_action_forward. cbn [snd eg_broadcast eg_drop eg_port egress_default orb].
      rewrite bits_len, A1, length_bits_of, Hp. cbn [Nat.eqb Nat.mul Nat.add orb]. rewrite (bits_load _ _ A1).
      rewrite outs; [done | done | by split | done].
    + destruct (decide (te_action_id first = "broadcast")) as [E |].
      * injection Ha as <-. rewrite E, decide_False by done. apply outs; [done | by split | done].
      * destruct (decide (te_action_id first = "drop")); [| done]. injection Ha as <-.
        unfold out_ports, ingress_action_drop. cbn. by rewrite orb_true_r.
Qed.
End laws.
End G2.
