(* ===== verification/GenL3.v ===== *)
(** * l3fwd as x4c compiled it (crates/up4-x4c/src/generated/l3fwd.rs)

    The generated router over the classes of [X4cRuntime].  Its Ethernet header
    is the one of [GenL2].  The compiler's code for a field that is wider than a
    byte and not a whole number of bytes, which only the fragment offset is,
    does not give back what it read. *)

From S2P Require Import Prelude Bytes Text Value Shim Frame L3Fwd P4 X4cAbi X4cRuntime X4c GenL2.

Local Open Scope Z_scope.

(** ** The IPv4 header *)

Module Ip.
Section header.
Context {BV : Type} `{HB : Bitvec BV}.

Record ipv4_h := {
  valid : bool;
  version : BV;
  ihl : BV;
  diffserv : BV;
  total_len : BV;
  identification : BV;
  flags : BV;
  frag_offset : BV;
  ttl : BV;
  protocol : BV;
  hdr_checksum : BV;
  src : BV;
  dst : BV;
}.

Definition ipv4_default : ipv4_h := {|
  valid := false; version := bv_default; ihl := bv_default; diffserv := bv_default; total_len := bv_default;
  identification := bv_default; flags := bv_default; frag_offset := bv_default; ttl := bv_default;
  protocol := bv_default; hdr_checksum := bv_default; src := bv_default; dst := bv_default;
|}.

(** The assignments of [set], in order: up to the flags, and from the fragment
    offset on. *)
Definition set_first (buf : bytes) (h : ipv4_h) : ipv4_h := {|
  valid := valid h;
  version := field_set 0 4 buf;
  ihl := field_set 4 8 buf;
  diffserv := field_set 8 16 buf;
  total_len := field_set 16 32 buf;
  identification := field_set 32 48 buf;
  flags := field_set 48 51 buf;
  frag_offset := frag_offset h; ttl := ttl h; protocol := protocol h; hdr_checksum := hdr_checksum h; src := src h; dst := dst h;
|}.

Definition set_rest (buf : bytes) (h : ipv4_h) : ipv4_h := {|
  valid := valid h; version := version h; ihl := ihl h; diffserv := diffserv h; total_len := total_len h;
  identification := identification h; flags := flags h;
  frag_offset := field_set 51 64 buf;
  ttl := field_set 64 72 buf;
  protocol := field_set 72 80 buf;
  hdr_checksum := field_set 80 96 buf;
  src := field_set 96 128 buf;
  dst := field_set 128 160 buf;
|}.

Definition set (buf : bytes) (h : ipv4_h) : ipv4_h := set_rest buf (set_first buf h).

Definition set_valid (h : ipv4_h) : ipv4_h := {|
  valid := true; version := version h; ihl := ihl h; diffserv := diffserv h; total_len := total_len h;
  identification := identification h; flags := flags h; frag_offset := frag_offset h; ttl := ttl h;
  protocol := protocol h; hdr_checksum := hdr_checksum h; src := src h; dst := dst h;
|}.

#[global] Instance ipv4_Header : Header ipv4_h := { h_size := 160; h_set := set; h_set_valid := set_valid }.

(** The writes of [to_bitvec], in order. *)
Definition put_first (h : ipv4_h) (x : BV) : BV :=
  let x := field_emit 0 4 (version h) x in
  let x := field_emit 4 8 (ihl h) x in
  let x := field_emit 8 16 (diffserv h) x in
  let x := field_emit 16 32 (total_len h) x in
  let x := field_emit 32 48 (identification h) x in
  field_emit 48 51 (flags h) x.

Definition put_rest (h : ipv4_h) (x : BV) : BV :=
  let x := field_emit 51 64 (frag_offset h) x in
  let x := field_emit 64 72 (ttl h) x in
  let x := field_emit 72 80 (protocol h) x in
  let x := field_emit 80 96 (hdr_checksum h) x in
  let x := field_emit 96 128 (src h) x in
  field_emit 128 160 (dst h) x.

Definition to_bitvec (h : ipv4_h) : BV := put_rest h (put_first h (bv_zeros 160)).
End header.
Arguments ipv4_h BV : clear implicits.

(** ** The fragment offset *)

Section laws.
Context {BV : Type} `{HB : Bitvec BV} {bits : BV -> list bool} {head : BV -> nat} {HL : BitvecLaws BV bits head}.

Lemma shl_bits b : byte_bits (byte_shl 3 b) = drop 3 (byte_bits b) ++ [false; false; false].
Proof.
  unfold byte_bits, byte_shl. cbn [fmap list_fmap drop app]. rewrite uv_of. change (2 ^ Z.of_N 8) with (2 ^ 8).
  rewrite !Z.mod_pow2_bits_low, !Z.shiftl_spec by lia. repeat f_equal; by rewrite Z.testbit_neg_r by lia.
Qed.

Lemma shr_bits b : byte_bits (byte_shr 5 b) = [false; false; false; false; false] ++ take 3 (byte_bits b).
Proof.
  unfold byte_bits, byte_shr. cbn [fmap list_fmap take app]. rewrite uv_of. change (2 ^ Z.of_N 8) with (2 ^ 8).
  rewrite !Z.mod_pow2_bits_low, !Z.shiftr_spec by lia. cbn [Z.add Z.of_nat Pos.of_succ_nat Pos.succ].
  pose proof (uint_range b) as Hb. change (2 ^ Z.of_N 8) with (2 ^ 8) in Hb.
  repeat f_equal; rewrite <- (Z.mod_small (uv b) (2 ^ 8)) by done; apply Z.mod_pow2_bits_high; lia.
Qed.

Lemma frag_bytes v bs n :
  (8 * length v < n + 8)%nat -> (8 < n <= 16)%nat -> length bs = n -> take n (bits_of v) = bs ->
  exists y z, v = [y; z] /\ bs = byte_bits y ++ take (n - 8) (byte_bits z).
Proof.
  intros Hl Hn Hb Ht. apply (f_equal length) in Ht as Ht'. rewrite length_take, length_bits_of, Hb in Ht'.
  destruct v as [| y [| z [| ? ?]]]; cbn in Hl, Ht'; try lia. exists y, z. split; [done |]. rewrite <- Ht.
  change (bits_of [y; z]) with (byte_bits y ++ byte_bits z ++ []). rewrite app_nil_r, take_app_ge by (cbn; lia). done.
Qed.

(** It is kept as the low byte and the five high bits. *)
Lemma set_frag buf y :
  (20 <= length buf)%nat -> slice 51 64 (bits_of buf) = take 5 (slice 51 64 (bits_of buf)) ++ byte_bits y ->
  bits (field_set 51 64 buf) = byte_bits y ++ take 5 (slice 51 64 (bits_of buf)) /\ head (field_set 51 64 buf) = 0%nat.
Proof.
  intros Hl Hf. set (f := slice 51 64 (bits_of buf)) in *. unfold field_set.
  assert (length f = 13%nat) as Hlf by (unfold f; rewrite length_slice; [done | rewrite length_bits_of; lia]).
  destruct (bits_view buf 51 64) as [V1 V2]; [lia |]. fold f in V1. change (51 mod 8)%nat with 3%nat in *.
  destruct (bits_into (view_bits buf 51 64)) as [I1 I2]. rewrite V1, V2, Hlf in *. cbn [Nat.add] in I1, I2.
  change ((64 - 51) mod 8 =? 0)%nat with false. change (8 <? 64 - 51)%nat with true. cbn iota.
  assert (length (into_vec (view_bits buf 51 64)) = 2%nat) as H2.
  { apply (f_equal length) in I2. unfold slice in I2. rewrite length_take, length_drop, length_bits_of, Hlf in I2. lia. }
  destruct (into_vec _) as [| x [| z [|]]]; try done.
  change (slice 3 16 (bits_of [x; z])) with (drop 3 (byte_bits x) ++ byte_bits z) in I2.
  assert (drop 3 (byte_bits x) = take 5 f /\ byte_bits z = byte_bits y) as [Hx Hz].
  { rewrite Hf in I2. apply app_inj_1 in I2; [done |]. by rewrite length_take, Hlf. }
  change (on_last (byte_shl 3) (reverse [x; z])) with [z; byte_shl 3 x].
  destruct (bits_from [z; byte_shl 3 x]) as [F1 F2].
  destruct (bits_resize (64 - 51) false (from_vec [z; byte_shl 3 x])) as [R1 R2]; [rewrite F1, length_bits_of; cbn; lia |].
  rewrite R1, R2, F1, F2. split; [| done].
  change (bits_of [z; byte_shl 3 x]) with (byte_bits z ++ byte_bits (byte_shl 3 x) ++ []).
  rewrite shl_bits, Hz, app_nil_r, Hx, take_app_ge by (cbn; lia). f_equal. change (64 - 51 - length (byte_bits y))%nat with 5%nat.
  assert (length (take 5 f) = 5%nat) as H5 by (rewrite length_take, Hlf; lia).
  rewrite take_app_le by lia. apply take_ge. lia.
Qed.

(** What comes out loses two of those bits and moves the rest. *)
Lemma emit_frag f x pre total y high :
  written (bits := bits) (head := head) x pre total -> length pre = 51%nat -> (64 <= total)%nat ->
  bits f = byte_bits y ++ high -> head f = 0%nat -> length high = 5%nat ->
  written (bits := bits) (head := head) (field_emit 51 64 f x) (pre ++ take 3 high ++ byte_bits y ++ [false; false]) total.
Proof.
  intros W Hp Ht Hf Hh Hl. unfold field_emit. change (8 <? 64 - 51)%nat with true. change ((64 - 51) mod 8)%nat with 5%nat.
  change (5 =? 0)%nat with false. cbn iota. destruct (bits_into f) as [I1 I2]. rewrite Hf, Hh in *.
  assert (length (byte_bits y ++ high) = 13%nat) as H13 by (rewrite length_app, Hl; done).
  rewrite H13 in *. unfold slice in I2. rewrite drop_0 in I2.
  destruct (frag_bytes _ _ _ I1 ltac:(cbn; lia) H13 I2) as (y' & z & -> & Hb).
  apply app_inj_1 in Hb as [Hy Hz]; [| done]. change (13 - 8)%nat with 5%nat in Hz.
  change (reverse (on_last (byte_shr 5) [y'; z])) with [byte_shr 5 z; y'].
  destruct (bits_from [byte_shr 5 z; y']) as [F1 F2].
  change (bits_of [byte_shr 5 z; y']) with (byte_bits (byte_shr 5 z) ++ byte_bits y' ++ []) in F1.
  rewrite shr_bits, <- Hy, app_nil_r in F1. rewrite bits_len, F1. change (5 <? length _)%nat with true. cbn iota.
  pose proof (or_written x pre total 64 5 (from_vec [byte_shr 5 z; y']) W) as Hw.
  rewrite F1, Hp in Hw. cbn [app drop length] in Hw.
  change (length (take 3 (byte_bits z) ++ byte_bits y)) with 11%nat in Hw. specialize (Hw ltac:(lia) ltac:(cbn; lia) ltac:(cbn; lia)).
  assert (take 3 high = take 3 (byte_bits z)) as -> by (by rewrite Hz, take_take).
  rewrite drop_0, <- (assoc_L (++)) in Hw. exact Hw.
Qed.

(** The two bytes of the flags and the fragment offset, as they come out: the
    offset shifted left by two within its low byte, its bits 8 and 9 gone. *)
Definition mangled (x y : byte) : bytes :=
  [U8 (Z.lor (Z.land (uv x) 252) (Z.shiftr (uv y) 6)); U8 (Z.shiftl (uv y) 2)].

Lemma mangled_bits x y :
  bits_of (mangled x y) = take 3 (byte_bits x) ++ take 3 (drop 3 (byte_bits x)) ++ byte_bits y ++ [false; false].
Proof.
  unfold bits_of, mangled, byte_bits. cbn [mbind list_bind fmap list_fmap take drop app]. rewrite !uv_of.
  change (2 ^ Z.of_N 8) with (2 ^ 8).
  rewrite !Z.mod_pow2_bits_low, !Z.lor_spec, !Z.land_spec, !Z.shiftr_spec, !Z.shiftl_spec by lia.
  change (Z.testbit 252 7) with true. change (Z.testbit 252 6) with true. change (Z.testbit 252 5) with true.
  change (Z.testbit 252 4) with true. change (Z.testbit 252 3) with true. change (Z.testbit 252 2) with true.
  change (Z.testbit 252 1) with false. change (Z.testbit 252 0) with false.
  pose proof (uint_range y) as Hy. change (2 ^ Z.of_N 8) with (2 ^ 8) in Hy.
  assert (forall i, 8 <= i -> Z.testbit (uv y) i = false) as Hhi
    by (intros i Hi; rewrite <- (Z.mod_small (uv y) (2 ^ 8)) by done; apply Z.mod_pow2_bits_high; lia).
  rewrite !Hhi by lia. rewrite !andb_true_r, !andb_false_r, !orb_false_r, !orb_false_l.
  repeat f_equal; apply Z.testbit_neg_r; lia.
Qed.

Lemma slice_bits_byte i b : (i < length b)%nat -> slice (8 * i) (8 * (i + 1)) (bits_of b) = byte_bits (byte_at b i).
Proof.
  intros Hi. rewrite slice_bits_of. replace (i + 1)%nat with (S i) by lia. rewrite slice_one by done.
  cbn [bits_of mbind list_bind]. by rewrite app_nil_r.
Qed.

(** A header that stands for twenty bytes of a frame, with the TTL and the
    checksum the program left in it. *)
Record holds (h : ipv4_h BV) (b : bytes) (t : byte) (c : bytes) : Prop := {
  ho_version : bits (version h) = slice 0 4 (bits_of b);
  ho_ihl : bits (ihl h) = slice 4 8 (bits_of b);
  ho_diffserv : bits (diffserv h) = slice 8 16 (bits_of b);
  ho_total_len : bits (total_len h) = bits_of (reverse (slice 2 4 b)) /\ head (total_len h) = 0%nat;
  ho_identification : bits (identification h) = bits_of (reverse (slice 4 6 b)) /\ head (identification h) = 0%nat;
  ho_flags : bits (flags h) = slice 48 51 (bits_of b);
  ho_frag : bits (frag_offset h) = byte_bits (byte_at b 7) ++ take 5 (slice 51 64 (bits_of b)) /\ head (frag_offset h) = 0%nat;
  ho_ttl : bits (ttl h) = bits_of [t];
  ho_protocol : bits (protocol h) = slice 72 80 (bits_of b);
  ho_checksum : bits (hdr_checksum h) = bits_of (reverse c) /\ head (hdr_checksum h) = 0%nat;
  ho_src : bits (src h) = bits_of (reverse (slice 12 16 b)) /\ head (src h) = 0%nat;
  ho_dst : bits (dst h) = bits_of (reverse (slice 16 20 b)) /\ head (dst h) = 0%nat;
  ho_valid : valid h = true;
}.

Lemma ip_set_holds buf h :
  length buf = 20%nat -> holds (set_valid (set buf h)) buf (byte_at buf 8) (slice 10 12 buf).
Proof.
  intros Hl.
  assert (forall a b, (b - a <= 8)%nat -> (a <= b <= 160)%nat -> bits (field_set a b buf) = slice a b (bits_of buf)) as Hs
    by (intros a b Hab Hb; apply field_set_small; lia).
  assert (forall i j, (i + 1 < j <= 20)%nat ->
    bits (field_set (8 * i) (8 * j) buf) = bits_of (reverse (slice i j buf)) /\ head (field_set (8 * i) (8 * j) buf) = 0%nat) as Hw
    by (intros i j Hij; apply field_set_bytes; lia).
  split; cbn [set_valid set set_rest set_first version ihl diffserv total_len identification flags frag_offset ttl protocol hdr_checksum src dst valid].
  - apply Hs; lia.
  - apply Hs; lia.
  - apply Hs; lia.
  - apply (Hw 2 4)%nat; lia.
  - apply (Hw 4 6)%nat; lia.
  - apply Hs; lia.
  - apply set_frag; [lia |]. rewrite <- (slice_bits_byte 7) by lia. unfold slice. cbn [Nat.mul Nat.add Nat.sub].
    rewrite <- (take_drop 5 (take 13 _)) at 1. f_equal. rewrite skipn_firstn_comm, drop_drop. done.
  - rewrite Hs by lia. rewrite (slice_bits_byte 8) by lia. cbn [bits_of mbind list_bind]. by rewrite app_nil_r.
  - apply Hs; lia.
  - apply (Hw 10 12)%nat; lia.
  - apply (Hw 12 16)%nat; lia.
  - apply (Hw 16 20)%nat; lia.
  - done.
Qed.

(** The bytes such a header comes out as. *)
Definition emitted (b : bytes) (t : byte) (c : bytes) : bytes :=
  slice 0 6 b ++ mangled (byte_at b 6) (byte_at b 7) ++ [t] ++ slice 9 10 b ++ c ++ slice 12 20 b.

Lemma step_small i j f x b :
  length b = 20%nat -> (i <= j <= 160)%nat -> (j - i <= 8)%nat -> bits f = slice i j (bits_of b) ->
  written (bits := bits) (head := head) x (slice 0 i (bits_of b)) 160 ->
  written (bits := bits) (head := head) (field_emit i j f x) (slice 0 j (bits_of b)) 160.
Proof.
  intros Hb Hij Hs Hf W. assert (length (bits_of b) = 160%nat) as Hl by (rewrite length_bits_of; lia).
  rewrite <- (slice_app 0 i j) by lia. rewrite <- Hf. apply emit_small; try done; try lia.
  - rewrite length_slice; lia.
  - rewrite Hf, length_slice; lia.
Qed.

Lemma step_bytes i j f x b :
  length b = 20%nat -> (i + 1 < j <= 20)%nat -> bits f = bits_of (reverse (slice i j b)) -> head f = 0%nat ->
  written (bits := bits) (head := head) x (slice 0 (8 * i) (bits_of b)) 160 ->
  written (bits := bits) (head := head) (field_emit (8 * i) (8 * j) f x) (slice 0 (8 * j) (bits_of b)) 160.
Proof.
  intros Hb Hij Hf Hh W. assert (length (bits_of b) = 160%nat) as Hl by (rewrite length_bits_of; lia).
  rewrite <- (slice_app 0 (8 * i) (8 * j)), (slice_bits_of i j) by lia.
  rewrite <- (reverse_involutive (slice i j b)). apply emit_bytes; try done; try lia.
  - rewrite length_slice; lia.
  - rewrite length_reverse, length_slice; lia.
Qed.

(** The first six bytes and the flags. *)
Lemma emit_front h b t c :
  holds h b t c -> length b = 20%nat ->
  written (bits := bits) (head := head) (put_first h (bv_zeros 160)) (slice 0 51 (bits_of b)) 160.
Proof.
  intros [V I D [T1 T2] [N1 N2] F _ _ _ _ _ _ _] Hb.
  apply step_small; [done | lia | lia | done |]. apply (step_bytes 4 6); [done | lia | done | done |].
  apply (step_bytes 2 4); [done | lia | done | done |]. apply step_small; [done | lia | lia | done |].
  apply step_small; [done | lia | lia | done |]. apply step_small; [done | lia | lia | done |]. apply written_start.
Qed.

Lemma ip_to_bitvec_holds h b t c :
  holds h b t c -> length b = 20%nat -> length c = 2%nat ->
  written (bits := bits) (head := head) (to_bitvec h) (bits_of (emitted b t c)) 160.
Proof.
  intros Hh Hb Hc. pose proof (emit_front h b t c Hh Hb) as W. destruct Hh as [_ _ _ _ _ _ [G1 G2] L P [C1 C2] [S1 S2] [E1 E2] _].
  assert (length (bits_of b) = 160%nat) as Hl by (rewrite length_bits_of; lia).
  assert (forall i j, (i <= j)%nat -> (j <= 20)%nat -> length (slice i j b) = (j - i)%nat) as Hlb by (intros i j Hi Hj; apply length_slice; lia).
  set (high := take 5 (slice 51 64 (bits_of b))) in *.
  assert (length high = 5%nat) as Hhigh by (unfold high; rewrite length_take, length_slice by lia; lia).
  apply (emit_frag (frag_offset h) _ _ _ (byte_at b 7) high) in W; [| rewrite length_slice; lia | lia | done | done | done].
  set (pre := slice 0 51 (bits_of b) ++ take 3 high ++ byte_bits (byte_at b 7) ++ [false; false]) in *.
  assert (pre = bits_of (slice 0 6 b ++ mangled (byte_at b 6) (byte_at b 7))) as Hpre.
  { unfold pre. rewrite bits_of_app, mangled_bits, <- (slice_bits_of 0 6), <- (slice_bits_byte 6) by lia.
    rewrite <- (slice_app 0 48 51) by lia. rewrite <- (assoc_L (++)). f_equal. unfold high, slice. cbn [Nat.mul Nat.add Nat.sub].
    rewrite !take_take, skipn_firstn_comm, take_take, drop_drop. done. }
  assert (length pre = 64%nat) as Hlp by (rewrite Hpre, length_bits_of, length_app, Hlb by lia; done).
  clearbody pre high.
  apply (emit_small 64 72 (ttl h)) in W; [| done | lia | lia | by rewrite L]. rewrite L in W.
  apply (emit_small 72 80 (protocol h)) in W; [| rewrite length_app, Hlp; done | lia | lia | rewrite P, length_slice; lia].
  rewrite P, (slice_bits_of 9 10) in W.
  assert (length (((pre ++ bits_of [t]) ++ bits_of (slice 9 10 b))) = 80%nat) as H80
    by (rewrite !length_app, Hlp, !length_bits_of, Hlb by lia; done).
  apply (emit_bytes 10 12 (reverse c) (hdr_checksum h)) in W; try done; try lia; [| by rewrite length_reverse].
  rewrite reverse_involutive in W.
  apply (emit_bytes 12 16 (reverse (slice 12 16 b)) (src h)) in W; try done; try lia;
    [| rewrite length_app, H80, length_bits_of, Hc; done | rewrite length_reverse, Hlb; lia].
  rewrite reverse_involutive in W.
  apply (emit_bytes 16 20 (reverse (slice 16 20 b)) (dst h)) in W; try done; try lia;
    [| rewrite !length_app, length_bits_of, Hlp, !length_bits_of, Hc, !Hlb by lia; done | rewrite length_reverse, Hlb; lia].
  rewrite reverse_involutive in W. rewrite <- !(assoc_L (++)) in W. unfold emitted.
  rewrite <- (slice_app 12 16 20) by lia. rewrite (assoc_L (++) (slice 0 6 b)), !bits_of_app, <- bits_of_app, <- Hpre. exact W.
Qed.
End laws.
End Ip.

(** ** The pipeline *)

Module G3.
Section program.
Context {BV : Type} `{HB : Bitvec BV} `{HP : !P4rt BV}.

Record headers_t := { ethernet : Eth.ethernet_h BV; ipv4 : Ip.ipv4_h BV }.

Definition headers_default : headers_t := {| ethernet := Eth.ethernet_default; ipv4 := Ip.ipv4_default |}.

Definition valid_header_size (h : headers_t) : nat :=
  (if Eth.valid (ethernet h) then 112 else 0) + (if Ip.valid (ipv4 h) then 160 else 0).

Definition headers_to_bitvec (h : headers_t) : BV :=
  let x := bv_zeros (valid_header_size h) in
  let '(x, off) := if Eth.valid (ethernet h) then (or_range 0 112 0 (Eth.to_bitvec (ethernet h)) x, 112%nat) else (x, 0%nat) in
  if Ip.valid (ipv4 h) then or_range off (off + 160) 0 (Ip.to_bitvec (ipv4 h)) x else x.

Record egress_metadata_t := {
  eg_port : BV;
  nexthop_v6 : BV;
  nexthop_v4 : BV;
  eg_drop : bool;
  eg_broadcast : bool;
}.

Definition egress_default : egress_metadata_t :=
  {| eg_port := bv_default; nexthop_v6 := bv_default; nexthop_v4 := bv_default; eg_drop := false; eg_broadcast := false |}.

Record ingress_metadata_t := { in_port : BV; nat_ : bool; nat_id : BV; in_drop : bool }.

Abbreviation State := (headers_t * ingress_metadata_t * egress_metadata_t)%type.
Abbreviation Act := (State -> State).

(** A constant of the program, as a bit vector of [w] bytes. *)
Definition literal (w : nat) (n : Z) : BV := store_le n (bv_zeros (8 * w)).

Definition ingress_action_forward (port dmac : BV) : Act := fun '(hdr, ingress, egress) =>
  let eth := ethernet hdr in
  let ip := ipv4 hdr in
  let ttl := sub_le (Ip.ttl ip) (literal 1 1) in
  ({| ethernet := {| Eth.valid := Eth.valid eth; Eth.dst := dmac; Eth.src := Eth.src eth; Eth.ether_type := Eth.ether_type eth |};
      ipv4 := {| Ip.valid := Ip.valid ip; Ip.version := Ip.version ip; Ip.ihl := Ip.ihl ip; Ip.diffserv := Ip.diffserv ip;
                 Ip.total_len := Ip.total_len ip; Ip.identification := Ip.identification ip; Ip.flags := Ip.flags ip;
                 Ip.frag_offset := Ip.frag_offset ip; Ip.ttl := ttl; Ip.protocol := Ip.protocol ip;
                 Ip.hdr_checksum := literal 2 0; Ip.src := Ip.src ip; Ip.dst := Ip.dst ip |} |},
   ingress,
   {| eg_port := port; nexthop_v6 := nexthop_v6 egress; nexthop_v4 := nexthop_v4 egress;
      eg_drop := eg_drop egress; eg_broadcast := eg_broadcast egress |}).

Definition ingress_action_drop : Act := fun '(hdr, ingress, egress) =>
  (hdr, ingress,
   {| eg_port := eg_port egress; nexthop_v6 := nexthop_v6 egress; nexthop_v4 := nexthop_v4 egress;
      eg_drop := true; eg_broadcast := eg_broadcast egress |}).

Definition ingress_action_punt : Act := fun '(hdr, ingress, egress) =>
  (hdr, ingress,
   {| eg_port := literal 2 65535; nexthop_v6 := nexthop_v6 egress; nexthop_v4 := nexthop_v4 egress;
      eg_drop := eg_drop egress; eg_broadcast := eg_broadcast egress |}).

Definition parse_start (pkt : Packet) (hdr : headers_t) : option (Packet * headers_t * bool) :=
  '(pkt, eth) ← extract pkt (ethernet hdr);
  '(pkt, ip) ← extract pkt (ipv4 hdr);
  Some (pkt, {| ethernet := eth; ipv4 := ip |}, true).

Definition egress_apply : Act := fun s => s.

Definition ingress_ipv4_lpm : Tab Act := tab_new Act.

Definition ingress_apply (ipv4_lpm : Tab Act) : Act := fun s =>
  let hdr := s.1.1 in
  if negb (bv_eq (Eth.ether_type (ethernet hdr)) (literal 2 2048)) then ingress_action_drop s
  else if bv_eq (Ip.ttl (ipv4 hdr)) (literal 1 0) then ingress_action_drop s
  else
    match match_selector [biguint (Ip.dst (ipv4 hdr))] ipv4_lpm with
    | first :: _ => te_action first s
    | [] => ingress_action_drop s
    end.

(** [main_pipeline], less the three function fields, which [new] fixes. *)
Record main_pipeline := { ipv4_lpm : Tab Act; radix : u16 }.

Definition new (radix : u16) : main_pipeline := {| ipv4_lpm := ingress_ipv4_lpm; radix := radix |}.

Definition out_ports (radix port : u16) (egress : egress_metadata_t) : list u16 :=
  if eg_broadcast egress then
    filter (fun p => p <> port) ((fun p => U16 (Z.of_nat p)) <$> seq 0 (Z.to_nat (uv radix)))
  else if (bv_len (eg_port egress) =? 0)%nat || eg_drop egress then []
  else [U16 (load_le (eg_port egress))].

(** One copy out, unless the egress control drops it. *)
Definition emit (data : bytes) (parsed_size : nat) (s : State) (eport : u16) : list (packet_out * u16) :=
  let '(hdr, ingress, egm) := s in
  let egm := {| eg_port := literal 2 (uv eport); nexthop_v6 := nexthop_v6 egm; nexthop_v4 := nexthop_v4 egm;
                eg_drop := eg_drop egm; eg_broadcast := eg_broadcast egm |} in
  let '(hdr, _, egm) := egress_apply (hdr, ingress, egm) in
  if eg_drop egm then []
  else [({| header_data := as_raw_slice (headers_to_bitvec hdr); payload_data := drop parsed_size data |}, eport)].

Definition process_packet (port : u16) (data : bytes) (p : main_pipeline) : option (list (packet_out * u16)) :=
  let ingress := {| in_port := literal 2 (uv port); nat_ := false; nat_id := bv_default; in_drop := false |} in
  '(pkt, parsed, accept) ← parse_start (packet_in data) headers_default;
  if negb accept then Some []
  else
    let parsed_size := (valid_header_size parsed / 8)%nat in
    let s := ingress_apply (ipv4_lpm p) (parsed, ingress, egress_default) in
    Some (out_ports (radix p) port s.2 ≫= emit (packet_data pkt) parsed_size s).

(** The same without the deparser: the headers as they are and the port. *)
Definition emit_headers (s : State) (eport : u16) : list (headers_t * u16) :=
  let '(hdr, ingress, egm) := s in
  let egm := {| eg_port := literal 2 (uv eport); nexthop_v6 := nexthop_v6 egm; nexthop_v4 := nexthop_v4 egm;
                eg_drop := eg_drop egm; eg_broadcast := eg_broadcast egm |} in
  let '(hdr, _, egm) := egress_apply (hdr, ingress, egm) in
  if eg_drop egm then [] else [(hdr, eport)].

Definition process_packet_headers (port : u16) (data : bytes) (p : main_pipeline) : option (list (headers_t * u16)) :=
  let ingress := {| in_port := literal 2 (uv port); nat_ := false; nat_id := bv_default; in_drop := false |} in
  '(pkt, parsed, accept) ← parse_start (packet_in data) headers_default;
  if negb accept then Some []
  else
    let s := ingress_apply (ipv4_lpm p) (parsed, ingress, egress_default) in
    Some (out_ports (radix p) port s.2 ≫= emit_headers s).

(** [None]: an action the program has not, a panic. *)
Definition action_of (action_id : string) (parameter_data : bytes) : option Act :=
  if decide (action_id = "forward") then
    let port := extract_bit_action_parameter parameter_data 0 16 in
    let dmac := extract_bit_action_parameter parameter_data 2 48 in
    Some (ingress_action_forward port dmac)
  else if decide (action_id = "punt") then Some ingress_action_punt
  else if decide (action_id = "drop") then Some ingress_action_drop
  else None.

Definition entry (key : Key) (priority : u32) (action : Act) (action_id : string) (parameter_data : bytes) : TableEntry Key Act :=
  {| te_key := key; te_priority := priority; te_name := "your name here"; te_action := action;
     te_action_id := action_id; te_parameter_data := parameter_data |}.

Definition add_ingress_ipv4_lpm_entry (action_id : string) (keyset_data parameter_data : bytes) (priority : u32)
    (p : main_pipeline) : option main_pipeline :=
  let key := extract_lpm_key keyset_data 0 4 in
  action ← action_of action_id parameter_data;
  Some {| ipv4_lpm := entries_insert (entry key priority action action_id parameter_data) (ipv4_lpm p); radix := radix p |}.

Definition remove_ingress_ipv4_lpm_entry (keyset_data : bytes) (p : main_pipeline) : main_pipeline :=
  let key := extract_lpm_key keyset_data 0 4 in
  {| ipv4_lpm := entries_remove (entry key (U32 0) (fun s => s) EmptyString []) (ipv4_lpm p); radix := radix p |}.

(** [impl p4rs::Pipeline for main_pipeline]; an unknown table is ignored. *)
Definition add_entry (table_id action_id : string) (keyset_data parameter_data : bytes) (priority : u32)
    (p : main_pipeline) : option main_pipeline :=
  if decide (table_id = "ingress.ipv4_lpm")
  then add_ingress_ipv4_lpm_entry action_id keyset_data parameter_data priority p
  else Some p.

Definition remove_entry (table_id : string) (keyset_data : bytes) (p : main_pipeline) : main_pipeline :=
  if decide (table_id = "ingress.ipv4_lpm") then remove_ingress_ipv4_lpm_entry keyset_data p else p.

(** The rows of [get_table_entries]: the action, the bytes of the key, the
    parameters. *)
Definition get_ingress_ipv4_lpm_entries (p : main_pipeline) : list (string * bytes * bytes) :=
  (fun e => (te_action_id e, key_to_bytes (te_key e), te_parameter_data e)) <$> entries (ipv4_lpm p).

Definition get_table_entries (table_id : string) (p : main_pipeline) : option (list (string * bytes * bytes)) :=
  if decide (table_id = "ingress.ipv4_lpm") then Some (get_ingress_ipv4_lpm_entries p) else None.

Definition get_table_ids (_ : main_pipeline) : list string := ["ingress.ipv4_lpm"].

#[global] Instance l3_P4rs : P4rs (option main_pipeline) := {
  add_table_entry t a k ps n p := p ← p; add_entry t a k ps n p;
  remove_table_entry t k p := remove_entry t k <$> p;
  X4c.process_packet port data p :=
    match (p ← p; out ← process_packet port data p; Some (p, out)) with
    | Some (p, out) => (Some p, out)
    | None => (None, [])
    end;
}.
End program.
Arguments egress_metadata_t BV : clear implicits.
Arguments ingress_metadata_t BV : clear implicits.
Arguments headers_t BV : clear implicits.
Arguments main_pipeline BV {HP}.

(** ** What it computes *)

(** The calls the schema lets through. *)
Lemma l3_calls sch a ps :
  sch ∈ L3.SCHEMAS -> is_ok (check sch a ps) = true ->
  (a = "forward" /\ exists port mac, ps = [ValU16 port; ValMac mac]) \/ (a = "punt" /\ ps = []) \/ (a = "drop" /\ ps = []).
Proof.
  intros ->%list_elem_of_singleton Hc. destruct (check _ _ _) as [sig |] eqn:E; [| done].
  apply check_Ok in E as [Ha Hk]. pose proof (schema_action_name _ _ _ Ha) as Hn. apply find_Some in Ha as [Hin _].
  cbn [actions] in Hin. rewrite !elem_of_cons, elem_of_nil in Hin.
  destruct Hin as [-> | [-> | [-> | []]]]; cbn in Hn, Hk; subst a.
  - left. split; [done |]. destruct ps as [| [] [| [] [|]]]; try discriminate Hk. by do 2 eexists.
  - right. left. split; [done |]. by apply fmap_nil_inv in Hk.
  - right. right. split; [done |]. by apply fmap_nil_inv in Hk.
Qed.

(** A prefix, as the adapter encodes it. *)
Definition lpm_bytes (a : Ipv4Addr) (n : byte) : bytes := ip_octets a ++ [n].

Lemma l3_keys t k : key_ok L3.SCHEMAS t k -> t = "ipv4_lpm" /\ exists a n, k = KeyLpm (ValIpv4 a) n /\ key_bytes k = lpm_bytes a n.
Proof.
  intros (sch & Hs & Hk). pose proof (find_schema_name _ _ _ Hs) as Hn. apply find_schema_in, list_elem_of_singleton in Hs as ->.
  cbn in Hn, Hk. split; [done |]. destruct k as [v | v n]; [done |]. destruct v as [| | | | a]; try done.
  exists a, n. split; [done |]. unfold key_bytes. by rewrite encode_key_total.
Qed.

Lemma length_lpm a n : length (lpm_bytes a n) = 5%nat.
Proof. by destruct a. Qed.

Section laws.
Context {BV : Type} `{HB : Bitvec BV} `{HP : !P4rt BV} {bits : BV -> list bool} {head_ : BV -> nat} {view : Key -> KeyView} {off : Packet -> nat}.
Context {HL : BitvecLaws BV bits head_} {HR : P4rtLaws BV bits head_ view off}.
Implicit Types p : main_pipeline BV.
Abbreviation St := (headers_t BV * ingress_metadata_t BV * egress_metadata_t BV)%type.

Definition deparse (data : bytes) (parsed_size : nat) (x : headers_t BV * u16) : packet_out * u16 :=
  ({| header_data := as_raw_slice (headers_to_bitvec x.1); payload_data := drop parsed_size data |}, x.2).

(** Both entry points of the pipeline run one program: deparsing what
    [process_packet_headers] answers is what [process_packet] answers. *)
Lemma l3_headers_agree port data p :
  process_packet port data p =
    match parse_start (packet_in data) headers_default with
    | Some (pkt, parsed, _) =>
        map (deparse (packet_data pkt) (valid_header_size parsed / 8)) <$> process_packet_headers port data p
    | None => None
    end.
Proof.
  unfold process_packet, process_packet_headers. destruct (parse_start _ _) as [[[pkt parsed] []] |]; [| done | done].
  cbn [mbind option_bind negb fmap option_fmap option_map]. f_equal. set (s := ingress_apply _ _). clearbody s. destruct s as [[hdr ing] eg]. cbn [snd].
  generalize (out_ports (radix p) port eg). intros l. induction l as [| q l IH]; [done |].
  cbn [mbind list_bind]. rewrite map_app, IH. f_equal. unfold emit, emit_headers. cbn. by destruct (eg_drop eg).
Qed.

Definition TABLE : string := "ingress.ipv4_lpm".

Record entry_good (e : TableEntry Key (St -> St)) : Prop := {
  eg_key : exists a n, te_key e = extract_lpm_key (lpm_bytes a n) 0 4;
  eg_action : action_of (te_action_id e) (te_parameter_data e) = Some (te_action e);
  eg_params : te_action_id e = "forward" -> length (te_parameter_data e) = 8%nat;
}.

Definition good (p : option (main_pipeline BV)) : Prop :=
  match p with Some p => distinct (ipv4_lpm p) /\ forall e, e ∈ entries (ipv4_lpm p) -> entry_good e | None => False end.

Definition ext (k : bytes) : Key := extract_lpm_key k 0 4.

Definition contents (p : option (main_pipeline BV)) (t : string) (k : bytes) : option (string * bytes) :=
  p ← p; if decide (t = TABLE) then held ext (ipv4_lpm p) k else None.

Lemma table_l3 {Pipe} (new : u16 -> Pipe) : table_id (L3FWD new) "ipv4_lpm" = TABLE.
Proof. done. Qed.

Lemma l3_contents_at p k : contents (Some p) TABLE k = held ext (ipv4_lpm p) k.
Proof. unfold contents. cbn [mbind option_bind]. by rewrite decide_True. Qed.

Lemma lpm_view k : length k = 5%nat -> view (ext k) = VLpm (be_val (take 4 k)) (uv (byte_at k 4)).
Proof. intros Hl. unfold ext. by apply rt_lpm. Qed.

Lemma l3_ext_inj k k' : length k = 5%nat -> length k' = 5%nat -> ext k = ext k' -> k = k'.
Proof.
  intros Hk Hk' H%(f_equal view). rewrite !lpm_view in H by done. injection H as H1 H2.
  apply be_val_inj in H1; [| rewrite !length_take; lia]. apply uint_eq in H2.
  assert (forall l : bytes, length l = 5%nat -> l = take 4 l ++ [byte_at l 4]) as Hs.
  { intros l Hl. rewrite <- (take_drop 4 l) at 1. f_equal. change (drop 4 l) with (drop 4 l).
    rewrite <- slice_one by lia. unfold slice. rewrite take_ge; [done |]. rewrite length_drop. lia. }
  rewrite (Hs k), (Hs k') by done. congruence.
Qed.

#[global] Instance l3_laws :
  P4rsLaws (option (main_pipeline BV)) (L3FWD (fun r => Some (new r))) good contents.
Proof.
  split.
  - intros r _. cbn [d_new L3FWD good new ipv4_lpm]. unfold ingress_ipv4_lpm. split.
    + split; [apply (new_at (ext [])) |]. intros e. rewrite rt_new. by intros ?%not_elem_of_nil.
    + intros t k. unfold contents. cbn. case_decide; [apply held_new | done].
  - intros t k a ps n [p |] [Hk Hc] Hg; [| done]. destruct Hg as [Hd Hg]. intros Hnone.
    apply l3_keys in Hk as [-> (ad & len & -> & Hkb)]. destruct Hc as (sch & Hs%find_schema_in & Hc). apply (l3_calls _ _ _ Hs) in Hc.
    assert (exists act, action_of (BV := BV) a (param_bytes ps) = Some act /\ (a = "forward" -> length (param_bytes ps) = 8%nat))
      as (act & Ha & Hl) by (destruct Hc as [[-> (port & [] & ->)] | [[-> ->] | [-> ->]]]; eexists; split; reflexivity || done).
    rewrite table_l3, Hkb, l3_contents_at in *.
    set (e := entry (ext (lpm_bytes ad len)) n act a (param_bytes ps)).
    assert (add_table_entry TABLE a (lpm_bytes ad len) (param_bytes ps) n (Some p)
            = Some {| ipv4_lpm := entries_insert e (ipv4_lpm p); radix := radix p |}) as ->.
    { cbn. unfold add_entry, add_ingress_ipv4_lpm_entry. rewrite decide_True by done. by rewrite Ha. }
    destruct (held_insert ext _ l3_ext_inj e (ipv4_lpm p) _ (length_lpm ad len) eq_refl Hd Hnone) as (Hd' & Hin & Hat). split.
    + split; [done |]. intros x. cbn [ipv4_lpm]. rewrite Hin. intros [-> | Hx]; [| by apply Hg]. split; [by exists ad, len | exact Ha | exact Hl].
    + intros t' k' Hk'. apply l3_keys in Hk' as [-> (ad' & len' & -> & ->)]. rewrite table_l3, !l3_contents_at. cbn [ipv4_lpm].
      rewrite Hat by apply length_lpm. case_decide as E1; case_decide as E2; done || congruence.
  - intros t k [p |] Hk Hg; [| done]. destruct Hg as [Hd Hg]. apply l3_keys in Hk as [-> (ad & len & -> & Hkb)].
    rewrite table_l3, Hkb.
    set (e := entry (BV := BV) (ext (lpm_bytes ad len)) (U32 0) (fun s => s) EmptyString []).
    change (remove_table_entry _ _ _) with (Some {| ipv4_lpm := entries_remove e (ipv4_lpm p); radix := radix p |}).
    destruct (held_remove ext _ l3_ext_inj e (ipv4_lpm p) _ (length_lpm ad len) eq_refl Hd) as (Hd' & Hin & Hat). split.
    + split; [done |]. intros x. cbn [ipv4_lpm]. rewrite Hin. intros [_ Hx]. by apply Hg.
    + intros t' k' Hk'. apply l3_keys in Hk' as [-> (ad' & len' & -> & ->)]. rewrite table_l3, !l3_contents_at. cbn [ipv4_lpm].
      rewrite Hat by apply length_lpm. case_decide as E1; case_decide as E2; done || congruence.
  - intros port b [p |] Hg Hl; [| done]. cbn in Hl |- *.
    assert (exists out, process_packet port b p = Some out) as [out ->]; [| done].
    unfold process_packet, parse_start. destruct (rt_packet b) as [P1 P2].
    destruct (rt_extract (Eth.ethernet_h BV) 14 (packet_in b) (ethernet headers_default)) as (p1 & -> & D1 & O1); [done | rewrite P1, P2; lia |].
    cbn [mbind option_bind].
    destruct (rt_extract (Ip.ipv4_h BV) 20 p1 (ipv4 headers_default)) as (p2 & -> & _); [done | rewrite D1, O1, P1, P2; lia |].
    cbn. by eexists.
Qed.

(** The header a packet leaves with. *)
Definition header_out (b dst : bytes) (t : byte) (c : bytes) : bytes :=
  dst ++ slice 6 14 b ++ Ip.emitted (slice 14 34 b) t c.

Definition packet (b dst : bytes) (t : byte) (c : bytes) : packet_out :=
  {| header_data := header_out b dst t c; payload_data := drop 34 b |}.

(** What an entry says of a frame. *)
Definition outcome (entry : string * bytes) (b : bytes) : list (packet_out * u16) :=
  let '(a, pd) := entry in
  if decide (a = "forward") then
    [(packet b (reverse (slice 2 8 pd)) (U8 (uv (byte_at b 22) - 1)) [U8 0; U8 0], U16 (le_val (slice 0 2 pd)))]
  else if decide (a = "punt") then [(packet b (slice 0 6 b) (byte_at b 22) (slice 24 26 b), U16 65535)]
  else [].

Lemma l3_headers_raw h b dst t c :
  (34 <= length b)%nat -> length dst = 6%nat -> length c = 2%nat ->
  Eth.holds (bits := bits) (head := head_) (ethernet h) dst (slice 6 12 b) (slice 12 14 b) ->
  Ip.holds (bits := bits) (head := head_) (ipv4 h) (slice 14 34 b) t c ->
  as_raw_slice (headers_to_bitvec h) = header_out b dst t c.
Proof.
  intros Hl Hd Hc He Hi. pose proof He as [_ _ _ Hv]. pose proof Hi as [_ _ _ _ _ _ _ _ _ _ _ _ Hv'].
  unfold headers_to_bitvec, valid_header_size. rewrite Hv, Hv'. change (112 + 160)%nat with 272%nat.
  pose proof (Eth.eth_to_bitvec_holds _ _ _ _ He Hd ltac:(by rewrite length_slice by lia) ltac:(by rewrite length_slice by lia)) as (W1 & _ & _).
  pose proof (Ip.ip_to_bitvec_holds _ _ _ _ Hi ltac:(by rewrite length_slice by lia) Hc) as (V1 & _ & _).
  rewrite slice_app in W1 by lia. set (l1 := dst ++ slice 6 14 b) in *. set (l2 := Ip.emitted (slice 14 34 b) t c) in *.
  assert (length l1 = 14%nat) as H1 by (unfold l1; rewrite length_app, Hd, length_slice by lia; done).
  assert (length l2 = 20%nat) as H2.
  { unfold l2, Ip.emitted. rewrite !length_app, !length_slice, Hc by (rewrite ?length_slice; lia). done. }
  rewrite length_bits_of, H1, app_nil_r in W1. rewrite length_bits_of, H2, app_nil_r in V1.
  pose proof (or_written (bv_zeros 272) [] 272 112 0 (Eth.to_bitvec (ethernet h)) (written_start 272)) as Hw.
  rewrite W1, length_bits_of, H1, drop_0 in Hw. cbn [length app] in Hw. specialize (Hw ltac:(lia) ltac:(lia) ltac:(lia)).
  change (replicate _ false) with (@nil bool) in Hw. rewrite app_nil_r in Hw.
  pose proof (or_written _ _ 272 272 0 (Ip.to_bitvec (ipv4 h)) Hw) as Hw2.
  rewrite V1, !length_bits_of, H1, H2, drop_0 in Hw2. specialize (Hw2 ltac:(lia) ltac:(lia) ltac:(lia)).
  change (replicate _ false) with (@nil bool) in Hw2. rewrite app_nil_r, <- bits_of_app in Hw2.
  unfold header_out. rewrite (assoc_L (++)). fold l1 l2. apply (written_raw (bits := bits) (head := head_)).
  replace (8 * length (l1 ++ l2))%nat with 272%nat by (rewrite length_app; lia). exact Hw2.
Qed.

Lemma literal_eq x w n l : bits x = bits_of l -> bv_eq x (literal w n) = bool_decide (l = le_bytes w n).
Proof.
  intros Hx. destruct (bits_store n w) as [S1 _]. unfold literal. case_bool_decide as D.
  - apply bits_eq. by rewrite Hx, S1, D.
  - apply not_true_is_false. intros Hb%bits_eq. rewrite Hx, S1 in Hb. by apply D, bits_of_inj.
Qed.

Lemma emit_one (s : St) b q dst t c :
  (34 <= length b)%nat -> length dst = 6%nat -> length c = 2%nat ->
  Eth.holds (bits := bits) (head := head_) (ethernet s.1.1) dst (slice 6 12 b) (slice 12 14 b) ->
  Ip.holds (bits := bits) (head := head_) (ipv4 s.1.1) (slice 14 34 b) t c ->
  eg_drop s.2 = false ->
  [q] ≫= emit b 34 s = [(packet b dst t c, q)].
Proof.
  intros Hl Hd Hc He Hi Hg. destruct s as [[hdr ing] eg]. cbn in *. by rewrite Hg, (l3_headers_raw _ b dst t c).
Qed.

(** An IPv4 frame with time to live. *)
Definition live (b : bytes) : bool :=
  bool_decide (slice 12 14 b = [U8 8; U8 0]) && negb (bool_decide (byte_at b 22 = U8 0)).

Lemma literal_bits w n : bits (literal w n) = bits_of (le_bytes w n) /\ head_ (literal w n) = 0%nat.
Proof. apply bits_store. Qed.

(** What one entry does to a parsed frame. *)
Lemma action_spec e s b :
  (34 <= length b)%nat -> entry_good e -> byte_at b 22 <> U8 0 ->
  Eth.holds (bits := bits) (head := head_) (ethernet s.1.1) (slice 0 6 b) (slice 6 12 b) (slice 12 14 b) ->
  Ip.holds (bits := bits) (head := head_) (ipv4 s.1.1) (slice 14 34 b) (byte_at b 22) (slice 24 26 b) ->
  s.2 = egress_default ->
  forall radix port, out_ports radix port (te_action e s).2 ≫= emit b 34 (te_action e s) = outcome (te_action_id e, te_parameter_data e) b.
Proof.
  intros Hl [_ Ha Hp] Ht He Hi Hs radix port. destruct s as [[hdr ing] eg]. cbn [fst snd] in He, Hi, Hs. subst eg.
  unfold outcome, action_of in *. destruct (decide (te_action_id e = "forward")) as [E |].
  - injection Ha as <-. specialize (Hp E). set (pd := te_parameter_data e) in *.
    destruct (rt_param pd 0 2 ltac:(lia)) as [A1 _]. destruct (rt_param pd 2 6 ltac:(lia)) as [B1 B2].
    change (8 * 2)%nat with 16%nat in A1. change (8 * 6)%nat with 48%nat in B1, B2.
    assert (out_ports radix port (ingress_action_forward (extract_bit_action_parameter pd 0 16) (extract_bit_action_parameter pd 2 48)
      (hdr, ing, egress_default)).2 = [U16 (le_val (slice 0 2 pd))]) as ->.
    { unfold out_ports. cbn [snd ingress_action_forward eg_broadcast eg_drop eg_port egress_default].
      rewrite bits_len, A1, length_bits_of, length_slice by lia. cbn [Nat.eqb Nat.mul Nat.add Nat.sub orb].
      by rewrite (bits_load _ _ A1). }
    apply emit_one; [done | rewrite length_reverse, length_slice by lia; done | done | | | done].
    + destruct He as [_ S T V]. split; try done. cbn. rewrite reverse_involutive. by split.
    + destruct Hi as [V I D T N F G L P C S E1 W]. split; try done; cbn [Ip.ttl Ip.hdr_checksum ipv4 ingress_action_forward fst].
      * destruct (literal_bits 1 1) as [L1 _]. rewrite (rt_sub _ _ _ (U8 1) L L1); [done |].
        pose proof (uint_range (byte_at b 22)). change (uv (U8 1)) with 1.
        assert (uv (byte_at b 22) <> 0) by (intros H0; by apply Ht, uint_eq). lia.
      * apply literal_bits.
  - destruct (decide (te_action_id e = "punt")) as [E |].
    + injection Ha as <-.
      assert (out_ports radix port (ingress_action_punt (hdr, ing, egress_default)).2 = [U16 65535]) as ->.
      { unfold out_ports. cbn [snd ingress_action_punt eg_broadcast eg_drop eg_port egress_default]. destruct (literal_bits 2 65535) as [L1 _].
        rewrite bits_len, L1, length_bits_of, length_le_bytes. cbn [Nat.eqb Nat.mul Nat.add orb]. by rewrite (bits_load _ _ L1). }
      apply emit_one; try done; rewrite length_slice by lia; done.
    + destruct (decide (te_action_id e = "drop")) as [E |]; [| done]. injection Ha as <-.
      unfold out_ports, ingress_action_drop. cbn. by rewrite orb_true_r.
Qed.

Lemma dropped radix port s : eg_broadcast s.2 = false -> out_ports radix port (ingress_action_drop (BV := BV) s).2 = [].
Proof. destruct s as [[hdr ing] eg]. cbn. intros H. unfold out_ports. cbn. by rewrite H, orb_true_r. Qed.

Lemma l3_process_spec port b p :
  good (Some p) -> Forall (fun e => key_sane (view (te_key e))) (entries (ipv4_lpm p)) -> (34 <= length b)%nat ->
  process_packet port b p =
    Some (if live b then
            match head (match_selector [be_val (slice 30 34 b)] (ipv4_lpm p)) with
            | Some e => outcome (te_action_id e, te_parameter_data e) b
            | None => []
            end
          else []).
Proof.
  intros [Hd Hg] Hsane Hl. unfold process_packet, parse_start. destruct (rt_packet b) as [P1 P2].
  destruct (rt_extract (Eth.ethernet_h BV) 14 (packet_in b) (ethernet headers_default)) as (p1 & -> & D1 & O1); [done | rewrite P1, P2; lia |].
  cbn [mbind option_bind]. rewrite P1, P2 in *.
  destruct (rt_extract (Ip.ipv4_h BV) 20 p1 (ipv4 headers_default)) as (p2 & -> & D2 & _); [done | rewrite D1, O1; lia |].
  cbn [mbind option_bind negb]. rewrite D2, D1, O1.
  change (slice 0 (0 + 14) b) with (take 14 b). change (0 + 14 + 20)%nat with 34%nat. change (0 + 14)%nat with 14%nat.
  pose proof (Eth.eth_set_holds (bits := bits) (head := head_) (take 14 b) (Eth.ethernet_default (BV := BV)) ltac:(rewrite length_take; lia)) as He.
  rewrite !slice_take in He by lia.
  pose proof (Ip.ip_set_holds (bits := bits) (head := head_) (slice 14 34 b) (Ip.ipv4_default (BV := BV)) ltac:(rewrite length_slice; lia)) as Hi.
  assert (byte_at (slice 14 34 b) 8 = byte_at b 22) as Hb22.
  { unfold byte_at. rewrite !list_lookup_total_alt, slice_lookup by lia. done. }
  assert (slice 10 12 (slice 14 34 b) = slice 24 26 b) as Hck.
  { unfold slice at 2. rewrite slice_take, slice_drop by lia. done. }
  rewrite Hb22, Hck in Hi.
  change (h_set_valid (h_set (take 14 b) ?h)) with (Eth.set_valid (Eth.set (take 14 b) h)).
  change (h_set_valid (h_set (slice 14 34 b) ?h)) with (Ip.set_valid (Ip.set (slice 14 34 b) h)).
  set (hdr := {| ethernet := _; ipv4 := _ |}). change (Eth.set_valid _) with (ethernet hdr) in He.
  change (Ip.set_valid _) with (ipv4 hdr) in Hi. set (ing := {| in_port := _ |}).
  change (valid_header_size hdr / 8)%nat with 34%nat. clearbody hdr. f_equal.
  unfold ingress_apply. cbn [fst snd]. pose proof He as [_ _ [T1 _] _].
  pose proof Hi as [_ _ _ _ _ _ _ L _ _ _ [E1 E2] _].
  rewrite (literal_eq _ _ _ _ T1), (literal_eq _ _ _ _ L), (rt_biguint _ _ E1 E2).
  change (le_bytes 2 2048) with (reverse [U8 8; U8 0]). change (le_bytes 1 0) with [U8 0].
  assert (slice 16 20 (slice 14 34 b) = slice 30 34 b) as -> by (unfold slice at 2; rewrite slice_take, slice_drop by lia; done).
  change (le_val (reverse (slice 30 34 b))) with (be_val (slice 30 34 b)).
  rewrite (bool_decide_ext _ (slice 12 14 b = [U8 8; U8 0])) by (split; [by intros ?%(inj reverse) | by intros ->]).
  rewrite (bool_decide_ext ([byte_at b 22] = [U8 0]) (byte_at b 22 = U8 0))
    by (split; [by intros H0%(f_equal (fun l : bytes => byte_at l 0)) | by intros ->]).
  unfold live. case_bool_decide as Et; cbn [negb andb]; [| by rewrite dropped].
  case_bool_decide as Ez; cbn [negb]; [by rewrite dropped |].
  destruct (rt_match _ (be_val (slice 30 34 b)) (ipv4_lpm p) Hsane) as [M1 _].
  destruct (match_selector _ _) as [| first rest]; cbn [head]; [by rewrite dropped |].
  apply Forall_cons in M1 as [[Hin _] _]. by apply (action_spec first (hdr, ing, egress_default)); try apply Hg.
Qed.
End laws.
End G3.
