(* ===== verification/X4cModel.v ===== *)
(** * A runtime for the generated pipelines

    An implementation of the classes of [X4cRuntime] on lists of bits, which
    has every law they state: the laws can hold together, and the generated
    pipelines can be run on concrete frames. *)

From S2P Require Import Prelude Bytes X4cRuntime.

Local Open Scope Z_scope.

(** ** Packing bits into bytes *)

Definition byte_of (l : list bool) : byte := U8 (foldl (fun n (b : bool) => 2 * n + (if b then 1 else 0)) 0 l).

Fixpoint pack (n : nat) (l : list bool) : bytes :=
  match n with
  | O => []
  | S n => byte_of (resize 8 false l) :: pack n (drop 8 l)
  end.

Lemma byte_of_bits l : length l = 8%nat -> byte_bits (byte_of l) = l.
Proof.
  intros H. do 8 (destruct l as [| [] l]; [done | |]); destruct l; try done; vm_compute; reflexivity.
Qed.

Lemma bits_pack n l : (length l <= 8 * n)%nat -> bits_of (pack n l) = l ++ replicate (8 * n - length l) false.
Proof.
  revert l. induction n as [| n IH]; intros l Hl; [by destruct l; cbn in *; [| lia] |].
  cbn [pack]. change (bits_of (?b :: ?r)) with (byte_bits b ++ bits_of r).
  rewrite byte_of_bits by (by rewrite length_resize). rewrite IH by (rewrite length_drop; lia). rewrite length_drop.
  destruct (decide (length l <= 8)%nat).
  - rewrite resize_ge, (drop_ge l) by lia. cbn [app]. rewrite <- (assoc_L (++)), <- replicate_add. do 2 f_equal. lia.
  - rewrite resize_le, (assoc_L (++)), take_drop by lia. do 2 f_equal. lia.
Qed.

Lemma pack_bits l : pack (length l) (bits_of l) = l.
Proof.
  apply bits_of_inj. rewrite bits_pack, length_bits_of by (rewrite length_bits_of; lia).
  by rewrite Nat.sub_diag, app_nil_r.
Qed.

(** ** Bit vectors *)

Record BitVec := { bv_head : nat; bv_bits : list bool }.

Definition whole_bytes (n : nat) : nat := ((n + 7) / 8)%nat.

Definition unpack (l : list bool) : bytes := pack (whole_bytes (length l)) l.

Arguments unpack : simpl never.

Lemma unpack_bits_of l : unpack (bits_of l) = l.
Proof.
  unfold unpack, whole_bytes. rewrite length_bits_of. replace ((8 * length l + 7) / 8)%nat with (length l); [apply pack_bits |].
  apply Nat.div_unique with 7%nat; lia.
Qed.

#[export] Instance BitVec_Bitvec : Bitvec BitVec := {
  bv_default := {| bv_head := 0; bv_bits := [] |};
  bv_zeros n := {| bv_head := 0; bv_bits := replicate n false |};
  view_bits l a b := {| bv_head := (a mod 8)%nat; bv_bits := slice a b (bits_of l) |};
  from_vec l := {| bv_head := 0; bv_bits := bits_of l |};
  into_vec x := unpack (replicate (bv_head x) false ++ bv_bits x);
  bv_resize n v x := {| bv_head := bv_head x; bv_bits := resize n v (bv_bits x) |};
  bv_len x := length (bv_bits x);
  or_range a b m y x :=
    {| bv_head := bv_head x;
       bv_bits := take a (bv_bits x) ++ zip_or (slice a b (bv_bits x)) (drop m (bv_bits y)) ++ drop b (bv_bits x) |};
  as_raw_slice x := unpack (replicate (bv_head x) false ++ bv_bits x);
  store_le z x := {| bv_head := bv_head x; bv_bits := bits_of (le_bytes (length (bv_bits x) / 8) z) |};
  load_le x := le_val (unpack (bv_bits x));
  bv_eq x y := bool_decide (bv_bits x = bv_bits y);
}.

#[export] Instance BitVec_Laws : BitvecLaws BitVec bv_bits bv_head.
Proof.
  split; try done.
  - intros x. cbn [into_vec BitVec_Bitvec]. unfold unpack, whole_bytes. set (l := replicate _ _ ++ _).
    assert (length l = bv_head x + length (bv_bits x))%nat as Hl by (unfold l; by rewrite length_app, length_replicate).
    pose proof (Nat.div_mod_eq (length l + 7) 8) as Hd. pose proof (Nat.mod_upper_bound (length l + 7) 8 ltac:(done)).
    set (n := ((length l + 7) / 8)%nat) in *. pose proof (bits_pack n l ltac:(lia)) as Hp. split.
    + apply (f_equal length) in Hp. rewrite length_bits_of, length_app, length_replicate in Hp. lia.
    + rewrite Hp. unfold slice, l. rewrite <- (assoc_L (++)). rewrite drop_app_ge by (rewrite length_replicate; lia).
      rewrite length_replicate, Nat.sub_diag, drop_0. rewrite take_app_le by lia. apply take_ge. lia.
  - intros n v x Hn. cbn. by rewrite resize_le.
  - intros n w. cbn [store_le bv_zeros BitVec_Bitvec bv_bits bv_head]. split; [| done].
    by rewrite length_replicate, (Nat.mul_comm 8), Nat.div_mul.
  - intros x l Hx. cbn. by rewrite Hx, unpack_bits_of.
  - intros x y. cbn. by rewrite bool_decide_eq_true.
Qed.

(** ** The runtime *)

#[export] Instance KeyView_eq_dec : EqDecision KeyView.
Proof. solve_decision. Defined.

Definition heavier {A} (x y : TableEntry KeyView A) : Prop := key_weight (te_key y) <= key_weight (te_key x).

#[local] Instance heavier_dec {A} : RelDecision (heavier (A := A)).
Proof. intros x y. apply Z_le_dec. Defined.

#[local] Instance heavier_trans {A} : Transitive (heavier (A := A)).
Proof. intros x y z. unfold heavier. lia. Qed.

#[local] Instance heavier_total {A} : Total (heavier (A := A)).
Proof. intros x y. unfold heavier. lia. Qed.

(** Entries that match, heaviest first. *)
Definition matching {A} (sels : list Z) (t : list (TableEntry KeyView A)) : list (TableEntry KeyView A) :=
  match sels with
  | [sel] => merge_sort heavier (filter (fun e => key_matches (te_key e) sel = true) t)
  | _ => []
  end.

#[export] Instance BitVec_P4rt : P4rt BitVec := {
  Key := KeyView;
  extract_exact_key kb o n := VExact (le_val (slice o (o + n) kb));
  extract_lpm_key kb o n := VLpm (be_val (slice o (o + n) kb)) (uv (byte_at kb (o + n)));
  extract_bit_action_parameter pd o w := {| bv_head := 0; bv_bits := take w (drop (8 * o) (bits_of pd)) |};
  biguint x := le_val (unpack (bv_bits x));
  key_to_bytes k := match k with VExact n => le_bytes 6 n | VLpm a n => be_bytes 4 a ++ [U8 n] end;
  sub_le x y := from_vec [U8 (load_le x - load_le y)];
  Tab A := list (TableEntry KeyView A);
  tab_new A := [];
  entries A t := t;
  entries_insert A e t := e :: t;
  entries_remove A e t := filter (fun x => te_key x <> te_key e) t;
  match_selector A := matching;
  Packet := bytes * nat;
  packet_in l := (l, 0%nat);
  packet_data := fst;
  extract H _ p h :=
    let n := (h_size (H := H) / 8)%nat in
    if decide (p.2 + n <= length p.1)%nat
    then Some ((p.1, (p.2 + n)%nat), h_set_valid (h_set (slice p.2 (p.2 + n) p.1) h))
    else None;
}.

#[export] Instance BitVec_P4rtLaws : P4rtLaws BitVec bv_bits bv_head id snd.
Proof.
  split; try done.
  - intros kb n _. cbn. unfold slice. by rewrite drop_0, Nat.sub_0_r.
  - intros pd o w Hl. split; [| done]. cbn [extract_bit_action_parameter BitVec_P4rt bv_bits].
    rewrite drop_bits_of, take_bits_of. unfold slice. do 3 f_equal. lia.
  - intros x l Hx _. cbn. by rewrite Hx, unpack_bits_of.
  - intros x y a b Hx Hy _. cbn. rewrite Hx, Hy, !unpack_bits_of. cbn. rewrite !Z.add_0_r. done.
  - intros A sel t _. cbn [entries BitVec_P4rt] in t |- *.
    set (l := filter (fun e : TableEntry KeyView A => key_matches (te_key e) sel = true) t). pose proof (merge_sort_Permutation heavier l) as Hp.
    pose proof (StronglySorted_merge_sort heavier l) as Hs. change (match_selector [sel] t) with (merge_sort heavier l). split.
    + rewrite Hp. apply Forall_forall. intros e [H1 H2]%list_elem_of_filter. done.
    + intros e He Hm. assert (e ∈ merge_sort heavier l) as Hin by (rewrite Hp; by apply list_elem_of_filter).
      destruct (merge_sort heavier l) as [| first rest]; [by apply not_elem_of_nil in Hin |]. exists first, rest. split; [done |].
      apply StronglySorted_inv in Hs as [_ Hs]. rewrite Forall_forall in Hs. apply elem_of_cons in Hin as [-> | Hin]; [done |].
      exact (Hs _ Hin).
  - intros H HH n p h Hn Hl. cbn [extract BitVec_P4rt packet_data] in *. rewrite Hn, (Nat.mul_comm 8), Nat.div_mul by done.
    rewrite decide_True by done. by eexists.
Qed.
