(* ===== verification/X4cNative.v ===== *)
(** * The compiled backend against the native one

    The generated pipelines, driven by the x4c adapter, compute on every frame
    what the native renderings of the same programs compute, when both are told
    the same things: l2fwd always, and l3fwd on every packet that is not a later
    fragment. *)

From S2P Require Import Prelude Bytes Value Shim Table Frame Headers Engine Catalog Programs L2Fwd L3Fwd P4 X4cAbi X4cRuntime X4c GenL2 GenL3 X4cModel.

Local Open Scope Z_scope.

(** ** Telling a pipeline *)

(** The control operations of a run, told to any table surface. *)
Definition tell `{TableOps T} (s : T) (e : XEvent) : T :=
  match e with
  | XAdd t k a ps => (table_add t k a ps s).1
  | XRemove t k => (table_remove t k s).1
  | XSetDefault t a ps => (table_set_default t a ps s).1
  | XClear t => (table_clear t s).1
  | XSpawn | XFrame _ _ => s
  end.

Definition told `{TableOps T} (es : list XEvent) (s : T) : T := foldl tell s es.

(** No event changes a default, and none names a port that is reserved. *)
Definition plain (e : XEvent) : Prop :=
  match e with
  | XSetDefault _ _ _ => False
  | XAdd _ _ _ ps => forall port, head ps = Some (ValU16 port) -> port <> PUNT_PORT /\ port <> BROADCAST_PORT
  | _ => True
  end.

Lemma only_schema {ss sch t} : find_schema [ss] t = Ok sch -> sch = ss /\ t = table_name ss.
Proof.
  intros H. pose proof (find_schema_name _ _ _ H) as Hn. apply find_schema_in, list_elem_of_singleton in H as ->. by split.
Qed.

(** ** l2fwd *)

Module X2.
Definition act (a : string) (ps : list TypedVal) : L2.Action :=
  match ps with
  | ValU16 port :: _ => L2.AForward port
  | _ => if decide (a = "broadcast") then L2.ABroadcast else L2.ADrop
  end.

Definition key (mac : MacAddr) : string * TypedKey := ("mac_dst", KeyExact (ValMac mac)).

#[local] Instance key_inj : Inj (=) (=) key.
Proof. by intros m1 m2 [=]. Qed.

(** The installed entries are the forwarding database. *)
Record same (m : Entries) (s : L2.Spec) : Prop := {
  sa_miss : L2.miss s = L2.ABroadcast;
  sa_fdb mac : L2.fdb s !! mac = (fun x => act x.1 x.2) <$> m !! key mac;
  sa_calls mac x : m !! key mac = Some x ->
    (x.1 = "forward" /\ exists port, x.2 = [ValU16 port] /\ port <> PUNT_PORT /\ port <> BROADCAST_PORT) \/
    (x.1 = "broadcast" /\ x.2 = []) \/ (x.1 = "drop" /\ x.2 = []);
}.

Lemma l2_from_call_act sch a ps :
  sch ∈ L2.SCHEMAS -> is_ok (check sch a ps) = true -> L2.from_call sch a ps = Ok (act a ps).
Proof.
  intros Hs Hc. pose proof (G2.l2_calls _ _ _ Hs Hc) as H. apply list_elem_of_singleton in Hs as ->.
  by destruct H as [[-> [port ->]] | [[-> ->] | [-> ->]]].
Qed.

Lemma l2_same_event m s e : plain e -> same m s -> same (spec_event L2.SCHEMAS m e) (tell s e).
Proof.
  intros Hp Hs. pose proof Hs as [S1 S2 S3]. destruct e as [t k a ps | t k | t a ps | t | | i f]; cbn [spec_event tell]; try done.
  - unfold spec_add. cbn [table_add L2.Spec_TableOps]. destruct (find_schema _ _) as [sch |] eqn:Es; cbn [rbind]; [| done].
    pose proof (find_schema_in _ _ _ Es) as Hin. apply only_schema in Es as [-> ->].
    destruct k as [v | v n]; [| done]. destruct v as [| | | mac |]; try done. cbn [exact_mac rbind].
    change (is_ok (check_key _ (KeyExact (ValMac mac)))) with true. cbn [andb].
    destruct (is_ok (check _ a ps)) eqn:Hc.
    2: { unfold L2.from_call. by destruct (check _ a ps). }
    rewrite (l2_from_call_act _ a ps Hin Hc). cbn [rbind fst]. pose proof (G2.l2_calls _ _ _ Hin Hc) as Hcalls.
    change (table_name _, KeyExact (ValMac mac)) with (key mac). split; cbn [L2.miss L2.fdb]; [done | |].
    + intros mac'. destruct (decide (mac = mac')) as [-> | Hne]; [by rewrite !lookup_insert_eq |].
      rewrite !lookup_insert_ne by (done || by intros ?%(inj key)). apply S2.
    + intros mac' x. destruct (decide (mac = mac')) as [-> | Hne].
      * rewrite lookup_insert_eq. intros [= <-]. cbn [fst snd]. destruct Hcalls as [[-> [port ->]] | Hc2]; [left | by right].
        split; [done |]. exists port. split; [done |]. by apply (Hp port).
      * rewrite lookup_insert_ne by (done || by intros ?%(inj key)). apply S3.
  - unfold spec_remove. cbn [table_remove L2.Spec_TableOps]. destruct (find_schema _ _) as [sch |] eqn:Es; cbn [rbind]; [| done].
    apply only_schema in Es as [-> ->]. destruct k as [v | v n]; [| done]. destruct v as [| | | mac |]; try done.
    cbn [exact_mac]. change (is_ok (check_key _ (KeyExact (ValMac mac)))) with true.
    change (table_name _, KeyExact (ValMac mac)) with (key mac).
    assert (same (delete (key mac) m) {| L2.fdb := delete mac (L2.fdb s); L2.miss := L2.miss s |}) as Hd.
    { split; cbn [L2.miss L2.fdb]; [done | |].
      - intros mac'. destruct (decide (mac = mac')) as [-> | Hne]; [by rewrite !lookup_delete_eq |].
        rewrite !lookup_delete_ne by (done || by intros ?%(inj key)). apply S2.
      - intros mac' x. destruct (decide (mac = mac')) as [-> | Hne]; [by rewrite lookup_delete_eq |].
        rewrite lookup_delete_ne by (done || by intros ?%(inj key)). apply S3. }
    destruct (L2.fdb s !! mac) eqn:El; [exact Hd |]. rewrite (delete_id (L2.fdb s)) in Hd by done. cbn [fst]. by destruct s.
  - unfold spec_clear. cbn [table_clear L2.Spec_TableOps]. destruct (find_schema _ _) as [sch |] eqn:Es; [| done].
    apply only_schema in Es as [-> ->]. cbn [fst].
    assert (forall mac, filter (fun p : (string * TypedKey) * _ => p.1.1 <> "mac_dst") m !! key mac = None) as Hn.
    { intros mac. apply map_lookup_filter_None. right. intros x _ Hx. by apply Hx. }
    change (table_name _) with "mac_dst". split; cbn [L2.miss L2.fdb]; [done | |].
    + intros mac. by rewrite Hn, lookup_empty.
    + intros mac x. by rewrite Hn.
Qed.

Lemma l2_same_told es : Forall plain es -> same (spec_events L2.SCHEMAS es) (told es L2.spec_new).
Proof.
  unfold spec_events, told. induction es as [| e es IH] using rev_ind.
  - intros _. split; [done | |]; intros mac; by rewrite ?lookup_empty.
  - intros [H1 H2]%Forall_app. apply Forall_inv in H2. rewrite !foldl_app. cbn [foldl]. apply l2_same_event; [done | by apply IH].
Qed.

Section datapath.
Context {BV : Type} `{HB : Bitvec BV} `{HP : !P4rt BV} {bits : BV -> list bool} {head_ : BV -> nat} {view : Key -> KeyView} {off : Packet -> nat}.
Context {HL : BitvecLaws BV bits head_} {HR : P4rtLaws BV bits head_ view off}.

(** The compiled switch. *)
Definition compiled : Desc (option (G2.main_pipeline BV)) := L2FWD (fun r => Some (G2.new r)).

Lemma key_found mac : key_ok L2.SCHEMAS "mac_dst" (key mac).2 /\ key_bytes (key mac).2 = reverse (octets mac).
Proof.
  split; [by eexists |]. unfold key_bytes. by rewrite encode_key_total.
Qed.

(** More than one copy is a broadcast of the frame, whatever the copies. *)
Lemma copies_read r b scratch :
  3 <= uv r -> read_outputs (G2.copies r (U16 0) b) scratch = (Broadcast, b).
Proof.
  intros H3. unfold G2.copies. replace (Z.to_nat (uv r)) with (3 + (Z.to_nat (uv r) - 3))%nat by lia.
  rewrite seq_app, fmap_app, filter_app, fmap_app. cbn [seq]. change (?f <$> [0; 1; 2]%nat) with [U16 0; U16 1; U16 2].
  change (filter _ [U16 0; U16 1; U16 2]) with [U16 1; U16 2]. cbn. by rewrite take_drop.
Qed.

(** The whole frame written back over itself. *)
Lemma written_back f : ok f ->
  frame_mut (fun fr => take (len f `min` length (frame f))%nat (frame f) ++ drop (len f `min` length (frame f))%nat fr) f = f.
Proof.
  intros Ho. rewrite length_frame, Nat.min_id by done.
  transitivity (frame_mut (fun fr => fr) f); [| by apply frame_mut_id]. apply frame_mut_ext, take_drop.
Qed.

Lemma forward_port port : U16 (le_val (param_bytes [ValU16 port])) = port.
Proof. exact (be_u16_u16_be port). Qed.

(** A run of an engine whose tables hold what the native switch was told. *)
Lemma run_native m s f e :
  e_desc e = compiled -> holds_entries (d := compiled) (good := G2.good) (contents := G2.contents) (pipe e) m ->
  same m s -> ok f ->
  (x4c_run f e).1.2 = f /\ (x4c_run f e).2 = (process s f tt).2.
Proof.
  intros Hd [Hg Hr] [S1 S2 S3] Ho. unfold x4c_run. rewrite Hd. cbn [d_min_parse compiled L2FWD process L2.Spec_Engine snd].
  pose proof (extract_ethernet_parse (frame f)) as Hx. pose proof (length_frame f Ho) as Hl.
  case_decide as Hshort.
  { destruct (extract_ethernet (frame f)) as [[eth rest] |] eqn:Ee; [| by rewrite Hx].
    destruct (emit_extract_ethernet _ _ _ (h_dst eth) Ee). lia. }
  destruct (extract_ethernet (frame f)) as [[eth rest] |] eqn:Ee.
  2:{ exfalso. unfold extract_ethernet in Ee. destruct (first_chunk 14 (frame f)) eqn:Ec; [done |].
      apply first_chunk_None in Ec. lia. }
  rewrite Hx. cbn [eth_dst]. destruct (emit_extract_ethernet _ _ _ (h_dst eth) Ee) as (_ & _ & -> & _ & _).
  destruct (pipe e) as [p |] eqn:Ep; [| done].
  cbn [X4c.process_packet G2.l2_P4rs mbind option_bind].
  rewrite (G2.l2_process_spec (U16 0) (frame f) p Hg) by lia. cbn [mbind option_bind].
  set (mac := mac_of (slice 0 6 (frame f))).
  destruct (key_found mac) as [Hk1 Hk2]. specialize (Hr _ _ Hk1). rewrite Hk2 in Hr. unfold mac in Hr at 1.
  rewrite octets_mac_of in Hr by (rewrite length_slice; lia).
  change (table_id compiled "mac_dst") with G2.TABLE in Hr. rewrite Hr, S2, S1.
  change ("mac_dst", (key mac).2) with (key mac). pose proof (S3 mac) as Hc. destruct Hg as [_ H3].
  destruct (m !! key mac) as [[a ps] |]; cbn [fmap option_fmap option_map default G2.outcome fst snd] in *.
  2:{ rewrite copies_read by done. cbn [fst snd]. split; [by apply written_back | done]. }
  specialize (Hc _ eq_refl). cbn [fst snd] in Hc.
  destruct Hc as [[-> (port & -> & Hp1 & Hp2)] | [[-> ->] | [-> ->]]].
  - rewrite decide_True, forward_port by done. unfold read_outputs. rewrite !decide_False by done.
    cbn [G2.whole header_data payload_data]. rewrite take_drop. cbn [fst snd]. split; [by apply written_back | done].
  - rewrite !decide_False by done. rewrite copies_read by done. cbn [fst snd]. split; [by apply written_back | done].
  - done.
Qed.
End datapath.
End X2.

(** C7: the compiled switch is the native switch.  Over any bit vectors and
    runtime with the stated laws, after any sequence of control operations
    (none of which sets a default or names a reserved port), shards started and
    frames processed, every shard gives every frame the verdict of the native
    specification told the same operations, and hands the frame on as it came. *)
Theorem l2_x4c_is_native {BV} `{HB : Bitvec BV} `{HP : !P4rt BV} {bits head_ view off}
    `{!BitvecLaws BV bits head_} `{!P4rtLaws BV bits head_ view off}
    (params : PipelineParams) (es : list XEvent) i e f :
  let d := L2FWD (fun r => Some (G2.new (BV := BV) r)) in
  Forall plain es -> Forall event_ok es -> Z.of_nat (length es) < 2 ^ 64 - 1 -> ok f ->
  (run_events d params es).2 !! i = Some e ->
  let '(_, g, v) := process (run_events d params es).1 f e in
  (tt, g, v) = process (told es L2.spec_new) f tt.
Proof.
  intros d Hp He Hn Ho Hi.
  destruct (shards_hold (d := d) params es i e (proj1 (Forall_inv (shipped_ids _))) He Hn Hi) as [Hd Hh].
  destruct (X2.run_native _ _ f _ Hd Hh (X2.l2_same_told es Hp) Ho) as [Hf Hv].
  cbn [process X4c_Engine]. unfold x4c_process. destruct (x4c_run _ _) as [[e' g] v]. cbn [fst snd] in Hf, Hv. by subst.
Qed.

Lemma l2_x4c_is_native_witness :
  let mac := mac_of [U8 2; U8 0; U8 0; U8 0; U8 0; U8 1] in
  let es := [XSpawn; XAdd "mac_dst" (KeyExact (ValMac mac)) "forward" [ValU16 (U16 7)]] in
  let f := {| buf := octets mac ++ replicate 50 (U8 0); headroom := 0; len := 56; ingress_vport := U16 0; rx_ts_us := U32 0 |} in
  let d := L2FWD (fun r => Some (G2.new (BV := BitVec) r)) in
  let s := run_events d {| vports := [] |} es in
  exists e, s.2 !! 0%nat = Some e /\
    (let '(_, g, v) := process s.1 f e in (tt, g, v) = process (told es L2.spec_new) f tt) /\
    (process (told es L2.spec_new) f tt).2 = Forward (U16 7).
Proof.
  intros mac es f d s. eexists. split; [reflexivity |]. split; [| vm_compute; reflexivity].
  apply (l2_x4c_is_native (HP := BitVec_P4rt) (bits := bv_bits) (head_ := bv_head) (view := id) (off := snd) {| vports := [] |} es 0).
  - apply Forall_cons_2; [exact I | apply Forall_cons_2; [| by apply Forall_nil_2]]. intros port [= <-].
    split; intros E; apply (f_equal uv) in E; vm_compute in E; done.
  - repeat constructor.
  - cbn [es length]. lia.
  - unfold ok. vm_compute. lia.
  - reflexivity.
Defined.
