(* ===== verification/X4cRouter.v ===== *)
(** * The compiled router against the native one

    The generated l3fwd pipeline, driven by the x4c adapter inside up4's
    envelope, is the P4 program but for two bytes of the packets it forwards,
    and so, on every packet whose fragment offset is zero, the native router. *)

From S2P Require Import Prelude Bytes Value Shim Table Frame Headers Engine Catalog Programs L3Fwd P4 X4cAbi X4cRuntime X4c GenL2 GenL3 X4cModel X4cNative.

Local Open Scope Z_scope.

Module X3.
Definition key (p : Ipv4Prefix) : string * TypedKey := ("ipv4_lpm", KeyLpm (ValIpv4 (prefix_addr p)) (plen p)).

#[local] Instance key_inj : Inj (=) (=) key.
Proof.
  intros p q E. assert (prefix_addr p = prefix_addr q /\ plen p = plen q) as [Ha Hn] by (unfold key in E; split; congruence).
  apply (f_equal ip_u32) in Ha. rewrite !ip_u32_prefix_addr in Ha. destruct p, q. cbn in *. congruence.
Qed.

Definition act (a : string) (ps : list TypedVal) : L3.Action :=
  match ps with
  | ValU16 port :: ValMac dmac :: _ => L3.AForward port dmac
  | _ => if decide (a = "punt") then L3.APunt else L3.ADrop
  end.

(** A key in the form the native router keeps it in. *)
Definition canonical (k : TypedKey) : Prop :=
  match k with KeyLpm (ValIpv4 a) n => prefix_wf (Prefix (ip_u32 a) n) | _ => True end.

(** Prefixes are canonical. *)
Definition plain_keys (e : XEvent) : Prop :=
  match e with XAdd _ k _ _ | XRemove _ k => canonical k | _ => True end.

(** The installed entries are the routes. *)
Record same (m : Entries) (s : L3.Spec) : Prop := {
  sa_miss : L3.miss s = L3.ADrop;
  sa_keys t k : is_Some (m !! (t, k)) -> exists p, prefix_wf p /\ (t, k) = key p;
  sa_routes p : prefix_wf p -> L3.routes s !! p = (fun x => act x.1 x.2) <$> m !! key p;
  sa_wf p : is_Some (L3.routes s !! p) -> prefix_wf p;
  sa_calls k x : m !! k = Some x ->
    (x.1 = "forward" /\ exists port dmac, x.2 = [ValU16 port; ValMac dmac] /\ port <> PUNT_PORT /\ port <> BROADCAST_PORT) \/
    (x.1 = "punt" /\ x.2 = []) \/ (x.1 = "drop" /\ x.2 = []);
}.

Lemma l3_from_call_act sch a ps :
  sch ∈ L3.SCHEMAS -> is_ok (check sch a ps) = true -> L3.from_call sch a ps = Ok (act a ps).
Proof.
  intros Hs Hc. pose proof (G3.l3_calls _ _ _ Hs Hc) as H. apply list_elem_of_singleton in Hs as ->.
  by destruct H as [[-> (port & dmac & ->)] | [[-> ->] | [-> ->]]].
Qed.

(** A canonical key is the key of its prefix. *)
Lemma canonical_key a n :
  canonical (KeyLpm (ValIpv4 a) n) ->
  exists p, prefix_wf p /\ prefix_new a n = Some p /\ ("ipv4_lpm", KeyLpm (ValIpv4 a) n) = key p.
Proof.
  intros Hw. set (p := Prefix (ip_u32 a) n) in *. exists p.
  assert (prefix_addr p = a) as Ha by (apply ip_u32_inj; by rewrite ip_u32_prefix_addr). split; [done |]. split.
  - rewrite <- Ha. change n with (plen p). by apply prefix_new_addr.
  - unfold key. by rewrite Ha.
Qed.

Lemma same_add m s p a ps sch :
  same m s -> prefix_wf p -> sch ∈ L3.SCHEMAS -> is_ok (check sch a ps) = true ->
  (forall port, head ps = Some (ValU16 port) -> port <> PUNT_PORT /\ port <> BROADCAST_PORT) ->
  same (<[key p := (a, ps)]> m) {| L3.routes := <[p := act a ps]> (L3.routes s); L3.miss := L3.miss s |}.
Proof.
  intros [S1 S2 S3 S5 S4] Hp Hs Hc Hport. split; cbn [L3.routes L3.miss]; [done | | | |].
  - intros t k. destruct (decide ((t, k) = key p)) as [E | Hne]; [by exists p |]. rewrite lookup_insert_ne by done. apply S2.
  - intros q Hq. destruct (decide (p = q)) as [-> | Hne]; [by rewrite !lookup_insert_eq |].
    rewrite !lookup_insert_ne by (done || by intros ?%(inj key)). by apply S3.
  - intros q. destruct (decide (p = q)) as [<- | Hne]; [done |]. rewrite lookup_insert_ne by done. apply S5.
  - intros k x. destruct (decide (key p = k)) as [<- | Hne]; [| rewrite lookup_insert_ne by done; apply S4].
    rewrite lookup_insert_eq. intros [= <-]. cbn [fst snd].
    destruct (G3.l3_calls _ _ _ Hs Hc) as [[-> (port & dmac & ->)] | H]; [left | by right].
    split; [done |]. exists port, dmac. split; [done |]. by apply Hport.
Qed.

Lemma same_delete m s p :
  same m s -> prefix_wf p -> same (delete (key p) m) {| L3.routes := delete p (L3.routes s); L3.miss := L3.miss s |}.
Proof.
  intros [S1 S2 S3 S5 S4] Hp. split; cbn [L3.routes L3.miss]; [done | | | |].
  - intros t k [x [_ Hx]%lookup_delete_Some]. eauto.
  - intros q Hq. destruct (decide (p = q)) as [-> | Hne]; [by rewrite !lookup_delete_eq |].
    rewrite !lookup_delete_ne by (done || by intros ?%(inj key)). by apply S3.
  - intros q [x [_ Hx]%lookup_delete_Some]. eauto.
  - intros k x [_ Hx]%lookup_delete_Some. eauto.
Qed.

Lemma l3_same_event m s e : plain e -> plain_keys e -> same m s -> same (spec_event L3.SCHEMAS m e) (tell s e).
Proof.
  intros Hp Hk Hs. destruct e as [t k a ps | t k | t a ps | t | | i f]; cbn [spec_event tell plain_keys plain] in *; try done.
  - unfold spec_add. cbn [table_add L3.Spec_TableOps]. destruct (find_schema _ _) as [sch |] eqn:Es; cbn [rbind]; [| done].
    pose proof (find_schema_in _ _ _ Es) as Hin. apply only_schema in Es as [-> ->].
    destruct k as [v | v n]; [done |]. destruct v as [| | | | ad]; try done. cbn [lpm_ipv4 rbind].
    destruct (canonical_key ad n Hk) as (p & Hw & -> & Hkey). cbn [ok_or rbind].
    change (is_ok (check_key _ (KeyLpm (ValIpv4 ad) n))) with true. cbn [andb].
    destruct (is_ok (check _ a ps)) eqn:Hc.
    2: { unfold L3.from_call. by destruct (check _ a ps). }
    rewrite (l3_from_call_act _ a ps Hin Hc). cbn [rbind fst]. change (table_name _) with "ipv4_lpm". rewrite Hkey. by eapply same_add.
  - unfold spec_remove. cbn [table_remove L3.Spec_TableOps]. destruct (find_schema _ _) as [sch |] eqn:Es; cbn [rbind]; [| done].
    apply only_schema in Es as [-> ->]. destruct k as [v | v n]; [done |]. destruct v as [| | | | ad]; try done. cbn [lpm_ipv4].
    destruct (canonical_key ad n Hk) as (p & Hw & -> & Hkey). cbn [ok_or].
    change (is_ok (check_key _ (KeyLpm (ValIpv4 ad) n))) with true.
    change (table_name _) with "ipv4_lpm". rewrite Hkey. pose proof (same_delete m s p Hs Hw) as Hd.
    destruct (L3.routes s !! p) eqn:El; [exact Hd |]. rewrite (delete_id (L3.routes s)) in Hd by done. cbn [fst]. by destruct s.
  - unfold spec_clear. cbn [table_clear L3.Spec_TableOps]. destruct (find_schema _ _) as [sch |] eqn:Es; [| done].
    apply only_schema in Es as [-> ->]. cbn [fst]. change (table_name _) with "ipv4_lpm".
    destruct Hs as [S1 S2 S3 S5 S4]. set (m' := filter _ m).
    assert (forall k, m' !! k = None) as Hn.
    { intros k. apply map_lookup_filter_None. right. intros x Hx Hne. destruct k as [t k].
      destruct (S2 t k) as (p & _ & [=]); [by eexists |]. by apply Hne. }
    split; cbn [L3.miss L3.routes]; [done | | | |].
    + intros t k. rewrite Hn. by intros [].
    + intros p _. by rewrite Hn, lookup_empty.
    + intros p. rewrite lookup_empty. by intros [].
    + intros k x. by rewrite Hn.
Qed.

Lemma l3_same_told es :
  Forall plain es -> Forall plain_keys es -> same (spec_events L3.SCHEMAS es) (told es L3.spec_new).
Proof.
  unfold spec_events, told. induction es as [| e es IH] using rev_ind.
  - intros _ _. cbn [foldl]. split; [done | | | |].
    + intros t k. rewrite lookup_empty. by intros [].
    + intros p _. by rewrite !lookup_empty.
    + intros p. cbn [L3.routes L3.spec_new]. rewrite lookup_empty. by intros [].
    + intros k x. by rewrite lookup_empty.
  - intros [H1 H2]%Forall_app [H3 H4]%Forall_app. apply Forall_inv in H2, H4. rewrite !foldl_app. cbn [foldl].
    apply l3_same_event; [done | done | by apply IH].
Qed.

(** *** The lookup *)

Lemma matches_prefix q k :
  prefix_wf q -> key_matches (VLpm (uv (base q)) (uv (plen q))) (uv k) = true <-> prefix_of k (plen q) = q.
Proof.
  intros [Hl Hb]. cbn [key_matches]. rewrite Z.eqb_eq, <- and_mask_eq, Hb by done. unfold prefix_of. destruct q; cbn.
  split; [by intros -> | by intros [= <-]].
Qed.

Lemma masked_wf k n : uv n <= 32 -> prefix_wf (prefix_of k n).
Proof. intros H. split; [done |]. by apply and_mask_idem. Qed.

(** *** The packet *)

(** What the compiled code does to the flags and the fragment offset. *)
Definition mangle (out : bytes) : bytes :=
  take 20 out ++ Ip.mangled (byte_at out 20) (byte_at out 21) ++ drop 22 out.

(** The P4 program as it was compiled. *)
Definition l3_compiled (s : L3.Spec) (pkt : bytes) : Verdict * bytes :=
  let '(v, out) := l3_program s pkt in (v, mangle out).

Lemma forward_params port dmac :
  U16 (le_val (slice 0 2 (param_bytes [ValU16 port; ValMac dmac]))) = port /\
  reverse (slice 2 8 (param_bytes [ValU16 port; ValMac dmac])) = octets dmac.
Proof.
  split; [| by destruct dmac]. transitivity (be_u16 (u16_be port)); [| apply be_u16_u16_be].
  unfold be_u16, be_val. do 2 f_equal. by destruct dmac.
Qed.

Lemma length_mangled x y : length (Ip.mangled x y) = 2%nat.
Proof. done. Qed.

(** The bytes of a packet of the compiled router. *)
Lemma packet_mangled b dst t c :
  (34 <= length b)%nat -> length dst = 6%nat -> length c = 2%nat ->
  header_data (G3.packet b dst t c) ++ payload_data (G3.packet b dst t c) =
  mangle (dst ++ slice 6 22 b ++ [t] ++ slice 23 24 b ++ c ++ slice 26 34 b ++ drop 34 b).
Proof.
  intros Hl Hd Hc. cbn [G3.packet header_data payload_data]. unfold G3.header_out, Ip.emitted, mangle.
  do 34 (destruct b as [| ? b]; [cbn in Hl; lia |]). do 6 (destruct dst as [| ? dst]; [done |]). destruct dst; [| done].
  destruct c as [| ? [| ? [|]]]; try done.
Qed.

Lemma program_live s b :
  (34 <= length b)%nat ->
  l3_program s b =
    if G3.live b then
      match default (L3.miss s) (Lpm.longest (L3.routes s) (be_u32 (slice 30 34 b)) 32) with
      | L3.AForward port dmac =>
          (if decide (port = PUNT_PORT) then Punt else Forward port,
           octets dmac ++ slice 6 22 b ++ [U8 (uv (byte_at b 22) - 1)] ++ slice 23 24 b ++ [U8 0; U8 0] ++ slice 26 34 b ++ drop 34 b)
      | L3.APunt => (Punt, (l3_program s b).2)
      | L3.ADrop => (Drop, (l3_program s b).2)
      end
    else (Drop, (l3_program s b).2).
Proof.
  intros Hl. unfold l3_program.
  destruct (extract_ethernet b) as [[eth rest] |] eqn:Ee.
  2:{ exfalso. unfold extract_ethernet in Ee. destruct (first_chunk 14 b) eqn:Ec; [done |]. apply first_chunk_None in Ec. lia. }
  pose proof (fun d => emit_extract_ethernet _ _ _ d Ee) as He. destruct (He (h_dst eth)) as (_ & -> & _ & Ht & _).
  destruct (extract_ipv4 (drop 14 b)) as [[ip payload] |] eqn:Ei.
  2:{ exfalso. unfold extract_ipv4 in Ei. destruct (first_chunk 20 (drop 14 b)) eqn:Ec; [done |].
      apply first_chunk_None in Ec. rewrite length_drop in Ec. lia. }
  pose proof (fun t => emit_extract_ipv4 _ _ _ t (U16 0) Ei) as Hi. destruct (Hi (U8 0)) as (_ & -> & Httl & Hd & _).
  rewrite byte_at_drop in Httl. rewrite slice_drop in Hd. cbn [Nat.add] in Httl, Hd. unfold l3_ingress. rewrite Httl, Hd.
  assert (bool_decide (h_ether_type eth = U16 2048) = bool_decide (slice 12 14 b = [U8 8; U8 0])) as ->.
  { apply bool_decide_ext. rewrite Ht. split; intros E.
    - apply (f_equal u16_be) in E. rewrite u16_be_be_u16 in E by (rewrite length_slice; lia). rewrite E. reflexivity.
    - rewrite E. by apply uint_eq. }
  unfold G3.live. case_bool_decide; cbn [negb andb]; [| done]. case_bool_decide; cbn [negb]; [done |].
  destruct (default (L3.miss s) _) as [port dmac | |]; [| done | done].
  destruct (He dmac) as (_ & _ & _ & _ & ->). destruct (Hi (U8 (uv (byte_at b 22) - 1))) as (_ & _ & _ & _ & E).
  rewrite Hd in E. rewrite E.
  unfold verdict_of. cbn [eg_drop eg_broadcast eg_port egress_init]. f_equal. rewrite !slice_drop, drop_drop. cbn [Nat.add].
  change (u16_be (U16 0)) with [U8 0; U8 0]. rewrite <- !(assoc_L (++)).
  by rewrite (assoc_L (++) (slice 6 14 b)), slice_app by lia.
Qed.

Section datapath.
Context {BV : Type} `{HB : Bitvec BV} `{HP : !P4rt BV} {bits : BV -> list bool} {head_ : BV -> nat} {view : Key -> KeyView} {off : Packet -> nat}.
Context {HL : BitvecLaws BV bits head_} {HR : P4rtLaws BV bits head_ view off}.

(** The compiled router. *)
Definition compiled : Desc (option (G3.main_pipeline BV)) := L3FWD (fun r => Some (G3.new r)).

(** A pipeline that holds the installed entries. *)
Record holding (m : Entries) (p : G3.main_pipeline BV) : Prop := {
  hg_good : G3.good (Some p);
  hg_holds : represents compiled (G3.contents (Some p)) m;
}.

Lemma holding_at m p a n :
  holding m p ->
  entry_at (G3.ext (G3.lpm_bytes a n)) (entries (G3.ipv4_lpm p)) ≫= (fun e => Some (te_action_id e, te_parameter_data e)) =
  (fun x => (x.1, param_bytes x.2)) <$> m !! ("ipv4_lpm", KeyLpm (ValIpv4 a) n).
Proof.
  intros [_ Hr]. specialize (Hr "ipv4_lpm" (KeyLpm (ValIpv4 a) n) ltac:(by eexists)).
  change (table_id compiled "ipv4_lpm") with G3.TABLE in Hr. rewrite G3.l3_contents_at in Hr. unfold key_bytes in Hr.
  rewrite encode_key_total in Hr. exact Hr.
Qed.

Lemma view_lpm a n : view (G3.ext (G3.lpm_bytes a n)) = VLpm (uv (ip_u32 a)) (uv n).
Proof.
  rewrite G3.lpm_view by apply G3.length_lpm. unfold ip_u32. rewrite uv_be_u32 by by destruct a. by destruct a.
Qed.

Lemma entry_route m s p e :
  holding m p -> same m s -> e ∈ entries (G3.ipv4_lpm p) ->
  exists q x, prefix_wf q /\ view (te_key e) = VLpm (uv (base q)) (uv (plen q)) /\ m !! key q = Some x /\
    te_action_id e = x.1 /\ te_parameter_data e = param_bytes x.2.
Proof.
  intros Hh [_ S2 _ _ _] Hin. pose proof Hh as [[Hd Hg] _]. destruct (G3.eg_key _ (Hg e Hin)) as (a & n & Hk).
  change (te_key e = G3.ext (G3.lpm_bytes a n)) in Hk.
  pose proof (holding_at m p a n Hh) as Hx.
  assert (entry_at (G3.ext (G3.lpm_bytes a n)) (entries (G3.ipv4_lpm p)) = Some e) as He by (by apply entry_at_Some).
  rewrite He in Hx. cbn [mbind option_bind] in Hx. symmetry in Hx. apply fmap_Some in Hx as (x & Hm & [= Ha Hp]).
  destruct (S2 "ipv4_lpm" (KeyLpm (ValIpv4 a) n)) as (q & Hq & E); [by eexists |]. exists q, x.
  rewrite <- E. split; [done |]. split; [| done]. rewrite Hk, view_lpm. unfold key in E. injection E as -> ->.
  by rewrite ip_u32_prefix_addr.
Qed.

Lemma route_entry m p q x :
  holding m p -> m !! key q = Some x ->
  exists e, e ∈ entries (G3.ipv4_lpm p) /\ view (te_key e) = VLpm (uv (base q)) (uv (plen q)).
Proof.
  intros Hh Hm. pose proof Hh as [[Hd _] _]. pose proof (holding_at m p (prefix_addr q) (plen q) Hh) as Hx.
  change ("ipv4_lpm", KeyLpm (ValIpv4 (prefix_addr q)) (plen q)) with (key q) in Hx. rewrite Hm in Hx.
  destruct (entry_at _ _) as [e |] eqn:He; [| done]. apply entry_at_Some in He as [Hin Hk]; [| done].
  exists e. split; [done |]. by rewrite Hk, view_lpm, ip_u32_prefix_addr.
Qed.

(** What the compiled lookup selects is the longest route. *)
Lemma selected m s p k :
  holding m p -> same m s ->
  match head (match_selector [uv k] (G3.ipv4_lpm p)) with
  | Some e => exists q x, m !! key q = Some x /\ te_action_id e = x.1 /\ te_parameter_data e = param_bytes x.2 /\
                Lpm.longest (L3.routes s) k 32 = Some (act x.1 x.2)
  | None => Lpm.longest (L3.routes s) k 32 = None
  end.
Proof.
  intros Hh Hs. pose proof Hs as [_ _ S3 _ _].
  destruct (rt_match _ (uv k) (G3.ipv4_lpm p)) as [M1 M2].
  { apply Forall_forall. intros e He. destruct (entry_route m s p e Hh Hs He) as (q & x & [Hq _] & -> & _).
    unfold key_sane. cbn. pose proof (uint_range (plen q)). lia. }
  assert (forall n, uv n <= 32 -> forall a, L3.routes s !! prefix_of k n = Some a ->
    exists e x, e ∈ entries (G3.ipv4_lpm p) /\ view (te_key e) = VLpm (uv (base (prefix_of k n))) (uv n) /\
      key_matches (view (te_key e)) (uv k) = true /\ m !! key (prefix_of k n) = Some x /\ a = act x.1 x.2) as Hin.
  { intros n Hn a Ha. pose proof (masked_wf k n Hn) as Hw. rewrite S3 in Ha by done. apply fmap_Some in Ha as (x & Hx & ->).
    destruct (route_entry m p _ x Hh Hx) as (e & He & Hv). exists e, x. split; [done |]. split; [done |]. split; [| done].
    rewrite Hv. by apply matches_prefix. }
  pose proof (Lpm.longest_spec (L3.routes s) k 32 ltac:(lia)) as Hl.
  destruct (match_selector [uv k] (G3.ipv4_lpm p)) as [| first rest]; cbn [head].
  - destruct (Lpm.longest _ _ _) as [a |]; [| done]. destruct Hl as (n & Hn & Ha & _).
    destruct (Hin n Hn a Ha) as (e & x & He & _ & Hm & _). destruct (M2 e He Hm) as (? & ? & [=] & _).
  - apply Forall_cons in M1 as [[Hf Hmf] _]. destruct (entry_route m s p first Hh Hs Hf) as (q & x & Hq & Hv & Hm & Ha & Hpd).
    exists q, x. split; [done |]. split; [done |]. split; [done |]. rewrite Hv in Hmf. apply matches_prefix in Hmf; [| done].
    assert (L3.routes s !! prefix_of k (plen q) = Some (act x.1 x.2)) as Hr by (by rewrite Hmf, S3, Hm).
    pose proof Hq as [Hq32 _]. destruct (Lpm.longest _ _ _) as [a |]; [| by rewrite (Hl (plen q)) in Hr].
    destruct Hl as (n & Hn & Hna & Hlonger). destruct (Hin n Hn a Hna) as (e & x' & He & Hve & Hme & _).
    destruct (M2 e He Hme) as (first' & rest' & [= <- <-] & Hw). rewrite Hve, Hv in Hw. cbn in Hw.
    destruct (decide (uv (plen q) = uv n)) as [E%uint_eq | Hne]; [congruence |].
    rewrite (Hlonger (plen q)) in Hr by (change (Z.of_nat 32) with 32; lia). done.
Qed.

(** No route goes to the reserved punt port. *)
Lemma same_unreserved m s : same m s -> l3_unreserved s.
Proof.
  intros [S1 _ S3 S5 S4] port dmac [H | [p H]]; [by rewrite S1 in H |]. pose proof (S5 p ltac:(by eexists)) as Hw.
  rewrite S3 in H by done. apply fmap_Some in H as (x & Hx & E).
  destruct (S4 _ _ Hx) as [[_ (port' & dmac' & E2 & Hp & _)] | [[E1 E2] | [E1 E2]]]; rewrite E2 in E; cbn [act] in E.
  - by injection E as -> ->.
  - by rewrite E1 in E.
  - by rewrite E1 in E.
Qed.

(** A packet whose fragment offset is zero: not a later fragment. *)
Definition offset_zero (b : bytes) : Prop := Z.land (uv (byte_at b 20)) 31 = 0 /\ uv (byte_at b 21) = 0.

Lemma mangled_zero x y : Z.land (uv x) 31 = 0 -> uv y = 0 -> Ip.mangled x y = [x; y].
Proof.
  intros Hx Hy. unfold Ip.mangled. rewrite Hy. change (Z.shiftr 0 6) with 0. change (Z.shiftl 0 2) with 0. rewrite Z.lor_0_r.
  assert (Z.land (uv x) 252 = uv x) as ->.
  { apply Z.bits_inj'. intros i Hi. rewrite Z.land_spec. apply (f_equal (fun z => Z.testbit z i)) in Hx.
    rewrite Z.land_spec, Z.bits_0 in Hx. pose proof (uint_range x) as Hr. change (2 ^ Z.of_N 8) with (2 ^ 8) in Hr.
    destruct (Z_lt_le_dec i 8).
    - destruct (decide (i < 5)) as [|].
      + assert (i = 0 \/ i = 1 \/ i = 2 \/ i = 3 \/ i = 4) as Hc by lia.
        destruct Hc as [-> | [-> | [-> | [-> | ->]]]]; cbn in *; rewrite ?andb_true_r in *; by rewrite ?Hx, ?andb_true_r.
      + assert (i = 5 \/ i = 6 \/ i = 7) as Hc by lia. destruct Hc as [-> | [-> | ->]]; apply andb_true_r.
    - rewrite <- (Z.mod_small (uv x) (2 ^ 8)) by done. by rewrite Z.mod_pow2_bits_high by lia. }
  f_equal; [by apply uint_eq; rewrite uv_of_small by apply uint_range |]. f_equal. by apply uint_eq.
Qed.

(** On such a packet the compiled program is the program. *)
Lemma run_program s f : ok f -> offset_zero (frame f) -> run_frame l3_compiled s f = run_frame l3_program s f.
Proof.
  intros Ho [Hx Hy]. unfold run_frame, l3_compiled. set (b := frame f) in *.
  destruct (decide (34 <= length b)%nat) as [Hl | Hl].
  2:{ unfold l3_program. destruct (extract_ethernet b) as [[eth rest] |] eqn:Ee; [| done].
      destruct (emit_extract_ethernet _ _ _ (h_dst eth) Ee) as (_ & -> & _).
      destruct (extract_ipv4 _) as [[ip pl] |] eqn:Ei; [| done].
      destruct (emit_extract_ipv4 _ _ _ (U8 0) (U16 0) Ei) as (H20 & _). rewrite length_drop in H20. lia. }
  rewrite (program_live s b Hl). destruct (G3.live b); [| done]. destruct (default _ _) as [port dmac | |]; [| done | done].
  destruct (decide (port = PUNT_PORT)); [done |]. f_equal. apply frame_mut_ext. unfold mangle. set (out := octets dmac ++ _).
  assert (byte_at out 20 = byte_at b 20 /\ byte_at out 21 = byte_at b 21) as [E1 E2].
  { unfold out. clear -Hl. do 34 (destruct b as [| ? b]; [cbn in Hl; lia |]). destruct dmac. done. }
  rewrite E1, E2, mangled_zero by done. rewrite <- E1, <- E2.
  assert (22 <= length out)%nat as Hout by (unfold out; rewrite !length_app, length_slice by lia; destruct dmac; cbn; lia).
  clearbody out. clear -Hout. do 22 (destruct out as [| ? out]; [cbn in Hout; lia |]). done.
Qed.

(** A run of an engine whose tables hold what the native router was told. *)
Lemma run_compiled m s f e :
  e_desc e = compiled -> holds_entries (d := compiled) (good := G3.good) (contents := G3.contents) (pipe e) m ->
  same m s -> ok f ->
  ((x4c_run f e).1.2, (x4c_run f e).2) = run_frame l3_compiled s f.
Proof.
  intros Hd [Hg Hr] Hs Ho. pose proof Hs as [S1 _ _ _ S4]. unfold x4c_run, run_frame, l3_compiled. rewrite Hd.
  cbn [d_min_parse compiled L3FWD]. pose proof (length_frame f Ho) as Hl. case_decide as Hshort.
  { unfold l3_program. destruct (extract_ethernet (frame f)) as [[eth rest] |] eqn:Ee; [| done].
    destruct (emit_extract_ethernet _ _ _ (h_dst eth) Ee) as (_ & -> & _).
    destruct (extract_ipv4 _) as [[ip pl] |] eqn:Ei; [| done].
    destruct (emit_extract_ipv4 _ _ _ (U8 0) (U16 0) Ei) as (H20 & _). rewrite length_drop in H20. lia. }
  destruct (pipe e) as [p |] eqn:Ep; [| done]. set (b := frame f) in *.
  assert (holding m p) as Hh by done. rewrite (program_live s b) by lia. rewrite S1.
  cbn [X4c.process_packet G3.l3_P4rs mbind option_bind].
  rewrite (G3.l3_process_spec (U16 0) b p Hg); [| | lia].
  2:{ apply Forall_forall. intros x Hx. destruct (entry_route m s p x Hh Hs Hx) as (q & ? & [Hq _] & -> & _).
      unfold key_sane. cbn. pose proof (uint_range (plen q)). lia. }
  cbn [mbind option_bind]. destruct (G3.live b); [| done].
  pose proof (selected m s p (be_u32 (slice 30 34 b)) Hh Hs) as Hsel. rewrite uv_be_u32 in Hsel by (rewrite length_slice; lia).
  destruct (head _) as [x |]; [| by rewrite Hsel]. destruct Hsel as (q & y & Hm & Ha & Hpd & ->). cbn [default].
  rewrite Ha, Hpd. destruct (S4 _ _ Hm) as [[E (port & dmac & E2 & Hp1 & Hp2)] | [[E E2] | [E E2]]]; rewrite E, E2; [| done | done].
  cbn [act G3.outcome]. rewrite decide_True by done. destruct (forward_params port dmac) as [-> ->].
  cbn [id]. unfold read_outputs.
  rewrite !(decide_False (P := port = PUNT_PORT)), (decide_False (P := port = BROADCAST_PORT)) by done.
  rewrite packet_mangled by (done || (by destruct dmac) || lia). set (out := mangle _). cbn [fst snd]. f_equal.
  assert (length out = len f) as Hout.
  { rewrite <- Hl. unfold out, mangle. rewrite !length_app, length_mangled, length_take, length_drop, !length_app, !length_slice, length_drop by lia.
    destruct dmac. cbn [octets length]. lia. }
  rewrite Hout, Nat.min_id, take_ge by lia. apply frame_mut_ext. rewrite drop_ge by (fold b; lia). apply app_nil_r.
Qed.
End datapath.
End X3.

(** C6: the compiled router, in up4's envelope.  Over any bit vectors and
    runtime with the stated laws, after any sequence of control operations
    (none of which sets a default, names a reserved port or a prefix with host
    bits), every shard does to every frame what the P4 program in the envelope
    does, except that the fragment offset of a forwarded packet comes out
    mangled; on a packet whose offset is zero that is the native router,
    verdict and bytes. *)
Theorem l3_x4c_is_native {BV} `{HB : Bitvec BV} `{HP : !P4rt BV} {bits head_ view off}
    `{!BitvecLaws BV bits head_} `{!P4rtLaws BV bits head_ view off}
    (params : PipelineParams) (es : list XEvent) i e f :
  let d := L3FWD (fun r => Some (G3.new (BV := BV) r)) in
  let env := envelope PL3Fwd in
  let s := told es L3.spec_new in
  Forall plain es -> Forall X3.plain_keys es -> Forall event_ok es -> Z.of_nat (length es) < 2 ^ 64 - 1 -> ok f ->
  (run_events d params es).2 !! i = Some e ->
  let '(_, g, v) := process {| e_envelope := env; e_inner := (run_events d params es).1 |} f
                            {| ee_envelope := env; ee_inner := e |} in
  (g, v) = up4_frame env X3.l3_compiled s f /\
  (X3.offset_zero (frame f) -> (tt, g, v) = process s f tt).
Proof.
  intros d env s Hp Hk He Hn Ho Hi.
  destruct (shards_hold (d := d) params es i e (proj1 (Forall_inv (Forall_inv_tail (shipped_ids _)))) He Hn Hi) as [Hd Hh].
  pose proof (X3.l3_same_told es Hp Hk) as Hs. fold s in Hs. pose proof (X3.run_compiled _ _ f _ Hd Hh Hs Ho) as Hrun.
  assert (let '(_, g, v) := process {| e_envelope := env; e_inner := (run_events d params es).1 |} f
                              {| ee_envelope := env; ee_inner := e |} in (g, v) = up4_frame env X3.l3_compiled s f) as Hgo.
  { cbn [process Enveloped_Engine]. unfold enveloped_process, up4_frame. cbn [ee_envelope e_inner ee_inner].
    destruct (admits _ _); [| done]. rewrite <- Hrun. cbn [process X4c_Engine]. unfold x4c_process.
    destruct (x4c_run _ _) as [[e' g] v]. cbn [fst snd]. by destruct v. }
  destruct (process _ _ _) as [[e' g] v]. split; [done |]. intros Hz.
  rewrite (l3_enveloped s f Ho (X3.same_unreserved _ _ Hs)).
  assert (up4_frame env X3.l3_compiled s f = up4_frame env l3_program s f) as E by (unfold up4_frame; by rewrite X3.run_program).
  rewrite E in Hgo. fold env. by rewrite <- Hgo.
Qed.

(** A control plane with one route, and a frame to it that is, or is not, a
    later fragment. *)
Definition route_events : list XEvent :=
  let net := KeyLpm (ValIpv4 (ip_of [U8 10; U8 0; U8 0; U8 0])) (U8 8) in
  [XSpawn; XAdd "ipv4_lpm" net "forward" [ValU16 (U16 1); ValMac (mac_of (replicate 6 (U8 2)))]].

Definition routed_frame (offset : byte) : FrameCtx := {|
  buf := replicate 12 (U8 0) ++ [U8 8; U8 0] ++
         [U8 69; U8 0; U8 0; U8 20; U8 0; U8 0; U8 0; offset; U8 64; U8 17; U8 0; U8 0] ++
         replicate 4 (U8 192) ++ [U8 10; U8 1; U8 2; U8 3] ++ replicate 26 (U8 0);
  headroom := 0; len := 60; ingress_vport := U16 0; rx_ts_us := U32 0;
|}.

Lemma l3_x4c_is_native_witness :
  let d := L3FWD (fun r => Some (G3.new (BV := BitVec) r)) in
  let env := envelope PL3Fwd in
  let s := told route_events L3.spec_new in
  let f := routed_frame (U8 0) in
  let r := run_events d {| vports := [] |} route_events in
  exists e, r.2 !! 0%nat = Some e /\
    (let '(_, g, v) := process {| e_envelope := env; e_inner := r.1 |} f {| ee_envelope := env; ee_inner := e |} in
     (g, v) = up4_frame env X3.l3_compiled s f /\ (X3.offset_zero (frame f) -> (tt, g, v) = process s f tt)) /\
    X3.offset_zero (frame f) /\ (process s f tt).2 = Forward (U16 1).
Proof.
  intros d env s f r. eexists. split; [reflexivity |]. split; [| split; [split |]; vm_compute; reflexivity].
  apply (l3_x4c_is_native (HP := BitVec_P4rt) (bits := bv_bits) (head_ := bv_head) (view := id) (off := snd) {| vports := [] |} route_events 0).
  - apply Forall_cons_2; [exact I | apply Forall_cons_2; [| by apply Forall_nil_2]]. intros port [= <-].
    split; intros E; apply (f_equal uv) in E; vm_compute in E; done.
  - apply Forall_cons_2; [exact I | apply Forall_cons_2; [| by apply Forall_nil_2]].
    split; [vm_compute; discriminate | apply uint_eq; vm_compute; reflexivity].
  - repeat constructor.
  - cbn [route_events length]. lia.
  - unfold ok. vm_compute. lia.
  - reflexivity.
Defined.

(** A later fragment leaves the compiled router as another one: an offset of
    185 comes out as 740. *)
Lemma x4c_moves_fragments :
  let d := L3FWD (fun r => Some (G3.new (BV := BitVec) r)) in
  let r := run_events d {| vports := [] |} route_events in
  let f := routed_frame (U8 185) in
  let offset f := Z.land (be_val (slice 20 22 (frame f))) 8191 in
  exists e, r.2 !! 0%nat = Some e /\
    (process r.1 f e).2 = Forward (U16 1) /\ offset f = 185 /\ offset (process r.1 f e).1.2 = 740 /\
    offset (process (told route_events L3.spec_new) f tt).1.2 = 185.
Proof. eexists. split; [reflexivity |]. vm_compute. repeat split. Qed.
