(* ===== verification/UbpfTable.v ===== *)
(** * The tables of the uBPF backend (crates/up4-ubpf/src/table.rs)

    Tables on byte images: what the compiled program hands the host is a key
    image, what it gets back is a value image.  A longest-prefix table buckets
    its entries by prefix length and masks little-endian images bit by bit;
    on four-byte windows it is shown to be the native LPM table. *)

From S2P Require Import Prelude Maps Bytes Text Value Shim Table Programs.

Local Open Scope Z_scope.

(** ** Layouts *)

Record Layout := {
  ly_key : nat;
  ly_value : nat;
  action_at : nat;
  params_at : nat;
  match_at : nat;
  match_len : nat;
}.

Definition VALUE_ACTION_AT : nat := 0.
Definition VALUE_PARAMS_AT : nat := 4.
Definition MAX_MATCH_LEN : nat := 64.

Definition next_multiple_of (n m : nat) : nat := ((n + m - 1) / m * m)%nat.

(** [Layout::scalar] and [Layout::explicit] *)
Definition scalar (key params : nat) : Layout := {|
  ly_key := key; ly_value := VALUE_PARAMS_AT + next_multiple_of params 4;
  action_at := VALUE_ACTION_AT; params_at := VALUE_PARAMS_AT; match_at := 0; match_len := key;
|}.

Definition explicit (key value params_at match_at match_len : nat) : Layout := {|
  ly_key := key; ly_value := value; action_at := VALUE_ACTION_AT; params_at := params_at;
  match_at := match_at; match_len := match_len;
|}.

(** [Layout::value] *)
Definition layout_value (l : Layout) (action : u32) (params : bytes) : bytes :=
  let v := copy_at (action_at l) (le_bytes 4 (uv action)) (replicate (ly_value l) (U8 0)) in
  let n := (length params `min` (ly_value l - params_at l))%nat in
  copy_at (params_at l) (take n params) v.

(** ** Masking *)

(** [*b &= !(1u8 << in_byte)], if there is such a byte. *)
Definition clear_bit (key : bytes) (from_lsb : nat) : bytes :=
  let byte := (from_lsb / 8)%nat in
  let in_byte := (from_lsb mod 8)%nat in
  match key !! byte with
  | Some b => <[byte := U8 (Z.land (uv b) (Z.lnot (Z.shiftl 1 (Z.of_nat in_byte))))]> key
  | None => key
  end.

(** [zero_below]: the bits from [keep] on, counted from the most significant
    end of a little-endian image. *)
Definition zero_below (key : bytes) (prefix : byte) : bytes :=
  let total := (length key * 8)%nat in
  let keep := (Z.to_nat (uv prefix) `min` total)%nat in
  foldl (fun key bit => clear_bit key (total - 1 - bit)) key (seq keep (total - keep)).

Definition mask (key : bytes) (prefix : byte) : bytes := zero_below key prefix.

(** [mask_into]: the part of the scratch buffer it returns. *)
Definition mask_into (key : bytes) (prefix : byte) : bytes :=
  let n := (length key `min` MAX_MATCH_LEN)%nat in
  zero_below (take n key) prefix.

(** ** Tables *)

Inductive Match := MExact | MLpm.

#[export] Instance Match_eq_dec : EqDecision Match.
Proof. solve_decision. Defined.

Record Bucket := { b_prefix : byte; b_entries : gmap bytes bytes }.

Record Table := {
  matching : Match;
  layout : Layout;
  buckets : list Bucket;
  t_default : option bytes;
}.

(** [Table::new]; [None] is the failed assertion. *)
Definition table_new (m : Match) (l : Layout) (d : option bytes) : option Table :=
  if decide (match_len l <= MAX_MATCH_LEN)%nat
  then Some {| matching := m; layout := l; buckets := []; t_default := d |}
  else None.

(** [window] *)
Definition window (l : Layout) (key : bytes) : bytes :=
  let fin := ((match_at l + match_len l) `min` length key)%nat in
  default [] (get_range (match_at l) fin key).

(** [canonical] *)
Definition canonical (t : Table) (key : bytes) (prefix : byte) : byte * bytes :=
  let w := window (layout t) key in
  match matching t with
  | MExact => (U8 0, w)
  | MLpm => (prefix, mask w prefix)
  end.

Definition with_buckets (bs : list Bucket) (t : Table) : Table :=
  {| matching := matching t; layout := layout t; buckets := bs; t_default := t_default t |}.

Definition bucket_search (p : byte) (bs : list Bucket) : result nat nat :=
  binary_search_by (fun b => uv p ?= uv (b_prefix b)) bs.

(** [insert]; the index is in range because the bucket was found or made. *)
Definition tbl_insert (key : bytes) (prefix : byte) (value : bytes) (t : Table) : Table :=
  let '(p, k) := canonical t key prefix in
  let '(bs, at_) :=
    match bucket_search p (buckets t) with
    | Ok i => (buckets t, i)
    | Err i => (insert_at i {| b_prefix := p; b_entries := ∅ |} (buckets t), i)
    end in
  match bs !! at_ with
  | Some b => with_buckets (<[at_ := {| b_prefix := b_prefix b; b_entries := <[k := value]> (b_entries b) |}]> bs) t
  | None => t
  end.

(** [remove] *)
Definition tbl_remove (key : bytes) (prefix : byte) (t : Table) : Table * bool :=
  let '(p, k) := canonical t key prefix in
  match bucket_search p (buckets t) with
  | Err _ => (t, false)
  | Ok i =>
      match buckets t !! i with
      | None => (t, false)
      | Some b =>
          let gone := bool_decide (is_Some (b_entries b !! k)) in
          let es := delete k (b_entries b) in
          (with_buckets (if decide (es = ∅) then delete i (buckets t)
                         else <[i := {| b_prefix := b_prefix b; b_entries := es |}]> (buckets t)) t, gone)
      end
  end.

Definition tbl_set_default (value : bytes) (t : Table) : Table :=
  {| matching := matching t; layout := layout t; buckets := buckets t; t_default := Some value |}.

(** The order of [BTreeMap<Vec<u8>, _>]: lexicographic on the bytes. *)
Fixpoint bytes_compare (a b : bytes) : comparison :=
  match a, b with
  | [], [] => Eq
  | [], _ => Lt
  | _, [] => Gt
  | x :: a, y :: b => cmp_then (uv x ?= uv y) (bytes_compare a b)
  end.

Definition tbl_iter (t : Table) : list (byte * bytes * bytes) :=
  buckets t ≫= fun b =>
    (fun e => (b_prefix b, e.1, e.2)) <$>
      sort_by (fun e e' => bytes_compare e.1 e'.1) (map_to_list (b_entries b)).

Definition tbl_len (t : Table) : nat := sum_list_with (fun b => size (b_entries b)) (buckets t).
Definition tbl_is_empty (t : Table) : bool := bool_decide (buckets t = []).

Definition tbl_clear (t : Table) : Table * nat :=
  let n := tbl_len t in (with_buckets [] t, n).

(** [longest_prefix] and [lookup] *)
Definition longest_prefix (key : bytes) (bs : list Bucket) : option bytes :=
  find_map (fun b => b_entries b !! mask_into key (b_prefix b)) bs.

Definition tbl_lookup (key : bytes) (t : Table) : option bytes :=
  let w := window (layout t) key in
  let found := match matching t with
               | MExact => b ← head (buckets t); b_entries b !! w
               | MLpm => longest_prefix w (buckets t)
               end in
  match found with Some v => Some v | None => t_default t end.

(** ** Lemmas: the bits of an image *)

Lemma testbit_byte (b : byte) n : 8 <= n -> Z.testbit (uv b) n = false.
Proof.
  intros H. pose proof (uint_range b). change (Z.of_N 8) with 8 in *.
  destruct (Z.eq_dec (uv b) 0) as [-> |]; [apply Z.testbit_0_l |].
  apply Z.bits_above_log2; [lia |]. apply Z.log2_lt_pow2; [lia |].
  pose proof (Z.pow_le_mono_r 2 8 n). lia.
Qed.

Lemma le_val_cons_testbit b l n :
  0 <= n -> Z.testbit (le_val (b :: l)) n = if n <? 8 then Z.testbit (uv b) n else Z.testbit (le_val l) (n - 8).
Proof.
  intros Hn. cbn [le_val]. pose proof (uint_range b). change (Z.of_N 8) with 8 in *.
  replace (uv b + 256 * le_val l) with (Z.lor (uv b) (Z.shiftl (le_val l) 8)).
  - rewrite Z.lor_spec, Z.shiftl_spec by lia. destruct (Z.ltb_spec n 8).
    + by rewrite (Z.testbit_neg_r _ (n - 8)), orb_false_r by lia.
    + by rewrite testbit_byte by done.
  - rewrite Z.shiftl_mul_pow2 by lia. change (2 ^ 8) with 256. rewrite (Z.mul_comm _ 256).
    symmetry. rewrite <- Z.lxor_lor, <- Z.add_nocarry_lxor; [done | |].
    all: apply Z.bits_inj'; intros i Hi; rewrite Z.land_spec, Z.bits_0;
      rewrite (Z.mul_comm 256); change 256 with (2 ^ 8); rewrite Z.mul_pow2_bits by lia;
      destruct (Z.ltb_spec i 8); [by rewrite (Z.testbit_neg_r _ (i - 8)), andb_false_r by lia
                                 | by rewrite testbit_byte by done].
Qed.

Lemma length_clear_bit key j : length (clear_bit key j) = length key.
Proof. unfold clear_bit. destruct (_ !! _); [by rewrite length_insert | done]. Qed.

Lemma clear_bit_cons b key j :
  clear_bit (b :: key) j =
    if (j <? 8)%nat then U8 (Z.land (uv b) (Z.lnot (Z.shiftl 1 (Z.of_nat j)))) :: key
    else b :: clear_bit key (j - 8).
Proof.
  unfold clear_bit. destruct (Nat.ltb_spec j 8).
  - rewrite Nat.div_small, Nat.mod_small by done. done.
  - assert (exists m, j = (m + 1 * 8)%nat) as [m ->] by (exists (j - 8)%nat; lia).
    rewrite Nat.div_add, Nat.Div0.mod_add, Nat.add_1_r by lia.
    replace (m + 1 * 8 - 8)%nat with m by lia. cbn [lookup list_lookup]. by destruct (key !! _).
Qed.

Lemma clear_bit_testbit key j n :
  0 <= n -> (j < length key * 8)%nat ->
  Z.testbit (le_val (clear_bit key j)) n = Z.testbit (le_val key) n && negb (n =? Z.of_nat j).
Proof.
  revert j n. induction key as [| b key IH]; intros j n Hn Hj; [cbn in Hj; lia |].
  rewrite clear_bit_cons, le_val_cons_testbit by done. destruct (Nat.ltb_spec j 8).
  - rewrite le_val_cons_testbit by done. destruct (Z.ltb_spec n 8).
    + rewrite uv_of, Z.mod_pow2_bits_low by lia. rewrite Z.land_spec, Z.lnot_spec, Z.shiftl_spec by lia.
      f_equal. f_equal. destruct (Z.eqb_spec n (Z.of_nat j)) as [-> |]; [by rewrite Z.sub_diag |].
      destruct (Z.ltb_spec n (Z.of_nat j)); [by rewrite Z.testbit_neg_r by lia |].
      apply (Z.bits_above_log2 1); [lia |]. change (Z.log2 1) with 0. lia.
    + by rewrite (proj2 (Z.eqb_neq _ _)), andb_true_r by lia.
  - rewrite le_val_cons_testbit by done. destruct (Z.ltb_spec n 8).
    + by rewrite (proj2 (Z.eqb_neq _ _)), andb_true_r by lia.
    + cbn in Hj. rewrite IH by lia. f_equal. f_equal. apply eq_true_iff_eq. rewrite !Z.eqb_eq. lia.
Qed.

(** The masking loop after [m] of its steps. *)
Lemma zero_loop_spec key keep m :
  (keep + m <= length key * 8)%nat ->
  let r := foldl (fun k bit => clear_bit k (length key * 8 - 1 - bit)) key (seq keep m) in
  length r = length key /\
  forall n, 0 <= n -> Z.testbit (le_val r) n =
    Z.testbit (le_val key) n &&
    negb ((Z.of_nat (length key * 8 - keep - m) <=? n) && (n <? Z.of_nat (length key * 8 - keep))).
Proof.
  induction m as [| m IH]; intros Hm.
  - split; [done |]. intros n Hn. cbn [seq foldl]. rewrite Nat.sub_0_r.
    destruct (Z.leb_spec (Z.of_nat (length key * 8 - keep)) n); [| by rewrite andb_true_r].
    by rewrite (proj2 (Z.ltb_ge _ _)), andb_true_r by lia.
  - cbn zeta. rewrite seq_S, foldl_app. cbn [foldl]. destruct IH as [Hl Hb]; [lia |].
    rewrite length_clear_bit. split; [done |]. intros n Hn.
    rewrite clear_bit_testbit, Hb by (rewrite ?Hl; lia). rewrite <- andb_assoc. f_equal.
    destruct (Z.leb_spec (Z.of_nat (length key * 8 - keep - m)) n),
      (Z.leb_spec (Z.of_nat (length key * 8 - keep - S m)) n),
      (Z.ltb_spec n (Z.of_nat (length key * 8 - keep))),
      (Z.eqb_spec n (Z.of_nat (length key * 8 - 1 - (keep + m)))); try done; lia.
Qed.

Lemma length_zero_below key p : length (zero_below key p) = length key.
Proof. unfold zero_below. eapply zero_loop_spec. lia. Qed.

Lemma zero_below_testbit key p n :
  0 <= n ->
  Z.testbit (le_val (zero_below key p)) n =
    Z.testbit (le_val key) n && (Z.of_nat (length key * 8) - uv p <=? n).
Proof.
  intros Hn. unfold zero_below. set (keep := (Z.to_nat (uv p) `min` (length key * 8))%nat).
  destruct (zero_loop_spec key keep (length key * 8 - keep)) as [_ Hz]; [lia |].
  rewrite Hz by done. f_equal. pose proof (uint_range p).
  replace (length key * 8 - keep - (length key * 8 - keep))%nat with 0%nat by lia.
  rewrite (proj2 (Z.leb_le _ _)) by lia. cbn [andb].
  destruct (Z.ltb_spec n (Z.of_nat (length key * 8 - keep))),
    (Z.leb_spec (Z.of_nat (length key * 8) - uv p) n); done || lia.
Qed.

(** A prefix as long as the key, or longer, masks nothing. *)
Lemma zero_below_all key p : Z.of_nat (length key * 8) <= uv p -> zero_below key p = key.
Proof.
  intros H. unfold zero_below. replace (Z.to_nat (uv p) `min` (length key * 8))%nat with (length key * 8)%nat by lia.
  by rewrite Nat.sub_diag.
Qed.

Lemma mask_into_mask key p : (length key <= MAX_MATCH_LEN)%nat -> mask_into key p = mask key p.
Proof. intros H. unfold mask_into. rewrite Nat.min_l by done. by rewrite firstn_all. Qed.

(** The image of an address, as [key_image] builds it. *)
Definition addr_image (k : u32) : bytes := le_bytes 4 (uv k).

Lemma le_val_addr_image k : le_val (addr_image k) = uv k.
Proof. unfold addr_image. rewrite le_val_le_bytes. apply Z.mod_small. word_lia. Qed.

Lemma addr_image_inj k1 k2 : addr_image k1 = addr_image k2 -> k1 = k2.
Proof. intros H%(f_equal le_val). rewrite !le_val_addr_image in H. by apply uint_eq. Qed.

Lemma addr_image_of b : length b = 4%nat -> exists k, b = addr_image k.
Proof.
  intros H. exists (U32 (le_val b)). apply le_val_inj; [by rewrite H; unfold addr_image; rewrite length_le_bytes |].
  rewrite le_val_addr_image, uv_of_small; [done |]. pose proof (le_val_bound b) as B. rewrite H in B. word_lia.
Qed.

(** On four bytes, masking the image is masking the address. *)
Lemma mask_addr_image k (p : byte) :
  uv p <= 32 -> mask (addr_image k) p = addr_image (and32 k (mask_of p)).
Proof.
  intros Hp. apply le_val_inj; [by unfold mask, addr_image; rewrite length_zero_below, !length_le_bytes |].
  apply Z.bits_inj'. intros n Hn. unfold mask. rewrite zero_below_testbit, !le_val_addr_image by done.
  unfold addr_image. rewrite length_le_bytes. change (Z.of_nat (4 * 8)) with 32.
  pose proof (uint_range p). rewrite uv_and_mask, Z.shiftl_spec by done.
  destruct (Z.leb_spec (32 - uv p) n).
  - rewrite andb_true_r, Z.shiftr_spec by lia. f_equal. lia.
  - rewrite andb_false_r, Z.testbit_neg_r by lia. done.
Qed.

(** ** The native table, bucket by bucket

    The native LPM table with optional values: what a bucket keyed by
    four-byte images corresponds to. *)

#[export] Instance addr_image_Inj : Inj (=) (=) addr_image := addr_image_inj.

Definition entries_rel (es : gmap bytes bytes) (gs : gmap u32 (option bytes)) : Prop :=
  exists em : gmap u32 bytes, es = kmap addr_image em /\ gs = Some <$> em.

Definition bucket_rel (b : Bucket) (g : Lpm.LpmGroup (option bytes)) : Prop :=
  b_prefix b = Lpm.g_len g /\ uv (Lpm.g_len g) <= 32 /\ Lpm.g_mask g = mask_of (Lpm.g_len g) /\
  entries_rel (b_entries b) (Lpm.g_entries g).

Record table_rel (t : Table) (n : Lpm.LpmTable (option bytes)) : Prop := {
  tr_matching : matching t = MLpm;
  tr_window : match_len (layout t) = 4%nat;
  tr_buckets : Forall2 bucket_rel (buckets t) (Lpm.groups n);
  tr_default : Lpm.default_action n = t_default t;
}.

Lemma entries_rel_lookup es gs k : entries_rel es gs -> gs !! k = Some <$> es !! addr_image k.
Proof. intros (em & -> & ->). by rewrite lookup_fmap, (lookup_kmap addr_image). Qed.

Lemma entries_rel_insert es gs k v :
  entries_rel es gs -> entries_rel (<[addr_image k := v]> es) (<[k := Some v]> gs).
Proof.
  intros (em & -> & ->). exists (<[k := v]> em). by rewrite (kmap_insert addr_image), fmap_insert.
Qed.

Lemma entries_rel_delete es gs k :
  entries_rel es gs -> entries_rel (delete (addr_image k) es) (delete k gs).
Proof.
  intros (em & -> & ->). exists (delete k em). by rewrite (kmap_delete addr_image), fmap_delete.
Qed.

Lemma entries_rel_empty es gs : entries_rel es gs -> es = ∅ <-> gs = ∅.
Proof. intros (em & -> & ->). by rewrite (kmap_empty_iff addr_image), fmap_empty_iff. Qed.

Lemma entries_rel_size es gs : entries_rel es gs -> size es = size gs.
Proof. intros (em & -> & ->). by rewrite (size_kmap addr_image), map_size_fmap. Qed.

(** Bisection only looks at the outcomes of the comparisons. *)
Lemma binary_search_by_rel {A B} (f : A -> comparison) (g : B -> comparison) l k :
  Forall2 (fun x y => f x = g y) l k -> binary_search_by f l = binary_search_by g k.
Proof.
  intros H. pose proof (Forall2_length _ _ _ H) as Hl.
  assert (forall i, cmp_at f l i = cmp_at g k i) as Hc.
  { intros i. unfold cmp_at. pose proof (proj1 (Forall2_lookup _ _ _) H i) as Hi. by inversion Hi. }
  assert (forall n b s, bisect f l n b s = bisect g k n b s) as Hb.
  { induction n as [| n IH]; intros b s; [done |]. cbn [bisect]. rewrite Hc. by destruct (s <=? 1)%nat. }
  destruct l as [| x l], k as [| y k]; try done. unfold binary_search_by. rewrite Hl, Hb, Hc. done.
Qed.

Lemma bucket_search_rel p bs gs :
  Forall2 bucket_rel bs gs -> bucket_search p bs = Lpm.search p gs.
Proof.
  intros H. unfold bucket_search, Lpm.search. apply binary_search_by_rel.
  eapply Forall2_impl; [exact H |]. intros b g (E & _). cbn. by rewrite E.
Qed.

Section native.
Variable (img : Ipv4Addr -> bytes) (l : Layout).
Hypothesis Hlen : match_len l = 4%nat.
Hypothesis Himg : forall a, window l (img a) = addr_image (ip_u32 a).

Lemma canonical_rel t n a (p : byte) :
  table_rel t n -> layout t = l -> uv p <= 32 ->
  canonical t (img a) p = (p, addr_image (base (prefix_of (ip_u32 a) p))).
Proof.
  intros [Hm _ _ _] Hl Hp. unfold canonical. rewrite Hm, Hl, Himg. by rewrite mask_addr_image.
Qed.

(** Storing a value in the bucket that was found or made. *)
Lemma put_rel t n bs gs pos k v :
  table_rel t n -> layout t = l -> Forall2 bucket_rel bs gs ->
  let t' := match bs !! pos with
            | Some b => with_buckets (<[pos := {| b_prefix := b_prefix b;
                          b_entries := <[addr_image k := v]> (b_entries b) |}]> bs) t
            | None => t
            end in
  table_rel t' (match gs !! pos with
                | Some g => ({| Lpm.groups := <[pos := Lpm.Group (Lpm.g_len g) (Lpm.g_mask g)
                                                  (<[k := Some v]> (Lpm.g_entries g))]> gs;
                                Lpm.default_action := Lpm.default_action n |},
                             bool_decide (is_Some (Lpm.g_entries g !! k)))
                | None => (n, false)
                end).1 /\ layout t' = l.
Proof.
  intros Hr Hl Hbg. pose proof Hr as [Hm Hw Hb Hd].
  pose proof (proj1 (Forall2_lookup _ _ _) Hbg pos) as Hi.
  destruct (bs !! pos) as [b |], (gs !! pos) as [g |]; inversion Hi as [x y Hxy |]; subst; [| done].
  split; [| done]. split; cbn; [done | done | | done].
  apply Forall2_insert; [done |]. destruct Hxy as (E1 & E2 & E3 & E4).
  split; [done | split; [done | split; [done |]]]. by apply entries_rel_insert.
Qed.

Lemma insert_rel t n a (p : byte) v :
  table_rel t n -> layout t = l -> uv p <= 32 ->
  table_rel (tbl_insert (img a) p v t) (Lpm.insert (prefix_of (ip_u32 a) p) (Some v) n).1 /\
  layout (tbl_insert (img a) p v t) = l.
Proof.
  intros Hr Hl Hp. pose proof Hr as [Hm Hw Hb Hd]. unfold tbl_insert, Lpm.insert.
  rewrite (canonical_rel t n) by done. cbn [plen prefix_of]. rewrite (bucket_search_rel p _ _ Hb).
  destruct (Lpm.search p (Lpm.groups n)) as [pos | pos]; [apply put_rel; try done |].
  apply put_rel; try done. unfold insert_at. apply Forall2_app; [by apply Forall2_take |].
  constructor; [| by apply Forall2_drop]. split; [done | split; [done | split; [done |]]].
  exists ∅. by rewrite (kmap_empty addr_image), fmap_empty.
Qed.

Lemma remove_rel t n a (p : byte) :
  table_rel t n -> layout t = l -> uv p <= 32 ->
  table_rel (tbl_remove (img a) p t).1 (Lpm.remove (prefix_of (ip_u32 a) p) n).1 /\
  (tbl_remove (img a) p t).2 = (Lpm.remove (prefix_of (ip_u32 a) p) n).2 /\
  layout (tbl_remove (img a) p t).1 = l.
Proof.
  intros Hr Hl Hp. pose proof Hr as [Hm Hw Hb Hd]. unfold tbl_remove, Lpm.remove.
  rewrite (canonical_rel t n) by done. cbn [plen prefix_of]. rewrite (bucket_search_rel p _ _ Hb).
  destruct (Lpm.search p (Lpm.groups n)) as [pos |]; [| done].
  pose proof (proj1 (Forall2_lookup _ _ _) Hb pos) as Hi.
  destruct (buckets t !! pos) as [b |], (Lpm.groups n !! pos) as [g |];
    inversion Hi as [x y Hxy |]; subst; [| done].
  destruct Hxy as (E1 & E2 & E3 & E4). cbn [fst snd base prefix_of].
  pose proof (entries_rel_delete _ _ (and32 (ip_u32 a) (mask_of p)) E4) as Ed.
  pose proof (entries_rel_empty _ _ Ed) as Ee.
  split; [| split; [| done]].
  - split; cbn; [done | done | | done].
    destruct (decide (delete _ (b_entries b) = ∅)) as [D | D], (decide (delete _ (Lpm.g_entries g) = ∅)) as [D' | D'].
    + by apply Forall2_delete.
    + by apply Ee in D.
    + by apply Ee in D'.
    + by apply Forall2_insert.
  - apply bool_decide_ext. rewrite (entries_rel_lookup _ _ (and32 (ip_u32 a) (mask_of p)) E4).
    by rewrite fmap_is_Some.
Qed.

Lemma lookup_rel t n a : table_rel t n -> layout t = l -> tbl_lookup (img a) t = Lpm.apply n a.
Proof.
  intros [Hm Hw Hb Hd] Hl. unfold tbl_lookup, Lpm.apply. rewrite Hm, Hl, Himg, Hd. unfold longest_prefix.
  assert (find_map (fun g => Lpm.g_entries g !! and32 (ip_u32 a) (Lpm.g_mask g)) (Lpm.groups n) =
    Some <$> find_map (fun b => b_entries b !! mask_into (addr_image (ip_u32 a)) (b_prefix b)) (buckets t)) as ->.
  { induction Hb as [| b g bs gs (E1 & E2 & E3 & E4) Hb IH]; [done |]. cbn [find_map].
    rewrite (entries_rel_lookup _ _ _ E4), IH, E3, E1, mask_into_mask, mask_addr_image;
      [| done | unfold addr_image; rewrite length_le_bytes; unfold MAX_MATCH_LEN; lia].
    by destruct (b_entries b !! _). }
  by destruct (find_map _ (buckets t)).
Qed.

Lemma len_rel t n : table_rel t n -> tbl_len t = Lpm.len n.
Proof.
  intros [_ _ Hb _]. unfold tbl_len, Lpm.len. induction Hb as [| b g bs gs (_ & _ & _ & E) Hb IH]; [done |].
  cbn [sum_list_with]. by rewrite (entries_rel_size _ _ E), IH.
Qed.
End native.

(** ** Exact tables

    At most one bucket, at prefix 0, and never an empty one: a finite map from
    windows. *)

Definition exact_wf (t : Table) : Prop :=
  matching t = MExact /\
  match buckets t with
  | [] => True
  | [b] => b_prefix b = U8 0 /\ b_entries b <> ∅
  | _ => False
  end.

Definition exact_map (t : Table) : gmap bytes bytes :=
  match buckets t with [] => ∅ | b :: _ => b_entries b end.

Lemma bucket_search_single b : b_prefix b = U8 0 -> bucket_search (U8 0) [b] = Ok 0%nat.
Proof.
  intros H. unfold bucket_search, binary_search_by, cmp_at. cbn [length bisect lookup list_lookup Nat.leb].
  by rewrite H, Z.compare_refl.
Qed.

Lemma exact_insert key p v t :
  exact_wf t -> exact_wf (tbl_insert key p v t) /\
  exact_map (tbl_insert key p v t) = <[window (layout t) key := v]> (exact_map t) /\
  layout (tbl_insert key p v t) = layout t /\ t_default (tbl_insert key p v t) = t_default t.
Proof.
  unfold exact_wf, exact_map, tbl_insert, canonical. intros [Hm Hb]. rewrite Hm.
  destruct (buckets t) as [| b [| ? ?]] eqn:E; [| | done].
  - change (bucket_search (U8 0) []) with (Err (A := nat) 0%nat). cbn.
    split; [split; [done | split; [done | apply insert_non_empty]] | done].
  - destruct Hb as [Hp Hne]. rewrite bucket_search_single by done. cbn.
    split; [split; [done | split; [done | apply insert_non_empty]] | done].
Qed.

Lemma exact_remove key p t :
  exact_wf t -> exact_wf (tbl_remove key p t).1 /\
  exact_map (tbl_remove key p t).1 = delete (window (layout t) key) (exact_map t) /\
  (tbl_remove key p t).2 = bool_decide (is_Some (exact_map t !! window (layout t) key)) /\
  layout (tbl_remove key p t).1 = layout t /\ t_default (tbl_remove key p t).1 = t_default t.
Proof.
  unfold exact_wf, exact_map, tbl_remove, canonical. intros [Hm Hb]. rewrite Hm.
  destruct (buckets t) as [| b [| ? ?]] eqn:E; [| | done].
  - change (bucket_search (U8 0) []) with (Err (A := nat) 0%nat). cbn. rewrite E, Hm.
    by rewrite delete_empty, lookup_empty.
  - destruct Hb as [Hp Hne]. rewrite bucket_search_single by done. cbn. case_decide as D; cbn; [by rewrite D |]. done.
Qed.

Lemma exact_clear t :
  exact_wf t -> exact_wf (tbl_clear t).1 /\ exact_map (tbl_clear t).1 = ∅ /\
  (tbl_clear t).2 = size (exact_map t) /\
  layout (tbl_clear t).1 = layout t /\ t_default (tbl_clear t).1 = t_default t.
Proof.
  unfold exact_wf, exact_map, tbl_clear, tbl_len. intros [Hm Hb].
  split; [done | split; [done | split; [| done]]].
  destruct (buckets t) as [| b [| ? ?]]; cbn [sum_list_with]; [by rewrite map_size_empty | by rewrite Nat.add_0_r | done].
Qed.

Lemma exact_lookup key t :
  exact_wf t -> tbl_lookup key t =
    match exact_map t !! window (layout t) key with Some v => Some v | None => t_default t end.
Proof.
  unfold exact_wf, exact_map, tbl_lookup. intros [-> _]. by destruct (buckets t).
Qed.

(** ** Properties *)

(** The operations, on addresses. *)
Inductive UOp :=
  | UInsert (addr : Ipv4Addr) (len : byte) (value : bytes)
  | URemove (addr : Ipv4Addr) (len : byte)
  | USetDefault (value : bytes)
  | UClear
  | ULookup (addr : Ipv4Addr)
  | ULen.

Inductive UReply := RDone | RFlag (b : bool) | RCount (n : nat) | RValue (v : option bytes).

Definition op_in_range (o : UOp) : Prop :=
  match o with UInsert _ p _ | URemove _ p => uv p <= 32 | _ => True end.

Definition ub_step (img : Ipv4Addr -> bytes) (o : UOp) (t : Table) : Table * UReply :=
  match o with
  | UInsert a p v => (tbl_insert (img a) p v t, RDone)
  | URemove a p => let '(t, b) := tbl_remove (img a) p t in (t, RFlag b)
  | USetDefault v => (tbl_set_default v t, RDone)
  | UClear => let '(t, n) := tbl_clear t in (t, RCount n)
  | ULookup a => (t, RValue (tbl_lookup (img a) t))
  | ULen => (t, RCount (tbl_len t))
  end.

Definition native_step (o : UOp) (n : Lpm.LpmTable (option bytes)) : Lpm.LpmTable (option bytes) * UReply :=
  match o with
  | UInsert a p v => match prefix_new a p with Some q => ((Lpm.insert q (Some v) n).1, RDone) | None => (n, RDone) end
  | URemove a p => match prefix_new a p with
                   | Some q => let '(n, b) := Lpm.remove q n in (n, RFlag b)
                   | None => (n, RFlag false)
                   end
  | USetDefault v => (Lpm.set_default (Some v) n, RDone)
  | UClear => let '(n, c) := Lpm.clear n in (n, RCount c)
  | ULookup a => (n, RValue (Lpm.apply n a))
  | ULen => (n, RCount (Lpm.len n))
  end.

Fixpoint run_ops {St} (f : UOp -> St -> St * UReply) (ops : list UOp) (s : St) : list UReply :=
  match ops with
  | [] => []
  | o :: ops => let '(s, r) := f o s in r :: run_ops f ops s
  end.

(** The longest-prefix table of this backend, which buckets byte images and
    masks them bit by bit, is the native one.  On a table whose match window
    is a little-endian IPv4 address, any sequence of inserts, removals,
    default changes, clears, lookups and counts with prefix lengths up to 32
    gets the same replies from both. *)
Theorem ubpf_lpm_is_native (img : Ipv4Addr -> bytes) (l : Layout) (d : option bytes) (ops : list UOp) :
  match_len l = 4%nat -> (forall a, window l (img a) = addr_image (ip_u32 a)) ->
  Forall op_in_range ops ->
  exists t, table_new MLpm l d = Some t /\
    run_ops (ub_step img) ops t = run_ops native_step ops (Lpm.new d).
Proof.
  intros Hlen Himg Hops. unfold table_new. rewrite Hlen, decide_True by (unfold MAX_MATCH_LEN; lia).
  eexists. split; [done |].
  assert (forall t n, table_rel t n -> layout t = l ->
    run_ops (ub_step img) ops t = run_ops native_step ops n) as H; [| by apply H].
  induction Hops as [| o ops Ho Hops IH]; intros t n Hr Hl; [done |]. cbn [run_ops].
  destruct o as [a p v | a p | v | | a |]; cbn [ub_step native_step op_in_range] in *.
  - rewrite (proj2 (prefix_new_Some a p _)) by done. f_equal.
    destruct (insert_rel img l Hlen Himg t n a p v Hr Hl Ho). by apply IH.
  - rewrite (proj2 (prefix_new_Some a p _)) by done.
    destruct (remove_rel img l Hlen Himg t n a p Hr Hl Ho) as (H1 & H2 & H3).
    destruct (tbl_remove _ _ _) as [t' b], (Lpm.remove _ _) as [n' b']. cbn in *. subst b'. f_equal. by apply IH.
  - f_equal. destruct Hr as [R1 R2 R3 R4]. by apply IH.
  - unfold tbl_clear, Lpm.clear. rewrite (len_rel t n Hr). f_equal. destruct Hr as [R1 R2 R3 R4].
    apply IH; [| done]. split; cbn; done.
  - rewrite (lookup_rel img l Hlen Himg t n a Hr Hl). f_equal. by apply IH.
  - rewrite (len_rel t n Hr). f_equal. by apply IH.
Qed.

(** l3fwd's layout, with the image its key builder makes. *)
Lemma ubpf_lpm_is_native_witness :
  let img a := copy_at 4 (addr_image (ip_u32 a)) (replicate 8 (U8 0)) in
  let net := Ipv4 (U8 10) (U8 1) (U8 0) (U8 0) in
  let ops := [UInsert net (U8 16) [U8 7]; ULookup (Ipv4 (U8 10) (U8 1) (U8 2) (U8 3)); URemove net (U8 16); ULen] in
  exists t, table_new MLpm (explicit 8 24 8 4 4) None = Some t /\
    run_ops (ub_step img) ops t = run_ops native_step ops (Lpm.new None).
Proof.
  intros img net ops. apply ubpf_lpm_is_native.
  - reflexivity.
  - intros a. unfold img, window, get_range. destruct (addr_image _) as [| a0 [| a1 [| a2 [| a3 [| ]]]]] eqn:E;
      apply (f_equal length) in E as El; unfold addr_image in El; rewrite length_le_bytes in El; try done.
  - repeat constructor; vm_compute; discriminate.
Defined.
