(* ===== verification/Objects.v ===== *)
(** * The committed BPF objects (crates/up4-ubpf/src/generated/*.o)

    The two object files the uBPF backend includes, byte for byte. *)

From S2P Require Import Prelude Bytes.

Local Open Scope Z_scope.

Definition l2fwd_o : bytes := map U8 [
  127; 69; 76; 70; 2; 1; 1; 0; 0; 0; 0; 0; 0; 0; 0; 0; 1; 0; 247; 0; 1; 0; 0; 0; 0; 0; 0; 0; 0; 0; 0; 0; 0; 0; 0; 0;
  0; 0; 0; 0; 24; 4; 0; 0; 0; 0; 0; 0; 0; 0; 0; 0; 64; 0; 0; 0; 0; 0; 64; 0; 7; 0; 1; 0; 191; 39; 0; 0; 0; 0; 0; 0;
  191; 22; 0; 0; 0; 0; 0; 0; 133; 0; 0; 0; 9; 0; 0; 0; 191; 1; 0; 0; 0; 0; 0; 0; 97; 114; 4; 0; 0; 0; 0; 0; 183; 3; 0;
  0; 0; 0; 0; 0; 99; 58; 252; 255; 0; 0; 0; 0; 183; 0; 0; 0; 1; 0; 0; 0; 183; 3; 0; 0; 14; 0; 0; 0; 45; 35; 75; 0; 0;
  0; 0; 0; 121; 25; 6; 0; 0; 0; 0; 0; 121; 24; 0; 0; 0; 0; 0; 0; 220; 8; 0; 0; 64; 0; 0; 0; 119; 8; 0; 0; 16; 0; 0; 0;
  123; 138; 240; 255; 0; 0; 0; 0; 191; 162; 0; 0; 0; 0; 0; 0; 7; 2; 0; 0; 240; 255; 255; 255; 24; 1; 0; 0; 0; 0; 0; 0;
  0; 0; 0; 0; 0; 0; 0; 0; 133; 0; 0; 0; 1; 0; 0; 0; 85; 0; 6; 0; 0; 0; 0; 0; 191; 162; 0; 0; 0; 0; 0; 0; 7; 2; 0; 0;
  252; 255; 255; 255; 24; 1; 0; 0; 0; 0; 0; 0; 0; 0; 0; 0; 0; 0; 0; 0; 133; 0; 0; 0; 1; 0; 0; 0; 21; 0; 57; 0; 0; 0;
  0; 0; 97; 1; 0; 0; 0; 0; 0; 0; 183; 2; 0; 0; 1; 0; 0; 0; 21; 1; 6; 0; 2; 0; 0; 0; 183; 2; 0; 0; 254; 255; 0; 0; 21;
  1; 2; 0; 1; 0; 0; 0; 85; 1; 51; 0; 0; 0; 0; 0; 105; 2; 4; 0; 0; 0; 0; 0; 99; 39; 12; 0; 0; 0; 0; 0; 183; 2; 0; 0; 0;
  0; 0; 0; 191; 151; 0; 0; 0; 0; 0; 0; 119; 7; 0; 0; 48; 0; 0; 0; 191; 97; 0; 0; 0; 0; 0; 0; 191; 38; 0; 0; 0; 0; 0;
  0; 183; 2; 0; 0; 0; 0; 0; 0; 133; 0; 0; 0; 8; 0; 0; 0; 191; 1; 0; 0; 0; 0; 0; 0; 183; 0; 0; 0; 1; 0; 0; 0; 191; 146;
  0; 0; 0; 0; 0; 0; 119; 2; 0; 0; 56; 0; 0; 0; 115; 33; 13; 0; 0; 0; 0; 0; 115; 113; 12; 0; 0; 0; 0; 0; 191; 146; 0;
  0; 0; 0; 0; 0; 220; 2; 0; 0; 64; 0; 0; 0; 191; 35; 0; 0; 0; 0; 0; 0; 119; 3; 0; 0; 16; 0; 0; 0; 115; 49; 11; 0; 0;
  0; 0; 0; 191; 35; 0; 0; 0; 0; 0; 0; 119; 3; 0; 0; 24; 0; 0; 0; 115; 49; 10; 0; 0; 0; 0; 0; 191; 147; 0; 0; 0; 0; 0;
  0; 220; 3; 0; 0; 32; 0; 0; 0; 115; 49; 9; 0; 0; 0; 0; 0; 191; 35; 0; 0; 0; 0; 0; 0; 119; 3; 0; 0; 40; 0; 0; 0; 115;
  49; 8; 0; 0; 0; 0; 0; 220; 9; 0; 0; 16; 0; 0; 0; 115; 145; 7; 0; 0; 0; 0; 0; 119; 2; 0; 0; 56; 0; 0; 0; 115; 33; 6;
  0; 0; 0; 0; 0; 191; 130; 0; 0; 0; 0; 0; 0; 119; 2; 0; 0; 8; 0; 0; 0; 115; 33; 4; 0; 0; 0; 0; 0; 191; 130; 0; 0; 0;
  0; 0; 0; 119; 2; 0; 0; 16; 0; 0; 0; 115; 33; 3; 0; 0; 0; 0; 0; 191; 130; 0; 0; 0; 0; 0; 0; 119; 2; 0; 0; 24; 0; 0;
  0; 115; 33; 2; 0; 0; 0; 0; 0; 191; 130; 0; 0; 0; 0; 0; 0; 119; 2; 0; 0; 32; 0; 0; 0; 115; 33; 1; 0; 0; 0; 0; 0; 115;
  129; 5; 0; 0; 0; 0; 0; 119; 8; 0; 0; 40; 0; 0; 0; 115; 129; 0; 0; 0; 0; 0; 0; 21; 6; 3; 0; 0; 0; 0; 0; 183; 0; 0; 0;
  0; 0; 0; 0; 5; 0; 1; 0; 0; 0; 0; 0; 183; 0; 0; 0; 1; 0; 0; 0; 149; 0; 0; 0; 0; 0; 0; 0; 4; 0; 0; 0; 8; 0; 0; 0; 8;
  0; 0; 0; 0; 4; 0; 0; 0; 0; 0; 0; 1; 0; 0; 0; 4; 0; 0; 0; 8; 0; 0; 0; 1; 0; 0; 0; 0; 0; 0; 0; 0; 0; 0; 0; 0; 0; 0; 0;
  0; 0; 0; 0; 0; 0; 0; 0; 0; 0; 0; 0; 0; 0; 0; 0; 71; 0; 0; 0; 4; 0; 241; 255; 0; 0; 0; 0; 0; 0; 0; 0; 0; 0; 0; 0; 0;
  0; 0; 0; 1; 0; 0; 0; 18; 0; 2; 0; 0; 0; 0; 0; 0; 0; 0; 0; 176; 2; 0; 0; 0; 0; 0; 0; 17; 0; 0; 0; 17; 0; 4; 0; 0; 0;
  0; 0; 0; 0; 0; 0; 20; 0; 0; 0; 0; 0; 0; 0; 30; 0; 0; 0; 17; 0; 4; 0; 20; 0; 0; 0; 0; 0; 0; 0; 20; 0; 0; 0; 0; 0; 0;
  0; 136; 0; 0; 0; 0; 0; 0; 0; 1; 0; 0; 0; 3; 0; 0; 0; 184; 0; 0; 0; 0; 0; 0; 0; 1; 0; 0; 0; 4; 0; 0; 0; 3; 4; 0; 101;
  110; 116; 114; 121; 0; 46; 114; 101; 108; 46; 116; 101; 120; 116; 0; 112; 105; 112; 101; 95; 109; 97; 99; 95; 100;
  115; 116; 0; 112; 105; 112; 101; 95; 109; 97; 99; 95; 100; 115; 116; 95; 100; 101; 102; 97; 117; 108; 116; 65; 99;
  116; 105; 111; 110; 0; 46; 108; 108; 118; 109; 95; 97; 100; 100; 114; 115; 105; 103; 0; 108; 50; 102; 119; 100; 46;
  99; 0; 46; 115; 116; 114; 116; 97; 98; 0; 46; 115; 121; 109; 116; 97; 98; 0; 46; 100; 97; 116; 97; 0; 0; 0; 0; 0; 0;
  0; 0; 0; 0; 0; 0; 0; 0; 0; 0; 0; 0; 0; 0; 0; 0; 0; 0; 0; 0; 0; 0; 0; 0; 0; 0; 0; 0; 0; 0; 0; 0; 0; 0; 0; 0; 0; 0; 0;
  0; 0; 0; 0; 0; 0; 0; 0; 0; 0; 0; 0; 0; 0; 0; 0; 0; 0; 0; 0; 0; 79; 0; 0; 0; 3; 0; 0; 0; 0; 0; 0; 0; 0; 0; 0; 0; 0;
  0; 0; 0; 0; 0; 0; 0; 178; 3; 0; 0; 0; 0; 0; 0; 101; 0; 0; 0; 0; 0; 0; 0; 0; 0; 0; 0; 0; 0; 0; 0; 1; 0; 0; 0; 0; 0;
  0; 0; 0; 0; 0; 0; 0; 0; 0; 0; 11; 0; 0; 0; 1; 0; 0; 0; 6; 0; 0; 0; 0; 0; 0; 0; 0; 0; 0; 0; 0; 0; 0; 0; 64; 0; 0; 0;
  0; 0; 0; 0; 176; 2; 0; 0; 0; 0; 0; 0; 0; 0; 0; 0; 0; 0; 0; 0; 8; 0; 0; 0; 0; 0; 0; 0; 0; 0; 0; 0; 0; 0; 0; 0; 7; 0;
  0; 0; 9; 0; 0; 0; 64; 0; 0; 0; 0; 0; 0; 0; 0; 0; 0; 0; 0; 0; 0; 0; 144; 3; 0; 0; 0; 0; 0; 0; 32; 0; 0; 0; 0; 0; 0;
  0; 6; 0; 0; 0; 2; 0; 0; 0; 8; 0; 0; 0; 0; 0; 0; 0; 16; 0; 0; 0; 0; 0; 0; 0; 95; 0; 0; 0; 1; 0; 0; 0; 3; 0; 0; 0; 0;
  0; 0; 0; 0; 0; 0; 0; 0; 0; 0; 0; 240; 2; 0; 0; 0; 0; 0; 0; 40; 0; 0; 0; 0; 0; 0; 0; 0; 0; 0; 0; 0; 0; 0; 0; 4; 0; 0;
  0; 0; 0; 0; 0; 0; 0; 0; 0; 0; 0; 0; 0; 57; 0; 0; 0; 3; 76; 255; 111; 0; 0; 0; 128; 0; 0; 0; 0; 0; 0; 0; 0; 0; 0; 0;
  0; 176; 3; 0; 0; 0; 0; 0; 0; 2; 0; 0; 0; 0; 0; 0; 0; 6; 0; 0; 0; 0; 0; 0; 0; 1; 0; 0; 0; 0; 0; 0; 0; 0; 0; 0; 0; 0;
  0; 0; 0; 87; 0; 0; 0; 2; 0; 0; 0; 0; 0; 0; 0; 0; 0; 0; 0; 0; 0; 0; 0; 0; 0; 0; 0; 24; 3; 0; 0; 0; 0; 0; 0; 120; 0;
  0; 0; 0; 0; 0; 0; 1; 0; 0; 0; 2; 0; 0; 0; 8; 0; 0; 0; 0; 0; 0; 0; 24; 0; 0; 0; 0; 0; 0; 0].

Definition l3fwd_o : bytes := map U8 [
  127; 69; 76; 70; 2; 1; 1; 0; 0; 0; 0; 0; 0; 0; 0; 0; 1; 0; 247; 0; 1; 0; 0; 0; 0; 0; 0; 0; 0; 0; 0; 0; 0; 0; 0; 0;
  0; 0; 0; 0; 152; 8; 0; 0; 0; 0; 0; 0; 0; 0; 0; 0; 64; 0; 0; 0; 0; 0; 64; 0; 7; 0; 1; 0; 191; 39; 0; 0; 0; 0; 0; 0;
  191; 22; 0; 0; 0; 0; 0; 0; 133; 0; 0; 0; 9; 0; 0; 0; 97; 114; 4; 0; 0; 0; 0; 0; 183; 1; 0; 0; 0; 0; 0; 0; 99; 26;
  252; 255; 0; 0; 0; 0; 183; 1; 0; 0; 1; 0; 0; 0; 183; 3; 0; 0; 14; 0; 0; 0; 45; 35; 218; 0; 0; 0; 0; 0; 183; 3; 0; 0;
  34; 0; 0; 0; 45; 35; 216; 0; 0; 0; 0; 0; 121; 4; 6; 0; 0; 0; 0; 0; 24; 2; 0; 0; 0; 0; 0; 0; 0; 0; 0; 0; 0; 0; 255;
  255; 191; 67; 0; 0; 0; 0; 0; 0; 95; 35; 0; 0; 0; 0; 0; 0; 24; 2; 0; 0; 0; 0; 0; 0; 0; 0; 0; 0; 0; 0; 8; 0; 93; 35;
  208; 0; 0; 0; 0; 0; 123; 106; 136; 255; 0; 0; 0; 0; 123; 74; 168; 255; 0; 0; 0; 0; 121; 2; 0; 0; 0; 0; 0; 0; 191;
  33; 0; 0; 0; 0; 0; 0; 220; 1; 0; 0; 16; 0; 0; 0; 123; 26; 224; 255; 0; 0; 0; 0; 191; 33; 0; 0; 0; 0; 0; 0; 220; 1;
  0; 0; 32; 0; 0; 0; 123; 26; 208; 255; 0; 0; 0; 0; 220; 2; 0; 0; 64; 0; 0; 0; 191; 33; 0; 0; 0; 0; 0; 0; 119; 1; 0;
  0; 56; 0; 0; 0; 123; 26; 216; 255; 0; 0; 0; 0; 191; 33; 0; 0; 0; 0; 0; 0; 119; 1; 0; 0; 40; 0; 0; 0; 123; 26; 200;
  255; 0; 0; 0; 0; 191; 33; 0; 0; 0; 0; 0; 0; 119; 1; 0; 0; 24; 0; 0; 0; 123; 26; 192; 255; 0; 0; 0; 0; 119; 2; 0; 0;
  16; 0; 0; 0; 123; 42; 184; 255; 0; 0; 0; 0; 113; 1; 23; 0; 0; 0; 0; 0; 123; 26; 120; 255; 0; 0; 0; 0; 105; 1; 18; 0;
  0; 0; 0; 0; 123; 26; 128; 255; 0; 0; 0; 0; 105; 1; 16; 0; 0; 0; 0; 0; 123; 26; 144; 255; 0; 0; 0; 0; 113; 1; 15; 0;
  0; 0; 0; 0; 123; 26; 152; 255; 0; 0; 0; 0; 113; 1; 14; 0; 0; 0; 0; 0; 123; 26; 160; 255; 0; 0; 0; 0; 97; 2; 30; 0;
  0; 0; 0; 0; 220; 2; 0; 0; 32; 0; 0; 0; 97; 1; 26; 0; 0; 0; 0; 0; 123; 26; 112; 255; 0; 0; 0; 0; 105; 6; 24; 0; 0; 0;
  0; 0; 191; 97; 0; 0; 0; 0; 0; 0; 220; 1; 0; 0; 16; 0; 0; 0; 123; 26; 176; 255; 0; 0; 0; 0; 113; 1; 20; 0; 0; 0; 0;
  0; 123; 26; 232; 255; 0; 0; 0; 0; 220; 6; 0; 0; 64; 0; 0; 0; 119; 6; 0; 0; 56; 0; 0; 0; 105; 9; 20; 0; 0; 0; 0; 0;
  113; 8; 22; 0; 0; 0; 0; 0; 183; 3; 0; 0; 0; 0; 0; 0; 183; 1; 0; 0; 1; 0; 0; 0; 21; 8; 48; 0; 0; 0; 0; 0; 183; 1; 0;
  0; 0; 0; 0; 0; 123; 26; 240; 255; 0; 0; 0; 0; 123; 42; 104; 255; 0; 0; 0; 0; 99; 42; 244; 255; 0; 0; 0; 0; 191; 162;
  0; 0; 0; 0; 0; 0; 7; 2; 0; 0; 240; 255; 255; 255; 24; 1; 0; 0; 0; 0; 0; 0; 0; 0; 0; 0; 0; 0; 0; 0; 133; 0; 0; 0; 1;
  0; 0; 0; 85; 0; 6; 0; 0; 0; 0; 0; 191; 162; 0; 0; 0; 0; 0; 0; 7; 2; 0; 0; 252; 255; 255; 255; 24; 1; 0; 0; 0; 0; 0;
  0; 0; 0; 0; 0; 0; 0; 0; 0; 133; 0; 0; 0; 1; 0; 0; 0; 21; 0; 143; 0; 0; 0; 0; 0; 183; 1; 0; 0; 1; 0; 0; 0; 97; 2; 0;
  0; 0; 0; 0; 0; 21; 2; 27; 0; 2; 0; 0; 0; 183; 1; 0; 0; 255; 255; 0; 0; 21; 2; 23; 0; 1; 0; 0; 0; 85; 2; 137; 0; 0;
  0; 0; 0; 183; 1; 0; 0; 0; 0; 0; 0; 123; 26; 176; 255; 0; 0; 0; 0; 105; 1; 8; 0; 0; 0; 0; 0; 7; 8; 0; 0; 255; 255;
  255; 255; 121; 3; 16; 0; 0; 0; 0; 0; 191; 50; 0; 0; 0; 0; 0; 0; 119; 2; 0; 0; 40; 0; 0; 0; 123; 42; 216; 255; 0; 0;
  0; 0; 191; 50; 0; 0; 0; 0; 0; 0; 119; 2; 0; 0; 32; 0; 0; 0; 123; 42; 224; 255; 0; 0; 0; 0; 191; 50; 0; 0; 0; 0; 0;
  0; 119; 2; 0; 0; 24; 0; 0; 0; 123; 42; 200; 255; 0; 0; 0; 0; 191; 50; 0; 0; 0; 0; 0; 0; 119; 2; 0; 0; 16; 0; 0; 0;
  123; 42; 208; 255; 0; 0; 0; 0; 123; 58; 184; 255; 0; 0; 0; 0; 191; 50; 0; 0; 0; 0; 0; 0; 119; 2; 0; 0; 8; 0; 0; 0;
  123; 42; 192; 255; 0; 0; 0; 0; 183; 6; 0; 0; 0; 0; 0; 0; 99; 23; 12; 0; 0; 0; 0; 0; 183; 1; 0; 0; 0; 0; 0; 0; 191;
  131; 0; 0; 0; 0; 0; 0; 121; 162; 104; 255; 0; 0; 0; 0; 123; 58; 96; 255; 0; 0; 0; 0; 123; 26; 104; 255; 0; 0; 0; 0;
  121; 167; 112; 255; 0; 0; 0; 0; 220; 7; 0; 0; 32; 0; 0; 0; 121; 163; 232; 255; 0; 0; 0; 0; 87; 3; 0; 0; 224; 255;
  255; 255; 123; 58; 232; 255; 0; 0; 0; 0; 87; 9; 0; 0; 31; 255; 0; 0; 220; 9; 0; 0; 16; 0; 0; 0; 121; 161; 136; 255;
  0; 0; 0; 0; 191; 40; 0; 0; 0; 0; 0; 0; 183; 2; 0; 0; 0; 0; 0; 0; 133; 0; 0; 0; 8; 0; 0; 0; 103; 9; 0; 0; 3; 0; 0; 0;
  220; 9; 0; 0; 64; 0; 0; 0; 191; 146; 0; 0; 0; 0; 0; 0; 119; 2; 0; 0; 59; 0; 0; 0; 191; 145; 0; 0; 0; 0; 0; 0; 119;
  1; 0; 0; 43; 0; 0; 0; 79; 33; 0; 0; 0; 0; 0; 0; 121; 162; 176; 255; 0; 0; 0; 0; 87; 2; 0; 0; 255; 0; 0; 0; 103; 6;
  0; 0; 8; 0; 0; 0; 79; 38; 0; 0; 0; 0; 0; 0; 191; 130; 0; 0; 0; 0; 0; 0; 119; 2; 0; 0; 8; 0; 0; 0; 115; 32; 32; 0; 0;
  0; 0; 0; 191; 130; 0; 0; 0; 0; 0; 0; 119; 2; 0; 0; 16; 0; 0; 0; 115; 32; 31; 0; 0; 0; 0; 0; 115; 128; 33; 0; 0; 0;
  0; 0; 119; 8; 0; 0; 24; 0; 0; 0; 115; 128; 30; 0; 0; 0; 0; 0; 191; 114; 0; 0; 0; 0; 0; 0; 119; 2; 0; 0; 8; 0; 0; 0;
  115; 32; 28; 0; 0; 0; 0; 0; 191; 114; 0; 0; 0; 0; 0; 0; 119; 2; 0; 0; 16; 0; 0; 0; 115; 32; 27; 0; 0; 0; 0; 0; 115;
  112; 29; 0; 0; 0; 0; 0; 119; 7; 0; 0; 24; 0; 0; 0; 115; 112; 26; 0; 0; 0; 0; 0; 121; 162; 120; 255; 0; 0; 0; 0; 115;
  32; 23; 0; 0; 0; 0; 0; 121; 162; 96; 255; 0; 0; 0; 0; 115; 32; 22; 0; 0; 0; 0; 0; 121; 163; 128; 255; 0; 0; 0; 0;
  191; 50; 0; 0; 0; 0; 0; 0; 119; 2; 0; 0; 8; 0; 0; 0; 115; 32; 19; 0; 0; 0; 0; 0; 115; 48; 18; 0; 0; 0; 0; 0; 121;
  163; 144; 255; 0; 0; 0; 0; 191; 50; 0; 0; 0; 0; 0; 0; 119; 2; 0; 0; 8; 0; 0; 0; 115; 32; 17; 0; 0; 0; 0; 0; 115; 48;
  16; 0; 0; 0; 0; 0; 121; 162; 152; 255; 0; 0; 0; 0; 115; 32; 15; 0; 0; 0; 0; 0; 121; 162; 160; 255; 0; 0; 0; 0; 115;
  32; 14; 0; 0; 0; 0; 0; 183; 2; 0; 0; 0; 0; 0; 0; 115; 32; 13; 0; 0; 0; 0; 0; 183; 2; 0; 0; 8; 0; 0; 0; 115; 32; 12;
  0; 0; 0; 0; 0; 121; 163; 168; 255; 0; 0; 0; 0; 191; 50; 0; 0; 0; 0; 0; 0; 220; 2; 0; 0; 32; 0; 0; 0; 115; 32; 9; 0;
  0; 0; 0; 0; 191; 50; 0; 0; 0; 0; 0; 0; 220; 2; 0; 0; 16; 0; 0; 0; 115; 32; 7; 0; 0; 0; 0; 0; 121; 162; 184; 255; 0;
  0; 0; 0; 115; 32; 5; 0; 0; 0; 0; 0; 121; 162; 192; 255; 0; 0; 0; 0; 115; 32; 4; 0; 0; 0; 0; 0; 121; 162; 208; 255;
  0; 0; 0; 0; 115; 32; 3; 0; 0; 0; 0; 0; 121; 162; 200; 255; 0; 0; 0; 0; 115; 32; 2; 0; 0; 0; 0; 0; 121; 162; 224;
  255; 0; 0; 0; 0; 115; 32; 1; 0; 0; 0; 0; 0; 121; 162; 216; 255; 0; 0; 0; 0; 115; 32; 0; 0; 0; 0; 0; 0; 220; 3; 0; 0;
  64; 0; 0; 0; 191; 50; 0; 0; 0; 0; 0; 0; 119; 2; 0; 0; 16; 0; 0; 0; 115; 32; 11; 0; 0; 0; 0; 0; 191; 50; 0; 0; 0; 0;
  0; 0; 119; 2; 0; 0; 24; 0; 0; 0; 115; 32; 10; 0; 0; 0; 0; 0; 191; 50; 0; 0; 0; 0; 0; 0; 119; 2; 0; 0; 40; 0; 0; 0;
  115; 32; 8; 0; 0; 0; 0; 0; 119; 3; 0; 0; 56; 0; 0; 0; 115; 48; 6; 0; 0; 0; 0; 0; 191; 98; 0; 0; 0; 0; 0; 0; 220; 2;
  0; 0; 16; 0; 0; 0; 115; 32; 24; 0; 0; 0; 0; 0; 220; 6; 0; 0; 64; 0; 0; 0; 119; 6; 0; 0; 56; 0; 0; 0; 115; 96; 25; 0;
  0; 0; 0; 0; 115; 16; 21; 0; 0; 0; 0; 0; 119; 9; 0; 0; 51; 0; 0; 0; 121; 161; 232; 255; 0; 0; 0; 0; 79; 25; 0; 0; 0;
  0; 0; 0; 115; 144; 20; 0; 0; 0; 0; 0; 183; 1; 0; 0; 1; 0; 0; 0; 121; 162; 104; 255; 0; 0; 0; 0; 21; 2; 3; 0; 0; 0;
  0; 0; 183; 1; 0; 0; 0; 0; 0; 0; 5; 0; 1; 0; 0; 0; 0; 0; 183; 1; 0; 0; 1; 0; 0; 0; 191; 16; 0; 0; 0; 0; 0; 0; 149; 0;
  0; 0; 0; 0; 0; 0; 5; 0; 0; 0; 8; 0; 0; 0; 24; 0; 0; 0; 0; 16; 0; 0; 0; 0; 0; 0; 1; 0; 0; 0; 4; 0; 0; 0; 24; 0; 0; 0;
  1; 0; 0; 0; 0; 0; 0; 0; 0; 0; 0; 0; 0; 0; 0; 0; 0; 0; 0; 0; 0; 0; 0; 0; 0; 0; 0; 0; 0; 0; 0; 0; 73; 0; 0; 0; 4; 0;
  241; 255; 0; 0; 0; 0; 0; 0; 0; 0; 0; 0; 0; 0; 0; 0; 0; 0; 1; 0; 0; 0; 18; 0; 2; 0; 0; 0; 0; 0; 0; 0; 0; 0; 40; 7; 0;
  0; 0; 0; 0; 0; 45; 0; 0; 0; 17; 0; 4; 0; 0; 0; 0; 0; 0; 0; 0; 0; 20; 0; 0; 0; 0; 0; 0; 0; 17; 0; 0; 0; 17; 0; 4; 0;
  20; 0; 0; 0; 0; 0; 0; 0; 20; 0; 0; 0; 0; 0; 0; 0; 72; 2; 0; 0; 0; 0; 0; 0; 1; 0; 0; 0; 3; 0; 0; 0; 120; 2; 0; 0; 0;
  0; 0; 0; 1; 0; 0; 0; 4; 0; 0; 0; 3; 4; 0; 101; 110; 116; 114; 121; 0; 46; 114; 101; 108; 46; 116; 101; 120; 116; 0;
  112; 105; 112; 101; 95; 105; 112; 118; 52; 95; 108; 112; 109; 95; 100; 101; 102; 97; 117; 108; 116; 65; 99; 116;
  105; 111; 110; 0; 112; 105; 112; 101; 95; 105; 112; 118; 52; 95; 108; 112; 109; 0; 46; 108; 108; 118; 109; 95; 97;
  100; 100; 114; 115; 105; 103; 0; 108; 51; 102; 119; 100; 46; 99; 0; 46; 115; 116; 114; 116; 97; 98; 0; 46; 115; 121;
  109; 116; 97; 98; 0; 46; 100; 97; 116; 97; 0; 0; 0; 0; 0; 0; 0; 0; 0; 0; 0; 0; 0; 0; 0; 0; 0; 0; 0; 0; 0; 0; 0; 0;
  0; 0; 0; 0; 0; 0; 0; 0; 0; 0; 0; 0; 0; 0; 0; 0; 0; 0; 0; 0; 0; 0; 0; 0; 0; 0; 0; 0; 0; 0; 0; 0; 0; 0; 0; 0; 0; 0; 0;
  0; 0; 0; 0; 0; 0; 0; 0; 0; 81; 0; 0; 0; 3; 0; 0; 0; 0; 0; 0; 0; 0; 0; 0; 0; 0; 0; 0; 0; 0; 0; 0; 0; 42; 8; 0; 0; 0;
  0; 0; 0; 103; 0; 0; 0; 0; 0; 0; 0; 0; 0; 0; 0; 0; 0; 0; 0; 1; 0; 0; 0; 0; 0; 0; 0; 0; 0; 0; 0; 0; 0; 0; 0; 11; 0; 0;
  0; 1; 0; 0; 0; 6; 0; 0; 0; 0; 0; 0; 0; 0; 0; 0; 0; 0; 0; 0; 0; 64; 0; 0; 0; 0; 0; 0; 0; 40; 7; 0; 0; 0; 0; 0; 0; 0;
  0; 0; 0; 0; 0; 0; 0; 8; 0; 0; 0; 0; 0; 0; 0; 0; 0; 0; 0; 0; 0; 0; 0; 7; 0; 0; 0; 9; 0; 0; 0; 64; 0; 0; 0; 0; 0; 0;
  0; 0; 0; 0; 0; 0; 0; 0; 0; 8; 8; 0; 0; 0; 0; 0; 0; 32; 0; 0; 0; 0; 0; 0; 0; 6; 0; 0; 0; 2; 0; 0; 0; 8; 0; 0; 0; 0;
  0; 0; 0; 16; 0; 0; 0; 0; 0; 0; 0; 97; 0; 0; 0; 1; 0; 0; 0; 3; 0; 0; 0; 0; 0; 0; 0; 0; 0; 0; 0; 0; 0; 0; 0; 104; 7;
  0; 0; 0; 0; 0; 0; 40; 0; 0; 0; 0; 0; 0; 0; 0; 0; 0; 0; 0; 0; 0; 0; 4; 0; 0; 0; 0; 0; 0; 0; 0; 0; 0; 0; 0; 0; 0; 0;
  59; 0; 0; 0; 3; 76; 255; 111; 0; 0; 0; 128; 0; 0; 0; 0; 0; 0; 0; 0; 0; 0; 0; 0; 40; 8; 0; 0; 0; 0; 0; 0; 2; 0; 0; 0;
  0; 0; 0; 0; 6; 0; 0; 0; 0; 0; 0; 0; 1; 0; 0; 0; 0; 0; 0; 0; 0; 0; 0; 0; 0; 0; 0; 0; 89; 0; 0; 0; 2; 0; 0; 0; 0; 0;
  0; 0; 0; 0; 0; 0; 0; 0; 0; 0; 0; 0; 0; 0; 144; 7; 0; 0; 0; 0; 0; 0; 120; 0; 0; 0; 0; 0; 0; 0; 1; 0; 0; 0; 2; 0; 0;
  0; 8; 0; 0; 0; 0; 0; 0; 0; 24; 0; 0; 0; 0; 0; 0; 0].
