(* ===== verification/Elf.v ===== *)
(** * The object loader (crates/up4-ubpf/src/elf.rs)

    Parsing and relocating a BPF object: headers, sections, symbols, and the
    relocations that turn map references into map indices; and what an object
    says at the places of the format ([sections_of], [symbols_of], [text_of]), to
    which the loader is held.  Offsets are 64-bit
    words whose sums wrap ([wadd]), as they do in the release build; a slice
    whose end lies before its start or past the object reads nothing, and is
    a panic where the code indexes instead of asking. *)

From S2P Require Import Prelude Bytes Text Programs Objects.

Local Open Scope Z_scope.

(** ** Reading *)

Definition MAGIC : bytes := map U8 [127; 69; 76; 70].
Definition CLASS64 : byte := U8 2.
Definition DATA2LSB : byte := U8 1.
Definition MACHINE_BPF : Z := 247.
Definition SHT_SYMTAB : Z := 2.
Definition SHT_REL : Z := 9.
Definition R_BPF_64_64 : Z := 1.
Definition EHDR_LEN : nat := 64.
Definition SHDR_LEN : Z := 64.
Definition SYM_LEN : Z := 24.
Definition REL_LEN : Z := 16.
Definition INSN_LEN : nat := 8.
Definition STT_OBJECT : Z := 1.

(** [SlicePanic] is no value of the code's: it is [text[..]] out of range. *)
Inductive ElfError :=
  | NotElf
  | NotElf64Le
  | NotBpf (machine : Z)
  | Truncated (what : string)
  | NoText
  | UnknownRelocation (k : Z)
  | UnresolvedSymbol (name : string)
  | RelocationOutOfRange (offset : Z)
  | SlicePanic.

(** [b.get(from..upto)] *)
Definition get_z (b : bytes) (from upto : Z) : option bytes :=
  if (0 <=? from) && (from <=? upto) && (upto <=? Z.of_nat (length b))
  then Some (slice (Z.to_nat from) (Z.to_nat upto) b) else None.

(** [usize] addition. *)
Definition wadd (a b : Z) : Z := (a + b) mod 2 ^ 64.

Definition u16le (b : bytes) (at_ : Z) : option Z := le_val <$> get_z b at_ (wadd at_ 2).
Definition u32le (b : bytes) (at_ : Z) : option Z := le_val <$> get_z b at_ (wadd at_ 4).
Definition u64le (b : bytes) (at_ : Z) : option Z := le_val <$> get_z b at_ (wadd at_ 8).

Definition byte_char (b : byte) : ascii := chr (uv b).

(** A NUL-terminated name inside a string table; names are ASCII, on which the
    code's lossy decoding is the identity. *)
Fixpoint until_nul (b : bytes) : bytes :=
  match b with
  | [] => []
  | x :: b => if uv x =? 0 then [] else x :: until_nul b
  end.

Definition name_in (obj : bytes) (start upto : Z) : string :=
  default EmptyString ((fun s => unchars (byte_char <$> until_nul s)) <$> get_z obj start upto).

(** ** Map references *)

Record MapRef := { m_symbol : string; m_table : string; is_default : bool }.

#[export] Instance MapRef_eq_dec : EqDecision MapRef.
Proof. solve_decision. Defined.

Definition strip_suffix (suffix s : list ascii) : option (list ascii) :=
  let n := (length s - length suffix)%nat in
  if decide (length suffix <= length s /\ drop n s = suffix)%nat then Some (take n s) else None.

(** [MapRef::new] *)
Definition mapref_new (symbol : string) : MapRef :=
  let '(b, d) := match strip_suffix (chars "_defaultAction") (chars symbol) with
                 | Some b => (b, true)
                 | None => (chars symbol, false)
                 end in
  let table := match split_once "_" b with Some (_, t) => t | None => b end in
  {| m_symbol := symbol; m_table := unchars table; is_default := d |}.

Record ElfProgram := { text : bytes; maps : list MapRef }.

(** ** Loading *)

Record Section_ := {
  s_name : string; s_kind : Z; s_offset : Z; s_size : Z; s_link : Z; s_entsize : Z;
}.

Definition want (what : string) {A} (o : option A) : result A ElfError := ok_or o (Truncated what).

(** One raw section header: name offset, type, offset, size, link, entsize. *)
Definition read_header (obj : bytes) (shoff : Z) (i : nat) : result (Z * Z * Z * Z * Z * Z) ElfError :=
  let at_ := wadd shoff (Z.of_nat i * SHDR_LEN) in
  let? name := want "sh_name" (u32le obj at_) in
  let? kind := want "sh_type" (u32le obj (wadd at_ 4)) in
  let? offset := want "section" (u64le obj (wadd at_ 24)) in
  let? size := want "section" (u64le obj (wadd at_ 32)) in
  let? link := want "sh_link" (u32le obj (wadd at_ 40)) in
  let? entsize := want "section" (u64le obj (wadd at_ 56)) in
  Ok (name, kind, offset, size, link, entsize).

Definition read_sections (obj : bytes) (shoff shnum shstrndx : Z) : result (list Section_) ElfError :=
  let? raws := rmapM (read_header obj shoff) (seq 0 (Z.to_nat shnum)) in
  let? strtab := want "shstrtab"
    ((fun r => let '(_, _, o, s, _, _) := r in (o, s)) <$> raws !! Z.to_nat shstrndx) in
  Ok ((fun r => let '(n, k, o, s, l, e) := r in
       {| s_name := name_in obj (wadd strtab.1 n) (wadd strtab.1 strtab.2);
          s_kind := k; s_offset := o; s_size := s; s_link := l; s_entsize := e |}) <$> raws).

Record Symbol := { sy_index : nat; sy_name : string; sy_type : Z; sy_value : Z }.

Definition read_symbol (obj : bytes) (sym strs : Section_) (entsize : Z) (i : nat) : result Symbol ElfError :=
  let at_ := wadd (s_offset sym) (Z.of_nat i * entsize) in
  let? nameoff := want "st_name" (u32le obj at_) in
  let? info := want "st_info" (le_val <$> get_z obj (wadd at_ 4) (wadd at_ 5)) in
  let? value := want "st_value" (u64le obj (wadd at_ 8)) in
  Ok {| sy_index := i;
        sy_name := name_in obj (wadd (s_offset strs) nameoff) (wadd (s_offset strs) (s_size strs));
        sy_type := Z.land info 15; sy_value := value |}.

Definition read_symbols (obj : bytes) (sections : list Section_) : result (list Symbol) ElfError :=
  match list_find (fun s => s_kind s = SHT_SYMTAB) sections with
  | None => Ok []
  | Some (_, sym) =>
      let? strs := want "symbol strtab" (sections !! Z.to_nat (s_link sym)) in
      let entsize := if s_entsize sym =? 0 then SYM_LEN else s_entsize sym in
      rmapM (read_symbol obj sym strs entsize) (seq 0 (Z.to_nat (s_size sym / entsize)))
  end.

(** The map definitions: the named object symbols, by address. *)
Definition ordered (symbols : list Symbol) : list Symbol :=
  sort_by (fun a b => sy_value a ?= sy_value b)
    (filter (fun s => sy_type s = STT_OBJECT /\ sy_name s <> EmptyString) symbols).

(** What a relocation does to [.text]: the map's index into the low half of the
    immediate of an [lddw] pair, zero into the high half.  [imm] is where the
    first immediate is, four bytes into the instruction. *)
Definition patch (t : bytes) (imm index : nat) : bytes :=
  copy_at (imm + INSN_LEN) (le_bytes 4 0) (copy_at imm (le_bytes 4 (Z.of_nat index)) t).

Definition reloc_step (obj : bytes) (symbols : list Symbol) (rel : Section_) (entsize : Z)
    (t : bytes) (i : nat) : result bytes ElfError :=
  let at_ := wadd (s_offset rel) (Z.of_nat i * entsize) in
  let? offset := want "r_offset" (u64le obj at_) in
  let? info := want "r_info" (u64le obj (wadd at_ 8)) in
  let kind := Z.land info (umax 32) in
  let sym := Z.shiftr info 32 in
  if negb (kind =? R_BPF_64_64) then Err (UnknownRelocation kind)
  else if Z.of_nat (length t) <? wadd offset (2 * Z.of_nat INSN_LEN) then Err (RelocationOutOfRange offset)
  else
    match list_find (fun s => Z.of_nat (sy_index s) = sym) (ordered symbols) with
    | None => Err (UnresolvedSymbol
                (match list_find (fun s => Z.of_nat (sy_index s) = sym) symbols with
                 | Some (_, s) => sy_name s
                 | None => unchars (dec sym)
                 end))
    | Some (index, _) =>
        let imm := wadd offset 4 in
        if Z.of_nat (length t) <? imm + 4 + Z.of_nat INSN_LEN then Err SlicePanic
        else Ok (patch t (Z.to_nat imm) index)
    end.

Definition reloc_section (obj : bytes) (symbols : list Symbol) (t : bytes) (rel : Section_)
    : result bytes ElfError :=
  let entsize := if s_entsize rel =? 0 then REL_LEN else s_entsize rel in
  rfold (reloc_step obj symbols rel entsize) t (seq 0 (Z.to_nat (s_size rel / entsize))).

Definition is_rel_text (s : Section_) : Prop := s_kind s = SHT_REL /\ s_name s = ".rel.text".

#[export] Instance is_rel_text_dec s : Decision (is_rel_text s).
Proof. unfold is_rel_text. apply _. Defined.

(** [load] *)
Definition load (obj : bytes) : result ElfProgram ElfError :=
  if (length obj <? EHDR_LEN)%nat || negb (bool_decide (take 4 obj = MAGIC)) then Err NotElf
  else if negb (bool_decide (byte_at obj 4 = CLASS64) && bool_decide (byte_at obj 5 = DATA2LSB)) then Err NotElf64Le
  else
    let? machine := want "e_machine" (u16le obj 18) in
    if negb (machine =? MACHINE_BPF) then Err (NotBpf machine)
    else
      let? shoff := want "e_shoff" (u64le obj 40) in
      let? shnum := want "e_shnum" (u16le obj 60) in
      let? shstrndx := want "e_shstrndx" (u16le obj 62) in
      let? sections := read_sections obj shoff shnum shstrndx in
      let? text_sec := ok_or (snd <$> list_find (fun s => s_name s = ".text") sections) NoText in
      let? t := want ".text" (get_z obj (s_offset text_sec) (wadd (s_offset text_sec) (s_size text_sec))) in
      let? symbols := read_symbols obj sections in
      let? t := rfold (reloc_section obj symbols) t (filter is_rel_text sections) in
      Ok {| text := t; maps := (fun s => mapref_new (sy_name s)) <$> ordered symbols |}.

(** ** Lemmas *)

Lemma length_patch t a i : length (patch t a i) = length t.
Proof. unfold patch. by rewrite !length_inserts. Qed.

Lemma get_z_Some b from upto s :
  get_z b from upto = Some s -> length s = Z.to_nat (upto - from) /\ 0 <= from <= upto /\ upto <= Z.of_nat (length b).
Proof.
  unfold get_z. destruct (_ && _) eqn:E; [| done]. intros [= <-].
  apply andb_true_iff in E as [[E1 E2]%andb_true_iff E3]. apply Z.leb_le in E1, E2, E3.
  rewrite length_slice by lia. split; lia.
Qed.

Lemma wadd_range a b : 0 <= wadd a b < 2 ^ 64.
Proof. apply Z.mod_pos_bound. lia. Qed.

(** ** What an object says

    The parts of the object the loader reads, by their places in the format and
    not by the loader's readers. *)

(** The little-endian field of [n] bytes at [at_] is [v]. *)
Definition field (n : nat) (obj : bytes) (at_ v : Z) : Prop :=
  0 <= at_ /\ at_ + Z.of_nat n <= Z.of_nat (length obj) /\ v = le_val (slice (Z.to_nat at_) (Z.to_nat at_ + n) obj).

(** The NUL-terminated name between two places, or nothing where the places are
    not in the object. *)
Definition named (obj : bytes) (from upto : Z) (name : string) : Prop :=
  if decide (0 <= from <= upto /\ upto <= Z.of_nat (length obj)) then
    exists k, name = unchars (byte_char <$> slice (Z.to_nat from) (Z.to_nat from + k) obj) /\
      (Z.to_nat from + k <= Z.to_nat upto)%nat /\
      Forall (fun b => uv b <> 0) (slice (Z.to_nat from) (Z.to_nat from + k) obj) /\
      (Z.of_nat k = upto - from \/ obj !! (Z.to_nat from + k)%nat = Some (U8 0))
  else name = EmptyString.

(** The section header at [hdr], names being in the table at [stroff]. *)
Definition header_at (obj : bytes) (stroff strsize hdr : Z) (s : Section_) : Prop :=
  exists nameoff, field 4 obj hdr nameoff /\ field 4 obj (wadd hdr 4) (s_kind s) /\
    field 8 obj (wadd hdr 24) (s_offset s) /\ field 8 obj (wadd hdr 32) (s_size s) /\
    field 4 obj (wadd hdr 40) (s_link s) /\ field 8 obj (wadd hdr 56) (s_entsize s) /\
    named obj (wadd stroff nameoff) (wadd stroff strsize) (s_name s).

(** The section headers of an object, in order. *)
Definition sections_of (obj : bytes) (sections : list Section_) : Prop :=
  exists shoff shstrndx strtab,
    field 8 obj 40 shoff /\ field 2 obj 60 (Z.of_nat (length sections)) /\ field 2 obj 62 shstrndx /\
    sections !! Z.to_nat shstrndx = Some strtab /\
    forall i s, sections !! i = Some s ->
      header_at obj (s_offset strtab) (s_size strtab) (wadd shoff (Z.of_nat i * 64)) s.

Definition size_or (default size : Z) : Z := if size =? 0 then default else size.

Definition symbol_at (obj : bytes) (sym strs : Section_) (i : nat) (y : Symbol) : Prop :=
  let at_ := wadd (s_offset sym) (Z.of_nat i * size_or 24 (s_entsize sym)) in
  exists nameoff info, field 4 obj at_ nameoff /\ field 1 obj (wadd at_ 4) info /\ field 8 obj (wadd at_ 8) (sy_value y) /\
    sy_index y = i /\ sy_type y = Z.land info 15 /\
    named obj (wadd (s_offset strs) nameoff) (wadd (s_offset strs) (s_size strs)) (sy_name y).

(** The symbols of an object: those of its first symbol table. *)
Definition symbols_of (obj : bytes) (sections : list Section_) (symbols : list Symbol) : Prop :=
  (symbols = [] /\ Forall (fun s => s_kind s <> 2) sections) \/
  exists i sym strs, sections !! i = Some sym /\ s_kind sym = 2 /\
    (forall j s, (j < i)%nat -> sections !! j = Some s -> s_kind s <> 2) /\
    sections !! Z.to_nat (s_link sym) = Some strs /\
    length symbols = Z.to_nat (s_size sym / size_or 24 (s_entsize sym)) /\
    forall i y, symbols !! i = Some y -> symbol_at obj sym strs i y.

(** The maps of a program: its named object symbols, by address. *)
Definition maps_of (symbols defs : list Symbol) : Prop :=
  defs ≡ₚ filter (fun y => sy_type y = 1 /\ sy_name y <> EmptyString) symbols /\
  StronglySorted (fun y y' => sy_value y <= sy_value y') defs.

(** The bytes of the object's program: its first section called [.text]. *)
Definition text_of (obj : bytes) (sections : list Section_) (t : bytes) : Prop :=
  exists i s, sections !! i = Some s /\ s_name s = ".text" /\
    (forall j s', (j < i)%nat -> sections !! j = Some s' -> s_name s' <> ".text") /\
    s_offset s + s_size s <= Z.of_nat (length obj) /\
    t = slice (Z.to_nat (s_offset s)) (Z.to_nat (s_offset s) + Z.to_nat (s_size s)) obj.

(** ** What loading promises *)

(** What a relocation [(imm, index)] writes at byte [k] of the text, if that
    byte is one of the two immediates. *)
Definition written (p : nat * nat) (k : nat) : option byte :=
  if decide (p.1 <= k < p.1 + 4)%nat then le_bytes 4 (Z.of_nat p.2) !! (k - p.1)%nat
  else if decide (p.1 + 8 <= k < p.1 + 12)%nat then Some (U8 0)
  else None.

Definition after_all (ps : list (nat * nat)) (k : nat) (b : byte) : byte :=
  foldl (fun b p => default b (written p k)) b ps.

(** The relocation entries of a section, and of every section for the text. *)
Definition entry_size (rel : Section_) : Z := size_or 16 (s_entsize rel).
Definition sites_of (rel : Section_) : list (Section_ * nat) :=
  (fun i => (rel, i)) <$> seq 0 (Z.to_nat (s_size rel / entry_size rel)).
Definition sites (sections : list Section_) : list (Section_ * nat) :=
  filter (fun s => s_kind s = 9 /\ s_name s = ".rel.text") sections ≫= sites_of.

(** An entry resolved: the object names an instruction of the text and a map
    symbol, and [(imm, index)] is that instruction's immediate and that map's
    place in the list. *)
Definition resolves (obj : bytes) (defs : list Symbol) (n : nat) (site : Section_ * nat) (p : nat * nat) : Prop :=
  let at_ := wadd (s_offset site.1) (Z.of_nat site.2 * entry_size site.1) in
  exists offset info s, field 8 obj at_ offset /\ field 8 obj (wadd at_ 8) info /\
    info mod 2 ^ 32 = 1 /\ Z.of_nat p.1 = wadd offset 4 /\ (p.1 + 12 <= n)%nat /\
    defs !! p.2 = Some s /\ Z.of_nat (sy_index s) = info / 2 ^ 32.

(** [t] became [t'] by the entries [l], byte for byte. *)
Definition relocated (obj : bytes) (defs : list Symbol) (l : list (Section_ * nat)) (t t' : bytes) : Prop :=
  exists ps, Forall2 (resolves obj defs (length t)) l ps /\
    length t' = length t /\ forall k, t' !! k = after_all ps k <$> t !! k.

(** *** The readers read those parts *)

(** A slice whose end is reckoned with wrap-around and is in range did not wrap. *)
Lemma get_wadd b a n s :
  0 <= n < 2 ^ 64 -> get_z b a (wadd a n) = Some s ->
  0 <= a /\ a + n <= Z.of_nat (length b) /\ s = slice (Z.to_nat a) (Z.to_nat a + Z.to_nat n) b.
Proof.
  intros Hn H. pose proof (wadd_range a n) as Hr. unfold get_z in H. destruct (_ && _) eqn:E; [| done].
  apply andb_true_iff in E as [[E1 E2]%andb_true_iff E3]. apply Z.leb_le in E1, E2, E3.
  assert (wadd a n = a + n) as Ha.
  { unfold wadd in *. destruct (decide (a + n < 2 ^ 64)); [apply Z.mod_small; lia |].
    assert ((a + n) mod 2 ^ 64 = a + n - 2 ^ 64) by (symmetry; apply (Z.mod_unique _ _ 1); lia). lia. }
  injection H as <-. rewrite Ha in *. split_and!; [done | done |]. by rewrite Z2Nat.inj_add by lia.
Qed.

Lemma wadd_wadd a b c : wadd (wadd a b) c = wadd a (b + c).
Proof. unfold wadd. rewrite Zplus_mod_idemp_l. f_equal. lia. Qed.

Lemma le_field n obj a v :
  (n <= 8)%nat -> le_val <$> get_z obj a (wadd a (Z.of_nat n)) = Some v -> field n obj a v.
Proof.
  intros Hn H. apply fmap_Some in H as (s & Hs & ->). apply get_wadd in Hs as (H1 & H2 & ->); [| lia].
  rewrite Nat2Z.id. by split_and!.
Qed.

Lemma u16_field obj a v : u16le obj a = Some v -> field 2 obj a v.
Proof. apply (le_field 2). lia. Qed.
Lemma u32_field obj a v : u32le obj a = Some v -> field 4 obj a v.
Proof. apply (le_field 4). lia. Qed.
Lemma u64_field obj a v : u64le obj a = Some v -> field 8 obj a v.
Proof. apply (le_field 8). lia. Qed.

Lemma field_bound n obj a v : field n obj a v -> 0 <= v < 256 ^ Z.of_nat n.
Proof.
  intros (H1 & H2 & ->). pose proof (le_val_bound (slice (Z.to_nat a) (Z.to_nat a + n) obj)) as B.
  rewrite length_slice in B by lia. by replace (Z.to_nat a + n - Z.to_nat a)%nat with n in B by lia.
Qed.

Lemma until_nul_prefix b :
  let k := length (until_nul b) in
  until_nul b = take k b /\ (k <= length b)%nat /\ Forall (fun x => uv x <> 0) (take k b) /\
  (k = length b \/ b !! k = Some (U8 0)).
Proof.
  induction b as [| x b IH]; cbn; [by split_and!; [| | constructor | left] |].
  destruct (Z.eqb_spec (uv x) 0) as [E | E]; cbn.
  - split_and!; [done | lia | constructor | right]. f_equal. by apply uint_eq.
  - destruct IH as (H1 & H2 & H3 & H4). split_and!; [by rewrite <- H1 | lia | by constructor |].
    destruct H4 as [-> | H4]; [by left | by right].
Qed.

Lemma name_in_named obj from upto : named obj from upto (name_in obj from upto).
Proof.
  unfold named, name_in, get_z. case_decide as D.
  - rewrite (proj2 (Z.leb_le 0 from)), (proj2 (Z.leb_le from upto)), (proj2 (Z.leb_le upto _)) by lia. cbn.
    set (b := slice (Z.to_nat from) (Z.to_nat upto) obj). destruct (until_nul_prefix b) as (H1 & H2 & H3 & H4).
    set (k := length (until_nul b)) in *. exists k.
    assert (length b = Z.to_nat upto - Z.to_nat from)%nat as Lb by (apply length_slice; lia).
    assert (slice (Z.to_nat from) (Z.to_nat from + k) obj = take k b) as ->.
    { unfold b, slice. rewrite take_take. f_equal. lia. }
    split_and!; [by rewrite H1 | lia | done |]. destruct H4 as [H4 | H4]; [left; lia | right].
    rewrite <- H4. unfold b, slice. rewrite lookup_take_lt, lookup_drop; [done |].
    apply lookup_lt_Some in H4. lia.
  - destruct (_ && _) eqn:E; [| done]. exfalso. apply D.
    apply andb_true_iff in E as [[E1 E2]%andb_true_iff E3]. apply Z.leb_le in E1, E2, E3. lia.
Qed.

Lemma rmapM_lookup {B E} (f : nat -> result B E) n ys i y :
  rmapM f (seq 0 n) = Ok ys -> ys !! i = Some y -> f i = Ok y.
Proof.
  intros H Hy. apply rmapM_Ok in H. destruct (Forall2_lookup_r _ _ _ _ _ H Hy) as (x & Hx & Hf).
  apply lookup_seq in Hx as [-> _]. done.
Qed.

Lemma rmapM_length {B E} (f : nat -> result B E) n ys : rmapM f (seq 0 n) = Ok ys -> length ys = n.
Proof. intros H%rmapM_Ok%Forall2_length. by rewrite length_seq in H. Qed.

Lemma read_sections_of obj shoff shnum shstrndx sections :
  u64le obj 40 = Some shoff -> u16le obj 60 = Some shnum -> u16le obj 62 = Some shstrndx ->
  read_sections obj shoff shnum shstrndx = Ok sections -> sections_of obj sections.
Proof.
  intros H1%u64_field H2%u16_field H3%u16_field H. unfold read_sections in H.
  apply rbind_Ok_inv in H as (raws & Hr & H). apply rbind_Ok_inv in H as ([so ss] & Hs & H). injection H as <-.
  unfold want in Hs. apply ok_or_Ok, fmap_Some in Hs as ([[[[[nn nk] no] nz] nl] ne] & Hx & [= -> ->]).
  exists shoff, shstrndx. rewrite length_fmap, (rmapM_length _ _ _ Hr).
  rewrite Z2Nat.id by apply (field_bound _ _ _ _ H2). eexists. rewrite list_lookup_fmap, Hx. split_and!; try done.
  intros i s Hi. rewrite list_lookup_fmap in Hi. apply fmap_Some in Hi as ([[[[[n k] o] z] l] e] & Hi & ->).
  pose proof (rmapM_lookup _ _ _ _ _ Hr Hi) as Hh. unfold read_header, want in Hh. change SHDR_LEN with 64 in Hh.
  do 6 (apply rbind_Ok_inv in Hh as (? & ?%ok_or_Ok & Hh)). injection Hh as <- <- <- <- <- <-.
  exists x. cbn [s_name s_kind s_offset s_size s_link s_entsize]. split_and!; eauto using u32_field, u64_field, name_in_named.
Qed.

Lemma loaded_text_of obj sections s t :
  sections_of obj sections -> snd <$> list_find (fun s => s_name s = ".text") sections = Some s ->
  get_z obj (s_offset s) (wadd (s_offset s) (s_size s)) = Some t -> text_of obj sections t.
Proof.
  intros (? & ? & ? & _ & _ & _ & _ & Hh) Hf Ht. apply fmap_Some in Hf as ([i s'] & Hf & ->). cbn [snd] in *.
  apply list_find_Some in Hf as (Hi & Hn & Hb). destruct (Hh i s' Hi) as (? & _ & _ & _ & Hz & _).
  pose proof (field_bound _ _ _ _ Hz). apply get_wadd in Ht as (_ & Hl & ->); [| lia].
  exists i, s'. split_and!; [done | done | | done | done]. intros j s Hj Hs. by apply (Hb j s).
Qed.

Lemma read_symbols_of obj sections symbols :
  read_symbols obj sections = Ok symbols -> symbols_of obj sections symbols.
Proof.
  unfold read_symbols. destruct (list_find _ sections) as [[i sym] |] eqn:Hf.
  - intros H. right. apply list_find_Some in Hf as (Hi & Hk & Hb). apply rbind_Ok_inv in H as (strs & Hs%ok_or_Ok & H).
    exists i, sym, strs. split_and!; [done | done | | done | exact (rmapM_length _ _ _ H) |].
    { intros j s Hj Hs'. by apply (Hb j s). }
    intros k y Hy. pose proof (rmapM_lookup _ _ _ _ _ H Hy) as Hr. unfold read_symbol, want in Hr.
    do 3 (apply rbind_Ok_inv in Hr as (? & ?%ok_or_Ok & Hr)). injection Hr as <-.
    eexists _, _. cbn [sy_value sy_index sy_type sy_name]. split_and!; [exact (u32_field _ _ _ H0) | | exact (u64_field _ _ _ H2) | done | done | apply name_in_named].
    apply (le_field 1); [lia |]. by rewrite (wadd_wadd _ 4 (Z.of_nat 1)).
  - intros [= <-]. left. split; [done |]. apply list_find_None in Hf. done.
Qed.

Lemma ordered_maps symbols : maps_of symbols (ordered symbols).
Proof.
  split; [apply sort_by_perm |]. set (R := cmp_le (fun a b => sy_value a ?= sy_value b)).
  assert (Transitive R).
  { intros x y z Hx Hy. change (sy_value x <= sy_value y) in Hx. change (sy_value y <= sy_value z) in Hy.
    change (sy_value x <= sy_value z). lia. }
  assert (Total R) by (intros x y; change (sy_value x <= sy_value y \/ sy_value y <= sy_value x); lia).
  apply (StronglySorted_merge_sort R).
Qed.

Lemma lookup_patch t a i k :
  (a + 12 <= length t)%nat -> patch t a i !! k = (fun b => default b (written (a, i) k)) <$> t !! k.
Proof.
  intros Ha. unfold patch, written, INSN_LEN.
  assert (length (le_bytes 4 (Z.of_nat i)) = 4%nat) as L1 by done.
  assert (length (le_bytes 4 0) = 4%nat) as L2 by done. cbn [fst snd].
  rewrite !lookup_copy_at by (rewrite ?length_inserts; lia). rewrite L1, L2.
  repeat case_decide; try lia.
  - destruct (lookup_lt_is_Some_2 t k ltac:(lia)) as [b ->]. cbn [fmap option_fmap option_map default].
    by destruct (k - (a + 8))%nat as [| [| [| [| x]]]] eqn:E; try lia.
  - destruct (lookup_lt_is_Some_2 t k ltac:(lia)) as [b ->]. cbn [fmap option_fmap option_map].
    by destruct (lookup_lt_is_Some_2 (le_bytes 4 (Z.of_nat i)) (k - a)%nat ltac:(lia)) as [c ->].
  - by destruct (t !! k).
Qed.

Lemma relocated_nil obj defs t : relocated obj defs [] t t.
Proof. exists []. split_and!; [constructor | done |]. intros k. by destruct (t !! k). Qed.

Lemma relocated_app obj defs l1 l2 t t1 t2 :
  relocated obj defs l1 t t1 -> relocated obj defs l2 t1 t2 -> relocated obj defs (l1 ++ l2) t t2.
Proof.
  intros (p1 & F1 & L1 & B1) (p2 & F2 & L2 & B2). rewrite L1 in F2.
  exists (p1 ++ p2). split_and!; [by apply Forall2_app | congruence |]. intros k.
  rewrite B2, B1, <- option_fmap_compose. apply option_fmap_ext. intros b. unfold compose, after_all.
  by rewrite foldl_app.
Qed.

(** A fold of loop bodies that each relocate relocates by all their entries. *)
Lemma rfold_relocated {X} obj defs (g : X -> list (Section_ * nat))
    (f : bytes -> X -> result bytes ElfError) l t t' :
  (forall x s s', f s x = Ok s' -> relocated obj defs (g x) s s') ->
  rfold f t l = Ok t' -> relocated obj defs (l ≫= g) t t'.
Proof.
  intros Hf. revert t. induction l as [| x l IH]; intros t H; cbn [rfold] in H.
  - injection H as <-. apply relocated_nil.
  - apply rbind_Ok_inv in H as (s & H1 & H2). cbn. eapply relocated_app; [by apply Hf | by apply IH].
Qed.

Lemma reloc_step_relocated obj symbols rel t i t' :
  reloc_step obj symbols rel (entry_size rel) t i = Ok t' -> relocated obj (ordered symbols) [(rel, i)] t t'.
Proof.
  intros H. unfold reloc_step in H. apply rbind_Ok_inv in H as (offset & Ho & H).
  apply rbind_Ok_inv in H as (info & Hi & H). destruct (Z.eqb_spec (Z.land info (umax 32)) R_BPF_64_64) as [Hk |]; [| done].
  cbn [negb] in H. destruct (_ <? _); [done |].
  destruct (list_find _ (ordered symbols)) as [[index s] |] eqn:Hf; [| done].
  apply list_find_Some in Hf as (Hs & Hx & _). pose proof (wadd_range offset 4).
  destruct (Z.ltb_spec (Z.of_nat (length t)) (wadd offset 4 + 4 + Z.of_nat INSN_LEN)) as [| Hin]; [done |].
  injection H as <-. unfold INSN_LEN in Hin.
  exists [(Z.to_nat (wadd offset 4), index)]. split; [| split].
  - constructor; [| constructor]. exists offset, info, s. cbn [fst snd].
    unfold want in *. apply ok_or_Ok in Ho, Hi. apply u64_field in Ho, Hi. change R_BPF_64_64 with 1 in Hk.
    pose proof (field_bound _ _ _ _ Hi). change (umax 32) with (Z.ones 32) in Hk. rewrite Z.land_ones in Hk by lia. rewrite Z.shiftr_div_pow2 in Hx by lia.
    split_and!; [done | done | done | lia | lia | done | done].
  - apply length_patch.
  - intros k. rewrite lookup_patch by lia. by apply option_fmap_ext.
Qed.

Lemma reloc_section_relocated obj symbols rel t t' :
  reloc_section obj symbols t rel = Ok t' -> relocated obj (ordered symbols) (sites_of rel) t t'.
Proof.
  intros H. unfold reloc_section in H. unfold sites_of.
  replace ((fun i => (rel, i)) <$> _) with (seq 0 (Z.to_nat (s_size rel / entry_size rel)) ≫= fun i => [(rel, i)]).
  - eapply rfold_relocated; [| exact H]. intros i s s'. apply reloc_step_relocated.
  - generalize (seq 0 (Z.to_nat (s_size rel / entry_size rel))). intros l. by induction l as [| x l IH]; [| cbn; f_equal].
Qed.

(** The range check adds before it compares, so an offset in the last four
    bytes of the address space passes it and the patch lands at the start of
    the text, where no relocation pointed. *)
Lemma wrapped_offset_is_accepted :
  let obj := le_bytes 8 (2 ^ 64 - 4) ++ le_bytes 8 R_BPF_64_64 in
  let rel := {| s_name := ".rel.text"; s_kind := SHT_REL; s_offset := 0; s_size := REL_LEN; s_link := 0; s_entsize := 0 |} in
  let t := replicate 16 (U8 255) in
  reloc_section obj [{| sy_index := 0; sy_name := "pipe_t"; sy_type := STT_OBJECT; sy_value := 0 |}] t rel =
    Ok (patch t 0 0) /\ patch t 0 0 <> t.
Proof. split; [vm_compute; reflexivity | vm_compute; discriminate]. Qed.

(** ** Properties *)

(** C34: a program that loads is the object's own [.text], byte for byte, but
    for the immediates the relocation entries name.  The object is a
    little-endian 64-bit BPF object whose section headers, symbols and names
    are read from their places in the format; the text is all the bytes of the
    first section called [.text]; the maps the program declares are the named
    object symbols in the order of their addresses; and, reading the entries of
    every [.rel.text] section in order, each names an instruction pair inside
    the text and one of those maps, and the first immediate of the pair then
    holds, little-endian, the place of that map in the list, and the second is
    zero.  So every map reference left in the text is the index of a declared
    map.  Both committed objects load, with the entry map and the
    default-action map of their table, in that order. *)
Theorem load_sound obj :
  match load obj with
  | Err _ => True
  | Ok prog =>
      take 4 obj = map U8 [127; 69; 76; 70] /\ byte_at obj 4 = U8 2 /\ byte_at obj 5 = U8 1 /\ field 2 obj 18 247 /\
      exists sections symbols defs t0,
        sections_of obj sections /\ symbols_of obj sections symbols /\ maps_of symbols defs /\ text_of obj sections t0 /\
        maps prog = (fun s => mapref_new (sy_name s)) <$> defs /\
        relocated obj defs (sites sections) t0 (text prog)
  end /\
  maps <$> to_option (load l2fwd_o) =
    Some [mapref_new "pipe_mac_dst"; mapref_new "pipe_mac_dst_defaultAction"] /\
  maps <$> to_option (load l3fwd_o) =
    Some [mapref_new "pipe_ipv4_lpm"; mapref_new "pipe_ipv4_lpm_defaultAction"].
Proof.
  split; [| split; vm_compute; reflexivity].
  destruct (load obj) as [prog |] eqn:H; [| done]. unfold load in H.
  destruct (_ || _) eqn:G1; [done |]. apply orb_false_iff in G1 as [_ Hm%negb_false_iff%bool_decide_eq_true].
  destruct (negb _) eqn:G2; [done |]. apply negb_false_iff, andb_true_iff in G2 as [H4%bool_decide_eq_true H5%bool_decide_eq_true].
  unfold want in H. apply rbind_Ok_inv in H as (machine & He%ok_or_Ok & H). destruct (negb _) eqn:G3; [done |].
  apply negb_false_iff, Z.eqb_eq in G3 as ->.
  apply rbind_Ok_inv in H as (shoff & H1%ok_or_Ok & H). apply rbind_Ok_inv in H as (shnum & H2%ok_or_Ok & H).
  apply rbind_Ok_inv in H as (shstrndx & H3%ok_or_Ok & H). apply rbind_Ok_inv in H as (sections & Hs & H).
  pose proof (read_sections_of _ _ _ _ _ H1 H2 H3 Hs) as Hsec.
  apply rbind_Ok_inv in H as (text_sec & Hf%ok_or_Ok & H). apply rbind_Ok_inv in H as (t0 & Ht%ok_or_Ok & H).
  apply rbind_Ok_inv in H as (symbols & Hy & H). apply rbind_Ok_inv in H as (t & Hr & [= <-]).
  split_and!; [done | done | done | by apply u16_field |].
  exists sections, symbols, (ordered symbols), t0.
  split_and!; [done | by apply read_symbols_of | apply ordered_maps | by eapply loaded_text_of | done |].
  eapply rfold_relocated; [| exact Hr]. intros rel s s'. apply reloc_section_relocated.
Qed.
