(* ===== verification/UbpfVm.v ===== *)
(** * Running a program (crates/up4-ubpf/src/vm.rs)

    The host's side of one execution: the buffers it prepares, the helpers it
    answers, and what it reads back.  The virtual machine between them (rbpf)
    is a parameter: how it gets from the prepared memory to its exit, calling
    helpers on the way, is a tree of calls ([Run]), and the host drives it. *)

From S2P Require Import Prelude Bytes Text Table Catalog UbpfTable Elf.

Local Open Scope Z_scope.

(** [standard_metadata] *)
Definition INPUT_PORT : nat := 0.
Definition PACKET_LENGTH : nat := 4.
Definition OUTPUT_ACTION : nat := 8.
Definition OUTPUT_PORT : nat := 12.
Definition META_SIZE : nat := 24.

Definition NO_PORT : u32 := U32 (umax 32).
Definition ARENA : nat := 64.

Definition MAP_LOOKUP : Z := 1.
Definition MAP_UPDATE : Z := 2.
Definition MAP_DELETE : Z := 3.
Definition MAP_ADD : Z := 4.
Definition TIME_GET_NS : Z := 5.
Definition HASH : Z := 6.
Definition PRINTF : Z := 7.
Definition ADJUST_HEAD : Z := 8.
Definition PACKET_DATA : Z := 9.
Definition TRUNCATE_PACKET : Z := 11.

(** The memory the host shares with the program. *)
Record Mem := { m_packet : bytes; m_meta : bytes; m_arena : bytes }.

(** A helper call: its number, its first two arguments, and the VM's memory
    behind the second, for the helper that takes a pointer there. *)
Record Call := { c_helper : Z; c_arg1 : u64; c_arg2 : u64; c_mem : nat -> byte }.

(** An execution: it exits, or faults, or calls a helper with the memory as it
    is and goes on from the answer and the memory after it. *)
Inductive Run :=
  | Exit (r : result u64 string) (m : Mem)
  | Helper (c : Call) (m : Mem) (k : u64 -> Mem -> Run).

(** Where the buffers are; a heap address is not null. *)
Definition ctx_token : u64 := U64 1.
Definition packet_ptr : u64 := U64 4096.
Definition meta_ptr : u64 := U64 8192.
Definition arena_ptr : u64 := U64 12288.

(** ** Helpers *)

(** [HelperCtx]: the tables of this execution, and the refusal so far. *)
Record HelperCtx := { h_tables : list Table; h_refused : option string }.

Definition mark_refused (what : string) (h : HelperCtx) : HelperCtx :=
  {| h_tables := h_tables h; h_refused := Some what |}.

(** [read_vm] *)
Definition read_vm (ptr : u64) (mem : nat -> byte) (len : nat) : bytes :=
  if (uv ptr =? 0) || (len =? 0)%nat || (ARENA <? len)%nat then [] else mem <$> seq 0 len.

Definition map_lookup (c : Call) (h : HelperCtx) (m : Mem) : HelperCtx * Mem * u64 :=
  match h_tables h !! Z.to_nat (uv (c_arg1 c)) with
  | None => (mark_refused "lookup named a map index the host does not have" h, m, U64 0)
  | Some table =>
      let width := ly_key (layout table) in
      let key := read_vm (c_arg2 c) (c_mem c) width in
      if negb (length key =? width)%nat
      then (mark_refused "could not read a lookup key of the declared width" h, m, U64 0)
      else
        match tbl_lookup key table with
        | None => (h, m, U64 0)
        | Some value =>
            (h, {| m_packet := m_packet m; m_meta := m_meta m;
                   m_arena := copy_at 0 (take ARENA value) (m_arena m) |}, arena_ptr)
        end
  end.

Definition adjust_head (c : Call) (h : HelperCtx) (m : Mem) : HelperCtx * Mem * u64 :=
  if negb (uv (c_arg2 c) =? 0)
  then (mark_refused "ubpf_adjust_head with a non-zero delta (encapsulation)" h, m, U64 0)
  else (h, m, packet_ptr).

(** The helpers the host does not implement. *)
Definition refusal (helper : Z) : option string :=
  if helper =? MAP_UPDATE then Some "ubpf_map_update from the data plane"
  else if helper =? MAP_DELETE then Some "ubpf_map_delete from the data plane"
  else if helper =? MAP_ADD then Some "ubpf_map_add from the data plane"
  else if helper =? TIME_GET_NS then Some "ubpf_time_get_ns"
  else if helper =? HASH then Some "ubpf_hash"
  else if helper =? PRINTF then Some "ubpf_printf"
  else if helper =? TRUNCATE_PACKET then Some "ubpf_truncate_packet"
  else None.

(** The registered helpers; [None] is a number nothing is registered under,
    which the machine faults on. *)
Definition answer (c : Call) (h : HelperCtx) (m : Mem) : option (HelperCtx * Mem * u64) :=
  if c_helper c =? MAP_LOOKUP then Some (map_lookup c h m)
  else if c_helper c =? PACKET_DATA then Some (h, m, packet_ptr)
  else if c_helper c =? ADJUST_HEAD then Some (adjust_head c h m)
  else (fun what => (mark_refused what h, m, U64 0)) <$> refusal (c_helper c).

Fixpoint drive (h : HelperCtx) (r : Run) : result u64 string * Mem * option string :=
  match r with
  | Exit r m => (r, m, h_refused h)
  | Helper c m k =>
      match answer c h m with
      | None => (Err "unknown helper", m, h_refused h)
      | Some (h, m, x) => drive h (k x m)
      end
  end.

(** ** The machine *)

Class Rbpf (M : Type) := {
  rbpf_new : bytes -> result M string;
  jit_compile : M -> result M string;
  execute_program : ExecMode -> M -> bytes -> Mem -> Run;
}.

Inductive VmError :=
  | Rejected (e : string)
  | Refused (what : string)
  | FrameTooLong (got cap : nat).

Record Outcome := { pass : bool; output_port : u32; o_len : nat }.

Record Vm (M : Type) := { machine : M; v_mode : ExecMode; v_meta : bytes; v_packet : bytes; v_arena : bytes }.
Arguments machine {M} _.
Arguments v_mode {M} _.
Arguments v_meta {M} _.
Arguments v_packet {M} _.
Arguments v_arena {M} _.

(** [ldxdw r2, [r1 + 8]; ldxdw r1, [r1 + 0]] *)
Definition prologue : bytes :=
  map U8 [121; 18] ++ le_bytes 2 8 ++ map U8 [0; 0; 0; 0] ++
  map U8 [121; 17] ++ le_bytes 2 0 ++ map U8 [0; 0; 0; 0].

(** [Vm::with_mode] *)
Definition vm_with_mode `{Rbpf M} (program : ElfProgram) (mtu : nat) (mode : ExecMode) : result (Vm M) VmError :=
  let? vm := map_err Rejected (rbpf_new (prologue ++ text program)) in
  let? vm := match mode with
             | Jit => map_err (fun e => Rejected (String.append "jit: " e)) (jit_compile vm)
             | Interpreted => Ok vm
             end in
  Ok {| machine := vm; v_mode := mode; v_meta := replicate META_SIZE (U8 0);
        v_packet := replicate mtu (U8 0); v_arena := replicate ARENA (U8 0) |}.

(** The metadata of one run. *)
Definition meta_in (frame_len : nat) (ingress : u16) : bytes :=
  let len32 := default (U32 (umax 32)) (try_u 32 (Z.of_nat frame_len)) in
  copy_at OUTPUT_PORT (le_bytes 4 (uv NO_PORT))
    (copy_at PACKET_LENGTH (le_bytes 4 (uv len32))
      (copy_at INPUT_PORT (le_bytes 4 (uv ingress)) (replicate META_SIZE (U8 0)))).

Definition mbuff_in : bytes := le_bytes 8 (uv ctx_token) ++ le_bytes 8 (uv meta_ptr).

(** [Vm::run] *)
Definition vm_run `{Rbpf M} (frame : bytes) (ingress : u16) (tables : list Table) (v : Vm M)
    : Vm M * result Outcome VmError :=
  if (length (v_packet v) <? length frame)%nat
  then (v, Err (FrameTooLong (length frame) (length (v_packet v))))
  else
    let m := {| m_packet := copy_at 0 frame (v_packet v); m_meta := meta_in (length frame) ingress;
                m_arena := v_arena v |} in
    let '(r, m, refused) :=
      drive {| h_tables := tables; h_refused := None |} (execute_program (v_mode v) (machine v) mbuff_in m) in
    let v := {| machine := machine v; v_mode := v_mode v; v_meta := m_meta m;
                v_packet := m_packet m; v_arena := m_arena m |} in
    match refused with
    | Some what => (v, Err (Refused what))
    | None =>
        match r with
        | Err e => (v, Err (Rejected e))
        | Ok r =>
            (v, Ok {| pass := negb (uv r =? 0);
                      output_port := U32 (le_val (slice OUTPUT_PORT (OUTPUT_PORT + 4) (v_meta v)));
                      o_len := (Z.to_nat (le_val (slice PACKET_LENGTH (PACKET_LENGTH + 4) (v_meta v)))
                                `min` length (v_packet v))%nat |})
        end
    end.

(** ** Lemmas *)

(** A refusal stays: whatever the program does afterwards, the run is refused. *)
Lemma drive_refused h r : is_Some (h_refused h) -> is_Some (drive h r).2.
Proof.
  revert h. induction r as [r m | c m k IH]; intros h Hh; [done |]. cbn [drive].
  destruct (answer c h m) as [[[h' m'] x] |] eqn:Ha; [| done]. apply IH.
  unfold answer, map_lookup, adjust_head in Ha.
  repeat (case_match; simplify_eq/=; try done; eauto).
  apply fmap_Some in Ha as (what & _ & [= -> _ _]). done.
Qed.
