(* ===== verification/UbpfPipeline.v ===== *)
(** * The uBPF backend (crates/up4-ubpf/src/pipeline.rs)

    The translation at the two edges of the virtual machine: typed keys and
    actions into the struct images the compiled programs use, and the port the
    program leaves behind back into a verdict. *)

From S2P Require Import Prelude Maps Bytes Text Value Shim Table Publish Frame Headers Engine Catalog Programs.
From S2P Require Import L2Fwd L3Fwd P4 UbpfTable Objects Elf UbpfVm.

Local Open Scope Z_scope.

Definition MTU : nat := 2048.

Record ActionAbi := { a_name : string; disc : u32; fields : list (nat * nat) }.

Record TableAbi := {
  t_name : string;
  t_matching : Match;
  t_layout : Layout;
  t_actions : list ActionAbi;
  t_miss : string;
}.

Record UbpfDesc := {
  u_name : string;
  u_schemas : list TableSchema;
  u_object : bytes;
  u_tables : list TableAbi;
}.

Definition UL2FWD : UbpfDesc := {|
  u_name := "l2fwd/ubpf"; u_schemas := L2.SCHEMAS; u_object := l2fwd_o;
  u_tables := [{|
    t_name := "mac_dst"; t_matching := MExact; t_layout := scalar 8 2;
    t_actions := [{| a_name := "forward"; disc := U32 0; fields := [(4, 2)]%nat |};
                  {| a_name := "broadcast"; disc := U32 1; fields := [] |};
                  {| a_name := "drop"; disc := U32 2; fields := [] |}];
    t_miss := "broadcast";
  |}];
|}.

Definition UL3FWD : UbpfDesc := {|
  u_name := "l3fwd/ubpf"; u_schemas := L3.SCHEMAS; u_object := l3fwd_o;
  u_tables := [{|
    t_name := "ipv4_lpm"; t_matching := MLpm; t_layout := explicit 8 24 8 4 4;
    t_actions := [{| a_name := "forward"; disc := U32 0; fields := [(8, 2); (16, 8)]%nat |};
                  {| a_name := "punt"; disc := U32 1; fields := [] |};
                  {| a_name := "drop"; disc := U32 2; fields := [] |}];
    t_miss := "drop";
  |}];
|}.

Definition find_abi (d : UbpfDesc) (table : string) : option TableAbi :=
  find (fun t => bool_decide (t_name t = table)) (u_tables d).

Definition find_action (abi : TableAbi) (action : string) : option ActionAbi :=
  find (fun a => bool_decide (a_name a = action)) (t_actions abi).

(** [Desc::abi]; it panics on a table without a compiled shape. *)
Definition no_abi : TableAbi :=
  {| t_name := ""; t_matching := MExact; t_layout := explicit 0 0 0 0 0; t_actions := []; t_miss := "" |}.
Definition desc_abi (d : UbpfDesc) (table : string) : TableAbi := default no_abi (find_abi d table).

(** ** Images *)

Definition as_number (v : TypedVal) : Z :=
  match v with
  | ValU8 x => uv x
  | ValU16 x => uv x
  | ValU32 x => uv x
  | ValMac m => foldl (fun n b => Z.lor (Z.shiftl n 8) (uv b)) 0 (octets m)
  | ValIpv4 a => uv (be_u32 (ip_octets a))
  end.

(** [key_image] *)
Definition key_image (abi : TableAbi) (key : TypedKey) : bytes * byte :=
  let '(value, prefix) := match key with
                          | KeyExact v => (v, U8 0)
                          | KeyLpm v p => (v, p)
                          end in
  let n := le_bytes 8 (as_number value) in
  (copy_at (match_at (t_layout abi)) (take (match_len (t_layout abi)) n) (replicate (ly_key (t_layout abi)) (U8 0)),
   prefix).

(** [value_image] *)
Definition write_field (v : bytes) (e : (nat * nat) * TypedVal) : bytes :=
  let '((at_, width), p) := e in copy_at at_ (take width (le_bytes 8 (as_number p))) v.

Definition value_image (abi : TableAbi) (action : ActionAbi) (params : list TypedVal) : bytes :=
  let v := copy_at (action_at (t_layout abi)) (le_bytes 4 (uv (disc action)))
             (replicate (ly_value (t_layout abi)) (U8 0)) in
  foldl write_field v (zip (fields action) params).

(** ** The pipeline *)

Record UbpfPipeline := {
  u_desc : UbpfDesc;
  program : ElfProgram;
  u_shared : Shared (list Table);
  u_mode : ExecMode;
}.

(** The table of one map; [None] is a panic: a map no table of the description
    has, or a default action it does not declare. *)
Definition map_table (d : UbpfDesc) (m : MapRef) : option Table :=
  abi ← find_abi d (m_table m);
  if is_default m then
    let l := explicit 4 (ly_value (t_layout abi)) (params_at (t_layout abi)) 0 4 in
    act ← find_action abi (t_miss abi);
    table_new MExact l (Some (value_image abi act []))
  else table_new (t_matching abi) (t_layout abi) None.

(** [UbpfPipeline::with_mode]; [None] is a panic. *)
Definition with_mode (d : UbpfDesc) (mode : ExecMode) : option UbpfPipeline :=
  p ← to_option (Elf.load (u_object d));
  ts ← mapM (map_table d) (maps p);
  Some {| u_desc := d; program := p; u_shared := shared_new ts; u_mode := mode |}.

(** [entry_map] and [default_map]; they panic when there is none. *)
Definition entry_map (p : UbpfPipeline) (table : string) : nat :=
  default 0%nat (fst <$> list_find (fun m => m_table m = table /\ is_default m = false) (maps (program p))).
Definition default_map (p : UbpfPipeline) (table : string) : nat :=
  default 0%nat (fst <$> list_find (fun m => m_table m = table /\ is_default m = true) (maps (program p))).

Definition u_publish {R} (f : list Table -> list Table * R) (p : UbpfPipeline) : UbpfPipeline * R :=
  let '(s, r) := update f (u_shared p) in
  ({| u_desc := u_desc p; program := program p; u_shared := s; u_mode := u_mode p |}, r).

(** [next[idx].op()] *)
Definition at_map {R} (i : nat) (d : R) (f : Table -> Table * R) (ts : list Table) : list Table * R :=
  match ts !! i with
  | Some t => let '(t, r) := f t in (<[i := t]> ts, r)
  | None => (ts, d)
  end.

Definition u_action (abi : TableAbi) (table action : string) : result ActionAbi TableError :=
  ok_or (find_action abi action) (UnknownAction table action (a_name <$> t_actions abi)).

Definition u_add (table : string) (key : TypedKey) (action : string) (params : list TypedVal) (p : UbpfPipeline)
    : UbpfPipeline * result unit TableError :=
  try_op (find_schema (u_schemas (u_desc p)) table) p (fun schema =>
  try_op (check_key schema key) p (fun _ =>
  try_op (check schema action params) p (fun _ =>
  let abi := desc_abi (u_desc p) (table_name schema) in
  try_op (u_action abi (table_name schema) action) p (fun act =>
  let '(img, prefix) := key_image abi key in
  let value := value_image abi act params in
  let idx := entry_map p (table_name schema) in
  let '(p, _) := u_publish (at_map idx tt (fun t => (tbl_insert img prefix value t, tt))) p in
  (p, Ok tt))))).

Definition u_remove (table : string) (key : TypedKey) (p : UbpfPipeline) : UbpfPipeline * result unit TableError :=
  try_op (find_schema (u_schemas (u_desc p)) table) p (fun schema =>
  try_op (check_key schema key) p (fun _ =>
  let abi := desc_abi (u_desc p) (table_name schema) in
  let '(img, prefix) := key_image abi key in
  let idx := entry_map p (table_name schema) in
  let '(p, _) := u_publish (at_map idx false (tbl_remove img prefix)) p in
  (p, Ok tt))).

Definition u_clear (table : string) (p : UbpfPipeline) : UbpfPipeline * result nat TableError :=
  try_op (find_schema (u_schemas (u_desc p)) table) p (fun schema =>
  let idx := entry_map p (table_name schema) in
  let '(p, n) := u_publish (at_map idx 0%nat tbl_clear) p in
  (p, Ok n)).

(** [{n:#x}] *)
Fixpoint hex_aux (fuel : nat) (n : Z) (acc : list ascii) : list ascii :=
  match fuel with
  | O => acc
  | S f => if n <? 16 then digit_char n :: acc else hex_aux f (n / 16) (digit_char (n mod 16) :: acc)
  end.
Definition hex (n : Z) : list ascii := chars "0x" ++ hex_aux (S (Z.to_nat (Z.log2 n))) n [].

(** [u32::from_le_bytes(value.get(0..4)?)] and the action it names. *)
Definition action_of (abi : TableAbi) (value : bytes) : option string :=
  b ← get_range 0 4 value;
  a_name <$> find (fun a => bool_decide (uv (disc a) = le_val b)) (t_actions abi).

Definition param_text (value : bytes) (e : ParamSchema * (nat * nat)) : string * string :=
  let '(p, (at_, w)) := e in
  (param_name p, unchars (dec (default 0 (le_val <$> get_range at_ (at_ + w) value)))).

Definition u_describe (schema : TableSchema) (abi : TableAbi) (prefix : byte) (key value : bytes) : EntryDesc :=
  let n := le_val key in
  let key_text := match t_matching abi with
                  | MExact => hex n
                  | MLpm => hex n ++ "/"%char :: dec (uv prefix)
                  end in
  let action := default "?" (action_of abi value) in
  let params :=
    match schema_action schema action with
    | Some a =>
        param_text value <$> zip (action_params a) (match find_action abi action with Some x => fields x | None => [] end)
    | None => []
    end in
  {| entry_key := unchars key_text; entry_action := action; entry_params := list_to_map (reverse params) |}.

Definition u_dump (table : string) (p : UbpfPipeline) : result (list EntryDesc) TableError :=
  let? schema := find_schema (u_schemas (u_desc p)) table in
  let abi := desc_abi (u_desc p) (table_name schema) in
  let rows := match Publish.load (u_shared p) !! entry_map p (table_name schema) with
              | Some t => tbl_iter t
              | None => []
              end in
  Ok ((fun e => let '(prefix, k, v) := e in u_describe schema abi prefix k v) <$> rows).

Definition u_default (table : string) (p : UbpfPipeline) : result EntryDesc TableError :=
  let? schema := find_schema (u_schemas (u_desc p)) table in
  let abi := desc_abi (u_desc p) (table_name schema) in
  let v := default [] (t ← Publish.load (u_shared p) !! default_map p (table_name schema);
                       tbl_lookup (replicate 8 (U8 0)) t) in
  Ok {| entry_key := "*"; entry_action := default (t_miss abi) (action_of abi v); entry_params := ∅ |}.

Definition u_set_default (table action : string) (params : list TypedVal) (p : UbpfPipeline)
    : UbpfPipeline * result unit TableError :=
  try_op (find_schema (u_schemas (u_desc p)) table) p (fun schema =>
  try_op (check schema action params) p (fun _ =>
  let abi := desc_abi (u_desc p) (table_name schema) in
  try_op (u_action abi (table_name schema) action) p (fun act =>
  let value := value_image abi act params in
  let idx := default_map p (table_name schema) in
  let '(p, _) := u_publish (at_map idx tt (fun t => (tbl_set_default value t, tt))) p in
  (p, Ok tt)))).

#[export] Instance Ubpf_TableOps : TableOps UbpfPipeline := {
  schemas p := u_schemas (u_desc p);
  table_add := u_add;
  table_remove := u_remove;
  table_dump := u_dump;
  table_default := u_default;
  table_set_default := u_set_default;
  table_clear := u_clear;
}.

(** ** The engine *)

Record UbpfEngine (M : Type) := { ue_name : string; vm : Vm M; snapshot : list Table; ue_version : u64 }.
Arguments ue_name {M} _.
Arguments vm {M} _.
Arguments snapshot {M} _.
Arguments ue_version {M} _.

(** [engine]; [None] is a panic: the machine rejects the bytecode. *)
Definition u_engine `{Rbpf M} (p : UbpfPipeline) : option (UbpfEngine M) :=
  v ← to_option (vm_with_mode (program p) MTU (u_mode p));
  Some {| ue_name := u_name (u_desc p); vm := v; snapshot := Publish.load (u_shared p); ue_version := version (u_shared p) |}.

Definition u_refresh {M} (p : UbpfPipeline) (e : UbpfEngine M) : UbpfEngine M :=
  if decide (version (u_shared p) = ue_version e) then e
  else {| ue_name := ue_name e; vm := vm e; snapshot := Publish.load (u_shared p); ue_version := version (u_shared p) |}.

Definition with_vm {M} (v : Vm M) (e : UbpfEngine M) : UbpfEngine M :=
  {| ue_name := ue_name e; vm := v; snapshot := snapshot e; ue_version := ue_version e |}.

(** What an outcome means. *)
Definition u_verdict (out : result Outcome VmError) : Verdict :=
  match out with
  | Err _ => Drop
  | Ok o =>
      if negb (pass o) || bool_decide (output_port o = NO_PORT) then Drop
      else if decide (uv (output_port o) = uv PUNT_PORT) then Punt
      else if decide (uv (output_port o) = uv BROADCAST_PORT) then Broadcast
      else Forward (U16 (uv (output_port o)))
  end.

(** [UbpfEngine::process] *)
Definition u_process `{Rbpf M} (p : UbpfPipeline) (f : FrameCtx) (e : UbpfEngine M)
    : UbpfEngine M * FrameCtx * Verdict :=
  let e := u_refresh p e in
  let '(v, out) := vm_run (frame f) (ingress_vport f) (snapshot e) (vm e) in
  let e := with_vm v e in
  match u_verdict out with
  | Forward port => (e, frame_mut (fun _ => take (len f) (v_packet v)) f, Forward port)
  | vd => (e, f, vd)
  end.

#[export] Instance Ubpf_Engine `{Rbpf M} : Engine UbpfPipeline (UbpfEngine M) := {
  process := u_process;
  engine_name e := ue_name e;
}.

(** What [engine] mints, where [None] stands for its panic. *)
#[export] Instance Ubpf_Minted `{Rbpf M} : Engine UbpfPipeline (option (UbpfEngine M)) := {
  process p f o :=
    match o with
    | Some e => let '(e, f, v) := process p f e in (Some e, f, v)
    | None => (None, f, Drop)
    end;
  engine_name o := match o with Some e => ue_name e | None => EmptyString end;
}.

#[export] Instance Ubpf_EngineLaws `{Rbpf M} : EngineLaws UbpfPipeline (option (UbpfEngine M)).
Proof.
  split. intros p f [e |] Ho; [| done]. cbn. unfold u_process.
  destruct (vm_run _ _ _ _) as [v out]. destruct (u_verdict out); [| done | done | done]. by apply frame_mut_kept.
Qed.

#[export] Instance Ubpf_Pipeline `{Rbpf M} : Pipeline UbpfPipeline (option (UbpfEngine M)) := {
  pipeline_name p := u_name (u_desc p);
  engine := u_engine;
  mints p := bool_decide (is_Some (u_engine (M := M) p));
}.

(** ** Lemmas: numbers and images *)

Lemma lor_shiftl_add n (b : byte) : 0 <= n -> Z.lor (Z.shiftl n 8) (uv b) = n * 256 + uv b.
Proof.
  intros Hn. rewrite Z.shiftl_mul_pow2 by lia. change (2 ^ 8) with 256. symmetry.
  rewrite <- Z.lxor_lor, <- Z.add_nocarry_lxor; [done | |].
  all: apply Z.bits_inj'; intros i Hi; rewrite Z.land_spec, Z.bits_0; change 256 with (2 ^ 8);
    rewrite Z.mul_pow2_bits by lia; destruct (Z.ltb_spec i 8);
    [by rewrite (Z.testbit_neg_r _ (i - 8)) by lia | by rewrite testbit_byte, andb_false_r by done].
Qed.

Lemma foldl_number (l : bytes) n :
  0 <= n ->
  foldl (fun n b => Z.lor (Z.shiftl n 8) (uv b)) n l = foldl (fun n b => n * 256 + uv b) n l.
Proof.
  revert n. induction l as [| b l IH]; intros n Hn; [done |]. cbn [foldl].
  rewrite lor_shiftl_add by done. apply IH. word_ranges. lia.
Qed.

Lemma as_number_mac m : as_number (ValMac m) = be_val (octets m).
Proof.
  cbn [as_number]. rewrite foldl_number by done. destruct m as [a b c d e f]. cbn [octets foldl]. unfold be_val.
  change (reverse [a; b; c; d; e; f]) with [f; e; d; c; b; a]. cbn [le_val]. lia.
Qed.

Lemma as_number_range v : 0 <= as_number v < 2 ^ 64.
Proof.
  destruct v as [x | x | x | m | a].
  4: { rewrite as_number_mac. pose proof (be_val_bound (octets m)) as H. replace (length (octets m)) with 6%nat in H by by destruct m.
       change (256 ^ Z.of_nat 6) with 281474976710656 in H. lia. }
  all: cbn [as_number]; lazymatch goal with |- context [uv ?y] => pose proof (uint_range y) end; word_lia.
Qed.

Lemma as_number_mac_inj m1 m2 : as_number (ValMac m1) = as_number (ValMac m2) -> m1 = m2.
Proof.
  rewrite !as_number_mac. intros H. rewrite <- (mac_of_octets m1), <- (mac_of_octets m2). f_equal.
  apply be_val_inj; [by destruct m1, m2 | done].
Qed.

Lemma le_bytes_inj n x y : 0 <= x < 256 ^ Z.of_nat n -> 0 <= y < 256 ^ Z.of_nat n -> le_bytes n x = le_bytes n y -> x = y.
Proof. intros Hx Hy H%(f_equal le_val). rewrite !le_val_le_bytes, !Z.mod_small in H by done. done. Qed.

(** The image l2fwd's program looks a destination up by. *)
Definition mac_image (m : MacAddr) : bytes := le_bytes 8 (as_number (ValMac m)).

Lemma mac_image_inj m1 m2 : mac_image m1 = mac_image m2 -> m1 = m2.
Proof.
  intros H. apply as_number_mac_inj. revert H. apply le_bytes_inj; apply as_number_range.
Qed.

Lemma l2_key_image abi m :
  t_layout abi = scalar 8 2 -> key_image abi (KeyExact (ValMac m)) = (mac_image m, U8 0).
Proof.
  intros E. unfold key_image. rewrite E. cbn [match_at match_len ly_key scalar].
  rewrite take_ge by (rewrite length_le_bytes; lia).
  by rewrite copy_at_all by by rewrite length_le_bytes.
Qed.

Lemma l2_window m : window (scalar 8 2) (mac_image m) = mac_image m.
Proof.
  unfold window, get_range, mac_image. rewrite length_le_bytes. cbn [match_at match_len scalar].
  rewrite decide_True by lia. cbn [default]. rewrite drop_0. apply take_ge. rewrite length_le_bytes. lia.
Qed.

(** ** Lemmas: what the gates let through

    A call the schema accepts is the call of one action. *)

Definition l2_call (a : L2.Action) : string * list TypedVal :=
  match a with
  | L2.AForward port => ("forward", [ValU16 port])
  | L2.ABroadcast => ("broadcast", [])
  | L2.ADrop => ("drop", [])
  end.

Definition l3_call (a : L3.Action) : string * list TypedVal :=
  match a with
  | L3.AForward port dmac => ("forward", [ValU16 port; ValMac dmac])
  | L3.APunt => ("punt", [])
  | L3.ADrop => ("drop", [])
  end.

Lemma l2_find_schema t sch :
  find_schema L2.SCHEMAS t = Ok sch -> t = "mac_dst" /\ L2.SCHEMAS = [sch].
Proof. intros H. pose proof (find_schema_name _ _ _ H) as Hn. apply find_schema_in in H.
  apply elem_of_cons in H as [-> | H%not_elem_of_nil]; [| done]. done. Qed.

Lemma l3_find_schema t sch :
  find_schema L3.SCHEMAS t = Ok sch -> t = "ipv4_lpm" /\ L3.SCHEMAS = [sch].
Proof. intros H. pose proof (find_schema_name _ _ _ H) as Hn. apply find_schema_in in H.
  apply elem_of_cons in H as [-> | H%not_elem_of_nil]; [| done]. done. Qed.

Lemma l2_gate sch a ps :
  L2.SCHEMAS = [sch] ->
  match L2.from_call sch a ps with
  | Ok act => (a, ps) = l2_call act /\ is_ok (check sch a ps) = true
  | Err _ => is_ok (check sch a ps) = false
  end.
Proof.
  intros [= <-]. destruct (decide (a = "forward")) as [-> |]; [| destruct (decide (a = "broadcast")) as [-> |];
    [| destruct (decide (a = "drop")) as [-> |]]].
  - destruct ps as [| [] [| ? ?]]; vm_compute; done || (split; [| done]).
  - destruct ps as [| ? ?]; vm_compute; done.
  - destruct ps as [| ? ?]; vm_compute; done.
  - unfold L2.from_call, check, schema_action. cbn [actions find action_name].
    rewrite !bool_decide_eq_false_2 by done. done.
Qed.

Lemma l3_gate sch a ps :
  L3.SCHEMAS = [sch] ->
  match L3.from_call sch a ps with
  | Ok act => (a, ps) = l3_call act /\ is_ok (check sch a ps) = true
  | Err _ => is_ok (check sch a ps) = false
  end.
Proof.
  intros [= <-]. destruct (decide (a = "forward")) as [-> |]; [| destruct (decide (a = "punt")) as [-> |];
    [| destruct (decide (a = "drop")) as [-> |]]].
  - destruct ps as [| [] [| [] [| ? ?]]]; vm_compute; done || (split; [| done]).
  - destruct ps as [| ? ?]; vm_compute; done.
  - destruct ps as [| ? ?]; vm_compute; done.
  - unfold L3.from_call, check, schema_action. cbn [actions find action_name].
    rewrite !bool_decide_eq_false_2 by done. done.
Qed.

(** The value image of an action. *)
Definition call_image (abi : TableAbi) (call : string * list TypedVal) : bytes :=
  match find_action abi call.1 with
  | Some act => value_image abi act call.2
  | None => []
  end.

Definition abi_of (d : UbpfDesc) : TableAbi := default no_abi (head (u_tables d)).

Definition l2_image (a : L2.Action) : bytes := call_image (abi_of UL2FWD) (l2_call a).
Definition l3_image (a : L3.Action) : bytes := call_image (abi_of UL3FWD) (l3_call a).

(** What a program gets when it looks a key up: the entry map's answer, or the
    default-action map's when the first is NULL. *)
Definition program_lookup (ts : list Table) (key : bytes) : option bytes :=
  match t ← ts !! 0%nat; tbl_lookup key t with
  | Some v => Some v
  | None => t ← ts !! 1%nat; tbl_lookup (le_bytes 4 0) t
  end.

(** The two maps of a shipped program. *)
Definition two_maps (d : UbpfDesc) (p : UbpfPipeline) : Prop :=
  u_desc p = d /\
  (fun m => (m_table m, is_default m)) <$> maps (program p) =
    [(t_name (abi_of d), false); (t_name (abi_of d), true)].

Lemma shipped_two_maps mode :
  (exists p, with_mode UL2FWD mode = Some p /\ two_maps UL2FWD p) /\
  (exists p, with_mode UL3FWD mode = Some p /\ two_maps UL3FWD p).
Proof. split; (eexists; split; [vm_compute; reflexivity | split; vm_compute; reflexivity]). Qed.

Lemma two_maps_index d p :
  two_maps d p -> entry_map p (t_name (abi_of d)) = 0%nat /\ default_map p (t_name (abi_of d)) = 1%nat.
Proof.
  intros [_ H]. unfold entry_map, default_map.
  destruct (maps (program p)) as [| m1 [| m2 [| ? ?]]]; try done. injection H as H1 H2 H3 H4. cbn [list_find].
  rewrite (decide_True (P := m_table m1 = _ /\ _)) by done.
  rewrite (decide_False (P := m_table m1 = _ /\ _)) by (intros [_ E]; congruence).
  rewrite (decide_True (P := m_table m2 = _ /\ _)) by done. done.
Qed.

Lemma two_maps_publish {R} (f : list Table -> list Table * R) d p :
  two_maps d p -> two_maps d (u_publish f p).1 /\
  Publish.load (u_shared (u_publish f p).1) = (f (Publish.load (u_shared p))).1.
Proof. unfold u_publish, update, two_maps, Publish.load. by destruct (f _). Qed.

(** The control-plane half of a request. *)
Definition control `{TableOps T} (r : Request) (s : T) : T :=
  match r with
  | RAdd t k a ps => (table_add t k a ps s).1
  | RRemove t k => (table_remove t k s).1
  | RSetDefault t a ps => (table_set_default t a ps s).1
  | RClear t => (table_clear t s).1
  | _ => s
  end.

Definition controls `{TableOps T} (rs : list Request) (s : T) : T := foldl (fun s r => control r s) s rs.

(** ** l2fwd *)

Record l2_tables (ts : list Table) (s : L2.Spec) (te td : Table) : Prop := {
  lt_tables : ts = [te; td];
  lt_wf : exact_wf te;
  lt_layout : layout te = scalar 8 2;
  lt_miss : t_default te = None;
  lt_entries : exact_map te = kmap mac_image (l2_image <$> L2.fdb s);
  lt_default : exact_wf td /\ buckets td = [] /\ t_default td = Some (l2_image (L2.miss s));
}.

#[export] Instance mac_image_Inj : Inj (=) (=) mac_image := mac_image_inj.

Lemma l2_tables_lookup ts s te td mac :
  l2_tables ts s te td ->
  program_lookup ts (mac_image mac) = Some (l2_image (default (L2.miss s) (L2.fdb s !! mac))).
Proof.
  intros [-> Hw Hl Hm He (Hd1 & Hd2 & Hd3)]. unfold program_lookup. cbn [lookup list_lookup mbind option_bind].
  rewrite !exact_lookup, Hl, l2_window, He, (lookup_kmap mac_image), lookup_fmap, Hm by done.
  destruct (L2.fdb s !! mac); [done |]. cbn [fmap option_fmap option_map default].
  unfold exact_map. by rewrite Hd2, lookup_empty, Hd3.
Qed.

Definition l2_rel (p : UbpfPipeline) (s : L2.Spec) : Prop :=
  two_maps UL2FWD p /\ exists te td, l2_tables (Publish.load (u_shared p)) s te td.

Lemma l2_check_key sch k :
  L2.SCHEMAS = [sch] ->
  match exact_mac sch k with
  | Ok mac => k = KeyExact (ValMac mac) /\ check_key sch k = Ok tt
  | Err _ => is_ok (check_key sch k) = false
  end.
Proof. intros [= <-]. by destruct k as [[] | [] ?]. Qed.

Lemma l2_publish {R} i (d : R) f p s s' te td t' :
  two_maps UL2FWD p -> l2_tables (Publish.load (u_shared p)) s te td ->
  [te; td] !! i = Some t' ->
  (exists te' td', l2_tables (<[i := (f t').1]> [te; td]) s' te' td') ->
  l2_rel (u_publish (at_map i d f) p).1 s'.
Proof.
  intros Hp Ht Hi Hn. destruct (two_maps_publish (at_map i d f) _ p Hp) as [Hp' Hl].
  split; [done |]. rewrite Hl, (lt_tables _ _ _ _ Ht). unfold at_map. rewrite Hi. by destruct (f t').
Qed.

Lemma l2_action sch a ps act :
  L2.SCHEMAS = [sch] -> (a, ps) = l2_call act ->
  exists x, u_action (abi_of UL2FWD) (table_name sch) a = Ok x /\ value_image (abi_of UL2FWD) x ps = l2_image act.
Proof.
  intros _ Hcall. unfold l2_image, call_image. rewrite <- Hcall. cbn [fst snd].
  destruct act; injection Hcall as -> ->; eexists; (split; reflexivity).
Qed.

(** Look at what an operation published. *)
Ltac published p :=
  let p' := fresh "p" in let r' := fresh "r" in let E := fresh "Ep" in
  destruct (u_publish _ p) as [p' r'] eqn:E; cbn [fst]; change p' with (p', r').1; rewrite <- E; clear E p' r'.

Section l2_operations.
Variables (p : UbpfPipeline) (s : L2.Spec).
Hypothesis Hrel : l2_rel p s.

Lemma l2_facts :
  two_maps UL2FWD p /\ u_desc p = UL2FWD /\ desc_abi (u_desc p) "mac_dst" = abi_of UL2FWD /\
  entry_map p "mac_dst" = 0%nat /\ default_map p "mac_dst" = 1%nat.
Proof.
  destruct Hrel as [Hp _]. destruct (two_maps_index _ _ Hp) as [Hi1 Hi2]. pose proof Hp as [Hdesc _].
  split; [done | split; [done | split; [by rewrite Hdesc | done]]].
Qed.

Lemma l2_control_add t k a ps : l2_rel (u_add t k a ps p).1 (table_add t k a ps s).1.
Proof.
  destruct l2_facts as (Hp & Hdesc & Habi & Hi1 & Hi2). pose proof Hrel as [_ (te & td & Ht)].
  pose proof Ht as [E Hw Hl Hm He Hd]. unfold u_add. rewrite Hdesc. cbn [u_schemas UL2FWD table_add L2.Spec_TableOps].
  destruct (find_schema L2.SCHEMAS t) as [sch |] eqn:Es; cbn [try_op rbind fst]; [| done].
  apply l2_find_schema in Es as [-> Es]. pose proof (l2_check_key sch k Es) as Hk.
  destruct (exact_mac sch k) as [mac |]; cbn [rbind];
    [destruct Hk as [-> ->] | destruct (check_key sch k); [done | done]]. cbn [try_op].
  pose proof (l2_gate sch a ps Es) as Hg. destruct (L2.from_call sch a ps) as [act |]; cbn [rbind];
    [| by destruct (check sch a ps)]. destruct Hg as [Hcall Hck]. destruct (check sch a ps); [| done]. cbn [try_op].
  destruct (l2_action sch a ps act Es Hcall) as (x & Hx & Hv). injection Es as <-. cbn [table_name] in *.
  rewrite <- Hdesc, Habi, Hx. cbn [try_op]. rewrite (l2_key_image (abi_of UL2FWD)), Hv, Hi1 by done.
  published p. eapply l2_publish; [done | done | done |]. cbn [fst].
  destruct (exact_insert (mac_image mac) (U8 0) (l2_image act) te Hw) as (I1 & I2 & I3 & I4).
  eexists _, td. split; try done; [by rewrite I3 | by rewrite I4 |].
  cbn [L2.fdb fst]. by rewrite I2, Hl, l2_window, He, fmap_insert, (kmap_insert mac_image).
Qed.

Lemma l2_control_remove t k : l2_rel (u_remove t k p).1 (table_remove t k s).1.
Proof.
  destruct l2_facts as (Hp & Hdesc & Habi & Hi1 & Hi2). pose proof Hrel as [_ (te & td & Ht)].
  pose proof Ht as [E Hw Hl Hm He Hd]. unfold u_remove. rewrite Hdesc. cbn [u_schemas UL2FWD table_remove L2.Spec_TableOps].
  destruct (find_schema L2.SCHEMAS t) as [sch |] eqn:Es; cbn [try_op rbind fst]; [| done].
  apply l2_find_schema in Es as [-> Es]. pose proof (l2_check_key sch k Es) as Hk.
  destruct (exact_mac sch k) as [mac |]; cbn [rbind];
    [destruct Hk as [-> ->] | destruct (check_key sch k); [done | done]]. cbn [try_op].
  injection Es as <-. cbn [table_name]. rewrite <- Hdesc, Habi, (l2_key_image (abi_of UL2FWD)), Hi1 by done.
  lazymatch goal with |- l2_rel _ ?x =>
    assert (x = {| L2.fdb := delete mac (L2.fdb s); L2.miss := L2.miss s |}) as ->
      by (destruct (L2.fdb s !! mac) eqn:Em; [done | cbn; rewrite delete_id by done; by destruct s]) end.
  published p. eapply l2_publish; [done | done | done |]. cbn [fst].
  destruct (exact_remove (mac_image mac) (U8 0) te Hw) as (I1 & I2 & I3 & I4 & I5).
  eexists _, td. split; try done; [by rewrite I4 | by rewrite I5 |].
  by rewrite I2, Hl, l2_window, He, <- (kmap_delete mac_image), <- fmap_delete.
Qed.

Lemma l2_control_set_default t a ps : l2_rel (u_set_default t a ps p).1 (table_set_default t a ps s).1.
Proof.
  destruct l2_facts as (Hp & Hdesc & Habi & Hi1 & Hi2). pose proof Hrel as [_ (te & td & Ht)].
  pose proof Ht as [E Hw Hl Hm He (Hd1 & Hd2 & Hd3)].
  unfold u_set_default. rewrite Hdesc. cbn [u_schemas UL2FWD table_set_default L2.Spec_TableOps].
  destruct (find_schema L2.SCHEMAS t) as [sch |] eqn:Es; cbn [try_op rbind fst]; [| done].
  apply l2_find_schema in Es as [-> Es].
  pose proof (l2_gate sch a ps Es) as Hg. destruct (L2.from_call sch a ps) as [act |]; cbn [rbind];
    [| by destruct (check sch a ps)]. destruct Hg as [Hcall Hck]. destruct (check sch a ps); [| done]. cbn [try_op].
  destruct (l2_action sch a ps act Es Hcall) as (x & Hx & Hv). injection Es as <-. cbn [table_name] in *.
  rewrite <- Hdesc, Habi, Hx. cbn [try_op]. rewrite Hv, Hi2.
  published p. eapply l2_publish; [done | done | done |]. cbn [fst]. eexists te, _. by split.
Qed.

Lemma l2_control_clear t : l2_rel (u_clear t p).1 (table_clear t s).1.
Proof.
  destruct l2_facts as (Hp & Hdesc & Habi & Hi1 & Hi2). pose proof Hrel as [_ (te & td & Ht)].
  pose proof Ht as [E Hw Hl Hm He Hd]. unfold u_clear. rewrite Hdesc. cbn [u_schemas UL2FWD table_clear L2.Spec_TableOps].
  destruct (find_schema L2.SCHEMAS t) as [sch |] eqn:Es; cbn [try_op rbind fst]; [| done].
  apply l2_find_schema in Es as [-> Es]. injection Es as <-. cbn [table_name]. rewrite Hi1.
  published p. eapply l2_publish; [done | done | done |]. cbn [fst].
  destruct (exact_clear te Hw) as (I1 & I2 & I3 & I4 & I5). eexists _, td. by split.
Qed.
End l2_operations.

Lemma l2_control r p s : l2_rel p s -> l2_rel (control r p) (control r s).
Proof.
  intros Hrel. destruct r; cbn [control]; try done;
    [by apply l2_control_add | by apply l2_control_remove | by apply l2_control_set_default | by apply l2_control_clear].
Qed.

(** ** l3fwd *)

(** The image l3fwd's program looks a destination up by. *)
Definition dst_image (a : Ipv4Addr) : bytes := (key_image (abi_of UL3FWD) (KeyLpm (ValIpv4 a) (U8 0))).1.

Lemma l3_key_image a p : key_image (abi_of UL3FWD) (KeyLpm (ValIpv4 a) p) = (dst_image a, p).
Proof. done. Qed.

Lemma l3_window a : window (explicit 8 24 8 4 4) (dst_image a) = addr_image (ip_u32 a).
Proof.
  unfold dst_image, key_image, addr_image, ip_u32.
  cbn [fst abi_of UL3FWD head u_tables default t_layout match_at match_len ly_key explicit as_number].
  generalize (uv (be_u32 (ip_octets a))) as z. intros z. reflexivity.
Qed.

Lemma longest_fmap {A B} (f : A -> B) (m : gmap Ipv4Prefix A) key n :
  Lpm.longest (f <$> m) key n = f <$> Lpm.longest m key n.
Proof.
  induction n as [| n IH]; cbn [Lpm.longest]; rewrite lookup_fmap; destruct (m !! _); done || exact IH.
Qed.

Record l3_tables (ts : list Table) (s : L3.Spec) (te td : Table) (n : Lpm.LpmTable (option bytes)) : Prop := {
  l3t_tables : ts = [te; td];
  l3t_layout : layout te = explicit 8 24 8 4 4;
  l3t_rel : table_rel te n;
  l3t_wf : Lpm.wf n;
  l3t_miss : Lpm.default_action n = None;
  l3t_entries : Lpm.routes n = (fun a => Some (l3_image a)) <$> L3.routes s;
  l3t_default : exact_wf td /\ buckets td = [] /\ t_default td = Some (l3_image (L3.miss s));
}.

Lemma l3_tables_lookup ts s te td n a :
  l3_tables ts s te td n ->
  program_lookup ts (dst_image a) = Some (l3_image (default (L3.miss s) (Lpm.longest (L3.routes s) (ip_u32 a) 32))).
Proof.
  intros [-> Hl Hr Hw Hm He (Hd1 & Hd2 & Hd3)]. unfold program_lookup. cbn [lookup list_lookup mbind option_bind].
  rewrite (lookup_rel dst_image (explicit 8 24 8 4 4) eq_refl l3_window te n a Hr Hl), Lpm.apply_longest, Hm, He, longest_fmap by done.
  destruct (Lpm.longest _ _ _); [done |]. cbn [fmap option_fmap option_map default].
  rewrite exact_lookup by done. unfold exact_map. by rewrite Hd2, lookup_empty, Hd3.
Qed.

Definition l3_rel (p : UbpfPipeline) (s : L3.Spec) : Prop :=
  two_maps UL3FWD p /\ exists te td n, l3_tables (Publish.load (u_shared p)) s te td n.

(** Prefix lengths an IPv4 address has. *)
Definition in_range (r : Request) : Prop :=
  match r with
  | RAdd _ (KeyLpm _ len) _ _ | RRemove _ (KeyLpm _ len) => uv len <= 32
  | _ => True
  end.

Lemma l3_check_key sch k :
  L3.SCHEMAS = [sch] -> (match k with KeyLpm _ len => uv len <= 32 | _ => True end) ->
  match lpm_ipv4 sch k with
  | Ok q => exists a len, k = KeyLpm (ValIpv4 a) len /\ uv len <= 32 /\ q = prefix_of (ip_u32 a) len /\ check_key sch k = Ok tt
  | Err _ => is_ok (check_key sch k) = false
  end.
Proof.
  intros [= <-]. destruct k as [[] | [] len]; try done. intros Hlen. cbn [lpm_ipv4].
  rewrite (proj2 (prefix_new_Some _ len _)) by done. cbn. by eexists _, _.
Qed.

Lemma l3_publish {R} i (d : R) f p s s' te td n t' :
  two_maps UL3FWD p -> l3_tables (Publish.load (u_shared p)) s te td n ->
  [te; td] !! i = Some t' ->
  (exists te' td' n', l3_tables (<[i := (f t').1]> [te; td]) s' te' td' n') ->
  l3_rel (u_publish (at_map i d f) p).1 s'.
Proof.
  intros Hp Ht Hi Hn. destruct (two_maps_publish (at_map i d f) _ p Hp) as [Hp' Hl].
  split; [done |]. rewrite Hl, (l3t_tables _ _ _ _ _ Ht). unfold at_map. rewrite Hi. by destruct (f t').
Qed.

Lemma l3_action sch a ps act :
  L3.SCHEMAS = [sch] -> (a, ps) = l3_call act ->
  exists x, u_action (abi_of UL3FWD) (table_name sch) a = Ok x /\ value_image (abi_of UL3FWD) x ps = l3_image act.
Proof.
  intros _ Hcall. unfold l3_image, call_image. rewrite <- Hcall. cbn [fst snd].
  destruct act; injection Hcall as -> ->; eexists; (split; reflexivity).
Qed.

(** The canonical prefix of a gated key keeps the native table's invariant. *)
Lemma prefix_of_wf a (len : byte) : uv len <= 32 -> prefix_wf (prefix_of (ip_u32 a) len).
Proof. intros H. apply (prefix_new_wf a len). by apply prefix_new_Some. Qed.

Section l3_operations.
Variables (p : UbpfPipeline) (s : L3.Spec).
Hypothesis Hrel : l3_rel p s.

Lemma l3_facts :
  two_maps UL3FWD p /\ u_desc p = UL3FWD /\ desc_abi (u_desc p) "ipv4_lpm" = abi_of UL3FWD /\
  entry_map p "ipv4_lpm" = 0%nat /\ default_map p "ipv4_lpm" = 1%nat.
Proof.
  destruct Hrel as [Hp _]. destruct (two_maps_index _ _ Hp) as [Hi1 Hi2]. pose proof Hp as [Hdesc _].
  split; [done | split; [done | split; [by rewrite Hdesc | done]]].
Qed.

Lemma l3_control_add t k a ps :
  in_range (RAdd t k a ps) -> l3_rel (u_add t k a ps p).1 (table_add t k a ps s).1.
Proof.
  intros Hin. destruct l3_facts as (Hp & Hdesc & Habi & Hi1 & Hi2). pose proof Hrel as [_ (te & td & n & Ht)].
  pose proof Ht as [E Hl Hr Hw Hm He Hd]. unfold u_add. rewrite Hdesc. cbn [u_schemas UL3FWD table_add L3.Spec_TableOps].
  destruct (find_schema L3.SCHEMAS t) as [sch |] eqn:Es; cbn [try_op rbind fst]; [| done].
  apply l3_find_schema in Es as [-> Es]. pose proof (l3_check_key sch k Es ltac:(by destruct k)) as Hk.
  destruct (lpm_ipv4 sch k) as [q |]; cbn [rbind];
    [destruct Hk as (addr & len & -> & Hlen & -> & ->) | destruct (check_key sch k); [done | done]]. cbn [try_op].
  pose proof (l3_gate sch a ps Es) as Hg. destruct (L3.from_call sch a ps) as [act |]; cbn [rbind];
    [| by destruct (check sch a ps)]. destruct Hg as [Hcall Hck]. destruct (check sch a ps); [| done]. cbn [try_op].
  destruct (l3_action sch a ps act Es Hcall) as (x & Hx & Hv). injection Es as <-. cbn [table_name] in *.
  rewrite <- Hdesc, Habi, Hx. cbn [try_op]. rewrite l3_key_image, Hv, Hi1.
  published p. eapply l3_publish; [done | done | done |]. cbn [fst].
  destruct (insert_rel dst_image (explicit 8 24 8 4 4) eq_refl l3_window te n addr len (l3_image act) Hr Hl Hlen) as [I1 I2].
  destruct (Lpm.insert_spec (prefix_of (ip_u32 addr) len) (Some (l3_image act)) n Hw (prefix_of_wf _ _ Hlen))
    as (N1 & N2 & _ & N4).
  eexists _, td, _. split; try done; [by rewrite N4 |]. cbn [fst L3.routes]. by rewrite N2, He, fmap_insert.
Qed.

Lemma l3_control_remove t k :
  in_range (RRemove t k) -> l3_rel (u_remove t k p).1 (table_remove t k s).1.
Proof.
  intros Hin. destruct l3_facts as (Hp & Hdesc & Habi & Hi1 & Hi2). pose proof Hrel as [_ (te & td & n & Ht)].
  pose proof Ht as [E Hl Hr Hw Hm He Hd]. unfold u_remove. rewrite Hdesc. cbn [u_schemas UL3FWD table_remove L3.Spec_TableOps].
  destruct (find_schema L3.SCHEMAS t) as [sch |] eqn:Es; cbn [try_op rbind fst]; [| done].
  apply l3_find_schema in Es as [-> Es]. pose proof (l3_check_key sch k Es ltac:(by destruct k)) as Hk.
  destruct (lpm_ipv4 sch k) as [q |]; cbn [rbind];
    [destruct Hk as (addr & len & -> & Hlen & -> & ->) | destruct (check_key sch k); [done | done]]. cbn [try_op].
  injection Es as <-. cbn [table_name]. rewrite <- Hdesc, Habi, l3_key_image, Hi1.
  set (q := prefix_of (ip_u32 addr) len).
  lazymatch goal with |- l3_rel _ ?x =>
    assert (x = {| L3.routes := delete q (L3.routes s); L3.miss := L3.miss s |}) as ->
      by (destruct (L3.routes s !! q) eqn:Em; [done | cbn; rewrite delete_id by done; by destruct s]) end.
  published p. eapply l3_publish; [done | done | done |]. cbn [fst].
  destruct (remove_rel dst_image (explicit 8 24 8 4 4) eq_refl l3_window te n addr len Hr Hl Hlen) as (I1 & _ & I3).
  destruct (Lpm.remove_spec (prefix_of (ip_u32 addr) len) n Hw) as (N1 & N2 & _ & N4).
  eexists _, td, _. split; try done; [by rewrite N4 |]. cbn [L3.routes]. by rewrite N2, He, <- fmap_delete.
Qed.

Lemma l3_control_set_default t a ps : l3_rel (u_set_default t a ps p).1 (table_set_default t a ps s).1.
Proof.
  destruct l3_facts as (Hp & Hdesc & Habi & Hi1 & Hi2). pose proof Hrel as [_ (te & td & n & Ht)].
  pose proof Ht as [E Hl Hr Hw Hm He (Hd1 & Hd2 & Hd3)].
  unfold u_set_default. rewrite Hdesc. cbn [u_schemas UL3FWD table_set_default L3.Spec_TableOps].
  destruct (find_schema L3.SCHEMAS t) as [sch |] eqn:Es; cbn [try_op rbind fst]; [| done].
  apply l3_find_schema in Es as [-> Es].
  pose proof (l3_gate sch a ps Es) as Hg. destruct (L3.from_call sch a ps) as [act |]; cbn [rbind];
    [| by destruct (check sch a ps)]. destruct Hg as [Hcall Hck]. destruct (check sch a ps); [| done]. cbn [try_op].
  destruct (l3_action sch a ps act Es Hcall) as (x & Hx & Hv). injection Es as <-. cbn [table_name] in *.
  rewrite <- Hdesc, Habi, Hx. cbn [try_op]. rewrite Hv, Hi2.
  published p. eapply l3_publish; [done | done | done |]. cbn [fst]. eexists te, _, n. by split.
Qed.

Lemma l3_control_clear t : l3_rel (u_clear t p).1 (table_clear t s).1.
Proof.
  destruct l3_facts as (Hp & Hdesc & Habi & Hi1 & Hi2). pose proof Hrel as [_ (te & td & n & Ht)].
  pose proof Ht as [E Hl Hr Hw Hm He Hd]. unfold u_clear. rewrite Hdesc. cbn [u_schemas UL3FWD table_clear L3.Spec_TableOps].
  destruct (find_schema L3.SCHEMAS t) as [sch |] eqn:Es; cbn [try_op rbind fst]; [| done].
  apply l3_find_schema in Es as [-> Es]. injection Es as <-. cbn [table_name]. rewrite Hi1.
  published p. eapply l3_publish; [done | done | done |]. cbn [fst].
  destruct (Lpm.clear_spec n) as (N1 & N2 & N3).
  eexists _, td, (Lpm.clear n).1. destruct Hr as [R1 R2 R3 R4]. by split.
Qed.
End l3_operations.

Lemma l3_control r p s : in_range r -> l3_rel p s -> l3_rel (control r p) (control r s).
Proof.
  intros Hin Hrel. destruct r; cbn [control]; try done;
    [by apply l3_control_add | by apply l3_control_remove | by apply l3_control_set_default | by apply l3_control_clear].
Qed.

(** What [with_mode] starts from. *)
Lemma shipped_tables mode :
  ((fun p => Publish.load (u_shared p)) <$> with_mode UL2FWD mode) =
    Some [{| matching := MExact; layout := scalar 8 2; buckets := []; t_default := None |};
          {| matching := MExact; layout := explicit 4 8 4 0 4; buckets := [];
             t_default := Some (l2_image L2.ABroadcast) |}] /\
  ((fun p => Publish.load (u_shared p)) <$> with_mode UL3FWD mode) =
    Some [{| matching := MLpm; layout := explicit 8 24 8 4 4; buckets := []; t_default := None |};
          {| matching := MExact; layout := explicit 4 24 8 0 4; buckets := [];
             t_default := Some (l3_image L3.ADrop) |}].
Proof. split; vm_compute; reflexivity. Qed.

Lemma shipped_start mode :
  (exists p, with_mode UL2FWD mode = Some p /\ l2_rel p L2.spec_new) /\
  (exists p, with_mode UL3FWD mode = Some p /\ l3_rel p L3.spec_new).
Proof.
  destruct (shipped_two_maps mode) as [(p2 & Hp2 & Hm2) (p3 & Hp3 & Hm3)].
  destruct (shipped_tables mode) as [T2 T3]. rewrite Hp2 in T2. rewrite Hp3 in T3.
  apply (inj Some) in T2, T3. split.
  - exists p2. split; [done |]. split; [done |]. eexists _, _.
    split; [exact T2 | by split | reflexivity | reflexivity | | repeat split].
    cbn [exact_map buckets L2.fdb L2.spec_new]. by rewrite fmap_empty, (kmap_empty mac_image).
  - exists p3. split; [done |]. split; [done |]. eexists _, _, (Lpm.new None).
    split; [exact T3 | reflexivity | | apply Lpm.wf_new | reflexivity | | repeat split].
    + split; [reflexivity | reflexivity | constructor | reflexivity].
    + cbn [L3.routes L3.spec_new]. by rewrite fmap_empty.
Qed.

(** ** Properties *)

(** C35: this backend's tables are the native backend's tables.  Loaded from the
    committed objects and driven through any sequence of control operations
    (with IPv4 prefix lengths, in l3fwd's case), what the bytecode gets when it
    looks a destination up, entry map first and default map on NULL, is the
    image of the very action the specification of the native program takes for
    that destination. *)
Theorem ubpf_lookup_is_native (mode : ExecMode) (rs : list Request) :
  (exists p, with_mode UL2FWD mode = Some p /\
     forall mac, let s := controls rs L2.spec_new in
       program_lookup (Publish.load (u_shared (controls rs p))) (mac_image mac) =
         Some (l2_image (default (L2.miss s) (L2.fdb s !! mac)))) /\
  (Forall in_range rs ->
   exists p, with_mode UL3FWD mode = Some p /\
     forall addr, let s := controls rs L3.spec_new in
       program_lookup (Publish.load (u_shared (controls rs p))) (dst_image addr) =
         Some (l3_image (default (L3.miss s) (Lpm.longest (L3.routes s) (ip_u32 addr) 32)))).
Proof.
  destruct (shipped_start mode) as [(p2 & Hp2 & R2) (p3 & Hp3 & R3)]. split.
  - exists p2. split; [done |]. intros mac s.
    assert (l2_rel (controls rs p2) s) as [_ (te & td & Ht)]; [| by eapply l2_tables_lookup].
    unfold s, controls. clear Hp2 s mac. generalize L2.spec_new p2 R2. clear.
    induction rs as [| r rs IH]; intros s p Hr; [done |]. cbn [foldl]. by apply IH, l2_control.
  - intros Hin. exists p3. split; [done |]. intros addr s.
    assert (l3_rel (controls rs p3) s) as [_ (te & td & n & Ht)]; [| by eapply l3_tables_lookup].
    unfold s, controls. clear Hp3 s addr. revert R3. generalize L3.spec_new p3. clear p3 R2 p2 Hp2.
    induction Hin as [| r rs Hr Hin IH]; intros s p Hs; [done |]. cbn [foldl]. by apply IH, l3_control.
Qed.

Lemma ubpf_lookup_is_native_witness :
  let dmac := Mac (U8 2) (U8 0) (U8 0) (U8 0) (U8 0) (U8 1) in
  let addr n := Ipv4 (U8 10) (U8 0) (U8 0) (U8 n) in
  let key n len := KeyLpm (ValIpv4 (addr n)) (U8 len) in
  let rs := [RAdd "ipv4_lpm" (key 5 24) "forward" [ValU16 (U16 7); ValMac dmac];
             RAdd "ipv4_lpm" (key 5 32) "punt" []; RSetDefault "ipv4_lpm" "punt" [];
             RRemove "ipv4_lpm" (key 5 32)] in
  Forall in_range rs /\
  (exists p, with_mode UL3FWD Jit = Some p /\
     program_lookup (Publish.load (u_shared (controls rs p))) (dst_image (addr 9)) =
       Some (l3_image (L3.AForward (U16 7) dmac))).
Proof.
  intros dmac addr key rs.
  assert (Forall in_range rs) as Hin by (repeat constructor; vm_compute; discriminate).
  split; [exact Hin |].
  destruct (proj2 (ubpf_lookup_is_native Jit rs) Hin) as (p & Hp & H). exists p. split; [exact Hp |].
  refine (eq_trans (H (addr 9)) _). vm_compute. reflexivity.
Defined.
