(* ===== verification/Config.v ===== *)
(** * The configuration (crates/up4-config)

    What the harness gets to work with: the refined scalars ([Fabric],
    [VportId], [Threads]), the topology with both of its lookup directions
    ([VportTable]), and [RawConfig::validate], with the rules of a configuration
    and which of them it judges ([broken], [unjudged]).  Socket addresses are a parameter with the parser the code calls. *)

From S2P Require Import Prelude Bytes Text Wire.

Local Open Scope Z_scope.

(** ** Scalars *)

Inductive Fabric := V4 | V6.

#[export] Instance Fabric_eq_dec : EqDecision Fabric.
Proof. solve_decision. Defined.

Definition inner_mtu (f : Fabric) : nat := match f with V4 => INNER_MTU_V4 | V6 => INNER_MTU_V6 end.

Definition from_config_str (s : string) : option Fabric :=
  if bool_decide (s = "ipv4") then Some V4
  else if bool_decide (s = "ipv6") then Some V6 else None.

Definition as_str (f : Fabric) : string := match f with V4 => "ipv4" | V6 => "ipv6" end.

(** [VportId]: its private field and one constructor make the refusal of the
    punt id a part of the type. *)
Record VportId := VId { vport_id : u16; vport_id_ok : bool_decide (vport_id <> PUNT_VPORT) }.

Lemma VportId_eq a b : vport_id a = vport_id b -> a = b.
Proof. destruct a as [a Ha], b as [b Hb]. cbn. intros <-. f_equal. apply proof_irrel. Qed.

#[export] Instance VportId_eq_dec : EqDecision VportId.
Proof.
  intros a b. destruct (decide (vport_id a = vport_id b)) as [H | H]; [left; by apply VportId_eq |].
  right. by intros ->.
Defined.

Definition vport_id_new (raw : u16) : option VportId :=
  match decide (bool_decide (raw <> PUNT_VPORT)) with
  | left H => Some (VId raw H)
  | right _ => None
  end.

#[export] Instance VportId_countable : Countable VportId.
Proof.
  apply (inj_countable vport_id vport_id_new). intros [r Hr]. unfold vport_id_new. cbn.
  destruct (decide _) as [H | H]; [| done]. do 2 f_equal. apply proof_irrel.
Defined.

(** [Threads] *)
Definition THREADS_MIN : byte := U8 1.
Definition THREADS_MAX : byte := U8 16.

Definition threads_new (raw : byte) : option byte :=
  if (uv THREADS_MIN <=? uv raw) && (uv raw <=? uv THREADS_MAX) then Some raw else None.

(** ** Errors *)

Inductive ConfigError :=
  | TomlError (e : string)
  | BindError (value : string)
  | FabricError (value : string)
  | ThreadsError (value : Z)
  | UnknownPipeline (value : string) (known : list string)
  | EmptyNodeId
  | EmptyCtlSocket
  | PinCoresArity (given threads : nat)
  | NegativeCore (value : Z)
  | NoVports
  | VportIdError (value : Z)
  | DuplicateVportId (value : u16)
  | PeerError (vport : Z) (value : string)
  | DuplicatePeer (value : string) (first second : u16)
  | PeerIsSelf (vport : u16) (value : string)
  | PuntVportError (value : Z) (reserved : u16)
  | Internal (what : string).

Definition Errors : Type := list ConfigError.

(** [Errors::push] *)
Definition push_error (e : ConfigError) (errs : Errors) : Errors := errs ++ [e].

(** [Errors::require] *)
Definition require {A} (value : option A) (e : ConfigError) (errs : Errors) : Errors * option A :=
  (match value with None => push_error e errs | Some _ => errs end, value).

(** [Errors::into_result]; the error is a non-empty list. *)
Definition into_result {A} (errs : Errors) (built : option A) : result A Errors :=
  match built, errs with
  | Some v, [] => Ok v
  | _, _ :: _ => Err errs
  | None, [] => Err [Internal "refinement failed without recording a violation"]
  end.

(** ** The vport table *)

(** [SocketAddr] with [FromStr] and [Display]. *)
Class Addr (A : Type) := {
  addr_eq_dec :: EqDecision A;
  addr_countable :: Countable A;
  addr_parse : string -> option A;
  addr_to_string : A -> string;
}.

Record Vport (A : Type) := { vp_id : VportId; vp_peer : A }.
Arguments Build_Vport {A} _ _.
Arguments vp_id {A} _.
Arguments vp_peer {A} _.

(** [VportIdx]: a dense index, sixteen bits wide. *)
Record VportIdx := VIdx { vidx_raw : u16 }.

#[export] Instance VportIdx_eq_dec : EqDecision VportIdx.
Proof. solve_decision. Defined.

Definition vidx_get (i : VportIdx) : nat := Z.to_nat (uv (vidx_raw i)).

Record VportTable (A : Type) `{Addr A} := {
  vt_entries : list (Vport A);
  by_id : list (option VportIdx);
  by_peer : gmap A VportIdx;
}.
Arguments vt_entries {A _} _.
Arguments by_id {A _} _.
Arguments by_peer {A _} _.

(** The loop of [VportTable::build] over the entries from [slot] on. *)
Fixpoint build_loop `{Addr A} (all : list (Vport A)) (slot : nat) (rest : list (Vport A))
    (seen_id : gmap VportId VportIdx) (peers : gmap A VportIdx) (errs : Errors)
    : gmap VportId VportIdx * gmap A VportIdx * Errors :=
  match rest with
  | [] => (seen_id, peers, errs)
  | vp :: rest =>
      match try_u 16 (Z.of_nat slot) with
      | None => (seen_id, peers, errs)
      | Some slot16 =>
          let idx := VIdx slot16 in
          let errs := match seen_id !! vp_id vp with
                      | Some _ => push_error (DuplicateVportId (vport_id (vp_id vp))) errs
                      | None => errs
                      end in
          let errs := match peers !! vp_peer vp with
                      | Some first =>
                          push_error (DuplicatePeer (addr_to_string (vp_peer vp))
                            (match all !! vidx_get first with
                             | Some v => vport_id (vp_id v)
                             | None => inhabitant
                             end)
                            (vport_id (vp_id vp))) errs
                      | None => errs
                      end in
          build_loop all (S slot) rest (<[vp_id vp := idx]> seen_id) (<[vp_peer vp := idx]> peers) errs
      end
  end.

(** [entries.iter().map(|v| v.id.get()).max()] *)
Definition max_id {A} (entries : list (Vport A)) : option u16 :=
  match entries with
  | [] => None
  | _ => Some (foldr (fun v m => if uv m <? uv (vport_id (vp_id v)) then vport_id (vp_id v) else m) (U16 0) entries)
  end.

(** [VportTable::build] *)
Definition build `{Addr A} (entries : list (Vport A)) (errs : Errors) : Errors * option (VportTable A) :=
  let before := length errs in
  let '(seen_id, peers, errs) := build_loop entries 0 entries ∅ ∅ errs in
  if negb (length errs =? before)%nat then (errs, None)
  else
    (errs, m ← max_id entries;
           Some {| vt_entries := entries;
                   by_id := foldr (fun e l => <[Z.to_nat (uv (vport_id e.1)) := Some e.2]> l)
                              (replicate (S (Z.to_nat (uv m))) None) (map_to_list seen_id);
                   by_peer := peers |}).

Definition vt_len `{Addr A} (t : VportTable A) : nat := length (vt_entries t).

Definition vt_iter `{Addr A} (t : VportTable A) : list (VportIdx * Vport A) :=
  imap (fun slot vp => (VIdx (U16 (Z.of_nat slot)), vp)) (vt_entries t).

Definition idx_of_id `{Addr A} (t : VportTable A) (id : u16) : option VportIdx :=
  mjoin (by_id t !! Z.to_nat (uv id)).

Definition idx_of_peer `{Addr A} (t : VportTable A) (peer : A) : option VportIdx := by_peer t !! peer.

(** [VportTable::get]; indexing outside is a panic, [None] here. *)
Definition vt_get `{Addr A} (t : VportTable A) (i : VportIdx) : option (Vport A) := vt_entries t !! vidx_get i.

(** ** Validation *)

Record RawNode := {
  rn_id : string;
  rn_bind : string;
  rn_fabric : string;
  rn_pipeline : string;
  rn_threads : u32;
  rn_pin_cores : option (list Z);
  rn_ctl_socket : string;
  rn_metrics_interval_s : u64;
}.

Record RawVport := { rv_id : Z; rv_peer : string }.

Record RawConfig := { rc_node : RawNode; rc_vport : list RawVport; rc_punt : option Z }.

Definition default_fabric : string := as_str V4.
Definition default_threads : u32 := U32 1.
Definition default_metrics_interval_s : u64 := U64 5.

Record NodeConfig (A : Type) := {
  nc_id : string;
  nc_bind : A;
  nc_fabric : Fabric;
  nc_pipeline : string;
  nc_threads : byte;
  nc_pin_cores : list nat;
  nc_ctl_socket : string;
  nc_metrics_interval : option u64;
}.
Arguments nc_id {A} _.
Arguments nc_bind {A} _.
Arguments nc_fabric {A} _.
Arguments nc_pipeline {A} _.
Arguments nc_threads {A} _.
Arguments nc_pin_cores {A} _.
Arguments nc_ctl_socket {A} _.
Arguments nc_metrics_interval {A} _.

Record Config (A : Type) `{Addr A} := {
  c_node : NodeConfig A;
  c_vports : VportTable A;
  c_punt : option u16;
}.
Arguments c_node {A _} _.
Arguments c_vports {A _} _.
Arguments c_punt {A _} _.

(** The [filter_map] over [pin_cores]. *)
Fixpoint refine_cores (raw : list Z) (errs : Errors) : Errors * list nat :=
  match raw with
  | [] => (errs, [])
  | c :: raw =>
      if c <? 0 then refine_cores raw (push_error (NegativeCore c) errs)
      else let '(errs, l) := refine_cores raw errs in (errs, Z.to_nat c :: l)
  end.

Definition refine_pins (pins : option (list Z)) (threads : option byte) (errs : Errors) : Errors * list nat :=
  match pins with
  | None => (errs, [])
  | Some raw =>
      let errs := match threads with
                  | Some t => if negb (length raw =? Z.to_nat (uv t))%nat
                              then push_error (PinCoresArity (length raw) (Z.to_nat (uv t))) errs else errs
                  | None => errs
                  end in
      refine_cores raw errs
  end.

(** The [filter_map] over [[vport]]. *)
Definition refine_vport `{Addr A} (bind : option A) (v : RawVport) (errs : Errors) : Errors * option (Vport A) :=
  let '(errs, id) := require (r ← try_u 16 (rv_id v); vport_id_new r) (VportIdError (rv_id v)) errs in
  let '(errs, peer) := require (addr_parse (rv_peer v)) (PeerError (rv_id v) (rv_peer v)) errs in
  match id, peer with
  | Some id, Some peer =>
      let errs := if bool_decide (bind = Some peer)
                  then push_error (PeerIsSelf (vport_id id) (rv_peer v)) errs else errs in
      (errs, Some {| vp_id := id; vp_peer := peer |})
  | _, _ => (errs, None)
  end.

Fixpoint refine_vports `{Addr A} (bind : option A) (raw : list RawVport) (errs : Errors) : Errors * list (Vport A) :=
  match raw with
  | [] => (errs, [])
  | v :: raw =>
      let '(errs, x) := refine_vport bind v errs in
      let '(errs, l) := refine_vports bind raw errs in
      (errs, match x with Some x => x :: l | None => l end)
  end.

Definition refine_punt (punt : option Z) (errs : Errors) : Errors * option u16 :=
  match punt with
  | None => (errs, None)
  | Some p =>
      (if negb (p =? uv PUNT_VPORT) then push_error (PuntVportError p PUNT_VPORT) errs else errs, Some PUNT_VPORT)
  end.

(** The three checks of [validate] that keep no value. *)
Definition check_names (n : RawNode) (registry : list string) (errs : Errors) : Errors :=
  let errs := if bool_decide (rn_id n = EmptyString) then push_error EmptyNodeId errs else errs in
  let errs := if bool_decide (rn_ctl_socket n = EmptyString) then push_error EmptyCtlSocket errs else errs in
  if bool_decide (rn_pipeline n ∈ registry) then errs
  else push_error (UnknownPipeline (rn_pipeline n) registry) errs.

(** [RawConfig::validate] *)
Definition validate `{Addr A} (raw : RawConfig) (registry : list string) : result (Config A) Errors :=
  let n := rc_node raw in
  let '(errs, bind) := require (addr_parse (rn_bind n)) (BindError (rn_bind n)) [] in
  let '(errs, fabric) := require (from_config_str (rn_fabric n)) (FabricError (rn_fabric n)) errs in
  let '(errs, threads) := require (b ← try_u 8 (uv (rn_threads n)); threads_new b) (ThreadsError (uv (rn_threads n))) errs in
  let errs := check_names n registry errs in
  let '(errs, pin_cores) := refine_pins (rn_pin_cores n) threads errs in
  let errs := match rc_vport raw with [] => push_error NoVports errs | _ => errs end in
  let '(errs, vports) := refine_vports bind (rc_vport raw) errs in
  let '(errs, table) :=
    if (length vports =? length (rc_vport raw))%nat && negb (length vports =? 0)%nat
    then build vports errs else (errs, None) in
  let '(errs, punt) := refine_punt (rc_punt raw) errs in
  let built :=
    bind ← bind; fabric ← fabric; threads ← threads; table ← table;
    Some {| c_node := {| nc_id := rn_id n; nc_bind := bind; nc_fabric := fabric; nc_pipeline := rn_pipeline n;
                         nc_threads := threads; nc_pin_cores := pin_cores; nc_ctl_socket := rn_ctl_socket n;
                         nc_metrics_interval := if 0 <? uv (rn_metrics_interval_s n)
                                                then Some (rn_metrics_interval_s n) else None |};
            c_vports := table; c_punt := punt |} in
  into_result errs built.

(** ** The table's lemmas *)

Lemma vidx_get_eq i j : vidx_get i = vidx_get j -> i = j.
Proof. destruct i as [i], j as [j]. unfold vidx_get. cbn. intros H. f_equal. apply uint_eq. word_lia. Qed.

Lemma vidx_of_slot n (s : u16) : try_u 16 (Z.of_nat n) = Some s -> vidx_get (VIdx s) = n /\ Z.of_nat n < 65536.
Proof. intros H%try_u_Some. unfold vidx_get. cbn. word_lia. Qed.

Lemma slot_of_vidx i : U16 (Z.of_nat (vidx_get i)) = vidx_raw i.
Proof. destruct i as [i]. apply uint_eq. unfold vidx_get. cbn. rewrite uv_of. word_lia. Qed.

Section index.
Context `{Addr A} {K : Type} `{Countable K}.
Implicit Types (f : Vport A -> K) (l : list (Vport A)) (m : gmap K VportIdx).

(** [m] sends each key to the last entry that has it. *)
Definition last_index f l m : Prop :=
  forall k i, m !! k = Some i <->
    exists v, l !! vidx_get i = Some v /\ f v = k /\
      forall j v', (vidx_get i < j)%nat -> l !! j = Some v' -> f v' <> k.

Lemma last_index_nil f : last_index f [] ∅.
Proof. intros k i. rewrite lookup_empty. split; [done |]. by intros (v & Hv & _). Qed.

Lemma last_index_snoc f l m v i :
  last_index f l m -> vidx_get i = length l -> last_index f (l ++ [v]) (<[f v := i]> m).
Proof.
  intros Hm Hi k i'. rewrite lookup_insert. case_decide as Hk.
  - split.
    + intros [= <-]. exists v. rewrite Hi, lookup_app_r, Nat.sub_diag by lia. split; [done |]. split; [done |].
      intros j v' Hj Hl. apply lookup_lt_Some in Hl. rewrite length_app in Hl. cbn in Hl. lia.
    + intros (w & Hw & Hk' & Hmax). f_equal. apply vidx_get_eq. rewrite Hi.
      destruct (Nat.lt_trichotomy (vidx_get i') (length l)) as [Hlt | [-> | Hgt]]; [| done |].
      * exfalso. apply (Hmax (length l) v); [done | | done]. by rewrite lookup_app_r, Nat.sub_diag.
      * apply lookup_lt_Some in Hw. rewrite length_app in Hw. cbn in Hw. lia.
  - rewrite (Hm k i'). split.
    + intros (w & Hw & Hk' & Hmax). exists w. split; [by apply lookup_app_l_Some |]. split; [done |].
      intros j v' Hj [Hl | [Hj' Hl]]%lookup_app_Some; [by eapply Hmax |].
      apply list_lookup_singleton_Some in Hl as [_ <-]. done.
    + intros (w & [Hw | [Hj' Hl]]%lookup_app_Some & Hk' & Hmax).
      * exists w. split; [done |]. split; [done |]. intros j v' Hj Hl. eapply Hmax; [done |].
        by apply lookup_app_l_Some.
      * apply list_lookup_singleton_Some in Hl as [_ <-]. done.
Qed.

(** Without repetitions, that is the entry that has it. *)
Lemma last_index_NoDup f l m k i :
  NoDup (f <$> l) -> last_index f l m -> m !! k = Some i <-> exists v, l !! vidx_get i = Some v /\ f v = k.
Proof.
  intros Hnd Hm. rewrite (Hm k i). split; [intros (v & Hv & Hk & _); by exists v |].
  intros (v & Hv & <-). exists v.
  split; [done |]. split; [done |]. intros j v' Hj Hl Heq.
  assert (vidx_get i = j); [| lia].
  eapply (NoDup_lookup _ _ _ (f v) Hnd); rewrite list_lookup_fmap; [by rewrite Hv | by rewrite Hl; cbn; f_equal].
Qed.
End index.

Section build.
Context `{Addr A}.
Implicit Types (l all : list (Vport A)).

(** The uniqueness violations of a topology: an id that an earlier entry has,
    and a peer that an earlier entry has, reported against the last of those. *)
Definition repeats {K} (f : Vport A -> K) all (i j : nat) (w v : Vport A) : Prop :=
  (i < j)%nat /\ all !! i = Some w /\ all !! j = Some v /\ f w = f v /\
  forall k u, (i < k < j)%nat -> all !! k = Some u -> f u <> f v.

Definition dup_error all (from : nat) (e : ConfigError) : Prop :=
  exists i j w v, (from <= j)%nat /\ Z.of_nat j < 65536 /\
    ((repeats vp_id all i j w v /\ e = DuplicateVportId (vport_id (vp_id v))) \/
     (repeats vp_peer all i j w v /\
      e = DuplicatePeer (addr_to_string (vp_peer v)) (vport_id (vp_id w)) (vport_id (vp_id v)))).

Lemma repeats_last {K} `{Countable K} (f : Vport A -> K) pre v rest m i :
  last_index f pre m ->
  m !! f v = Some i <-> exists w, repeats f (pre ++ v :: rest) (vidx_get i) (length pre) w v.
Proof.
  intros Hm. rewrite (Hm (f v) i). unfold repeats. rewrite (list_lookup_middle pre rest v _ eq_refl).
  split.
  - intros (w & Hw & Hk & Hmax). exists w. pose proof (lookup_lt_Some _ _ _ Hw).
    rewrite lookup_app_l by done. repeat split; [done | done | done |].
    intros k u Hku. rewrite lookup_app_l by lia. apply Hmax. lia.
  - intros (w & Hi & Hw & _ & Hk & Hmax). rewrite lookup_app_l in Hw by done. exists w.
    split; [done |]. split; [done |]. intros j u Hj Hu. pose proof (lookup_lt_Some _ _ _ Hu).
    apply (Hmax j u); [lia |]. by rewrite lookup_app_l.
Qed.

Lemma repeats_None {K} `{Countable K} (f : Vport A -> K) pre v rest m :
  last_index f pre m -> Z.of_nat (length pre) < 65536 ->
  m !! f v = None <-> forall i w, ~ repeats f (pre ++ v :: rest) i (length pre) w v.
Proof.
  intros Hm Hlen. split.
  - intros Hn i w Hr. pose proof Hr as (Hi & _).
    assert (vidx_get (VIdx (U16 (Z.of_nat i))) = i) as Heq.
    { unfold vidx_get. cbn. rewrite uv_of. word_lia. }
    rewrite <- Heq in Hr. assert (m !! f v = Some (VIdx (U16 (Z.of_nat i)))) as Hs; [| congruence].
    apply (repeats_last f pre v rest m _ Hm). by exists w.
  - intros Hn. destruct (m !! f v) as [i |] eqn:E; [| done]. exfalso.
    apply (repeats_last f pre v rest m i Hm) in E as (w & Hw). by apply (Hn (vidx_get i) w).
Qed.

(** What one iteration reports. *)
Definition step_errors all (seen : gmap VportId VportIdx) (peers : gmap A VportIdx) (v : Vport A) : Errors :=
  match seen !! vp_id v with Some _ => [DuplicateVportId (vport_id (vp_id v))] | None => [] end ++
  match peers !! vp_peer v with
  | Some first =>
      [DuplicatePeer (addr_to_string (vp_peer v))
         (match all !! vidx_get first with Some w => vport_id (vp_id w) | None => inhabitant end)
         (vport_id (vp_id v))]
  | None => []
  end.

Lemma step_errors_spec pre v rest seen peers e :
  last_index vp_id pre seen -> last_index vp_peer pre peers -> Z.of_nat (length pre) < 65536 ->
  e ∈ step_errors (pre ++ v :: rest) seen peers v <->
  (exists i w, repeats vp_id (pre ++ v :: rest) i (length pre) w v /\ e = DuplicateVportId (vport_id (vp_id v))) \/
  (exists i w, repeats vp_peer (pre ++ v :: rest) i (length pre) w v /\ e = DuplicatePeer (addr_to_string (vp_peer v)) (vport_id (vp_id w)) (vport_id (vp_id v))).
Proof.
  intros H1 H2 Hlen. unfold step_errors. rewrite elem_of_app. f_equiv.
  - destruct (seen !! vp_id v) as [i |] eqn:E.
    + apply (repeats_last _ _ _ rest _ _ H1) in E as (w & Hw). rewrite list_elem_of_singleton. naive_solver.
    + pose proof (proj1 (repeats_None _ _ _ rest _ H1 Hlen) E) as Hn. rewrite elem_of_nil. naive_solver.
  - destruct (peers !! vp_peer v) as [i |] eqn:E.
    + apply (repeats_last _ _ _ rest _ _ H2) in E as (w & Hw). rewrite list_elem_of_singleton.
      pose proof Hw as (_ & -> & _). split; [naive_solver |]. intros (i' & w' & Hw' & ->).
      assert (vidx_get i = i') as <-.
      { destruct Hw as (L1 & W1 & _ & F1 & M1), Hw' as (L2 & W2 & _ & F2 & M2).
        destruct (Nat.lt_trichotomy (vidx_get i) i') as [Hlt | [Heq | Hgt]]; [| done |]; exfalso;
          [by apply (M1 i' w') | by apply (M2 (vidx_get i) w)]. }
      destruct Hw as (_ & W1 & _), Hw' as (_ & W2 & _). naive_solver.
    + pose proof (proj1 (repeats_None _ _ _ rest _ H2 Hlen) E) as Hn. rewrite elem_of_nil. naive_solver.
Qed.

Lemma dup_error_split all n v e :
  all !! n = Some v -> Z.of_nat n < 65536 ->
  dup_error all n e <->
  ((exists i w, repeats vp_id all i n w v /\ e = DuplicateVportId (vport_id (vp_id v))) \/
   (exists i w, repeats vp_peer all i n w v /\ e = DuplicatePeer (addr_to_string (vp_peer v)) (vport_id (vp_id w)) (vport_id (vp_id v)))) \/
  dup_error all (S n) e.
Proof.
  intros Hv Hn. split.
  - intros (i & j & w & v' & Hj & Hj' & Hd). destruct (decide (j = n)) as [-> | Hne].
    + left. assert (v' = v) as ->; [| naive_solver].
      destruct Hd as [((_ & _ & Hv' & _) & _) | ((_ & _ & Hv' & _) & _)]; congruence.
    + right. exists i, j, w, v'. split; [lia |]. done.
  - intros [[(i & w & Hr & ->) | (i & w & Hr & ->)] | (i & j & w & v' & Hj & Hd)].
    + exists i, n, w, v. split; [lia |]. split; [done |]. by left.
    + exists i, n, w, v. split; [lia |]. split; [done |]. by right.
    + exists i, j, w, v'. split; [lia |]. done.
Qed.

Lemma dup_error_end all n e : (length all <= n)%nat \/ 65536 <= Z.of_nat n -> ~ dup_error all n e.
Proof.
  intros Hn (i & j & w & v & Hj & Hj' & [((_ & _ & Hv & _) & _) | ((_ & _ & Hv & _) & _)]);
    apply lookup_lt_Some in Hv; lia.
Qed.

Lemma build_loop_spec all rest pre seen peers errs :
  all = pre ++ rest -> last_index vp_id pre seen -> last_index vp_peer pre peers ->
  let '(seen', peers', errs') := build_loop all (length pre) rest seen peers errs in
  (exists new, errs' = errs ++ new /\ forall e, e ∈ new <-> dup_error all (length pre) e) /\ (Z.of_nat (length all) <= 65536 -> last_index vp_id all seen' /\ last_index vp_peer all peers').
Proof.
  revert pre seen peers errs. induction rest as [| v rest IH]; intros pre seen peers errs Hall H1 H2; cbn [build_loop].
  - rewrite app_nil_r in Hall. subst all. split; [| done]. exists []. rewrite app_nil_r. split; [done |].
    intros e. rewrite elem_of_nil. split; [done |]. apply dup_error_end. by left.
  - assert (length all = length pre + S (length rest))%nat as Hlen by (subst all; apply length_app).
    destruct (try_u 16 (Z.of_nat (length pre))) as [s |] eqn:Es.
    + apply vidx_of_slot in Es as [Hs Hlt].
      lazymatch goal with |- context [build_loop _ _ _ _ _ ?x] =>
        assert (x = errs ++ step_errors all seen peers v) as -> end.
      { unfold step_errors, push_error. destruct (seen !! vp_id v), (peers !! vp_peer v);
          rewrite ?app_nil_r, ?app_nil_l, <- ?app_assoc; reflexivity. }
      specialize (IH (pre ++ [v]) (<[vp_id v := VIdx s]> seen) (<[vp_peer v := VIdx s]> peers)
        (errs ++ step_errors all seen peers v)).
      rewrite length_app in IH. cbn [length] in IH. rewrite Nat.add_1_r in IH.
      specialize (IH ltac:(by rewrite <- app_assoc) (last_index_snoc _ _ _ _ _ H1 Hs) (last_index_snoc _ _ _ _ _ H2 Hs)).
      destruct (build_loop _ _ _ _ _ _) as [[seen' peers'] errs']. destruct IH as [(new & -> & Hnew) Hidx].
      split; [| done]. exists (step_errors all seen peers v ++ new). split; [by rewrite app_assoc |].
      intros e. rewrite elem_of_app, Hnew.
      rewrite (dup_error_split all (length pre) v e) by (done || (subst all; by apply list_lookup_middle)).
      subst all. by rewrite step_errors_spec.
    + assert (65536 <= Z.of_nat (length pre)) as Hge.
      { unfold try_u in Es. destruct (in_width _ _) eqn:E; [done |].
        destruct (Z.lt_ge_cases (Z.of_nat (length pre)) 65536); [| done].
        rewrite (proj2 (in_width_spec 16 _)) in E by (cbn; lia). done. }
      split; [| lia]. exists []. rewrite app_nil_r. split; [done |]. intros e. rewrite elem_of_nil. split; [done |].
      apply dup_error_end. by right.
Qed.

Lemma last_occurrence {K} `{EqDecision K} (f : Vport A -> K) all v i j w :
  (i < j)%nat -> all !! i = Some w -> all !! j = Some v -> f w = f v ->
  exists i w, repeats f all i j w v.
Proof.
  intros Hij Hw Hv Hf. remember (j - i)%nat as d eqn:Hd. revert i w Hij Hw Hf Hd.
  induction d as [d IH] using lt_wf_ind. intros i w Hij Hw Hf ->.
  destruct (decide (Exists (fun k => f <$> all !! k = Some (f v)) (seq (S i) (j - S i)))) as [Hk | Hn].
  - apply Exists_exists in Hk as (k & Hk%elem_of_seq & (u & Hu & Hfu)%fmap_Some).
    apply (IH (j - k)%nat ltac:(lia) k u); [lia | done | done | done].
  - exists i, w. repeat split; try done. intros k u Hk Hu Hfu. apply Hn. apply Exists_exists. exists k.
    split; [apply elem_of_seq; lia |]. rewrite Hu. cbn. by rewrite Hfu.
Qed.

(** Nothing is reported about the first 2^16 entries exactly when they do not
    repeat; and there are not that many ids, so those are then all of them. *)
Lemma no_dup_NoDup {K} `{EqDecision K} (f : Vport A -> K) l :
  (forall i j w v, ~ repeats f l i j w v) -> NoDup (f <$> l).
Proof.
  intros Hn. apply NoDup_alt. intros i j x Hi Hj. rewrite !list_lookup_fmap in Hi, Hj.
  apply fmap_Some in Hi as (w & Hw & ->), Hj as (v & Hv & Hx).
  destruct (Nat.lt_trichotomy i j) as [Hlt | [Heq | Hgt]]; [| done |]; exfalso.
  - destruct (last_occurrence f l v i j w) as (i' & w' & Hr); [done | done | done | done |]. by eapply Hn.
  - destruct (last_occurrence f l w j i v) as (i' & w' & Hr); [done | done | done | done |]. by eapply Hn.
Qed.

Lemma NoDup_no_dup {K} (f : Vport A -> K) l i j w v : NoDup (f <$> l) -> ~ repeats f l i j w v.
Proof.
  intros Hnd (Hij & Hw & Hv & Hf & _). assert (i = j); [| lia].
  eapply (NoDup_lookup _ _ _ (f v) Hnd); rewrite list_lookup_fmap; [by rewrite Hw; cbn; f_equal | by rewrite Hv].
Qed.

Lemma ids_bounded l : NoDup (vp_id <$> l) -> Z.of_nat (length l) < 65536.
Proof.
  intros Hnd. set (key := fun i : VportId => Z.to_nat (uv (vport_id i))).
  assert (NoDup (key <$> (vp_id <$> l))) as Hk.
  { apply NoDup_fmap_2; [| done]. intros a b Hab. apply VportId_eq, uint_eq. unfold key in Hab.
    pose proof (uint_range (vport_id a)). pose proof (uint_range (vport_id b)). lia. }
  assert (key <$> (vp_id <$> l) ⊆+ seq 0 (Z.to_nat 65535)) as Hs.
  { apply NoDup_submseteq; [done |]. intros k (v & -> & _)%list_elem_of_fmap. apply elem_of_seq.
    pose proof (uint_range (vport_id v)) as Hr. pose proof (vport_id_ok v) as Hok. apply bool_decide_unpack in Hok.
    assert (uv (vport_id v) <> 65535); [| unfold key; change (Z.of_N 16) with 16 in Hr; lia].
    intros E. apply Hok, uint_eq. by rewrite E. }
  apply submseteq_length in Hs. rewrite !length_fmap, length_seq in Hs. lia.
Qed.

Lemma repeats_take {K} (f : Vport A -> K) l n i j w v :
  repeats f (take n l) i j w v <-> repeats f l i j w v /\ (j < n)%nat.
Proof.
  unfold repeats. split.
  - intros (Hij & Hw & (Hv & Hj)%lookup_take_Some & Hf & Hmax). apply lookup_take_Some in Hw as [Hw _].
    split; [| done]. repeat split; try done. intros k u Hk Hu. apply (Hmax k u Hk).
    apply lookup_take_Some. split; [done | lia].
  - intros [(Hij & Hw & Hv & Hf & Hmax) Hj]. rewrite !lookup_take_Some. repeat split; try done; [lia |].
    intros k u Hk [Hu _]%lookup_take_Some. by apply (Hmax k u).
Qed.

Lemma no_dup_error l :
  (forall e, ~ dup_error l 0 e) <-> NoDup (vp_id <$> l) /\ NoDup (vp_peer <$> l).
Proof.
  split.
  - intros Hn. set (n := Z.to_nat 65536).
    assert (NoDup (vp_id <$> take n l) /\ NoDup (vp_peer <$> take n l)) as [H1 H2].
    { split; apply no_dup_NoDup; intros i j w v [Hr Hj]%repeats_take; eapply Hn;
        (exists i, j, w, v; split; [lia |]; split; [lia |]); [left | right]; by split. }
    pose proof (ids_bounded _ H1) as Hlen. rewrite length_take in Hlen.
    by rewrite !take_ge in H1, H2 by lia.
  - intros [H1 H2] e (i & j & w & v & _ & _ & [[Hr _] | [Hr _]]);
      [by apply (NoDup_no_dup _ _ _ _ _ _ H1) in Hr | by apply (NoDup_no_dup _ _ _ _ _ _ H2) in Hr].
Qed.

(** ** The two directions *)

Lemma max_id_bound l m v : max_id l = Some m -> v ∈ l -> uv (vport_id (vp_id v)) <= uv m.
Proof.
  intros Hm Hv. unfold max_id in Hm. revert Hm.
  enough (uv (vport_id (vp_id v)) <= uv (foldr (fun v m => if uv m <? uv (vport_id (vp_id v)) then vport_id (vp_id v) else m)
    (U16 0) l)) by (destruct l; [done | by intros [= <-]]).
  induction Hv as [v l' | v u l' Hv IH]; cbn [foldr].
  - case_match eqn:E; [lia |]. apply Z.ltb_ge in E. lia.
  - case_match eqn:E; [apply Z.ltb_lt in E; lia | done].
Qed.

Lemma by_id_lookup (kvs : list (VportId * VportIdx)) n k i :
  NoDup kvs.*1 -> (forall e, e ∈ kvs -> (Z.to_nat (uv (vport_id e.1)) < n)%nat) ->
  mjoin (foldr (fun e acc => <[Z.to_nat (uv (vport_id e.1)) := Some e.2]> acc) (replicate n None) kvs !! k) = Some i <->
  exists id, (id, i) ∈ kvs /\ Z.to_nat (uv (vport_id id)) = k.
Proof.
  intros Hnd Hlt. assert (length (foldr (fun e acc => <[Z.to_nat (uv (vport_id e.1)) := Some e.2]> acc)
    (replicate n (@None VportIdx)) kvs) = n) as Hlen.
  { clear Hnd Hlt. induction kvs as [| e kvs IH]; cbn [foldr]; [apply length_replicate |]. by rewrite length_insert. }
  induction kvs as [| e kvs IH]; cbn [foldr].
  - split; [| by intros (id & Hid%elem_of_nil & _)].
    destruct (replicate n None !! k) as [o |] eqn:E; [| done]. apply lookup_replicate in E as [-> _]. done.
  - cbn [foldr] in Hlen. rewrite length_insert in Hlen. cbn [fmap list_fmap] in Hnd.
    apply NoDup_cons in Hnd as [Hni Hnd].
    specialize (IH Hnd ltac:(intros; apply Hlt; by apply list_elem_of_further) Hlen).
    destruct (decide (Z.to_nat (uv (vport_id e.1)) = k)) as [<- | Hne].
    + rewrite list_lookup_insert_eq by (rewrite Hlen; apply Hlt, list_elem_of_here). cbn. split.
      * intros [= <-]. exists e.1. split; [| done]. destruct e. apply list_elem_of_here.
      * intros (id & Hid & Hk). assert (id = e.1) as ->.
        { apply VportId_eq, uint_eq. pose proof (uint_range (vport_id id)). pose proof (uint_range (vport_id e.1)). lia. }
        apply elem_of_cons in Hid as [Hid | Hid]; [by rewrite <- Hid |].
        exfalso. apply Hni. apply list_elem_of_fmap. by exists (e.1, i).
    + rewrite list_lookup_insert_ne, IH by done. split.
      * intros (id & Hid & Hk). exists id. split; [by apply list_elem_of_further | done].
      * intros (id & [Hid | Hid]%elem_of_cons & Hk); [subst e; done |]. by exists id.
Qed.

(** The indices [vt_iter] hands out address their entries. *)
Lemma vidx_slot k : Z.of_nat k < 65536 -> vidx_get (VIdx (U16 (Z.of_nat k))) = k.
Proof. intros Hk. unfold vidx_get. cbn. rewrite uv_of. word_lia. Qed.

Lemma vt_iter_lookup (t : VportTable A) i v :
  Z.of_nat (vt_len t) < 65536 -> (i, v) ∈ vt_iter t <-> vt_get t i = Some v.
Proof.
  intros Hlen. unfold vt_iter, vt_get. rewrite elem_of_lookup_imap. split.
  - intros (k & x & [= -> ->] & Hk). pose proof (lookup_lt_Some _ _ _ Hk). unfold vt_len in Hlen.
    by rewrite vidx_slot by lia.
  - intros Hi. exists (vidx_get i), v. split; [| done]. f_equal. destruct i as [r]. f_equal. by rewrite slot_of_vidx.
Qed.

Lemma vt_iter_fst_NoDup (t : VportTable A) : Z.of_nat (vt_len t) < 65536 -> NoDup (fst <$> vt_iter t).
Proof.
  intros Hlen. unfold vt_iter. apply NoDup_alt. intros i j x Hi Hj. rewrite list_lookup_fmap, list_lookup_imap in Hi, Hj.
  destruct (vt_entries t !! i) as [v |] eqn:Ei; [| done]. destruct (vt_entries t !! j) as [w |] eqn:Ej; [| done].
  cbn in Hi, Hj. injection Hi as <-. injection Hj as Hj. apply lookup_lt_Some in Ei, Ej. unfold vt_len in Hlen.
  assert (vidx_get (VIdx (U16 (Z.of_nat i))) = vidx_get (VIdx (U16 (Z.of_nat j)))) as Heq.
  { unfold vidx_get. cbn. by rewrite Hj. }
  by rewrite !vidx_slot in Heq by lia.
Qed.

(** What the only constructor establishes, on both of its outcomes. *)
Lemma build_spec (entries : list (Vport A)) errs :
  match build entries errs with
  | (errs', Some t) =>
      errs' = errs /\ entries <> [] /\ NoDup (vp_id <$> entries) /\ NoDup (vp_peer <$> entries) /\
      vt_entries t = entries /\
      (forall id i, idx_of_id t id = Some i <-> exists v, vt_get t i = Some v /\ vport_id (vp_id v) = id) /\
      (forall p i, idx_of_peer t p = Some i <-> exists v, vt_get t i = Some v /\ vp_peer v = p)
  | (errs', None) =>
      exists new, errs' = errs ++ new /\ (forall e, e ∈ new <-> dup_error entries 0 e) /\
        (new = [] <-> NoDup (vp_id <$> entries) /\ NoDup (vp_peer <$> entries)) /\
        (new = [] -> entries = [])
  end.
Proof.
  unfold build. pose proof (build_loop_spec entries entries [] ∅ ∅ errs eq_refl (last_index_nil _) (last_index_nil _)) as Hl.
  cbn [length] in Hl. destruct (build_loop _ _ _ _ _ _) as [[seen peers] errs'].
  destruct Hl as [(new & -> & Hnew) Hidx].
  assert (new = [] <-> NoDup (vp_id <$> entries) /\ NoDup (vp_peer <$> entries)) as Hnd.
  { rewrite <- no_dup_error. split; [intros -> e He%Hnew; by apply elem_of_nil in He |].
    intros Hn. destruct new as [| e new]; [done |]. exfalso. apply (Hn e), Hnew, list_elem_of_here. }
  rewrite length_app. destruct (Nat.eqb_spec (length errs + length new) (length errs)) as [Heq | Hne]; cbn [negb].
  2: { exists new. split; [done |]. split; [done |]. split; [done |]. intros ->. cbn in Hne. lia. }
  assert (new = []) as -> by (destruct new; [done | cbn in Heq; lia]).
  pose proof (proj1 Hnd eq_refl) as [H1 H2]. pose proof (ids_bounded _ H1) as Hlen.
  destruct (Hidx ltac:(lia)) as [I1 I2]. destruct (max_id entries) as [m |] eqn:Em; cbn [mbind option_bind].
  2: { exists []. split; [done |]. split; [done |]. split; [done |]. intros _. by destruct entries. }
  rewrite app_nil_r. split; [done |]. split; [by intros -> |]. split; [done |]. split; [done |]. split; [done |].
  unfold idx_of_id, idx_of_peer, vt_get. cbn [by_id by_peer vt_entries]. split.
  - intros id i. rewrite by_id_lookup.
    + split.
      * intros (id' & Hin%elem_of_map_to_list & Hk). apply (last_index_NoDup _ _ _ _ _ H1 I1) in Hin as (v & Hv & <-).
        exists v. split; [done |]. apply uint_eq.
        pose proof (uint_range (vport_id (vp_id v))). pose proof (uint_range id). lia.
      * intros (v & Hv & <-). exists (vp_id v). split; [| done]. apply elem_of_map_to_list.
        apply (last_index_NoDup _ _ _ _ _ H1 I1). by exists v.
    + apply NoDup_fst_map_to_list.
    + intros [id' i'] Hin%elem_of_map_to_list. cbn [fst].
      apply (last_index_NoDup _ _ _ _ _ H1 I1) in Hin as (v & Hv & <-).
      apply list_elem_of_lookup_2 in Hv. pose proof (max_id_bound _ _ _ Em Hv).
      pose proof (uint_range (vport_id (vp_id v))). lia.
  - intros p i. apply (last_index_NoDup _ _ _ _ _ H2 I2).
Qed.
End build.

(** ** What a configuration must satisfy *)

Section validation.
Context `{Addr A}.
Implicit Types (raw : RawConfig) (registry : list string).

Definition threads_ok (n : RawNode) : Prop := 1 <= uv (rn_threads n) <= 16.
Definition id_in_range (v : RawVport) : Prop := 0 <= rv_id v < 65535.

(** A raw entry and the vport it declares. *)
Definition declares (v : RawVport) (x : Vport A) : Prop :=
  rv_id v = uv (vport_id (vp_id x)) /\ addr_parse (rv_peer v) = Some (vp_peer x).

(** The errors the stages of [validate] come across. *)
Inductive Found registry raw : ConfigError -> Prop :=
  | F_bind : addr_parse (A := A) (rn_bind (rc_node raw)) = None ->
      Found registry raw (BindError (rn_bind (rc_node raw)))
  | F_fabric : ~ (rn_fabric (rc_node raw) = "ipv4" \/ rn_fabric (rc_node raw) = "ipv6") ->
      Found registry raw (FabricError (rn_fabric (rc_node raw)))
  | F_threads : ~ threads_ok (rc_node raw) ->
      Found registry raw (ThreadsError (uv (rn_threads (rc_node raw))))
  | F_id : rn_id (rc_node raw) = EmptyString -> Found registry raw EmptyNodeId
  | F_ctl : rn_ctl_socket (rc_node raw) = EmptyString -> Found registry raw EmptyCtlSocket
  | F_pipeline : rn_pipeline (rc_node raw) ∉ registry ->
      Found registry raw (UnknownPipeline (rn_pipeline (rc_node raw)) registry)
  | F_pins cores : rn_pin_cores (rc_node raw) = Some cores -> threads_ok (rc_node raw) ->
      Z.of_nat (length cores) <> uv (rn_threads (rc_node raw)) ->
      Found registry raw (PinCoresArity (length cores) (Z.to_nat (uv (rn_threads (rc_node raw)))))
  | F_core cores c : rn_pin_cores (rc_node raw) = Some cores -> c ∈ cores -> c < 0 ->
      Found registry raw (NegativeCore c)
  | F_none : rc_vport raw = [] -> Found registry raw NoVports
  | F_vport v : v ∈ rc_vport raw -> ~ id_in_range v -> Found registry raw (VportIdError (rv_id v))
  | F_peer v : v ∈ rc_vport raw -> addr_parse (A := A) (rv_peer v) = None ->
      Found registry raw (PeerError (rv_id v) (rv_peer v))
  | F_self v x : v ∈ rc_vport raw -> declares v x -> addr_parse (rn_bind (rc_node raw)) = Some (vp_peer x) ->
      Found registry raw (PeerIsSelf (vport_id (vp_id x)) (rv_peer v))
  | F_repeat xs e : Forall2 declares (rc_vport raw) xs -> dup_error xs 0 e -> Found registry raw e
  | F_punt p : rc_punt raw = Some p -> p <> 65535 -> Found registry raw (PuntVportError p PUNT_VPORT).

(** What an accepted configuration says. *)
Definition describes raw (c : Config A) : Prop :=
  nc_id (c_node c) = rn_id (rc_node raw) /\
  addr_parse (rn_bind (rc_node raw)) = Some (nc_bind (c_node c)) /\
  rn_fabric (rc_node raw) = as_str (nc_fabric (c_node c)) /\
  nc_pipeline (c_node c) = rn_pipeline (rc_node raw) /\
  uv (nc_threads (c_node c)) = uv (rn_threads (rc_node raw)) /\
  Z.of_nat <$> nc_pin_cores (c_node c) = default [] (rn_pin_cores (rc_node raw)) /\
  nc_ctl_socket (c_node c) = rn_ctl_socket (rc_node raw) /\
  default (U64 0) (nc_metrics_interval (c_node c)) = rn_metrics_interval_s (rc_node raw) /\
  Forall2 declares (rc_vport raw) (vt_entries (c_vports c)) /\
  c_punt c = (fun _ => PUNT_VPORT) <$> rc_punt raw.

(** *** The stages *)

Lemma require_spec {B} (value : option B) e errs :
  require value e errs = (errs ++ match value with None => [e] | Some _ => [] end, value).
Proof. unfold require, push_error. destruct value; [by rewrite app_nil_r | done]. Qed.

Lemma from_config_str_Some s f : from_config_str s = Some f <-> s = as_str f.
Proof. unfold from_config_str. repeat case_bool_decide; destruct f; naive_solver. Qed.

Lemma threads_refine (z : u32) :
  (b ← try_u 8 (uv z); threads_new b) = if bool_decide (1 <= uv z <= 16) then Some (U8 (uv z)) else None.
Proof.
  unfold try_u. case_bool_decide as Hz.
  - rewrite (proj2 (in_width_spec 8 (uv z))) by (cbn; lia). cbn [mbind option_bind]. unfold threads_new.
    rewrite uv_of_small by (cbn; lia). change (uv THREADS_MIN) with 1. change (uv THREADS_MAX) with 16.
    rewrite (proj2 (Z.leb_le 1 (uv z))), (proj2 (Z.leb_le (uv z) 16)) by lia. done.
  - destruct (in_width 8 (uv z)) eqn:E; [| done]. apply in_width_spec in E. cbn [mbind option_bind]. unfold threads_new.
    rewrite uv_of_small by done. change (uv THREADS_MIN) with 1. change (uv THREADS_MAX) with 16.
    destruct (Z.leb_spec 1 (uv z)), (Z.leb_spec (uv z) 16); try done. exfalso. apply Hz. lia.
Qed.

Lemma vport_id_refine z :
  match (r ← try_u 16 z; vport_id_new r) with
  | Some id => z = uv (vport_id id)
  | None => ~ (0 <= z < 65535)
  end.
Proof.
  unfold try_u. destruct (in_width 16 z) eqn:E; cbn [mbind option_bind].
  - apply in_width_spec in E. unfold vport_id_new. destruct (decide _) as [Hd | Hd]; cbn [vport_id].
    + by rewrite uv_of_small.
    + intros Hz. apply Hd, bool_decide_pack. intros Heq. apply (f_equal uv) in Heq.
      rewrite uv_of_small in Heq by done. change (uv PUNT_VPORT) with 65535 in Heq. lia.
  - intros Hz. rewrite (proj2 (in_width_spec 16 z)) in E by (cbn; lia). done.
Qed.

Lemma refine_cores_spec cores errs :
  refine_cores cores errs =
    (errs ++ (NegativeCore <$> filter (fun c => c < 0) cores), Z.to_nat <$> filter (fun c => ~ c < 0) cores).
Proof.
  revert errs. induction cores as [| c cores IH]; intros errs; cbn [refine_cores]; [by rewrite app_nil_r |].
  rewrite !filter_cons. destruct (Z.ltb_spec c 0).
  - rewrite decide_True, decide_False by lia. rewrite IH. unfold push_error. by rewrite <- app_assoc.
  - rewrite decide_False, decide_True by lia. by rewrite IH.
Qed.

Lemma vport_id_range (id : VportId) : 0 <= uv (vport_id id) < 65535.
Proof.
  pose proof (uint_range (vport_id id)) as Hr. pose proof (vport_id_ok id) as Hok. apply bool_decide_unpack in Hok.
  change (Z.of_N 16) with 16 in Hr. cut (uv (vport_id id) <> 65535); [lia |].
  intros E. apply Hok, uint_eq. by rewrite E.
Qed.

Lemma declares_in_range v x : declares v x -> id_in_range v.
Proof. intros [Hid _]. unfold id_in_range. rewrite Hid. apply vport_id_range. Qed.

Lemma declares_fun v x y : declares v x -> declares v y -> x = y.
Proof.
  destruct x as [i p], y as [j q]. intros [Hi Hp] [Hj Hq]. cbn in *. f_equal; [| congruence].
  apply VportId_eq, uint_eq. congruence.
Qed.

(** What one entry reports. *)
Definition vport_errors (bind : option A) (v : RawVport) : Errors :=
  (if bool_decide (id_in_range v) then [] else [VportIdError (rv_id v)]) ++
  match addr_parse (rv_peer v) with
  | None => [PeerError (rv_id v) (rv_peer v)]
  | Some p => if bool_decide (id_in_range v /\ bind = Some p) then [PeerIsSelf (U16 (rv_id v)) (rv_peer v)] else []
  end.

Lemma refine_vport_spec bind v errs :
  match refine_vport bind v errs with
  | (errs', x) =>
      errs' = errs ++ vport_errors bind v /\
      match x with
      | Some x => declares v x
      | None => (exists e, e ∈ vport_errors bind v) /\ forall x, ~ declares v x
      end
  end.
Proof.
  unfold refine_vport, vport_errors. rewrite require_spec. pose proof (vport_id_refine (rv_id v)) as Hid.
  destruct (r ← try_u 16 (rv_id v); vport_id_new r) as [id |]; rewrite require_spec.
  - assert (id_in_range v) as Hin by (unfold id_in_range; rewrite Hid; apply vport_id_range).
    rewrite bool_decide_true by done. destruct (addr_parse (rv_peer v)) as [p |] eqn:Ep; cbn [app].
    + assert (U16 (rv_id v) = vport_id id) as -> by (rewrite Hid; apply u_of_uv).
      unfold push_error. split; [| by split].
      rewrite !app_nil_r. repeat case_bool_decide; try done; [| tauto | by rewrite app_nil_r]. tauto.
    + rewrite app_nil_r. split; [done |]. split; [eexists; apply list_elem_of_here |].
      intros x [_ Hx]. congruence.
  - rewrite bool_decide_false by done.
    assert (forall l : Errors, exists e, e ∈ [VportIdError (rv_id v)] ++ l) as Hex
      by (intros l; eexists; apply list_elem_of_here).
    assert (forall x, ~ declares v x) as Hno by (intros x Hx; by apply Hid, (declares_in_range v x)).
    destruct (addr_parse (rv_peer v)) as [p |] eqn:Ep; (split; [| split; [apply Hex | exact Hno]]).
    + rewrite bool_decide_false by tauto. by rewrite !app_nil_r.
    + by rewrite <- app_assoc.
Qed.

Lemma refine_vports_spec bind vs errs :
  match refine_vports bind vs errs with
  | (errs', xs) =>
      errs' = errs ++ (vs ≫= vport_errors bind) /\ (length xs <= length vs)%nat /\
      if (length xs =? length vs)%nat then Forall2 declares vs xs
      else (exists e, e ∈ vs ≫= vport_errors bind) /\ forall xs, ~ Forall2 declares vs xs
  end.
Proof.
  revert errs. induction vs as [| v vs IH]; intros errs; cbn [refine_vports mbind list_bind];
    [rewrite app_nil_r; split; [done | split; [reflexivity | constructor]] |].
  pose proof (refine_vport_spec bind v errs) as Hv. destruct (refine_vport bind v errs) as [errs1 x].
  destruct Hv as [-> Hx]. specialize (IH (errs ++ vport_errors bind v)).
  destruct (refine_vports bind vs _) as [errs2 xs]. destruct IH as (-> & Hle & Hxs).
  split; [by rewrite app_assoc |]. destruct x as [x |]; cbn [length].
  - split; [lia |]. destruct (Nat.eqb_spec (length xs) (length vs)) as [Hl | Hl]; cbn [Nat.eqb];
      [rewrite Hl, Nat.eqb_refl; by constructor |].
    rewrite (proj2 (Nat.eqb_neq _ _) Hl). destruct Hxs as [(e & He) Hno].
    split; [exists e; apply elem_of_app; by right |]. intros ys Hys. inversion Hys as [| ? y ? ys' Hy Hys' ]; subst.
    by eapply Hno.
  - split; [lia |]. destruct Hx as [(e & He) Hno]. rewrite (proj2 (Nat.eqb_neq _ _)) by lia.
    split; [exists e; apply elem_of_app; by left |]. intros ys Hys. inversion Hys; subst. by eapply Hno.
Qed.

Definition name_errors (n : RawNode) registry : Errors :=
  (if bool_decide (rn_id n = EmptyString) then [EmptyNodeId] else []) ++
  (if bool_decide (rn_ctl_socket n = EmptyString) then [EmptyCtlSocket] else []) ++
  (if bool_decide (rn_pipeline n ∈ registry) then [] else [UnknownPipeline (rn_pipeline n) registry]).

Lemma check_names_spec n registry errs : check_names n registry errs = errs ++ name_errors n registry.
Proof.
  unfold check_names, name_errors, push_error.
  repeat case_bool_decide; rewrite ?app_nil_r, <- ?app_assoc; reflexivity.
Qed.

Definition pin_errors (n : RawNode) : Errors :=
  match rn_pin_cores n with
  | None => []
  | Some cores =>
      (if bool_decide (threads_ok n /\ Z.of_nat (length cores) <> uv (rn_threads n))
       then [PinCoresArity (length cores) (Z.to_nat (uv (rn_threads n)))] else []) ++
      (NegativeCore <$> filter (fun c => c < 0) cores)
  end.

Lemma refine_pins_spec n errs :
  refine_pins (rn_pin_cores n) (if bool_decide (1 <= uv (rn_threads n) <= 16) then Some (U8 (uv (rn_threads n))) else None) errs =
    (errs ++ pin_errors n, Z.to_nat <$> filter (fun c => ~ c < 0) (default [] (rn_pin_cores n))).
Proof.
  unfold refine_pins, pin_errors. destruct (rn_pin_cores n) as [cores |]; [| by rewrite app_nil_r].
  rewrite refine_cores_spec. cbn [default id]. f_equal. rewrite app_assoc. f_equal.
  case_bool_decide as Ht.
  - rewrite uv_of_small by (cbn; lia). unfold push_error.
    destruct (Nat.eqb_spec (length cores) (Z.to_nat (uv (rn_threads n)))) as [E | E]; cbn [negb].
    + rewrite bool_decide_false by (intros [_ Hn]; lia). by rewrite app_nil_r.
    + by rewrite bool_decide_true by (split; [done | lia]).
  - rewrite bool_decide_false by (by intros [? _]). by rewrite app_nil_r.
Qed.

Definition punt_errors (p : option Z) : Errors :=
  match p with
  | Some p => if bool_decide (p = 65535) then [] else [PuntVportError p PUNT_VPORT]
  | None => []
  end.

Lemma refine_punt_spec p errs : refine_punt p errs = (errs ++ punt_errors p, (fun _ => PUNT_VPORT) <$> p).
Proof.
  unfold refine_punt, punt_errors, push_error. destruct p as [p |]; [| by rewrite app_nil_r].
  change (uv PUNT_VPORT) with 65535. cbn [fmap option_fmap option_map]. f_equal.
  destruct (Z.eqb_spec p 65535); cbn [negb]; [rewrite bool_decide_true by done; by rewrite app_nil_r | by rewrite bool_decide_false].
Qed.

(** The table stage, after the entries were refined to [xs]. *)
Lemma table_stage vs (xs : list (Vport A)) errs bind :
  (length xs <= length vs)%nat ->
  (if (length xs =? length vs)%nat then Forall2 declares vs xs
   else (exists e, e ∈ vs ≫= vport_errors bind) /\ forall xs, ~ Forall2 declares vs xs) ->
  match (if (length xs =? length vs)%nat && negb (length xs =? 0)%nat then build xs errs else (errs, None)) with
  | (errs', t) => exists new, errs' = errs ++ new /\
      (forall e, e ∈ new <-> exists ys, Forall2 declares vs ys /\ dup_error ys 0 e) /\
      match t with
      | Some t => new = [] /\ Forall2 declares vs (vt_entries t) /\ exists entries errs, build entries errs = (errs, Some t)
      | None => vs = [] \/ (exists e, e ∈ new) \/ exists e, e ∈ vs ≫= vport_errors bind
      end
  end.
Proof.
  intros Hle Hxs. destruct (Nat.eqb_spec (length xs) (length vs)) as [Hl | Hl]; cbn [andb].
  - destruct (Nat.eqb_spec (length xs) 0) as [H0 | H0]; cbn [negb].
    + destruct xs; [| done]. destruct vs; [| done]. exists []. rewrite app_nil_r. split; [done |]. split; [| by left].
      intros e. rewrite elem_of_nil. split; [done |]. intros (ys & Hys%Forall2_nil_inv_l & Hd). subst ys.
      by eapply dup_error_end in Hd; [| left].
    + assert (forall e, (exists ys, Forall2 declares vs ys /\ dup_error ys 0 e) <-> dup_error xs 0 e) as Hd.
      { intros e. split; [| by exists xs]. intros (ys & Hys & He). enough (xs = ys) by congruence.
        clear -Hxs Hys. revert xs Hxs. induction Hys as [| v y vs ys Hy Hys IH]; intros xs Hxs; inversion Hxs; subst; [done |].
        f_equal; [by eapply declares_fun | by apply IH]. }
      pose proof (build_spec xs errs) as Hb. destruct (build xs errs) as [errs' [t |]] eqn:Et.
      * destruct Hb as (-> & _ & H1 & H2 & He & _). exists []. rewrite app_nil_r, He. split; [done |]. split; [| split; [done |]].
        { intros e. rewrite Hd, elem_of_nil. split; [done |]. by apply no_dup_error. }
        split; [done |]. by exists xs, errs.
      * destruct Hb as (new & -> & Hnew & _ & Hempty). exists new. split; [done |].
        split; [intros e; by rewrite Hd |]. right. left. destruct new as [| e new]; [| eexists; apply list_elem_of_here].
        rewrite Hempty in H0 by done. done.
  - destruct Hxs as [He Hno]. exists []. rewrite app_nil_r. split; [done |]. split; [| by right; right].
    intros e. rewrite elem_of_nil. split; [done |]. intros (ys & Hys & _). by eapply Hno.
Qed.

(** *** The rules, and which of them are judged *)

(** A rule of a configuration (the comments of [ConfigError] and of the fields of
    raw.rs); entries are named by their position. *)
Inductive Rule :=
  | RBind | RFabric | RThreads | RNodeId | RCtlSocket | RPipeline
  | RPinCount | RPinCore (c : Z)
  | RSomeVport | RIdRange (i : nat) | RPeer (i : nat) | RPeerNotSelf (i : nat)
  | RIdUnique (i j : nat) | RPeerUnique (i j : nat)
  | RPunt.

(** Entry [j] repeats what entry [i] is the last before it to have. *)
Definition repeated {B} (f : RawVport -> B) (l : list RawVport) (i j : nat) : Prop :=
  (i < j)%nat /\ exists w v, l !! i = Some w /\ l !! j = Some v /\ f w = f v /\
  forall k u, (i < k < j)%nat -> l !! k = Some u -> f u <> f v.

Definition broken registry raw (r : Rule) : Prop :=
  let n := rc_node raw in
  let vports := rc_vport raw in
  match r with
  | RBind => addr_parse (A := A) (rn_bind n) = None
  | RFabric => ~ (rn_fabric n = "ipv4" \/ rn_fabric n = "ipv6")
  | RThreads => ~ threads_ok n
  | RNodeId => rn_id n = EmptyString
  | RCtlSocket => rn_ctl_socket n = EmptyString
  | RPipeline => rn_pipeline n ∉ registry
  | RPinCount => exists cores, rn_pin_cores n = Some cores /\ Z.of_nat (length cores) <> uv (rn_threads n)
  | RPinCore c => c < 0 /\ exists cores, rn_pin_cores n = Some cores /\ c ∈ cores
  | RSomeVport => vports = []
  | RIdRange i => exists v, vports !! i = Some v /\ ~ id_in_range v
  | RPeer i => exists v, vports !! i = Some v /\ addr_parse (A := A) (rv_peer v) = None
  | RPeerNotSelf i => exists v p, vports !! i = Some v /\ addr_parse (A := A) (rv_peer v) = Some p /\ addr_parse (rn_bind n) = Some p
  | RIdUnique i j => repeated rv_id vports i j
  | RPeerUnique i j =>
      repeated (fun v => addr_parse (A := A) (rv_peer v)) vports i j /\
      exists v p, vports !! j = Some v /\ addr_parse (A := A) (rv_peer v) = Some p
  | RPunt => exists p, rc_punt raw = Some p /\ p <> 65535
  end.

(** What [validate] does not judge: how many cores are pinned, while the number of
    threads is no number; whether a peer is the node itself, for an entry whose
    id is none; whether entries repeat each other, while any entry of the list
    is refused, or past the last slot an index has. *)
Definition unjudged raw (r : Rule) : Prop :=
  match r with
  | RPinCount => ~ threads_ok (rc_node raw)
  | RPeerNotSelf i => exists v, rc_vport raw !! i = Some v /\ ~ id_in_range v
  | RIdUnique _ j | RPeerUnique _ j =>
      65536 <= Z.of_nat j \/
      exists v, v ∈ rc_vport raw /\ (~ id_in_range v \/ addr_parse (A := A) (rv_peer v) = None)
  | _ => False
  end.

(** The error a broken rule is reported as. *)
Definition reported registry raw (r : Rule) : option ConfigError :=
  let n := rc_node raw in
  let vports := rc_vport raw in
  match r with
  | RBind => Some (BindError (rn_bind n))
  | RFabric => Some (FabricError (rn_fabric n))
  | RThreads => Some (ThreadsError (uv (rn_threads n)))
  | RNodeId => Some EmptyNodeId
  | RCtlSocket => Some EmptyCtlSocket
  | RPipeline => Some (UnknownPipeline (rn_pipeline n) registry)
  | RPinCount => (fun cores => PinCoresArity (length cores) (Z.to_nat (uv (rn_threads n)))) <$> rn_pin_cores n
  | RPinCore c => Some (NegativeCore c)
  | RSomeVport => Some NoVports
  | RIdRange i => (fun v => VportIdError (rv_id v)) <$> vports !! i
  | RPeer i => (fun v => PeerError (rv_id v) (rv_peer v)) <$> vports !! i
  | RPeerNotSelf i => (fun v => PeerIsSelf (U16 (rv_id v)) (rv_peer v)) <$> vports !! i
  | RIdUnique _ j => (fun v => DuplicateVportId (U16 (rv_id v))) <$> vports !! j
  | RPeerUnique i j =>
      w ← vports !! i; v ← vports !! j; p ← addr_parse (A := A) (rv_peer v);
      Some (DuplicatePeer (addr_to_string p) (U16 (rv_id w)) (U16 (rv_id v)))
  | RPunt => (fun p => PuntVportError p PUNT_VPORT) <$> rc_punt raw
  end.

(** A list of entries that are all well-formed declares a list of vports. *)
Lemma all_declare (l : list RawVport) :
  (exists xs : list (Vport A), Forall2 declares l xs) <->
  forall v, v ∈ l -> id_in_range v /\ is_Some (addr_parse (A := A) (rv_peer v)).
Proof.
  split.
  - intros (xs & Hxs) v Hv. apply list_elem_of_lookup in Hv as (i & Hi).
    destruct (Forall2_lookup_l _ _ _ _ _ Hxs Hi) as (x & _ & Hd). split; [by eapply declares_in_range | destruct Hd as [_ ->]; by eexists].
  - induction l as [| v l IH]; intros Hl; [by exists [] |]. destruct IH as (xs & Hxs); [intros u Hu; apply Hl; by right |].
    destruct (Hl v ltac:(by left)) as [Hr [p Hp]]. pose proof (vport_id_refine (rv_id v)) as Hid.
    destruct (_ ≫= vport_id_new) as [id |]; [| done]. exists ({| vp_id := id; vp_peer := p |} :: xs). by constructor.
Qed.

Lemma not_all_declare (l : list RawVport) :
  ~ (exists v, v ∈ l /\ (~ id_in_range v \/ addr_parse (A := A) (rv_peer v) = None)) <->
  exists xs : list (Vport A), Forall2 declares l xs.
Proof.
  rewrite all_declare. split.
  - intros Hn v Hv. split.
    + destruct (decide (id_in_range v)) as [| Hr]; [done |]. exfalso. apply Hn. exists v. tauto.
    + destruct (addr_parse (rv_peer v)) as [p |] eqn:E; [by eexists |]. exfalso. apply Hn. exists v. tauto.
  - intros Hl (v & Hv & [Hr | Hp]); destruct (Hl v Hv) as [? [? ?]]; [done | congruence].
Qed.

(** Repeating each other, as entries and as vports. *)
Lemma repeated_repeats {B K} (f : RawVport -> B) (g : Vport A -> K) l xs i j :
  Forall2 declares l xs -> (forall v x u y, declares v x -> declares u y -> f v = f u <-> g x = g y) ->
  repeated f l i j <-> exists w v, repeats g xs i j w v.
Proof.
  intros Hxs Hfg. split.
  - intros (Hij & w & v & Hw & Hv & He & Hk). destruct (Forall2_lookup_l _ _ _ _ _ Hxs Hw) as (x & Hx & Dx).
    destruct (Forall2_lookup_l _ _ _ _ _ Hxs Hv) as (y & Hy & Dy). exists x, y. split_and!; try done; [by eapply Hfg |].
    intros k z Hlt Hz Hg. destruct (Forall2_lookup_r _ _ _ _ _ Hxs Hz) as (u & Hu & Du). apply (Hk k u Hlt Hu). by eapply Hfg.
  - intros (x & y & Hij & Hx & Hy & He & Hk). destruct (Forall2_lookup_r _ _ _ _ _ Hxs Hx) as (w & Hw & Dx).
    destruct (Forall2_lookup_r _ _ _ _ _ Hxs Hy) as (v & Hv & Dy). split; [done |]. exists w, v. split_and!; try done; [by eapply Hfg |].
    intros k u Hlt Hu Hf. destruct (Forall2_lookup_l _ _ _ _ _ Hxs Hu) as (z & Hz & Dz). apply (Hk k z Hlt Hz). by eapply Hfg.
Qed.

Lemma same_id v x u y : declares v x -> declares u y -> rv_id v = rv_id u <-> vp_id x = vp_id y.
Proof.
  intros [H1 _] [H2 _]. rewrite H1, H2. split; [| by intros ->]. intros Hu. apply VportId_eq, uint_eq. lia.
Qed.

Lemma same_peer v x u y : declares v x -> declares u y -> addr_parse (A := A) (rv_peer v) = addr_parse (rv_peer u) <-> vp_peer x = vp_peer y.
Proof. intros [_ H1] [_ H2]. rewrite H1, H2. split; [by intros [= ->] | by intros ->]. Qed.

Lemma u16_id v (x : Vport A) : declares v x -> U16 (rv_id v) = vport_id (vp_id x).
Proof. intros [-> _]. apply u_of_uv. Qed.

(** What the stages find are the rules broken among those judged. *)
Lemma found_spec registry raw e :
  Found registry raw e <-> exists r, broken registry raw r /\ ~ unjudged raw r /\ reported registry raw r = Some e.
Proof.
  split.
  - intros [? | Hf | ? | ? | ? | ? | cores E Ht Hl | cores c E Hc Hneg | E | v Hin Hr | v Hin Hp | v x Hin Hx Hb | xs e' Hxs Hd | p E Hp].
    + exists RBind. cbn. tauto.
    + exists RFabric. cbn. tauto.
    + exists RThreads. cbn. tauto.
    + exists RNodeId. cbn. tauto.
    + exists RCtlSocket. cbn. tauto.
    + exists RPipeline. cbn. tauto.
    + exists RPinCount. cbn. rewrite E. split; [by exists cores |]. split; [tauto | done].
    + exists (RPinCore c). cbn. split; [split; [done | by exists cores] | tauto].
    + exists RSomeVport. cbn. tauto.
    + apply list_elem_of_lookup in Hin as (i & Hi). exists (RIdRange i). cbn. rewrite Hi. split; [by exists v | tauto].
    + apply list_elem_of_lookup in Hin as (i & Hi). exists (RPeer i). cbn. rewrite Hi. split; [by exists v | tauto].
    + apply list_elem_of_lookup in Hin as (i & Hi). exists (RPeerNotSelf i). cbn. rewrite Hi.
      split; [exists v, (vp_peer x); split_and!; [done | apply Hx | done] |].
      split; [intros (v' & [= <-] & Hn); by apply Hn, (declares_in_range v x) |]. cbn. by rewrite (u16_id v x Hx).
    + assert (exists xs : list (Vport A), Forall2 declares (rc_vport raw) xs) as Hall by (by exists xs).
      apply not_all_declare in Hall. destruct Hd as (i & j & w & v & _ & Hj & [[Hr ->] | [Hr ->]]);
        pose proof Hr as (_ & Hw & Hv & _); destruct (Forall2_lookup_r _ _ _ _ _ Hxs Hv) as (rv & Hrv & Dv);
        destruct (Forall2_lookup_r _ _ _ _ _ Hxs Hw) as (rw & Hrw & Dw).
      * exists (RIdUnique i j). cbn. split; [eapply repeated_repeats; [done | apply same_id | by exists w, v] |].
        split; [intros [? | ?]; [lia | done] |]. rewrite Hrv. cbn. by rewrite (u16_id rv v Dv).
      * exists (RPeerUnique i j). cbn. split; [split; [eapply repeated_repeats; [done | apply same_peer | by exists w, v] |] |].
        { exists rv, (vp_peer v). split; [done | apply Dv]. }
        split; [intros [? | ?]; [lia | done] |]. rewrite Hrv, Hrw. cbn. rewrite (proj2 Dv). cbn. by rewrite (u16_id rv v Dv), (u16_id rw w Dw).
    + exists RPunt. cbn. rewrite E. split; [by exists p | tauto].
  - intros (r & Hb & Hu & Hr). destruct r as [| | | | | | | c | | i | i | i | i j | i j |]; cbn in Hb, Hu, Hr.
    + injection Hr as <-. by constructor.
    + injection Hr as <-. by constructor.
    + injection Hr as <-. by constructor.
    + injection Hr as <-. by constructor.
    + injection Hr as <-. by constructor.
    + injection Hr as <-. by constructor.
    + destruct Hb as (cores & E & Hl). rewrite E in Hr. injection Hr as <-. apply (F_pins _ _ cores); [done | | done].
      destruct (decide (threads_ok (rc_node raw))); [done | tauto].
    + destruct Hb as (Hn & cores & E & Hc). injection Hr as <-. by eapply F_core.
    + injection Hr as <-. by constructor.
    + destruct Hb as (v & Hi & Hn). rewrite Hi in Hr. injection Hr as <-. constructor; [by eapply list_elem_of_lookup_2 | done].
    + destruct Hb as (v & Hi & Hn). rewrite Hi in Hr. injection Hr as <-. constructor; [by eapply list_elem_of_lookup_2 | done].
    + destruct Hb as (v & p & Hi & Hp & Hb). rewrite Hi in Hr. injection Hr as <-.
      destruct (proj2 (all_declare [v])) as (xs & Hxs).
      { intros u ->%list_elem_of_singleton. split; [| by eexists]. destruct (decide (id_in_range v)); [done |]. exfalso. apply Hu. by exists v. }
      inversion Hxs as [| ? x ? ? Hx _]; subst. rewrite (u16_id v x Hx). eapply F_self; [by eapply list_elem_of_lookup_2 | done |].
      destruct Hx as [_ Hx]. congruence.
    + assert (Z.of_nat j < 65536) as Hj by lia. assert (exists xs : list (Vport A), Forall2 declares (rc_vport raw) xs) as (xs & Hxs)
        by (apply not_all_declare; tauto).
      apply (repeated_repeats _ _ _ _ _ _ Hxs same_id) in Hb as (w & v & Hb). pose proof Hb as (_ & _ & Hv & _).
      destruct (Forall2_lookup_r _ _ _ _ _ Hxs Hv) as (rv & Hrv & Dv). rewrite Hrv in Hr. injection Hr as <-. rewrite (u16_id rv v Dv).
      apply (F_repeat _ _ xs); [done |]. exists i, j, w, v. split; [lia |]. split; [done |]. by left.
    + assert (Z.of_nat j < 65536) as Hj by lia. assert (exists xs : list (Vport A), Forall2 declares (rc_vport raw) xs) as (xs & Hxs)
        by (apply not_all_declare; tauto).
      destruct Hb as [Hb _]. apply (repeated_repeats _ _ _ _ _ _ Hxs same_peer) in Hb as (w & v & Hb). pose proof Hb as (_ & Hw & Hv & _).
      destruct (Forall2_lookup_r _ _ _ _ _ Hxs Hv) as (rv & Hrv & Dv). destruct (Forall2_lookup_r _ _ _ _ _ Hxs Hw) as (rw & Hrw & Dw).
      rewrite Hrv, Hrw in Hr. cbn in Hr. rewrite (proj2 Dv) in Hr. injection Hr as <-. rewrite (u16_id rv v Dv), (u16_id rw w Dw).
      apply (F_repeat _ _ xs); [done |]. exists i, j, w, v. split; [lia |]. split; [done |]. by right.
    + destruct Hb as (p & E & Hp). rewrite E in Hr. injection Hr as <-. by constructor.
Qed.

(** *** Every stage together *)

(** What the datapath relies on, of any configuration there is. *)
Definition well_built (c : Config A) : Prop :=
  1 <= uv (nc_threads (c_node c)) <= 16 /\ exists entries errs, build entries errs = (errs, Some (c_vports c)).

Definition rule_errors (raw : RawConfig) registry (repeated : Errors) : Errors :=
  let n := rc_node raw in
  let bind := addr_parse (A := A) (rn_bind n) in
  match bind with None => [BindError (rn_bind n)] | Some _ => [] end ++
  match from_config_str (rn_fabric n) with None => [FabricError (rn_fabric n)] | Some _ => [] end ++
  (if bool_decide (threads_ok n) then [] else [ThreadsError (uv (rn_threads n))]) ++
  name_errors n registry ++ pin_errors n ++
  match rc_vport raw with [] => [NoVports] | _ => [] end ++
  (rc_vport raw ≫= vport_errors bind) ++ repeated ++ punt_errors (rc_punt raw).

Lemma in_if {P : Prop} `{Decision P} (x e : ConfigError) : e ∈ (if bool_decide P then [x] else []) <-> P /\ e = x.
Proof. case_bool_decide; rewrite ?elem_of_nil, ?list_elem_of_singleton; tauto. Qed.

Lemma in_unless {P : Prop} `{Decision P} (x e : ConfigError) : e ∈ (if bool_decide P then [] else [x]) <-> ~ P /\ e = x.
Proof. case_bool_decide; rewrite ?elem_of_nil, ?list_elem_of_singleton; tauto. Qed.

Lemma in_none {B} (o : option B) (x e : ConfigError) : e ∈ match o with None => [x] | Some _ => [] end <-> o = None /\ e = x.
Proof. destruct o; rewrite ?elem_of_nil, ?list_elem_of_singleton; naive_solver. Qed.

Lemma vport_errors_spec bind v e :
  e ∈ vport_errors bind v <->
  (~ id_in_range v /\ e = VportIdError (rv_id v)) \/
  (addr_parse (A := A) (rv_peer v) = None /\ e = PeerError (rv_id v) (rv_peer v)) \/
  (exists x, declares v x /\ bind = Some (vp_peer x) /\ e = PeerIsSelf (vport_id (vp_id x)) (rv_peer v)).
Proof.
  unfold vport_errors. rewrite elem_of_app, in_unless. f_equiv.
  destruct (addr_parse (rv_peer v)) as [p |] eqn:Ep; rewrite ?in_if, ?list_elem_of_singleton; split.
  - intros [[Hin ->] ->]. right. pose proof (vport_id_refine (rv_id v)) as Hid.
    destruct (_ ≫= vport_id_new) as [id |]; [| done]. exists {| vp_id := id; vp_peer := p |}.
    split; [by split |]. split; [done |]. cbn. do 2 f_equal. rewrite Hid. apply u_of_uv.
  - intros [[? _] | (x & Hx & -> & ->)]; [done |]. pose proof (declares_in_range _ _ Hx). destruct Hx as [Hid Hp].
    split; [split; [done | congruence] |]. do 2 f_equal. rewrite Hid. symmetry. apply u_of_uv.
  - intros ->. by left.
  - intros [[_ ->] | (x & [_ Hx] & _)]; [done | congruence].
Qed.

Lemma rule_errors_spec raw registry repeated e :
  (forall e, e ∈ repeated <-> exists ys : list (Vport A), Forall2 declares (rc_vport raw) ys /\ dup_error ys 0 e) ->
  e ∈ rule_errors raw registry repeated <-> Found registry raw e.
Proof.
  intros Hrep. unfold rule_errors, name_errors. rewrite !elem_of_app, !in_none, !in_unless, !in_if, Hrep. split.
  - intros [[? ->] | [[Hf ->] | [[? ->] | [[[? ->] | [[? ->] | [? ->]]] | [Hp | [Hn | [Hv | [(ys & Hy & Hd) | Hp]]]]]]]].
    + by constructor.
    + constructor. intros Hc. assert (exists f, rn_fabric (rc_node raw) = as_str f) as (f & Hf2)
        by (destruct Hc; [by exists V4 | by exists V6]). apply from_config_str_Some in Hf2. congruence.
    + by constructor.
    + by constructor.
    + by constructor.
    + by constructor.
    + unfold pin_errors in Hp. destruct (rn_pin_cores _) as [cores |] eqn:E; [| by apply elem_of_nil in Hp].
      apply elem_of_app in Hp as [([Ht Hl] & ->)%in_if | (c & -> & [Hc Hin]%list_elem_of_filter)%list_elem_of_fmap];
        [by eapply F_pins | by eapply F_core].
    + destruct (rc_vport raw) eqn:E; [| by apply elem_of_nil in Hn]. apply list_elem_of_singleton in Hn as ->.
      by constructor.
    + apply list_elem_of_bind in Hv as (v & Hv & Hin). apply vport_errors_spec in Hv as
        [[? ->] | [[? ->] | (x & Hx & Hb & ->)]]; [by constructor | by constructor | by eapply F_self].
    + by eapply F_repeat.
    + unfold punt_errors in Hp. destruct (rc_punt raw) as [p |] eqn:E; [| by apply elem_of_nil in Hp].
      apply in_unless in Hp as [Hp ->]. by constructor.
  - intros [? | Hf | ? | ? | ? | ? | cores E Ht Hl | cores c E Hc Hneg | E | v Hin Hr | v Hin Hp | v x Hin Hx Hb | xs e' Hxs Hd | p E Hp].
    + tauto.
    + right. left. split; [| done]. destruct (from_config_str _) as [f |] eqn:E; [| done].
      apply from_config_str_Some in E. exfalso. apply Hf. rewrite E. destruct f; [by left | by right].
    + tauto.
    + tauto.
    + tauto.
    + tauto.
    + do 4 right. left. unfold pin_errors. rewrite E. apply elem_of_app. left. by apply in_if.
    + do 4 right. left. unfold pin_errors. rewrite E. apply elem_of_app. right. apply list_elem_of_fmap. exists c.
      split; [done |]. by apply list_elem_of_filter.
    + do 5 right. left. rewrite E. apply list_elem_of_here.
    + do 6 right. left. apply list_elem_of_bind. exists v. split; [| done]. apply vport_errors_spec. tauto.
    + do 6 right. left. apply list_elem_of_bind. exists v. split; [| done]. apply vport_errors_spec. tauto.
    + do 6 right. left. apply list_elem_of_bind. exists v. split; [| done]. apply vport_errors_spec. naive_solver.
    + do 7 right. left. by exists xs.
    + do 8 right. unfold punt_errors. rewrite E. by apply in_unless.
Qed.

Lemma no_negative cores :
  filter (fun c => c < 0) cores = [] -> Z.of_nat <$> (Z.to_nat <$> filter (fun c => ~ c < 0) cores) = cores.
Proof.
  induction cores as [| c cores IH]; [done |]. rewrite !filter_cons.
  destruct (decide (c < 0)); [done |]. rewrite decide_True by done. intros Hn. cbn. rewrite IH by done. f_equal. lia.
Qed.

Lemma validate_parts raw registry :
  exists repeated built,
    validate raw registry = into_result (rule_errors raw registry repeated) built /\
    (forall e, e ∈ repeated <-> exists ys : list (Vport A), Forall2 declares (rc_vport raw) ys /\ dup_error ys 0 e) /\
    (rule_errors raw registry repeated = [] -> exists c, built = Some c /\ describes raw c /\ well_built c).
Proof.
  unfold validate. rewrite !require_spec, threads_refine. unfold rule_errors. set (n := rc_node raw).
  set (bind := addr_parse (rn_bind n)). set (fabric := from_config_str (rn_fabric n)).
  rewrite check_names_spec, refine_pins_spec.
  lazymatch goal with |- context [refine_vports bind _ ?x] =>
    pose proof (refine_vports_spec bind (rc_vport raw) x) as Hv; destruct (refine_vports bind (rc_vport raw) x) as [errs1 xs] end.
  destruct Hv as (-> & Hle & Hxs).
  lazymatch goal with |- context [build xs ?x] => pose proof (table_stage _ xs x bind Hle Hxs) as Ht end.
  destruct (if _ && _ then build _ _ else _) as [errs2 t]. destruct Ht as (new & -> & Hnew & Ht).
  rewrite refine_punt_spec. eexists new, _. split; [f_equal |].
  { unfold bind, fabric, n, threads_ok. destruct (rc_vport raw); unfold push_error;
      rewrite ?app_nil_l, <- ?app_assoc; cbn [app]; repeat case_bool_decide; try tauto; reflexivity. }
  split; [exact Hnew |]. intros Hnil. unfold bind, fabric in *.
  repeat lazymatch type of Hnil with _ ++ _ = [] => let Hx := fresh "E" in apply app_eq_nil in Hnil as [Hx Hnil] end.
  destruct (addr_parse (rn_bind n)) as [b |] eqn:Eb; [| done].
  destruct (from_config_str (rn_fabric n)) as [f |] eqn:Ef; [| done]. apply from_config_str_Some in Ef.
  destruct (decide (threads_ok n)) as [Hth | Hth]; [| by rewrite bool_decide_false in E1]. rewrite bool_decide_true by exact Hth.
  destruct t as [t |].
  2: { exfalso. destruct Ht as [Hvs | [[e He] | [e He]]].
       - by rewrite Hvs in E4.
       - rewrite E6 in He. by apply elem_of_nil in He.
       - rewrite E5 in He. by apply elem_of_nil in He. }
  cbn [mbind option_bind]. eexists. split; [reflexivity |].
  unfold describes. cbn [c_node c_vports c_punt nc_id nc_bind nc_fabric nc_pipeline nc_threads nc_pin_cores nc_ctl_socket nc_metrics_interval].
  fold n. unfold well_built. cbn [c_node c_vports nc_threads]. rewrite uv_of_small by (unfold threads_ok in Hth; cbn; lia).
  split; [| split; [exact Hth | apply Ht]].
  split; [done |]. split; [done |]. split; [done |]. split; [done |]. split; [done |].
  split.
  { apply no_negative. unfold pin_errors in E3. destruct (rn_pin_cores n); [| done].
    apply app_eq_nil in E3 as [_ E3]. by apply fmap_nil_inv in E3. }
  split; [done |]. split; [| split; [apply Ht | done]].
  destruct (Z.ltb_spec 0 (uv (rn_metrics_interval_s n))) as [Hm | Hm]; [done |]. apply uint_eq.
  pose proof (uint_range (rn_metrics_interval_s n)). change (uv (U64 0) = uv (rn_metrics_interval_s n)).
  change (uv (U64 0)) with 0. lia.
Qed.

Lemma validate_well_built raw registry (c : Config A) : validate raw registry = Ok c -> well_built c.
Proof.
  destruct (validate_parts raw registry) as (new & built & -> & _ & Hok).
  destruct (rule_errors raw registry new) as [| e es]; [| by destruct built].
  destruct (Hok eq_refl) as (c' & -> & _ & Hw). by intros [= <-].
Qed.

Lemma validate_describes raw registry (c : Config A) : validate raw registry = Ok c -> describes raw c.
Proof.
  destruct (validate_parts raw registry) as (new & built & -> & _ & Hok).
  destruct (rule_errors raw registry new) as [| e es]; [| by destruct built].
  destruct (Hok eq_refl) as (c' & -> & Hd & _). by intros [= <-].
Qed.

Lemma validate_pipeline raw registry (c : Config A) : validate raw registry = Ok c -> nc_pipeline (c_node c) ∈ registry.
Proof.
  destruct (validate_parts raw registry) as (new & built & -> & _ & Hok).
  destruct (rule_errors raw registry new) as [| e es] eqn:Er; [| by destruct built].
  destruct (Hok eq_refl) as (c' & -> & (_ & _ & _ & Hp & _) & _). intros [= <-]. rewrite Hp.
  destruct (decide (rn_pipeline (rc_node raw) ∈ registry)) as [| Hno]; [done | exfalso].
  assert (UnknownPipeline (rn_pipeline (rc_node raw)) registry ∈ rule_errors raw registry new) as Hin.
  { unfold rule_errors, name_errors. rewrite !elem_of_app, !in_unless. tauto. }
  rewrite Er in Hin. by apply elem_of_nil in Hin.
Qed.
(** A configuration of which no stage finds anything, and that is built, breaks
    no rule, judged or not. *)
Lemma accepted_unbroken raw registry (c : Config A) entries errs :
  describes raw c -> build entries errs = (errs, Some (c_vports c)) -> (forall e, ~ Found registry raw e) ->
  forall r, ~ broken registry raw r.
Proof.
  intros (_ & _ & _ & _ & _ & _ & _ & _ & Hd & _) Hb Hf r Hr.
  pose proof (build_spec entries errs) as Hs. rewrite Hb in Hs. destruct Hs as (_ & _ & H1 & H2 & He & _). rewrite <- He in H1, H2.
  assert (forall v, v ∈ rc_vport raw -> id_in_range v /\ is_Some (addr_parse (A := A) (rv_peer v))) as Hall by (apply all_declare; by eexists).
  assert (forall r e, broken registry raw r -> ~ unjudged raw r -> reported registry raw r = Some e -> False) as Hgo
    by (intros r' e H3 H4 H5; apply (Hf e), found_spec; by exists r').
  destruct r as [| | | | | | | k | | i | i | i | i j | i j |]; pose proof Hr as Hr'; cbn in Hr'.
  1-6,8-9: by eapply Hgo; [exact Hr | cbn; tauto | reflexivity].
  - destruct Hr' as (cores & E & _). destruct (decide (threads_ok (rc_node raw))) as [Ht | Ht].
    + eapply (Hgo RPinCount); [exact Hr | cbn; tauto | cbn; by rewrite E].
    + apply (Hgo RThreads _ Ht (fun x => x) eq_refl).
  - destruct Hr' as (v & Hi & _). eapply (Hgo (RIdRange i)); [exact Hr | cbn; tauto | cbn; by rewrite Hi].
  - destruct Hr' as (v & Hi & _). eapply (Hgo (RPeer i)); [exact Hr | cbn; tauto | cbn; by rewrite Hi].
  - destruct Hr' as (v & p & Hi & _). eapply (Hgo (RPeerNotSelf i)); [exact Hr | | cbn; by rewrite Hi].
    intros (u & Hu & Hn). rewrite Hi in Hu. injection Hu as <-. apply Hn, Hall. by eapply list_elem_of_lookup_2.
  - apply (repeated_repeats _ _ _ _ _ _ Hd same_id) in Hr' as (w & v & Hrep). by apply (NoDup_no_dup _ _ _ _ _ _ H1) in Hrep.
  - destruct Hr' as [Hr' _]. apply (repeated_repeats _ _ _ _ _ _ Hd same_peer) in Hr' as (w & v & Hrep).
    by apply (NoDup_no_dup _ _ _ _ _ _ H2) in Hrep.
  - destruct Hr' as (p & E & _). eapply (Hgo RPunt); [exact Hr | cbn; tauto | cbn; by rewrite E].
Qed.
End validation.

(** ** Properties *)

(** C30: what validation reports.  A configuration is accepted only when it breaks
    no rule at all, and then says what its file said; one that breaks any is
    refused with the list of the rules it breaks and nothing else, in particular
    never with the "internal" error.  Of the broken rules those are left out that
    are not judged ([unjudged]): the number of pinned cores while the number of
    threads is no number, whether an entry without an id has the node itself
    for a peer, and whether entries repeat each other while any of them is
    refused. *)
Theorem validate_reports_exactly `{Addr A} (raw : RawConfig) (registry : list string) :
  match validate raw registry with
  | Ok c => (forall r, ~ broken registry raw r) /\ describes raw c
  | Err es => es <> [] /\
      forall e, e ∈ es <-> exists r, broken registry raw r /\ ~ unjudged raw r /\ reported registry raw r = Some e
  end.
Proof.
  destruct (validate_parts raw registry) as (new & built & -> & Hnew & Hok).
  pose proof (fun e => rule_errors_spec raw registry new e Hnew) as Hspec.
  destruct (rule_errors raw registry new) as [| e0 es] eqn:E.
  - destruct (Hok eq_refl) as (c & -> & Hc & _ & entries & errs & Hb). cbn [into_result]. split; [| done].
    apply (accepted_unbroken raw registry c entries errs Hc Hb). intros e He%Hspec. by apply elem_of_nil in He.
  - assert (forall e, e ∈ e0 :: es <-> exists r, broken registry raw r /\ ~ unjudged raw r /\ reported registry raw r = Some e) as Hr
      by (intros e; by rewrite Hspec, found_spec).
    destruct built; cbn [into_result]; (split; [done | exact Hr]).
Qed.

(** An accepted topology answers both of its lookups exactly: an id or a
    peer address leads to an index when, and only when, the entry there has it;
    every index it hands out is live.  A list of vports is refused exactly when
    it is empty, repeats an id or repeats a peer, however long it is. *)
Theorem vport_table_lookups `{Addr A} (entries : list (Vport A)) (errs : Errors) :
  match build entries errs with
  | (errs', Some t) =>
      errs' = errs /\ entries <> [] /\ NoDup (vp_id <$> entries) /\ NoDup (vp_peer <$> entries) /\
      (forall id i, idx_of_id t id = Some i <-> exists v, vt_get t i = Some v /\ vport_id (vp_id v) = id) /\
      (forall p i, idx_of_peer t p = Some i <-> exists v, vt_get t i = Some v /\ vp_peer v = p) /\
      (forall i v, (i, v) ∈ vt_iter t <-> vt_get t i = Some v) /\
      length (vt_iter t) = length entries
  | (errs', None) =>
      (entries = [] /\ errs' = errs) \/
      (~ (NoDup (vp_id <$> entries) /\ NoDup (vp_peer <$> entries)) /\ (length errs < length errs')%nat)
  end.
Proof.
  pose proof (build_spec entries errs) as Hb. destruct (build entries errs) as [errs' [t |]].
  - destruct Hb as (-> & Hne & H1 & H2 & He & Hid & Hp). do 6 (split; [done |]).
    split; [| unfold vt_iter; by rewrite length_imap, He]. intros i v. apply vt_iter_lookup. unfold vt_len. rewrite He.
    by apply ids_bounded.
  - destruct Hb as (new & -> & _ & Hnd & Hempty). destruct new as [| e new].
    + left. rewrite app_nil_r. split; [by apply Hempty | done].
    + right. rewrite <- Hnd, length_app. cbn. split; [done | lia].
Qed.

(** ** What goes unreported *)
Module Silent.

Definition addr : Addr string := {|
  addr_parse s := if bool_decide (s = "?"%string) then None else Some s;
  addr_to_string s := s;
|}.

Definition node (threads : Z) : RawNode := {|
  rn_id := "n"; rn_bind := "b"; rn_fabric := "ipv4"; rn_pipeline := "null"; rn_threads := U32 threads;
  rn_pin_cores := Some [0; 1; 2]; rn_ctl_socket := "s"; rn_metrics_interval_s := U64 0;
|}.
Definition entry (id : Z) (peer : string) : RawVport := {| rv_id := id; rv_peer := peer |}.

(** Two entries share an id, and a third has no peer: only the third is
    reported.  Three cores are pinned for no thread at all: only the threads are
    reported. *)
Lemma violations_hide :
  let twice := {| rc_node := node 3; rc_vport := [entry 3 "x"; entry 3 "y"; entry 5 "?"]; rc_punt := None |} in
  let idle := {| rc_node := node 0; rc_vport := [entry 3 "x"]; rc_punt := None |} in
  broken (H := addr) ["null"%string] twice (RIdUnique 0 1) /\
  validate (H := addr) twice ["null"%string] = Err [PeerError 5 "?"] /\
  broken (H := addr) ["null"%string] idle RPinCount /\
  validate (H := addr) idle ["null"%string] = Err [ThreadsError 0].
Proof.
  cbv zeta. split; [| split; [reflexivity | split; [| reflexivity]]].
  - split; [lia |]. exists (entry 3 "x"), (entry 3 "y"). split_and!; [done.. |]. intros k u Hk. lia.
  - exists [0; 1; 2]. split; [done |]. by vm_compute.
Qed.
End Silent.
