(* ===== verification/Metrics.v ===== *)
(** * Counters (crates/up4-metrics)

    The registry every discard is charged to: closed enumerations of counters,
    one block of cells per vport, two histograms, and the snapshot of them all.
    A bump is one atomic fetch-and-add, so what concurrent shards leave behind
    is what some order of their bumps leaves behind; the theorems hold for
    every order. *)

From S2P Require Import Prelude Bytes Text Config.

Local Open Scope Z_scope.

Inductive Counter :=
  | RxUnknownPeer
  | RxBadHeader
  | TxOversizeDrop
  | TxWouldBlock
  | PuntUnconfiguredDrop
  | PuntOverflowDrop
  | TxUnknownPort
  | TxSendError
  | EngineDrop
  | SyscallsRx
  | SyscallsTx.

#[export] Instance Counter_eq_dec : EqDecision Counter.
Proof. solve_decision. Defined.

Definition Counter_ALL : list Counter :=
  [RxUnknownPeer; RxBadHeader; TxOversizeDrop; TxWouldBlock; PuntUnconfiguredDrop; PuntOverflowDrop;
   TxUnknownPort; TxSendError; EngineDrop; SyscallsRx; SyscallsTx].

Definition HARNESS_DROPS : list Counter :=
  [RxUnknownPeer; RxBadHeader; TxOversizeDrop; TxWouldBlock; PuntUnconfiguredDrop; PuntOverflowDrop;
   TxUnknownPort; TxSendError].

Definition counter_name (c : Counter) : string :=
  match c with
  | RxUnknownPeer => "rx_unknown_peer"
  | RxBadHeader => "rx_bad_header"
  | TxOversizeDrop => "tx_oversize_drop"
  | TxWouldBlock => "tx_would_block"
  | PuntUnconfiguredDrop => "punt_unconfigured_drop"
  | PuntOverflowDrop => "punt_overflow_drop"
  | TxUnknownPort => "tx_unknown_port"
  | TxSendError => "tx_send_error"
  | EngineDrop => "engine_drop"
  | SyscallsRx => "syscalls_rx"
  | SyscallsTx => "syscalls_tx"
  end.

(** [c as usize] *)
Definition counter_index (c : Counter) : nat :=
  match c with
  | RxUnknownPeer => 0 | RxBadHeader => 1 | TxOversizeDrop => 2 | TxWouldBlock => 3
  | PuntUnconfiguredDrop => 4 | PuntOverflowDrop => 5 | TxUnknownPort => 6 | TxSendError => 7
  | EngineDrop => 8 | SyscallsRx => 9 | SyscallsTx => 10
  end%nat.

Inductive VportCounter :=
  | RxPkts
  | RxBytes
  | TxPkts
  | TxBytes
  | TxBroadcast
  | RxSeqGapTotal
  | RxReorder.

#[export] Instance VportCounter_eq_dec : EqDecision VportCounter.
Proof. solve_decision. Defined.

Definition VportCounter_ALL : list VportCounter :=
  [RxPkts; RxBytes; TxPkts; TxBytes; TxBroadcast; RxSeqGapTotal; RxReorder].

Definition vport_counter_name (c : VportCounter) : string :=
  match c with
  | RxPkts => "rx_pkts"
  | RxBytes => "rx_bytes"
  | TxPkts => "tx_pkts"
  | TxBytes => "tx_bytes"
  | TxBroadcast => "tx_broadcast"
  | RxSeqGapTotal => "rx_seq_gap_total"
  | RxReorder => "rx_reorder"
  end.

Definition vport_counter_index (c : VportCounter) : nat :=
  match c with
  | RxPkts => 0 | RxBytes => 1 | TxPkts => 2 | TxBytes => 3 | TxBroadcast => 4 | RxSeqGapTotal => 5 | RxReorder => 6
  end%nat.

Inductive Hist := GroSegmentsPerRead | TxBatchSize.

#[export] Instance Hist_eq_dec : EqDecision Hist.
Proof. solve_decision. Defined.

Definition Hist_ALL : list Hist := [GroSegmentsPerRead; TxBatchSize].

Definition hist_name (h : Hist) : string :=
  match h with GroSegmentsPerRead => "gro_segments_per_read" | TxBatchSize => "tx_batch_size" end.

Definition hist_index (h : Hist) : nat := match h with GroSegmentsPerRead => 0 | TxBatchSize => 1 end%nat.

(** ** Cells *)

(** [AtomicU64::fetch_add] *)
Definition fetch_add (n x : u64) : u64 := U64 (uv x + uv n).

Definition cell_add (i : nat) (n : u64) (cells : list u64) : list u64 := alter (fetch_add n) i cells.

Definition cell_get (i : nat) (cells : list u64) : u64 := default (U64 0) (cells !! i).

Definition zeros (n : nat) : list u64 := replicate n (U64 0).

(** ** Histograms *)

Definition BOUNDS : list Z := [1; 2; 4; 8; 16; 32; 64].
Definition BUCKETS : nat := S (length BOUNDS).

(** The bucket [Histogram::record] charges. *)
Definition bucket_of (value : nat) : nat :=
  match try_u 32 (Z.max (Z.of_nat value) 1) with
  | Some v => if uv v <=? 64 then Z.to_nat (Z.log2 (uv v)) else length BOUNDS
  | None => length BOUNDS
  end.

Definition hist_record (value : nat) (buckets : list u64) : list u64 := cell_add (bucket_of value) (U64 1) buckets.

(** ** The registry *)

Record Metrics := {
  m_node : string;
  m_global : list u64;
  m_vports : list (list u64);
  m_vport_ids : list u16;
  m_hists : list (list u64);
}.

Definition metrics_new `{Addr A} (node : string) (t : VportTable A) : Metrics := {|
  m_node := node;
  m_global := zeros (length Counter_ALL);
  m_vports := (fun _ => zeros (length VportCounter_ALL)) <$> seq 0 (vt_len t);
  m_vport_ids := (fun e => vport_id (vp_id e.2)) <$> vt_iter t;
  m_hists := (fun _ => zeros BUCKETS) <$> Hist_ALL;
|}.

Definition madd (c : Counter) (n : u64) (m : Metrics) : Metrics :=
  {| m_node := m_node m; m_global := cell_add (counter_index c) n (m_global m);
     m_vports := m_vports m; m_vport_ids := m_vport_ids m; m_hists := m_hists m |}.

Definition mbump (c : Counter) : Metrics -> Metrics := madd c (U64 1).

Definition mget (m : Metrics) (c : Counter) : u64 := cell_get (counter_index c) (m_global m).

(** [Metrics::vport(idx).add] *)
Definition vadd (i : VportIdx) (c : VportCounter) (n : u64) (m : Metrics) : Metrics :=
  {| m_node := m_node m; m_global := m_global m;
     m_vports := alter (cell_add (vport_counter_index c) n) (vidx_get i) (m_vports m);
     m_vport_ids := m_vport_ids m; m_hists := m_hists m |}.

Definition vbump (i : VportIdx) (c : VportCounter) : Metrics -> Metrics := vadd i c (U64 1).

Definition vget (m : Metrics) (i : nat) (c : VportCounter) : u64 :=
  cell_get (vport_counter_index c) (default [] (m_vports m !! i)).

(** [Metrics::hist(h).record] *)
Definition mrecord (h : Hist) (value : nat) (m : Metrics) : Metrics :=
  {| m_node := m_node m; m_global := m_global m; m_vports := m_vports m; m_vport_ids := m_vport_ids m;
     m_hists := alter (hist_record value) (hist_index h) (m_hists m) |}.

Definition hist_read (m : Metrics) (h : Hist) : list u64 := default [] (m_hists m !! hist_index h).

(** [Iterator::sum] over [u64] in a release build. *)
Definition sum_u64 (l : list u64) : u64 := foldl (fun a x => U64 (uv a + uv x)) (U64 0) l.

Definition harness_drops (m : Metrics) : u64 := sum_u64 (mget m <$> HARNESS_DROPS).

(** ** Snapshots *)

Record HistBucket := { le : option Z; hb_count : u64 }.

Record VportSnapshot := { vs_id : u16; vs_counters : gmap string u64 }.

Record Snapshot := {
  sn_node : string;
  sn_ts_us : u64;
  sn_counters : gmap string u64;
  sn_harness_drops : u64;
  sn_vports : list VportSnapshot;
  sn_histograms : gmap string (list HistBucket);
}.

(** [HistogramSnapshot::of] *)
Definition hist_snapshot (counts : list u64) : list HistBucket :=
  imap (fun i n => {| le := BOUNDS !! i; hb_count := n |}) counts.

Definition snapshot (ts_us : u64) (m : Metrics) : Snapshot := {|
  sn_node := m_node m;
  sn_ts_us := ts_us;
  sn_counters := list_to_map ((fun c => (counter_name c, mget m c)) <$> Counter_ALL);
  sn_harness_drops := harness_drops m;
  sn_vports := zip_with (fun id block =>
    {| vs_id := id;
       vs_counters := list_to_map ((fun c => (vport_counter_name c, cell_get (vport_counter_index c) block))
                                     <$> VportCounter_ALL) |}) (m_vport_ids m) (m_vports m);
  sn_histograms := list_to_map ((fun h => (hist_name h, hist_snapshot (hist_read m h))) <$> Hist_ALL);
|}.

(** ** Runs *)

(** Everything the harness does to the registry. *)
Inductive MOp :=
  | MAdd (c : Counter) (n : u64)
  | MVport (i : VportIdx) (c : VportCounter) (n : u64)
  | MRecord (h : Hist) (value : nat).

Definition mop (m : Metrics) (o : MOp) : Metrics :=
  match o with
  | MAdd c n => madd c n m
  | MVport i c n => vadd i c n m
  | MRecord h v => mrecord h v m
  end.

(** What an operation adds to a counter, to a vport's counter, to a bucket. *)
Definition to_counter (c : Counter) (o : MOp) : Z :=
  match o with MAdd c' n => if bool_decide (c = c') then uv n else 0 | _ => 0 end.

Definition to_vport (i : nat) (c : VportCounter) (o : MOp) : Z :=
  match o with MVport i' c' n => if bool_decide (i = vidx_get i' /\ c = c') then uv n else 0 | _ => 0 end.

Definition to_bucket (h : Hist) (b : nat) (o : MOp) : Z :=
  match o with MRecord h' v => if bool_decide (h = h' /\ bucket_of v = b) then 1 else 0 | _ => 0 end.

Definition total (f : MOp -> Z) (ops : list MOp) : Z := foldr (fun o n => f o + n) 0 ops.

(** ** Lemmas *)

Lemma mod_uv (x : u64) z : U64 (uv (U64 z) + uv x) = U64 (z + uv x).
Proof. apply uint_eq. rewrite !uv_of. apply Zplus_mod_idemp_l. Qed.

Lemma cell_get_add i j n cells :
  (j < length cells)%nat ->
  cell_get j (cell_add i n cells) = if bool_decide (i = j) then fetch_add n (cell_get j cells) else cell_get j cells.
Proof.
  intros Hj. unfold cell_get, cell_add. case_bool_decide as Hij.
  - subst i. rewrite list_lookup_alter_eq. by destruct (lookup_lt_is_Some_2 cells j Hj) as [x ->].
  - by rewrite list_lookup_alter_ne.
Qed.

Lemma counter_index_inj c c' : counter_index c = counter_index c' -> c = c'.
Proof. by destruct c, c'. Qed.

Lemma vport_counter_index_inj c c' : vport_counter_index c = vport_counter_index c' -> c = c'.
Proof. by destruct c, c'. Qed.

Lemma hist_index_inj c c' : hist_index c = hist_index c' -> c = c'.
Proof. by destruct c, c'. Qed.

Lemma bool_decide_inj {B C} `{EqDecision B, EqDecision C} (f : B -> C) x y :
  (forall x y, f x = f y -> x = y) -> bool_decide (f x = f y) = bool_decide (x = y).
Proof. intros Hf. apply bool_decide_ext. split; [apply Hf | by intros ->]. Qed.

(** The registry keeps its shape. *)
Record shaped (m : Metrics) : Prop := {
  sh_global : length (m_global m) = length Counter_ALL;
  sh_vports : forall i cells, m_vports m !! i = Some cells -> length cells = length VportCounter_ALL;
  sh_hists : length (m_hists m) = length Hist_ALL /\
             forall i cells, m_hists m !! i = Some cells -> length cells = BUCKETS;
}.

Lemma shaped_new `{Addr A} node (t : VportTable A) : shaped (metrics_new node t).
Proof.
  split; [done | | split; [done |]]; intros i cells Hi.
  - cbn [m_vports metrics_new] in Hi. rewrite list_lookup_fmap in Hi.
    apply fmap_Some in Hi as (? & _ & ->). done.
  - cbn [m_hists metrics_new] in Hi. rewrite list_lookup_fmap in Hi. apply fmap_Some in Hi as (? & _ & ->). done.
Qed.

Lemma lookup_alter_length {B} (f : list B -> list B) (k : nat) (ls : list (list B)) (n : nat) :
  (forall l, length (f l) = length l) ->
  (forall (i : nat) l, ls !! i = Some l -> length l = n) -> forall (i : nat) l, alter f k ls !! i = Some l -> length l = n.
Proof.
  intros Hf Hls i l. rewrite list_lookup_alter. case_decide.
  - intros (l' & Hl & ->)%fmap_Some. rewrite Hf. by eapply Hls.
  - apply Hls.
Qed.

Lemma shaped_op m o : shaped m -> shaped (mop m o).
Proof.
  intros [H1 H2 [H3 H4]]. destruct o as [c n | i c n | h v]; cbn [mop]; split; try done; cbn [m_global m_vports m_hists madd vadd mrecord].
  - unfold cell_add. by rewrite length_alter.
  - apply lookup_alter_length; [intros l; apply length_alter | done].
  - rewrite length_alter. split; [done |]. apply lookup_alter_length; [intros l; apply length_alter | done].
Qed.

Lemma counter_index_lt c : (counter_index c < length Counter_ALL)%nat.
Proof. destruct c; cbn; lia. Qed.

Lemma vport_counter_index_lt c : (vport_counter_index c < length VportCounter_ALL)%nat.
Proof. destruct c; cbn; lia. Qed.

Lemma hist_index_lt h : (hist_index h < length Hist_ALL)%nat.
Proof. destruct h; cbn; lia. Qed.

Lemma uv_add_0 (x : u64) : U64 (uv x + 0) = x.
Proof. rewrite Z.add_0_r. apply u_of_uv. Qed.

Lemma step_counter m o c : shaped m -> mget (mop m o) c = U64 (uv (mget m c) + to_counter c o).
Proof.
  intros [H1 _ _]. destruct o as [c' n | |]; cbn [mop to_counter]; [| by rewrite uv_add_0 | by rewrite uv_add_0].
  unfold mget. cbn [m_global madd]. rewrite cell_get_add by (rewrite H1; apply counter_index_lt).
  rewrite (bool_decide_inj counter_index) by apply counter_index_inj.
  rewrite (bool_decide_ext (c' = c) (c = c')) by done. case_bool_decide; [done | by rewrite uv_add_0].
Qed.

Lemma step_vport m o (i : nat) c :
  shaped m -> (i < length (m_vports m))%nat -> vget (mop m o) i c = U64 (uv (vget m i c) + to_vport i c o).
Proof.
  intros [_ H2 _] Hi. destruct (lookup_lt_is_Some_2 _ _ Hi) as [cells Hc].
  destruct o as [| i' c' n |]; cbn [mop to_vport]; [by rewrite uv_add_0 | | by rewrite uv_add_0].
  unfold vget. cbn [m_vports vadd]. rewrite list_lookup_alter. case_decide as Hii; cbn [default].
  - subst i. rewrite Hc. cbn [fmap option_fmap option_map default].
    unfold id. rewrite cell_get_add by (rewrite (H2 _ _ Hc); apply vport_counter_index_lt).
    rewrite (bool_decide_inj vport_counter_index) by apply vport_counter_index_inj.
    rewrite (bool_decide_ext (vidx_get i' = vidx_get i' /\ c = c') (c' = c)) by (split; [by intros [_ ->] | by intros ->]).
    case_bool_decide; [done | by rewrite uv_add_0].
  - rewrite bool_decide_false by (intros [? _]; congruence). by rewrite uv_add_0.
Qed.

Lemma bucket_of_lt v : (bucket_of v < BUCKETS)%nat.
Proof.
  unfold bucket_of, try_u. destruct (in_width _ _) eqn:E; [| vm_compute; lia]. apply in_width_spec in E.
  rewrite uv_of_small by done. destruct (Z.leb_spec (Z.max (Z.of_nat v) 1) 64) as [Hle |]; [| vm_compute; lia].
  apply Z.log2_le_mono in Hle. change (Z.log2 64) with 6 in Hle. pose proof (Z.log2_nonneg (Z.max (Z.of_nat v) 1)).
  unfold BUCKETS. cbn [length BOUNDS]. lia.
Qed.

Lemma step_bucket m o h b :
  shaped m -> (b < BUCKETS)%nat ->
  cell_get b (hist_read (mop m o) h) = U64 (uv (cell_get b (hist_read m h)) + to_bucket h b o).
Proof.
  intros [_ _ [H3 H4]] Hb.
  assert (hist_index h < length (m_hists m))%nat as Hi by (rewrite H3; apply hist_index_lt).
  destruct (lookup_lt_is_Some_2 _ _ Hi) as [cells Hc].
  destruct o as [| | h' v]; cbn [mop to_bucket]; [by rewrite uv_add_0 | by rewrite uv_add_0 |].
  unfold hist_read. cbn [m_hists mrecord]. rewrite list_lookup_alter. case_decide as Hii.
  - apply hist_index_inj in Hii as ->. rewrite Hc. cbn [fmap option_fmap option_map default]. unfold hist_record, id.
    rewrite cell_get_add by (by rewrite (H4 _ _ Hc)).
    rewrite (bool_decide_ext (h = h /\ bucket_of v = b) (bucket_of v = b)) by tauto.
    case_bool_decide; [done | by rewrite uv_add_0].
  - rewrite bool_decide_false by (intros [? _]; congruence). by rewrite uv_add_0.
Qed.

Lemma ops_shape m ops : shaped m -> shaped (foldl mop m ops) /\ length (m_vports (foldl mop m ops)) = length (m_vports m).
Proof.
  revert m. induction ops as [| o ops IH]; intros m Hm; [done |]. cbn [foldl].
  destruct (IH (mop m o) (shaped_op m o Hm)) as [I1 I2]. split; [done |]. rewrite I2.
  destruct o; cbn [mop m_vports madd vadd mrecord]; [done | apply length_alter | done].
Qed.

(** A cell that every operation adds to holds the total. *)
Lemma ops_total (f : Metrics -> u64) (g : MOp -> Z) (P : Metrics -> Prop) ops m :
  (forall m o, shaped m -> P m -> f (mop m o) = U64 (uv (f m) + g o)) ->
  (forall m o, P m -> P (mop m o)) ->
  shaped m -> P m -> f (foldl mop m ops) = U64 (uv (f m) + total g ops).
Proof.
  intros Hf HP. revert m. induction ops as [| o ops IH]; intros m Hm Hp; cbn [foldl total foldr].
  - by rewrite uv_add_0.
  - rewrite IH by auto using shaped_op. rewrite Hf by done. apply uint_eq. rewrite !uv_of.
    rewrite Zplus_mod_idemp_l. f_equal. unfold total. lia.
Qed.

Lemma mget_after m ops c :
  shaped m -> mget (foldl mop m ops) c = U64 (uv (mget m c) + total (to_counter c) ops).
Proof.
  intros Hm. apply (ops_total (fun m => mget m c) (to_counter c) (fun _ => True)); try done.
  intros m' o Hm' _. by apply step_counter.
Qed.

Lemma vget_after m ops (i : nat) c :
  shaped m -> (i < length (m_vports m))%nat ->
  vget (foldl mop m ops) i c = U64 (uv (vget m i c) + total (to_vport i c) ops).
Proof.
  intros Hm Hi. apply (ops_total (fun m => vget m i c) (to_vport i c) (fun m => (i < length (m_vports m))%nat)); try done.
  - intros m' o Hm' Hi'. by apply step_vport.
  - intros m' o Hi'. destruct o; cbn [mop m_vports madd vadd mrecord]; by rewrite ?length_alter.
Qed.

Lemma sum_u64_spec l : sum_u64 l = U64 (foldr (fun x n => uv x + n) 0 l).
Proof.
  unfold sum_u64. assert (forall a, foldl (fun a x => U64 (uv a + uv x)) a l = U64 (uv a + foldr (fun x n => uv x + n) 0 l)) as H.
  { induction l as [| x l IH]; intros a; cbn [foldl foldr]; [by rewrite uv_add_0 |]. rewrite IH. apply uint_eq.
    rewrite !uv_of, Zplus_mod_idemp_l. f_equal. lia. }
  rewrite H. f_equal.
Qed.

Lemma sum_totals m (f : Counter -> Z) cs :
  (forall c, mget m c = U64 (f c)) -> uv (sum_u64 (mget m <$> cs)) = foldr (fun c n => f c + n) 0 cs mod 2 ^ 64.
Proof.
  intros Hf. rewrite sum_u64_spec, uv_of. change (Z.of_N 64) with 64.
  induction cs as [| c cs IH]; [done |]. rewrite fmap_cons. cbn [foldr].
  rewrite Hf, uv_of. change (Z.of_N 64) with 64. rewrite Zplus_mod_idemp_l, Zplus_mod, IH.
  by rewrite <- Zplus_mod.
Qed.

(** ** Properties *)

(** The counters are exact tallies.  After any sequence of bumps, and so
    after any interleaving of the shards' bumps, every node-wide counter, every
    vport's counter and every histogram bucket holds what was added to it and
    nothing else, modulo 2^64; and the snapshot lists each of them under its
    own name, the harness drops being the sum of the eight that are not the
    pipeline's decision. *)
Theorem counters_are_tallies `{Addr A} (node : string) (t : VportTable A) (ops : list MOp) (ts : u64) :
  let m := foldl mop (metrics_new node t) ops in
  (forall c, mget m c = U64 (total (to_counter c) ops)) /\
  (forall i c, (i < vt_len t)%nat -> vget m i c = U64 (total (to_vport i c) ops)) /\
  (forall h b, (b < BUCKETS)%nat -> cell_get b (hist_read m h) = U64 (total (to_bucket h b) ops)) /\
  (forall c, sn_counters (snapshot ts m) !! counter_name c = Some (mget m c)) /\
  size (sn_counters (snapshot ts m)) = 11%nat /\
  uv (sn_harness_drops (snapshot ts m)) = foldr (fun c n => total (to_counter c) ops + n) 0 HARNESS_DROPS mod 2 ^ 64 /\
  EngineDrop ∉ HARNESS_DROPS.
Proof.
  intros m. pose proof (shaped_new node t) as Hs.
  assert (forall c, mget m c = U64 (total (to_counter c) ops)) as Hc.
  { intros c. unfold m. rewrite mget_after by done. destruct c; reflexivity. }
  split; [exact Hc |]. split; [| split; [| split; [| split; [| split]]]].
  - intros i c Hi. unfold m. rewrite vget_after; [| done |].
    + unfold vget. cbn [m_vports metrics_new]. rewrite list_lookup_fmap, lookup_seq_lt by done.
      cbn [fmap option_fmap option_map default]. destruct c; reflexivity.
    + cbn [m_vports metrics_new]. by rewrite length_fmap, length_seq.
  - intros h b Hb. unfold m.
    rewrite (ops_total (fun m => cell_get b (hist_read m h)) (to_bucket h b) (fun _ => True)); try done.
    + unfold BUCKETS in Hb. cbn [length BOUNDS] in Hb. destruct h; do 8 (destruct b as [| b]; [reflexivity |]); lia.
    + intros m' o Hm' _. by apply step_bucket.
  - intros c. cbn [sn_counters snapshot]. destruct c; reflexivity.
  - cbn [sn_counters snapshot]. rewrite map_size_list_to_map; [done |].
    rewrite <- list_fmap_compose. unfold compose. cbn [fst]. apply (bool_decide_unpack _). vm_compute. done.
  - by apply sum_totals.
  - intros Hin. repeat (apply elem_of_cons in Hin as [Hin | Hin]; [done |]). by apply elem_of_nil in Hin.
Qed.

(** The bucket of an observation.  Up to 64 it is the integer logarithm, so
    the bound a snapshot prints for the bucket, [le], is the least value the
    bucket counts and not the greatest: every value between two powers of two
    exceeds it.  Above 64 it is the unbounded bucket, whatever the value. *)
Theorem bucket_bounds (v : nat) :
  (bucket_of v < BUCKETS)%nat /\
  match BOUNDS !! bucket_of v with
  | Some le => Z.of_nat v <= 64 /\ le <= Z.max (Z.of_nat v) 1 < 2 * le /\
               (le < Z.of_nat v <-> (1 < v)%nat /\ forall k, 0 <= k -> Z.of_nat v <> 2 ^ k)
  | None => 64 < Z.of_nat v
  end.
Proof.
  split; [apply bucket_of_lt |]. unfold bucket_of, try_u. set (x := Z.max (Z.of_nat v) 1).
  destruct (in_width 32 x) eqn:E.
  2: { cbn. destruct (Z.lt_ge_cases 64 (Z.of_nat v)); [done |]. rewrite (proj2 (in_width_spec 32 x)) in E; [done |].
       unfold x. cbn. lia. }
  rewrite uv_of_small by (by apply in_width_spec). destruct (Z.leb_spec x 64) as [Hle | Hgt].
  2: { cbn. unfold x in Hgt. lia. }
  assert (0 < x) as Hx by (unfold x; lia). pose proof (Z.log2_spec x Hx) as Hl.
  pose proof (Z.log2_le_mono x 64 Hle) as Hlog. change (Z.log2 64) with 6 in Hlog. pose proof (Z.log2_nonneg x) as Hn.
  assert (BOUNDS !! Z.to_nat (Z.log2 x) = Some (2 ^ Z.log2 x)) as ->.
  { assert (Z.log2 x = 0 \/ Z.log2 x = 1 \/ Z.log2 x = 2 \/ Z.log2 x = 3 \/ Z.log2 x = 4 \/ Z.log2 x = 5 \/ Z.log2 x = 6)
      as [-> | [-> | [-> | [-> | [-> | [-> | ->]]]]]] by lia; reflexivity. }
  rewrite Z.pow_succ_r in Hl by done. split; [unfold x in Hle; lia |]. split; [done |].
  assert (x = Z.of_nat v \/ (x = 1 /\ v = 0%nat)) as [Hv | [Hv ->]] by (unfold x; lia).
  2: { rewrite Hv. cbn. split; lia. }
  rewrite <- Hv. split.
  - intros Hlt. split.
    + assert (1 <= 2 ^ Z.log2 x); [| lia]. apply (Z.pow_le_mono_r 2 0); lia.
    + intros k Hk ->. rewrite Z.log2_pow2 in Hlt by done. lia.
  - intros [_ Hp]. specialize (Hp (Z.log2 x) Hn). lia.
Qed.
