(* ===== verification/Tx.v ===== *)
(** * Transmit staging (crates/up4-io/src/tx.rs)

    One destination's staging buffer: [push] appends an overlay header and a
    frame, [runs] cuts what is staged into spans that one segmented write can
    carry. *)

From S2P Require Import Prelude Bytes Wire.

Local Open Scope Z_scope.

(** [socket::TX_BATCH], [socket::GSO_MAX_BYTES] *)
Definition TX_BATCH : nat := 64.
Definition GSO_MAX_BYTES : Z := 65535 - 20 - 8.

(** [usize::from] of a [u16]. *)
Definition usize_of (l : u16) : nat := Z.to_nat (uv l).

Record Run := { r_start : nat; r_end : nat; r_count : nat; r_segment_size : nat }.

Record TxQueue := { q_buf : bytes; q_lens : list u16; q_used : nat; q_seg_len : nat }.

Definition TxQueue_new (inner_mtu : nat) : TxQueue :=
  let seg := (OVERLAY_HDR_LEN + inner_mtu)%nat in
  {| q_buf := replicate (TX_BATCH * seg) (U8 0); q_lens := []; q_used := 0; q_seg_len := seg |}.

Definition q_len (q : TxQueue) : nat := length (q_lens q).
Definition q_is_empty (q : TxQueue) : bool := bool_decide (q_lens q = []).
Definition q_is_full (q : TxQueue) : bool := (TX_BATCH <=? length (q_lens q))%nat.
Definition q_bytes (q : TxQueue) : bytes := take (q_used q) (q_buf q).
Definition inner_bytes (q : TxQueue) : nat := (q_used q - length (q_lens q) * OVERLAY_HDR_LEN)%nat.

(** [TxQueue::push] *)
Definition q_push (hdr frame : bytes) (q : TxQueue) : TxQueue * bool :=
  let len := (OVERLAY_HDR_LEN + length frame)%nat in
  if q_is_full q || (q_seg_len q <? len)%nat then (q, false)
  else
    match try_u 16 (Z.of_nat len) with
    | None => (q, false)
    | Some len16 =>
        ({| q_buf := copy_at (q_used q + OVERLAY_HDR_LEN) frame (copy_at (q_used q) hdr (q_buf q));
            q_lens := q_lens q ++ [len16]; q_used := (q_used q + len)%nat; q_seg_len := q_seg_len q |}, true)
    end.

Definition q_clear (q : TxQueue) : TxQueue :=
  {| q_buf := q_buf q; q_lens := []; q_used := 0; q_seg_len := q_seg_len q |}.

(** ** Runs

    The iterator's state is the index of the next segment and its offset; the
    lengths from there on are what its loops walk. *)

(** The [while] of [Runs::next]: the segments left, the offset and the count
    when it stops. *)
Fixpoint run_loop (max segment_size start : nat) (rest : list u16) (offset count : nat) : list u16 * nat * nat :=
  match rest with
  | [] => (rest, offset, count)
  | l :: rest' =>
      let len := usize_of l in
      if negb (count <? max)%nat then (rest, offset, count)
      else if (0 <? count)%nat && (GSO_MAX_BYTES <? Z.of_nat (offset - start + len)) then (rest, offset, count)
      else if (segment_size <? len)%nat then (rest, offset, count)
      else if (len <? segment_size)%nat then (rest', (offset + len)%nat, S count)
      else run_loop max segment_size start rest' (offset + len) (S count)
  end.

(** [Runs::next] *)
Definition runs_next (max : nat) (rest : list u16) (offset : nat) : option (Run * list u16 * nat) :=
  match rest with
  | [] => None
  | first :: _ =>
      let '(rest', fin, count) := run_loop max (usize_of first) offset rest offset 0 in
      Some ({| r_start := offset; r_end := fin; r_count := count; r_segment_size := usize_of first |}, rest', fin)
  end.

(** The iterator driven to its end; every run takes a segment at least, so the
    number of segments is fuel enough ([runs_collect_spec]). *)
Fixpoint runs_collect (fuel max : nat) (rest : list u16) (offset : nat) : list Run :=
  match fuel with
  | O => []
  | S fuel =>
      match runs_next max rest offset with
      | None => []
      | Some (r, rest, offset) => r :: runs_collect fuel max rest offset
      end
  end.

(** [TxQueue::runs] *)
Definition runs (max_segments : nat) (q : TxQueue) : list Run :=
  runs_collect (length (q_lens q)) (max_segments `max` 1) (q_lens q) 0.

(** ** What the kernel makes of a write

    A write with a segment size is cut into datagrams of that size, the last
    one taking what is left; a write without one is one datagram. *)

Fixpoint gso_split (fuel size : nat) (bs : bytes) : list bytes :=
  match fuel with
  | O => []
  | S fuel => match bs with [] => [] | _ => take size bs :: gso_split fuel size (drop size bs) end
  end.

(** The datagrams a run leaves as. *)
Definition datagrams (q : TxQueue) (r : Run) : list bytes :=
  let contents := slice (r_start r) (r_end r) (q_bytes q) in
  if (1 <? r_count r)%nat then gso_split (length contents) (r_segment_size r) contents else [contents].

(** ** Lemmas *)

Lemma usize_of_try n l : try_u 16 (Z.of_nat n) = Some l -> usize_of l = n.
Proof. intros H%try_u_Some. unfold usize_of. lia. Qed.

(** The queue holds these segments. *)
Record holds (q : TxQueue) (g : list bytes) : Prop := {
  h_lens : usize_of <$> q_lens q = length <$> g;
  h_used : q_used q = length (concat g);
  h_bytes : q_bytes q = concat g;
  h_cap : (length (q_buf q) = TX_BATCH * q_seg_len q)%nat;
  h_count : (length g <= TX_BATCH)%nat;
  h_seg : Forall (fun s => (OVERLAY_HDR_LEN <= length s <= q_seg_len q)%nat /\ Z.of_nat (length s) <= 65535) g;
}.

Lemma length_concat_le {B} n (g : list (list B)) :
  Forall (fun s => (length s <= n)%nat) g -> (length (concat g) <= length g * n)%nat.
Proof. induction 1 as [| s g Hs Hg IH]; cbn [concat length]; [lia |]. rewrite length_app. lia. Qed.

Lemma holds_new mtu : holds (TxQueue_new mtu) [].
Proof. split; try done; [apply length_replicate | cbn; lia]. Qed.

Lemma holds_clear q g : holds q g -> holds (q_clear q) [].
Proof. intros [H1 H2 H3 H4 H5 H6]. split; try done. cbn. lia. Qed.

Lemma take_copy_at {B} (l src : list B) n :
  (n + length src <= length l)%nat -> take (n + length src) (copy_at n src l) = take n l ++ src.
Proof.
  intros H. set (m := drop n l). assert (length m = length l - n)%nat as Hm by apply length_drop.
  assert (copy_at n src l = take n l ++ (src ++ drop (length src) m)) as ->.
  { rewrite <- (take_drop n l) at 1. rewrite <- (Nat.add_0_r n) at 1.
    rewrite <- (length_take_le l n) at 1 by lia. rewrite list_inserts_app_r. f_equal. fold m.
    rewrite <- (take_drop (length src) m) at 1. apply list_inserts_0_r. rewrite length_take. lia. }
  rewrite app_assoc. apply take_app_length'. rewrite length_app, length_take. lia.
Qed.

Lemma holds_push q g hdr frame :
  holds q g -> length hdr = OVERLAY_HDR_LEN ->
  let len := (OVERLAY_HDR_LEN + length frame)%nat in
  if bool_decide ((length g < TX_BATCH)%nat /\ (len <= q_seg_len q)%nat /\ Z.of_nat len <= 65535)
  then holds (q_push hdr frame q).1 (g ++ [hdr ++ frame]) /\ (q_push hdr frame q).2 = true
  else q_push hdr frame q = (q, false).
Proof.
  intros [H1 H2 H3 H4 H5 H6] Hh len. unfold q_push. fold len. unfold q_is_full.
  assert (length (q_lens q) = length g) as Hlen by (rewrite <- (length_fmap usize_of), H1; apply length_fmap).
  rewrite Hlen. case_bool_decide as Hc.
  - destruct Hc as (C1 & C2 & C3). destruct (Nat.leb_spec TX_BATCH (length g)); [lia |].
    destruct (Nat.ltb_spec (q_seg_len q) len); [lia |]. cbn [orb].
    destruct (try_u 16 (Z.of_nat len)) as [len16 |] eqn:El.
    2: { unfold try_u in El. rewrite (proj2 (in_width_spec 16 _)) in El by word_lia. done. }
    split; [| done]. cbn [fst].
    assert (length (concat g) <= length g * q_seg_len q)%nat as Hused.
    { apply length_concat_le. eapply Forall_impl; [exact H6 |]. cbn. lia. }
    assert (length (hdr ++ frame) = len) as Hl by (rewrite length_app; lia).
    assert (q_used q + len <= length (q_buf q))%nat as Hroom by (rewrite H2, H4; nia).
    split; cbn [q_lens q_used q_buf q_seg_len].
    + rewrite !fmap_app, H1. cbn. by rewrite (usize_of_try len), Hl.
    + rewrite concat_app, length_app, H2. cbn [concat]. by rewrite app_nil_r, Hl.
    + unfold q_bytes in *. cbn [q_used q_buf]. rewrite concat_app. cbn [concat]. rewrite app_nil_r, <- H3.
      unfold len. rewrite Nat.add_assoc, take_copy_at, <- Hh by (rewrite ?length_inserts; unfold len in Hroom; lia).
      rewrite take_copy_at by (unfold len in Hroom; lia). by rewrite app_assoc.
    + by rewrite !length_inserts.
    + rewrite length_app. cbn. lia.
    + apply Forall_app. rewrite Forall_singleton, Hl. split; [done |]. unfold len in *. lia.
  - destruct (Nat.leb_spec TX_BATCH (length g)); [done |]. destruct (Nat.ltb_spec (q_seg_len q) len); [done |]. cbn [orb].
    destruct (try_u 16 (Z.of_nat len)) as [len16 |] eqn:El; [| done]. exfalso. apply try_u_Some in El.
    apply Hc. pose proof (uint_range len16) as Hr. change (2 ^ Z.of_N 16) with 65536 in Hr. lia.
Qed.

(** *** The loop of a run *)

(** The lengths one segmented write may carry. *)
Definition gso_shape (seg : nat) (lens : list nat) : Prop :=
  exists k last, lens = replicate k seg ++ [last] /\ (last <= seg)%nat.

Lemma gso_shape_cons seg lens : gso_shape seg lens -> gso_shape seg (seg :: lens).
Proof. intros (k & last & -> & H). by exists (S k), last. Qed.

Lemma sum_list_cons x l : sum_list (x :: l) = (x + sum_list l)%nat.
Proof. done. Qed.

Lemma run_loop_spec max seg start rest off count :
  let '(rest', off', count') := run_loop max seg start rest off count in
  exists ls, rest = ls ++ rest' /\ off' = (off + sum_list (usize_of <$> ls))%nat /\
    count' = (count + length ls)%nat /\ ((count <= max)%nat -> (count' <= max)%nat) /\
    (ls = [] \/ gso_shape seg (usize_of <$> ls) /\
                ((1 < count')%nat -> Z.of_nat (off' - start) <= GSO_MAX_BYTES)).
Proof.
  revert off count. induction rest as [| l rest IH]; intros off count; cbn [run_loop].
  { exists []. cbn. rewrite !Nat.add_0_r. naive_solver. }
  assert (forall P : list u16 -> Prop, exists ls, l :: rest = ls ++ l :: rest /\ off = (off + sum_list (usize_of <$> ls))%nat /\
    count = (count + length ls)%nat /\ ((count <= max)%nat -> (count <= max)%nat) /\ (ls = [] \/ P ls)) as Hstop.
  { intros P. exists []. cbn. rewrite !Nat.add_0_r. naive_solver. }
  destruct (Nat.ltb_spec count max) as [Hc | Hc]; cbn [negb];
    [| apply (Hstop (fun ls => gso_shape seg (usize_of <$> ls) /\ _))].
  destruct (_ && _) eqn:Eb; [apply (Hstop (fun ls => gso_shape seg (usize_of <$> ls) /\ _)) |].
  assert ((0 < count)%nat -> Z.of_nat (off - start + usize_of l) <= GSO_MAX_BYTES) as Hb.
  { intros H0. apply Nat.ltb_lt in H0. rewrite H0 in Eb. cbn [andb] in Eb. by apply Z.ltb_ge in Eb. }
  clear Eb. destruct (Nat.ltb_spec seg (usize_of l)) as [Hs | Hs];
    [apply (Hstop (fun ls => gso_shape seg (usize_of <$> ls) /\ _)) |]. clear Hstop.
  assert (gso_shape seg [usize_of l]) as Hone by (by exists 0%nat, (usize_of l)).
  destruct (Nat.ltb_spec (usize_of l) seg) as [Hs' | Hs'].
  - exists [l]. rewrite fmap_cons, sum_list_cons. change (sum_list (usize_of <$> [])) with 0%nat.
    cbn [fmap list_fmap length app]. split; [done |]. do 3 (split; [lia |]).
    right. split; [done | lia].
  - specialize (IH (off + usize_of l)%nat (S count)). destruct (run_loop _ _ _ _ _ _) as [[rest' off'] count'].
    destruct IH as (ls & -> & -> & -> & Hm & Hls). exists (l :: ls). rewrite fmap_cons, sum_list_cons. cbn [length app].
    assert (usize_of l = seg) as Heq by lia. split; [done |]. do 3 (split; [lia |]). right.
    destruct Hls as [-> | [Hsh Hb']].
    + split; [done |]. cbn. lia.
    + split; [rewrite Heq; by apply gso_shape_cons |]. intros Hlt. etransitivity; [| apply Hb'; lia]. lia.
Qed.

(** *** Runs and segments *)

Lemma sum_list_lengths (g : list bytes) : sum_list (length <$> g) = length (concat g).
Proof.
  induction g as [| s g IH]; [done |]. rewrite fmap_cons, sum_list_cons, IH. cbn [concat]. by rewrite length_app.
Qed.

(** Cutting what was laid out back to back at a GSO-compatible stride gives
    the segments back. *)
Lemma gso_split_concat seg (g : list bytes) fuel :
  gso_shape seg (length <$> g) -> Forall (fun s => (0 < length s)%nat) g -> (length g <= fuel)%nat ->
  gso_split fuel seg (concat g) = g.
Proof.
  intros (k & last & Hg & Hl). revert g Hg fuel. induction k as [| k IH]; intros g Hg fuel Hpos Hf.
  - destruct g as [| s [| s' g]]; try done. injection Hg as Hs. apply Forall_inv in Hpos.
    destruct fuel as [| fuel]; [cbn in Hf; lia |]. cbn [concat gso_split]. rewrite app_nil_r.
    destruct s as [| b s]; [cbn in Hpos; lia |]. rewrite take_ge, drop_ge by lia. by destruct fuel.
  - destruct g as [| s g]; [done |]. rewrite fmap_cons in Hg. cbn [replicate app] in Hg. injection Hg as Hs Hg.
    inversion Hpos as [| ? ? Hp Hpos' ]; subst. destruct fuel as [| fuel]; [cbn in Hf; lia |].
    cbn [concat gso_split]. destruct s as [| b s]; [cbn in Hp; lia |]. cbn [app].
    change (b :: s ++ concat g) with ((b :: s) ++ concat g).
    rewrite take_app_length, drop_app_length. f_equal. apply IH; [done | done |]. cbn [length] in Hf. lia.
Qed.

Lemma slice_concat (g0 g1 g2 : list bytes) :
  slice (length (concat g0)) (length (concat g0) + length (concat g1)) (concat (g0 ++ g1 ++ g2)) = concat g1.
Proof.
  rewrite !concat_app. unfold slice. rewrite drop_app_length.
  replace (_ + _ - _)%nat with (length (concat g1)) by lia. apply take_app_length.
Qed.

(** A run takes a segment at least. *)
Lemma run_loop_takes max start first rest off :
  (1 <= max)%nat -> (1 <= (run_loop max (usize_of first) start (first :: rest) off 0).2)%nat.
Proof.
  intros Hmax. cbn [run_loop]. destruct (Nat.ltb_spec 0 max); [| lia]. change (0 <? 0)%nat with false. cbn [negb andb].
  rewrite Nat.ltb_irrefl. pose proof (run_loop_spec max (usize_of first) start rest (off + usize_of first) 1) as Hl.
  destruct (run_loop _ _ _ _ _ _) as [[rest' off'] count']. destruct Hl as (ls & _ & _ & -> & _). cbn. lia.
Qed.

Lemma runs_collect_spec q g max fuel g0 g1 rest :
  holds q g -> g = g0 ++ g1 -> usize_of <$> rest = length <$> g1 -> (1 <= max)%nat -> (length rest <= fuel)%nat ->
  (runs_collect fuel max rest (length (concat g0)) ≫= datagrams q) = g1 /\
  Forall (fun r => (1 <= r_count r <= max)%nat /\
                   ((1 < r_count r)%nat -> Z.of_nat (r_end r - r_start r) <= GSO_MAX_BYTES))
    (runs_collect fuel max rest (length (concat g0))) /\
  sum_list (r_count <$> runs_collect fuel max rest (length (concat g0))) = length g1.
Proof.
  intros Hh. revert g0 g1 rest. induction fuel as [| fuel IH]; intros g0 g1 rest Hg Hrest Hmax Hf.
  { destruct rest as [| l rest]; [| cbn in Hf; lia]. by destruct g1. }
  cbn [runs_collect]. destruct rest as [| first rest]; [by destruct g1 |]. cbn [runs_next].
  pose proof (run_loop_takes max (length (concat g0)) first rest (length (concat g0)) Hmax) as Ht.
  pose proof (run_loop_spec max (usize_of first) (length (concat g0)) (first :: rest) (length (concat g0)) 0) as Hl.
  destruct (run_loop _ _ _ _ _ _) as [[rest' off'] count']. cbn [snd] in Ht.
  destruct Hl as (ls & Hls & -> & -> & Hm & Hsh). cbn [Nat.add] in *.
  destruct Hsh as [-> | [Hsh Hb]]; [cbn in Ht; lia |].
  rewrite Hls, fmap_app in Hrest.
  assert (exists gs g2, g1 = gs ++ g2 /\ length <$> gs = usize_of <$> ls /\ length <$> g2 = usize_of <$> rest')
    as (gs & g2 & -> & Hgs & Hg2).
  { symmetry in Hrest. apply fmap_app_inv in Hrest as (gs & g2 & H1 & H2 & ->). by exists gs, g2. }
  assert (length ls = length gs) as Hlen by (rewrite <- (length_fmap usize_of ls), <- Hgs; apply length_fmap).
  rewrite <- Hgs in *. rewrite sum_list_lengths.
  assert (datagrams q {| r_start := length (concat g0); r_end := length (concat g0) + length (concat gs);
                         r_count := length ls; r_segment_size := usize_of first |} = gs) as Hd.
  { unfold datagrams. cbn [r_start r_end r_count r_segment_size]. rewrite (h_bytes _ _ Hh), Hg, slice_concat, Hlen.
    assert (Forall (fun s => (0 < length s)%nat) gs) as Hpos.
    { pose proof (h_seg _ _ Hh) as Hs. rewrite Hg, !Forall_app in Hs. destruct Hs as (_ & Hs & _).
      eapply Forall_impl; [exact Hs |]. intros s [[Hs1 _] _]. unfold OVERLAY_HDR_LEN in Hs1. lia. }
    destruct (Nat.ltb_spec 1 (length gs)) as [H1 | H1].
    - apply gso_split_concat; [done | done |]. clear -Hpos. induction Hpos; cbn [concat length]; [lia |].
      rewrite length_app. lia.
    - rewrite Hlen in Ht. destruct gs as [| s [| s' gs]]; cbn [length] in *; [lia | | lia].
      cbn [concat]. by rewrite app_nil_r. }
  destruct (IH (g0 ++ gs) g2 rest') as (I1 & I2 & I3); [by rewrite <- app_assoc | done | done | |].
  { apply (f_equal length) in Hls. rewrite length_app in Hls. cbn [length] in Hls, Hf. lia. }
  rewrite concat_app, length_app in I1, I2, I3. rewrite bind_cons, Hd, I1. split; [done |].
  split; [| rewrite fmap_cons, sum_list_cons, I3, length_app; cbn [r_count]; lia].
  constructor; [| exact I2]. cbn [r_start r_end r_count]. split; [split; [done | apply Hm; lia] |].
  intros H1. rewrite sum_list_lengths in Hb. by apply Hb.
Qed.

Lemma runs_holds q g max :
  holds q g ->
  (runs max q ≫= datagrams q) = g /\
  Forall (fun r => (1 <= r_count r <= max `max` 1)%nat /\
                   ((1 < r_count r)%nat -> Z.of_nat (r_end r - r_start r) <= GSO_MAX_BYTES)) (runs max q) /\
  sum_list (r_count <$> runs max q) = length g.
Proof.
  intros Hh. apply (runs_collect_spec q g (max `max` 1) (length (q_lens q)) [] g (q_lens q));
    [done | done | apply Hh | lia | done].
Qed.

(** ** Properties *)

(** What the datapath does to a queue: stage a frame under a header, or clear
    it once its runs were sent. *)
Inductive TxOp := TxPush (h : Hdr) (frame : bytes) | TxClear.

Definition tx_step (st : TxQueue * list bool) (o : TxOp) : TxQueue * list bool :=
  match o with
  | TxPush h f => let '(q, ok) := q_push (encode h) f st.1 in (q, st.2 ++ [ok])
  | TxClear => (q_clear st.1, st.2)
  end.

(** The same on the list of segments themselves. *)
Definition spec_step (seg : nat) (st : list bytes * list bool) (o : TxOp) : list bytes * list bool :=
  match o with
  | TxPush h f =>
      let s := encode h ++ f in
      if bool_decide ((length st.1 < TX_BATCH)%nat /\ (length s <= seg)%nat /\ Z.of_nat (length s) <= 65535)
      then (st.1 ++ [s], st.2 ++ [true]) else (st.1, st.2 ++ [false])
  | TxClear => ([], st.2)
  end.

(** C22: what leaves is what was staged.  After any sequence of pushes and
    clears, the queue accepted exactly the frames that fit the batch bound and
    the fabric's MTU; its runs, cut by the kernel at the sizes they advertise,
    are the staged segments, each once and in order; and no run has more
    segments than the kernel takes, nor more bytes than one write carries. *)
Theorem tx_gso_exact (inner_mtu max : nat) (ops : list TxOp) :
  let '(q, oks) := foldl tx_step (TxQueue_new inner_mtu, []) ops in
  let '(g, oks') := foldl (spec_step (segment_len inner_mtu)) ([], []) ops in
  oks = oks' /\ q_bytes q = concat g /\ q_len q = length g /\
  inner_bytes q = sum_list ((fun s => length s - OVERLAY_HDR_LEN)%nat <$> g) /\
  (runs max q ≫= datagrams q) = g /\
  Forall (fun r => (1 <= r_count r <= max `max` 1)%nat /\
                   ((1 < r_count r)%nat -> Z.of_nat (r_end r - r_start r) <= GSO_MAX_BYTES)) (runs max q).
Proof.
  assert (exists q g oks, foldl tx_step (TxQueue_new inner_mtu, []) ops = (q, oks) /\
    foldl (spec_step (segment_len inner_mtu)) ([], []) ops = (g, oks) /\ holds q g) as (q & g & oks & -> & -> & Hh).
  { pose proof (holds_new inner_mtu) as Hh. assert (q_seg_len (TxQueue_new inner_mtu) = segment_len inner_mtu) as Hs by done.
    revert Hh Hs. generalize (TxQueue_new inner_mtu) ([] : list bytes) ([] : list bool).
    induction ops as [| o ops IH]; intros q g oks Hh Hs; [by exists q, g, oks |]. cbn [foldl]. destruct o as [h f |].
    - cbn [tx_step spec_step fst snd]. pose proof (holds_push q g (encode h) f Hh (length_encode h)) as Hp. cbn zeta in Hp.
      rewrite length_app, length_encode. rewrite Hs in Hp. case_bool_decide.
      + destruct Hp as [Hq Hok]. destruct (q_push (encode h) f q) as [q' ok] eqn:Eq. cbn [fst snd] in *. subst ok.
        apply IH; [done |]. unfold q_push in Eq. destruct (_ || _); [done |]. destruct (try_u _ _); [| done].
        by injection Eq as <-.
      + rewrite Hp. by apply IH.
    - cbn [tx_step spec_step fst snd]. apply IH; [by eapply holds_clear | done]. }
  assert (length (q_lens q) = length g) as Hlen
    by (rewrite <- (length_fmap usize_of), (h_lens _ _ Hh); apply length_fmap).
  split; [done |]. split; [apply (h_bytes _ _ Hh) |]. split; [done |]. split.
  - unfold inner_bytes. rewrite Hlen, (h_used _ _ Hh). pose proof (h_seg _ _ Hh) as Hseg. clear -Hseg.
    induction Hseg as [| s g [Hs _] Hg IH]; [done |]. rewrite fmap_cons, sum_list_cons, <- IH. cbn [concat length].
    rewrite length_app. assert (length g * OVERLAY_HDR_LEN <= length (concat g))%nat; [| lia].
    clear -Hg. induction Hg as [| s g [[Hs _] _] Hg IH]; cbn [concat length]; [lia |]. rewrite length_app. lia.
  - by destruct (runs_holds q g max Hh) as (H1 & H2 & _).
Qed.
