(* ===== verification/Punt.v ===== *)
(** * The punt queue (crates/up4-io/src/punt.rs)

    A bounded ring of preallocated slots between the shards and the control
    channel.  The code guards it with a mutex, so its operations take effect
    one after the other: a sequence of operations is any interleaving of the
    producers and the consumer. *)

From S2P Require Import Prelude Bytes.

Local Open Scope Z_scope.

Definition PUNT_DEPTH : nat := 1024.

Record PuntFrame := { pf_ingress_vport : u16; pf_rx_ts_us : u32; pf_bytes : bytes }.

Record Slot := { sl_ingress_vport : u16; sl_rx_ts_us : u32; sl_len : nat; sl_buf : bytes }.

Record Ring := { slots : list Slot; head : nat; ring_len : nat }.

(** [PuntQueue::with_depth] *)
Definition punt_with_depth (depth inner_mtu : nat) : Ring := {|
  slots := replicate (depth `max` 1)
             {| sl_ingress_vport := U16 0; sl_rx_ts_us := U32 0; sl_len := 0; sl_buf := replicate inner_mtu (U8 0) |};
  head := 0;
  ring_len := 0;
|}.

Definition punt_new (inner_mtu : nat) : Ring := punt_with_depth PUNT_DEPTH inner_mtu.

(** What [push] writes into a slot. *)
Definition fill_slot (frame : bytes) (ingress_vport : u16) (rx_ts_us : u32) (s : Slot) : Slot :=
  let len := (length frame `min` length (sl_buf s))%nat in
  {| sl_ingress_vport := ingress_vport; sl_rx_ts_us := rx_ts_us; sl_len := len;
     sl_buf := copy_at 0 (take len frame) (sl_buf s) |}.

(** [PuntQueue::push] *)
Definition punt_push (frame : bytes) (ingress_vport : u16) (rx_ts_us : u32) (r : Ring) : Ring * bool :=
  if (ring_len r =? length (slots r))%nat then (r, false)
  else
    let at_ := ((head r + ring_len r) mod length (slots r))%nat in
    ({| slots := alter (fill_slot frame ingress_vport rx_ts_us) at_ (slots r);
        head := head r; ring_len := S (ring_len r) |}, true).

(** What [drain] reads out of a slot. *)
Definition slot_frame (s : Slot) : PuntFrame :=
  {| pf_ingress_vport := sl_ingress_vport s; pf_rx_ts_us := sl_rx_ts_us s; pf_bytes := take (sl_len s) (sl_buf s) |}.

(** The loop of [PuntQueue::drain]; indexing is a panic outside the ring. *)
Fixpoint drain_loop (n : nat) (r : Ring) : option (Ring * list PuntFrame) :=
  match n with
  | O => Some (r, [])
  | S n =>
      slot ← slots r !! head r;
      '(r', out) ← drain_loop n {| slots := slots r; head := (head r + 1) mod length (slots r);
                                   ring_len := ring_len r - 1 |};
      Some (r', slot_frame slot :: out)
  end.

(** [PuntQueue::drain] *)
Definition punt_drain (max : nat) (r : Ring) : option (Ring * list PuntFrame) := drain_loop (max `min` ring_len r) r.

Definition punt_is_empty (r : Ring) : bool := (ring_len r =? 0)%nat.
Definition punt_capacity (r : Ring) : nat := length (slots r).

(** ** The ring and its contents *)

Record ring_holds (mtu depth : nat) (r : Ring) (q : list PuntFrame) : Prop := {
  rh_depth : length (slots r) = depth /\ (0 < depth)%nat;
  rh_head : (head r < depth)%nat;
  rh_len : ring_len r = length q /\ (length q <= depth)%nat;
  rh_slots : Forall (fun s => length (sl_buf s) = mtu) (slots r);
  rh_items : forall i f, q !! i = Some f -> slot_frame <$> slots r !! ((head r + i) mod depth)%nat = Some f;
}.

Lemma ring_holds_new depth mtu : ring_holds mtu (depth `max` 1) (punt_with_depth depth mtu) [].
Proof.
  split; cbn [slots head ring_len punt_with_depth].
  - rewrite length_replicate. lia.
  - lia.
  - cbn. lia.
  - apply Forall_replicate. apply length_replicate.
  - intros i f Hi. by rewrite lookup_nil in Hi.
Qed.

(** Positions of a ring that are not a full turn apart are different. *)
Lemma ring_positions (d h i j : nat) :
  (i < j)%nat -> (j < i + d)%nat -> ((h + i) mod d <> (h + j) mod d)%nat.
Proof.
  intros Hij Hj Heq. assert (d <> 0)%nat as Hd by lia.
  pose proof (Nat.div_mod (h + i) d Hd) as H1. pose proof (Nat.div_mod (h + j) d Hd) as H2. rewrite Heq in H1.
  set (r := ((h + j) mod d)%nat) in *. set (x := ((h + i) / d)%nat) in *. set (y := ((h + j) / d)%nat) in *.
  clearbody r x y. clear Heq. destruct (Nat.le_gt_cases y x); nia.
Qed.

Lemma slot_frame_fill frame v t s :
  slot_frame (fill_slot frame v t s) =
    {| pf_ingress_vport := v; pf_rx_ts_us := t; pf_bytes := take (length (sl_buf s)) frame |}.
Proof.
  unfold slot_frame, fill_slot. cbn [sl_ingress_vport sl_rx_ts_us sl_len sl_buf]. f_equal.
  set (src := take (length frame `min` length (sl_buf s)) frame).
  assert (length src = length frame `min` length (sl_buf s))%nat as Hl by (unfold src; rewrite length_take; lia).
  assert (copy_at 0 src (sl_buf s) = src ++ drop (length src) (sl_buf s)) as ->.
  { rewrite <- (take_drop (length src) (sl_buf s)) at 1. apply list_inserts_0_r. rewrite length_take. lia. }
  rewrite <- Hl, take_app_length. unfold src. destruct (Nat.le_ge_cases (length frame) (length (sl_buf s))).
  - rewrite !take_ge; [done | lia | lia].
  - f_equal. lia.
Qed.

Lemma push_holds mtu d r q frame v t :
  ring_holds mtu d r q ->
  if (length q =? d)%nat then punt_push frame v t r = (r, false)
  else ring_holds mtu d (punt_push frame v t r).1
         (q ++ [{| pf_ingress_vport := v; pf_rx_ts_us := t; pf_bytes := take mtu frame |}]) /\
       (punt_push frame v t r).2 = true.
Proof.
  intros [[Hd Hpos] Hh [Hl Hle] Hs Hi]. unfold punt_push. rewrite Hd, Hl.
  destruct (Nat.eqb_spec (length q) d) as [E | E]; [done |]. split; [| done]. cbn [fst].
  split; cbn [slots head ring_len].
  - by rewrite length_alter.
  - done.
  - rewrite length_app. cbn. lia.
  - apply Forall_alter; [done |]. intros s _ Hbuf. cbn [sl_buf fill_slot]. by rewrite length_inserts.
  - intros i f [Hf | [Hge Hf]]%lookup_app_Some.
    + pose proof (lookup_lt_Some _ _ _ Hf). rewrite list_lookup_alter_ne; [by apply Hi |].
      apply not_eq_sym, ring_positions; lia.
    + apply list_lookup_singleton_Some in Hf as [Hz <-]. assert (i = length q) as -> by lia.
      rewrite list_lookup_alter_eq.
      destruct (lookup_lt_is_Some_2 (slots r) ((head r + length q) mod d)) as [s Hsl].
      { rewrite Hd. apply Nat.mod_upper_bound. lia. }
      rewrite Hsl. cbn [fmap option_fmap option_map]. rewrite slot_frame_fill.
      rewrite Forall_lookup in Hs. by rewrite (Hs _ _ Hsl).
Qed.

Lemma drain_holds mtu d n r q :
  ring_holds mtu d r q -> (n <= length q)%nat ->
  exists r', drain_loop n r = Some (r', take n q) /\ ring_holds mtu d r' (drop n q).
Proof.
  revert r q. induction n as [| n IH]; intros r q Hr Hn; [by exists r |].
  destruct q as [| f q]; [cbn in Hn; lia |]. pose proof Hr as [[Hd Hpos] Hh [Hl Hle] Hs Hi].
  cbn [drain_loop]. pose proof (Hi 0%nat f eq_refl) as H0. rewrite Nat.add_0_r, Nat.mod_small in H0 by done.
  apply fmap_Some in H0 as (s & Hsl & ->). rewrite Hsl. cbn [mbind option_bind].
  destruct (IH {| slots := slots r; head := (head r + 1) mod length (slots r); ring_len := ring_len r - 1 |} q)
    as (r' & -> & Hr').
  - split; cbn [slots head ring_len].
    + done.
    + rewrite Hd. apply Nat.mod_upper_bound. lia.
    + cbn [length] in *. lia.
    + done.
    + intros i g Hg. rewrite <- (Hi (S i) g Hg). rewrite Hd, Nat.Div0.add_mod_idemp_l.
      by replace (head r + 1 + i)%nat with (head r + S i)%nat by lia.
  - cbn [length] in Hn. lia.
  - cbn [mbind option_bind]. by exists r'.
Qed.

(** ** Properties *)

Inductive PuntOp := PPush (frame : bytes) (ingress_vport : u16) (rx_ts_us : u32) | PDrain (max : nat) | PLen.

Inductive PuntReply := PAccepted (b : bool) | PFrames (l : option (list PuntFrame)) | PCount (n : nat).

Definition ring_step (r : Ring) (o : PuntOp) : Ring * PuntReply :=
  match o with
  | PPush f v t => let '(r, b) := punt_push f v t r in (r, PAccepted b)
  | PDrain max => match punt_drain max r with
                  | Some (r, l) => (r, PFrames (Some l))
                  | None => (r, PFrames None)
                  end
  | PLen => (r, PCount (ring_len r))
  end.

(** The queue as a bounded list. *)
Definition fifo_step (mtu depth : nat) (q : list PuntFrame) (o : PuntOp) : list PuntFrame * PuntReply :=
  match o with
  | PPush f v t =>
      if (length q =? depth)%nat then (q, PAccepted false)
      else (q ++ [{| pf_ingress_vport := v; pf_rx_ts_us := t; pf_bytes := take mtu f |}], PAccepted true)
  | PDrain max => (drop max q, PFrames (Some (take max q)))
  | PLen => (q, PCount (length q))
  end.

Fixpoint trace_of {S} (step : S -> PuntOp -> S * PuntReply) (ops : list PuntOp) (s : S) : list PuntReply :=
  match ops with
  | [] => []
  | o :: ops => let '(s, r) := step s o in r :: trace_of step ops s
  end.

(** C36: the ring is a bounded first-in first-out queue.  Whatever the
    producers and the consumer do, and however the head goes round, every
    answer is the one a list of at most [depth] frames gives: a frame is
    refused exactly when the queue is full, what is drained is the oldest
    frames with the metadata they came with, each once, and no slot is ever
    indexed outside the ring. *)
Theorem punt_ring_is_fifo (depth inner_mtu : nat) (ops : list PuntOp) :
  trace_of ring_step ops (punt_with_depth depth inner_mtu) =
    trace_of (fifo_step inner_mtu (depth `max` 1)) ops [].
Proof.
  pose proof (ring_holds_new depth inner_mtu) as Hr. revert Hr. generalize (punt_with_depth depth inner_mtu) ([] : list PuntFrame).
  induction ops as [| o ops IH]; intros r q Hr; [done |]. cbn [trace_of].
  destruct o as [f v t | max |]; cbn [ring_step fifo_step].
  - pose proof (push_holds _ _ _ _ f v t Hr) as Hp. destruct (length q =? depth `max` 1)%nat.
    + rewrite Hp. f_equal. by apply IH.
    + destruct Hp as [Hq Hb]. destruct (punt_push f v t r) as [r' b]. cbn [fst snd] in *. subst b. f_equal. by apply IH.
  - unfold punt_drain. pose proof (proj1 (rh_len _ _ _ _ Hr)) as Hl. rewrite Hl.
    destruct (drain_holds _ _ (max `min` length q) _ _ Hr ltac:(lia)) as (r' & -> & Hr').
    assert (take (max `min` length q) q = take max q /\ drop (max `min` length q) q = drop max q) as [Et Ed].
    { destruct (Nat.le_ge_cases max (length q)); [by rewrite Nat.min_l |]. rewrite Nat.min_r by done.
      by rewrite !take_ge, !drop_ge by lia. }
    rewrite Et. f_equal. rewrite Ed in Hr'. by apply IH.
  - rewrite (proj1 (rh_len _ _ _ _ Hr)). f_equal. by apply IH.
Qed.
