(* ===== verification/Socket.v ===== *)
(** * Fabric sockets (crates/up4-io/src/socket.rs)

    The two places the datapath touches the kernel.  The kernel's socket, as
    quinn-udp and [poll] present it, is the class [Udp]; what up4 adds is the
    wait between a refusal and the one retry.  [Recorded] puts a record of the
    writes given and their answers beside any kernel. *)

From S2P Require Import Prelude Bytes Tx.

Definition HEADROOM : nat := 64.

(** [io::Error], by the kinds the code tells apart. *)
Inductive IoError :=
  | WouldBlock
  | TimedOut
  | Interrupted
  | OtherError (what : string).

#[export] Instance IoError_eq_dec : EqDecision IoError.
Proof. solve_decision. Defined.

Record SocketCaps := {
  rcvbuf : Z;
  sndbuf : Z;
  gro_segments : nat;
  max_gso_segments : nat;
  may_fragment : bool;
  reuse_port : bool;
}.

Definition gro (c : SocketCaps) : bool := (1 <? gro_segments c)%nat.
Definition gso (c : SocketCaps) : bool := (1 <? max_gso_segments c)%nat.

(** [quinn_udp::Transmit]; [ecn] and [src_ip] are always absent. *)
Record Transmit (A : Type) := { destination : A; contents : bytes; segment_size : option nat }.
Arguments destination {A} _.
Arguments contents {A} _.
Arguments segment_size {A} _.
Arguments Build_Transmit {A} _ _ _.

(** [quinn_udp::RecvMeta] *)
Record RecvMeta (A : Type) := { rm_addr : A; rm_len : nat; rm_stride : nat }.
Arguments rm_addr {A} _.
Arguments rm_len {A} _.
Arguments rm_stride {A} _.
Arguments Build_RecvMeta {A} _ _ _.

Inductive PollEvent := POLLIN | POLLOUT.

Class Udp (A K : Type) := {
  caps : K -> SocketCaps;
  udp_try_send : Transmit A -> K -> K * result unit IoError;
  udp_recv : K -> K * result (list (bytes * RecvMeta A)) IoError;
  udp_poll : PollEvent -> K -> K * result unit IoError;
}.

(** [FabricSocket::wait]: an interrupted [poll] is no failure. *)
Definition wait `{Udp A K} (e : PollEvent) (s : K) : K * result unit IoError :=
  match udp_poll e s with
  | (s, Err Interrupted) => (s, Ok tt)
  | r => r
  end.

(** [FabricSocket::recv] *)
Definition fabric_recv `{Udp A K} (s : K) : K * result (list (bytes * RecvMeta A)) IoError :=
  match udp_recv s with
  | (s, Err WouldBlock) =>
      match wait POLLIN s with
      | (s, Err e) => (s, Err e)
      | (s, Ok _) => udp_recv s
      end
  | r => r
  end.

(** [FabricSocket::send] *)
Definition fabric_send `{Udp A K} (t : Transmit A) (s : K) : K * result unit IoError :=
  match udp_try_send t s with
  | (s, Err WouldBlock) =>
      match wait POLLOUT s with
      | (s, Err e) => (s, Err e)
      | (s, Ok _) => udp_try_send t s
      end
  | r => r
  end.

Definition is_transient (e : IoError) : bool :=
  match e with WouldBlock | TimedOut | Interrupted => true | OtherError _ => false end.

(** What the kernel makes of a transmit. *)
Definition cut {A} (t : Transmit A) : list bytes :=
  match segment_size t with Some n => gso_split (length (contents t)) n (contents t) | None => [contents t] end.

(** ** What the kernel was given

    Any kernel, with a record kept beside it of every transmit it was given and
    of whether it took it.  It answers as the kernel does. *)

Record Recorded (A K : Type) := { rec_kernel : K; rec_tries : list (Transmit A * bool) }.
Arguments rec_kernel {A K} _.
Arguments rec_tries {A K} _.
Arguments Build_Recorded {A K} _ _.

Section recorded.
Context {A K : Type} `{HU : Udp A K}.

#[export] Instance recorded : Udp A (Recorded A K) := {|
  caps s := caps (rec_kernel s);
  udp_try_send t s :=
    let '(k, r) := udp_try_send t (rec_kernel s) in
    (Build_Recorded k (rec_tries s ++ [(t, match r with Ok _ => true | Err _ => false end)]), r);
  udp_recv s := let '(k, r) := udp_recv (rec_kernel s) in (Build_Recorded k (rec_tries s), r);
  udp_poll e s := let '(k, r) := udp_poll e (rec_kernel s) in (Build_Recorded k (rec_tries s), r);
|}.

(** A write, with whether the kernel took it in the end, and the record of its
    tries: it is tried until it is taken, at most four times. *)
Definition tried (w : Transmit A * bool) (l : list (Transmit A * bool)) : Prop :=
  exists k, (k <= 3)%nat /\ l = replicate k (w.1, false) ++ [w].

(** The record changes no answer. *)
Lemma recorded_send t (s : Recorded A K) :
  rec_kernel (fabric_send t s).1 = (fabric_send t (rec_kernel s)).1 /\
  (fabric_send t s).2 = (fabric_send t (rec_kernel s)).2.
Proof.
  unfold fabric_send. cbn [udp_try_send recorded]. destruct (udp_try_send t (rec_kernel s)) as [k [u | x]]; [done |].
  destruct x; try done. unfold wait. cbn [udp_poll recorded rec_kernel]. destruct (udp_poll POLLOUT k) as [k1 [u | y]].
  - cbn [rec_kernel]. by destruct (udp_try_send (Udp := HU) t k1).
  - destruct y; try done. cbn [rec_kernel]. by destruct (udp_try_send (Udp := HU) t k1).
Qed.

(** One [FabricSocket::send] gives the kernel this transmit once or twice. *)
Lemma fabric_send_tries t (s : Recorded A K) :
  exists k, (k <= 1)%nat /\
    rec_tries (fabric_send t s).1 =
      rec_tries s ++ replicate k (t, false) ++ [(t, match (fabric_send t s).2 with Ok _ => true | Err _ => false end)].
Proof.
  unfold fabric_send. cbn [udp_try_send recorded]. destruct (udp_try_send t (rec_kernel s)) as [k [u | x]]; [exists 0%nat; split; [lia | done] |].
  destruct x; try (exists 0%nat; split; [lia | done]). unfold wait. cbn [udp_poll recorded rec_kernel rec_tries].
  assert (forall k1, exists n, (n <= 1)%nat /\
    rec_tries (let '(k2, r) := udp_try_send (Udp := HU) t k1 in
      (Build_Recorded k2 ((rec_tries s ++ [(t, false)]) ++ [(t, match r with Ok _ => true | Err _ => false end)]), r)).1 =
    rec_tries s ++ replicate n (t, false) ++ [(t, match (udp_try_send (Udp := HU) t k1).2 with Ok _ => true | Err _ => false end)]) as Hk.
  { intros k1. exists 1%nat. split; [lia |]. destruct (udp_try_send t k1). cbn. by rewrite <- app_assoc. }
  destruct (udp_poll POLLOUT k) as [k1 [u | y]]; [| destruct y; try (exists 0%nat; split; [lia | done])];
    destruct (Hk k1) as (n & Hn & E); exists n; (split; [exact Hn |]);
    cbn [rec_kernel rec_tries]; destruct (udp_try_send (Udp := HU) t k1); exact E.
Qed.
End recorded.

(** ** Binding *)

(** Socket buffer size requested for both directions. *)
Definition WANT_BUF_BYTES : Z := Z.shiftl 8 20.

(** A socket before quinn-udp has it ([socket2::Socket]), and quinn-udp's state:
    what the kernel answers to each call [bind] makes. *)
Class RawSock (A R S : Type) := {
  sock_new : A -> result R IoError;
  set_reuse_port : R -> result R IoError;
  (** Requests, whose failure is ignored. *)
  set_recv_buffer_size : Z -> R -> R;
  set_send_buffer_size : Z -> R -> R;
  sock_bind : A -> R -> result R IoError;
  set_recv_timeout : R -> result R IoError;
  udp_state_new : R -> result (R * S) IoError;
  recv_buffer_size : R -> result Z IoError;
  send_buffer_size : R -> result Z IoError;
  state_gro_segments : S -> nat;
  state_max_gso_segments : S -> nat;
  state_may_fragment : S -> bool;
  (** [None] for an address that is not IP. *)
  sock_local_addr : R -> result (option A) IoError;
}.

Record FabricSocket (R S : Type) := { fs_sock : R; fs_state : S; fs_caps : SocketCaps }.
Arguments fs_sock {R S} _.
Arguments fs_state {R S} _.
Arguments fs_caps {R S} _.

(** [FabricSocket::bind] *)
Definition fabric_bind {A R S} `{RawSock A R S} (addr : A) (reuse : bool) : result (FabricSocket R S) IoError :=
  let? sock := sock_new addr in
  let? sock := if reuse then set_reuse_port sock else Ok sock in
  let sock := set_recv_buffer_size WANT_BUF_BYTES sock in
  let sock := set_send_buffer_size WANT_BUF_BYTES sock in
  let? sock := sock_bind addr sock in
  let? sock := set_recv_timeout sock in
  let? (sock, state) := udp_state_new sock in
  Ok {| fs_sock := sock; fs_state := state;
        fs_caps := {|
          rcvbuf := default 0%Z (to_option (recv_buffer_size sock));
          sndbuf := default 0%Z (to_option (send_buffer_size sock));
          gro_segments := state_gro_segments state;
          max_gso_segments := state_max_gso_segments state;
          may_fragment := state_may_fragment state;
          reuse_port := reuse |} |}.

(** [FabricSocket::local_addr] *)
Definition local_addr {A R S} `{RawSock A R S} (s : FabricSocket R S) : result A IoError :=
  let? a := sock_local_addr (fs_sock s) in
  ok_or a (OtherError "bound socket is not an IP socket").
