(* ===== verification/Shard.v ===== *)
(** * The datapath (crates/up4-io/src/shard.rs)

    One shard: the receive path over the segments of a read, the dispatch of a
    verdict, the staging queues and their flush.  The pipeline is behind the
    [Engine] contract and the kernel behind [Udp]; log lines and their rate
    limiter change nothing the datapath reads and are left out.  What leaves is
    what a recording kernel was given ([offered]). *)

From S2P Require Import Prelude Bytes Wire Value Frame Engine Programs Config Metrics Tx Punt Socket.

Local Open Scope Z_scope.

(** [ShardParams], without what is mutable. *)
Record ShardParams (A : Type) `{Addr A} := { topology : VportTable A; sp_inner_mtu : nat }.
Arguments topology {A _} _.
Arguments sp_inner_mtu {A _} _.
Arguments Build_ShardParams {A _} _ _.

(** [Shard]: what changes; the counters and the punt queue are shared with
    other shards, and are here as this shard leaves them. *)
Record Shard (E K : Type) := {
  sh_socket : K;
  sh_engine : E;
  sh_metrics : Metrics;
  sh_punt : option Ring;
  sh_tx : list TxQueue;
  sh_rx_seq : list SeqTracker;
  sh_tx_seq : list Seq;
}.
Arguments sh_socket {E K} _.
Arguments sh_engine {E K} _.
Arguments sh_metrics {E K} _.
Arguments sh_punt {E K} _.
Arguments sh_tx {E K} _.
Arguments sh_rx_seq {E K} _.
Arguments sh_tx_seq {E K} _.
Arguments Build_Shard {E K} _ _ _ _ _ _ _.

Section updates.
Context {E K : Type}.
Implicit Types st : Shard E K.

Definition set_socket (s : K) st : Shard E K :=
  Build_Shard s (sh_engine st) (sh_metrics st) (sh_punt st) (sh_tx st) (sh_rx_seq st) (sh_tx_seq st).
Definition set_engine (e : E) st : Shard E K :=
  Build_Shard (sh_socket st) e (sh_metrics st) (sh_punt st) (sh_tx st) (sh_rx_seq st) (sh_tx_seq st).
Definition count (f : Metrics -> Metrics) st : Shard E K :=
  Build_Shard (sh_socket st) (sh_engine st) (f (sh_metrics st)) (sh_punt st) (sh_tx st) (sh_rx_seq st) (sh_tx_seq st).
Definition set_punt (r : Ring) st : Shard E K :=
  Build_Shard (sh_socket st) (sh_engine st) (sh_metrics st) (Some r) (sh_tx st) (sh_rx_seq st) (sh_tx_seq st).
Definition set_tx (i : VportIdx) (q : TxQueue) st : Shard E K :=
  Build_Shard (sh_socket st) (sh_engine st) (sh_metrics st) (sh_punt st) (<[vidx_get i := q]> (sh_tx st)) (sh_rx_seq st) (sh_tx_seq st).
Definition set_rx_seq (i : VportIdx) (t : SeqTracker) st : Shard E K :=
  Build_Shard (sh_socket st) (sh_engine st) (sh_metrics st) (sh_punt st) (sh_tx st) (<[vidx_get i := t]> (sh_rx_seq st)) (sh_tx_seq st).
Definition set_tx_seq (i : VportIdx) (s : Seq) st : Shard E K :=
  Build_Shard (sh_socket st) (sh_engine st) (sh_metrics st) (sh_punt st) (sh_tx st) (sh_rx_seq st) (<[vidx_get i := s]> (sh_tx_seq st)).
End updates.

Section shard.
Context `{HA : Addr A} `{HE : Engine P E} `{HS : !Udp A K}.
Variable params : ShardParams A.
Implicit Types st : Shard E K.

(** [Shard::new] *)
Definition shard_new (socket : K) (engine : E) (metrics : Metrics) (punt : option Ring) : Shard E K :=
  let n := vt_len (topology params) in
  {| sh_socket := socket; sh_engine := engine; sh_metrics := metrics; sh_punt := punt;
     sh_tx := replicate n (TxQueue_new (sp_inner_mtu params));
     sh_rx_seq := replicate n SeqTracker_new; sh_tx_seq := replicate n (Seq_new (U32 0)) |}.

(** [fanout] *)
Definition fanout : list VportIdx := fst <$> vt_iter (topology params).

(** [Shard::slot_len] *)
Definition slot_len (st : Shard E K) : nat :=
  (HEADROOM + (OVERLAY_HDR_LEN + sp_inner_mtu params) * (gro_segments (caps (sh_socket st)) `max` 1))%nat.

(** [Shard::send] *)
Definition send (t : Transmit A) st : Shard E K * bool :=
  match fabric_send t (sh_socket st) with
  | (s, Ok _) => (count (mbump SyscallsTx) (set_socket s st), true)
  | (s, Err WouldBlock) =>
      match fabric_send t s with
      | (s, Ok _) => (count (mbump SyscallsTx) (set_socket s st), true)
      | (s, Err _) => (count (mbump TxWouldBlock) (set_socket s st), false)
      end
  | (s, Err _) => (count (mbump TxSendError) (set_socket s st), false)
  end.

(** The transmit of one run. *)
Definition transmit_of (dest : A) (q : TxQueue) (r : Run) : Transmit A :=
  {| destination := dest; contents := slice (r_start r) (r_end r) (q_bytes q);
     segment_size := if (1 <? r_count r)%nat then Some (r_segment_size r) else None |}.

(** The loop of [flush] over the runs, with what was sent so far. *)
Definition send_run (dest : A) (q : TxQueue) (acc : Shard E K * nat) (r : Run) : Shard E K * nat :=
  let '(st, ok) := send (transmit_of dest q r) acc.1 in
  (st, if ok then (acc.2 + r_count r)%nat else acc.2).

(** [Shard::flush]; the lookups are by residency proofs and do not fail
    on a shard built for this topology ([shard_ok]). *)
Definition flush (egress : VportIdx) st : Shard E K :=
  match sh_tx st !! vidx_get egress, vt_get (topology params) egress with
  | Some q, Some vp =>
      if q_is_empty q then st
      else
        let segments := q_len q in
        let inner := inner_bytes q in
        let st := count (mrecord TxBatchSize segments) st in
        let '(st, sent) := foldl (send_run (vp_peer vp) q) (st, 0%nat)
                             (runs (max_gso_segments (caps (sh_socket st))) q) in
        let st := count (vadd egress TxPkts (U64 (Z.of_nat sent))) st in
        let st := if (sent =? segments)%nat
                  then count (vadd egress TxBytes (U64 (Z.of_nat inner))) st
                  else count (vadd egress TxBytes (U64 (Z.of_nat inner * Z.of_nat sent / Z.of_nat (segments `max` 1)))) st in
        set_tx egress (q_clear q) st
  | _, _ => st
  end.

(** [Shard::flush_all] *)
Definition flush_all st : Shard E K :=
  foldl (fun st i => match sh_tx st !! vidx_get i with
                     | Some q => if q_is_empty q then st else flush i st
                     | None => st
                     end) st fanout.

(** [Shard::stage] *)
Definition stage (frame : bytes) (ingress_id : u16) (now : u32) (st : Shard E K) (egress : VportIdx) : Shard E K :=
  let st := match sh_tx st !! vidx_get egress with
            | Some q => if q_is_full q then flush egress st else st
            | None => st
            end in
  match sh_tx st !! vidx_get egress, sh_tx_seq st !! vidx_get egress with
  | Some q, Some seq =>
      let hdr := Wire.encode {| hdr_ingress_vport := ingress_id; hdr_seq := seq; hdr_ts_us := now |} in
      let '(q, pushed) := q_push hdr frame q in
      if pushed then set_tx_seq egress (Seq_next seq) (set_tx egress q st)
      else count (mbump TxOversizeDrop) st
  | _, _ => st
  end.

(** [Shard::dispatch] *)
Definition dispatch (v : Verdict) (frame : bytes) (ingress : VportIdx) (ingress_id : u16) (now : u32) st : Shard E K :=
  match v with
  | Drop => count (mbump EngineDrop) st
  | Punt =>
      match sh_punt st with
      | Some queue =>
          let '(queue, pushed) := punt_push frame ingress_id now queue in
          let st := set_punt queue st in
          if pushed then st else count (mbump PuntOverflowDrop) st
      | None => count (mbump PuntUnconfiguredDrop) st
      end
  | Forward port =>
      match idx_of_id (topology params) port with
      | Some egress => stage frame ingress_id now st egress
      | None => count (mbump TxUnknownPort) st
      end
  | Broadcast =>
      foldl (fun st egress => if bool_decide (egress = ingress) then st else stage frame ingress_id now st egress)
        (count (vbump ingress TxBroadcast) st) fanout
  end.

(** Charging a sequence event. *)
Definition charge_event (i : VportIdx) (e : SeqEvent) : Metrics -> Metrics :=
  match e with
  | InOrder => fun m => m
  | Gap missing => vadd i RxSeqGapTotal (U64 missing)
  | Reorder => vbump i RxReorder
  end.

(** Where segment [k] of a read lies in its slot. *)
Definition seg_start (stride k : nat) : nat := (HEADROOM + k * stride)%nat.
Definition seg_end (len stride k : nat) : nat := ((HEADROOM + len) `min` (seg_start stride k + stride))%nat.

(** The body of the loop of [receive], on the slot as the segments before it
    left it.  [p] is the pipeline state in force when this frame is processed:
    the control plane may write between two segments of one read. *)
Definition receive_segment (ingress : VportIdx) (ingress_id : u16) (len stride : nat) (now : u32)
    (acc : Shard E K * bytes) (kp : nat * P) : Shard E K * bytes :=
  let '(st, slot) := acc in
  let '(k, p) := kp in
  let start := seg_start stride k in
  let fin := seg_end len stride k in
  match Wire.decode (slice start fin slot) with
  | Err _ => (count (mbump RxBadHeader) st, slot)
  | Ok hdr =>
      let frame_start := (start + OVERLAY_HDR_LEN)%nat in
      let frame_len := (fin - frame_start)%nat in
      let '(event, tracker) := observe (default SeqTracker_new (sh_rx_seq st !! vidx_get ingress)) (hdr_seq hdr) in
      let st := set_rx_seq ingress tracker st in
      let st := count (vbump ingress RxPkts) st in
      let st := count (vadd ingress RxBytes (U64 (Z.of_nat frame_len))) st in
      let st := count (charge_event ingress event) st in
      match frame_new (take fin slot) frame_start frame_len ingress_id now with
      | None => (st, slot)
      | Some ctx =>
          let '(e, ctx, verdict) := process p ctx (sh_engine st) in
          let st := set_engine e st in
          let slot := buf ctx ++ drop fin slot in
          if negb (bool_decide (verdict = Drop)) && (sp_inner_mtu params <? Frame.len ctx)%nat
          then (count (mbump TxOversizeDrop) st, slot)
          else (dispatch verdict (slice (headroom ctx) (headroom ctx + Frame.len ctx) slot) ingress ingress_id now st, slot)
      end
  end.

(** [usize::div_ceil] *)
Definition div_ceil (a b : nat) : nat := ((a + b - 1) / b)%nat.

(** [Shard::receive]; [tables] says what the pipeline's tables are when each
    segment is processed. *)
Definition receive (tables : nat -> P) (slot : bytes) (meta : RecvMeta A) (now : u32) st : Shard E K * bytes :=
  if (rm_len meta =? 0)%nat then (st, slot)
  else
    let stride := if (rm_stride meta =? 0)%nat then rm_len meta else rm_stride meta in
    let segments := div_ceil (rm_len meta) stride in
    let st := count (mrecord GroSegmentsPerRead segments) st in
    match idx_of_peer (topology params) (rm_addr meta) with
    | None => (count (madd RxUnknownPeer (U64 (Z.of_nat segments))) st, slot)
    | Some ingress =>
        match vt_get (topology params) ingress with
        | None => (st, slot)
        | Some vp =>
            foldl (receive_segment ingress (vport_id (vp_id vp)) (rm_len meta) stride now) (st, slot)
              ((fun k => (k, tables k)) <$> seq 0 segments)
        end
    end.

(** One turn of the loop of [Shard::run]: what arrived lies behind the headroom
    of each slot; a transient error is the loop's heartbeat. *)
Definition receive_slot (tables : nat -> nat -> P) (now : u32) (acc : Shard E K * list bytes)
    (x : nat * (bytes * (bytes * RecvMeta A))) : Shard E K * list bytes :=
  let '(j, (slot, (data, meta))) := x in
  let '(st, slot) := receive (tables j) (copy_at HEADROOM data slot) meta now acc.1 in
  (st, acc.2 ++ [slot]).

Definition run_turn (tables : nat -> nat -> P) (now : u32) (arena : list bytes) st
    : Shard E K * list bytes * result unit IoError :=
  match fabric_recv (sh_socket st) with
  | (s, Err e) => (set_socket s st, arena, if is_transient e then Ok tt else Err e)
  | (s, Ok reads) =>
      let st := count (mbump SyscallsRx) (set_socket s st) in
      let '(st, touched) := foldl (receive_slot tables now) (st, []) (imap pair (zip arena reads)) in
      (flush_all st, touched ++ drop (length touched) arena, Ok tt)
  end.

(** [Shard::run]: turns until stopped, each under the tables and the clock it
    found, then what is staged is flushed. *)
Fixpoint run_turns (turns : list ((nat -> nat -> P) * u32)) (arena : list bytes) st : Shard E K * result unit IoError :=
  match turns with
  | [] => (flush_all st, Ok tt)
  | (tables, now) :: turns =>
      match run_turn tables now arena st with
      | (st, _, Err e) => (st, Err e)
      | (st, arena, Ok _) => run_turns turns arena st
      end
  end.

(** ** The shard's invariant *)

Record shard_ok st : Prop := {
  so_tx : length (sh_tx st) = vt_len (topology params);
  so_queues : Forall (fun q => q_seg_len q = segment_len (sp_inner_mtu params) /\ exists g, holds q g) (sh_tx st);
  so_rx_seq : length (sh_rx_seq st) = vt_len (topology params);
  so_tx_seq : length (sh_tx_seq st) = vt_len (topology params);
  so_metrics : shaped (sh_metrics st) /\ length (m_vports (sh_metrics st)) = vt_len (topology params);
}.

(** An index that addresses an entry. *)
Definition live (i : VportIdx) : Prop := (vidx_get i < vt_len (topology params))%nat.

(** What [st'] did to the counters since [st]. *)
Definition emits st st' (ops : list MOp) : Prop := sh_metrics st' = foldl mop (sh_metrics st) ops.

(** Everything but the socket, the queues and the counters is as it was. *)
Record same_rest st st' : Prop := {
  sr_engine : sh_engine st' = sh_engine st;
  sr_punt : sh_punt st' = sh_punt st;
  sr_rx_seq : sh_rx_seq st' = sh_rx_seq st;
}.

(** The counters a flush touches. *)
Definition quiet_op (o : MOp) : Prop :=
  match o with
  | MAdd c _ => c = SyscallsTx \/ c = TxWouldBlock \/ c = TxSendError
  | MVport _ c _ => c = TxPkts \/ c = TxBytes
  | MRecord _ _ => True
  end.

Lemma emits_trans st1 st2 st3 ops1 ops2 : emits st1 st2 ops1 -> emits st2 st3 ops2 -> emits st1 st3 (ops1 ++ ops2).
Proof. unfold emits. intros H1 H2. by rewrite foldl_app, <- H1. Qed.

Lemma same_rest_trans st1 st2 st3 : same_rest st1 st2 -> same_rest st2 st3 -> same_rest st1 st3.
Proof. intros [] []. split; congruence. Qed.

Lemma metrics_after st st' ops :
  shaped (sh_metrics st) /\ length (m_vports (sh_metrics st)) = vt_len (topology params) -> emits st st' ops ->
  shaped (sh_metrics st') /\ length (m_vports (sh_metrics st')) = vt_len (topology params).
Proof. intros [H1 H2] ->. destruct (ops_shape (sh_metrics st) ops H1) as [I1 I2]. split; congruence. Qed.

Lemma shard_ok_new socket engine node punt :
  shard_ok (shard_new socket engine (metrics_new node (topology params)) punt).
Proof.
  split; cbn [sh_tx sh_rx_seq sh_tx_seq sh_metrics shard_new]; try apply length_replicate.
  - apply Forall_replicate. split; [done |]. exists []. apply holds_new.
  - split; [apply shaped_new |]. cbn [m_vports metrics_new]. by rewrite length_fmap, length_seq.
Qed.

(** *** Flushing *)

Lemma send_spec t st :
  exists c, (send t st).1 = count (mbump c) (set_socket (sh_socket (send t st).1) st) /\
    if (send t st).2 then c = SyscallsTx else c = TxWouldBlock \/ c = TxSendError.
Proof.
  unfold send. destruct (fabric_send t (sh_socket st)) as [s [[] | e]]; [by exists SyscallsTx |].
  destruct e; [| exists TxSendError; split; [done | by right] .. ].
  destruct (fabric_send t s) as [s' [[] | e']]; [by exists SyscallsTx | exists TxWouldBlock; split; [done | by left]].
Qed.

(** What the runs of a flush charge: [oks] says which of them left. *)
Definition charge_run (ok : bool) (c : Counter) : Prop :=
  if ok then c = SyscallsTx else c = TxWouldBlock \/ c = TxSendError.

Definition run_charges (oks : list bool) (ops : list MOp) : Prop :=
  exists cs, ops = (fun c => MAdd c (U64 1)) <$> cs /\ Forall2 charge_run oks cs.

Definition sent_of (oks : list bool) (rs : list Run) : nat :=
  sum_list (zip_with (fun (ok : bool) r => if ok then r_count r else 0%nat) oks rs).

Lemma send_runs_spec dest q rs st n :
  exists oks ops, length oks = length rs /\
    let '(st', sent) := foldl (send_run dest q) (st, n) rs in
    emits st st' ops /\ run_charges oks ops /\ sent = (n + sent_of oks rs)%nat /\
    same_rest st st' /\ sh_tx st' = sh_tx st /\ sh_tx_seq st' = sh_tx_seq st.
Proof.
  revert st n. induction rs as [| r rs IH]; intros st n.
  { exists [], []. split; [done |]. cbn [foldl]. split; [done |]. split; [by exists [] |]. split; [cbn; lia | done]. }
  cbn [foldl]. unfold send_run at 2. cbn [fst snd].
  destruct (send_spec (transmit_of dest q r) st) as (c & Hst & Hc).
  destruct (send (transmit_of dest q r) st) as [st1 ok]. cbn [fst snd] in *.
  destruct (IH st1 (if ok then n + r_count r else n)%nat) as (oks & ops & Hlen & Hrest). exists (ok :: oks), (MAdd c (U64 1) :: ops).
  split; [cbn; by rewrite Hlen |]. destruct (foldl (send_run dest q) _ rs) as [st' sent].
  destruct Hrest as (He & (cs & -> & Hcs) & -> & [R1 R2 R3] & Htx & Hseq). split.
  { unfold emits in *. rewrite He, Hst. done. }
  split; [exists (c :: cs); split; [done |]; by constructor |].
  split. { unfold sent_of. cbn [zip_with]. rewrite sum_list_cons. destruct ok; lia. }
  rewrite Hst in R1, R2, R3, Htx, Hseq. by split.
Qed.

Lemma charge_quiet oks ops : run_charges oks ops -> Forall quiet_op ops.
Proof.
  intros (cs & -> & H). apply Forall_fmap. clear -H. induction H as [| ok c oks cs Hc _ IH]; constructor; [| done].
  cbn. unfold charge_run in Hc. destruct ok; naive_solver.
Qed.

Lemma holds_empty q g : holds q g -> (q_lens q = [] <-> g = []).
Proof.
  intros [H1 _ _ _ _ _]. split; intros Hn.
  - rewrite Hn in H1. by destruct g.
  - rewrite Hn in H1. by destruct (q_lens q).
Qed.

Lemma total_app f ops1 ops2 : total f (ops1 ++ ops2) = total f ops1 + total f ops2.
Proof. unfold total. induction ops1 as [| o ops1 IH]; cbn [foldr app]; [done |]. rewrite IH. lia. Qed.

Lemma total_one c c' : total (to_counter c) [MAdd c' (U64 1)] = if bool_decide (c = c') then 1 else 0.
Proof. cbn. case_bool_decide; reflexivity. Qed.

Lemma total_cons f o ops : total f (o :: ops) = total f [o] + total f ops.
Proof. unfold total. cbn [foldr]. lia. Qed.

Lemma charge_totals oks ops :
  run_charges oks ops ->
  total (to_counter SyscallsTx) ops = Z.of_nat (length (filter (fun ok => ok = true) oks)) /\
  total (to_counter TxWouldBlock) ops + total (to_counter TxSendError) ops =
    Z.of_nat (length (filter (fun ok => ok = false) oks)) /\
  (forall i c, total (to_vport i c) ops = 0).
Proof.
  intros (cs & -> & H). induction H as [| ok c oks cs Hc H IH]; [done |]. destruct IH as (I1 & I2 & I3).
  rewrite !filter_cons, fmap_cons, !(total_cons _ _ (_ <$> cs)), I1, !total_one.
  split; [| split; [| intros i c'; rewrite (total_cons _ _ (_ <$> cs)), I3; done]].
  - destruct ok; cbn [charge_run] in Hc; [subst c | destruct Hc as [-> | ->]];
      repeat case_bool_decide; repeat case_decide; try done; cbn [length]; lia.
  - destruct ok; cbn [charge_run] in Hc; [subst c | destruct Hc as [-> | ->]];
      repeat case_bool_decide; repeat case_decide; try done; cbn [length]; lia.
Qed.

(** A flush clears its queue, touches no other and counts. *)
Lemma flush_spec i q g st :
  live i -> sh_tx st !! vidx_get i = Some q -> holds q g ->
  exists oks ops,
    length oks = length (runs (max_gso_segments (caps (sh_socket st))) q) /\
    emits st (flush i st) ops /\ Forall quiet_op ops /\ same_rest st (flush i st) /\
    sh_tx_seq (flush i st) = sh_tx_seq st /\ sh_tx (flush i st) = <[vidx_get i := q_clear q]> (sh_tx st) /\
    (g = [] -> ops = []) /\
    (g <> [] -> exists sends,
       run_charges oks sends /\
       let sent := sent_of oks (runs (max_gso_segments (caps (sh_socket st))) q) in
       ops = [MRecord TxBatchSize (length g)] ++ sends ++
             [MVport i TxPkts (U64 (Z.of_nat sent));
              MVport i TxBytes (U64 (if (sent =? length g)%nat then Z.of_nat (inner_bytes q)
                                     else Z.of_nat (inner_bytes q) * Z.of_nat sent / Z.of_nat (length g `max` 1)))]).
Proof.
  intros Hi Hq Hh. unfold flush. rewrite Hq. unfold vt_get. destruct (lookup_lt_is_Some_2 _ _ Hi) as [vp ->].
  set (rs := runs _ q). unfold q_is_empty. case_bool_decide as He.
  - exists (replicate (length rs) true), []. split; [apply length_replicate |]. do 3 (split; [done |]). split; [done |].
    split; [| split; [done |]].
    + symmetry. apply list_insert_id. rewrite Hq. f_equal. unfold q_clear. pose proof (h_used _ _ Hh) as Hu.
      apply (holds_empty q g Hh) in He as Hg. rewrite Hg in Hu. cbn in Hu. destruct q. cbn in *. by subst.
    + intros Hg. by apply (holds_empty q g Hh) in He.
  - assert (length (q_lens q) = length g) as Hlen
      by (rewrite <- (length_fmap usize_of), (h_lens _ _ Hh); apply length_fmap).
    set (st1 := count (mrecord TxBatchSize (q_len q)) st). fold rs.
    change (max_gso_segments (caps (sh_socket st1))) with (max_gso_segments (caps (sh_socket st))). fold rs.
    destruct (send_runs_spec (vp_peer vp) q rs st1 0) as (oks & ops & Hoks & Hs).
    destruct (foldl (send_run (vp_peer vp) q) (st1, 0%nat) rs) as [st2 sent].
    destruct Hs as (Hem & Hch & -> & [R1 R2 R3] & Htx & Hseq). cbn [Nat.add] in *.
    exists oks, ([MRecord TxBatchSize (length g)] ++ ops ++
             [MVport i TxPkts (U64 (Z.of_nat (sent_of oks rs)));
              MVport i TxBytes (U64 (if (sent_of oks rs =? length g)%nat then Z.of_nat (inner_bytes q)
                                     else Z.of_nat (inner_bytes q) * Z.of_nat (sent_of oks rs) / Z.of_nat (length g `max` 1)))]).
    split; [done |]. unfold q_len. rewrite Hlen. split; [| split; [| split; [| split; [| split; [| split]]]]].
    + unfold emits in *. cbn [sh_metrics set_tx]. rewrite foldl_app, foldl_app. cbn [foldl mop app].
      assert (sh_metrics st1 = mrecord TxBatchSize (length g) (sh_metrics st)) as <-
        by (unfold st1, q_len; cbn [sh_metrics count]; by rewrite Hlen).
      rewrite <- Hem. by destruct (_ =? _)%nat.
    + repeat (apply Forall_app; split); [by constructor | by eapply charge_quiet |].
      constructor; [by left | constructor; [by right | done]].
    + by destruct (_ =? _)%nat.
    + by destruct (_ =? _)%nat.
    + destruct (_ =? _)%nat; cbn [sh_tx set_tx count]; by rewrite Htx.
    + intros ->. exfalso. apply He. by apply (holds_empty q [] Hh).
    + intros _. by exists ops.
Qed.

(** *** Staging *)

Hypothesis mtu_fits : Z.of_nat (segment_len (sp_inner_mtu params)) <= 65535.

Lemma shard_queue st i :
  shard_ok st -> live i ->
  exists q g seq, sh_tx st !! vidx_get i = Some q /\ holds q g /\ q_seg_len q = segment_len (sp_inner_mtu params) /\
    sh_tx_seq st !! vidx_get i = Some seq.
Proof.
  intros [H1 H2 _ H4 _] Hi. unfold live in Hi.
  destruct (lookup_lt_is_Some_2 (sh_tx st) (vidx_get i)) as [q Hq]; [lia |].
  destruct (lookup_lt_is_Some_2 (sh_tx_seq st) (vidx_get i)) as [seq Hs]; [lia |].
  rewrite Forall_lookup in H2. destruct (H2 _ _ Hq) as [Hsl [g Hg]]. by exists q, g, seq.
Qed.

(** The segment that staging appends. *)
Definition segment (ingress_id : u16) (seq : Seq) (now : u32) (frame : bytes) : bytes :=
  Wire.encode {| hdr_ingress_vport := ingress_id; hdr_seq := seq; hdr_ts_us := now |} ++ frame.

Lemma stage_spec st i q g seq frame id now :
  shard_ok st -> live i -> (length frame <= sp_inner_mtu params)%nat ->
  sh_tx st !! vidx_get i = Some q -> holds q g -> sh_tx_seq st !! vidx_get i = Some seq ->
  let st' := stage frame id now st i in
  exists q' ops,
    emits st st' ops /\ Forall quiet_op ops /\ same_rest st st' /\
    sh_tx_seq st' = <[vidx_get i := Seq_next seq]> (sh_tx_seq st) /\
    sh_tx st' = <[vidx_get i := q']> (sh_tx st) /\
    holds q' ((if q_is_full q then [] else g) ++ [segment id seq now frame]) /\ q_seg_len q' = q_seg_len q.
Proof.
  intros Hok Hi Hf Hq Hg Hs st'. set (st1 := if q_is_full q then flush i st else st).
  set (q1 := if q_is_full q then q_clear q else q). set (g1 := if q_is_full q then [] else g).
  assert (exists ops, emits st st1 ops /\ Forall quiet_op ops /\ same_rest st st1 /\ sh_tx_seq st1 = sh_tx_seq st /\
    sh_tx st1 = <[vidx_get i := q1]> (sh_tx st)) as (ops & He & Hqt & Hr & Hseq & Htx).
  { unfold st1, q1. destruct (q_is_full q).
    - destruct (flush_spec i q g st Hi Hq Hg) as (oks & ops & _ & F1 & F2 & F3 & F4 & F5 & _). by exists ops.
    - exists []. do 3 (split; [done |]). split; [done |]. symmetry. by apply list_insert_id. }
  assert (holds q1 g1) as Hg1 by (unfold q1, g1; destruct (q_is_full q); [by eapply holds_clear | done]).
  assert (q_seg_len q = segment_len (sp_inner_mtu params)) as Hsl.
  { pose proof (so_queues _ Hok) as H2. rewrite Forall_lookup in H2. by destruct (H2 _ _ Hq). }
  assert (q_seg_len q1 = q_seg_len q) as Hsl1 by (unfold q1; by destruct (q_is_full q)).
  assert (sh_tx st1 !! vidx_get i = Some q1) as Hq1.
  { rewrite Htx. apply list_lookup_insert_eq. rewrite (so_tx _ Hok). exact Hi. }
  assert ((length g1 < TX_BATCH)%nat /\ (OVERLAY_HDR_LEN + length frame <= q_seg_len q1)%nat /\
          Z.of_nat (OVERLAY_HDR_LEN + length frame) <= 65535) as Hroom.
  { rewrite Hsl1, Hsl. unfold segment_len in *. split; [| split; lia]. unfold g1.
    assert (length (q_lens q) = length g) as Hlen
      by (rewrite <- (length_fmap usize_of), (h_lens _ _ Hg); apply length_fmap).
    destruct (q_is_full q) eqn:Ef; [unfold TX_BATCH; cbn; lia |]. unfold q_is_full in Ef. apply Nat.leb_gt in Ef. lia. }
  pose proof (holds_push q1 g1 (Wire.encode {| hdr_ingress_vport := id; hdr_seq := seq; hdr_ts_us := now |}) frame
    Hg1 (length_encode _)) as Hp. cbn zeta in Hp. rewrite bool_decide_true in Hp by exact Hroom. destruct Hp as [Hp1 Hp2].
  assert (st' = set_tx_seq i (Seq_next seq) (set_tx i (q_push (Wire.encode {| hdr_ingress_vport := id;
    hdr_seq := seq; hdr_ts_us := now |}) frame q1).1 st1)) as ->.
  { unfold st', stage. rewrite Hq. fold st1. rewrite Hq1, Hseq, Hs.
    destruct (q_push _ _ _) as [q' ok]. cbn [snd fst] in *. by rewrite Hp2. }
  exists (q_push (Wire.encode {| hdr_ingress_vport := id; hdr_seq := seq; hdr_ts_us := now |}) frame q1).1, ops.
  split; [exact He |]. split; [done |]. split; [destruct Hr; by split |].
  split; [cbn [sh_tx_seq set_tx_seq set_tx]; by rewrite Hseq |].
  split; [cbn [sh_tx set_tx_seq set_tx]; by rewrite Htx, list_insert_insert_eq |].
  split; [exact Hp1 |]. rewrite <- Hsl1. unfold q_push. destruct (_ || _); [done |]. by destruct (try_u _ _).
Qed.

Lemma stage_ok st i frame id now :
  shard_ok st -> live i -> (length frame <= sp_inner_mtu params)%nat -> shard_ok (stage frame id now st i).
Proof.
  intros Hok Hi Hf. destruct (shard_queue st i Hok Hi) as (q & g & seq & Hq & Hg & Hsl & Hs).
  destruct (stage_spec st i q g seq frame id now Hok Hi Hf Hq Hg Hs) as (q' & ops & He & _ & [R1 R2 R3] & Hts & Htx & Hq' & Hsl').
  pose proof Hok as [O1 O2 O3 O4 O5]. split.
  - by rewrite Htx, length_insert.
  - rewrite Htx. apply Forall_insert; [done |]. split; [congruence | by eexists].
  - by rewrite R3.
  - by rewrite Hts, length_insert.
  - by eapply metrics_after.
Qed.

(** *** What became of a segment *)

Inductive Fate :=
  | FBad
  | FOversize
  | FDropped
  | FPunted
  | FPuntFull
  | FPuntOff
  | FUnknownPort
  | FForward (egress : VportIdx)
  | FFlood.

(** The counter a fate is charged to. *)
Definition charge (f : Fate) : option Counter :=
  match f with
  | FBad => Some RxBadHeader
  | FOversize => Some TxOversizeDrop
  | FDropped => Some EngineDrop
  | FPuntFull => Some PuntOverflowDrop
  | FPuntOff => Some PuntUnconfiguredDrop
  | FUnknownPort => Some TxUnknownPort
  | _ => None
  end.

Definition discards : list Counter :=
  [RxBadHeader; TxOversizeDrop; EngineDrop; PuntOverflowDrop; PuntUnconfiguredDrop; TxUnknownPort].

(** Whether a segment with this fate leaves through [e]. *)
Definition reaches (ingress e : VportIdx) (f : Fate) : bool :=
  match f with
  | FForward e' => bool_decide (e = e')
  | FFlood => negb (bool_decide (e = ingress))
  | _ => false
  end.

Definition tally (p : Fate -> bool) (fates : list Fate) : Z :=
  foldr (fun f n => (if p f then 1 else 0) + n) 0 fates.

Definition accepted (f : Fate) : bool := match f with FBad => false | _ => true end.
Definition punted (f : Fate) : bool := match f with FPunted => true | _ => false end.
Definition flooded (f : Fate) : bool := match f with FFlood => true | _ => false end.

Definition punt_waiting st : nat := match sh_punt st with Some r => ring_len r | None => 0%nat end.

(** The counters, the punt queue and the sequence numbers moved by exactly
    these fates, with [rx] frames accepted. *)
Record moves (ingress : VportIdx) (rx : Z) st st' (fates : list Fate) : Prop := {
  mv_ops : exists ops, emits st st' ops /\
    (forall c, c ∈ discards -> total (to_counter c) ops = tally (fun f => bool_decide (charge f = Some c)) fates) /\
    total (to_vport (vidx_get ingress) RxPkts) ops = rx /\
    total (to_vport (vidx_get ingress) TxBroadcast) ops = tally flooded fates;
  mv_punt : Z.of_nat (punt_waiting st') = Z.of_nat (punt_waiting st) + tally punted fates;
  mv_seq : forall e seq, live e -> sh_tx_seq st !! vidx_get e = Some seq ->
    sh_tx_seq st' !! vidx_get e = Some (Seq_new (U32 (uv (Seq_get seq) + tally (reaches ingress e) fates)));
}.

Lemma tally_app p fs1 fs2 : tally p (fs1 ++ fs2) = tally p fs1 + tally p fs2.
Proof. unfold tally. induction fs1 as [| f fs1 IH]; cbn [foldr app]; [done |]. rewrite IH. lia. Qed.

Lemma total_zero f ops : Forall (fun o => f o = 0) ops -> total f ops = 0.
Proof. unfold total. induction 1 as [| o ops Ho _ IH]; cbn [foldr]; [done |]. by rewrite Ho, IH. Qed.

Lemma quiet_totals ops :
  Forall quiet_op ops ->
  (forall c, c ∈ discards -> total (to_counter c) ops = 0) /\
  (forall i, total (to_vport i RxPkts) ops = 0) /\ (forall i, total (to_vport i TxBroadcast) ops = 0).
Proof.
  intros Hq. split; [| split].
  - intros c Hc. apply total_zero. eapply Forall_impl; [exact Hq |]. intros [c' n | |]; cbn; [| done | done].
    intros Hc'. rewrite bool_decide_false; [done |]. intros <-. unfold discards in Hc.
    repeat (apply elem_of_cons in Hc as [-> | Hc]; [naive_solver |]). by apply elem_of_nil in Hc.
  - intros i. apply total_zero. eapply Forall_impl; [exact Hq |]. intros [| i' c' n |]; cbn; [done | | done].
    intros Hc'. rewrite bool_decide_false; [done |]. naive_solver.
  - intros i. apply total_zero. eapply Forall_impl; [exact Hq |]. intros [| i' c' n |]; cbn; [done | | done].
    intros Hc'. rewrite bool_decide_false; [done |]. naive_solver.
Qed.

Lemma U32_add_0 (x : u32) : U32 (uv x + 0) = x.
Proof. rewrite Z.add_0_r. apply u_of_uv. Qed.

Lemma U32_add_add (x : u32) a b : U32 (uv (U32 (uv x + a)) + b) = U32 (uv x + (a + b)).
Proof. apply uint_eq. rewrite !uv_of, Zplus_mod_idemp_l. f_equal. lia. Qed.

Lemma Seq_eta s : Seq_new (Seq_get s) = s.
Proof. by destruct s. Qed.

Lemma moves_trans ingress rx1 rx2 st1 st2 st3 fs1 fs2 :
  moves ingress rx1 st1 st2 fs1 -> moves ingress rx2 st2 st3 fs2 -> moves ingress (rx1 + rx2) st1 st3 (fs1 ++ fs2).
Proof.
  intros [(o1 & E1 & C1 & X1 & B1) P1 S1] [(o2 & E2 & C2 & X2 & B2) P2 S2]. split.
  - exists (o1 ++ o2). split; [by eapply emits_trans |]. rewrite !total_app, tally_app, X1, X2, B1, B2.
    split; [| done]. intros c Hc. by rewrite total_app, tally_app, C1, C2.
  - rewrite P2, P1, tally_app. lia.
  - intros e seq He Hs. rewrite (S2 e _ He (S1 e _ He Hs)). cbn [Seq_get]. by rewrite U32_add_add, tally_app.
Qed.

(** Charging a counter and nothing else. *)
Lemma moves_charge ingress st f c :
  charge f = Some c -> moves ingress 0 st (count (mbump c) st) [f].
Proof.
  intros Hf. split.
  - exists [MAdd c (U64 1)]. split; [done |]. split; [| split; [done | destruct f; done]].
    intros c' _. cbn [total foldr to_counter tally]. rewrite Hf. change (uv (U64 1)) with 1.
    rewrite (bool_decide_ext (Some c = Some c') (c' = c)); [done |]. split; [by intros [= ->] | by intros ->].
  - unfold punt_waiting. cbn [sh_punt count]. destruct f; try discriminate Hf; cbn; lia.
  - intros e seq _ Hs. cbn [sh_tx_seq count]. rewrite Hs. assert (tally (reaches ingress e) [f] = 0) as ->
      by (destruct f; try discriminate Hf; reflexivity). by rewrite U32_add_0, Seq_eta.
Qed.

Lemma moves_stage ingress st i frame id now :
  shard_ok st -> live i -> (length frame <= sp_inner_mtu params)%nat ->
  moves ingress 0 st (stage frame id now st i) [FForward i].
Proof.
  intros Hok Hi Hf. destruct (shard_queue st i Hok Hi) as (q & g & seq & Hq & Hg & _ & Hs).
  destruct (stage_spec st i q g seq frame id now Hok Hi Hf Hq Hg Hs) as (q' & ops & He & Hqt & [_ Hp _] & Hts & _).
  destruct (quiet_totals ops Hqt) as (Q1 & Q2 & Q3). split.
  - exists ops. split; [done |]. split; [| split; [apply Q2 | by rewrite Q3]]. intros c Hc. by rewrite Q1.
  - unfold punt_waiting. rewrite Hp. cbn. lia.
  - intros e seq' He' Hs'. rewrite Hts. cbn [tally foldr reaches]. case_bool_decide as Hei.
    + subst e. assert (seq' = seq) as -> by congruence. rewrite list_lookup_insert_eq; [by rewrite Z.add_0_r |].
      by apply lookup_lt_Some in Hs.
    + rewrite list_lookup_insert_ne by (intros ?; apply Hei; symmetry; by apply vidx_get_eq).
      by rewrite Hs', U32_add_0, Seq_eta.
Qed.

(** The fan-out of a broadcast. *)
Lemma flood_spec ingress frame id now l st :
  NoDup l -> Forall live l -> shard_ok st -> (length frame <= sp_inner_mtu params)%nat ->
  let st' := foldl (fun st egress => if bool_decide (egress = ingress) then st else stage frame id now st egress) st l in
  shard_ok st' /\
  exists ops, emits st st' ops /\ Forall quiet_op ops /\ same_rest st st' /\
    forall e seq, live e -> sh_tx_seq st !! vidx_get e = Some seq ->
      sh_tx_seq st' !! vidx_get e =
        Some (if bool_decide (e ∈ l /\ e <> ingress) then Seq_next seq else seq).
Proof.
  intros Hnd Hl Hok Hf. revert st Hok. induction l as [| i l IH]; intros st Hok; cbn [foldl].
  { split; [done |]. exists []. split; [done |]. split; [done |]. split; [done |]. intros e seq _ Hs.
    rewrite bool_decide_false; [done |]. intros [Hin _]. by apply elem_of_nil in Hin. }
  apply NoDup_cons in Hnd as [Hni Hnd]. inversion Hl as [| ? ? Hi Hl' ]; subst. case_bool_decide as Hii.
  - destruct (IH Hnd Hl' st Hok) as (I1 & ops & I2 & I3 & I4 & I5). split; [done |]. exists ops.
    split; [done |]. split; [done |]. split; [done |]. intros e seq He Hs. rewrite (I5 e seq He Hs). f_equal.
    rewrite (bool_decide_ext (e ∈ i :: l /\ e <> ingress) (e ∈ l /\ e <> ingress)); [done |].
    rewrite elem_of_cons. split; [intros [[-> | H] Hn]; [done | done] | intros [H Hn]; split; [by right | done]].
  - destruct (shard_queue st i Hok Hi) as (q & g & seq & Hq & Hg & _ & Hs).
    destruct (stage_spec st i q g seq frame id now Hok Hi Hf Hq Hg Hs) as (q' & ops & He & Hqt & Hr & Hts & _).
    destruct (IH Hnd Hl' _ (stage_ok st i frame id now Hok Hi Hf)) as (I1 & ops' & I2 & I3 & I4 & I5).
    split; [done |]. exists (ops ++ ops'). split; [by eapply emits_trans |]. split; [by apply Forall_app |].
    split; [by eapply same_rest_trans |]. intros e seq' He' Hs'. destruct (decide (e = i)) as [-> | Hei].
    + assert (seq' = seq) as -> by congruence. rewrite (I5 i (Seq_next seq) Hi).
      * rewrite bool_decide_false by (by intros [? _]). rewrite bool_decide_true; [done |].
        split; [apply list_elem_of_here | done].
      * rewrite Hts. apply list_lookup_insert_eq. by apply lookup_lt_Some in Hs.
    + rewrite (I5 e seq' He').
      * f_equal. rewrite (bool_decide_ext (e ∈ i :: l /\ e <> ingress) (e ∈ l /\ e <> ingress)); [done |].
        rewrite elem_of_cons. split; [intros [[-> | H] Hn]; done | intros [H Hn]; split; [by right | done]].
      * rewrite Hts, list_lookup_insert_ne; [done |]. intros ?. apply Hei. symmetry. by apply vidx_get_eq.
Qed.

(** *** Dispatch *)

Hypothesis topology_built : exists entries errs, build entries errs = (errs, Some (topology params)).

Lemma topology_facts :
  (forall id i, idx_of_id (topology params) id = Some i -> live i) /\
  (forall p i, idx_of_peer (topology params) p = Some i -> exists vp, vt_get (topology params) i = Some vp /\ vp_peer vp = p) /\
  NoDup fanout /\ (forall i, i ∈ fanout <-> live i).
Proof.
  destruct topology_built as (entries & errs & Hb). pose proof (build_spec entries errs) as Hs. rewrite Hb in Hs.
  destruct Hs as (_ & _ & H1 & _ & He & Hid & Hp).
  assert (Z.of_nat (vt_len (topology params)) < 65536) as Hlen by (unfold vt_len; rewrite He; by apply ids_bounded).
  split; [| split; [| split]].
  - intros id i Hi. apply Hid in Hi as (v & Hv & _). by apply lookup_lt_Some in Hv.
  - intros p i. apply Hp.
  - by apply vt_iter_fst_NoDup.
  - intros i. unfold fanout. rewrite list_elem_of_fmap. split.
    + intros ([i' v] & -> & Hin%vt_iter_lookup); [| done]. by apply lookup_lt_Some in Hin.
    + intros Hi. destruct (lookup_lt_is_Some_2 _ _ Hi) as [v Hv]. exists (i, v). split; [done |].
      by apply vt_iter_lookup.
Qed.

Lemma shard_ok_same st st' ops :
  emits st st' ops -> sh_tx st' = sh_tx st -> sh_rx_seq st' = sh_rx_seq st -> sh_tx_seq st' = sh_tx_seq st ->
  shard_ok st -> shard_ok st'.
Proof.
  intros He H1 H2 H3 [O1 O2 O3 O4 O5]. split; [by rewrite H1 | by rewrite H1 | by rewrite H2 | by rewrite H3 |].
  by eapply metrics_after.
Qed.

Lemma dispatch_moves v frame ingress id now st :
  shard_ok st -> live ingress -> (v <> Drop -> (length frame <= sp_inner_mtu params)%nat) ->
  shard_ok (dispatch v frame ingress id now st) /\
  exists f, moves ingress 0 st (dispatch v frame ingress id now st) [f] /\ accepted f = true.
Proof.
  intros Hok Hin Hf. destruct topology_facts as (Hid & _ & Hnd & Hfan). destruct v as [port | | |]; cbn [dispatch].
  - destruct (idx_of_id (topology params) port) as [e |] eqn:Ei.
    + apply Hid in Ei. split; [by apply stage_ok; [| | apply Hf] |]. exists (FForward e).
      split; [by apply moves_stage; [| | apply Hf] | done].
    + split; [by eapply (shard_ok_same st _ [MAdd TxUnknownPort (U64 1)]) |]. exists FUnknownPort.
      split; [by apply moves_charge | done].
  - set (st1 := count (vbump ingress TxBroadcast) st).
    assert (shard_ok st1) as Hok1 by (by eapply (shard_ok_same st _ [MVport ingress TxBroadcast (U64 1)])).
    destruct (flood_spec ingress frame id now fanout st1 Hnd) as (I1 & ops & I2 & I3 & I4 & I5);
      [apply Forall_forall; intros i; apply Hfan | done | by apply Hf |].
    split; [exact I1 |]. exists FFlood. split; [| done]. destruct (quiet_totals ops I3) as (Q1 & Q2 & Q3). split.
    + exists (MVport ingress TxBroadcast (U64 1) :: ops). split; [exact I2 |].
      change (MVport ingress TxBroadcast (U64 1) :: ops) with ([MVport ingress TxBroadcast (U64 1)] ++ ops).
      rewrite !total_app, Q2, Q3. split; [| split].
      * intros c Hc. rewrite total_app, (Q1 c Hc). done.
      * cbn. rewrite bool_decide_false by (by intros [_ ?]). done.
      * cbn. rewrite bool_decide_true by done. done.
    + unfold punt_waiting. rewrite (sr_punt _ _ I4). cbn. lia.
    + intros e seq He Hs. rewrite (I5 e seq He Hs). f_equal.
      rewrite (bool_decide_ext (e ∈ fanout /\ e <> ingress) (e <> ingress)) by (rewrite Hfan; tauto).
      cbn [tally foldr reaches]. repeat case_bool_decide; cbn [negb]; try done.
      by rewrite U32_add_0, Seq_eta.
  - destruct (sh_punt st) as [r |] eqn:Er.
    + unfold punt_push. destruct (Nat.eqb_spec (ring_len r) (length (slots r))).
      * split; [by eapply (shard_ok_same st _ [MAdd PuntOverflowDrop (U64 1)]) |]. exists FPuntFull. split; [| done].
        destruct (moves_charge ingress st FPuntFull PuntOverflowDrop eq_refl) as [M1 M2 M3].
        split; [exact M1 | | exact M3]. unfold punt_waiting in *. cbn [sh_punt count set_punt] in *. by rewrite Er in *.
      * split; [by eapply (shard_ok_same st _ []) |]. exists FPunted. split; [| done]. split.
        -- exists []. split; [done |]. split; [intros c _; done | done].
        -- unfold punt_waiting. rewrite Er. cbn. lia.
        -- intros e seq _ Hs. cbn [sh_tx_seq set_punt]. rewrite Hs. cbn. by rewrite U32_add_0, Seq_eta.
    + split; [by eapply (shard_ok_same st _ [MAdd PuntUnconfiguredDrop (U64 1)]) |]. exists FPuntOff.
      split; [by apply moves_charge | done].
  - split; [by eapply (shard_ok_same st _ [MAdd EngineDrop (U64 1)]) |]. exists FDropped.
    split; [by apply moves_charge | done].
Qed.

(** *** One segment *)

Context `{HL : !EngineLaws P E}.

Definition event_ops (i : VportIdx) (e : SeqEvent) : list MOp :=
  match e with
  | InOrder => []
  | Gap missing => [MVport i RxSeqGapTotal (U64 missing)]
  | Reorder => [MVport i RxReorder (U64 1)]
  end.

Lemma charge_event_ops i e m : charge_event i e m = foldl mop m (event_ops i e).
Proof. by destruct e. Qed.

(** The header charges of an accepted frame. *)
Lemma moves_accept ingress t n e st :
  moves ingress 1 st
    (count (charge_event ingress e) (count (vadd ingress RxBytes n) (count (vbump ingress RxPkts) (set_rx_seq ingress t st)))) [].
Proof.
  split.
  - exists ([MVport ingress RxPkts (U64 1); MVport ingress RxBytes n] ++ event_ops ingress e). split.
    + unfold emits. cbn [sh_metrics count set_rx_seq]. by rewrite charge_event_ops, foldl_app.
    + rewrite !total_app. split; [| split].
      * intros c _. rewrite total_app. by destruct e.
      * cbn. rewrite bool_decide_true, bool_decide_false by naive_solver. destruct e; cbn; [done | |];
          (rewrite bool_decide_false by naive_solver; done).
      * cbn. rewrite !bool_decide_false by naive_solver. destruct e; cbn; [done | |];
          (rewrite bool_decide_false by naive_solver; done).
  - unfold punt_waiting. cbn. lia.
  - intros e' seq _ Hs. cbn [sh_tx_seq count set_rx_seq]. rewrite Hs. cbn. by rewrite U32_add_0, Seq_eta.
Qed.

Lemma moves_engine ingress rx st e st' fs : moves ingress rx (set_engine e st) st' fs -> moves ingress rx st st' fs.
Proof. intros [M1 M2 M3]. by split. Qed.

(** The slot as the pipeline may leave it: as long as it was, and untouched
    from the end of its segment on. *)
Definition slot_kept (fin : nat) (slot slot' : bytes) : Prop :=
  length slot' = length slot /\ drop fin slot' = drop fin slot.

(** Where segment [k] lies, and that it is inside. *)
Lemma segment_bounds len stride k (slot : bytes) :
  (0 < stride)%nat -> (k * stride < len)%nat -> (HEADROOM + len <= length slot)%nat ->
  (seg_start stride k < seg_end len stride k)%nat /\ (seg_end len stride k <= length slot)%nat /\
  (HEADROOM <= seg_start stride k)%nat /\ (seg_end len stride k <= seg_start stride (S k))%nat.
Proof. unfold seg_end, seg_start. rewrite Nat.mul_succ_l. intros. do 3 (split; [lia |]). lia. Qed.

(** What [FrameCtx::new] makes of a decodable segment. *)
Lemma segment_frame len stride k slot hdr id now :
  (0 < stride)%nat -> (k * stride < len)%nat -> (HEADROOM + len <= length slot)%nat ->
  Z.of_nat (length slot) <= usize_max ->
  let start := seg_start stride k in
  let fin := seg_end len stride k in
  Wire.decode (slice start fin slot) = Ok hdr ->
  exists ctx, frame_new (take fin slot) (start + OVERLAY_HDR_LEN) (fin - (start + OVERLAY_HDR_LEN)) id now = Some ctx /\
    Frame.ok ctx /\ frame ctx = drop OVERLAY_HDR_LEN (slice start fin slot) /\ (MIN_HEADROOM <= headroom ctx)%nat /\
    length (buf ctx) = fin.
Proof.
  intros Hst Hk Hslot Husz start fin Hd. destruct (segment_bounds len stride k slot Hst Hk Hslot) as (B1 & B2 & B3 & _).
  fold start fin in B1, B2, B3. assert (OVERLAY_HDR_LEN <= length (slice start fin slot))%nat as Hlen.
  { apply Nat.nlt_ge. intros Hs%decode_short. congruence. }
  rewrite length_slice in Hlen by lia. eexists. split.
  { apply frame_new_Some. split; [lia |]. split; [rewrite length_take; lia |]. reflexivity. }
  unfold Frame.ok, frame. cbn [headroom Frame.len buf]. rewrite length_take. split; [lia |]. split; [| split].
  - unfold slice. rewrite skipn_firstn_comm, take_take, skipn_firstn_comm, drop_drop. f_equal. lia.
  - unfold MIN_HEADROOM, HEADROOM in *. lia.
  - lia.
Qed.

Lemma slice_ctx (f : FrameCtx) (rest : bytes) :
  Frame.ok f -> slice (headroom f) (headroom f + Frame.len f) (buf f ++ rest) = frame f.
Proof.
  unfold Frame.ok, frame, slice. intros H. rewrite drop_app_le by lia. rewrite take_app_le; [done |]. rewrite length_drop. lia.
Qed.

Lemma receive_segment_moves ingress id len stride now st slot k p :
  shard_ok st -> live ingress -> (0 < stride)%nat -> (k * stride < len)%nat -> (HEADROOM + len <= length slot)%nat ->
  Z.of_nat (length slot) <= usize_max ->
  let '(st', slot') := receive_segment ingress id len stride now (st, slot) (k, p) in
  shard_ok st' /\ slot_kept (seg_end len stride k) slot slot' /\
  exists f, moves ingress (if accepted f then 1 else 0) st st' [f].
Proof.
  intros Hok Hin Hst Hk Hslot Husz. cbn [receive_segment]. destruct (segment_bounds len stride k slot Hst Hk Hslot) as (B1 & B2 & B3 & _).
  destruct (Wire.decode _) as [hdr |] eqn:Hd.
  2: { split; [by eapply (shard_ok_same st _ [MAdd RxBadHeader (U64 1)]) |]. split; [done |]. exists FBad. by apply moves_charge. }
  destruct (segment_frame len stride k slot hdr id now Hst Hk Hslot Husz Hd) as (ctx & -> & Hctx & _ & _ & Hbuf).
  destruct (observe _ _) as [event tracker].
  lazymatch goal with |- context [count (charge_event ingress event) ?x] => set (st1 := count (charge_event ingress event) x) end.
  assert (moves ingress 1 st st1 []) as M1 by apply moves_accept.
  assert (shard_ok st1) as Hok1.
  { destruct Hok as [O1 O2 O3 O4 O5]. split; [done | done | | done |].
    - cbn [sh_rx_seq st1 count set_rx_seq]. by rewrite length_insert.
    - destruct M1 as [(ops & He & _) _ _]. by eapply metrics_after. }
  pose proof (process_ok p ctx (sh_engine st1) Hctx) as Hp.
  destruct (process p ctx (sh_engine st1)) as [[e ctx'] v]. cbn [fst snd] in Hp. destruct Hp as [Hctx' (Hlen & _)].
  assert (slot_kept (seg_end len stride k) slot (buf ctx' ++ drop (seg_end len stride k) slot)) as Hkept.
  { split; [rewrite length_app, length_drop, Hlen, Hbuf; lia |]. by rewrite drop_app_length' by lia. }
  assert (shard_ok (set_engine e st1)) as Hok2 by (by eapply (shard_ok_same st1 _ [])).
  destruct (negb (bool_decide (v = Drop)) && (sp_inner_mtu params <? Frame.len ctx')%nat) eqn:Eo.
  - split; [by eapply (shard_ok_same (set_engine e st1) _ [MAdd TxOversizeDrop (U64 1)]) |]. split; [done |].
    exists FOversize. apply (moves_trans ingress 1 0 st st1 _ [] [FOversize] M1), moves_engine with e. by apply moves_charge.
  - rewrite slice_ctx by done.
    destruct (dispatch_moves v (frame ctx') ingress id now (set_engine e st1) Hok2 Hin) as [D1 (f & D2 & D3)].
    { intros Hv. rewrite length_frame by done. rewrite bool_decide_false in Eo by done. cbn [negb andb] in Eo.
      by apply Nat.ltb_ge in Eo. }
    split; [exact D1 |]. split; [done |]. exists f. rewrite D3.
    apply (moves_trans ingress 1 0 st st1 _ [] [f] M1), moves_engine with e. exact D2.
Qed.

(** *** A read *)

Definition segments_of (meta : RecvMeta A) : nat :=
  div_ceil (rm_len meta) (if (rm_stride meta =? 0)%nat then rm_len meta else rm_stride meta).

Definition stride_of (meta : RecvMeta A) : nat := if (rm_stride meta =? 0)%nat then rm_len meta else rm_stride meta.

Lemma segments_none meta : rm_len meta = 0%nat -> segments_of meta = 0%nat.
Proof.
  intros Hl. unfold segments_of, div_ceil. rewrite Hl. destruct (Nat.eqb_spec (rm_stride meta) 0) as [| Hs]; [done |].
  apply Nat.div_small. lia.
Qed.

Lemma div_ceil_lt k a b : (0 < b)%nat -> (k < div_ceil a b)%nat -> (k * b < a)%nat.
Proof.
  intros Hb Hk. unfold div_ceil in Hk. destruct (Nat.lt_ge_cases (k * b) a) as [| Hge]; [done |].
  assert (a + b - 1 < b * S k)%nat as Hlt by nia. apply Nat.Div0.div_lt_upper_bound in Hlt. unfold lt in *. nia.
Qed.

Lemma slot_kept_trans fin1 fin2 s1 s2 s3 :
  (fin1 <= fin2)%nat -> slot_kept fin1 s1 s2 -> slot_kept fin2 s2 s3 -> slot_kept fin2 s1 s3.
Proof.
  intros Hf [L1 D1] [L2 D2]. split; [congruence |]. rewrite D2.
  replace fin2 with (fin1 + (fin2 - fin1))%nat by lia. by rewrite <- !drop_drop, D1.
Qed.

Lemma receive_loop ingress id len stride now (tables : nat -> P) k0 n st slot :
  shard_ok st -> live ingress -> (0 < stride)%nat ->
  (forall k, (k0 <= k < k0 + n)%nat -> (k * stride < len)%nat) -> (HEADROOM + len <= length slot)%nat ->
  Z.of_nat (length slot) <= usize_max ->
  let '(st', slot') := foldl (receive_segment ingress id len stride now) (st, slot)
                         ((fun k => (k, tables k)) <$> seq k0 n) in
  shard_ok st' /\ slot_kept (seg_start stride (k0 + n)) slot slot' /\
  exists fs, length fs = n /\ moves ingress (tally accepted fs) st st' fs.
Proof.
  intros Hok Hin Hst. revert k0 st slot Hok. induction n as [| n IH]; intros k0 st slot Hok Hk Hslot Husz.
  - cbn [seq fmap list_fmap foldl]. split; [done |]. split; [done |]. exists []. split; [done |]. split.
    + exists []. done.
    + cbn. lia.
    + intros e seq _ Hs. rewrite Hs. cbn. by rewrite U32_add_0, Seq_eta.
  - cbn [seq]. rewrite fmap_cons. cbn [foldl].
    pose proof (receive_segment_moves ingress id len stride now st slot k0 (tables k0) Hok Hin Hst
      (Hk k0 ltac:(lia)) Hslot Husz) as H1.
    destruct (segment_bounds len stride k0 slot Hst (Hk k0 ltac:(lia)) Hslot) as (_ & _ & _ & B4).
    destruct (receive_segment _ _ _ _ _ (st, slot) (k0, tables k0)) as [st1 slot1].
    destruct H1 as (Hok1 & [L1 D1] & f & M1).
    specialize (IH (S k0) st1 slot1 Hok1 ltac:(intros; apply Hk; lia) ltac:(by rewrite L1) ltac:(by rewrite L1)).
    destruct (foldl _ (st1, slot1) _) as [st2 slot2]. destruct IH as (Hok2 & H2 & fs & Hlen & M2).
    split; [done |]. split.
    + replace (k0 + S n)%nat with (S k0 + n)%nat by lia. eapply slot_kept_trans; [| by split | exact H2].
      etransitivity; [exact B4 |]. unfold seg_start. nia.
    + exists (f :: fs). split; [cbn; by rewrite Hlen |]. change (f :: fs) with ([f] ++ fs). rewrite tally_app.
      replace (tally accepted [f]) with (if accepted f then 1 else 0) by (cbn; lia).
      by eapply moves_trans.
Qed.

(** Reading what [moves] says off the counters. *)
Lemma moves_counters ingress rx st st' fs :
  shard_ok st -> live ingress -> moves ingress rx st st' fs ->
  (forall c, c ∈ discards -> mget (sh_metrics st') c =
     U64 (uv (mget (sh_metrics st) c) + tally (fun f => bool_decide (charge f = Some c)) fs)) /\
  vget (sh_metrics st') (vidx_get ingress) RxPkts = U64 (uv (vget (sh_metrics st) (vidx_get ingress) RxPkts) + rx) /\
  vget (sh_metrics st') (vidx_get ingress) TxBroadcast =
    U64 (uv (vget (sh_metrics st) (vidx_get ingress) TxBroadcast) + tally flooded fs).
Proof.
  intros Hok Hin [(ops & He & C & X & B) _ _]. destruct (so_metrics _ Hok) as [Hs Hv].
  rewrite He, !vget_after, X, B by (done || by rewrite Hv). split; [| done].
  intros c Hc. by rewrite He, <- (C c Hc), mget_after.
Qed.

(** *** Streams *)

Inductive SOp := SStage (e : VportIdx) (frame : bytes) (ingress_id : u16) (now : u32) | SFlush (e : VportIdx).

Definition sop st (o : SOp) : Shard E K :=
  match o with SStage e f id now => stage f id now st e | SFlush e => flush e st end.

Definition sop_fits (o : SOp) : Prop :=
  match o with
  | SStage e f _ _ => live e /\ (length f <= sp_inner_mtu params)%nat
  | SFlush e => live e
  end.

(** The datagrams waiting in the queue of [e]. *)
Definition queued (e : VportIdx) st : list bytes :=
  match sh_tx st !! vidx_get e with
  | Some q => runs (max_gso_segments (caps (sh_socket st))) q ≫= datagrams q
  | None => []
  end.

(** The frames staged for [e], under consecutive numbers. *)
Fixpoint numbered (e : VportIdx) (seq : Seq) (ops : list SOp) : list bytes :=
  match ops with
  | [] => []
  | SStage e' f id now :: ops =>
      if bool_decide (e' = e) then segment id seq now f :: numbered e (Seq_next seq) ops else numbered e seq ops
  | SFlush _ :: ops => numbered e seq ops
  end.

Lemma queued_holds e st q g : sh_tx st !! vidx_get e = Some q -> holds q g -> queued e st = g.
Proof. intros Hq Hg. unfold queued. rewrite Hq. by destruct (runs_holds q g (max_gso_segments (caps (sh_socket st))) Hg). Qed.

Lemma flush_ok i st : shard_ok st -> live i -> shard_ok (flush i st).
Proof.
  intros Hok Hi. destruct (shard_queue st i Hok Hi) as (q & g & seq & Hq & Hg & Hsl & _).
  destruct (flush_spec i q g st Hi Hq Hg) as (oks & ops & _ & He & _ & [_ _ R3] & Hts & Htx & _).
  pose proof Hok as [O1 O2 O3 O4 O5]. split.
  - by rewrite Htx, length_insert.
  - rewrite Htx. apply Forall_insert; [done |]. split; [done |]. exists []. by eapply holds_clear.
  - by rewrite R3.
  - by rewrite Hts.
  - by eapply metrics_after.
Qed.

(** The numbers of a list of segments, as the receiver decodes them. *)
Definition numbers_of (segs : list bytes) : list Seq := omap (fun s => hdr_seq <$> to_option (Wire.decode s)) segs.

Lemma numbers_of_segment id seq now f segs : numbers_of (segment id seq now f :: segs) = seq :: numbers_of segs.
Proof. unfold numbers_of, segment. cbn [omap list_omap]. by rewrite decode_segment. Qed.

Lemma numbered_in_order e seq ops :
  Forall (fun ev => ev = InOrder) (observe_all (MkSeqTracker (Some seq)) (numbers_of (numbered e seq ops))).1.
Proof.
  revert seq. induction ops as [| [e' f id now | e'] ops IH]; intros seq; cbn [numbered]; [constructor | | apply IH].
  case_bool_decide; [| apply IH]. rewrite numbers_of_segment. cbn [observe_all]. rewrite observe_next.
  specialize (IH (Seq_next seq)). destruct (observe_all _ _) as [evs t]. cbn [fst] in *. by constructor.
Qed.

(** ** Properties *)

(** C8: every segment of a read is accounted for, once.  A read from an
    unknown peer is charged whole; in any other, each segment has one fate, and
    every discard counter, the broadcast and receive counters of the ingress
    vport, the punt queue and the sequence number of every egress move by
    exactly the number of segments with the fate they stand for, whatever the
    pipeline does, whatever the kernel answers and however the control plane
    writes between two segments. *)
Theorem read_accounts_for_every_segment (tables : nat -> P) (slot : bytes) (meta : RecvMeta A) (now : u32) st :
  shard_ok st -> (HEADROOM + rm_len meta <= length slot)%nat -> Z.of_nat (length slot) <= usize_max ->
  let '(st', slot') := receive tables slot meta now st in
  shard_ok st' /\ length slot' = length slot /\
  match idx_of_peer (topology params) (rm_addr meta) with
  | None =>
      mget (sh_metrics st') RxUnknownPeer =
        U64 (uv (mget (sh_metrics st) RxUnknownPeer) + Z.of_nat (segments_of meta)) /\
      sh_engine st' = sh_engine st /\ sh_punt st' = sh_punt st /\ sh_tx st' = sh_tx st /\ sh_tx_seq st' = sh_tx_seq st
  | Some ingress =>
      exists fates, length fates = segments_of meta /\
        (forall c, c ∈ discards -> mget (sh_metrics st') c =
           U64 (uv (mget (sh_metrics st) c) + tally (fun f => bool_decide (charge f = Some c)) fates)) /\
        vget (sh_metrics st') (vidx_get ingress) RxPkts =
          U64 (uv (vget (sh_metrics st) (vidx_get ingress) RxPkts) + tally accepted fates) /\
        vget (sh_metrics st') (vidx_get ingress) TxBroadcast =
          U64 (uv (vget (sh_metrics st) (vidx_get ingress) TxBroadcast) + tally flooded fates) /\
        Z.of_nat (punt_waiting st') = Z.of_nat (punt_waiting st) + tally punted fates /\
        (forall e seq, live e -> sh_tx_seq st !! vidx_get e = Some seq ->
           sh_tx_seq st' !! vidx_get e = Some (Seq_new (U32 (uv (Seq_get seq) + tally (reaches ingress e) fates))))
  end.
Proof.
  intros Hok Hslot Husz. unfold receive. fold (stride_of meta). destruct (Nat.eqb_spec (rm_len meta) 0) as [H0 | H0].
  { rewrite (segments_none meta H0).
    split; [done |]. split; [done |]. destruct (idx_of_peer _ _) as [ingress |].
    - exists []. split; [done |]. cbn. rewrite !uv_add_0, Z.add_0_r. split; [intros; by rewrite uv_add_0 |].
      do 3 (split; [done |]). intros e seq _ Hs. rewrite Hs. by rewrite U32_add_0, Seq_eta.
    - cbn. by rewrite uv_add_0. }
  assert (0 < stride_of meta)%nat as Hst.
  { unfold stride_of. destruct (Nat.eqb_spec (rm_stride meta) 0); lia. }
  change (div_ceil (rm_len meta) (stride_of meta)) with (segments_of meta). set (n := segments_of meta).
  set (st1 := count (mrecord GroSegmentsPerRead n) st).
  assert (shard_ok st1) as Hok1 by (by eapply (shard_ok_same st _ [MRecord GroSegmentsPerRead n])).
  destruct (topology_facts) as (_ & Hpeer & _). destruct (idx_of_peer _ _) as [ingress |] eqn:Ei.
  - destruct (Hpeer _ _ Ei) as (vp & Hvp & _). rewrite Hvp.
    assert (live ingress) as Hin by (by apply lookup_lt_Some in Hvp).
    pose proof (receive_loop ingress (vport_id (vp_id vp)) (rm_len meta) (stride_of meta) now tables 0 n st1 slot Hok1 Hin Hst
      ltac:(intros k Hk; apply div_ceil_lt; [done | apply Hk]) Hslot Husz) as Hl.
    destruct (foldl _ _ _) as [st' slot']. destruct Hl as (Hok' & [Hlen _] & fates & Hf & M).
    split; [done |]. split; [done |]. exists fates. split; [done |].
    destruct (moves_counters ingress _ st1 st' fates Hok1 Hin M) as (C1 & C2 & C3). split; [exact C1 |].
    split; [exact C2 |]. split; [exact C3 |]. split; [apply M |]. apply M.
  - split; [by eapply (shard_ok_same st1 _ [MAdd RxUnknownPeer (U64 (Z.of_nat n))]) |]. split; [done |]. split; [| done].
    cbn [sh_metrics count]. change (madd RxUnknownPeer (U64 (Z.of_nat n)) (sh_metrics st1))
      with (mop (sh_metrics st1) (MAdd RxUnknownPeer (U64 (Z.of_nat n)))).
    rewrite step_counter by apply Hok1. apply uint_eq. cbn [to_counter]. rewrite bool_decide_true by done.
    rewrite !uv_of. rewrite Zplus_mod_idemp_r. done.
Qed.


(** What a flush charges.  It hands the kernel one write per run, and
    counts a frame as sent exactly when the write of its run succeeded; the
    queue is empty afterwards.  A failed write is charged once, whatever the
    number of frames it carried, so the discard counters count runs there and
    not frames. *)
Theorem flush_charges i q g st :
  shard_ok st -> live i -> sh_tx st !! vidx_get i = Some q -> holds q g ->
  let st' := flush i st in
  let rs := runs (max_gso_segments (caps (sh_socket st))) q in
  (rs ≫= datagrams q) = g /\
  exists oks, length oks = length rs /\
    let sent := sent_of oks rs in
    let lost := sum_list (zip_with (fun (ok : bool) r => if ok then 0 else r_count r)%nat oks rs) in
    (sent + lost = length g)%nat /\
    sh_tx st' = <[vidx_get i := q_clear q]> (sh_tx st) /\
    vget (sh_metrics st') (vidx_get i) TxPkts = U64 (uv (vget (sh_metrics st) (vidx_get i) TxPkts) + Z.of_nat sent) /\
    mget (sh_metrics st') SyscallsTx =
      U64 (uv (mget (sh_metrics st) SyscallsTx) + Z.of_nat (length (filter (fun ok => ok = true) oks))) /\
    U64 (uv (mget (sh_metrics st') TxWouldBlock) + uv (mget (sh_metrics st') TxSendError)) =
      U64 (uv (mget (sh_metrics st) TxWouldBlock) + uv (mget (sh_metrics st) TxSendError) +
           Z.of_nat (length (filter (fun ok => ok = false) oks))).
Proof.
  clear HL topology_built mtu_fits.
  intros Hok Hi Hq Hg st' rs. destruct (runs_holds q g (max_gso_segments (caps (sh_socket st))) Hg) as (R1 & _ & R3).
  fold rs in R1, R3. split; [exact R1 |].
  destruct (flush_spec i q g st Hi Hq Hg) as (oks & ops & Hoks & He & _ & _ & _ & Htx & Hnil & Hcons). fold rs in Hoks, Hcons; fold st' in He, Htx.
  exists oks. split; [exact Hoks |]. intros sent lost. split.
  { rewrite <- R3. unfold sent, sent_of, lost. clear -Hoks. revert oks Hoks.
    induction rs as [| r rs IH]; intros [| ok oks] Hl; try done. cbn [zip_with]. rewrite fmap_cons, !sum_list_cons.
    injection Hl as Hl. specialize (IH oks Hl). destruct ok; lia. }
  split; [exact Htx |]. destruct (so_metrics _ Hok) as [Hs Hv].
  assert (total (to_counter SyscallsTx) ops = Z.of_nat (length (filter (fun ok => ok = true) oks)) /\
    total (to_counter TxWouldBlock) ops + total (to_counter TxSendError) ops =
      Z.of_nat (length (filter (fun ok => ok = false) oks)) /\
    total (to_vport (vidx_get i) TxPkts) ops = uv (U64 (Z.of_nat sent))) as (T1 & T2 & T3).
  { destruct (decide (g = [])) as [-> | Hne].
    - rewrite (Hnil eq_refl). assert (rs = []) as Hrs.
      { unfold rs, runs. by rewrite (proj2 (holds_empty q [] Hg) eq_refl). }
      rewrite Hrs in Hoks. destruct oks; [| done]. done.
    - destruct (Hcons Hne) as (sends & Hch & ->). destruct (charge_totals oks sends Hch) as (C1 & C2 & C3).
      rewrite !total_app, C1, C3. split; [cbn; lia |]. split; [cbn; lia |]. cbn [total foldr to_vport].
      rewrite bool_decide_true by done. rewrite bool_decide_false by naive_solver. cbn. fold sent. lia. }
  rewrite He, !mget_after, vget_after, T1, T3 by (done || by rewrite Hv). split; [| split; [done |]].
  - apply uint_eq. rewrite !uv_of. apply Zplus_mod_idemp_r.
  - rewrite <- T2. apply uint_eq. rewrite !uv_of. rewrite Zplus_mod_idemp_l, Zplus_mod_idemp_r. f_equal. lia.
Qed.
End shard.

(** ** What the socket is given

    A shard on a kernel that records what it is given ([Socket.recorded]): for
    each peer, the writes of its egress. *)

Section egress.
Context `{HA : Addr A} `{HE : Engine P E} `{HS : !Udp A K}.
Variable params : ShardParams A.
Implicit Types st : Shard E (Recorded A K).

Definition tries st : list (Transmit A * bool) := rec_tries (sh_socket st).

(** Between [st] and [st'] the socket was given, for [peer], these writes, each
    tried until it was taken or given up; the flag says which. *)
Definition offered (peer : A) st st' (ws : list (Transmit A * bool)) : Prop :=
  exists new ls, tries st' = tries st ++ new /\
    filter (fun x => destination x.1 = peer) new = concat ls /\ Forall2 tried ws ls.

(** The datagrams the kernel makes of writes, and whether it took them. *)
Definition datagrams_of (ws : list (Transmit A * bool)) : list (bytes * bool) :=
  ws ≫= fun w => (fun s => (s, w.2)) <$> cut w.1.

Lemma datagrams_of_fst ws : (datagrams_of ws).*1 = ws.*1 ≫= cut.
Proof.
  induction ws as [| w ws IH]; [done |]. unfold datagrams_of in *. rewrite fmap_cons, !bind_cons, fmap_app, IH. f_equal.
  rewrite <- list_fmap_compose. apply list_fmap_id.
Qed.

Lemma datagrams_of_taken ws :
  Forall (fun w => w.2 = true) ws -> datagrams_of ws = (fun s => (s, true)) <$> (datagrams_of ws).*1.
Proof.
  rewrite datagrams_of_fst. induction 1 as [| [w ok] ws Hw _ IH]; [done |]. cbn in Hw. subst ok.
  unfold datagrams_of in *. by rewrite fmap_cons, !bind_cons, fmap_app, IH.
Qed.

(** [offered] looks at the record alone. *)
Lemma offered_same peer st st1 st2 ws : tries st2 = tries st1 -> offered peer st st1 ws -> offered peer st st2 ws.
Proof. intros H (new & ls & T & F & W). exists new, ls. by rewrite H. Qed.

Lemma offered_nothing peer st st' : tries st' = tries st -> offered peer st st' [].
Proof. intros H. exists [], []. rewrite H, app_nil_r. by split_and!. Qed.

Lemma offered_trans peer st1 st2 st3 ws1 ws2 :
  offered peer st1 st2 ws1 -> offered peer st2 st3 ws2 -> offered peer st1 st3 (ws1 ++ ws2).
Proof.
  intros (n1 & l1 & T1 & F1 & H1) (n2 & l2 & T2 & F2 & H2). exists (n1 ++ n2), (l1 ++ l2).
  rewrite T2, T1, filter_app, F1, F2, concat_app, <- app_assoc. split_and!; [done | done | by apply Forall2_app].
Qed.

(** When the kernel takes whatever it is given, every write is taken. *)
Lemma offered_all_taken peer st st' ws :
  offered peer st st' ws -> Forall (fun x => x.2 = true) (tries st') -> Forall (fun w => w.2 = true) ws.
Proof.
  intros (new & ls & T & F & H) Ht. rewrite T in Ht. apply Forall_app in Ht as [_ Ht].
  assert (Forall (fun x => x.2 = true) (concat ls)) as Hc by (rewrite <- F; by apply Forall_filter).
  clear T F Ht. induction H as [| w l ws ls (k & _ & ->) _ IH]; [done |].
  cbn [concat] in Hc. rewrite !Forall_app in Hc. destruct Hc as [[_ Hw] Hc]. rewrite Forall_singleton in Hw. constructor; [exact Hw | exact (IH Hc)].
Qed.

(** [Shard::send] tries a transmit up to four times. *)
Lemma send_tries t st : exists l, tries (send t st).1 = tries st ++ l /\ tried (t, (send t st).2) l.
Proof.
  unfold send, tries. destruct (fabric_send_tries t (sh_socket st)) as (k & Hk & Hx). destruct (fabric_send t (sh_socket st)) as [s [u | x]].
  { eexists. split; [exact Hx |]. exists k. split; [lia | done]. }
  destruct x; [| eexists; (split; [exact Hx |]); exists k; (split; [lia | done]) .. ].
  destruct (fabric_send_tries t s) as (k' & Hk' & Hx'). cbn [fst snd] in Hx. rewrite Hx in Hx'.
  exists (replicate (k + S k') (t, false) ++ [(t, match (fabric_send t s).2 with Ok _ => true | Err _ => false end)]).
  rewrite replicate_add. cbn [replicate]. rewrite <- !app_assoc. cbn [app].
  rewrite <- !app_assoc in Hx'. cbn [app] in Hx'.
  destruct (fabric_send t s) as [s' [u | x]]; cbn [fst snd sh_socket count set_socket] in *; (split; [exact Hx' |]);
    exists (k + S k')%nat; (split; [lia |]); rewrite replicate_add, <- app_assoc; done.
Qed.

Lemma send_runs_tries dest q rs : forall st n,
  exists oks ls, length oks = length rs /\
    tries (foldl (send_run dest q) (st, n) rs).1 = tries st ++ concat ls /\
    Forall2 tried (zip (transmit_of dest q <$> rs) oks) ls.
Proof.
  induction rs as [| r rs IH]; intros st n; [exists [], []; cbn; by rewrite app_nil_r |].
  cbn [foldl]. unfold send_run at 2. cbn [fst snd]. destruct (send_tries (transmit_of dest q r) st) as (l & Hl & Ht).
  destruct (send (transmit_of dest q r) st) as [st1 ok]. cbn [fst snd] in Hl, Ht.
  destruct (IH st1 (if ok then n + r_count r else n)%nat) as (oks & ls & H1 & H2 & H3).
  exists (ok :: oks), (l :: ls). split; [cbn; by rewrite H1 |]. split; [| by constructor].
  cbn [concat]. by rewrite H2, Hl, app_assoc.
Qed.

Lemma cut_transmit (dest : A) q r : cut (transmit_of dest q r) = datagrams q r.
Proof. unfold cut, transmit_of, datagrams. cbn [segment_size contents]. by destruct (1 <? r_count r)%nat. Qed.

Lemma tried_dest (w : Transmit A * bool) l : tried w l -> Forall (fun x => destination x.1 = destination w.1) l.
Proof. intros (k & _ & ->). apply Forall_app. split; [by apply Forall_replicate | by repeat constructor]. Qed.

(** Staging writes only what the flush before it does. *)
Lemma stage_tries st frame id now i q :
  sh_tx st !! vidx_get i = Some q ->
  tries (stage params frame id now st i) = tries (if q_is_full q then flush params i st else st).
Proof.
  intros Hq. unfold stage. rewrite Hq. set (st1 := if q_is_full q then _ else _).
  destruct (sh_tx st1 !! _) as [q1 |]; [| done]. destruct (sh_tx_seq st1 !! _); [| done]. by destruct (q_push _ _ q1) as [? []].
Qed.

(** A flush gives the socket what is queued, for the peer of its egress alone. *)
Lemma flush_offers i vp st :
  vt_get (topology params) i = Some vp ->
  (exists ws, offered (vp_peer vp) st (flush params i st) ws /\ ws.*1 ≫= cut = queued i st) /\
  (forall peer, peer <> vp_peer vp -> offered peer st (flush params i st) []).
Proof.
  intros Hvp. unfold flush, queued. rewrite Hvp. destruct (sh_tx st !! vidx_get i) as [q |].
  2: { split; [exists [] |]; [split; [by apply offered_nothing | done] | intros; by apply offered_nothing]. }
  unfold q_is_empty. case_bool_decide as He.
  { split; [exists [] | intros; by apply offered_nothing]. split; [by apply offered_nothing |].
    unfold runs. by rewrite He. }
  set (rs := runs _ q). set (st1 := count (mrecord TxBatchSize (q_len q)) st).
  change (runs (max_gso_segments (caps (sh_socket st1))) q) with rs.
  destruct (send_runs_tries (vp_peer vp) q rs st1 0) as (oks & ls & H1 & H2 & H3).
  destruct (foldl (send_run (vp_peer vp) q) (st1, 0%nat) rs) as [st2 sent]. cbn [fst] in H2.
  set (st' := set_tx _ _ _). assert (tries st' = tries st ++ concat ls) as H4 by (unfold st'; by destruct (_ =? _)%nat).
  set (ws := zip (transmit_of (vp_peer vp) q <$> rs) oks) in *.
  assert (ws.*1 = transmit_of (vp_peer vp) q <$> rs) as Hws by (apply fst_zip; rewrite length_fmap; lia).
  assert (Forall (fun x => destination x.1 = vp_peer vp) (concat ls)) as Hd.
  { assert (Forall (fun w => destination w.1 = vp_peer vp) ws) as Hw.
    { unfold ws. clear. revert oks. induction rs as [| r rs IH]; intros [| ok oks]; constructor; [done | apply IH]. }
    clear -H3 Hw. induction H3 as [| w l ws ls Ht _ IH]; [constructor |]. apply Forall_cons in Hw as [Hw Hws]. cbn [concat].
    apply Forall_app. split; [| by apply IH]. eapply Forall_impl; [by apply tried_dest |]. cbn. congruence. }
  split.
  - exists ws. split; [exists (concat ls), ls; split_and!; [exact H4 | by apply filter_all | exact H3] |].
    rewrite Hws. clear. induction rs as [| r rs IH]; [done |]. by rewrite fmap_cons, !bind_cons, IH, cut_transmit.
  - intros peer Hp. exists (concat ls), []. split_and!; [exact H4 | | constructor].
    apply filter_none. eapply Forall_impl; [exact Hd |]. intros x -> ?. by apply Hp.
Qed.

Hypothesis mtu_fits : Z.of_nat (segment_len (sp_inner_mtu params)) <= 65535.
Hypothesis topology_built : exists entries errs, build entries errs = (errs, Some (topology params)).

Lemma peers_differ i j vi vj :
  vt_get (topology params) i = Some vi -> vt_get (topology params) j = Some vj -> vp_peer vi = vp_peer vj -> i = j.
Proof.
  intros Hi Hj Hp. destruct topology_built as (entries & errs & Hb). pose proof (build_spec entries errs) as Hs. rewrite Hb in Hs.
  destruct Hs as (_ & _ & _ & _ & _ & _ & H). assert (Some i = Some j) as [= ->]; [| done].
  rewrite <- (proj2 (H (vp_peer vi) i)) by (by exists vi). apply H. by exists vj.
Qed.

(** What an operation gives the socket for [e], and what it leaves queued. *)
Lemma sop_offers e vp st o seq :
  shard_ok params st -> vt_get (topology params) e = Some vp -> sop_fits params o -> sh_tx_seq st !! vidx_get e = Some seq ->
  shard_ok params (sop params st o) /\
  sh_tx_seq (sop params st o) !! vidx_get e =
    Some (match o with SStage e' _ _ _ => if bool_decide (e' = e) then Seq_next seq else seq | SFlush _ => seq end) /\
  exists ws, offered (vp_peer vp) st (sop params st o) ws /\
    (ws.*1 ≫= cut) ++ queued e (sop params st o) =
      queued e st ++ match o with
                     | SStage e' f id now => if bool_decide (e' = e) then [segment id seq now f] else []
                     | SFlush _ => []
                     end.
Proof.
  intros Hok Hvp Hfit Hseq. assert (live params e) as He by (by apply lookup_lt_Some in Hvp).
  destruct (shard_queue params st e Hok He) as (q & g & seq' & Hq & Hg & _ & Hs).
  assert (seq' = seq) as -> by congruence. clear Hs. pose proof (so_tx _ _ Hok) as Hlen.
  assert (forall e', e' <> e -> vidx_get e' <> vidx_get e) as Hne by (intros e' Hn ?; by apply Hn, vidx_get_eq).
  assert (forall e' ve', vt_get (topology params) e' = Some ve' -> e' <> e -> vp_peer vp <> vp_peer ve') as Hpe
    by (intros e' ve' Hv Hn Hp; by apply Hn, (peers_differ e' e ve' vp)).
  destruct o as [e' f id now | e']; cbn [sop sop_fits] in *.
  - destruct Hfit as [He' Hf]. split; [by apply stage_ok |].
    destruct (shard_queue params st e' Hok He') as (q' & g' & seq'' & Hq' & Hg' & _ & Hs').
    destruct (stage_spec params mtu_fits st e' q' g' seq'' f id now Hok He' Hf Hq' Hg' Hs') as (q2 & ops & _ & _ & _ & Hts & Htx & Hq2 & _).
    destruct (lookup_lt_is_Some_2 (vt_entries (topology params)) (vidx_get e') He') as [ve' Hve'].
    destruct (flush_offers e' ve' st Hve') as [(ws & Hws & Hcut) Hother].
    pose proof (stage_tries st f id now e' q' Hq') as Htr. rewrite Hts.
    case_bool_decide as Hee.
    + subst e'. assert (seq'' = seq) as -> by congruence. assert (q' = q) as -> by congruence.
      assert (ve' = vp) as -> by (unfold vt_get in Hvp; congruence). split.
      { apply list_lookup_insert_eq. by apply lookup_lt_Some in Hseq. }
      exists (if q_is_full q then ws else []). split.
      { destruct (q_is_full q); [by eapply offered_same; [| exact Hws] | by apply offered_nothing]. }
      rewrite (queued_holds e (stage params f id now st e) q2 _) by
        (rewrite ?Htx; first [exact Hq2 | apply list_lookup_insert_eq; rewrite Hlen; exact He]).
      rewrite <- (queued_holds e st q g' Hq Hg'). destruct (q_is_full q); [by rewrite Hcut | done].
    + rewrite list_lookup_insert_ne by (by apply Hne). split; [done |]. exists []. rewrite app_nil_r. split.
      { destruct (q_is_full q'); [eapply offered_same; [exact Htr | by apply Hother, (Hpe e')] | by apply offered_nothing]. }
      cbn [app]. rewrite (queued_holds e (stage params f id now st e') q g), (queued_holds e st q g); try done.
      by rewrite Htx, list_lookup_insert_ne by (by apply Hne).
  - split; [by apply flush_ok |]. destruct (shard_queue params st e' Hok Hfit) as (q' & g' & seq'' & Hq' & Hg' & _ & _).
    destruct (flush_spec params e' q' g' st Hfit Hq' Hg') as (oks & ops & _ & _ & _ & _ & Hts & Htx & _).
    destruct (lookup_lt_is_Some_2 (vt_entries (topology params)) (vidx_get e') Hfit) as [ve' Hve'].
    destruct (flush_offers e' ve' st Hve') as [(ws & Hws & Hcut) Hother].
    rewrite Hts. split; [done |]. rewrite app_nil_r. destruct (decide (e' = e)) as [-> | Hee].
    + assert (q' = q) as -> by congruence. assert (ve' = vp) as -> by (unfold vt_get in Hvp; congruence).
      exists ws. split; [exact Hws |].
      rewrite (queued_holds e (flush params e st) (q_clear q) []); [by rewrite app_nil_r | | by eapply holds_clear].
      rewrite Htx. apply list_lookup_insert_eq. rewrite Hlen. exact He.
    + exists []. split; [by apply Hother, (Hpe e') |]. cbn [fmap list_fmap mbind list_bind app].
      rewrite (queued_holds e (flush params e' st) q g), (queued_holds e st q g); try done.
      by rewrite Htx, list_lookup_insert_ne by (by apply Hne).
Qed.

(** What the socket is given for an egress is what is staged for it. *)
Lemma sops_offer e vp ops : forall st seq,
  shard_ok params st -> vt_get (topology params) e = Some vp -> Forall (sop_fits params) ops -> sh_tx_seq st !! vidx_get e = Some seq ->
  let st' := foldl (sop params) st ops in
  exists ws, offered (vp_peer vp) st st' ws /\ (ws.*1 ≫= cut) ++ queued e st' = queued e st ++ numbered e seq ops.
Proof.
  induction ops as [| o ops IH]; intros st seq Hok Hvp Hops Hseq.
  { exists []. split; [by apply offered_nothing | by rewrite app_nil_r]. }
  apply Forall_cons in Hops as [Ho Hops].
  destruct (sop_offers e vp st o seq Hok Hvp Ho Hseq) as (Hok' & Hseq' & w1 & O1 & Q1).
  destruct (IH (sop params st o) _ Hok' Hvp Hops Hseq') as (w2 & O2 & Q2). cbn [foldl].
  exists (w1 ++ w2). split; [by eapply offered_trans |]. rewrite fmap_app, bind_app, <- app_assoc, Q2, app_assoc, Q1, <- app_assoc. f_equal.
  destruct o as [e' f id now | e']; cbn [numbered]; [| done]. by case_bool_decide.
Qed.

(** C17: a peer is sent one stream.  However staging and flushing interleave,
    for this egress and for the others, and whatever the kernel answers: the
    writes the socket is given for this peer, cut as the kernel cuts them, and
    then what is still queued, are the frames staged for it, none lost, repeated
    or reordered, under consecutive sequence numbers; so a receiver that gets
    them all sees nothing but frames in order.  A write is tried until the kernel
    takes it, at most four times, and what is given up is never offered again. *)
Theorem egress_stream_is_numbered (e : VportIdx) vp (ops : list SOp) st seq :
  shard_ok params st -> vt_get (topology params) e = Some vp -> Forall (sop_fits params) ops ->
  sh_tx_seq st !! vidx_get e = Some seq ->
  let st' := foldl (sop params) st ops in
  (exists ws, offered (vp_peer vp) st st' ws /\ (ws.*1 ≫= cut) ++ queued e st' = queued e st ++ numbered e seq ops) /\
  Forall (fun ev => ev = InOrder) (observe_all (MkSeqTracker (Some seq)) (numbers_of (numbered e seq ops))).1.
Proof. intros Hok Hvp Hops Hseq st'. split; [by apply sops_offer | apply numbered_in_order]. Qed.
End egress.

(** ** A switch with two ports

    The oracle program on ports 0 and 9, behind a kernel that takes every
    datagram: where the properties above are applied. *)

Module Sample.

Definition addr : Addr string := {| addr_parse := Some; addr_to_string s := s |}.
#[local] Existing Instance addr.

Definition kernel : Udp string unit := {|
  caps _ := {| rcvbuf := 212992%Z; sndbuf := 212992%Z; gro_segments := 64; max_gso_segments := 64;
                 may_fragment := false; reuse_port := false |};
  udp_try_send _ s := (s, Ok tt);
  udp_recv s := (s, Err WouldBlock);
  udp_poll _ s := (s, Ok tt);
|}.
#[local] Existing Instance kernel.

Definition ports : list (Vport string) :=
  [{| vp_id := VId (U16 0) I; vp_peer := "a" |}; {| vp_id := VId (U16 9) I; vp_peer := "b" |}].

Definition idx (i : Z) : VportIdx := VIdx (U16 i).

Definition table : VportTable string := {|
  vt_entries := ports;
  by_id := [Some (idx 0)] ++ replicate 8 None ++ [Some (idx 1)];
  by_peer := <["b" := idx 1]> (<["a" := idx 0]> ∅);
|}.

Definition params : ShardParams string := {| topology := table; sp_inner_mtu := INNER_MTU_V4 |}.

Definition pipeline : Null.NullPipeline := Null.new {| vports := [U16 0; U16 9] |}.

Definition shard : Shard Null.NullEngine unit :=
  shard_new params tt (engine pipeline) (metrics_new "sample" table) None.

(** A read of two segments from port 0: a frame, and garbage. *)
Definition meta : RecvMeta string := {| rm_addr := "a"; rm_len := 52; rm_stride := 26 |}.

Definition slot : bytes :=
  replicate HEADROOM (U8 0) ++
  Wire.encode {| hdr_ingress_vport := U16 0; hdr_seq := Seq_new (U32 7); hdr_ts_us := U32 0 |} ++
  replicate 14 (U8 170) ++ replicate 26 (U8 255).

Lemma table_built : exists entries errs, build entries errs = (errs, Some (topology params)).
Proof. exists ports, []. vm_compute. reflexivity. Qed.

Lemma mtu_fits : Z.of_nat (segment_len (sp_inner_mtu params)) <= 65535.
Proof. vm_compute. discriminate. Qed.

Lemma shard_fine : shard_ok params shard.
Proof. apply shard_ok_new. Qed.

Lemma slot_fits : (HEADROOM + rm_len meta <= length slot)%nat /\ Z.of_nat (length slot) <= usize_max.
Proof. split; vm_compute; [lia | discriminate]. Qed.

Lemma read_accounts_witness :
  let '(st', slot') := receive params (fun _ => pipeline) slot meta (U32 5) shard in
  shard_ok params st' /\ length slot' = length slot /\
  mget (sh_metrics st') RxBadHeader = U64 1 /\
  sh_tx_seq st' !! 1%nat = Some (Seq_new (U32 1)).
Proof.
  pose proof (read_accounts_for_every_segment params mtu_fits table_built (fun _ => pipeline) slot meta (U32 5) shard
    shard_fine (proj1 slot_fits) (proj2 slot_fits)) as H.
  assert (mget (sh_metrics (receive params (fun _ => pipeline) slot meta (U32 5) shard).1) RxBadHeader = U64 1 /\
    sh_tx_seq (receive params (fun _ => pipeline) slot meta (U32 5) shard).1 !! 1%nat = Some (Seq_new (U32 1))) as [E1 E2]
    by (split; vm_compute; reflexivity).
  destruct (receive _ _ _ _ _ _) as [st' slot']. cbn [fst] in E1, E2. destruct H as (H1 & H2 & _).
  split; [exact H1 | split; [exact H2 | split; [exact E1 | exact E2]]].
Defined.


(** The same shard on a kernel that records. *)
Definition recording : Shard Null.NullEngine (Recorded string unit) :=
  shard_new params (Build_Recorded tt []) (engine pipeline) (metrics_new "sample" table) None.

Lemma recording_fine : shard_ok params recording.
Proof. apply shard_ok_new. Qed.

(** A frame that was flushed and one that was not. *)
Lemma egress_stream_witness :
  let st' := foldl (sop params) recording
    [SStage (idx 1) [U8 1] (U16 0) (U32 5); SFlush (idx 0); SFlush (idx 1); SStage (idx 1) [U8 2] (U16 0) (U32 6)] in
  exists ws, offered "b" recording st' ws /\
    ws.*1 ≫= cut = [segment (U16 0) (Seq_new (U32 0)) (U32 5) [U8 1]].
Proof.
  intros st'. destruct (egress_stream_is_numbered params mtu_fits table_built (idx 1) {| vp_id := VId (U16 9) I; vp_peer := "b" |}
    [SStage (idx 1) [U8 1] (U16 0) (U32 5); SFlush (idx 0); SFlush (idx 1); SStage (idx 1) [U8 2] (U16 0) (U32 6)]
    recording (Seq_new (U32 0)) recording_fine) as [(ws & Hws & Hq) _].
  - vm_compute. reflexivity.
  - repeat constructor; vm_compute; lia.
  - vm_compute. reflexivity.
  - exists ws. split; [exact Hws |]. fold st' in Hq.
    assert (queued (idx 1) st' = [segment (U16 0) (Seq_new (U32 1)) (U32 6) [U8 2]]) as E by (vm_compute; reflexivity).
    assert (queued (idx 1) recording = []) as E0 by (vm_compute; reflexivity).
    rewrite E, E0 in Hq. change (numbered _ _ _) with
      ([segment (U16 0) (Seq_new (U32 0)) (U32 5) [U8 1]] ++ [segment (U16 0) (Seq_next (Seq_new (U32 0))) (U32 6) [U8 2]]) in Hq.
    by apply app_inj_tail in Hq as [Hq _].
Defined.

Lemma flush_charges_witness :
  let q := (q_push (Wire.encode {| hdr_ingress_vport := U16 0; hdr_seq := Seq_new (U32 0); hdr_ts_us := U32 0 |})
              [U8 1] (TxQueue_new INNER_MTU_V4)).1 in
  let st := set_tx (idx 1) q shard in
  holds q (runs 64 q ≫= datagrams q) /\ (runs 64 q ≫= datagrams q) <> [] /\
  vget (sh_metrics (flush params (idx 1) st)) 1 TxPkts = U64 1.
Proof.
  intros q st. set (g := runs 64 q ≫= datagrams q).
  assert (g = [Wire.encode {| hdr_ingress_vport := U16 0; hdr_seq := Seq_new (U32 0); hdr_ts_us := U32 0 |} ++ [U8 1]]) as Hg
    by (vm_compute; reflexivity).
  assert (holds q g) as Hh.
  { rewrite Hg. destruct (holds_push _ [] _ [U8 1] (holds_new INNER_MTU_V4)
      (length_encode {| hdr_ingress_vport := U16 0; hdr_seq := Seq_new (U32 0); hdr_ts_us := U32 0 |})) as [Hp _]. exact Hp. }
  split; [exact Hh |]. split; [by rewrite Hg |].
  assert (shard_ok params st) as Hok.
  { destruct shard_fine as [O1 O2 O3 O4 O5]. split; try done.
    apply Forall_insert; [done |]. split; [done |]. by exists g. }
  assert (live params (idx 1)) as Hl by (vm_compute; lia).
  assert (sh_tx st !! vidx_get (idx 1) = Some q) as Hq by (apply list_lookup_insert_eq; vm_compute; lia).
  destruct (flush_charges params (idx 1) q g st Hok Hl Hq Hh) as (_ & oks & _ & _ & _ & H & _).
  vm_compute. reflexivity.
Defined.

End Sample.
