(* ===== verification/Arena.v ===== *)
(** * The receive arena (crates/up4-io/src/shard.rs)

    [RxArena] is one flat buffer, cut into slots of one length each time it is
    used.  Here it is that buffer, and what a read writes into it is what [Shard]
    takes it to be: each datagram behind the headroom of its own slot. *)

From S2P Require Import Prelude Bytes Wire Frame Tx Socket Shard.

Record RxArena := mkRxArena { ra_buf : bytes; ra_slot_len : nat }.

(** [RxArena::new] *)
Definition arena_new (slots slot_len : nat) : RxArena := mkRxArena (replicate (slots * slot_len) (U8 0)) slot_len.

(** [chunks_exact_mut(n)]: [k] whole chunks, the remainder left out. *)
Fixpoint chunks {A} (k n : nat) (l : list A) : list (list A) :=
  match k with O => [] | S k => take n l :: chunks k n (drop n l) end.

Definition chunks_exact {A} (n : nat) (l : list A) : list (list A) := chunks (length l / n) n l.

(** [RxArena::slots_mut] *)
Definition slots_mut (a : RxArena) : list bytes := chunks_exact (ra_slot_len a) (ra_buf a).

Section arena.
(** [quinn_udp::BATCH_SIZE] *)
Variable RX_BATCH : nat.

(** The buffers [recv] hands the socket: where each begins in the arena, and its
    length.  [None] is a panic: too few slots, or one shorter than its
    headroom. *)
Definition iovs (a : RxArena) : option (list (nat * nat)) :=
  if (RX_BATCH <=? length (slots_mut a))%nat && (HEADROOM <=? ra_slot_len a)%nat
  then Some ((fun i => (i * ra_slot_len a + HEADROOM, ra_slot_len a - HEADROOM)%nat) <$> seq 0 RX_BATCH)
  else None.

(** The socket fills the first buffers, as many as it had datagrams. *)
Definition fill (buf : bytes) (x : (nat * nat) * bytes) : bytes := copy_at x.1.1 x.2 buf.

(** [RxArena::recv], of these datagrams. *)
Definition arena_recv (datas : list bytes) (a : RxArena) : option RxArena :=
  bufs ← iovs a; Some (mkRxArena (foldl fill (ra_buf a) (zip bufs datas)) (ra_slot_len a)).
End arena.

(** ** Lemmas *)

Lemma length_chunks {A} k n : forall l : list A, length (chunks k n l) = k.
Proof. induction k as [| k IH]; intros l; [done |]. cbn. by rewrite IH. Qed.

Lemma chunks_concat {A} n (ls : list (list A)) rest :
  Forall (fun l => length l = n) ls -> chunks (length ls) n (concat ls ++ rest) = ls.
Proof.
  induction 1 as [| l ls Hl _ IH]; [done |]. cbn [length chunks concat]. rewrite <- (assoc_L (++)).
  rewrite take_app_length' by done. by rewrite drop_app_length', IH by done.
Qed.

Lemma chunks_exact_concat {A} n (ls : list (list A)) :
  (0 < n)%nat -> Forall (fun l => length l = n) ls -> chunks_exact n (concat ls) = ls.
Proof.
  intros Hn Hl. unfold chunks_exact. assert (length (concat ls) = length ls * n)%nat as ->.
  { clear Hn. induction Hl as [| l ls Hl _ IH]; [done |]. cbn [concat length]. rewrite length_app, IH. lia. }
  rewrite Nat.div_mul by lia. rewrite <- (app_nil_r (concat ls)). by apply chunks_concat.
Qed.

(** The arena of these slots. *)
Definition arena_of (n : nat) (slots : list bytes) : RxArena := mkRxArena (concat slots) n.

Lemma fill_slot n pre t todo len d :
  Forall (fun s => length s = n) pre -> (HEADROOM + length d <= length t)%nat ->
  fill (concat (pre ++ t :: todo)) (((length pre * n + HEADROOM)%nat, len), d) = concat (pre ++ copy_at HEADROOM d t :: todo).
Proof.
  intros Hp Hd. unfold fill. cbn [fst snd]. rewrite !concat_app. cbn [concat].
  assert (length (concat pre) = length pre * n)%nat as <-.
  { clear Hd. induction Hp as [| l ls Hl _ IH]; [done |]. cbn [concat length]. rewrite length_app, IH. lia. }
  rewrite list_inserts_app_r, copy_at_app by done. done.
Qed.

Lemma fill_slots n : forall datas pre todo m,
  Forall (fun s => length s = n) pre -> Forall (fun s => length s = n) todo -> (length datas <= length todo)%nat ->
  (length datas <= m)%nat -> Forall (fun d => HEADROOM + length d <= n)%nat datas ->
  foldl fill (concat (pre ++ todo)) (zip ((fun i => (i * n + HEADROOM, n - HEADROOM)%nat) <$> seq (length pre) m) datas)
    = concat (pre ++ zip_with (copy_at HEADROOM) datas todo ++ drop (length datas) todo).
Proof.
  induction datas as [| d datas IH]; intros pre todo m Hp Ht Hl Hm Hd.
  { rewrite zip_with_nil_r. done. }
  destruct todo as [| t todo]; [cbn in Hl; lia |]. destruct m as [| m]; [cbn in Hm; lia |].
  apply Forall_cons in Ht as [Ht0 Ht]. apply Forall_cons in Hd as [Hd0 Hd]. cbn [length] in Hl, Hm.
  cbn [seq fmap list_fmap zip_with foldl]. rewrite fill_slot by (done || lia).
  assert (pre ++ copy_at HEADROOM d t :: todo = (pre ++ [copy_at HEADROOM d t]) ++ todo) as -> by (by rewrite <- (assoc_L (++))).
  replace (S (length pre)) with (length (pre ++ [copy_at HEADROOM d t])) by (rewrite length_app; cbn; lia).
  rewrite (IH (pre ++ [copy_at HEADROOM d t]) todo m); [| | done | lia | lia | done].
  - by rewrite <- !(assoc_L (++)).
  - apply Forall_app. split; [done |]. constructor; [by rewrite length_inserts | done].
Qed.

(** The flat arena is the slots [Shard] works on.  A fresh one is as many zeroed
    slots; receiving into it panics in no case it is used in (as many slots as
    the socket takes buffers, each longer than its headroom); and then each slot
    holds its datagram behind the headroom, the others being as they were. *)
Theorem arena_is_slots (batch n : nat) (slots datas : list bytes) :
  (HEADROOM < n)%nat -> Forall (fun s => length s = n) slots -> length slots = batch -> (length datas <= batch)%nat ->
  Forall (fun d => HEADROOM + length d <= n)%nat datas ->
  slots_mut (arena_new batch n) = replicate batch (replicate n (U8 0)) /\
  slots_mut (arena_of n slots) = slots /\
  exists a, arena_recv batch datas (arena_of n slots) = Some a /\ ra_slot_len a = n /\
    slots_mut a = zip_with (copy_at HEADROOM) datas slots ++ drop (length datas) slots.
Proof.
  intros Hn Hs Hb Hl Hd. assert (slots_mut (arena_of n slots) = slots) as Hslots by (apply (chunks_exact_concat n); [lia | done]).
  split_and!; [| done |].
  - unfold slots_mut, arena_new. cbn [ra_buf ra_slot_len].
    assert (replicate (batch * n) (U8 0) = concat (replicate batch (replicate n (U8 0)))) as ->.
    { clear. induction batch as [| k IH]; [done |]. cbn [replicate concat Nat.mul]. by rewrite replicate_add, IH. }
    apply (chunks_exact_concat n); [lia |]. apply Forall_replicate. apply length_replicate.
  - unfold arena_recv, iovs. rewrite Hslots, Hb, Nat.leb_refl. cbn [arena_of ra_slot_len ra_buf andb].
    rewrite (proj2 (Nat.leb_le _ _)) by lia. cbn [mbind option_bind].
    eexists. split; [done |]. split; [done |]. unfold slots_mut. cbn [ra_buf ra_slot_len].
    pose proof (fill_slots n datas [] slots batch) as Hf. cbn [app length] in Hf. rewrite Hf by (done || constructor || lia).
    apply (chunks_exact_concat n); [lia |]. apply Forall_app. split; [| by apply Forall_drop].
    clear - Hs. revert datas. induction Hs as [| s slots Hs _ IH]; intros [| d datas]; cbn; constructor; [by rewrite length_inserts | apply IH].
Qed.

Lemma arena_witness :
  let slots := replicate 2 (replicate 300 (U8 0)) in
  exists a, arena_recv 2 [[U8 1; U8 2]] (arena_of 300 slots) = Some a /\ length (slots_mut a) = 2%nat.
Proof.
  intros slots.
  destruct (arena_is_slots 2 300 slots [[U8 1; U8 2]]) as (_ & _ & a & Ha & _ & Hs); try (vm_compute; lia).
  - repeat constructor.
  - constructor; [vm_compute; lia | constructor].
  - exists a. split; [exact Ha |]. rewrite Hs. reflexivity.
Defined.
