(* ===== verification/B64.v ===== *)
(** * Base64 (crates/up4-ctl/src/b64.rs)

    The encoding punted frames travel in, and its decoder. *)

From S2P Require Import Prelude Bytes Text.

Local Open Scope Z_scope.

Definition ALPHABET : list ascii :=
  chars "ABCDEFGHIJKLMNOPQRSTUVWXYZabcdefghijklmnopqrstuvwxyz0123456789+/".

Definition PAD : ascii := "="%char.

(** [slice.chunks(n)] for the two sizes in use. *)
Fixpoint chunks3 {A} (l : list A) : list (list A) :=
  match l with
  | a :: b :: c :: l => [a; b; c] :: chunks3 l
  | [] => []
  | _ => [l]
  end.

Fixpoint chunks4 {A} (l : list A) : list (list A) :=
  match l with
  | a :: b :: c :: d :: l => [a; b; c; d] :: chunks4 l
  | [] => []
  | _ => [l]
  end.

(** [ALPHABET[d as usize]]; a digit has six bits. *)
Definition digit (d : Z) : ascii := default PAD (ALPHABET !! Z.to_nat d).

Definition encode_chunk (chunk : bytes) : list ascii :=
  let b i := default (U8 0) (chunk !! i) in
  let n := be_val [U8 0; b 0%nat; b 1%nat; b 2%nat] in
  let digits := [Z.shiftr n 18; Z.land (Z.shiftr n 12) 63; Z.land (Z.shiftr n 6) 63; Z.land n 63] in
  imap (fun i d => if (i <=? length chunk)%nat then digit d else PAD) digits.

(** [encode] *)
Definition encode (bs : bytes) : string := unchars (chunks3 bs ≫= encode_chunk).

(** [ALPHABET.iter().position(..)] *)
Definition digit_value (c : ascii) : option Z :=
  (fun p => Z.of_nat p.1) <$> list_find (fun a => a = c) ALPHABET.

(** The loop over the characters of a chunk: the bits so far and how many bytes
    they stand for. *)
Fixpoint decode_digits (i : nat) (cs : list ascii) (n : Z) (count : nat) : option (Z * nat) :=
  match cs with
  | [] => Some (n, count)
  | c :: cs =>
      if bool_decide (c = PAD) && (2 <=? i)%nat
      then decode_digits (S i) cs (Z.lor (Z.shiftl n 6) 0) (count `min` (i - 1))
      else v ← digit_value c; decode_digits (S i) cs (Z.lor (Z.shiftl n 6) v) count
  end.

Definition decode_chunk (chunk : list ascii) : option bytes :=
  p ← decode_digits 0 chunk 0 3;
  Some (slice 1 (S p.2) (be_bytes 4 p.1)).

Fixpoint decode_chunks (l : list (list ascii)) : option bytes :=
  match l with
  | [] => Some []
  | c :: l => a ← decode_chunk c; b ← decode_chunks l; Some (a ++ b)
  end.

(** [decode] *)
Definition decode (text : string) : option bytes :=
  if negb (length (chars text) mod 4 =? 0)%nat then None else decode_chunks (chunks4 (chars text)).

(** ** Lemmas *)

Lemma digit_spec d : 0 <= d < 64 -> digit_value (digit d) = Some d /\ digit d <> PAD.
Proof.
  intros Hd.
  assert (Forall (fun k => digit_value (digit (Z.of_nat k)) = Some (Z.of_nat k) /\ digit (Z.of_nat k) <> PAD) (seq 0 64)) as H.
  { eapply (bool_decide_unpack _). vm_compute. reflexivity. }
  rewrite Forall_forall in H. specialize (H (Z.to_nat d)). rewrite Z2Nat.id in H by lia.
  apply H, elem_of_seq. lia.
Qed.

Lemma chunks3_ind {A} (P : list A -> Prop) :
  P [] -> (forall a, P [a]) -> (forall a b, P [a; b]) -> (forall a b c l, P l -> P (a :: b :: c :: l)) ->
  forall l, P l.
Proof.
  intros H0 H1 H2 H3. fix IH 1. intros [| a [| b [| c l]]]; [done | apply H1 | apply H2 | apply H3, IH].
Qed.

(** Six more bits. *)
Lemma push_digit n v : 0 <= n -> 0 <= v < 64 -> Z.lor (Z.shiftl n 6) v = n * 64 + v.
Proof.
  intros Hn Hv. rewrite Z.shiftl_mul_pow2 by lia. change (2 ^ 6) with 64.
  assert (Z.land (n * 64) v = 0) as L.
  { apply Z.bits_inj'. intros k Hk. rewrite Z.land_spec, Z.bits_0.
    destruct (decide (k < 6)).
    - change 64 with (2 ^ 6). by rewrite Z.mul_pow2_bits_low by lia.
    - rewrite (Z.bits_above_log2 v k); [by rewrite andb_false_r | lia |].
      destruct (decide (v = 0)) as [-> |]; [cbn; lia |]. apply Z.log2_lt_pow2; [lia |].
      apply (Z.lt_le_trans _ (2 ^ 6)); [lia | apply Z.pow_le_mono_r; lia]. }
  pose proof (Z.add_lor_land (n * 64) v). lia.
Qed.

(** The four digits of a group of 24 bits, and the bits back. *)
Lemma group_digits n :
  0 <= n < 2 ^ 24 ->
  let d0 := Z.shiftr n 18 in let d1 := Z.land (Z.shiftr n 12) 63 in
  let d2 := Z.land (Z.shiftr n 6) 63 in let d3 := Z.land n 63 in
  0 <= d0 < 64 /\ 0 <= d1 < 64 /\ 0 <= d2 < 64 /\ 0 <= d3 < 64 /\
  ((d0 * 64 + d1) * 64 + d2) * 64 + d3 = n.
Proof.
  intros Hn. cbn zeta. change 63 with (Z.ones 6). rewrite !Z.land_ones, !Z.shiftr_div_pow2 by lia.
  change (2 ^ 24) with 16777216 in Hn. change (2 ^ 18) with 262144. change (2 ^ 12) with 4096. change (2 ^ 6) with 64.
  repeat split; Z.div_mod_to_equations; lia.
Qed.

Lemma be_val_group (x y z : byte) : be_val [U8 0; x; y; z] = uv x * 65536 + uv y * 256 + uv z.
Proof. unfold be_val, reverse. cbn. rewrite uv_of. change (0 mod 2 ^ Z.of_N 8) with 0. lia. Qed.

Lemma decode_value i c d cs n count :
  c = digit d -> 0 <= d < 64 -> 0 <= n ->
  decode_digits i (c :: cs) n count = decode_digits (S i) cs (n * 64 + d) count.
Proof.
  intros -> Hd Hn. destruct (digit_spec d Hd) as [H1 H2]. cbn [decode_digits].
  rewrite (bool_decide_eq_false_2 _ H2), H1. cbn. by rewrite push_digit.
Qed.

Lemma decode_pad i cs n count :
  (2 <= i)%nat -> 0 <= n ->
  decode_digits i (PAD :: cs) n count = decode_digits (S i) cs (n * 64) (count `min` (i - 1)).
Proof.
  intros Hi Hn. cbn [decode_digits]. rewrite bool_decide_eq_true_2 by done. rewrite (proj2 (Nat.leb_le _ _) Hi).
  cbn [andb]. rewrite push_digit by lia. by rewrite Z.add_0_r.
Qed.

Lemma decode_encode_chunk (c : bytes) :
  (1 <= length c <= 3)%nat -> length (encode_chunk c) = 4%nat /\ decode_chunk (encode_chunk c) = Some c.
Proof.
  intros Hc. split; [done |].
  set (b i := default (U8 0) (c !! i)). set (n := be_val [U8 0; b 0%nat; b 1%nat; b 2%nat]).
  assert (n = uv (b 0%nat) * 65536 + uv (b 1%nat) * 256 + uv (b 2%nat)) as En by apply be_val_group.
  pose proof (uint_range (b 0%nat)) as R0. pose proof (uint_range (b 1%nat)) as R1. pose proof (uint_range (b 2%nat)) as R2.
  change (2 ^ Z.of_N 8) with 256 in *.
  destruct (group_digits n) as (H0 & H1 & H2 & H3 & Hn); [change (2 ^ 24) with 16777216; lia |].
  assert (slice 1 (S (length c)) (be_bytes 4 n) = c) as Hs.
  { change 4%nat with (length [U8 0; b 0%nat; b 1%nat; b 2%nat]). unfold n. rewrite be_bytes_be_val.
    destruct c as [| x [| y [| z [| ]]]]; cbn in Hc; try lia; reflexivity. }
  assert (encode_chunk c = imap (fun i d => if (i <=? length c)%nat then digit d else PAD)
            [Z.shiftr n 18; Z.land (Z.shiftr n 12) 63; Z.land (Z.shiftr n 6) 63; Z.land n 63]) as -> by reflexivity.
  unfold decode_chunk. clearbody n. cbn [imap].
  destruct c as [| x [| y [| z [| ]]]]; cbn [length] in Hc; try lia; cbn [length Nat.leb compose] in *.
  - assert (uv (b 1%nat) = 0 /\ uv (b 2%nat) = 0) as [E1 E2] by (split; reflexivity).
    assert (Z.land (Z.shiftr n 6) 63 = 0 /\ Z.land n 63 = 0) as [Z2 Z3].
    { change 63 with (Z.ones 6) in *. rewrite !Z.land_ones, !Z.shiftr_div_pow2 in * by lia.
      change (2 ^ 6) with 64 in *. split; Z.div_mod_to_equations; lia. }
    rewrite !(decode_value _ _ _ _ _ _ eq_refl) by lia. rewrite !decode_pad by lia. cbn [decode_digits mbind option_bind].
    rewrite Z2, Z3 in Hn. replace (_ * 64 * 64) with n by lia. by apply f_equal, Hs.
  - assert (uv (b 2%nat) = 0) as E2 by reflexivity.
    assert (Z.land n 63 = 0) as Z3.
    { change 63 with (Z.ones 6) in *. rewrite !Z.land_ones in * by lia.
      change (2 ^ 6) with 64 in *. Z.div_mod_to_equations; lia. }
    rewrite !(decode_value _ _ _ _ _ _ eq_refl) by lia. rewrite !decode_pad by lia. cbn [decode_digits mbind option_bind].
    rewrite Z3 in Hn. replace (_ * 64) with n by lia. by apply f_equal, Hs.
  - rewrite !(decode_value _ _ _ _ _ _ eq_refl) by lia. cbn [decode_digits mbind option_bind].
    replace (_ * 64 + _) with n by lia. by apply f_equal, Hs.
Qed.

Lemma decode_encode_chunks (bs : bytes) :
  (length (chunks3 bs ≫= encode_chunk) = 4 * ((length bs + 2) / 3))%nat /\
  decode_chunks (chunks4 (chunks3 bs ≫= encode_chunk)) = Some bs.
Proof.
  assert (forall c l, (1 <= length c <= 3)%nat -> chunks4 (encode_chunk c ++ l) = encode_chunk c :: chunks4 l) as Hc.
  { intros c l H. destruct (decode_encode_chunk c H) as [Hl _].
    destruct (encode_chunk c) as [| x [| y [| z [| w [| ]]]]]; try discriminate Hl. done. }
  induction bs as [| x | x y | x y z bs [IH1 IH2]] using chunks3_ind; [done | | |].
  all: cbn [chunks3 list_bind mbind]; rewrite ?length_app, Hc by (cbn; lia); cbn [decode_chunks].
  all: match goal with |- context [encode_chunk ?c] =>
         destruct (decode_encode_chunk c) as [Hl ->]; [cbn; lia |]; rewrite Hl end.
  - done.
  - done.
  - rewrite IH1, IH2. split; [| done]. cbn [length]. replace (S (S (S (length bs))) + 2)%nat with ((length bs + 2) + 1 * 3)%nat by lia.
    rewrite Nat.div_add by lia. lia.
Qed.

(** ** Properties *)

(** Every byte string survives the encoding: its text has four characters
    per three bytes or part of them, and decodes to the bytes it came from. *)
Theorem b64_round_trip bs :
  length (chars (encode bs)) = (4 * ((length bs + 2) / 3))%nat /\ decode (encode bs) = Some bs.
Proof.
  unfold encode, decode. rewrite chars_unchars. destruct (decode_encode_chunks bs) as [H1 H2].
  split; [done |]. rewrite H1, Nat.mul_comm, Nat.Div0.mod_mul. cbn. done.
Qed.

(** The decoder is laxer than its documentation: a pad followed by a digit,
    pads inside the text and nonzero bits under a pad are all accepted. *)
Lemma decode_is_lenient :
  decode "Zg==" = Some [U8 102] /\ decode "Zg=A" = Some [U8 102] /\ decode "Zh==" = Some [U8 102] /\
  decode "Zg==Zg==" = Some [U8 102; U8 102].
Proof. split_and!; vm_compute; reflexivity. Qed.
