(* ===== verification/Loopback.v ===== *)
(** * The frames the benchmarks run on (benches/src/loopback.rs)

    What [engine_only] measures: the routes it installs, the ring of frames it
    cycles through, and what the engine does with each.  The fixture around a
    socket is [Fixture]; the timing is not modelled. *)

From S2P Require Import Prelude Bytes Text Value Shim Frame Headers Engine L2Fwd L3Fwd.

Local Open Scope Z_scope.

(** [HEADROOM] of the benchmarks, [MIN_FRAME_LEN] as [frame] spells it. *)
Definition BENCH_HEADROOM : nat := 64.

(** [frame]: the bytes it sets, over zeros. *)
Definition bench_frame (len : nat) (dst_ip : Ipv4Addr) : bytes :=
  let f := replicate (len `max` 60) (U8 0) in
  let total := length f in
  let f := copy_at 0 (U8 <$> [2; 0; 0; 0; 0; 2]) f in
  let f := copy_at 6 (U8 <$> [2; 0; 0; 0; 0; 1]) f in
  let f := copy_at 12 (u16_be (U16 2048)) f in
  let f := <[14%nat := U8 69]> f in
  let f := copy_at 16 (u16_be (U16 (Z.of_nat (total - 14)))) f in
  let f := <[22%nat := U8 64]> f in
  let f := <[23%nat := U8 17]> f in
  let f := copy_at 24 (U8 <$> [222; 173]) f in
  let f := copy_at 26 (U8 <$> [10; 0; 1; 1]) f in
  copy_at 30 (ip_octets dst_ip) f.

(** [Ipv4Addr::from] of a [u32]. *)
Definition ip_from_u32 (z : Z) : Ipv4Addr := ip_of (be_bytes 4 z).

Definition TEN : Z := 10 * 2 ^ 24.

(** [routes] *)
Definition bench_routes (count : nat) : list (string * string) :=
  (fun i => (String.append (ip_to_string (ip_from_u32 (Z.lor TEN (Z.shiftl (Z.of_nat i) 8)))) "/24", "1"%string)) <$> seq 0 count.

(** [install]: parsed as the control plane parses; [None] is a panic. *)
Definition bench_install `{TableOps T} (table key action : string) (params : list (string * string)) (s : T) : option T :=
  sch ← to_option (schema s table);
  k ← to_option (key_parse (table_key sch) key);
  sg ← schema_action sch action;
  values ← mapM (fun p => text ← snd <$> find (fun x => bool_decide (x.1 = param_name p)) params;
                          to_option (parse (param_kind p) text)) (action_params sg);
  match table_add (table_name sch) k action values s with (s, Ok _) => Some s | (_, Err _) => None end.

Definition install_routes `{TableOps T} (count : nat) (s : T) : option T :=
  foldl (fun s r => s ← s; bench_install "ipv4_lpm" r.1 "forward" [("port", r.2); ("dmac", "bb:bb:bb:bb:bb:01")]%string s)
    (Some s) (bench_routes count).

Definition install_fdb `{TableOps T} (s : T) : option T :=
  bench_install "mac_dst" "02:00:00:00:00:02" "forward" [("port", "1")]%string s.

(** [Ring] *)
Record BenchRing := { br_frames : list bytes; br_buf : bytes; br_next : nat }.

Definition ring_new (len flows : nat) : BenchRing := {|
  br_frames := (fun i => bench_frame len (ip_from_u32 (Z.lor (Z.lor TEN (Z.shiftl (Z.of_nat i) 8)) 9))) <$> seq 0 flows;
  br_buf := replicate (BENCH_HEADROOM + len `max` MIN_FRAME_LEN) (U8 0); br_next := 0;
|}.

(** [Ring::process]; [None] is a panic. *)
Definition ring_process `{Engine P E} (p : P) (r : BenchRing) (e : E) : option (BenchRing * E * Verdict) :=
  if (length (br_frames r) =? 0)%nat then None
  else
    fr ← br_frames r !! (br_next r mod length (br_frames r))%nat;
    if (length (br_buf r) <? BENCH_HEADROOM + length fr)%nat then None
    else
      ctx ← frame_new (copy_at BENCH_HEADROOM fr (br_buf r)) BENCH_HEADROOM (length fr) (U16 0) (U32 0);
      let '(e, ctx, v) := process p ctx e in
      Some ({| br_frames := br_frames r; br_buf := buf ctx; br_next := S (br_next r) |}, e, v).

Fixpoint ring_run `{Engine P E} (n : nat) (p : P) (r : BenchRing) (e : E) : option (list Verdict) :=
  match n with
  | O => Some []
  | S n => '(r, e, v) ← ring_process p r e; vs ← ring_run n p r e; Some (v :: vs)
  end.

(** What a pass of [engine_only] does with [l3fwd], of this many routes. *)
Definition l3_bench (routes size flows n : nat) : option (list Verdict) :=
  p ← install_routes routes (L3.new {| vports := [U16 0; U16 1] |});
  ring_run n p (ring_new size flows) (engine p).

Definition l2_bench (size flows n : nat) : option (list Verdict) :=
  p ← install_fdb (L2.new {| vports := [U16 0; U16 1] |});
  ring_run n p (ring_new size flows) (engine p).

(** The switch forwards every frame of the ring, and so does the router with a
    route for every flow. *)
Lemma ring_is_forwarded :
  l2_bench 64 16 32 = Some (replicate 32 (Forward (U16 1))) /\
  l3_bench 16 64 16 32 = Some (replicate 32 (Forward (U16 1))).
Proof. split; vm_compute; reflexivity. Qed.

(** With the one route of [l3fwd-1-routes] fifteen of the sixteen flows miss, and
    are dropped: what is measured is mostly the cost of a miss. *)
Lemma one_route_drops_the_ring :
  l3_bench 1 64 16 16 = Some (Forward (U16 1) :: replicate 15 Drop).
Proof. vm_compute. reflexivity. Qed.
