(* ===== verification/Messages.v ===== *)
(** * Refusal messages

    What the operator reads when a control-plane request or a configuration is
    refused: the [Display] of [ValueError] (crates/up4-engine/src/value.rs), of
    [TableError] (crates/up4-engine/src/shim.rs) and of the configuration errors
    (crates/up4-config/src/error.rs), and the formatting of the standard library
    they use. *)

From S2P Require Import Prelude Bytes Text Wire Value Shim Config.

Local Open Scope Z_scope.

(** [{n}] of a [usize]. *)
Definition show_nat (n : nat) : string := unchars (dec (Z.of_nat n)).

(** [[_].join(sep)] *)
Fixpoint join_str (sep : string) (l : list string) : string :=
  match l with
  | [] => ""
  | [x] => x
  | x :: l => (x ++ sep ++ join_str sep l)%string
  end.

Definition quote : ascii := chr 34.

(** [{s:?}] of a [str]: the escapes of ASCII text; what is not ASCII is taken to
    be printable. *)
Definition escape_debug (c : ascii) : list ascii :=
  let n := code c in
  if n =? 0 then chars "\0"
  else if n =? 9 then chars "\t"
  else if n =? 10 then chars "\n"
  else if n =? 13 then chars "\r"
  else if (n =? 34) || (n =? 92) then [chr 92; c]
  else if (n <? 32) || (n =? 127) then
    (chars "\u{" ++ (if n <? 16 then [digit_char n] else hex2 (U8 n)) ++ chars "}")%list
  else [c].

Definition str_debug (s : string) : string :=
  unchars ((quote :: (chars s ≫= escape_debug)) ++ [quote])%list.

Local Open Scope string_scope.

(** [{kind:?}], derived. *)
Definition kind_debug (k : ValKind) : string :=
  match k with KindU8 => "U8" | KindU16 => "U16" | KindU32 => "U32" | KindMac => "Mac" | KindIpv4 => "Ipv4" end.

(** [impl Display for ValueError] *)
Definition value_error_to_string (e : ValueError) : string :=
  match e with
  | Malformed kd text => str_debug text ++ " is not a valid " ++ syntax kd
  | Mismatched expected got => "expected " ++ syntax expected ++ ", got " ++ kind_debug got
  end.

(** [impl Display for TableError] *)
Definition table_error_to_string (e : TableError) : string :=
  match e with
  | Unsupported table reason => "table " ++ str_debug table ++ ": " ++ reason
  | UnknownTable name known => "no table " ++ str_debug name ++ " (have: " ++ join_str ", " known ++ ")"
  | UnknownAction table action known =>
      "table " ++ table ++ " has no action " ++ str_debug action ++ " (have: " ++ join_str ", " known ++ ")"
  | KeyKindMismatch table want got =>
      "table " ++ table ++ " expects a " ++ key_syntax want ++ " key, got " ++ key_syntax got
  | Arity table action want got =>
      table ++ "." ++ action ++ " takes " ++ show_nat want ++ " parameter(s), got " ++ show_nat got
  | Value e => value_error_to_string e
  | NotFound table key => "table " ++ table ++ " has no entry " ++ key
  | NoTables pipeline => "engine " ++ pipeline ++ " has no tables"
  end.

(** [{n}] of a signed integer. *)
Definition show_Z (n : Z) : string :=
  if (n <? 0)%Z then ("-" ++ unchars (dec (- n)))%string else unchars (dec n).

(** [impl Display for ConfigError] *)
Definition config_error_to_string (e : ConfigError) : string :=
  match e with
  | TomlError e => e
  | BindError v => "node.bind " ++ str_debug v ++ " is not a valid addr:port"
  | FabricError v =>
      "node.fabric " ++ str_debug v ++ " is not " ++ str_debug "ipv4" ++ " or " ++ str_debug "ipv6"
  | ThreadsError v => "node.threads " ++ show_Z v ++ " is outside 1..=" ++ show_Z (uv THREADS_MAX)
  | UnknownPipeline v known =>
      "node.pipeline " ++ str_debug v ++ " is not compiled into this binary (have: " ++ join_str ", " known ++ ")"
  | EmptyNodeId => "node.id must not be empty"
  | EmptyCtlSocket => "node.ctl_socket must not be empty"
  | PinCoresArity given threads =>
      "node.pin_cores has " ++ show_nat given ++ " entries but node.threads is " ++ show_nat threads ++
      "; give one core per shard or omit pin_cores entirely"
  | NegativeCore v => "node.pin_cores entry " ++ show_Z v ++ " is negative"
  | NoVports => "at least one [[vport]] is required"
  | VportIdError v =>
      "vport id " ++ show_Z v ++ " is not in 0.." ++ show_Z (uv PUNT_VPORT) ++ " (" ++ show_Z (uv PUNT_VPORT) ++
      " is the reserved punt id)"
  | DuplicateVportId v => "vport id " ++ show_Z (uv v) ++ " is declared twice"
  | PeerError vport v => "vport " ++ show_Z vport ++ " peer " ++ str_debug v ++ " is not a valid addr:port"
  | DuplicatePeer v first second =>
      "vports " ++ show_Z (uv first) ++ " and " ++ show_Z (uv second) ++ " share peer " ++ v ++
      "; the peer tuple is the receive demux key and must be unique"
  | PeerIsSelf vport v => "vport " ++ show_Z (uv vport) ++ " peer " ++ v ++ " is this node's own bind address"
  | PuntVportError v reserved =>
      "[punt] vport " ++ show_Z v ++ " must be the reserved id " ++ show_Z (uv reserved)
  | Internal what => "internal validation defect: " ++ what
  end.

(** [impl Display for ConfigErrors] *)
Definition newline : string := unchars [chr 10].
Definition config_errors_to_string (es : Errors) : string :=
  show_nat (length es) ++ " configuration error(s):" ++ newline ++
  foldr (fun e rest => "  - " ++ config_error_to_string e ++ newline ++ rest) "" es.

Example a_refusal_reads :
  table_error_to_string (Arity "ipv4_lpm" "forward" 2 1) = "ipv4_lpm.forward takes 2 parameter(s), got 1".
Proof. reflexivity. Qed.
