(* ===== verification/ErrorTexts.v ===== *)
(** * The texts of the data plane's errors

    The [Display] of [WireError] (crates/up4-wire/src/lib.rs), [FrameError]
    (crates/up4-engine/src/frame.rs), [ElfError] (crates/up4-ubpf/src/elf.rs) and
    [VmError] (crates/up4-ubpf/src/vm.rs): what a log line or a failed start
    says. *)

From S2P Require Import Prelude Bytes Text Wire Value Frame Elf UbpfVm UbpfPipeline Messages.

Local Open Scope string_scope.

Definition wire_error_to_string (e : WireError) : string :=
  match e with
  | ShortBuffer => "segment shorter than " ++ show_nat OVERLAY_HDR_LEN ++ "-byte overlay header"
  | BadVersion v => "unsupported overlay version " ++ show_Z (uv v) ++ " (expected " ++ show_Z (uv VERSION) ++ ")"
  end.

Definition frame_error_to_string (e : FrameError) : string :=
  match e with
  | NotEnoughHeadroom want have => "encap needs " ++ show_nat want ++ " B of headroom, " ++ show_nat have ++ " B available"
  | NotEnoughCapacity want have => "frame length " ++ show_nat want ++ " exceeds capacity " ++ show_nat have
  | FrameTooShort want have => "decap needs " ++ show_nat want ++ " B, frame is " ++ show_nat have ++ " B"
  end.

(** A panic of the loader has no text. *)
Definition elf_error_to_string (e : ElfError) : option string :=
  match e with
  | NotElf => Some "not an ELF object"
  | NotElf64Le => Some "not a 64-bit little-endian object"
  | NotBpf machine => Some ("e_machine " ++ show_Z machine ++ " is not BPF (247)")
  | Truncated what => Some ("truncated while reading " ++ what)
  | NoText => Some "no .text section: nothing to execute"
  | UnknownRelocation kind => Some ("relocation type " ++ show_Z kind ++ " is not implemented")
  | UnresolvedSymbol name => Some ("relocation against " ++ name ++ ", which is not a map definition")
  | RelocationOutOfRange offset => Some ("relocation at " ++ unchars (hex offset) ++ " lies outside .text")
  | SlicePanic => None
  end.

Definition vm_error_to_string (e : VmError) : string :=
  match e with
  | Rejected e => "bytecode rejected: " ++ e
  | Refused w => "unsupported: " ++ w
  | FrameTooLong got cap => "frame of " ++ show_nat got ++ " exceeds " ++ show_nat cap
  end.

Example bad_version_reads :
  wire_error_to_string (BadVersion (U8 2)) = "unsupported overlay version 2 (expected 1)".
Proof. reflexivity. Qed.

Example bad_relocation_reads :
  elf_error_to_string (RelocationOutOfRange 4096) = Some "relocation at 0x1000 lies outside .text".
Proof. reflexivity. Qed.
