(* ===== verification/Probe.v ===== *)
(** * The capability probe (crates/up4-io/src/probe.rs)

    What a node found its host to be: kernel, socket buffers, offloads, CPUs, the
    MTU toward a peer, and the assumptions the host contradicts.  The host's
    files, its socket options and [uname] are the record [Host]; reading what the
    kernel prints into them is modelled, and proved against how it prints it. *)

From S2P Require Import Prelude Bytes Text Lines Value Messages Socket.

Local Open Scope Z_scope.

Definition ASSUMED_MTU : Z := 1500.
Definition UDP_SEGMENT : Z := 103.
Definition UDP_GRO : Z := 104.

(** [IpAddr]; an IPv6 address is its text. *)
Inductive IpAddr := V4 (a : Ipv4Addr) | V6 (text : string).

Definition ip_addr_to_string (a : IpAddr) : string :=
  match a with V4 a => ip_to_string a | V6 text => text end.

Record PeerMtu := mkPeerMtu { pm_peer : IpAddr; interface : string; mtu : option Z }.

Record Probe := mkProbe {
  kernel : string;
  arch : string;
  sockbuf_requested : Z;
  rcvbuf_granted : Z;
  sndbuf_granted : Z;
  udp_gro : bool;
  udp_segment : bool;
  pr_gro_segments : nat;
  pr_max_gso_segments : nat;
  pr_may_fragment : bool;
  io_uring_disabled : option string;
  cpus_available : Z;
  cpuset : option string;
  peer_mtu : option PeerMtu;
  warnings : list string;
}.

(** What the probe asks of its host. *)
Record Machine := {
  (** [read_to_string]; [None] when it fails. *)
  file : string -> option string;
  (** [uname]: the release and machine fields, NUL-terminated; [None] on failure. *)
  uname_call : option (list byte * list byte);
  (** The capabilities of a socket bound to the loopback address, if one can be. *)
  loopback_caps : option SocketCaps;
  available_parallelism : option Z;
  (** Whether a fresh UDP socket takes an option. *)
  setsockopt : Z -> Z -> bool;
  (** [String::from_utf8_lossy] *)
  from_utf8_lossy : list byte -> string;
  little_endian : bool;
}.

(** [c_str], up to the NUL. *)
Fixpoint take_c (bs : list byte) : list byte :=
  match bs with
  | [] => []
  | b :: bs => if decide (uv b = 0) then [] else b :: take_c bs
  end.

Definition c_str (w : Machine) (field : list byte) : string := from_utf8_lossy w (take_c field).

Definition uname (w : Machine) : string * string :=
  match uname_call w with
  | None => ("unknown", "unknown")
  | Some (release, machine) => (c_str w release, c_str w machine)
  end%string.

Definition read_trimmed (w : Machine) (path : string) : option string :=
  match file w path with
  | None => None
  | Some s => let t := trim (chars s) in if decide (t = []) then None else Some (unchars t)
  end.

Definition read_or_empty (w : Machine) (path : string) : string := default EmptyString (file w path).

(** ** The route table *)

(** [u32::swap_bytes] *)
Definition swap_bytes (z : Z) : Z := be_val (le_bytes 4 z).

Definition hex_addr (little : bool) (field : list ascii) : option Z :=
  raw ← from_str_radix (umax 32) 16 field;
  Some (if little then swap_bytes raw else raw).

(** [u32::count_ones] *)
Definition count_ones (z : Z) : nat := length (filter (fun i => Z.testbit z (Z.of_nat i) = true) (seq 0 32)).

(** [Iterator::max_by_key] on the bit counts: among equals the last. *)
Definition max_by_bits (l : list (nat * string)) : option (nat * string) :=
  foldl (fun best x => match best with
                       | Some b => if (x.1 <? b.1)%nat then Some b else Some x
                       | None => Some x
                       end) None l.

(** One line of the table: a matching route's mask length and interface. *)
Definition route_line (little : bool) (target : Z) (line : list ascii) : option (nat * string) :=
  let f := split_whitespace line in
  iface ← f !! 0%nat;
  destination ← (d ← f !! 1%nat; hex_addr little d);
  mask ← (m ← f !! 7%nat; hex_addr little m);
  if decide (Z.land target mask = destination) then Some (count_ones mask, unchars iface) else None.

(** [u32::from_be_bytes(dest.octets())] *)
Definition target_of (dest : Ipv4Addr) : Z := be_val (ip_octets dest).

Definition route_interface (little : bool) (table : string) (dest : Ipv4Addr) : option string :=
  snd <$> max_by_bits (omap (route_line little (target_of dest)) (drop 1 (lines (chars table)))).

(** [s.parse::<u32>()] *)
Definition parse_u32 (s : string) : option Z := from_str_radix (umax 32) 10 (chars s).

(** [peer_mtu] *)
Definition mtu_to (w : Machine) (peer : IpAddr) : PeerMtu :=
  let iface := match peer with
               | V4 v4 => route_interface (little_endian w) (read_or_empty w "/proc/net/route") v4
               | V6 _ => None
               end in
  let found := (i ← iface; s ← read_trimmed w ("/sys/class/net/" ++ i ++ "/mtu")%string; parse_u32 s) in
  mkPeerMtu peer (default "unknown" iface)%string found.

(** ** The CPU set *)

Definition parse_usize (cs : list ascii) : option Z := from_str_radix (umax 64) 10 cs.

(** One part of the list; the count of a range wraps at 64 bits. *)
Definition cpuset_part (part : list ascii) : option Z :=
  match split_once "-" part with
  | None => (fun _ => 1) <$> parse_usize (trim part)
  | Some (lo, hi) =>
      lo ← parse_usize (trim lo);
      hi ← parse_usize (trim hi);
      if lo <=? hi then Some ((hi - lo + 1) mod 2 ^ 64) else None
  end.

Definition count_cpuset (spec : string) : Z :=
  foldl (fun a n => (a + n) mod 2 ^ 64) 0 (omap cpuset_part (split_on (fun c => Ascii.eqb c ",") (chars spec))).

(** ** The probe *)

Local Open Scope string_scope.

Definition warn_mtu (p : option PeerMtu) : list string :=
  match p with
  | Some p =>
      match mtu p with
      | Some m =>
          if (m <? ASSUMED_MTU)%Z then
            ["route to " ++ ip_addr_to_string (pm_peer p) ++ " via " ++ interface p ++ " has MTU " ++ show_Z m
               ++ " < " ++ show_Z ASSUMED_MTU ++ "; inner MTU must be recomputed from it (spec S17)"]
          else []
      | None => []
      end
  | None => []
  end.

Definition warn_caps (c : option SocketCaps) : list string :=
  match c with
  | None => []
  | Some c =>
      let w1 := if negb (gro c) then ["UDP GRO unavailable; receive falls back to one datagram per read"] else [] in
      let w2 := if negb (gso c) then ["UDP GSO unavailable; transmit falls back to one datagram per write"] else [] in
      let w3 := if (rcvbuf c <? WANT_BUF_BYTES)%Z then
                  ["SO_RCVBUF granted " ++ show_Z (rcvbuf c) ++ " of " ++ show_Z WANT_BUF_BYTES
                     ++ " requested; raising net.core.rmem_max is out of scope for an unprivileged process (spec S1.1)"]
                else [] in
      (w1 ++ w2 ++ w3)%list
  end.

(** How many CPUs there are to run on. *)
Definition cpus (w : Machine) (set : option string) : Z :=
  match (n ← count_cpuset <$> set; if (0 <? n)%Z then Some n else None) with
  | Some n => n
  | None => default 1%Z (available_parallelism w)
  end.

Definition probe (w : Machine) (peer : option IpAddr) : Probe :=
  let (kernel, arch) := uname w in
  let caps := loopback_caps w in
  let set := match read_trimmed w "/sys/fs/cgroup/cpuset.cpus.effective" with
             | Some s => Some s
             | None => read_trimmed w "/sys/fs/cgroup/cpuset/cpuset.effective_cpus"
             end in
  let route := mtu_to w <$> peer in
  {| kernel := kernel;
     arch := arch;
     sockbuf_requested := WANT_BUF_BYTES;
     rcvbuf_granted := from_option rcvbuf 0%Z caps;
     sndbuf_granted := from_option sndbuf 0%Z caps;
     udp_gro := setsockopt w UDP_GRO 1;
     udp_segment := setsockopt w UDP_SEGMENT 1472;
     pr_gro_segments := from_option gro_segments 1%nat caps;
     pr_max_gso_segments := from_option max_gso_segments 1%nat caps;
     pr_may_fragment := from_option may_fragment false caps;
     io_uring_disabled := read_trimmed w "/proc/sys/kernel/io_uring_disabled";
     cpus_available := cpus w set;
     cpuset := set;
     peer_mtu := route;
     warnings := (warn_mtu route ++ warn_caps caps)%list |}.

(** ** How the kernel prints *)

Local Close Scope string_scope.
Local Open Scope Z_scope.

Definition TAB : ascii := chr 9.
Definition upper_digit (d : Z) : ascii := if d <? 10 then chr (48 + d) else chr (55 + d).

(** [%0nX] *)
Fixpoint hexn (n : nat) (z : Z) : list ascii :=
  match n with O => [] | S n => hexn n (z / 16) ++ [upper_digit (z mod 16)] end.

(** A word in network order, as the host reads it. *)
Definition host_word (little : bool) (z : Z) : Z := if little then swap_bytes z else z.

(** A route as the kernel has it; [middle] is gateway, flags and three counts. *)
Record Route := {
  rt_iface : list ascii;
  rt_dest : Z;
  rt_mask : Z;
  rt_middle : list (list ascii);
  rt_tail : list ascii;
}.

Definition is_word (w : list ascii) : Prop := Forall (fun c => solid c = true) w /\ w <> [].

Record route_wf (r : Route) : Prop := {
  wf_iface : is_word (rt_iface r);
  wf_dest : 0 <= rt_dest r < 2 ^ 32;
  wf_mask : 0 <= rt_mask r < 2 ^ 32;
  wf_middle : length (rt_middle r) = 5%nat /\ Forall is_word (rt_middle r);
  wf_tail : clean_line (rt_tail r);
}.

Definition route_text (little : bool) (r : Route) : list ascii :=
  rt_iface r ++ TAB :: hexn 8 (host_word little (rt_dest r)) ++ TAB ::
  (rt_middle r ≫= (fun m => m ++ [TAB])) ++ hexn 8 (host_word little (rt_mask r)) ++ TAB :: rt_tail r.

Definition route_table (little : bool) (header : list ascii) (routes : list Route) : string :=
  unchars (unlines (header :: (route_text little <$> routes))).

(** A route is for an address. *)
Definition routes_to (target : Z) (r : Route) : Prop := Z.land target (rt_mask r) = rt_dest r.

#[export] Instance routes_to_dec target r : Decision (routes_to target r).
Proof. unfold routes_to. apply _. Defined.

(** One entry of a CPU list: a CPU or a range. *)
Definition cpu_text (p : Z * Z) : list ascii := if p.1 =? p.2 then dec p.1 else dec p.1 ++ "-"%char :: dec p.2.
Definition cpu_list (ps : list (Z * Z)) : string := unchars (join "," (cpu_text <$> ps)).
Definition cpu_count (ps : list (Z * Z)) : Z := foldr (fun p n => p.2 - p.1 + 1 + n) 0 ps.

(** ** Lemmas *)

Lemma upper_digit_facts d :
  0 <= d < 16 -> to_digit 16 (upper_digit d) = Some d /\ solid (upper_digit d) = true /\ upper_digit d <> "+"%char.
Proof.
  intros H. assert (exists n : nat, d = Z.of_nat n /\ (n < 16)%nat) as (n & -> & Hn)
    by (exists (Z.to_nat d); lia).
  do 16 (destruct n as [| n]; [done |]). lia.
Qed.

Lemma parse_digits_app radix xs ys acc :
  parse_digits radix (xs ++ ys) acc = (a ← parse_digits radix xs acc; parse_digits radix ys a).
Proof.
  revert acc. induction xs as [| c xs IH]; intros acc; [done |]. cbn [app parse_digits].
  destruct (to_digit radix c); [apply IH | done].
Qed.

Lemma parse_hexn n z : 0 <= z < 16 ^ Z.of_nat n -> parse_digits 16 (hexn n z) 0 = Some z.
Proof.
  revert z. induction n as [| n IH]; intros z H; [by replace z with 0 by (cbn in H; lia) |].
  rewrite Nat2Z.inj_succ, Z.pow_succ_r in H by lia. cbn [hexn].
  rewrite parse_digits_app, IH by (Z.to_euclidean_division_equations; lia). cbn [mbind option_bind parse_digits].
  destruct (upper_digit_facts (z mod 16)) as [-> _]; [apply Z.mod_pos_bound; lia |].
  f_equal. Z.to_euclidean_division_equations; lia.
Qed.

Lemma hexn_word n z : (0 < n)%nat -> is_word (hexn n z).
Proof.
  intros Hn. split.
  - revert z. clear Hn. induction n as [| n IH]; intros z; cbn [hexn]; [constructor |].
    apply Forall_app. split; [apply IH |]. constructor; [| constructor].
    apply upper_digit_facts, Z.mod_pos_bound. lia.
  - destruct n; [lia |]. cbn [hexn]. intros E. by apply app_eq_nil in E as [_ E].
Qed.

Lemma hexn_no_plus n z : head (hexn n z) <> Some "+"%char.
Proof.
  revert z. induction n as [| n IH]; intros z; [done |]. cbn [hexn]. destruct (hexn n (z / 16)) eqn:E.
  - cbn. intros [= Hp]. revert Hp. apply upper_digit_facts, Z.mod_pos_bound. lia.
  - specialize (IH (z / 16)). by rewrite E in IH.
Qed.

Lemma from_str_hex8 z : 0 <= z < 2 ^ 32 -> from_str_radix (umax 32) 16 (hexn 8 z) = Some z.
Proof.
  intros H. pose proof (hexn_no_plus 8 z) as Hp. pose proof (parse_hexn 8 z ltac:(change (16 ^ Z.of_nat 8) with (2 ^ 32); lia)) as E.
  destruct (hexn_word 8 z) as [_ Hn]; [lia |]. unfold from_str_radix.
  destruct (hexn 8 z) as [| c cs]; [done |]. cbn [head] in Hp.
  assert (match c with "+"%char => cs | _ => c :: cs end = c :: cs) as ->.
  { destruct c as [[] [] [] [] [] [] [] []]; done. }
  rewrite E. unfold umax. change (2 ^ Z.of_N 32) with (2 ^ 32). by rewrite (proj2 (Z.leb_le _ _)) by lia.
Qed.

Lemma swap_bytes_range z : 0 <= swap_bytes z < 2 ^ 32.
Proof. unfold swap_bytes. pose proof (be_val_bound (le_bytes 4 z)) as H. by rewrite length_le_bytes in H. Qed.

Lemma swap_bytes_involutive z : 0 <= z < 2 ^ 32 -> swap_bytes (swap_bytes z) = z.
Proof.
  intros H. unfold swap_bytes. set (bs := le_bytes 4 z).
  assert (length bs = 4%nat) as Hl by apply length_le_bytes.
  pose proof (be_bytes_be_val bs) as E. rewrite Hl in E. unfold be_bytes in E.
  apply (f_equal reverse) in E. rewrite reverse_involutive in E. rewrite E.
  unfold be_val. rewrite reverse_involutive. unfold bs. rewrite le_val_le_bytes.
  apply Z.mod_small. change (256 ^ Z.of_nat 4) with (2 ^ 32). lia.
Qed.

Lemma hex_addr_word little z : 0 <= z < 2 ^ 32 -> hex_addr little (hexn 8 (host_word little z)) = Some z.
Proof.
  intros H. unfold hex_addr, host_word. destruct little.
  - rewrite from_str_hex8 by apply swap_bytes_range. cbn [mbind option_bind]. by rewrite swap_bytes_involutive.
  - by rewrite from_str_hex8.
Qed.

Lemma route_words little r :
  route_wf r ->
  let f := split_whitespace (route_text little r) in
  f !! 0%nat = Some (rt_iface r) /\ f !! 1%nat = Some (hexn 8 (host_word little (rt_dest r)))
  /\ f !! 7%nat = Some (hexn 8 (host_word little (rt_mask r))).
Proof.
  intros [[Hi1 Hi2] _ _ [Hm1 Hm2] _]. cbn zeta. unfold route_text.
  assert (forall z, is_word (hexn 8 z)) as Hx by (intros; apply hexn_word; lia).
  rewrite split_whitespace_word by done.
  rewrite split_whitespace_word by (done || apply Hx).
  destruct (rt_middle r) as [| a [| b [| c [| d [| e []]]]]]; try done.
  repeat (apply Forall_cons in Hm2 as [[? ?] Hm2]). cbn [mbind list_bind]. rewrite app_nil_r, <-!app_assoc. cbn [app].
  do 5 rewrite split_whitespace_word by done.
  rewrite split_whitespace_word by (done || apply Hx). done.
Qed.

Lemma route_line_text little target r :
  route_wf r ->
  route_line little target (route_text little r)
  = if decide (routes_to target r) then Some (count_ones (rt_mask r), unchars (rt_iface r)) else None.
Proof.
  intros H. destruct (route_words little r H) as (E0 & E1 & E7). cbn zeta in *. unfold route_line, routes_to.
  rewrite E0, E1, E7. cbn [mbind option_bind]. destruct H as [_ Hd Hm _ _].
  rewrite !hex_addr_word by done. done.
Qed.

Lemma max_by_bits_app l x :
  max_by_bits (l ++ [x]) = match max_by_bits l with
                           | Some b => if (x.1 <? b.1)%nat then Some b else Some x
                           | None => Some x
                           end.
Proof. unfold max_by_bits. by rewrite foldl_app. Qed.

Lemma max_by_bits_spec l :
  match max_by_bits l with
  | None => l = []
  | Some x => exists before after, l = before ++ x :: after
      /\ (forall y, y ∈ before -> (y.1 <= x.1)%nat) /\ (forall y, y ∈ after -> (y.1 < x.1)%nat)
  end.
Proof.
  induction l as [| x l IH] using rev_ind; [done |]. rewrite max_by_bits_app.
  destruct (max_by_bits l) as [b |].
  - destruct IH as (before & after & -> & Hb & Ha). destruct (Nat.ltb_spec x.1 b.1).
    + exists before, (after ++ [x]). rewrite <-app_assoc. split; [done |]. split; [done |].
      intros y [Hy | ->%list_elem_of_singleton]%elem_of_app; [by apply Ha | done].
    + exists (before ++ b :: after), []. split; [done |]. split; [| intros y Hy; by apply not_elem_of_nil in Hy].
      intros y [Hy | [-> | Hy]%elem_of_cons]%elem_of_app; [specialize (Hb y Hy); lia | done | specialize (Ha y Hy); lia].
  - subst l. exists [], []. split; [done |]. split; intros y Hy; by apply not_elem_of_nil in Hy.
Qed.

Lemma omap_split {A B} (f : A -> option B) (l : list A) before y after :
  omap f l = before ++ y :: after ->
  exists l1 x l2, l = l1 ++ x :: l2 /\ omap f l1 = before /\ f x = Some y /\ omap f l2 = after.
Proof.
  revert before. induction l as [| x l IH]; intros before H; [by destruct before |]. cbn [omap list_omap] in H.
  destruct (f x) as [z |] eqn:E.
  - destruct before as [| z' before]; injection H as -> H.
    + exists [], x, l. done.
    + destruct (IH _ H) as (l1 & w & l2 & -> & E1 & Ew & E2). exists (x :: l1), w, l2.
      split_and!; [done | cbn [omap list_omap]; rewrite E; by f_equal | done | done].
  - destruct (IH _ H) as (l1 & w & l2 & -> & E1 & Ew & E2). exists (x :: l1), w, l2.
    split_and!; [done | by cbn [omap list_omap]; rewrite E | done | done].
Qed.

Lemma clean_app l b t : LF ∉ l -> b <> LF -> b <> CR -> clean_line t -> clean_line (l ++ b :: t).
Proof.
  intros Hl Hb Hc [Ht1 Ht2]. split.
  - rewrite not_elem_of_app, not_elem_of_cons. split_and!; [done | congruence | done].
  - rewrite last_app_cons, last_cons. destruct (last t); [done | congruence].
Qed.

Lemma route_text_clean little r : route_wf r -> clean_line (route_text little r).
Proof.
  intros [[Hi1 Hi2] _ _ [Hm1 Hm2] Ht].
  assert (forall w, Forall (fun c => solid c = true) w -> LF ∉ w) as Hs.
  { intros w Hw Hin. rewrite Forall_forall in Hw. by specialize (Hw _ Hin). }
  assert (forall z, LF ∉ hexn 8 z) as Hx by (intros; apply Hs, hexn_word; lia).
  replace (route_text little r) with
    ((rt_iface r ++ TAB :: hexn 8 (host_word little (rt_dest r)) ++ TAB ::
      (rt_middle r ≫= (fun m => m ++ [TAB])) ++ hexn 8 (host_word little (rt_mask r))) ++ TAB :: rt_tail r)
    by (unfold route_text; rewrite <-app_assoc; cbn [app]; by rewrite <-!app_assoc; cbn [app]; rewrite <-app_assoc).
  apply clean_app; [| done..].
  rewrite !not_elem_of_app, !not_elem_of_cons, !not_elem_of_app, not_elem_of_cons, not_elem_of_app.
  split_and!; try done; try apply Hx; [by apply Hs |].
  rewrite list_elem_of_bind. intros (m & Hin & Hm). rewrite Forall_forall in Hm2.
  apply elem_of_app in Hin as [Hin | Hin%list_elem_of_singleton]; [| done].
  revert Hin. apply Hs. by apply Hm2.
Qed.

Lemma omap_fmap {A B C} (f : B -> option C) (g : A -> B) (l : list A) : omap f (g <$> l) = omap (fun x => f (g x)) l.
Proof.
  induction l as [| x l IH]; [done |].
  change (match f (g x) with Some y => y :: omap f (g <$> l) | None => omap f (g <$> l) end
          = match f (g x) with
            | Some y => y :: omap (fun x => f (g x)) l | None => omap (fun x => f (g x)) l end).
  by rewrite IH.
Qed.

Lemma omap_ext_in {A B} (f g : A -> option B) (l : list A) : (forall x, x ∈ l -> f x = g x) -> omap f l = omap g l.
Proof.
  induction l as [| x l IH]; intros H; [done |].
  change (match f x with Some y => y :: omap f l | None => omap f l end
          = match g x with Some y => y :: omap g l | None => omap g l end).
  rewrite (H x) by left. rewrite IH; [done |]. intros y Hy. apply H. by right.
Qed.

(** The route table, as printed, is the list of routes. *)
Lemma route_interface_table little header routes dest :
  clean_line header -> Forall route_wf routes ->
  route_interface little (route_table little header routes) dest
  = snd <$> max_by_bits (omap (fun r => if decide (routes_to (target_of dest) r)
                                        then Some (count_ones (rt_mask r), unchars (rt_iface r)) else None) routes).
Proof.
  intros Hh Hr. unfold route_interface, route_table. rewrite chars_unchars, lines_unlines.
  - cbn [drop]. rewrite drop_0, omap_fmap. do 2 f_equal. apply omap_ext_in. intros r Hin.
    apply route_line_text. rewrite Forall_forall in Hr. by apply Hr.
  - constructor; [done |]. apply Forall_fmap. eapply Forall_impl; [exact Hr |]. intros r. apply route_text_clean.
Qed.

Lemma trim_dec n : 0 <= n -> trim (dec n) = dec n.
Proof.
  intros H. pose proof (dec_solid n H) as Hs. pose proof (dec_not_nil n) as Hn.
  destruct (dec n) as [| c cs] eqn:E; [done |]. destruct (last (c :: cs)) as [d |] eqn:El.
  2: { by apply last_None in El. }
  eapply trim_solid; [done | exact El | by apply Forall_cons in Hs as [? _] |].
  rewrite last_lookup in El. rewrite Forall_lookup in Hs. by eapply Hs.
Qed.

Lemma parse_usize_dec n : 0 <= n <= umax 64 -> parse_usize (trim (dec n)) = Some n.
Proof. intros H. rewrite trim_dec by lia. unfold parse_usize. apply from_str_dec; lia. Qed.

Lemma no_dash n : 0 <= n -> Forall (fun x => Ascii.eqb x "-" = false) (dec n).
Proof. intros H. apply dec_no_sep; [done |]. intros c E%Ascii.eqb_eq. by subst. Qed.

Lemma no_comma n : 0 <= n -> Forall (fun x => Ascii.eqb x "," = false) (dec n).
Proof. intros H. apply dec_no_sep; [done |]. intros c E%Ascii.eqb_eq. by subst. Qed.

Lemma cpuset_part_text p :
  0 <= p.1 <= p.2 -> p.2 <= umax 64 -> cpuset_part (cpu_text p) = Some ((p.2 - p.1 + 1) mod 2 ^ 64).
Proof.
  intros H1 H2. unfold cpuset_part, cpu_text. destruct (Z.eqb_spec p.1 p.2) as [E | E].
  - rewrite split_once_none by (apply no_dash; lia). rewrite parse_usize_dec by lia. cbn [fmap option_fmap option_map].
    by rewrite E, Z.sub_diag.
  - rewrite split_once_app by (apply no_dash; lia).
    rewrite !parse_usize_dec by lia. cbn [mbind option_bind]. by rewrite (proj2 (Z.leb_le _ _)) by lia.
Qed.

Lemma cpu_text_no_comma p : 0 <= p.1 <= p.2 -> Forall (fun x => Ascii.eqb x "," = false) (cpu_text p).
Proof.
  intros H. unfold cpu_text. destruct (p.1 =? p.2); [apply no_comma; lia |].
  apply Forall_app. split; [apply no_comma; lia |]. constructor; [done | apply no_comma; lia].
Qed.

Lemma cpu_count_nonneg ps : Forall (fun p => 0 <= p.1 <= p.2 /\ p.2 < 2 ^ 64) ps -> 0 <= cpu_count ps.
Proof. unfold cpu_count. induction 1 as [| p ps Hp _ IH]; cbn [foldr]; lia. Qed.

Lemma cpu_sum ps acc :
  Forall (fun p => 0 <= p.1 <= p.2 /\ p.2 < 2 ^ 64) ps -> 0 <= acc -> acc + cpu_count ps < 2 ^ 64 ->
  foldl (fun a n => (a + n) mod 2 ^ 64) acc (omap cpuset_part (cpu_text <$> ps)) = acc + cpu_count ps.
Proof.
  intros H. revert acc. induction H as [| p ps Hp Hps IH]; intros acc Ha Hs; [by rewrite Z.add_0_r |].
  pose proof (cpu_count_nonneg ps Hps). cbn [cpu_count foldr] in Hs. fold (cpu_count ps) in Hs.
  rewrite omap_fmap in *. 
  assert (omap (fun x => cpuset_part (cpu_text x)) (p :: ps)
          = (p.2 - p.1 + 1) :: omap (fun x => cpuset_part (cpu_text x)) ps) as ->.
  { change (match cpuset_part (cpu_text p) with
            | Some y => y :: omap (fun x => cpuset_part (cpu_text x)) ps
            | None => omap (fun x => cpuset_part (cpu_text x)) ps end
            = (p.2 - p.1 + 1) :: omap (fun x => cpuset_part (cpu_text x)) ps).
    rewrite cpuset_part_text by (unfold umax; change (2 ^ Z.of_N 64) with (2 ^ 64); lia).
    by rewrite Z.mod_small by lia. }
  cbn [foldl]. rewrite Z.mod_small by lia. rewrite IH by lia.
  cbn [cpu_count foldr]. fold (cpu_count ps). lia.
Qed.

(** The probe reads the host's files as the kernel prints them.  Of a route
    table, in either byte order, it names the interface of a route that is for
    the address and whose mask is the longest of all that are, and names none
    exactly when no route is; where masks are equally long it takes the last
    printed, whatever the metrics.  Of a CPU list it counts the CPUs. *)
Theorem probe_reads_what_the_kernel_prints little header routes dest ps :
  clean_line header -> Forall route_wf routes ->
  Forall (fun p => 0 <= p.1 <= p.2 /\ p.2 < 2 ^ 64) ps -> cpu_count ps < 2 ^ 64 ->
  match route_interface little (route_table little header routes) dest with
  | Some i => exists before r after,
      routes = before ++ r :: after /\ i = unchars (rt_iface r) /\ routes_to (target_of dest) r
      /\ (forall r', r' ∈ before -> routes_to (target_of dest) r' ->
            (count_ones (rt_mask r') <= count_ones (rt_mask r))%nat)
      /\ (forall r', r' ∈ after -> routes_to (target_of dest) r' ->
            (count_ones (rt_mask r') < count_ones (rt_mask r))%nat)
  | None => forall r, r ∈ routes -> ~ routes_to (target_of dest) r
  end
  /\ count_cpuset (cpu_list ps) = cpu_count ps.
Proof.
  intros Hh Hr Hps Hsum. split.
  - rewrite route_interface_table by done.
    set (f := fun r => if decide (routes_to (target_of dest) r)
                       then Some (count_ones (rt_mask r), unchars (rt_iface r)) else None).
    assert (forall r, routes_to (target_of dest) r -> f r = Some (count_ones (rt_mask r), unchars (rt_iface r))) as Hf
      by (intros r H; unfold f; by rewrite decide_True).
    assert (forall r (l : list Route), r ∈ l -> routes_to (target_of dest) r ->
              (count_ones (rt_mask r), unchars (rt_iface r)) ∈ omap f l) as Hin.
    { intros r l Hl H. apply list_elem_of_omap. exists r. split; [done | by apply Hf]. }
    pose proof (max_by_bits_spec (omap f routes)) as Hm. destruct (max_by_bits (omap f routes)) as [[n i] |].
    + destruct Hm as (before & after & E & Hb & Ha). apply omap_split in E as (l1 & r & l2 & -> & <- & Er & <-).
      assert (routes_to (target_of dest) r) as Hto by (unfold f in Er; by case_decide).
      rewrite (Hf r Hto) in Er. injection Er as <- <-. exists l1, r, l2. cbn [fmap option_fmap option_map snd].
      split_and!; [done | done | done | |].
      * intros r' Hl H. by apply (Hb _ (Hin r' l1 Hl H)).
      * intros r' Hl H. by apply (Ha _ (Hin r' l2 Hl H)).
    + intros r Hl H. specialize (Hin r routes Hl H). rewrite Hm in Hin. by apply not_elem_of_nil in Hin.
  - unfold count_cpuset, cpu_list. rewrite chars_unchars.
    destruct ps as [| p ps]; [reflexivity |].
    rewrite split_join; [by rewrite cpu_sum by (done || lia) | done | done |].
    apply Forall_fmap. eapply Forall_impl; [exact Hps |]. intros q [Hq _]. by apply cpu_text_no_comma.
Qed.

(** A host with a route to 10.0.2.0/24 through eth0 and two default routes, as
    its kernel prints them; the second default, which the kernel ranks below the
    first by its metric, is the one the probe takes. *)
Module Sample.

Definition words : list (list ascii) := chars <$> ["0102000A"; "0003"; "0"; "0"; "100"]%string.
Definition route_of (i : string) (d m : Z) : Route :=
  {| rt_iface := chars i; rt_dest := d; rt_mask := m; rt_middle := words; rt_tail := chars "0  " |}.
Definition table : list Route :=
  [route_of "eth1" 0 0; route_of "wlan0" 0 0; route_of "eth0" 0x0A000200 0xFFFFFF00].
Definition heading : list ascii := chars "Iface Destination Gateway".

Lemma probe_witness :
  route_interface true (route_table true heading table) (Ipv4 (U8 10) (U8 0) (U8 2) (U8 5)) = Some "eth0"%string
  /\ route_interface true (route_table true heading table) (Ipv4 (U8 8) (U8 8) (U8 8) (U8 8)) = Some "wlan0"%string
  /\ exists before r after, table = before ++ r :: after /\ rt_iface r = chars "eth0"
  /\ count_cpuset (cpu_list [(0, 3); (8, 8)]) = 5.
Proof.
  assert (clean_line heading) as Hh by (refine (bool_decide_unpack _ _); reflexivity).
  assert (Forall route_wf table) as Ht.
  { assert (forall i d m, is_word (chars i) -> 0 <= d < 2 ^ 32 -> 0 <= m < 2 ^ 32 -> route_wf (route_of i d m)) as H.
    { intros i d m Hi Hd Hm. split; [done | done | done | | refine (bool_decide_unpack _ _); reflexivity].
      split; [done |]. unfold words. repeat (constructor; [split; [refine (bool_decide_unpack _ _); reflexivity | done] |]).
      constructor. }
    unfold table. repeat (apply Forall_cons; split;
      [apply H; [split; [refine (bool_decide_unpack _ _); reflexivity | done] | lia | lia] |]). constructor. }
  pose proof (probe_reads_what_the_kernel_prints true heading table (Ipv4 (U8 10) (U8 0) (U8 2) (U8 5))
    [(0, 3); (8, 8)] Hh Ht ltac:(repeat constructor; cbn; lia) ltac:(done)) as [H Hc].
  assert (route_interface true (route_table true heading table) (Ipv4 (U8 10) (U8 0) (U8 2) (U8 5)) = Some "eth0"%string)
    as E by (vm_compute; reflexivity).
  rewrite E in H. destruct H as (before & r & after & Et & Ei & _).
  split; [exact E |]. split; [vm_compute; reflexivity |]. exists before, r, after.
  split; [exact Et |]. split; [| exact Hc]. rewrite <-(chars_unchars (rt_iface r)), <-Ei. reflexivity.
Defined.

End Sample.
