(* ===== verification/Toolchain.v ===== *)
(** * The compilers and where they come from (xtask/src/tool.rs)

    [Toolchain::provision] finds each tool a target needs, or builds it with a
    script: micromamba fetched, a conda environment created from it, p4c and x4c
    built from pinned revisions.  The host (its files, its shell) is the class
    [Host]; a function that acts on it is an [Act]: the new host with a value,
    an error message, or a panic. *)

From S2P Require Import Prelude Bytes Text Lines.

Local Open Scope string_scope.

(** ** Fallible actions on a state *)

Inductive Stop := Failed (e : string) | Panicked.

Definition Act (S A : Type) : Type := S -> result A Stop * S.

Definition ret {S A} (a : A) : Act S A := fun s => (Ok a, s).
Definition fail {S A} (e : string) : Act S A := fun s => (Err (Failed e), s).
Definition panic {S A} : Act S A := fun s => (Err Panicked, s).
Definition act_bind {S A B} (m : Act S A) (k : A -> Act S B) : Act S B := fun s =>
  let (r, s) := m s in
  match r with Ok a => k a s | Err e => (Err e, s) end.

Notation "'let!' x := m 'in' k" := (act_bind m (fun x => k))
  (at level 10, x pattern, m at level 100, k at level 200) : up4_scope.

(** [for x in l { acc = f(acc, x)?; }] *)
Fixpoint act_fold {S A B} (f : A -> B -> Act S A) (acc : A) (l : list B) : Act S A :=
  match l with
  | [] => ret acc
  | x :: l => let! acc := f acc x in act_fold f acc l
  end.

Lemma act_bind_Ok {S A B} (m : Act S A) (k : A -> Act S B) s b s' :
  act_bind m k s = (Ok b, s') -> exists a s1, m s = (Ok a, s1) /\ k a s1 = (Ok b, s').
Proof. unfold act_bind. destruct (m s) as [[a | e] s1]; [eauto | done]. Qed.

(** What every action of a sequence keeps, the sequence keeps. *)
Definition Keeps {S A} (P : S -> Prop) (m : Act S A) : Prop := forall s, P s -> P (snd (m s)).

Lemma Keeps_ret {S A} (P : S -> Prop) (a : A) : Keeps P (ret a).
Proof. by intros s. Qed.

Lemma Keeps_fail {S A} (P : S -> Prop) e : Keeps P (@fail S A e).
Proof. by intros s. Qed.

Lemma Keeps_panic {S A} (P : S -> Prop) : Keeps P (@panic S A).
Proof. by intros s. Qed.

Lemma Keeps_bind {S A B} (P : S -> Prop) (m : Act S A) (k : A -> Act S B) :
  Keeps P m -> (forall a, Keeps P (k a)) -> Keeps P (act_bind m k).
Proof.
  intros Hm Hk s Hs. unfold act_bind. specialize (Hm s Hs).
  destruct (m s) as [[a | e] s1]; [by apply Hk | done].
Qed.

Lemma Keeps_fold {S A B} (P : S -> Prop) (f : A -> B -> Act S A) l :
  (forall acc x, Keeps P (f acc x)) -> forall acc, Keeps P (act_fold f acc l).
Proof.
  intros Hf. induction l as [| x l IH]; intros acc; [apply Keeps_ret |].
  by apply Keeps_bind.
Qed.

Create HintDb keeps.
#[export] Hint Resolve Keeps_ret Keeps_fail Keeps_panic Keeps_bind Keeps_fold : keeps.

(** ** The host *)

Record Command := mkCommand {
  prog : string;
  args : list string;
  cwd : option string;
  envs : list (string * string);
}.

(** What became of a process: not started, or ended; its output as text. *)
Inductive Spawned :=
  | NotSpawned (e : string)
  | Exited (success : bool) (status stdout stderr : string).

Class Host (M : Type) := {
  is_file : M -> string -> bool;
  create_dir_all : M -> string -> result unit string * M;
  spawn : M -> Command -> Spawned * M;
  eprint : M -> string -> M;
}.

(** [Path::join] of a path that does not end in a separator and a relative one. *)
Definition path_join (a b : string) : string := a ++ "/" ++ b.

(** ** Tools *)

Inductive Tool := ToolX4c | ToolP4cUbpf | ToolClang | ToolRustfmt.

#[export] Instance Tool_eq_dec : EqDecision Tool.
Proof. solve_decision. Defined.

(** The derived order is that of the variants. *)
Definition tool_rank (t : Tool) : nat :=
  match t with ToolX4c => 0 | ToolP4cUbpf => 1 | ToolClang => 2 | ToolRustfmt => 3 end.

#[export] Instance Tool_countable : Countable Tool.
Proof.
  refine (inj_countable' tool_rank
    (fun n => match n with 0 => ToolX4c | 1 => ToolP4cUbpf | 2 => ToolClang | _ => ToolRustfmt end)%nat _).
  by intros [].
Defined.

Definition tool_name (t : Tool) : string :=
  match t with
  | ToolX4c => "x4c" | ToolP4cUbpf => "p4c-ubpf" | ToolClang => "clang" | ToolRustfmt => "rustfmt"
  end.

Definition X4C_REPO : string := "https://github.com/oxidecomputer/p4".
Definition X4C_REV : string := "e29b7953ed6c0577d7e170a8d83d20b0f989d240".
Definition P4C_REPO : string := "https://github.com/p4lang/p4c".
Definition P4C_REV : string := "8ce422be06326cc9e902ae70ca5b9916515443c6".
Definition MICROMAMBA_URL : string := "https://micro.mamba.pm/api/micromamba/linux-aarch64/latest".
Definition MICROMAMBA_URL_X86 : string := "https://micro.mamba.pm/api/micromamba/linux-64/latest".
Definition CONDA_SPECS : list string :=
  ["cmake"; "ninja"; "make"; "pkg-config"; "bison"; "flex"; "libboost-devel"; "gmp"; "clangdev=19";
   "python=3.11"].

Record Toolchain := mkToolchain {
  paths : gmap Tool string;
  conda_prefix : string;
  p4c_src : string;
}.

(** [Toolchain::path]; [None] is the panic of a tool that was not requested. *)
Definition path (tc : Toolchain) (t : Tool) : option string := paths tc !! t.

(** [Toolchain::env], given the value of [LD_LIBRARY_PATH]. *)
Definition env (existing : string) (tc : Toolchain) : list (string * string) :=
  [("LD_LIBRARY_PATH", path_join (conda_prefix tc) "lib" ++ ":" ++ existing)].

Definition ubpf_runtime_header (tc : Toolchain) : string :=
  path_join (p4c_src tc) "backends/ubpf/runtime/ubpf_common.h".

(** The scripts, as the format strings spell them. *)
Definition micromamba_script (url : string) : string :=
  "curl -sSL '" ++ url ++ "' | tar -xj bin/micromamba".

Definition conda_script (root mm prefix : string) : string :=
  "MAMBA_ROOT_PREFIX='" ++ root ++ "' '" ++ mm ++ "' create -y -p '" ++ prefix
    ++ "' -c conda-forge " ++ String.concat " " CONDA_SPECS.

Definition fetch_script (d repo rev : string) : string :=
  "rm -rf '" ++ d ++ "' && git init -q '" ++ d ++ "' && cd '" ++ d ++ "' && "
    ++ "git remote add origin " ++ repo ++ " && "
    ++ "git fetch -q --depth 1 origin " ++ rev ++ " && git checkout -q FETCH_HEAD && ".

Definition x4c_script (d : string) : string :=
  fetch_script d X4C_REPO X4C_REV
    ++ "rm -f rust-toolchain.toml && cargo build --release -p x4c".

Definition p4c_script (d p : string) : string :=
  fetch_script d P4C_REPO P4C_REV
    ++ "git submodule update -q --init --depth 1 --recursive && "
    ++ "export PATH='" ++ p ++ "/bin':$PATH CMAKE_PREFIX_PATH='" ++ p ++ "' "
    ++ "LD_LIBRARY_PATH='" ++ p ++ "/lib' CONDA_PREFIX='" ++ p ++ "' && "
    ++ "export CC=$(ls '" ++ p ++ "'/bin/*-linux-gnu-gcc 2>/dev/null | head -1) "
    ++ "CXX=$(ls '" ++ p ++ "'/bin/*-linux-gnu-g++ 2>/dev/null | head -1) && "
    ++ "cmake -S . -B build -G Ninja -DCMAKE_BUILD_TYPE=Release "
    ++ "-DENABLE_UBPF=ON -DENABLE_BMV2=OFF -DENABLE_EBPF=OFF "
    ++ "-DENABLE_DPDK=OFF -DENABLE_TC=OFF -DENABLE_P4TEST=OFF "
    ++ "-DENABLE_P4C_GRAPHS=OFF -DENABLE_P4FMT=OFF -DENABLE_TEST_TOOLS=OFF "
    ++ "-DENABLE_GTESTS=OFF -DENABLE_DOCS=OFF -DENABLE_P4TOOLS=OFF "
    ++ "-DENABLE_BMV2_PSA=OFF -DENABLE_MULTITHREAD=OFF && "
    ++ "cmake --build build --target p4c-ubpf -j$(nproc)".

Section provision.
  Context {M : Type} {HM : Host M}.
  (** Whether the binary is built for x86-64. *)
  Context (x86 : bool).

Definition require (p what : string) : Act M string := fun m =>
  if is_file m p then (Ok p, m) else (Err (Failed (what ++ " missing at " ++ p)), m).

Definition which_command (bin : string) : Command :=
  {| prog := "sh"; args := ["-c"; "command -v " ++ bin]; cwd := None; envs := [] |}.

Definition which (bin : string) : Act M string := fun m =>
  let (out, m) := spawn m (which_command bin) in
  match out with
  | NotSpawned e => (Err (Failed e), m)
  | Exited success _ stdout _ =>
      if negb success then (Err (Failed (bin ++ " not on PATH")), m)
      else (Ok (unchars (trim (chars stdout))), m)
  end.

Definition sh (what script : string) (dir : option string) : Act M unit := fun m =>
  let m := eprint m ("==> " ++ what) in
  let (out, m) := spawn m {| prog := "bash"; args := ["-euo"; "pipefail"; "-c"; script];
                             cwd := dir; envs := [] |} in
  match out with
  | NotSpawned e => (Err (Failed (what ++ ": " ++ e)), m)
  | Exited success status _ _ =>
      if success then (Ok tt, m) else (Err (Failed (what ++ ": exited " ++ status)), m)
  end.

Definition make_dir (d : string) : Act M unit := fun m =>
  let (r, m) := create_dir_all m d in
  match r with Ok _ => (Ok tt, m) | Err e => (Err (Failed e), m) end.

Definition ensure_micromamba (cache : string) : Act M string := fun m =>
  let mm := path_join cache "micromamba/bin/micromamba" in
  if is_file m mm then (Ok mm, m)
  else
    let url := if x86 then MICROMAMBA_URL_X86 else MICROMAMBA_URL in
    let dir := path_join cache "micromamba" in
    (let! _ := make_dir dir in
     let! _ := sh "fetching micromamba" (micromamba_script url) (Some dir) in
     require mm "micromamba") m.

Definition ensure_conda_env (cache prefix : string) : Act M unit := fun m =>
  if is_file m (path_join prefix "bin/clang") && is_file m (path_join prefix "bin/bison")
  then (Ok tt, m)
  else
    (let! mm := ensure_micromamba cache in
     let root := path_join cache "conda" in
     sh "creating the p4c build environment (userspace, no root)" (conda_script root mm prefix) None) m.

Definition ensure_x4c (cache : string) : Act M string := fun m =>
  let src := path_join cache "x4c-src" in
  let bin := path_join src "target/release/x4c" in
  if is_file m bin then (Ok bin, m)
  else (let! _ := sh "building x4c" (x4c_script src) None in require bin "x4c") m.

Definition ensure_p4c (prefix src : string) : Act M string := fun m =>
  let bin := path_join src "build/backends/ubpf/p4c-ubpf" in
  if is_file m bin then (Ok bin, m)
  else
    (let! _ := sh "building p4c's uBPF backend (this takes a while, once)" (p4c_script src prefix) None in
     require bin "p4c-ubpf") m.

(** One tool of the loop of [provision]. *)
Definition provision_one (cache prefix src : string) (ps : gmap Tool string) (t : Tool)
    : Act M (gmap Tool string) :=
  let! p :=
    match t with
    | ToolRustfmt => which "rustfmt"
    | ToolClang => require (path_join prefix "bin/clang") "clang from the pinned conda environment"
    | ToolX4c => ensure_x4c cache
    | ToolP4cUbpf => ensure_p4c prefix src
    end in
  ret (<[t := p]> ps).

Definition wants_conda (needed : list Tool) : bool :=
  bool_decide (ToolP4cUbpf ∈ needed) || bool_decide (ToolClang ∈ needed).

Definition provision (needed : list Tool) (cache : string) : Act M Toolchain :=
  let! _ := make_dir cache in
  let prefix := path_join cache "conda/envs/p4c" in
  let src := path_join cache "p4c-src" in
  let! _ := if wants_conda needed then ensure_conda_env cache prefix else ret tt in
  let! ps := act_fold (provision_one cache prefix src) ∅ needed in
  ret {| paths := ps; conda_prefix := prefix; p4c_src := src |}.

End provision.

(** ** What provisioning promises *)

(** Where a tool ends up under the cache; [rustfmt] is wherever [PATH] has it. *)
Definition tool_home (cache : string) (t : Tool) : option string :=
  match t with
  | ToolX4c => Some (path_join (path_join cache "x4c-src") "target/release/x4c")
  | ToolP4cUbpf => Some (path_join (path_join cache "p4c-src") "build/backends/ubpf/p4c-ubpf")
  | ToolClang => Some (path_join (path_join cache "conda/envs/p4c") "bin/clang")
  | ToolRustfmt => None
  end.

(** A tool that is found is where its home is. *)
Definition at_home (cache : string) (t : Tool) (p : string) : Prop :=
  forall h, tool_home cache t = Some h -> p = h.

Section promises.
  Context {M : Type} {HM : Host M} (x86 : bool) (cache : string).

Let prefix := path_join cache "conda/envs/p4c".
Let src := path_join cache "p4c-src".

Lemma require_Ok p what (m : M) q m' : require p what m = (Ok q, m') -> q = p /\ m' = m /\ is_file m p = true.
Proof. unfold require. destruct (is_file m p) eqn:E; [by intros [= <- <-] | done]. Qed.

Lemma ensure_x4c_Ok (m : M) p m' :
  ensure_x4c cache m = (Ok p, m') -> at_home cache ToolX4c p.
Proof.
  unfold ensure_x4c. intros H h [= <-]. destruct (is_file m _); [by injection H as <- _ |].
  apply act_bind_Ok in H as (? & m1 & _ & H). by apply require_Ok in H as [-> _].
Qed.

Lemma ensure_p4c_Ok (m : M) p m' :
  ensure_p4c prefix src m = (Ok p, m') -> at_home cache ToolP4cUbpf p.
Proof.
  unfold ensure_p4c. intros H h [= <-]. destruct (is_file m _); [by injection H as <- _ |].
  apply act_bind_Ok in H as (? & m1 & _ & H). by apply require_Ok in H as [-> _].
Qed.

Lemma provision_one_Ok ps t (m : M) ps' m' :
  provision_one cache prefix src ps t m = (Ok ps', m') ->
  exists p, ps' = <[t := p]> ps /\ at_home cache t p.
Proof.
  unfold provision_one. intros (p & m1 & Hp & [= <- _])%act_bind_Ok. exists p. split; [done |].
  destruct t; [by eapply ensure_x4c_Ok | by eapply ensure_p4c_Ok | | done].
  apply require_Ok in Hp as [-> _]. by intros h [= <-].
Qed.

Lemma provision_fold_Ok l ps (m : M) ps' m' :
  act_fold (provision_one cache prefix src) ps l m = (Ok ps', m') ->
  (forall t p, ps !! t = Some p -> at_home cache t p) ->
  (forall t p, ps' !! t = Some p -> at_home cache t p)
  /\ (forall t, t ∈ l \/ is_Some (ps !! t) -> is_Some (ps' !! t)).
Proof.
  revert ps m. induction l as [| t l IH]; intros ps m H Hps; cbn [act_fold] in H.
  { injection H as <- _. split; [done |]. intros t [Hn | Ht]; [| done].
    by apply not_elem_of_nil in Hn. }
  apply act_bind_Ok in H as (ps1 & m1 & (p & -> & Hp)%provision_one_Ok & H).
  apply IH in H as [Hall Hsome].
  - split; [done |]. intros u Hu. apply Hsome. rewrite lookup_insert_is_Some'. set_solver.
  - intros u q. destruct (decide (t = u)) as [<- |].
    + rewrite lookup_insert_eq. by intros [= <-].
    + rewrite lookup_insert_ne by done. apply Hps.
Qed.

(** What the toolchain of a successful provisioning is. *)
Lemma provision_Ok needed (m : M) tc m' :
  provision x86 needed cache m = (Ok tc, m') ->
  conda_prefix tc = prefix /\ p4c_src tc = src
  /\ (forall t p, path tc t = Some p -> at_home cache t p)
  /\ forall t, t ∈ needed -> is_Some (path tc t).
Proof.
  unfold provision. fold prefix src.
  intros (_ & m1 & _ & (_ & m2 & _ & (ps & m3 & H & [= <- _])%act_bind_Ok)%act_bind_Ok)%act_bind_Ok.
  apply provision_fold_Ok in H as [Hall Hsome]; [| intros ?? Hn; by rewrite lookup_empty in Hn].
  split_and!; [done.. |]. intros t Ht. apply Hsome. by left.
Qed.

(** Everything a target needs is on disk. *)
Definition warm (needed : list Tool) (m : M) : Prop :=
  (forall t h, t ∈ needed -> tool_home cache t = Some h -> is_file m h = true)
  /\ (wants_conda needed = true ->
      is_file m (path_join prefix "bin/clang") = true /\ is_file m (path_join prefix "bin/bison") = true).

Lemma provision_one_warm ps t (m : M) :
  t <> ToolRustfmt -> (forall h, tool_home cache t = Some h -> is_file m h = true) ->
  exists ps', provision_one cache prefix src ps t m = (Ok ps', m).
Proof.
  intros Ht Hf. unfold provision_one, act_bind.
  destruct t; [| | | done]; specialize (Hf _ eq_refl); unfold ensure_x4c, ensure_p4c, require;
    unfold prefix, src; rewrite Hf; by eexists.
Qed.

Lemma provision_fold_warm l ps (m : M) :
  ToolRustfmt ∉ l -> (forall t h, t ∈ l -> tool_home cache t = Some h -> is_file m h = true) ->
  exists ps', act_fold (provision_one cache prefix src) ps l m = (Ok ps', m).
Proof.
  revert ps. induction l as [| t l IH]; intros ps Hr Hf; cbn [act_fold]; [by eexists |].
  rewrite not_elem_of_cons in Hr. destruct Hr as [Hr Hl].
  destruct (provision_one_warm ps t m) as [ps1 E]; [congruence | intros h; apply Hf; left |].
  unfold act_bind. rewrite E. apply IH; [done |]. intros u h Hu. apply Hf. by right.
Qed.

Lemma provision_fold_warm_which l ps (m m2 : M) status out e :
  NoDup l -> ToolRustfmt ∈ l ->
  (forall t h, t ∈ l -> tool_home cache t = Some h -> is_file m h = true) ->
  spawn m (which_command "rustfmt") = (Exited true status out e, m2) ->
  (forall p, is_file m p = true -> is_file m2 p = true) ->
  exists ps', act_fold (provision_one cache prefix src) ps l m = (Ok ps', m2).
Proof.
  revert ps. induction l as [| t l IH]; intros ps Hd Hr Hf Hw Hk; cbn [act_fold];
    [by apply not_elem_of_nil in Hr |].
  apply NoDup_cons in Hd as [Ht Hd]. apply elem_of_cons in Hr as [<- | Hr].
  - assert (provision_one cache prefix src ps ToolRustfmt m
            = (Ok (<[ToolRustfmt := unchars (trim (chars out))]> ps), m2)) as E
      by (unfold provision_one, act_bind, which; by rewrite Hw).
    unfold act_bind. rewrite E. apply provision_fold_warm; [done |].
    intros u h Hu Hh. apply Hk. apply (Hf u); [by right | done].
  - destruct (provision_one_warm ps t m) as [ps1 E]; [by intros -> | intros h; apply Hf; left |].
    unfold act_bind. rewrite E. apply IH; [done.. | | done | done]. intros u h Hu. apply Hf. by right.
Qed.

(** A warm cache does nothing: when every tool a target needs is on disk,
    provisioning succeeds and fetches, creates and builds nothing: no script is
    run, the host is the one [create_dir_all] of the cache leaves, past one
    [command -v rustfmt] where rustfmt is needed.  And whatever provisioning
    went through, a toolchain it returns has a path for every tool asked for, so
    that looking one up does not panic. *)
Theorem warm_cache_does_nothing (needed : list Tool) (m m1 m2 : M) status out e :
  NoDup needed ->
  create_dir_all m cache = (Ok tt, m1) -> warm needed m1 ->
  (ToolRustfmt ∈ needed -> spawn m1 (which_command "rustfmt") = (Exited true status out e, m2)) ->
  (forall p, is_file m1 p = true -> is_file m2 p = true) ->
  exists tc,
    provision x86 needed cache m = (Ok tc, if bool_decide (ToolRustfmt ∈ needed) then m2 else m1)
    /\ forall (n : M) (tc' : Toolchain) (n' : M),
         provision x86 needed cache n = (Ok tc', n') ->
         forall t, t ∈ needed -> path tc' t = path tc t \/ t = ToolRustfmt /\ is_Some (path tc' t).
Proof.
  intros Hd Hc [Hw Hcl] Hwhich Hk.
  assert (exists tc, provision x86 needed cache m
                     = (Ok tc, if bool_decide (ToolRustfmt ∈ needed) then m2 else m1)) as [tc E].
  { unfold provision, make_dir, act_bind at 1. rewrite Hc. fold prefix src.
    assert ((if wants_conda needed then ensure_conda_env x86 cache prefix else ret tt) m1 = (Ok tt, m1)) as E.
    { destruct (wants_conda needed); [| done]. destruct (Hcl eq_refl) as [H1 H2].
      unfold ensure_conda_env. by rewrite H1, H2. }
    unfold act_bind at 1. rewrite E.
    case_bool_decide as Hr.
    - destruct (provision_fold_warm_which needed ∅ m1 m2 status out e) as [ps' Ef]; [auto..|].
      unfold act_bind. rewrite Ef. by eexists.
    - destruct (provision_fold_warm needed ∅ m1) as [ps' Ef]; [auto..|].
      unfold act_bind. rewrite Ef. by eexists. }
  exists tc. split; [done |]. intros n tc' n' E' t Ht.
  destruct (provision_Ok _ _ _ _ E) as (_ & _ & Hh & H1), (provision_Ok _ _ _ _ E') as (_ & _ & Hh' & H2).
  destruct (H1 t Ht) as [p Hp], (H2 t Ht) as [q Hq].
  pose proof (Hh _ _ Hp) as Hph. pose proof (Hh' _ _ Hq) as Hqh.
  unfold at_home in *. destruct t; cbn [tool_home] in *; rewrite Hp, Hq;
    first [right; split; [done | by eexists] | left; by rewrite (Hph _ eq_refl), (Hqh _ eq_refl)].
Qed.

End promises.

(** A host for the witness: files that exist, and a log of what was run. *)
Module Desk.

Record Desk := mkDesk { files : list string; log : list string }.

#[export] Instance desk_host : Host Desk := {
  is_file d p := bool_decide (p ∈ files d);
  create_dir_all d p := (Ok tt, d);
  spawn d c := (Exited true "exit status: 0" "/usr/bin/rustfmt " EmptyString, {| files := files d; log := prog c :: log d |});
  eprint d s := d;
}.

Definition desk : Desk :=
  {| files := ["/c/x4c-src/target/release/x4c"; "/c/p4c-src/build/backends/ubpf/p4c-ubpf";
               "/c/conda/envs/p4c/bin/clang"; "/c/conda/envs/p4c/bin/bison"]; log := [] |}.

Lemma warm_cache_witness :
  exists tc,
    provision true [ToolX4c; ToolP4cUbpf; ToolClang; ToolRustfmt] "/c" desk
    = (Ok tc, {| files := files desk; log := ["sh"] |})
    /\ path tc ToolRustfmt = Some "/usr/bin/rustfmt".
Proof.
  destruct (warm_cache_does_nothing true "/c" [ToolX4c; ToolP4cUbpf; ToolClang; ToolRustfmt]
    desk desk {| files := files desk; log := ["sh"] |} "exit status: 0" "/usr/bin/rustfmt " EmptyString) as (tc & E & _).
  - repeat (constructor; [set_solver |]). constructor.
  - reflexivity.
  - split; [| by vm_compute].
    intros t h Ht. repeat (apply elem_of_cons in Ht as [-> | Ht]; [by intros [= <-] |]).
    by apply not_elem_of_nil in Ht.
  - reflexivity.
  - done.
  - exists tc. split; [exact E |]. vm_compute in E. by injection E as <-.
Defined.

End Desk.
