(* ===== verification/Xtask.v ===== *)
(** * The generation toolchain (xtask/src/main.rs)

    Committed artifacts, the recipes that produce them, and the five modes that
    consume a recipe: [audit], [check], [generate], [reconcile], [verify].  The
    working tree and the stage directories are finite maps from paths to
    contents; compilers and the rest of the machine are the class [Forge].  A
    recipe reads the tree and writes a stage, so that by its type it cannot touch
    what is committed. *)

From S2P Require Import Prelude Bytes Text Lines Catalog Messages Toolchain.

Local Open Scope string_scope.

(** ** Modes *)

Inductive Realized := RCheck | RGenerate | RReconcile | RVerify.
Inductive Mode := MAudit | MRealized (r : Realized).

#[export] Instance Realized_eq_dec : EqDecision Realized.
Proof. solve_decision. Defined.

(** [Mode::parse] *)
Definition mode_parse (s : string) : option Mode :=
  if bool_decide (s = "audit") then Some MAudit
  else if bool_decide (s = "check") then Some (MRealized RCheck)
  else if bool_decide (s = "generate") then Some (MRealized RGenerate)
  else if bool_decide (s = "reconcile") then Some (MRealized RReconcile)
  else if bool_decide (s = "verify") then Some (MRealized RVerify)
  else None.

(** ** Targets *)

Inductive Target := X4cRust (p : Program) | UbpfObject (p : Program).
Inductive Fidelity := ByteIdentical | SourceWitness.

#[export] Instance Target_eq_dec : EqDecision Target.
Proof. solve_decision. Defined.
#[export] Instance Fidelity_eq_dec : EqDecision Fidelity.
Proof. solve_decision. Defined.

(** [Target::all] *)
Definition target_all : list Target := Program_ALL ≫= (fun p => [X4cRust p; UbpfObject p]).

Definition target_program (t : Target) : Program := match t with X4cRust p | UbpfObject p => p end.

Definition label (t : Target) : string :=
  match t with
  | X4cRust p => program_name p ++ "/x4c"
  | UbpfObject p => program_name p ++ "/ubpf"
  end.

(** [Target::source] *)
Definition target_source (t : Target) : string :=
  match t with
  | X4cRust p => source p SoftNpu
  | UbpfObject p => source p ArchUbpf
  end.

Definition committed (t : Target) : list string :=
  let n := program_name (target_program t) in
  match t with
  | X4cRust _ => ["crates/up4-x4c/src/generated/" ++ n ++ ".rs"]
  | UbpfObject _ =>
      ["crates/up4-ubpf/src/generated/" ++ n ++ ".h";
       "crates/up4-ubpf/src/generated/" ++ n ++ ".c";
       "crates/up4-ubpf/src/generated/" ++ n ++ ".o"]
  end.

Definition fidelity (t : Target) : Fidelity :=
  match t with X4cRust _ => SourceWitness | UbpfObject _ => ByteIdentical end.

(** [Target::tools] *)
Definition target_tools (t : Target) : list Tool :=
  match t with
  | X4cRust _ => [ToolX4c; ToolRustfmt]
  | UbpfObject _ => [ToolP4cUbpf; ToolClang]
  end.

(** [Vec::dedup]: runs of equal elements become one. *)
Fixpoint dedup (l : list Tool) : list Tool :=
  match l with
  | x :: r =>
      match dedup r with
      | y :: ys => if decide (x = y) then y :: ys else x :: y :: ys
      | [] => [x]
      end
  | [] => []
  end.

Definition tool_le (a b : Tool) : Prop := (tool_rank a <= tool_rank b)%nat.
#[export] Instance tool_le_dec a b : Decision (tool_le a b).
Proof. unfold tool_le. apply _. Defined.

(** The tools the selected targets need: collected, sorted, deduplicated. *)
Definition needed_tools (targets : list Target) : list Tool :=
  dedup (merge_sort tool_le (targets ≫= target_tools)).

(** ** The text of artifacts and of the witness file *)

(** [normalise_p4c_header], on the text of the file. *)
Definition stable_banner : string :=
  "/* Automatically generated by p4c-ubpf. Do not edit; see p4/generated.lock.".

Definition normalise_lines (ls : list (list ascii)) : list (list ascii) :=
  match ls with
  | l :: ls' => (if contains (chars "p4c-ubpf") l then chars stable_banner else l) :: ls'
  | [] => []
  end.

Definition normalise_p4c_header (text : string) : string :=
  unchars (join LF (normalise_lines (lines (chars text))) ++ [LF])%list.

(** [strip_dylib_shim], on the text of the file: from an attribute line up to
    the first line that is a closing brace. *)
Fixpoint strip_lines (skipping : bool) (ls : list (list ascii)) : list (list ascii) :=
  match ls with
  | [] => []
  | line :: ls =>
      if starts_with (chars "#[unsafe(no_mangle)]") (trim_start line) then strip_lines true ls
      else if skipping then strip_lines (negb (bool_decide (line = chars "}"))) ls
      else line :: strip_lines false ls
  end.

Definition strip_dylib_shim (text : string) : string :=
  unchars (unlines (strip_lines false (lines (chars text)))).

(** [fnv1a] over the bytes of a file. *)
Definition FNV_OFFSET : Z := 0xcbf29ce484222325.
Definition FNV_PRIME : Z := 0x100000001b3.

Definition fnv_step (h : Z) (b : ascii) : Z := ((Z.lxor h (code b)) * FNV_PRIME) mod 2 ^ 64.
Definition fnv1a (bytes : list ascii) : Z := fold_left fnv_step bytes FNV_OFFSET.

(** [{:016x}] *)
Definition hex16 (z : Z) : list ascii :=
  (fun i => digit_char ((z / 16 ^ Z.of_nat i) mod 16)) <$> reverse (seq 0 16).

Definition WITNESS : string := "p4/generated.lock".

(** [witness_line], from the bytes of the source. *)
Definition witness_text (t : Target) (src : string) : string :=
  label t ++ "  " ++ target_source t ++ "  " ++ unchars (hex16 (fnv1a (chars src))).

Definition witness_header : list string :=
  ["# Written by `cargo xtask generate`. Each line records the .p4";
   "# source an artifact was produced from, and a hash of that";
   "# source at the time. `cargo xtask verify` recomputes it."].

Definition witness_body (witnesses : list string) : string :=
  join_str newline witness_header ++ newline ++ join_str newline witnesses ++ newline.

(** [recorded.lines().any(|l| l.trim() == w)] *)
Definition recorded_has (recorded w : string) : bool :=
  existsb (fun l => bool_decide (trim l = chars w)) (lines (chars recorded)).

(** [{:<14}] *)
Definition pad14 (s : string) : string := s ++ unchars (replicate (14 - String.length s) " "%char).

(** ** Files *)

Abbreviation Tree := (gmap string string).

Class Forge (M : Type) := {
  (** A compiler, run with the working tree and a stage directory before it. *)
  run_in : M -> Command -> Tree -> Tree -> Spawned * (Tree * M);
  host_read : M -> string -> result string string;
  (** What [remove_dir_all] of the stages leaves. *)
  clear_stages : gmap string Tree -> gmap string Tree;
  ld_library_path : string;
  (** Files that cannot be read and directories that cannot be made, by
      absolute path, with the error; a write that fails, with what the file holds
      then, if it was opened. *)
  read_fault : string -> option string;
  mkdir_fault : string -> option string;
  write_fault : string -> option (string * option string);
}.

Definition ENOENT : string := "No such file or directory (os error 2)".

(** [Path::parent] of a path with a separator in it. *)
Fixpoint after_sep (cs : list ascii) : option (list ascii) :=
  match cs with
  | [] => None
  | c :: cs => if decide (c = "/"%char) then Some cs else after_sep cs
  end.

Definition parent (p : string) : option string :=
  (fun r => unchars (reverse r)) <$> after_sep (reverse (chars p)).

Section files.
  Context {M : Type} {FM : Forge M}.

(** [std::fs::read] of [dir/name], in a directory with files [t]. *)
Definition read_file (dir : string) (t : Tree) (name : string) : result string string :=
  match read_fault (path_join dir name) with
  | Some e => Err e
  | None => ok_or (t !! name) ENOENT
  end.

Definition read_to_string (dir : string) (t : Tree) (name : string) : result string string :=
  let? c := read_file dir t name in
  if utf8_valid (chars c) then Ok c else Err "stream did not contain valid UTF-8".

(** [unwrap_or_default] *)
Definition or_default (r : result string string) : string :=
  match r with Ok c => c | Err _ => EmptyString end.

Definition write_file (dir : string) (t : Tree) (name c : string) : result unit string * Tree :=
  match write_fault (path_join dir name) with
  | None => (Ok tt, <[name := c]> t)
  | Some (e, None) => (Err e, t)
  | Some (e, Some torn) => (Err e, <[name := torn]> t)
  end.

(** [copy] of a file whose contents are [c] to [dir/name]. *)
Definition copy (from : string) (c : result string string) (dir name : string) : Act Tree unit := fun t =>
  let to := path_join dir name in
  let made := match parent to with
              | Some d => match mkdir_fault d with Some e => Err (d ++ ": " ++ e) | None => Ok tt end
              | None => Ok tt
              end in
  match made with
  | Err e => (Err (Failed e), t)
  | Ok _ =>
      let failed e := Err (Failed ("copy " ++ from ++ " -> " ++ to ++ ": " ++ e)) in
      match c with
      | Err e => (failed e, t)
      | Ok c =>
          let (r, t) := write_file dir t name c in
          match r with Ok _ => (Ok tt, t) | Err e => (failed e, t) end
      end
  end.

End files.

(** ** Running a recipe *)

(** What a recipe acts on: its stage directory and the machine. *)
Record Shop (M : Type) := mkShop { shop_stage : Tree; shop_host : M }.
Arguments mkShop {M} _ _.
Arguments shop_stage {M} _.
Arguments shop_host {M} _.

Section realize.
  Context {M : Type} {HM : Host M} {FM : Forge M}.
  Context (root : string).

Definition on_stage {A} (a : Act Tree A) : Act (Shop M) A := fun s =>
  let (r, t) := a (shop_stage s) in (r, mkShop t (shop_host s)).

Definition lift_result {A} (r : result A string) : Act (Shop M) A := fun s =>
  match r with Ok a => (Ok a, s) | Err e => (Err (Failed e), s) end.

(** [run] *)
Definition run (tree : Tree) (c : Command) : Act (Shop M) unit := fun s =>
  let '(o, (stage, m)) := run_in (shop_host s) c tree (shop_stage s) in
  let s := mkShop stage m in
  match o with
  | NotSpawned e => (Err (Failed ("spawn " ++ str_debug (prog c) ++ ": " ++ e)), s)
  | Exited true _ _ _ => (Ok tt, s)
  | Exited false status stdout stderr =>
      (Err (Failed (str_debug (prog c) ++ " failed (" ++ status ++ ")" ++ newline ++ stdout ++ stderr)), s)
  end.

(** [tc.path(tool)] *)
Definition tool_path (tc : Toolchain) (t : Tool) : Act (Shop M) string :=
  match path tc t with Some p => ret p | None => panic end.

(** Rewriting a staged file through a function of its text. *)
Definition rewrite_staged (dir name : string) (f : string -> string) : Act (Shop M) unit :=
  let! text := fun s => lift_result (read_to_string dir (shop_stage s) name) s in
  on_stage (fun t =>
    let (r, t) := write_file dir t name (f text) in
    match r with Ok _ => (Ok tt, t) | Err e => (Err (Failed e), t) end).

Definition make_stage (dir : string) : Act (Shop M) unit :=
  match mkdir_fault dir with Some e => fail e | None => ret tt end.

(** A file of the working tree copied into the stage. *)
Definition stage_file (tree : Tree) (dir rel name : string) : Act (Shop M) unit :=
  on_stage (copy (path_join root rel) (read_file root tree rel) dir name).

Definition x4c_command (prog dir name : string) : Command :=
  {| prog := prog; args := [name ++ ".softnpu.p4"; "-o"; name ++ ".rs"]; cwd := Some dir; envs := [] |}.

Definition rustfmt_command (prog dir name : string) : Command :=
  {| prog := prog; args := ["--edition"; "2024"; path_join dir (name ++ ".rs")]; cwd := None; envs := [] |}.

Definition p4c_command (tc : Toolchain) (prog dir name src : string) : Command :=
  {| prog := prog;
     args := ["-I"; path_join root "p4/include/ubpf"; "--target"; "ubpf"; "-o";
              path_join dir (name ++ ".c"); path_join root src];
     cwd := None; envs := env ld_library_path tc |}.

Definition clang_command (prog dir name : string) : Command :=
  {| prog := prog;
     args := ["-O2"; "-target"; "bpf"; "-nostdlibinc"; "-c"; name ++ ".c"; "-o"; name ++ ".o"];
     cwd := Some dir; envs := [] |}.

(** [realize], each target's arm; a pair is the staged file and the committed
    path it stands for. *)
Definition realize_x4c (p : Program) (tc : Toolchain) (tree : Tree) (dir : string)
    : Act (Shop M) (list (string * string)) :=
  let name := program_name p in
  let target := X4cRust p in
  let! _ := make_stage dir in
  let! _ := act_fold (fun _ m => stage_file tree dir (path_join "p4/include/softnpu" m) m) tt
              ["core.p4"; "softnpu.p4"] in
  let! _ := stage_file tree dir (target_source target) (name ++ ".softnpu.p4") in
  let! x4c := tool_path tc ToolX4c in
  let! _ := run tree (x4c_command x4c dir name) in
  let! _ := rewrite_staged dir (name ++ ".rs") strip_dylib_shim in
  let! rustfmt := tool_path tc ToolRustfmt in
  let! _ := run tree (rustfmt_command rustfmt dir name) in
  ret (zip [name ++ ".rs"] (committed target)).

Definition realize_ubpf (p : Program) (tc : Toolchain) (tree : Tree) (dir : string)
    : Act (Shop M) (list (string * string)) :=
  let name := program_name p in
  let target := UbpfObject p in
  let! _ := make_stage dir in
  let! p4c := tool_path tc ToolP4cUbpf in
  let! _ := run tree (p4c_command tc p4c dir name (target_source target)) in
  let! _ := rewrite_staged dir (name ++ ".c") normalise_p4c_header in
  let header := ubpf_runtime_header tc in
  let! _ := fun s => on_stage (copy header (host_read (shop_host s) header) dir "ubpf_common.h") s in
  let! clang := tool_path tc ToolClang in
  let! _ := run tree (clang_command clang dir name) in
  ret (zip [name ++ ".h"; name ++ ".c"; name ++ ".o"] (committed target)).

Definition realize (t : Target) : Toolchain -> Tree -> string -> Act (Shop M) (list (string * string)) :=
  match t with X4cRust p => realize_x4c p | UbpfObject p => realize_ubpf p end.

(** [witness_line] *)
Definition witness_line (tree : Tree) (t : Target) : result string string :=
  match read_file root tree (target_source t) with
  | Ok src => Ok (witness_text t src)
  | Err e => Err (path_join root (target_source t) ++ ": " ++ e)
  end.

(** [stale] *)
Definition stale (t : Target) (tree : Tree) (dir : string) (stage : Tree)
    (pairs : list (string * string)) (recorded : string) : bool :=
  match fidelity t with
  | ByteIdentical =>
      existsb (fun '(produced, committed) =>
        negb (bool_decide (or_default (read_file dir stage produced)
                           = or_default (read_file root tree committed)))) pairs
  | SourceWitness =>
      match witness_line tree t with
      | Ok w => negb (recorded_has recorded w)
      | Err _ => true
      end
  end.

End realize.

(** ** The program *)

Record XReport := mkReport { checked : nat; written : list string; diverged : list string }.

Definition XReport_default : XReport := mkReport 0 [] [].

Record St (M : Type) := mkSt {
  tree : Tree;                  (** the working tree *)
  stages : gmap string Tree;    (** the stage directories *)
  host : M;
  out : list string;            (** what was printed, newest last *)
  err : list string;
}.
Arguments mkSt {M} _ _ _ _ _.
Arguments tree {M} _.
Arguments stages {M} _.
Arguments host {M} _.
Arguments out {M} _.
Arguments err {M} _.

Section program.
  Context {M : Type} {HM : Host M} {FM : Forge M}.
  (** The repository, [UP4_TOOLCHAIN_DIR], and whether the binary is for x86-64. *)
  Context (root : string) (toolchain_dir : option string) (x86 : bool).

Definition println (s : string) (st : St M) : St M :=
  mkSt (tree st) (stages st) (host st) (out st ++ [s])%list (err st).

Definition eprintln (s : string) (st : St M) : St M :=
  mkSt (tree st) (stages st) (host st) (out st) (err st ++ [s])%list.

Definition cache : string := default (path_join root ".toolchain") toolchain_dir.
Definition stage_root : string := path_join cache "stage".

(** [label.replace('/', "-")] *)
Definition stage_name (t : Target) : string :=
  unchars ((fun c => if decide (c = "/"%char) then "-"%char else c) <$> chars (label t)).

Definition on_host {A} (a : Act M A) : Act (St M) A := fun st =>
  let (r, m) := a (host st) in (r, mkSt (tree st) (stages st) m (out st) (err st)).

Definition on_tree {A} (a : Act Tree A) : Act (St M) A := fun st =>
  let (r, t) := a (tree st) in (r, mkSt t (stages st) (host st) (out st) (err st)).

Definition get {A} (f : St M -> A) : Act (St M) A := fun st => (Ok (f st), st).
Definition say (s : string) : Act (St M) unit := fun st => (Ok tt, println s st).

(** A recipe run in the stage of its target, errors prefixed with its label. *)
Definition in_stage {A} (t : Target) (a : Tree -> Act (Shop M) A) : Act (St M) A := fun st =>
  let (r, s) := a (tree st) (mkShop (default ∅ (stages st !! stage_name t)) (host st)) in
  (map_err (fun e => match e with Failed e => Failed (label t ++ ": " ++ e) | Panicked => Panicked end) r,
   mkSt (tree st) (<[stage_name t := shop_stage s]> (stages st)) (shop_host s) (out st) (err st)).

Definition staged (t : Target) (st : St M) : Tree := default ∅ (stages st !! stage_name t).

(** One artifact of the loop of [main]. *)
Definition artifact (mode : Realized) (t : Target) (dir : string) (target_is_stale : bool)
    (report : XReport) (pair : string * string) : Act (St M) XReport :=
  let '(produced, rel) := pair in
  let install :=
    let! c := get (fun st => read_file dir (staged t st) produced) in
    let! _ := on_tree (copy (path_join dir produced) c root rel) in
    ret (mkReport (checked report) (written report ++ [rel])%list (diverged report)) in
  match mode with
  | RCheck => ret report
  | RGenerate => install
  | RReconcile => if target_is_stale then install else ret report
  | RVerify =>
      if decide (fidelity t = ByteIdentical) then
        let! want := get (fun st => or_default (read_file dir (staged t st) produced)) in
        let! have := get (fun st => or_default (read_file root (tree st) rel)) in
        if decide (want = have) then ret report
        else ret (mkReport (checked report) (written report)
                   (diverged report
                    ++ [(rel ++ " (" ++ show_nat (String.length have) ++ " vs "
                         ++ show_nat (String.length want) ++ " bytes)")%string])%list)
      else ret report
  end.

(** One target of the loop of [main]; the accumulator is the report and the
    witness lines. *)
Definition step (mode : Realized) (tc : Toolchain) (recorded : string)
    (acc : XReport * list string) (t : Target) : Act (St M) (XReport * list string) :=
  let '(report, witnesses) := acc in
  let dir := path_join stage_root (stage_name t) in
  let! pairs := in_stage t (fun tree => realize root t tc tree dir) in
  let report := mkReport (S (checked report)) (written report) (diverged report) in
  let! target_is_stale := get (fun st => stale root t (tree st) dir (staged t st) pairs recorded) in
  let! line := fun st => match witness_line root (tree st) t with
                         | Ok l => (Ok l, st)
                         | Err e => (Err (Failed e), st)
                         end in
  let! report := act_fold (artifact mode t dir target_is_stale) report pairs in
  let! _ := say (pad14 (label t) ++ " " ++ target_source t) in
  ret (report, witnesses ++ [line])%list.

Definition stale_advice : string :=
  join_str newline
    ["";
     "A `.p4` source changed without its artifact being regenerated.";
     "Reconcile with:";
     "";
     "    cargo xtask generate";
     "";
     "and commit the result. CI cannot do this for you: the workflow token";
     "is read-only by design (contents: read, no persisted credentials), so";
     "a job that rewrote the tree would be a hole in the trust boundary";
     "rather than a convenience."].

(** [finish]: the exit code and what is printed. *)
Definition finish (report : XReport) (st : St M) : option nat * St M :=
  match diverged report with
  | [] => (Some 0%nat, println (newline ++ "every committed artifact matches its .p4 source") st)
  | ds =>
      let st := eprintln (newline ++ show_nat (length ds) ++ " artifact(s) are stale:") st in
      let st := fold_left (fun st d => eprintln ("  " ++ d) st) ds st in
      (Some 1%nat, eprintln stale_advice st)
  end.

Definition run_to_exit {A} (a : Act (St M) A) (prefix : string) (st : St M)
    (k : A -> St M -> option nat * St M) : option nat * St M :=
  match a st with
  | (Ok v, st) => k v st
  | (Err (Failed e), st) => (Some 1%nat, eprintln (prefix ++ e) st)
  | (Err Panicked, st) => (None, st)
  end.

Definition write_witness (body : string) : Act (St M) unit := fun st =>
  let (r, t) := write_file root (tree st) WITNESS body in
  let st := mkSt t (stages st) (host st) (out st) (err st) in
  match r with Ok _ => (Ok tt, st) | Err e => (Err (Failed (WITNESS ++ ": " ++ e)), st) end.

(** The end of [main], by mode. *)
Definition conclude (mode : Realized) (recorded : string) (report : XReport) (witnesses : list string)
    (st : St M) : option nat * St M :=
  let body := witness_body witnesses in
  match mode with
  | RCheck => (Some 0%nat, println (newline ++ show_nat (checked report) ++ " source(s) compile") st)
  | RGenerate =>
      run_to_exit (write_witness body) "" st (fun _ st =>
        let st := fold_left (fun st w => println ("wrote " ++ w) st) (written report) st in
        (Some 0%nat, println ("wrote " ++ WITNESS) st))
  | RReconcile =>
      let ending ws st :=
        match ws with
        | [] => (Some 0%nat, println (newline ++ "nothing to reconcile: every artifact is current") st)
        | _ => (Some 0%nat, fold_left (fun st w => println ("reconciled " ++ w) st) ws st)
        end in
      if decide (body = recorded) then ending (written report) st
      else run_to_exit (write_witness body) "" st (fun _ st => ending (written report ++ [WITNESS])%list st)
  | RVerify =>
      let recorded := or_default (read_to_string root (tree st) WITNESS) in
      let changed w :=
        if recorded_has recorded w then None
        else Some (default "?" (unchars <$> head (split_whitespace (chars w)))
                   ++ ": source changed since it was generated") in
      finish (mkReport (checked report) (written report)
                (diverged report ++ omap changed witnesses)%list) st
  end.

(** [audit] *)
Fixpoint audit_targets (recorded : string) (ds : list string) (targets : list Target) (st : St M)
    : option nat * St M :=
  match targets with
  | [] => finish (mkReport 0 [] ds) st
  | t :: targets =>
      match witness_line root (tree st) t with
      | Ok w =>
          if recorded_has recorded w
          then audit_targets recorded ds targets (println (pad14 (label t) ++ " " ++ target_source t) st)
          else audit_targets recorded (ds ++ [(label t ++ ": " ++ target_source t)%string])%list targets st
      | Err e => (Some 1%nat, eprintln e st)
      end
  end.

Definition audit (targets : list Target) (st : St M) : option nat * St M :=
  match read_to_string root (tree st) WITNESS with
  | Ok recorded => audit_targets recorded [] targets st
  | Err e => (Some 1%nat, eprintln (WITNESS ++ ": " ++ e ++ newline ++ "Run `cargo xtask generate` to create it.") st)
  end.

Definition usage : string :=
  join_str newline
    ["usage: cargo xtask <audit|check|generate|reconcile|verify> [program]";
     "";
     "audit     no compilers: are the .p4 sources the ones the";
     "committed artifacts were generated from?";
     "check     compile every source, keep nothing";
     "generate  regenerate committed artifacts from the .p4 sources";
     "reconcile regenerate, but write only what is actually stale";
     "verify    fail if any committed artifact differs from its source";
     ""].

(** The targets a run is about. *)
Definition selected (only : option Program) : list Target :=
  match only with
  | None => target_all
  | Some p => filter (fun t => target_program t = p) target_all
  end.

(** [main] from the provisioned toolchain on. *)
Definition build (mode : Realized) (targets : list Target) (tc : Toolchain) (st : St M) : option nat * St M :=
  let st := mkSt (tree st) (clear_stages (stages st)) (host st) (out st) (err st) in
  let recorded := or_default (read_to_string root (tree st) WITNESS) in
  run_to_exit (act_fold (step mode tc recorded) (XReport_default, []) targets) "" st
    (fun '(report, witnesses) st => conclude mode recorded report witnesses st).

Definition main (args : list string) (st : St M) : option nat * St M :=
  match args !! 0%nat ≫= mode_parse with
  | None => (Some 2%nat, eprintln usage st)
  | Some mode =>
      let targets := selected (args !! 1%nat ≫= program_parse) in
      match mode with
      | MAudit => audit targets st
      | MRealized mode =>
          run_to_exit (on_host (provision x86 (needed_tools targets) cache)) "toolchain: " st
            (build mode targets)
      end
  end.

End program.
