(* ===== verification/Artifacts.v ===== *)
(** * What the toolchain keeps of a checkout

    Theorems on [Xtask]: the modes that only look leave the tree alone; what
    [generate] and [reconcile] leave is what [audit], [verify] and a later
    [reconcile] find current; an edit of one byte of a source is found by
    [audit]; a run for one program forgets what was recorded for the other. *)

From S2P Require Import Prelude Bytes Text Lines Catalog Messages Toolchain Xtask.

Local Open Scope string_scope.

(** ** The witness file as text *)

Lemma digit_char_solid d : (0 <= d < 16)%Z -> solid (digit_char d) = true.
Proof.
  intros H. assert (exists n : nat, d = Z.of_nat n /\ (n < 16)%nat) as (n & -> & Hn)
    by (exists (Z.to_nat d); lia).
  do 16 (destruct n as [| n]; [reflexivity |]). lia.
Qed.

Lemma hex16_solid z : Forall (fun c => solid c = true) (hex16 z).
Proof.
  apply Forall_fmap, Forall_forall. intros i _. cbn. apply digit_char_solid.
  apply Z.mod_pos_bound. lia.
Qed.

Lemma length_hex16 z : length (hex16 z) = 16%nat.
Proof. unfold hex16. by rewrite length_fmap, length_reverse, length_seq. Qed.

Lemma chars_app a b : chars (a ++ b) = (chars a ++ chars b)%list.
Proof. induction a as [| c a IH]; [done |]. change (c :: chars (a ++ b) = c :: (chars a ++ chars b))%list. by rewrite IH. Qed.

(** Printable ASCII. *)
Definition plain (c : ascii) : bool := in_range 32 126 c.

Lemma solid_plain c : solid c = true -> plain c = true.
Proof. unfold solid, plain, in_range. lia. Qed.

Lemma plain_clean l : Forall (fun c => plain c = true) l -> clean_line l.
Proof.
  intros H. rewrite Forall_forall in H. split; [intros Hin; by specialize (H _ Hin) |].
  intros Hl. rewrite last_lookup in Hl. apply list_elem_of_lookup_2 in Hl.
  by specialize (H _ Hl).
Qed.

Lemma utf8_ascii l : Forall (fun c => in_range 0 127 c = true) l -> utf8_valid l = true.
Proof. induction 1 as [| c l Hc _ IH]; [done |]. cbn [utf8_valid]. by rewrite Hc. Qed.

Definition witness_stem (t : Target) : list ascii := chars (label t ++ "  " ++ target_source t ++ "  ").

Lemma chars_witness_text t src :
  chars (witness_text t src) = (witness_stem t ++ hex16 (fnv1a (chars src)))%list.
Proof.
  unfold witness_text, witness_stem. rewrite !chars_app, chars_unchars. by rewrite <-!app_assoc.
Qed.

Lemma witness_plain t src : Forall (fun c => plain c = true) (chars (witness_text t src)).
Proof.
  rewrite chars_witness_text. apply Forall_app. split.
  - refine (bool_decide_unpack _ _). by destruct t as [[] | []].
  - eapply Forall_impl; [apply hex16_solid |]. apply solid_plain.
Qed.

Lemma witness_trim t src : trim (chars (witness_text t src)) = chars (witness_text t src).
Proof.
  rewrite chars_witness_text.
  pose proof (hex16_solid (fnv1a (chars src))) as Hs. pose proof (length_hex16 (fnv1a (chars src))) as Hl.
  destruct (last (hex16 (fnv1a (chars src)))) as [d |] eqn:Ed.
  2: { apply last_None in Ed. by rewrite Ed in Hl. }
  eapply (trim_solid _ "l"%char d).
  - by destruct t as [[] | []].
  - rewrite last_app. by rewrite Ed.
  - done.
  - rewrite last_lookup in Ed. rewrite Forall_lookup in Hs. by eapply Hs.
Qed.

(** A line of the witness file. *)
Definition is_witness (w : string) : Prop := exists t src, w = witness_text t src.

Lemma join_str_newline ls :
  ls <> [] -> chars (join_str newline ls ++ newline) = unlines (chars <$> ls).
Proof.
  intros Hn. induction ls as [| l ls IH]; [done |]. destruct ls as [| l' ls].
  - cbn. rewrite chars_app. by rewrite app_nil_r.
  - change (join_str newline (l :: l' :: ls)) with (l ++ newline ++ join_str newline (l' :: ls)).
    rewrite fmap_cons. unfold unlines. cbn [mbind list_bind]. fold (unlines (chars <$> l' :: ls)).
    specialize (IH ltac:(done)). rewrite chars_app in IH.
    rewrite !chars_app, <-!app_assoc. f_equal.
    change (chars newline) with [LF] in *. by rewrite IH.
Qed.

Lemma chars_body ws : ws <> [] -> chars (witness_body ws) = unlines (chars <$> (witness_header ++ ws)%list).
Proof.
  intros Hn. unfold witness_body.
  assert (chars ((join_str newline witness_header ++ newline) ++ join_str newline ws ++ newline)
          = unlines (chars <$> (witness_header ++ ws)%list)) as <-.
  { rewrite chars_app, !join_str_newline by done. rewrite fmap_app. unfold unlines. by rewrite bind_app. }
  rewrite !chars_app. by rewrite <-!app_assoc.
Qed.

Lemma witnesses_plain ws :
  Forall is_witness ws -> Forall (Forall (fun c => plain c = true)) (chars <$> (witness_header ++ ws)%list).
Proof.
  intros H. rewrite fmap_app. apply Forall_app. split; [refine (bool_decide_unpack _ _); reflexivity |].
  apply Forall_fmap. eapply Forall_impl; [exact H |]. intros w (t & src & ->). apply witness_plain.
Qed.

Lemma lines_body ws :
  Forall is_witness ws -> ws <> [] ->
  lines (chars (witness_body ws)) = chars <$> (witness_header ++ ws)%list.
Proof.
  intros H Hn. rewrite chars_body by done. apply lines_unlines.
  eapply Forall_impl; [by apply witnesses_plain |]. apply plain_clean.
Qed.

Lemma utf8_body ws : Forall is_witness ws -> ws <> [] -> utf8_valid (chars (witness_body ws)) = true.
Proof.
  intros H Hn. rewrite chars_body by done. apply utf8_ascii. pose proof (witnesses_plain ws H) as Hp.
  induction Hp as [| l ls Hl _ IH]; [constructor |].
  unfold unlines in *. cbn [mbind list_bind]. apply Forall_app. split; [| exact IH].
  apply Forall_app. split; [| by constructor].
  eapply Forall_impl; [exact Hl |]. intros c. unfold plain, in_range. lia.
Qed.

Lemma chars_inj a b : chars a = chars b -> a = b.
Proof. intros H. by rewrite <-(unchars_chars a), H, unchars_chars. Qed.

(** The recorded lines are the witness lines written, whatever white space is
    trimmed. *)
Lemma recorded_has_body ws w :
  Forall is_witness ws -> ws <> [] -> is_witness w ->
  recorded_has (witness_body ws) w = bool_decide (w ∈ ws).
Proof.
  intros H Hn (t & src & ->). unfold recorded_has. rewrite lines_body by done.
  apply Bool.eq_iff_eq_true. rewrite existsb_exists, bool_decide_eq_true. split.
  - intros (l & Hl & E%bool_decide_eq_true). apply list_elem_of_In in Hl.
    apply list_elem_of_fmap in Hl as (v & -> & [Hv | Hv]%elem_of_app).
    + exfalso. revert E.
      repeat (apply elem_of_cons in Hv as [-> | Hv]; [| ]); [..| by apply not_elem_of_nil in Hv];
        rewrite chars_witness_text; by destruct t as [[] | []].
    + rewrite Forall_forall in H. destruct (H v Hv) as (u & s & ->).
      rewrite witness_trim in E. by apply chars_inj in E as <-.
  - intros Hw. exists (chars (witness_text t src)). split.
    + apply list_elem_of_In, list_elem_of_fmap_2, elem_of_app. by right.
    + by rewrite witness_trim, bool_decide_true.
Qed.

(** ** The hash *)

Lemma fnv_step_range h b : (0 <= fnv_step h b < 2 ^ 64)%Z.
Proof. apply Z.mod_pos_bound. lia. Qed.

Lemma code_range c : (0 <= code c < 256)%Z.
Proof. unfold code. pose proof (Ascii.nat_ascii_bounded c). lia. Qed.

Lemma lxor_range w a b :
  (0 <= w -> 0 <= a < 2 ^ w -> 0 <= b < 2 ^ w -> 0 <= Z.lxor a b < 2 ^ w)%Z.
Proof.
  intros Hw Ha Hb. assert (0 <= Z.lxor a b)%Z as H0 by (apply Z.lxor_nonneg; lia). split; [done |].
  destruct (Z.eq_dec (Z.lxor a b) 0) as [-> | Hn]; [lia |]. apply Z.log2_lt_pow2; [lia |].
  pose proof (Z.log2_lxor a b ltac:(lia) ltac:(lia)).
  destruct (Z.eq_dec a 0) as [-> |]; [rewrite Z.lxor_0_l in *; apply Z.log2_lt_pow2; lia |].
  destruct (Z.eq_dec b 0) as [-> |]; [rewrite Z.lxor_0_r in *; apply Z.log2_lt_pow2; lia |].
  assert (Z.log2 a < w)%Z by (apply Z.log2_lt_pow2; lia).
  assert (Z.log2 b < w)%Z by (apply Z.log2_lt_pow2; lia). lia.
Qed.

(** The prime is odd, so multiplying by it loses nothing. *)
Lemma fnv_mul_inj x y :
  (0 <= x < 2 ^ 64 -> 0 <= y < 2 ^ 64 -> (x * FNV_PRIME) mod 2 ^ 64 = (y * FNV_PRIME) mod 2 ^ 64 -> x = y)%Z.
Proof.
  intros Hx Hy E.
  assert (((x * FNV_PRIME) * 0xce965057aff6957b) mod 2 ^ 64
          = ((y * FNV_PRIME) * 0xce965057aff6957b) mod 2 ^ 64)%Z as E'
    by (rewrite <-(Z.mul_mod_idemp_l (x * FNV_PRIME)), <-(Z.mul_mod_idemp_l (y * FNV_PRIME)), E by lia; done).
  rewrite <-!Z.mul_assoc in E'.
  rewrite <-(Z.mul_mod_idemp_r x), <-(Z.mul_mod_idemp_r y) in E' by lia.
  assert ((FNV_PRIME * 0xce965057aff6957b) mod 2 ^ 64 = 1)%Z as Hinv by reflexivity.
  rewrite Hinv, !Z.mul_1_r, !Z.mod_small in E' by lia. done.
Qed.

Lemma lxor_cancel_l a b c : Z.lxor a b = Z.lxor a c -> b = c.
Proof.
  intros E. apply (f_equal (Z.lxor a)) in E.
  by rewrite <-!Z.lxor_assoc, Z.lxor_nilpotent, !Z.lxor_0_l in E.
Qed.

Lemma fnv_step_inj h h' b b' :
  (0 <= h < 2 ^ 64)%Z -> (0 <= h' < 2 ^ 64)%Z ->
  fnv_step h b = fnv_step h' b' -> Z.lxor h (code b) = Z.lxor h' (code b').
Proof.
  intros Hh Hh' E. pose proof (code_range b). pose proof (code_range b').
  apply fnv_mul_inj in E; [done | apply lxor_range; lia..].
Qed.

Lemma code_inj b c : code b = code c -> b = c.
Proof. intros E. by rewrite <-(chr_code b), E, chr_code. Qed.

Lemma fnv_fold_range bs h : (0 <= h < 2 ^ 64)%Z -> (0 <= fold_left fnv_step bs h < 2 ^ 64)%Z.
Proof. revert h. induction bs as [| b bs IH]; intros h Hh; [done |]. apply IH, fnv_step_range. Qed.

Lemma fnv_fold_inj bs h h' :
  (0 <= h < 2 ^ 64)%Z -> (0 <= h' < 2 ^ 64)%Z ->
  fold_left fnv_step bs h = fold_left fnv_step bs h' -> h = h'.
Proof.
  revert h h'. induction bs as [| b bs IH]; intros h h' Hh Hh' E; [done |]. cbn [fold_left] in E.
  apply IH in E; [| apply fnv_step_range..]. apply fnv_step_inj in E; [| done..].
  rewrite !(Z.lxor_comm _ (code b)) in E. by apply lxor_cancel_l in E.
Qed.

(** Two files that differ in one byte have different hashes. *)
Lemma fnv1a_one_byte pre b c post :
  b <> c -> fnv1a (pre ++ b :: post)%list <> fnv1a (pre ++ c :: post)%list.
Proof.
  intros Hbc E. unfold fnv1a in E. rewrite !fold_left_app in E. cbn [fold_left] in E.
  assert (0 <= fold_left fnv_step pre FNV_OFFSET < 2 ^ 64)%Z as Hr by by apply fnv_fold_range.
  apply fnv_fold_inj in E; [| apply fnv_step_range..].
  apply fnv_step_inj in E; [| done..]. apply lxor_cancel_l, code_inj in E. done.
Qed.

Lemma digit_char_eq d e : (0 <= d < 16)%Z -> (0 <= e < 16)%Z -> digit_char d = digit_char e -> d = e.
Proof.
  intros Hd He E. pose proof (to_digit_digit_char 16 d Hd ltac:(lia)) as H1.
  rewrite E, to_digit_digit_char in H1 by lia. by injection H1.
Qed.

Lemma hex16_inj a b : (0 <= a < 2 ^ 64)%Z -> (0 <= b < 2 ^ 64)%Z -> hex16 a = hex16 b -> a = b.
Proof.
  intros Ha Hb E. apply Z.bits_inj'. intros n Hn.
  destruct (Z_lt_ge_dec n 64) as [Hlt | Hge].
  2: { by rewrite <-(Z.mod_small a (2 ^ 64)), <-(Z.mod_small b (2 ^ 64)), !Z.mod_pow2_bits_high by lia. }
  set (i := Z.to_nat (n / 4)).
  assert (Z.of_nat i = n / 4)%Z as Hi by (unfold i; rewrite Z2Nat.id; [done | apply Z.div_pos; lia]).
  assert (i < 16)%nat as Hi16 by (enough (n / 4 < 16)%Z by lia; apply Z.div_lt_upper_bound; lia).
  assert ((a / 16 ^ Z.of_nat i) mod 16 = (b / 16 ^ Z.of_nat i) mod 16)%Z as Ed.
  { assert (hex16 a !! (15 - i)%nat = hex16 b !! (15 - i)%nat) as El by by rewrite E.
    unfold hex16 in El. rewrite !list_lookup_fmap in El.
    rewrite reverse_lookup in El by (rewrite length_seq; lia). rewrite length_seq in El.
    replace (16 - S (15 - i))%nat with i in El by lia.
    rewrite lookup_seq_lt in El by lia. cbn [fmap option_fmap option_map] in El. injection El as El.
    apply digit_char_eq in El; [done | apply Z.mod_pos_bound; lia..]. }
  apply (f_equal (fun z => Z.testbit z (n mod 4))) in Ed. revert Ed.
  assert (16 ^ Z.of_nat i = 2 ^ (4 * (n / 4)))%Z as Hp by (rewrite Hi, Z.pow_mul_r; [done | lia | apply Z.div_pos; lia]).
  rewrite Hp. change 16%Z with (2 ^ 4)%Z. pose proof (Z.mod_pos_bound n 4 ltac:(lia)).
  assert (0 <= n / 4)%Z by (apply Z.div_pos; lia).
  rewrite !Z.mod_pow2_bits_low, !Z.div_pow2_bits by lia.
  replace (n mod 4 + 4 * (n / 4))%Z with n by (pose proof (Z.div_mod n 4); lia). done.
Qed.

(** Two sources one byte apart are told apart by their witness lines. *)
Lemma witness_text_one_byte t pre b c post :
  b <> c ->
  witness_text t (unchars (pre ++ b :: post)) <> witness_text t (unchars (pre ++ c :: post)).
Proof.
  intros Hbc E. apply (f_equal chars) in E. rewrite !chars_witness_text, !chars_unchars in E.
  apply app_inv_head in E. apply hex16_inj in E; [by apply fnv1a_one_byte in E |..];
    by apply fnv_fold_range.
Qed.

(** ** Modes that only look *)

Section looking.
Context {M : Type} {HM : Host M} {FM : Forge M}.
Context (root : string) (toolchain_dir : option string) (x86 : bool).

(** The working tree is the one it was. *)
Definition same_tree (t : Tree) (st : St M) : Prop := tree st = t.

Lemma Keeps_get {A} P (f : St M -> A) : Keeps P (get f).
Proof. by intros st. Qed.

Lemma Keeps_say t s : Keeps (same_tree t) (say (M := M) s).
Proof. by intros st. Qed.

Lemma Keeps_in_stage {A} t tg (a : Tree -> Act (Shop M) A) : Keeps (same_tree t) (in_stage tg a).
Proof. intros st Hst. unfold in_stage. by destruct (a _ _) as [r s]. Qed.

Lemma Keeps_on_host {A} t (a : Act M A) : Keeps (same_tree t) (on_host a).
Proof. intros st Hst. unfold on_host. by destruct (a _) as [r s]. Qed.

Definition looks (mode : Realized) : Prop := mode = RCheck \/ mode = RVerify.

Lemma artifact_looks mode t tg dir s report pair :
  looks mode -> Keeps (same_tree t) (artifact (M := M) root mode tg dir s report pair).
Proof.
  intros [-> | ->]; destruct pair as [produced rel]; cbn [artifact]; [apply Keeps_ret |].
  case_decide; [| apply Keeps_ret].
  apply Keeps_bind; [apply Keeps_get |]. intros want. apply Keeps_bind; [apply Keeps_get |]. intros have.
  case_decide; apply Keeps_ret.
Qed.

Lemma step_looks mode tc rec acc t tg :
  looks mode -> Keeps (same_tree t) (step (M := M) root toolchain_dir mode tc rec acc tg).
Proof.
  intros Hm. destruct acc as [report ws]. unfold step.
  apply Keeps_bind; [apply Keeps_in_stage |]. intros pairs.
  apply Keeps_bind; [apply Keeps_get |]. intros s.
  apply Keeps_bind; [intros st Hst; by destruct (witness_line _ _ _) |]. intros line.
  apply Keeps_bind; [apply Keeps_fold; intros; by apply artifact_looks |]. intros report'.
  apply Keeps_bind; [apply Keeps_say |]. intros ?. apply Keeps_ret.
Qed.

Lemma prints_keep {A} (f : A -> St M -> St M) t l :
  (forall x st, same_tree t st -> same_tree t (f x st)) ->
  forall st, same_tree t st -> same_tree t (fold_left (fun st x => f x st) l st).
Proof. intros Hf. induction l as [| x l IH]; intros st Hst; [done |]. by apply IH, Hf. Qed.

Lemma finish_keeps t report st : same_tree t st -> same_tree t (snd (finish (M := M) report st)).
Proof.
  intros H. unfold finish. destruct (diverged report) as [| d ds] eqn:E; [done |].
  cbn [snd]. unfold same_tree, eprintln at 1. cbn [tree].
  by apply (prints_keep (fun x st => eprintln ("  " ++ x) st)).
Qed.

Lemma run_to_exit_keeps {A} t (a : Act (St M) A) pre k st :
  Keeps (same_tree t) a -> (forall v s, same_tree t s -> same_tree t (snd (k v s))) ->
  same_tree t st -> same_tree t (snd (run_to_exit a pre st k)).
Proof.
  intros Ha Hk Hst. unfold run_to_exit. specialize (Ha st Hst).
  destruct (a st) as [[v | [e |]] s]; [by apply Hk | done..].
Qed.

Lemma audit_keeps t targets st : same_tree t st -> same_tree t (snd (audit (M := M) root targets st)).
Proof.
  unfold audit. destruct (read_to_string _ _ _) as [recorded | e]; [| done]. generalize (@nil string).
  revert st. induction targets as [| tg targets IH]; intros st ds Hst; [by apply finish_keeps |].
  cbn [audit_targets]. destruct (witness_line _ _ _) as [w | e]; [| done].
  destruct (recorded_has recorded w); by apply IH.
Qed.

Lemma build_looks t mode targets tc st :
  looks mode -> same_tree t st -> same_tree t (snd (build (M := M) root toolchain_dir mode targets tc st)).
Proof.
  intros Hm Hst. unfold build. apply run_to_exit_keeps; [| | done].
  - apply Keeps_fold. intros acc tg. by apply step_looks.
  - intros [report ws] s Hs. destruct Hm as [-> | ->]; [done | by apply finish_keeps].
Qed.

(** [audit], [check] and [verify], and a call that names no mode, leave the
    working tree exactly as it was, whatever the compilers do, whichever files
    cannot be read, and however the run ends. *)
Theorem looking_changes_nothing (args : list string) (st : St M) :
  args !! 0%nat ∉ [Some "generate"; Some "reconcile"] ->
  tree (snd (main root toolchain_dir x86 args st)) = tree st.
Proof.
  intros Ha. unfold main. destruct args as [| a args]; [done |]. cbn [lookup list_lookup mbind option_bind] in *.
  assert (a <> "generate" /\ a <> "reconcile") as [H1 H2] by (split; intros ->; set_solver).
  unfold mode_parse. rewrite (bool_decide_false (a = "generate")), (bool_decide_false (a = "reconcile")) by done.
  assert (forall mode, looks mode -> forall tgs, tree (snd
      (run_to_exit (on_host (provision x86 (needed_tools tgs) (cache root toolchain_dir))) "toolchain: " st
         (build root toolchain_dir mode tgs))) = tree st) as Hb.
  { intros mode Hm tgs. apply (run_to_exit_keeps (tree st)); [apply Keeps_on_host | | done].
    intros tc s Hs. by apply build_looks. }
  repeat case_bool_decide; [by apply (audit_keeps (tree st)) | apply Hb; by left | apply Hb; by right | done].
Qed.

End looking.

(** ** What the sources determine *)

Definition is_p4 (k : string) : bool := starts_with (reverse (chars ".p4")) (reverse (chars k)).

(** The P4 files of a tree: programs, and the architectures they include. *)
Definition p4_sources (t : Tree) : Tree := filter (fun kv => is_p4 kv.1 = true) t.

(** The tree's own paths: artifacts and the witness file are not P4 files, and
    no artifact belongs to two targets. *)
Lemma committed_not_p4 t rel : rel ∈ committed t -> is_p4 rel = false.
Proof.
  destruct t as [[] | []]; cbn [committed target_program]; intros H;
    repeat (apply elem_of_cons in H as [-> | H]; [reflexivity |]); by apply not_elem_of_nil in H.
Qed.

Lemma committed_not_witness t : WITNESS ∉ committed t.
Proof. refine (bool_decide_unpack _ _). by destruct t as [[] | []]. Qed.

Lemma committed_NoDup t : NoDup (committed t).
Proof. refine (bool_decide_unpack _ _). by destruct t as [[] | []]. Qed.

Lemma committed_disjoint t u rel : rel ∈ committed t -> rel ∈ committed u -> t = u.
Proof.
  intros Ht Hu. assert (existsb (fun r => bool_decide (r ∈ committed u)) (committed t) = true) as H.
  { apply existsb_exists. exists rel. split; [by apply list_elem_of_In | by apply bool_decide_eq_true]. }
  revert H. clear. destruct t as [[] | []], u as [[] | []]; by vm_compute.
Qed.

Lemma target_source_p4 t : is_p4 (target_source t) = true.
Proof. by destruct t as [[] | []]. Qed.

Lemma p4_sources_agree t t' :
  (forall k, is_p4 k = true -> t !! k = t' !! k) -> p4_sources t = p4_sources t'.
Proof.
  intros H. apply map_eq. intros k. unfold p4_sources.
  destruct (is_p4 k) eqn:E.
  - specialize (H k E). destruct (t !! k) as [c |] eqn:Ek.
    + rewrite (map_lookup_filter_Some_2 _ t k c) by done.
      by rewrite (map_lookup_filter_Some_2 _ t' k c) by done.
    + by rewrite !map_lookup_filter_None_2 by (left; done).
  - rewrite !map_lookup_filter_None_2; [done | right; intros ? _ Hp; change (is_p4 k = true) in Hp; congruence..].
Qed.

Lemma p4_sources_lookup t t' k : p4_sources t = p4_sources t' -> is_p4 k = true -> t !! k = t' !! k.
Proof.
  intros H Hk. assert (forall u c, p4_sources u !! k = Some c <-> u !! k = Some c) as Hf.
  { intros u c. unfold p4_sources. rewrite map_lookup_filter_Some.
    split; [intros [Hc _]; exact Hc | intros Hc; split; [exact Hc | exact Hk]]. }
  apply option_eq. intros c. rewrite <-(Hf t), <-(Hf t'), H. reflexivity.
Qed.

(** The compilers of the pinned toolchain under [cache], as their makers and the
    recipe's comments describe them: p4c writes its C, below one banner line that
    names it, and its header, from the P4 sources alone; clang writes an object
    from the C, the header and the runtime header beside it; the runtime header
    is that of the pinned checkout.  Of x4c, whose output order varies, nothing
    is said. *)
Class ForgeLaws (M : Type) {FM : Forge M} (root cache : string) := {
  p4c_code : Program -> Tree -> string;
  p4c_header : Program -> Tree -> string;
  clang_object : string -> string -> string -> string;
  runtime_header : string;
  p4c_law : forall m tc prog dir t stage p status o e stage' m',
    tool_home cache ToolP4cUbpf = Some prog ->
    run_in m (p4c_command root tc prog dir (program_name p) (target_source (UbpfObject p))) t stage
      = (Exited true status o e, (stage', m')) ->
    exists banner,
      contains (chars "p4c-ubpf") (chars banner) = true /\ clean_line (chars banner)
      /\ stage' !! (program_name p ++ ".c") = Some (banner ++ newline ++ p4c_code p (p4_sources t))
      /\ stage' !! (program_name p ++ ".h") = Some (p4c_header p (p4_sources t));
  clang_law : forall m prog dir t stage p status o e stage' m' c h r,
    tool_home cache ToolClang = Some prog ->
    run_in m (clang_command prog dir (program_name p)) t stage = (Exited true status o e, (stage', m')) ->
    stage !! (program_name p ++ ".c") = Some c -> stage !! (program_name p ++ ".h") = Some h ->
    stage !! "ubpf_common.h" = Some r ->
    stage' !! (program_name p ++ ".c") = Some c /\ stage' !! (program_name p ++ ".h") = Some h
    /\ stage' !! (program_name p ++ ".o") = Some (clang_object c h r);
  header_law : forall (m : M) c,
    host_read m (path_join (path_join cache "p4c-src") "backends/ubpf/runtime/ubpf_common.h") = Ok c ->
    c = runtime_header;
}.

(** The banner line replaced. *)
Definition with_banner (code : string) : string :=
  unchars (join LF (chars stable_banner :: lines (chars code)) ++ [LF])%list.

Lemma normalise_banner banner code :
  contains (chars "p4c-ubpf") (chars banner) = true -> clean_line (chars banner) ->
  normalise_p4c_header (banner ++ newline ++ code) = with_banner code.
Proof.
  intros Hc Hl. unfold normalise_p4c_header, with_banner. rewrite !chars_app.
  change (chars newline ++ chars code)%list with (LF :: chars code).
  rewrite lines_line by done. unfold normalise_lines. by rewrite Hc.
Qed.

Section current.
Context {M : Type} {HM : Host M} {FM : Forge M}.
Context (root : string) (toolchain_dir : option string) (x86 : bool).
Let cdir := cache root toolchain_dir.
Context {FL : ForgeLaws M root cdir}.

(** What the shell sees of a run. *)
Definition exit_code (args : list string) (st : St M) : option nat := fst (main root toolchain_dir x86 args st).

(** What a target's committed files should hold: the header, the code, the object. *)
Definition want (p : Program) (src : Tree) : list string :=
  let h := p4c_header p src in
  let c := with_banner (p4c_code p src) in
  [h; c; clang_object c h runtime_header].

Definition fresh (tr : Tree) (t : Target) : Prop :=
  match t with
  | X4cRust _ => True
  | UbpfObject p => (fun rel => default EmptyString (tr !! rel)) <$> committed t = want p (p4_sources tr)
  end.

(** A checkout in order, for some targets: their artifacts are what the sources
    give, and the witness file is theirs. *)
Definition current (targets : list Target) (tr : Tree) : Prop :=
  (forall t, t ∈ targets -> fresh tr t)
  /\ exists ws, rmapM (witness_line root tr) targets = Ok ws /\ tr !! WITNESS = Some (witness_body ws).

(** The tools are the cache's. *)
Definition tools_of (tc : Toolchain) : Prop :=
  p4c_src tc = path_join cdir "p4c-src"
  /\ forall t p, path tc t = Some p -> at_home cdir t p.

Lemma write_file_Ok dir (t : Tree) name c t' : write_file dir t name c = (Ok tt, t') -> t' = <[name := c]> t.
Proof. unfold write_file. destruct (write_fault _) as [[e [x |]] |]; [done | done | by intros [= <-]]. Qed.

Lemma copy_Ok from c dir name (t t' : Tree) :
  copy from c dir name t = (Ok tt, t') -> exists x, c = Ok x /\ t' = <[name := x]> t.
Proof.
  unfold copy. destruct (match parent _ with Some _ => _ | None => _ end); [| done].
  destruct c as [x | e]; [| done].
  destruct (write_file dir t name x) as [[[] | e] t1] eqn:E; [| done]. intros [= <-].
  apply write_file_Ok in E. eauto.
Qed.

Lemma on_stage_Ok {A} (a : Act Tree A) (s : Shop M) v s' :
  on_stage a s = (Ok v, s') -> a (shop_stage s) = (Ok v, shop_stage s') /\ shop_host s' = shop_host s.
Proof. unfold on_stage. destruct (a (shop_stage s)) as [r t]. by intros [= -> <-]. Qed.

Lemma rewrite_staged_Ok dir name f (s : Shop M) s' :
  rewrite_staged dir name f s = (Ok tt, s') ->
  exists x, shop_stage s !! name = Some x /\ shop_stage s' = <[name := f x]> (shop_stage s).
Proof.
  unfold rewrite_staged. intros (x & s1 & Hx & H)%act_bind_Ok.
  unfold lift_result in Hx. destruct (read_to_string _ _ _) as [y | e] eqn:E; [| done]. injection Hx as <- <-.
  unfold read_to_string, read_file in E. destruct (read_fault _); [done |].
  destruct (shop_stage s !! name) as [z |]; [| done]. cbn in E.
  destruct (utf8_valid _); [| done]. injection E as <-.
  apply on_stage_Ok in H as [H _].
  destruct (write_file _ _ _ _) as [[[] | e] t'] eqn:Ew; [| done]. injection H as <-.
  apply write_file_Ok in Ew. eauto.
Qed.

Lemma run_Ok (tr : Tree) c (s s' : Shop M) :
  run tr c s = (Ok tt, s') ->
  exists status o e, run_in (shop_host s) c tr (shop_stage s) = (Exited true status o e, (shop_stage s', shop_host s')).
Proof.
  unfold run. destruct (run_in _ _ _ _) as [o [st m]]. destruct o as [e | [] status o e]; [done | | done].
  intros [= <-]. eauto.
Qed.

Lemma tool_path_Ok tc t (s : Shop M) p s' : tool_path tc t s = (Ok p, s') -> path tc t = Some p /\ s' = s.
Proof. unfold tool_path. destruct (path tc t); [by intros [= -> ->] | done]. Qed.

(** What a uBPF recipe leaves in its stage. *)
Lemma realize_ubpf_Ok p tc tr dir (s : Shop M) pairs s' :
  tools_of tc -> realize_ubpf root p tc tr dir s = (Ok pairs, s') ->
  pairs = zip [program_name p ++ ".h"; program_name p ++ ".c"; program_name p ++ ".o"]
            (committed (UbpfObject p))
  /\ (fun name => shop_stage s' !! name)
       <$> [program_name p ++ ".h"; program_name p ++ ".c"; program_name p ++ ".o"]
     = Some <$> want p (p4_sources tr).
Proof.
  intros [Hsrc Hhome]. unfold realize_ubpf. set (n := program_name p).
  intros (_ & s1 & _ & H)%act_bind_Ok.
  apply act_bind_Ok in H as (p4c & s2 & (Hp4c & ->)%tool_path_Ok & H).
  apply act_bind_Ok in H as ([] & s3 & (st & o & e & Hrun)%run_Ok & H).
  eapply p4c_law in Hrun as (banner & Hb & Hcl & Hc & Hh);
    [| rewrite (Hhome _ _ Hp4c _ eq_refl); reflexivity].
  apply act_bind_Ok in H as ([] & s4 & (x & Hx & E4)%rewrite_staged_Ok & H).
  fold n in Hc, Hh. rewrite Hc in Hx. injection Hx as <-. rewrite normalise_banner in E4 by done.
  apply act_bind_Ok in H as ([] & s5 & ((x & Hx & E5)%copy_Ok & _)%on_stage_Ok & H).
  unfold ubpf_runtime_header in Hx. rewrite Hsrc in Hx. apply header_law in Hx as ->.
  apply act_bind_Ok in H as (clang & s6 & (Hclang & ->)%tool_path_Ok & H).
  apply act_bind_Ok in H as ([] & s7 & (st' & o' & e' & Hrun)%run_Ok & H).
  injection H as <- <-. split; [done |].
  assert (forall a b, a <> b -> n ++ a <> n ++ b) as Hne.
  { intros a b Hab E. apply (f_equal chars) in E. rewrite !chars_app in E.
    apply app_inv_head, chars_inj in E. done. }
  assert ("ubpf_common.h" <> n ++ ".c" /\ "ubpf_common.h" <> n ++ ".h") as [Hu1 Hu2]
    by (unfold n; by destruct p).
  eapply clang_law in Hrun as (H1 & H2 & H3); rewrite ?E5, ?E4.
  - fold n in H1, H2, H3. cbn [fmap list_fmap]. rewrite H1, H2, H3. reflexivity.
  - rewrite (Hhome _ _ Hclang _ eq_refl). reflexivity.
  - fold n. rewrite lookup_insert_ne, lookup_insert_eq by done. reflexivity.
  - fold n. rewrite lookup_insert_ne, lookup_insert_ne by (done || by apply Hne). exact Hh.
  - by rewrite lookup_insert_eq.
Qed.

Lemma realize_x4c_pairs p tc tr dir (s : Shop M) pairs s' :
  realize_x4c root p tc tr dir s = (Ok pairs, s') ->
  pairs = zip [program_name p ++ ".rs"] (committed (X4cRust p)).
Proof.
  unfold realize_x4c. intros H. do 8 apply act_bind_Ok in H as (? & ? & _ & H). by injection H as <- _.
Qed.

Lemma realize_rels t tc tr dir (s : Shop M) pairs s' :
  tools_of tc -> realize root t tc tr dir s = (Ok pairs, s') -> pairs.*2 = committed t.
Proof.
  intros Ht. destruct t as [p | p]; cbn [realize].
  - by intros ->%realize_x4c_pairs.
  - by intros [-> _]%realize_ubpf_Ok.
Qed.

(** Everything that is there can be read. *)
Context (readable : forall p, read_fault p = None).

Lemma or_default_read dir (t : Tree) name : or_default (read_file dir t name) = default EmptyString (t !! name).
Proof. unfold read_file. rewrite readable. by destruct (t !! name). Qed.

Lemma witness_line_sources tr tr' t : p4_sources tr = p4_sources tr' -> witness_line root tr t = witness_line root tr' t.
Proof.
  intros H. unfold witness_line, read_file. rewrite readable.
  by rewrite (p4_sources_lookup tr tr' _ H (target_source_p4 t)).
Qed.

(** Whether a target is stale, once its recipe ran. *)
Lemma stale_fresh p tc tr dir (s : Shop M) pairs s' rec :
  tools_of tc -> realize_ubpf root p tc tr dir s = (Ok pairs, s') ->
  stale root (UbpfObject p) tr dir (shop_stage s') pairs rec = false -> fresh tr (UbpfObject p).
Proof.
  intros Ht [-> Hw]%realize_ubpf_Ok; [| done]. unfold stale, fresh. cbn [fidelity].
  cbn [fmap list_fmap committed target_program zip zip_with existsb] in *.
  injection Hw as H1 H2 H3. unfold want. rewrite !or_default_read, H1, H2, H3. cbn [default].
  intros (E1 & (E2 & (E3 & _)%orb_false_iff)%orb_false_iff)%orb_false_iff.
  apply negb_false_iff, bool_decide_eq_true in E1, E2, E3. cbn [id] in *. by rewrite <-E1, <-E2, <-E3.
Qed.

Lemma fresh_stale p tc tr dir (s : Shop M) pairs s' rec :
  tools_of tc -> realize_ubpf root p tc tr dir s = (Ok pairs, s') ->
  fresh tr (UbpfObject p) -> stale root (UbpfObject p) tr dir (shop_stage s') pairs rec = false.
Proof.
  intros Ht [-> Hw]%realize_ubpf_Ok; [| done]. unfold stale, fresh. cbn [fidelity].
  cbn [fmap list_fmap committed target_program zip zip_with existsb] in *.
  injection Hw as H1 H2 H3. unfold want. rewrite !or_default_read, H1, H2, H3. cbn [default id].
  intros [= -> -> ->]. by rewrite !bool_decide_true.
Qed.

(** What [main] does with one target, where it writes. *)
Lemma artifact_writes mode t dir report (pair : string * string) (st : St M) report' st' :
  mode = RGenerate \/ mode = RReconcile ->
  artifact root mode t dir true report pair st = (Ok report', st') ->
  exists x, read_file dir (staged t st) pair.1 = Ok x /\ tree st' = <[pair.2 := x]> (tree st)
            /\ stages st' = stages st.
Proof.
  destruct pair as [produced rel]. intros Hm H.
  assert ((let! c := get (fun st => read_file dir (staged t st) produced) in
           let! _ := on_tree (copy (path_join dir produced) c root rel) in
           ret (mkReport (checked report) (written report ++ [rel])%list (diverged report))) st
          = (Ok report', st')) as H' by by destruct Hm as [-> | ->].
  apply act_bind_Ok in H' as (c & s1 & [= <- <-] & H').
  apply act_bind_Ok in H' as ([] & s2 & Hc & [= _ <-]). unfold on_tree in Hc.
  destruct (copy _ _ _ _ _) as [r t1] eqn:E. injection Hc as -> <-.
  apply copy_Ok in E as (x & Hx & ->). eauto.
Qed.

Lemma artifacts_write mode t dir pairs report (st : St M) report' st' :
  mode = RGenerate \/ mode = RReconcile -> NoDup pairs.*2 ->
  act_fold (artifact root mode t dir true) report pairs st = (Ok report', st') ->
  (forall k, k ∉ pairs.*2 -> tree st' !! k = tree st !! k)
  /\ (forall produced rel, (produced, rel) ∈ pairs ->
        default EmptyString (tree st' !! rel) = or_default (read_file dir (staged t st) produced)).
Proof.
  intros Hm. revert report st. induction pairs as [| [produced rel] pairs IH]; intros report st Hd H.
  { injection H as _ <-. split; [done |]. intros ? ? Hn. by apply not_elem_of_nil in Hn. }
  cbn [act_fold] in H. apply act_bind_Ok in H as (report1 & st1 & H1 & H).
  apply artifact_writes in H1 as (x & Hx & Ht & Hs); [| done]. cbn [fst snd] in *.
  rewrite fmap_cons in *. apply NoDup_cons in Hd as [Hni Hd].
  apply IH in H as [Hout Hin]; [| done]. split.
  - intros k Hk. rewrite not_elem_of_cons in Hk. destruct Hk as [Hk1 Hk2].
    rewrite (Hout k Hk2), Ht. apply lookup_insert_ne. intros E. apply Hk1. by rewrite <-E.
  - intros produced' rel' [[= -> ->] | Hp]%elem_of_cons.
    + rewrite (Hout rel Hni), Ht, lookup_insert_eq, Hx. done.
    + rewrite (Hin _ _ Hp). unfold staged. by rewrite Hs.
Qed.

Lemma artifact_idle t dir pairs report (st : St M) :
  act_fold (artifact root RReconcile t dir false) report pairs st = (Ok report, st).
Proof. induction pairs as [| [produced rel] pairs IH]; [done |]. exact IH. Qed.

(** A recipe run in its stage. *)
Lemma in_stage_Ok {A} t (a : Tree -> Act (Shop M) A) st v st' :
  in_stage t a st = (Ok v, st') ->
  exists s s', a (tree st) s = (Ok v, s') /\ tree st' = tree st /\ staged t st' = shop_stage s'.
Proof.
  unfold in_stage. destruct (a _ _) as [[v' | e] s'] eqn:E; [| done]. intros [= -> <-].
  eexists _, s'. split; [exact E |]. split; [done |]. unfold staged. cbn [stages].
  by rewrite lookup_insert_eq.
Qed.

(** One target, taken apart. *)
Lemma step_Ok mode tc rec report ws t (st : St M) acc st' :
  tools_of tc -> step root toolchain_dir mode tc rec (report, ws) t st = (Ok acc, st') ->
  exists s s' pairs line report' st1,
    let dir := path_join (stage_root root toolchain_dir) (stage_name t) in
    realize root t tc (tree st) dir s = (Ok pairs, s')
    /\ tree st1 = tree st /\ staged t st1 = shop_stage s'
    /\ witness_line root (tree st) t = Ok line /\ acc = (report', ws ++ [line])%list
    /\ pairs.*2 = committed t
    /\ exists st2, act_fold (artifact root mode t dir (stale root t (tree st) dir (shop_stage s') pairs rec))
         (mkReport (S (checked report)) (written report) (diverged report)) pairs st1 = (Ok report', st2)
       /\ tree st' = tree st2.
Proof.
  intros Ht H. unfold step in H. apply act_bind_Ok in H as (pairs & st1 & Hs & H).
  apply in_stage_Ok in Hs as (s & s' & Hr & Htr & Hst).
  apply act_bind_Ok in H as (b & st2 & [= <- <-] & H).
  apply act_bind_Ok in H as (line & st3 & Hl & H).
  rewrite Htr in Hl. destruct (witness_line root (tree st) t) as [l | e] eqn:El; [| done].
  injection Hl as -> <-.
  apply act_bind_Ok in H as (report' & st4 & Ha & H).
  apply act_bind_Ok in H as (u & st5 & [= _ <-] & [= <- <-]).
  rewrite Htr, Hst in Ha. exists s, s', pairs, line, report', st1. cbn zeta.
  split_and!; [done.. | by eapply realize_rels |]. exists st4. done.
Qed.

Lemma pairs_rels_NoDup (pairs : list (string * string)) t : pairs.*2 = committed t -> NoDup pairs.*2.
Proof. intros ->. apply committed_NoDup. Qed.

Lemma p4_sources_outside t tr tr' :
  (forall k, k ∉ committed t -> tr' !! k = tr !! k) -> p4_sources tr' = p4_sources tr.
Proof.
  intros H. apply p4_sources_agree. intros k Hk. apply H. intros Hc%committed_not_p4. congruence.
Qed.

(** A target that was written, or found not stale, is fresh; the rest of the tree
    stays. *)
Lemma step_writes mode tc rec report ws t (st : St M) acc st' :
  mode = RGenerate \/ mode = RReconcile -> tools_of tc ->
  step root toolchain_dir mode tc rec (report, ws) t st = (Ok acc, st') ->
  (forall k, k ∉ committed t -> tree st' !! k = tree st !! k) /\ fresh (tree st') t
  /\ exists report' line, witness_line root (tree st) t = Ok line /\ acc = (report', ws ++ [line])%list.
Proof.
  intros Hm Ht H.
  apply step_Ok in H as (s & s' & pairs & line & report' & st1 & Hr & Htr & Hst & Hl & -> & Hrel & st2 & Ha & Et);
    [| done].
  set (dir := path_join (stage_root root toolchain_dir) (stage_name t)) in *. rewrite Et.
  enough ((forall k, k ∉ committed t -> tree st2 !! k = tree st !! k) /\ fresh (tree st2) t) as [H1 H2]
    by (split_and!; eauto).
  destruct (bool_decide (mode = RReconcile) && negb (stale root t (tree st) dir (shop_stage s') pairs rec)) eqn:Em.
  - apply andb_true_iff in Em as [->%bool_decide_eq_true Es%negb_true_iff].
    rewrite Es, artifact_idle in Ha. injection Ha as _ <-. rewrite Htr. split; [done |].
    destruct t as [p | p]; [done |]. by eapply stale_fresh.
  - assert (act_fold (artifact root mode t dir true) (mkReport (S (checked report)) (written report) (diverged report))
              pairs st1 = (Ok report', st2)) as Ha'.
    { destruct Hm as [-> | ->]; [done |]. rewrite bool_decide_true in Em by done.
      apply negb_false_iff in Em. by rewrite Em in Ha. }
    apply artifacts_write in Ha' as [Hout Hin]; [| done | by eapply pairs_rels_NoDup].
    rewrite Hrel, Htr in Hout. split; [done |]. destruct t as [p | p]; [done |].
    apply realize_ubpf_Ok in Hr as [-> Hw]; [| done]. cbn [fresh].
    rewrite (p4_sources_outside (UbpfObject p) (tree st)) by done.
    cbn [fmap list_fmap committed target_program zip zip_with] in *.
    injection Hw as H1 H2 H3. unfold want.
    rewrite (Hin (program_name p ++ ".h")), (Hin (program_name p ++ ".c")), (Hin (program_name p ++ ".o"))
      by (repeat first [left | right]).
    rewrite !or_default_read, Hst, H1, H2, H3. done.
Qed.

(** The whole loop, where it writes. *)
Lemma loop_writes mode tc rec targets report ws (st : St M) acc st' :
  mode = RGenerate \/ mode = RReconcile -> tools_of tc -> NoDup targets ->
  act_fold (step root toolchain_dir mode tc rec) (report, ws) targets st = (Ok acc, st') ->
  (forall k, (forall t, t ∈ targets -> k ∉ committed t) -> tree st' !! k = tree st !! k)
  /\ p4_sources (tree st') = p4_sources (tree st)
  /\ (forall t, t ∈ targets -> fresh (tree st') t)
  /\ exists report' lines, rmapM (witness_line root (tree st)) targets = Ok lines
                           /\ acc = (report', ws ++ lines)%list.
Proof.
  intros Hm Ht. revert report ws st. induction targets as [| t targets IH]; intros report ws st Hd H.
  { injection H as <- <-. split_and!; [done | done | intros ? Hn; by apply not_elem_of_nil in Hn |].
    exists report, []. by rewrite app_nil_r. }
  cbn [act_fold] in H. apply act_bind_Ok in H as (acc1 & st1 & H1 & H).
  apply step_writes in H1 as (Hout & Hf & report1 & line & Hl & ->); [| done..].
  apply NoDup_cons in Hd as [Hni Hd].
  apply IH in H as (Hout' & Hp & Hfr & report' & lines & Hls & ->); [| done].
  assert (p4_sources (tree st1) = p4_sources (tree st)) as Hp1 by by eapply p4_sources_outside.
  split_and!.
  - intros k Hk. rewrite Hout' by (intros u Hu; apply Hk; by right). apply Hout, Hk. left.
  - by rewrite Hp.
  - intros u [-> | Hu]%elem_of_cons; [| by apply Hfr]. destruct t as [p | p]; [done |]. cbn [fresh] in *.
    rewrite Hp, <-Hf. apply list_fmap_ext. intros i rel Hrel%list_elem_of_lookup_2. f_equal.
    apply Hout'. intros u Hu Hc. apply Hni. by rewrite (committed_disjoint _ _ _ Hrel Hc).
  - exists report', (line :: lines). split; [| by rewrite <-app_assoc].
    cbn [rmapM]. rewrite Hl. cbn [rbind].
    assert (rmapM (witness_line root (tree st)) targets = rmapM (witness_line root (tree st1)) targets) as ->.
    { clear -Hp1 readable. induction targets as [| u targets IH]; [done |]. cbn [rmapM].
      by rewrite IH, (witness_line_sources (tree st) (tree st1)). }
    by rewrite Hls.
Qed.

Lemma run_to_exit_0 {A} (a : Act (St M) A) pre k st st' :
  run_to_exit a pre st k = (Some 0%nat, st') ->
  exists v s, a st = (Ok v, s) /\ k v s = (Some 0%nat, st').
Proof. unfold run_to_exit. destruct (a st) as [[v | [e |]] s]; [eauto | done..]. Qed.

Lemma write_witness_Ok body (st : St M) u st' :
  write_witness root body st = (Ok u, st') -> tree st' = <[WITNESS := body]> (tree st).
Proof.
  unfold write_witness. destruct (write_file _ _ _ _) as [[[] | e] t] eqn:E; [| done]. intros [= _ <-].
  by apply write_file_Ok in E.
Qed.

Lemma println_tree (l : list string) f (st : St M) :
  tree (fold_left (fun st w => println (f w) st) l st) = tree st.
Proof. revert st. induction l as [| w l IH]; intros st; [done |]. cbn [fold_left]. by rewrite IH. Qed.

Lemma witness_body_not_empty ws : witness_body ws <> EmptyString.
Proof. unfold witness_body. cbn. done. Qed.

Lemma read_recorded (tr : Tree) c :
  or_default (read_to_string root tr WITNESS) = c -> c <> EmptyString -> tr !! WITNESS = Some c.
Proof.
  unfold read_to_string, read_file. rewrite readable. destruct (tr !! WITNESS) as [x |]; [| by intros <-].
  cbn [ok_or rbind]. destruct (utf8_valid (chars x)); [by intros <- | by intros <-].
Qed.

Lemma conclude_writes mode rec report ws (st st' : St M) :
  mode = RGenerate \/ mode = RReconcile -> rec = or_default (read_to_string root (tree st) WITNESS) ->
  conclude root mode rec report ws st = (Some 0%nat, st') ->
  tree st' = <[WITNESS := witness_body ws]> (tree st).
Proof.
  intros Hm Hrec. unfold conclude. destruct Hm as [-> | ->].
  - intros (u & s & Hw & [= <-])%run_to_exit_0. apply write_witness_Ok in Hw.
    unfold println at 1. cbn [tree]. by rewrite println_tree.
  - assert (forall ws' s, match ws' with
      | [] => (Some 0%nat, println (newline ++ "nothing to reconcile: every artifact is current") s)
      | _ => (Some 0%nat, fold_left (fun st w => println ("reconciled " ++ w) st) ws' s)
      end = (Some 0%nat, st') -> tree st' = tree s) as Hend.
    { intros [| w ws'] s [= <-]; [done |]. by rewrite (println_tree _ (fun w => "reconciled " ++ w)). }
    case_decide as E.
    + intros ->%Hend. rewrite Hrec in E. symmetry in E. apply read_recorded in E; [| apply witness_body_not_empty].
      by rewrite insert_id.
    + intros (u & s & Hw & ->%Hend)%run_to_exit_0. by apply write_witness_Ok in Hw.
Qed.

Lemma provision_tools needed (m : M) tc m' : provision x86 needed cdir m = (Ok tc, m') -> tools_of tc.
Proof. by intros (_ & Hs & Hh & _)%provision_Ok. Qed.

(** [generate] and [reconcile] leave a checkout in order. *)
Lemma writing_makes_current mode targets (st st' : St M) :
  mode = RGenerate \/ mode = RReconcile -> NoDup targets ->
  run_to_exit (on_host (provision x86 (needed_tools targets) cdir)) "toolchain: " st
    (build root toolchain_dir mode targets) = (Some 0%nat, st') ->
  current targets (tree st').
Proof.
  intros Hm Hd (tc & s & Hp & H)%run_to_exit_0.
  unfold on_host in Hp. destruct (provision _ _ _ _) as [r m] eqn:Ep. injection Hp as -> <-.
  apply provision_tools in Ep. unfold build in H. apply run_to_exit_0 in H as ([report ws] & s1 & Hl & H).
  set (st1 := mkSt _ _ _ _ _) in Hl. change (tree _) with (tree st) in Hl, H.
  apply loop_writes in Hl as (Hout & Hsrc & Hfr & report' & lines & Hls & [= <- ->]); [| done..].
  change (tree st1) with (tree st) in *.
  assert (tree s1 !! WITNESS = tree st !! WITNESS) as Hw
    by (apply Hout; intros t _; apply committed_not_witness).
  apply conclude_writes in H; [| done |].
  2: { unfold read_to_string, read_file. by rewrite Hw. }
  assert (p4_sources (tree st') = p4_sources (tree s1)) as Hs'.
  { apply p4_sources_agree. intros k Hk. rewrite H. apply lookup_insert_ne. intros <-. done. }
  split.
  - intros t Ht. specialize (Hfr t Ht). destruct t as [p | p]; [done |]. cbn [fresh] in *.
    rewrite Hs', <-Hfr. apply list_fmap_ext. intros i rel Hrel%list_elem_of_lookup_2. f_equal. rewrite H.
    apply lookup_insert_ne. intros <-. by apply committed_not_witness in Hrel.
  - exists lines. split; [| by rewrite H, lookup_insert_eq]. rewrite <-Hls.
    assert (p4_sources (tree st') = p4_sources (tree st)) as Hss by congruence.
    clear -Hss readable. induction targets as [| u targets IH]; [done |]. cbn [rmapM].
    by rewrite IH, (witness_line_sources (tree st') (tree st)).
Qed.

Lemma witness_line_is tr t w : witness_line root tr t = Ok w -> is_witness w.
Proof. unfold witness_line. destruct (read_file _ _ _) as [src | e]; [| done]. intros [= <-]. by exists t, src. Qed.

Lemma witness_lines_are tr targets ws : rmapM (witness_line root tr) targets = Ok ws -> Forall is_witness ws.
Proof.
  revert ws. induction targets as [| t targets IH]; intros ws H; cbn [rmapM] in H; [by injection H as <- |].
  apply rbind_Ok_inv in H as (w & Hw & H). apply rbind_Ok_inv in H as (ws' & Hws & [= <-]).
  constructor; [by eapply witness_line_is | by apply IH].
Qed.

Lemma rmapM_elem tr targets ws t :
  rmapM (witness_line root tr) targets = Ok ws -> t ∈ targets ->
  exists w, witness_line root tr t = Ok w /\ w ∈ ws.
Proof.
  revert ws. induction targets as [| u targets IH]; intros ws H Ht; [by apply not_elem_of_nil in Ht |].
  cbn [rmapM] in H. apply rbind_Ok_inv in H as (w & Hw & H). apply rbind_Ok_inv in H as (ws' & Hws & [= <-]).
  apply elem_of_cons in Ht as [-> | Ht]; [exists w; split; [done | left] |].
  destruct (IH _ Hws Ht) as (v & ? & ?). exists v. split; [done | by right].
Qed.

(** What a checkout in order records. *)
Lemma current_recorded targets tr :
  targets <> [] -> current targets tr ->
  exists ws, rmapM (witness_line root tr) targets = Ok ws /\ ws <> []
    /\ read_to_string root tr WITNESS = Ok (witness_body ws)
    /\ forall w, w ∈ ws -> recorded_has (witness_body ws) w = true.
Proof.
  intros Hn [_ (ws & Hws & Hw)]. pose proof (witness_lines_are _ _ _ Hws) as Hf.
  assert (ws <> []) as Hne.
  { destruct targets as [| t targets]; [done |]. cbn [rmapM] in Hws.
    apply rbind_Ok_inv in Hws as (w & _ & Hws). by apply rbind_Ok_inv in Hws as (ws' & _ & [= <-]). }
  exists ws. split_and!; [done | done | |].
  - unfold read_to_string, read_file. rewrite readable, Hw. cbn [ok_or rbind]. by rewrite utf8_body.
  - intros w Hin. rewrite recorded_has_body; [by apply bool_decide_eq_true | done.. |].
    rewrite Forall_forall in Hf. by apply Hf.
Qed.

Lemma audit_targets_current rec targets (st : St M) :
  (forall t, t ∈ targets -> exists w, witness_line root (tree st) t = Ok w /\ recorded_has rec w = true) ->
  exists st', audit_targets root rec [] targets st = (Some 0%nat, st').
Proof.
  revert st. induction targets as [| t targets IH]; intros st H; [by eexists |]. cbn [audit_targets].
  destruct (H t) as (w & -> & ->); [left |]. apply IH. intros u Hu. apply H. by right.
Qed.

Lemma current_audit targets (st : St M) :
  targets <> [] -> current targets (tree st) -> fst (audit root targets st) = Some 0%nat.
Proof.
  intros Hn Hc. destruct (current_recorded _ _ Hn Hc) as (ws & Hws & _ & Hr & Hh). unfold audit. rewrite Hr.
  destruct (audit_targets_current (witness_body ws) targets st) as [st' ->]; [| done].
  intros t Ht. destruct (rmapM_elem _ _ _ _ Hws Ht) as (w & Hl & Hw). eauto.
Qed.

Lemma artifacts_check t dir b pairs report (st : St M) :
  act_fold (artifact root RCheck t dir b) report pairs st = (Ok report, st).
Proof. induction pairs as [| [produced rel] pairs IH]; [done |]. exact IH. Qed.

Lemma artifacts_same t dir b pairs report (st : St M) :
  (forall produced rel, (produced, rel) ∈ pairs ->
     fidelity t = ByteIdentical ->
     or_default (read_file dir (staged t st) produced) = or_default (read_file root (tree st) rel)) ->
  act_fold (artifact root RVerify t dir b) report pairs st = (Ok report, st).
Proof.
  induction pairs as [| [produced rel] pairs IH]; intros H; [done |]. cbn [act_fold].
  assert (artifact root RVerify t dir b report (produced, rel) st = (Ok report, st)) as E.
  { cbn [artifact]. case_decide; [| done]. unfold act_bind, get. rewrite (H produced rel) by (done || left).
    by rewrite decide_True. }
  unfold act_bind. rewrite E. apply IH. intros p r Hp. apply H. by right.
Qed.

(** On a checkout in order, the three modes that build do the same. *)
Lemma step_same mode tc rec acc t (st : St M) :
  mode = RVerify \/ mode = RReconcile -> tools_of tc -> fresh (tree st) t ->
  (forall w, witness_line root (tree st) t = Ok w -> recorded_has rec w = true) ->
  step root toolchain_dir mode tc rec acc t st = step root toolchain_dir RCheck tc rec acc t st.
Proof.
  intros Hm Ht Hf Hrec. destruct acc as [report ws]. unfold step.
  set (dir := path_join (stage_root root toolchain_dir) (stage_name t)).
  unfold act_bind at 1. unfold act_bind at 5.
  destruct (in_stage t (fun tree => realize root t tc tree dir) st) as [[pairs | e] st1] eqn:Es; [| done].
  apply in_stage_Ok in Es as (s & s' & Hr & Htr & Hst).
  unfold act_bind, get. destruct (witness_line root (tree st1) t) as [l | e] eqn:El; [| done].
  rewrite artifacts_check.
  assert (forall b report', (mode = RReconcile -> b = false) ->
    act_fold (artifact root mode t dir b) report' pairs st1 = (Ok report', st1)) as Hsame.
  { intros b report' Hb. destruct Hm as [-> | ->]; [| by rewrite Hb, artifact_idle].
    apply artifacts_same. intros produced rel Hin Hfid. destruct t as [p | p]; [done |].
    pose proof (fresh_stale _ _ _ _ _ _ _ rec Ht Hr Hf) as Hs. unfold stale in Hs. rewrite Hfid in Hs.
    rewrite Hst, Htr. destruct (decide (or_default (read_file dir (shop_stage s') produced)
                                        = or_default (read_file root (tree st) rel))) as [E | E]; [done |].
    exfalso. apply not_true_iff_false in Hs. apply Hs. apply existsb_exists.
    exists (produced, rel). split; [by apply list_elem_of_In |]. by rewrite bool_decide_false. }
  rewrite Hsame; [done |]. intros _. rewrite Hst, Htr in *. destruct t as [p | p]; [| by eapply fresh_stale].
    unfold stale. cbn [fidelity]. rewrite El. by rewrite Hrec.
Qed.

Lemma loop_same mode tc rec targets acc (st : St M) :
  mode = RVerify \/ mode = RReconcile -> tools_of tc ->
  (forall t, t ∈ targets -> fresh (tree st) t) ->
  (forall t w, t ∈ targets -> witness_line root (tree st) t = Ok w -> recorded_has rec w = true) ->
  act_fold (step root toolchain_dir mode tc rec) acc targets st
  = act_fold (step root toolchain_dir RCheck tc rec) acc targets st.
Proof.
  intros Hm Ht. revert acc st. induction targets as [| t targets IH]; intros acc st Hf Hrec; [done |].
  cbn [act_fold]. unfold act_bind. rewrite step_same; [| done.. | apply Hf; left | intros w; apply Hrec; left].
  pose proof (step_looks root toolchain_dir RCheck tc rec acc (tree st) t (or_introl eq_refl) st eq_refl) as Hk.
  destruct (step root toolchain_dir RCheck tc rec acc t st) as [[acc1 | e] st1]; [| done].
  cbn [snd] in Hk. unfold same_tree in Hk. apply IH; rewrite Hk.
  - intros u Hu. apply Hf. by right.
  - intros u w Hu. apply Hrec. by right.
Qed.

(** What [check] accumulates. *)
Lemma loop_check tc rec targets report ws (st : St M) acc st' :
  tools_of tc ->
  act_fold (step root toolchain_dir RCheck tc rec) (report, ws) targets st = (Ok acc, st') ->
  tree st' = tree st
  /\ exists report' lines, rmapM (witness_line root (tree st)) targets = Ok lines
       /\ acc = (report', ws ++ lines)%list /\ written report' = written report /\ diverged report' = diverged report.
Proof.
  intros Ht. revert report ws st. induction targets as [| t targets IH]; intros report ws st H.
  { injection H as <- <-. split; [done |]. exists report, []. by rewrite app_nil_r. }
  cbn [act_fold] in H. apply act_bind_Ok in H as (acc1 & st1 & H1 & H).
  apply step_Ok in H1 as (s & s' & pairs & line & report1 & st0 & _ & Htr & _ & Hl & -> & _ & st2 & Ha & Et); [| done].
  rewrite artifacts_check in Ha. injection Ha as <- <-. rewrite Htr in Et.
  apply IH in H as (Htree & report' & lines & Hls & -> & Hw & Hdv). rewrite Et in *. split; [done |].
  exists report', (line :: lines). split_and!; [| by rewrite <-app_assoc | done..].
  cbn [rmapM]. by rewrite Hl, Hls.
Qed.

Lemma omap_none {A B} (f : A -> option B) l : (forall x, x ∈ l -> f x = None) -> omap f l = [].
Proof.
  induction l as [| x l IH]; intros H; [done |]. cbn [omap list_omap]. rewrite (H x) by left.
  apply IH. intros y Hy. apply H. by right.
Qed.

Lemma current_check targets (st st' : St M) mode :
  mode = RVerify \/ mode = RReconcile -> targets <> [] -> current targets (tree st) ->
  fst (run_to_exit (on_host (provision x86 (needed_tools targets) cdir)) "toolchain: " st
    (build root toolchain_dir RCheck targets)) = Some 0%nat ->
  exists st', run_to_exit (on_host (provision x86 (needed_tools targets) cdir)) "toolchain: " st
    (build root toolchain_dir mode targets) = (Some 0%nat, st') /\ tree st' = tree st.
Proof.
  intros Hm Hn Hc H. destruct (run_to_exit _ _ _ _) as [code st1] eqn:E in H. cbn [fst] in H. subst code.
  apply run_to_exit_0 in E as (tc & s & Hp & H).
  unfold on_host in Hp. destruct (provision _ _ _ _) as [r m] eqn:Ep. injection Hp as -> <-.
  unfold run_to_exit at 1, on_host. rewrite Ep. apply provision_tools in Ep.
  destruct (current_recorded _ _ Hn Hc) as (ws & Hws & _ & Hread & Hhas). destruct Hc as [Hfr _].
  unfold build in *. cbn [tree stages host out err] in *. rewrite Hread in *. cbn [or_default] in *.
  apply run_to_exit_0 in H as ([report ws'] & s1 & Hl & _).
  set (st0 := mkSt (tree st) _ _ _ _) in *. unfold run_to_exit.
  rewrite loop_same; [| done.. |].
  2: { intros t w Ht Hw. destruct (rmapM_elem _ _ _ _ Hws Ht) as (v & Hv & Hin).
       change (tree st0) with (tree st) in Hw. rewrite Hw in Hv. injection Hv as <-. by apply Hhas. }
  rewrite Hl. apply loop_check in Hl as (Htr & report' & lines & Hls & [= <- ->] & Hwr & Hdv); [| done].
  change (tree st0) with (tree st) in *. rewrite Hws in Hls. injection Hls as <-. cbn [app] in *.
  unfold conclude. destruct Hm as [-> | ->].
  - rewrite Htr, Hread, Hdv. cbn [or_default XReport_default diverged app].
    rewrite omap_none by (intros w Hw; by rewrite Hhas). unfold finish. cbn [diverged]. by eexists.
  - rewrite decide_True by done. rewrite Hwr. cbn [written XReport_default]. by eexists.
Qed.

Lemma selected_NoDup only : NoDup (selected only).
Proof. refine (bool_decide_unpack _ _). by destruct only as [[] |]; vm_compute. Qed.

Lemma selected_not_empty only : selected only <> [].
Proof. by destruct only as [[] |]. Qed.

(** Either word leaves its targets in order. *)
Lemma writing_word word rest (st st1 : St M) :
  word ∈ ["generate"; "reconcile"] ->
  main root toolchain_dir x86 (word :: rest) st = (Some 0%nat, st1) ->
  current (selected (rest !! 0%nat ≫= program_parse)) (tree st1).
Proof.
  intros Hw H.
  assert (exists mode, (mode = RGenerate \/ mode = RReconcile) /\ mode_parse word = Some (MRealized mode))
    as (mode & Hm & Hp).
  { apply elem_of_cons in Hw as [-> | ->%list_elem_of_singleton]; [exists RGenerate | exists RReconcile]; auto. }
  unfold main in H. cbn [lookup list_lookup mbind option_bind] in H. rewrite Hp in H.
  by eapply writing_makes_current; [exact Hm | apply selected_NoDup | exact H].
Qed.

(** C25: What [generate] or [reconcile] leaves is in order, and stays so: after
    either succeeds, [audit] of the same targets succeeds at once; and whenever
    the sources still compile ([check] succeeds), in whatever state the machine
    and the stages are by then and however x4c orders its output this time,
    [verify] succeeds and [reconcile] succeeds and writes nothing, so that an
    automated reconciler does not commit forever. *)
Theorem writing_settles_the_checkout (word : string) (rest : list string) (st st1 st2 : St M) :
  word ∈ ["generate"; "reconcile"] ->
  main root toolchain_dir x86 (word :: rest) st = (Some 0%nat, st1) ->
  tree st2 = tree st1 ->
  exit_code ("audit" :: rest) st2 = Some 0%nat
  /\ (exit_code ("check" :: rest) st2 = Some 0%nat ->
      exit_code ("verify" :: rest) st2 = Some 0%nat
      /\ exists st3, main root toolchain_dir x86 ("reconcile" :: rest) st2 = (Some 0%nat, st3)
                     /\ tree st3 = tree st2).
Proof.
  intros Hw H E. unfold exit_code. apply writing_word in H as Hc; [| done]. rewrite <-E in Hc. unfold main.
  change (cache root toolchain_dir) with cdir. cbn [lookup list_lookup mbind option_bind] in Hc |- *.
  set (targets := selected _) in Hc |- *.
  split; [by apply current_audit; [apply selected_not_empty |] |]. intros Hcheck.
  change (mode_parse "check") with (Some (MRealized RCheck)) in Hcheck.
  change (mode_parse "verify") with (Some (MRealized RVerify)).
  change (mode_parse "reconcile") with (Some (MRealized RReconcile)). cbn iota in *. split.
  - destruct (current_check targets st2 st2 RVerify) as (st3 & -> & _);
      [by left | apply selected_not_empty | done..].
  - apply (current_check targets st2 st2 RReconcile); [by right | apply selected_not_empty | done..].
Qed.

(** A witness line names its target. *)
Lemma witness_text_target t u src src' : witness_text t src = witness_text u src' -> t = u.
Proof.
  intros E. apply (f_equal chars) in E. rewrite !chars_witness_text in E. revert E. clear.
  destruct t as [[] | []], u as [[] | []]; intros E; done || by vm_compute in E.
Qed.

Lemma witness_lines_from tr targets ws w :
  rmapM (witness_line root tr) targets = Ok ws -> w ∈ ws ->
  exists t src, t ∈ targets /\ tr !! target_source t = Some src /\ w = witness_text t src.
Proof.
  revert ws. induction targets as [| t targets IH]; intros ws H Hw; cbn [rmapM] in H.
  { injection H as <-. by apply not_elem_of_nil in Hw. }
  apply rbind_Ok_inv in H as (v & Hv & H). apply rbind_Ok_inv in H as (ws' & Hws & [= <-]).
  apply elem_of_cons in Hw as [-> | Hw].
  - unfold witness_line, read_file in Hv. rewrite readable in Hv.
    destruct (tr !! target_source t) as [src |] eqn:Es; [| done]. injection Hv as <-.
    exists t, src. split_and!; [left | done | done].
  - destruct (IH _ Hws Hw) as (u & src & Hu & Hs & ->). exists u, src. split_and!; [by right | done | done].
Qed.

Lemma audit_fails rec targets ds (st : St M) :
  (ds <> [] \/ exists t, t ∈ targets
     /\ forall w, witness_line root (tree st) t = Ok w -> recorded_has rec w = false) ->
  fst (audit_targets root rec ds targets st) = Some 1%nat.
Proof.
  revert ds st. induction targets as [| u targets IH]; intros ds st H.
  { destruct H as [H | (t & Ht & _)]; [| by apply not_elem_of_nil in Ht].
    cbn [audit_targets]. unfold finish. cbn [diverged]. by destruct ds. }
  cbn [audit_targets]. destruct (witness_line root (tree st) u) as [w | e] eqn:Ew; [| done].
  destruct (recorded_has rec w) eqn:Eh; apply IH.
  - destruct H as [H | (t & [-> | Ht]%elem_of_cons & Hw)]; [by left | | right; eauto].
    rewrite (Hw w Ew) in Eh. done.
  - left. by destruct ds.
Qed.

(** C28: An edit is noticed: change any one byte of a source after its artifact
    was generated, and [audit] fails, without a compiler: the hash it records
    tells any two files one byte apart from each other. *)
Theorem edits_are_noticed (word : string) (rest : list string) (st st1 st2 : St M) t pre b c post :
  word ∈ ["generate"; "reconcile"] ->
  main root toolchain_dir x86 (word :: rest) st = (Some 0%nat, st1) ->
  t ∈ selected (rest !! 0%nat ≫= program_parse) ->
  tree st1 !! target_source t = Some (unchars (pre ++ b :: post)) -> b <> c ->
  tree st2 = <[target_source t := unchars (pre ++ c :: post)]> (tree st1) ->
  exit_code ("audit" :: rest) st2 = Some 1%nat.
Proof.
  intros Hw H Ht Hsrc Hbc E. unfold exit_code. apply writing_word in H; [| done]. unfold main. cbn [lookup list_lookup mbind option_bind] in H, Ht |- *.
  set (targets := selected _) in H, Ht |- *.
  destruct (current_recorded _ _ (selected_not_empty _) H) as (ws & Hws & Hne & Hread & _).
  assert (read_to_string root (tree st2) WITNESS = Ok (witness_body ws)) as Hread2.
  { rewrite <-Hread. unfold read_to_string, read_file. rewrite E, lookup_insert_ne; [done |].
    intros Ew. pose proof (target_source_p4 t) as Hp4. by rewrite Ew in Hp4. }
  change (mode_parse "audit") with (Some MAudit). cbn iota. unfold audit. rewrite Hread2.
  apply audit_fails. right. exists t. split; [done |]. intros w Hl.
  unfold witness_line, read_file in Hl. rewrite readable, E, lookup_insert_eq in Hl. injection Hl as <-.
  rewrite recorded_has_body; [| by eapply witness_lines_are | done | by eexists _, _].
  apply bool_decide_eq_false. intros (u & src & Hu & Hs & Ew)%(witness_lines_from _ _ _ _ Hws).
  pose proof (witness_text_target _ _ _ _ Ew) as <-. rewrite Hsrc in Hs. injection Hs as <-.
  by apply witness_text_one_byte in Ew; [| intros ->].
Qed.

(** A run for one program forgets the other: after [generate <program>] or
    [reconcile <program>] the witness file has that program's lines only, and an
    [audit] of the whole checkout fails, though no source was edited. *)
Theorem partial_run_breaks_the_audit (word : string) (p : Program) (st st1 : St M) :
  word ∈ ["generate"; "reconcile"] ->
  main root toolchain_dir x86 [word; program_name p] st = (Some 0%nat, st1) ->
  fst (main root toolchain_dir x86 ["audit"] st1) = Some 1%nat.
Proof.
  intros Hw H. apply writing_word in H; [| done]. unfold main. cbn [lookup list_lookup mbind option_bind] in H |- *.
  assert (program_parse (program_name p) = Some p) as Epp by by destruct p.
  rewrite Epp in H.
  destruct (current_recorded _ _ (selected_not_empty _) H) as (ws & Hws & Hne & Hread & _).
  change (mode_parse "audit") with (Some MAudit). cbn iota. unfold audit. rewrite Hread.
  set (q := match p with PL2Fwd => PL3Fwd | PL3Fwd => PL2Fwd end).
  apply audit_fails. right. exists (X4cRust q). split; [by destruct p; refine (bool_decide_unpack _ _) |].
  intros w Hl.
  assert (w ∉ ws) as Hni.
  { unfold witness_line in Hl. destruct (read_file _ _ _) as [src | e]; [| done]. injection Hl as <-.
    intros (u & src' & Hu & _ & E%witness_text_target)%(witness_lines_from _ _ _ _ Hws). subst u.
    apply list_elem_of_filter in Hu as [Hu _]. by destruct p. }
  rewrite recorded_has_body; [by apply bool_decide_eq_false | by eapply witness_lines_are | done | by eapply witness_line_is].
Qed.

End current.

(** ** The run always ends with an exit code *)

Section exits.
Context {M : Type} {HM : Host M} {FM : Forge M}.
Context (root : string) (toolchain_dir : option string) (x86 : bool).

(** An action that does not panic. *)
Definition calm {S A} (a : Act S A) : Prop := forall s, fst (a s) <> Err Panicked.

Lemma calm_ret {S A} (a : A) : calm (@ret S A a).
Proof. by intros s. Qed.

Lemma calm_bind {S A B} (a : Act S A) (k : A -> Act S B) : calm a -> (forall x, calm (k x)) -> calm (act_bind a k).
Proof.
  intros Ha Hk s. unfold act_bind. specialize (Ha s). destruct (a s) as [[x | e] s']; [apply Hk |].
  intros [= ->]. by apply Ha.
Qed.

Lemma calm_fold {S A B} (f : A -> B -> Act S A) l : (forall x y, y ∈ l -> calm (f x y)) -> forall acc, calm (act_fold f acc l).
Proof.
  induction l as [| y l IH]; intros H acc; [apply calm_ret |]. cbn [act_fold].
  apply calm_bind; [apply H; left |]. intros x. apply IH. intros z w Hw. apply H. by right.
Qed.

Lemma calm_make_dir d : calm (make_dir (M := M) d).
Proof. intros m. unfold make_dir. by destruct (create_dir_all m d) as [[] m']. Qed.

Lemma calm_sh what script dir : calm (sh (M := M) what script dir).
Proof. intros m. unfold sh. by destruct (spawn _ _) as [[e | [] st o e] m']. Qed.

Lemma calm_require p what : calm (Toolchain.require (M := M) p what).
Proof. intros m. unfold Toolchain.require. by destruct (is_file m p). Qed.

Lemma calm_which bin : calm (which (M := M) bin).
Proof. intros m. unfold which. by destruct (spawn _ _) as [[e | [] st o e] m']. Qed.

Lemma calm_built what script (bin : string) : calm (let! _ := sh (M := M) what script None in Toolchain.require bin what).
Proof. apply calm_bind; [apply calm_sh | intros ?; apply calm_require]. Qed.

Lemma calm_conda c prefix : calm (ensure_conda_env (M := M) x86 c prefix).
Proof.
  intros m. unfold ensure_conda_env. destruct (_ && _); [done |]. revert m. apply calm_bind; [| intros ?; apply calm_sh].
  intros m. unfold ensure_micromamba. destruct (is_file m _); [done |]. revert m.
  apply calm_bind; [apply calm_make_dir |]. intros ?. apply calm_bind; [apply calm_sh | intros ?; apply calm_require].
Qed.

Lemma calm_provision needed c : calm (provision (M := M) x86 needed c).
Proof.
  unfold provision. apply calm_bind; [apply calm_make_dir |]. intros ?.
  apply calm_bind; [destruct (wants_conda needed); [apply calm_conda | apply calm_ret] |]. intros ?.
  apply calm_bind; [| intros ?; apply calm_ret]. apply calm_fold. intros ps t _.
  apply calm_bind; [| intros ?; apply calm_ret]. destruct t; [| | apply calm_require | apply calm_which].
  - intros m. unfold ensure_x4c. destruct (is_file m _); [done |].
    apply calm_bind; [apply calm_sh | intros ?; apply calm_require].
  - intros m. unfold ensure_p4c. destruct (is_file m _); [done |].
    apply calm_bind; [apply calm_sh | intros ?; apply calm_require].
Qed.

Lemma calm_copy from c dir name : calm (copy from c dir name).
Proof.
  intros t. unfold copy. destruct (match parent _ with Some _ => _ | None => _ end); [| done].
  destruct c; [| done]. by destruct (write_file _ _ _ _) as [[] t'].
Qed.

Lemma calm_on_stage {A} (a : Act Tree A) : calm a -> calm (on_stage (M := M) a).
Proof. intros Ha s. unfold on_stage. specialize (Ha (shop_stage s)). by destruct (a _). Qed.

Lemma calm_run tr c : calm (run (M := M) tr c).
Proof. intros s. unfold run. by destruct (run_in _ _ _ _) as [[e | [] st o e] [t m]]. Qed.

Lemma calm_rewrite dir name f : calm (rewrite_staged (M := M) dir name f).
Proof.
  apply calm_bind.
  - intros s. unfold lift_result. by destruct (read_to_string _ _ _).
  - intros x. apply calm_on_stage. intros t. by destruct (write_file _ _ _ _) as [[] t'].
Qed.

Lemma calm_make_stage d : calm (make_stage (M := M) d).
Proof. intros s. unfold make_stage. by destruct (mkdir_fault d). Qed.

Lemma calm_tool tc t : is_Some (path tc t) -> calm (tool_path (M := M) tc t).
Proof. intros [p Hp] s. unfold tool_path. by rewrite Hp. Qed.

Lemma calm_realize t tc tr dir :
  (forall u, u ∈ target_tools t -> is_Some (path tc u)) -> calm (realize (M := M) root t tc tr dir).
Proof.
  intros H. destruct t as [p | p]; cbn [realize target_tools] in *;
    repeat first [ apply calm_ret | apply calm_make_stage | apply calm_run | apply calm_rewrite
                 | apply calm_on_stage, calm_copy | apply calm_tool, H; by repeat first [left | right]
                 | intros s; apply calm_on_stage, calm_copy | apply calm_bind; [| intros ?] ].
Qed.

Lemma needed_tools_all only t u : t ∈ selected only -> u ∈ target_tools t -> u ∈ needed_tools (selected only).
Proof.
  intros Ht Hu. assert (forallb (fun t => forallb (fun u => bool_decide (u ∈ needed_tools (selected only)))
      (target_tools t)) (selected only) = true) as H by by destruct only as [[] |].
  rewrite forallb_forall in H. specialize (H t (proj1 (list_elem_of_In _ _) Ht)).
  rewrite forallb_forall in H. specialize (H u (proj1 (list_elem_of_In _ _) Hu)). by apply bool_decide_eq_true in H.
Qed.

Lemma calm_on_tree {A} (a : Act Tree A) : calm a -> calm (on_tree (M := M) a).
Proof. intros Ha s. unfold on_tree. specialize (Ha (tree s)). by destruct (a _). Qed.

Lemma calm_get {A} (f : St M -> A) : calm (get f).
Proof. by intros s. Qed.

Lemma calm_artifact mode t dir b report pair : calm (artifact (M := M) root mode t dir b report pair).
Proof.
  destruct pair as [produced rel]. unfold artifact. destruct mode; [| | destruct b |];
    repeat first [apply calm_ret | apply calm_get | apply calm_on_tree, calm_copy | case_decide
                 | apply calm_bind; [| intros ?]].
Qed.

Lemma calm_step mode tc rec acc t :
  (forall u, u ∈ target_tools t -> is_Some (path tc u)) -> calm (step (M := M) root toolchain_dir mode tc rec acc t).
Proof.
  intros H. destruct acc as [report ws]. unfold step. apply calm_bind.
  - intros st. unfold in_stage. pose proof (calm_realize t tc (tree st) (path_join (stage_root root toolchain_dir) (stage_name t)) H
      (mkShop (default ∅ (stages st !! stage_name t)) (host st))) as Hc.
    destruct (realize _ _ _ _ _ _) as [[p | [e |]] s]; done.
  - intros pairs. apply calm_bind; [by intros st |]. intros b.
    apply calm_bind; [intros st; by destruct (witness_line _ _ _) |]. intros line.
    apply calm_bind; [| intros ?; apply calm_bind; [by intros st | intros ?; apply calm_ret]].
    apply calm_fold. intros rep pair _. apply calm_artifact.
Qed.

Lemma exits_run {A} (a : Act (St M) A) pre k st :
  calm a -> (forall v s, a st = (Ok v, s) -> is_Some (fst (k v s))) -> is_Some (fst (run_to_exit a pre st k)).
Proof.
  intros Ha Hk. unfold run_to_exit. specialize (Ha st).
  destruct (a st) as [[v | [e |]] s]; [by apply Hk | by eexists | done].
Qed.

Lemma exits_finish report (st : St M) : is_Some (fst (finish report st)).
Proof. unfold finish. destruct (diverged report); by eexists. Qed.

Lemma exits_conclude mode rec report ws (st : St M) : is_Some (fst (conclude root mode rec report ws st)).
Proof.
  assert (forall body, calm (write_witness (M := M) root body)) as Hw
    by (intros body s; unfold write_witness; by destruct (write_file _ _ _ _) as [[] t']).
  unfold conclude. destruct mode; [by eexists | | | apply exits_finish].
  - apply exits_run; [apply Hw | by eexists].
  - case_decide; [by destruct (written report); eexists |].
    apply exits_run; [apply Hw |]. intros v s _. by destruct (written report); eexists.
Qed.

(** The program always ends with an exit code: no run looks up a tool it did
    not provision, whatever is asked for, whatever fails on the way. *)
Theorem xtask_exits (args : list string) (st : St M) :
  is_Some (fst (main root toolchain_dir x86 args st)).
Proof.
  unfold main. destruct (args !! 0%nat ≫= mode_parse) as [[| mode] |]; [| | by eexists].
  - unfold audit. destruct (read_to_string _ _ _) as [rec | e]; [| by eexists]. generalize (@nil string).
    generalize (selected (args !! 1%nat ≫= program_parse)).
    intros ts. revert st. induction ts as [| t ts IH]; intros st ds; [apply exits_finish |].
    cbn [audit_targets]. destruct (witness_line _ _ _); [| by eexists]. destruct (recorded_has _ _); apply IH.
  - set (only := args !! 1%nat ≫= program_parse). apply exits_run.
    + intros s. unfold on_host. pose proof (calm_provision (needed_tools (selected only)) (cache root toolchain_dir) (host s)).
      by destruct (provision _ _ _ _).
    + intros tc s H. unfold on_host in H. destruct (provision _ _ _ _) as [r m] eqn:Ep. injection H as -> <-.
      apply provision_Ok in Ep as (_ & _ & _ & Hall). unfold build. apply exits_run.
      * apply calm_fold. intros acc t Ht. apply calm_step. intros u Hu. apply Hall.
        by eapply needed_tools_all.
      * intros [report ws] s' _. apply exits_conclude.
Qed.

End exits.

(** ** A concrete forge

    A machine whose state is a clock: its x4c orders its output by the clock, its
    p4c stamps the clock into the banner. *)
Module Bench.

#[export] Instance clock_host : Host nat := {
  is_file m p := true;
  create_dir_all m p := (Ok tt, m);
  spawn m c := (Exited true "exit status: 0" "/usr/bin/rustfmt" EmptyString, S m);
  eprint m s := m;
}.

Definition of_arg (f : Program -> string) (arg : option string) : option Program :=
  find (fun p => bool_decide (arg = Some (f p))) Program_ALL.

Definition x4c_output (m : nat) (name : string) (src : string) : string :=
  unchars (unlines (chars <$>
    (if Nat.even m then ["struct a;"; src] else [src; "struct a;"])
    ++ ["#[unsafe(no_mangle)]"; "fn create() {"; "}"])%list).

Definition code_of (p : Program) (sources : Tree) : string :=
  default EmptyString (sources !! target_source (UbpfObject p)).

Definition toy_run (m : nat) (c : Command) (t stage : Tree) : Spawned * (Tree * nat) :=
  let ok st := (Exited true "exit status: 0" EmptyString EmptyString, (st, S m)) in
  if bool_decide (Some (prog c) = tool_home "/t" ToolP4cUbpf) then
    match of_arg (fun p => path_join "/r" (target_source (UbpfObject p))) (args c !! 6%nat) with
    | Some p =>
        ok (<[program_name p ++ ".c" := "/* p4c-ubpf at " ++ show_nat m ++ newline ++ code_of p (p4_sources t)]>
              (<[program_name p ++ ".h" := "typedef"]> stage))
    | None => ok stage
    end
  else if bool_decide (Some (prog c) = tool_home "/t" ToolClang) then
    match of_arg (fun p => program_name p ++ ".c") (args c !! 5%nat) with
    | Some p =>
        ok (<[program_name p ++ ".o" := default EmptyString (stage !! (program_name p ++ ".c")) ++ "object"]> stage)
    | None => ok stage
    end
  else if bool_decide (Some (prog c) = tool_home "/t" ToolX4c) then
    match of_arg (fun p => program_name p ++ ".softnpu.p4") (args c !! 0%nat) with
    | Some p => ok (<[program_name p ++ ".rs" := x4c_output m (program_name p) "struct b;"]> stage)
    | None => ok stage
    end
  else ok stage.

#[export] Instance clock_forge : Forge nat := {
  run_in := toy_run;
  host_read m p := Ok "common";
  clear_stages s := ∅;
  ld_library_path := EmptyString;
  read_fault p := None;
  mkdir_fault p := None;
  write_fault p := None;
}.

Lemma show_nat_digits n : Forall is_dec_digit (chars (show_nat n)).
Proof. unfold show_nat. rewrite chars_unchars. apply dec_digits. lia. Qed.

#[export] Instance clock_laws : ForgeLaws nat "/r" "/t".
Proof.
  refine {| p4c_code := code_of; p4c_header := fun _ _ => "typedef";
            clang_object := fun c _ _ => c ++ "object"; runtime_header := "common" |}.
  - intros m tc prog dir t stage p st o e stage' m' [= <-] H. exists ("/* p4c-ubpf at " ++ show_nat m).
    unfold run_in, clock_forge, toy_run in H. rewrite bool_decide_true in H by done.
    assert (of_arg (fun p => path_join "/r" (target_source (UbpfObject p)))
              (Some (path_join "/r" (target_source (UbpfObject p)))) = Some p) as E by by destruct p.
    cbn [args p4c_command lookup list_lookup] in H. rewrite E in H. injection H as _ _ _ <- _.
    rewrite chars_app. split_and!.
    + done.
    + apply plain_clean, Forall_app. split; [refine (bool_decide_unpack _ _); reflexivity |].
      eapply Forall_impl; [apply show_nat_digits |]. intros c (d & Hd & ->).
      apply solid_plain, digit_char_solid. lia.
    + rewrite lookup_insert_eq. f_equal.
    + rewrite lookup_insert_ne, lookup_insert_eq by by destruct p. done.
  - intros m prog dir t stage p st o e stage' m' c h r [= <-] H Hc Hh Hr.
    unfold run_in, clock_forge, toy_run in H.
    rewrite bool_decide_false in H by done. rewrite bool_decide_true in H by done.
    assert (of_arg (fun p => program_name p ++ ".c") (Some (program_name p ++ ".c")) = Some p) as E by by destruct p.
    cbn [args clang_command lookup list_lookup] in H. rewrite E in H. injection H as _ _ _ <- _.
    rewrite Hc. cbn [default]. rewrite !lookup_insert_ne by by destruct p.
    by rewrite lookup_insert_eq.
  - intros m c [= <-]. done.
Defined.

Lemma all_readable p : @read_fault nat clock_forge p = None.
Proof. done. Qed.

Definition checkout : St nat :=
  mkSt (list_to_map [("p4/include/softnpu/core.p4", "core"); ("p4/include/softnpu/softnpu.p4", "softnpu");
                     ("p4/programs/l2fwd/l2fwd.softnpu.p4", "l2"); ("p4/programs/l2fwd/l2fwd.ubpf.p4", "l2u");
                     ("p4/programs/l3fwd/l3fwd.softnpu.p4", "l3"); ("p4/programs/l3fwd/l3fwd.ubpf.p4", "l3u")])
    ∅ 3 [] [].

Definition generated : St nat := snd (main "/r" (Some "/t") true ["generate"] checkout).

Lemma generated_eq : main "/r" (Some "/t") true ["generate"] checkout = (Some 0%nat, generated).
Proof.
  unfold generated. rewrite (surjective_pairing (main _ _ _ _ _)) at 1. f_equal.
Qed.

(** The same tree on another day, with another clock. *)
Definition later : St nat := mkSt (tree generated) ∅ 8 [] [].

Lemma settles_witness :
  exit_code "/r" (Some "/t") true ["verify"] later = Some 0%nat
  /\ exists st, main "/r" (Some "/t") true ["reconcile"] later = (Some 0%nat, st) /\ tree st = tree later.
Proof.
  refine (proj2 (writing_settles_the_checkout "/r" (Some "/t") true all_readable "generate" [] checkout
    generated later _ generated_eq eq_refl) _).
  - left.
  - vm_compute. reflexivity.
Defined.

Lemma edits_witness :
  exit_code "/r" (Some "/t") true ["audit"]
    (mkSt (<["p4/programs/l3fwd/l3fwd.ubpf.p4" := "l3v"]> (tree generated)) ∅ 8 [] []) = Some 1%nat.
Proof.
  eapply (edits_are_noticed "/r" (Some "/t") true all_readable "generate" [] checkout generated _
    (UbpfObject PL3Fwd) (chars "l3") "u"%char "v"%char []).
  - left.
  - exact generated_eq.
  - refine (bool_decide_unpack _ _). vm_compute. reflexivity.
  - vm_compute. reflexivity.
  - done.
  - reflexivity.
Defined.

Lemma partial_run_witness :
  fst (main "/r" (Some "/t") true ["audit"]
         (snd (main "/r" (Some "/t") true ["reconcile"; "l2fwd"] generated))) = Some 1%nat.
Proof.
  eapply (partial_run_breaks_the_audit "/r" (Some "/t") true all_readable "reconcile" PL2Fwd generated).
  - right. left.
  - rewrite (surjective_pairing (main _ _ _ _ _)) at 1. f_equal.
Defined.

Lemma looking_witness :
  tree (snd (main "/r" (Some "/t") true ["verify"; "l3fwd"] checkout)) = tree checkout.
Proof. apply (looking_changes_nothing "/r" (Some "/t") true). refine (bool_decide_unpack _ _). reflexivity. Defined.

End Bench.
