(* ===== verification/Ctl.v ===== *)
(** * The control channel (crates/up4-ctl/src/{protocol,server}.rs)

    Requests, replies and what the server does with them, over the tables of
    any pipeline: the one place where text an operator typed becomes typed
    values.  The clock readings a request needs are arguments, and the tables
    are a state that [TableOps] transforms. *)

From S2P Require Import Prelude Bytes Text Value Shim Table Publish Wire Engine L3Fwd Config Metrics Punt B64 Messages.

Local Open Scope Z_scope.

(** ** The protocol *)

Inductive Params :=
  | Positional (l : list string)
  | Named (m : gmap string string).

Definition Params_default : Params := Positional [].

Definition has_eq (a : string) : bool := bool_decide (is_Some (split_once "=" (chars a))).

(** [Params::from_args] *)
Definition from_args (args : list string) : Params :=
  if negb (bool_decide (args = [])) && forallb has_eq args then
    Named (foldl (fun m kv => <[kv.1 := kv.2]> m) ∅
             (omap (fun a => (fun p => (unchars p.1, unchars p.2)) <$> split_once "=" (chars a)) args))
  else Positional args.

Definition Params_len (p : Params) : nat :=
  match p with Positional v => length v | Named m => size m end.

Definition Params_is_empty (p : Params) : bool := (Params_len p =? 0)%nat.

Record EntrySpec := { es_table : string; es_key : string; es_action : string; es_params : Params }.

Inductive EntryBatch :=
  | Wrapped (entries : list EntrySpec)
  | Bare (l : list EntrySpec).

Definition into_entries (b : EntryBatch) : list EntrySpec :=
  match b with Wrapped entries | Bare entries => entries end.

(** [Request]; the constructors carry its name, since [Response] shares some. *)
Inductive CtlRequest :=
  | ReqPing
  | ReqInfo
  | ReqCounters
  | ReqTables
  | ReqTableAdd (entries : list EntrySpec)
  | ReqTableDel (table key : string)
  | ReqTableDump (table : string)
  | ReqTableSetDefault (table action : string) (params : Params)
  | ReqTableClear (table : string)
  | ReqPuntDrain (max : nat)
  | ReqShutdown.

Record PuntedFrame := { pt_ingress_vport : u16; pt_rx_ts_us : u32; pt_frame_b64 : string }.

Record VportInfo := { vi_id : u16; vi_peer : string }.

(** [Info]; [J] is [serde_json::Value]. *)
Record Info (J : Type) := {
  in_node : string; in_version : string; in_pipeline : string; in_pipeline_summary : string;
  in_uptime_s : u64; in_threads : nat; in_fabric : string; in_inner_mtu : nat; in_bind : string;
  in_punt_enabled : bool; in_vports : list VportInfo; in_probe : J;
}.
Arguments in_node {J} _.
Arguments in_version {J} _.
Arguments in_pipeline {J} _.
Arguments in_pipeline_summary {J} _.
Arguments in_uptime_s {J} _.
Arguments in_threads {J} _.
Arguments in_fabric {J} _.
Arguments in_inner_mtu {J} _.
Arguments in_bind {J} _.
Arguments in_punt_enabled {J} _.
Arguments in_vports {J} _.
Arguments in_probe {J} _.

Inductive CtlResponse (J : Type) :=
  | Pong
  | RspInfo (i : Info J)
  | RspCounters (s : Snapshot)
  | RspTables (tables : list SchemaDesc)
  | Entries (entries : list EntryDesc) (default_ : EntryDesc)
  | Applied (n : nat)
  | Punted (frames : list PuntedFrame) (remaining : nat)
  | ShuttingDown
  | RspError (message : string).
Arguments Pong {J}.
Arguments RspInfo {J} i.
Arguments RspCounters {J} s.
Arguments RspTables {J} tables.
Arguments Entries {J} entries default_.
Arguments Applied {J} n.
Arguments Punted {J} frames remaining.
Arguments ShuttingDown {J}.
Arguments RspError {J} message.

(** [Response::error] of a table error. *)
Definition refuse {J} (e : TableError) : CtlResponse J := RspError (table_error_to_string e).

(** ** Refining what was typed *)

Definition parse_key (sch : result TableSchema TableError) (key : string)
    : result (TableSchema * TypedKey) TableError :=
  let? s := sch in
  let? k := map_err Value (key_parse (table_key s) key) in
  Ok (s, k).

Definition parse_param (p : ParamSchema) (text : string) : result TypedVal TableError :=
  map_err Value (Value.parse (param_kind p) text).

Definition named_param (given : gmap string string) (p : ParamSchema) : result TypedVal TableError :=
  let? text := ok_or (given !! param_name p)
    (Value (Malformed (param_kind p) (String.append "missing parameter " (str_debug (param_name p))))) in
  parse_param p text.

(** [typed_params] *)
Definition typed_params (sch : TableSchema) (action : string) (ps : Params) : result (list TypedVal) TableError :=
  let? sg := ok_or (schema_action sch action)
    (UnknownAction (table_name sch) action (action_name <$> actions sch)) in
  let arity got := Arity (table_name sch) (action_name sg) (length (action_params sg)) got in
  match ps with
  | Positional given =>
      if negb (length given =? length (action_params sg))%nat then Err (arity (length given))
      else rmapM (fun x => parse_param x.2 x.1) (zip given (action_params sg))
  | Named given =>
      if negb (size given =? length (action_params sg))%nat then Err (arity (size given))
      else rmapM (named_param given) (action_params sg)
  end.

(** ** Commands *)

Section commands.
Context `{TableOps T}.
Implicit Types s : T.

(** One entry of a batch. *)
Definition install (spec : EntrySpec) (s : T) : T * result unit TableError :=
  try_op (parse_key (schema s (es_table spec)) (es_key spec)) s (fun sk =>
  try_op (typed_params sk.1 (es_action spec) (es_params spec)) s (fun params =>
  table_add (table_name sk.1) sk.2 (es_action spec) params s)).

Definition entry_message (i : nat) (spec : EntrySpec) (e : TableError) (total : nat) : string :=
  foldr String.append EmptyString
    ["entry "; show_nat i; " ("; es_table spec; " "; es_key spec; "): "; table_error_to_string e;
     " ["; show_nat i; " of "; show_nat total; " applied]"].

Fixpoint apply_from (total i : nat) (entries : list EntrySpec) (s : T) : T * result nat string :=
  match entries with
  | [] => (s, Ok total)
  | spec :: rest =>
      match install spec s with
      | (s, Err e) => (s, Err (entry_message i spec e total))
      | (s, Ok _) => apply_from total (S i) rest s
      end
  end.

Definition apply_entries (entries : list EntrySpec) (s : T) : T * result nat string :=
  apply_from (length entries) 0 entries s.

(** [Context]; the tables are those of its pipeline. *)
Record Context (J : Type) := {
  cx_info : Info J;
  cx_started_us : u64;
  cx_metrics : Metrics;
  cx_tables : T;
  cx_punt : option Ring;
  cx_stop : bool;
}.
Arguments cx_info {J} _.
Arguments cx_started_us {J} _.
Arguments cx_metrics {J} _.
Arguments cx_tables {J} _.
Arguments cx_punt {J} _.
Arguments cx_stop {J} _.

Definition with_tables {J} (s : T) (c : Context J) : Context J :=
  {| cx_info := cx_info c; cx_started_us := cx_started_us c; cx_metrics := cx_metrics c;
     cx_tables := s; cx_punt := cx_punt c; cx_stop := cx_stop c |}.

Definition with_punt {J} (r : Ring) (c : Context J) : Context J :=
  {| cx_info := cx_info c; cx_started_us := cx_started_us c; cx_metrics := cx_metrics c;
     cx_tables := cx_tables c; cx_punt := Some r; cx_stop := cx_stop c |}.

Definition request_stop {J} (c : Context J) : Context J :=
  {| cx_info := cx_info c; cx_started_us := cx_started_us c; cx_metrics := cx_metrics c;
     cx_tables := cx_tables c; cx_punt := cx_punt c; cx_stop := true |}.

Definition with_uptime {J} (up : u64) (i : Info J) : Info J :=
  {| in_node := in_node i; in_version := in_version i; in_pipeline := in_pipeline i;
     in_pipeline_summary := in_pipeline_summary i; in_uptime_s := up; in_threads := in_threads i;
     in_fabric := in_fabric i; in_inner_mtu := in_inner_mtu i; in_bind := in_bind i;
     in_punt_enabled := in_punt_enabled i; in_vports := in_vports i; in_probe := in_probe i |}.

Definition PUNT_DRAIN_MAX : nat := 64.

Definition punted_frame (f : PuntFrame) : PuntedFrame :=
  {| pt_ingress_vport := pf_ingress_vport f; pt_rx_ts_us := pf_rx_ts_us f; pt_frame_b64 := encode (pf_bytes f) |}.

(** A write's reply: what it affected, or why not. *)
Definition reply_count {J} (n : nat) (c : Context J) (r : T * result unit TableError) : Context J * CtlResponse J :=
  (with_tables r.1 c, match r.2 with Ok _ => Applied n | Err e => refuse e end).

(** [handle]; [mono] and [wall] are the two clocks.  Draining fails on no ring
    of [PuntQueue::with_depth] ([drain_holds]). *)
Definition handle {J} (mono wall : u64) (request : CtlRequest) (c : Context J) : Context J * CtlResponse J :=
  let tables := cx_tables c in
  match request with
  | ReqPing => (c, Pong)
  | ReqInfo => (c, RspInfo (with_uptime (U64 (Z.max 0 (uv mono - uv (cx_started_us c)) / 1000000)) (cx_info c)))
  | ReqCounters => (c, RspCounters (snapshot wall (cx_metrics c)))
  | ReqTables => (c, RspTables (schema_describe <$> schemas tables))
  | ReqTableDump table =>
      (c, match table_dump table tables, table_default table tables with
          | Ok entries, Ok d => Entries entries d
          | Err e, _ | _, Err e => refuse e
          end)
  | ReqTableAdd entries =>
      let '(s, r) := apply_entries entries tables in
      (with_tables s c, match r with Ok n => Applied n | Err message => RspError message end)
  | ReqTableDel table key =>
      match parse_key (schema tables table) key with
      | Err e => (c, refuse e)
      | Ok (sch, key) => reply_count 1 c (table_remove (table_name sch) key tables)
      end
  | ReqTableSetDefault table action params =>
      match (let? sch := schema tables table in let? ps := typed_params sch action params in Ok (sch, ps)) with
      | Err e => (c, refuse e)
      | Ok (sch, ps) => reply_count 1 c (table_set_default (table_name sch) action ps tables)
      end
  | ReqTableClear table =>
      let '(s, r) := table_clear table tables in
      (with_tables s c, match r with Ok n => Applied n | Err e => refuse e end)
  | ReqPuntDrain max =>
      match cx_punt c with
      | None => (c, RspError "punt is not configured on this node ([punt] in up4.toml)")
      | Some queue =>
          let '(queue, frames) := default (queue, []) (punt_drain (max `min` PUNT_DRAIN_MAX) queue) in
          (with_punt queue c, Punted (punted_frame <$> frames) (ring_len queue))
      end
  | ReqShutdown => (request_stop c, ShuttingDown)
  end.
End commands.
Arguments Context T J : clear implicits.
Arguments cx_info {T J} _.
Arguments cx_started_us {T J} _.
Arguments cx_metrics {T J} _.
Arguments cx_tables {T J} _.
Arguments cx_punt {T J} _.
Arguments cx_stop {T J} _.

(** ** Lemmas: refining *)

(** The texts of the parameters, in declaration order, whichever the spelling. *)
Definition texts_of (sg : ActionSchema) (ps : Params) : option (list string) :=
  match ps with
  | Positional l => if (length l =? length (action_params sg))%nat then Some l else None
  | Named m => if (size m =? length (action_params sg))%nat
               then mapM (fun p => m !! param_name p) (action_params sg) else None
  end.

Lemma rmapM_err_map {A B E F} (f : E -> F) (g : A -> result B E) l ys :
  rmapM (fun x => map_err f (g x)) l = Ok ys <-> rmapM g l = Ok ys.
Proof.
  rewrite !rmapM_Ok. split; intros H; eapply Forall2_impl; try exact H; intros x y Hx; cbn in *;
    destruct (g x); simplify_eq/=; congruence.
Qed.

(** The values, text by text. *)
Definition values_of (sg : ActionSchema) (texts : list string) : result (list TypedVal) ValueError :=
  rmapM (fun x => Value.parse (param_kind x.2) x.1) (zip texts (action_params sg)).

Lemma named_params_spec given ps vs :
  rmapM (named_param given) ps = Ok vs <->
  exists texts, mapM (fun p => given !! param_name p) ps = Some texts /\
    rmapM (fun x => Value.parse (param_kind x.2) x.1) (zip texts ps) = Ok vs.
Proof.
  revert vs. induction ps as [| p ps IH]; intros vs; cbn [rmapM mapM mret option_ret].
  - split; [intros [= <-]; by exists [] | by intros (texts & [= <-] & [= <-])].
  - split.
    + intros (v & Hv & (vs' & Hvs & [= <-])%rbind_Ok_inv)%rbind_Ok_inv.
      apply IH in Hvs as (texts & Ht & Hvs). unfold named_param, parse_param in Hv.
      apply rbind_Ok_inv in Hv as (text & Htext%ok_or_Ok & Hv).
      exists (text :: texts). rewrite Htext, Ht. split; [done |]. cbn.
      destruct (Value.parse _ _) as [x |]; [| done]. injection Hv as ->. cbn. by rewrite Hvs.
    + intros (texts & Ht & Hvs). apply bind_Some in Ht as (text & Htext & Ht).
      apply bind_Some in Ht as (rest & Ht & [= <-]). cbn in Hvs.
      apply rbind_Ok_inv in Hvs as (v & Hv & (vs' & Hvs & [= <-])%rbind_Ok_inv).
      assert (named_param given p = Ok v) as ->.
      { unfold named_param, parse_param. rewrite Htext. cbn [ok_or rbind]. by rewrite Hv. }
      cbn [rbind]. rewrite (proj2 (IH vs')); [done |]. by exists rest.
Qed.

Lemma typed_params_spec sch action ps vs :
  typed_params sch action ps = Ok vs <->
  exists sg texts, schema_action sch action = Some sg /\ texts_of sg ps = Some texts /\ values_of sg texts = Ok vs.
Proof.
  unfold typed_params. destruct (schema_action sch action) as [sg |]; [| split; [done | by intros (? & ? & [=] & _)]].
  cbn [ok_or rbind]. split.
  - intros H. exists sg. destruct ps as [given | given]; cbn [texts_of];
      destruct (_ =? _)%nat; cbn [negb] in H; try done.
    + exists given. split_and!; [done | done |]. by apply (rmapM_err_map Value).
    + apply named_params_spec in H as (texts & ? & ?). by exists texts.
  - intros (sg' & texts & [= <-] & Ht & Hv). destruct ps as [given | given]; cbn [texts_of] in Ht;
      destruct (_ =? _)%nat; cbn [negb]; try done.
    + injection Ht as ->. by apply (rmapM_err_map Value).
    + apply named_params_spec. by exists texts.
Qed.

Lemma values_kinds sg texts vs :
  length texts = length (action_params sg) -> values_of sg texts = Ok vs ->
  kind <$> vs = param_kind <$> action_params sg.
Proof.
  unfold values_of. generalize (action_params sg). intros ps. revert texts vs.
  induction ps as [| p ps IH]; intros [| t texts] vs Hl H; cbn in *; try done; [by injection H as <- |].
  apply rbind_Ok_inv in H as (v & Hv & (vs' & Hvs & [= <-])%rbind_Ok_inv). cbn.
  rewrite (parse_kind _ _ _ Hv), (IH texts vs'); [done | lia | done].
Qed.

Lemma texts_of_length sg ps texts : texts_of sg ps = Some texts -> length texts = length (action_params sg).
Proof.
  destruct ps as [l | m]; cbn; destruct (Nat.eqb_spec (length l) (length (action_params sg))) || destruct (_ =? _)%nat; try done.
  - by intros [= <-].
  - intros H. by apply length_mapM in H.
Qed.

Lemma typed_params_check sch action ps vs :
  typed_params sch action ps = Ok vs -> exists sg, schema_action sch action = Some sg /\ check sch action vs = Ok sg.
Proof.
  intros (sg & texts & Ha & Ht & Hv)%typed_params_spec. exists sg. split; [done |]. apply check_Ok.
  split; [done |]. eapply values_kinds; [by eapply texts_of_length | done].
Qed.

Lemma parse_key_Ok sch key s k :
  parse_key sch key = Ok (s, k) <-> sch = Ok s /\ key_parse (table_key s) key = Ok k.
Proof.
  unfold parse_key. destruct sch as [s' |]; cbn; [| by split; [| intros [[=] _]]].
  destruct (key_parse (table_key s') key) as [k' |] eqn:E; cbn.
  - split; [intros [= -> ->]; by split | intros [[= ->] H]; congruence].
  - split; [done | intros [[= ->] H]; congruence].
Qed.

Lemma mapM_compose {A B C} (f : A -> B) (g : B -> option C) l : mapM g (f <$> l) = mapM (fun x => g (f x)) l.
Proof. induction l as [| x l IH]; [done |]. cbn. by rewrite IH. Qed.

(** Named and positional spellings meet. *)
Lemma named_texts (names texts : list string) :
  NoDup names -> length texts = length names ->
  size (list_to_map (zip names texts) : gmap string string) = length names /\
  mapM (fun n => (list_to_map (zip names texts) : gmap string string) !! n) names = Some texts.
Proof.
  intros Hn Hl. split.
  - rewrite <- (length_map_to_list (list_to_map _ : gmap _ _)), map_to_list_to_map.
    + rewrite length_zip_with. lia.
    + rewrite fst_zip by lia. done.
  - apply mapM_Some. apply Forall2_same_length_lookup_2; [done |]. intros i n t Hi Ht.
    apply elem_of_list_to_map_1; [by rewrite fst_zip by lia |].
    apply list_elem_of_lookup. exists i. by rewrite lookup_zip_with, Hi, Ht.
Qed.

(** ** Properties: refining *)

(** C38: untrusted text becomes typed values in one place, and only well-typed
    ones leave it.  Parameters are accepted exactly when the table declares the
    action and their texts, put in declaration order, are as many as it declares
    and each parses as its kind; what comes out passes the schema's gate, so the
    tables never refuse it for its name, its arity or a kind; a named and a
    positional spelling of the same parameters are the same; and a key comes out
    of the kind the table declares, with a prefix no longer than the address. *)
Theorem control_values_are_typed sch action ps key :
  (forall vs, typed_params sch action ps = Ok vs <->
     exists sg texts, schema_action sch action = Some sg /\ texts_of sg ps = Some texts /\ values_of sg texts = Ok vs) /\
  (forall vs, typed_params sch action ps = Ok vs ->
     exists sg, schema_action sch action = Some sg /\ check sch action vs = Ok sg) /\
  (forall sg texts vs,
     schema_action sch action = Some sg -> NoDup (param_name <$> action_params sg) ->
     length texts = length (action_params sg) ->
     typed_params sch action (Named (list_to_map (zip (param_name <$> action_params sg) texts))) = Ok vs <->
     typed_params sch action (Positional texts) = Ok vs) /\
  (forall k, parse_key (Ok sch) key = Ok (sch, k) -> check_key sch k = Ok tt /\ key_wf k).
Proof.
  split_and!.
  - intros vs. apply typed_params_spec.
  - intros vs. apply typed_params_check.
  - intros sg texts vs Ha Hn Hl. rewrite !typed_params_spec.
    destruct (named_texts (param_name <$> action_params sg) texts) as [Hs Hm]; [done | by rewrite length_fmap |].
    assert (texts_of sg (Named (list_to_map (zip (param_name <$> action_params sg) texts))) =
            texts_of sg (Positional texts)) as E.
    { unfold texts_of. rewrite Hs, length_fmap, Hl, Nat.eqb_refl. by rewrite mapM_compose in Hm. }
    split; intros (sg' & texts' & Ha' & H); rewrite Ha in Ha'; injection Ha' as <-; exists sg, texts'.
    + by rewrite <- E.
    + by rewrite E.
  - intros k [_ H]%parse_key_Ok. apply key_parse_sound in H as (Hk & Hw & _). by rewrite check_key_Ok.
Qed.

(** ** Batches *)

Section batches.
Context {T : Type} {inv : T -> Prop} `{TableLaws T inv}.
Implicit Types s : T.

Definition Write : Type := string * TypedKey * string * list TypedVal.

(** The write an entry asks for, or why it is refused before the tables see it. *)
Definition write_of (ss : list TableSchema) (spec : EntrySpec) : result Write TableError :=
  let? sk := parse_key (find_schema ss (es_table spec)) (es_key spec) in
  let? ps := typed_params sk.1 (es_action spec) (es_params spec) in
  Ok (table_name sk.1, sk.2, es_action spec, ps).

Definition add (w : Write) s : T * result unit TableError :=
  let '(t, k, a, ps) := w in table_add t k a ps s.

(** Writes one after the other, all accepted. *)
Fixpoint add_all (ws : list Write) s : option T :=
  match ws with
  | [] => Some s
  | w :: ws => match add w s with (s, Ok _) => add_all ws s | (_, Err _) => None end
  end.

Lemma install_spec spec s :
  install spec s = match write_of (schemas s) spec with Ok w => add w s | Err e => (s, Err e) end.
Proof.
  unfold install, write_of, schema. destruct (parse_key _ _) as [[sch k] |]; [| done]. cbn.
  by destruct (typed_params _ _ _).
Qed.

Lemma add_kept w s : inv s -> inv (add w s).1 /\ schemas (add w s).1 = schemas s.
Proof. destruct w as [[[t k] a] ps]. intros Hi. cbn. split; [by apply law_add_inv | apply law_add_schemas]. Qed.

Lemma add_err w s s' e : inv s -> add w s = (s', Err e) -> same_tables s s'.
Proof. destruct w as [[[t k] a] ps]. cbn. apply law_add_err. Qed.

Lemma apply_from_spec total i entries s :
  inv s ->
  inv (apply_from total i entries s).1 /\ schemas (apply_from total i entries s).1 = schemas s /\
  match apply_from total i entries s with
  | (s', Ok n) => n = total /\ exists ws,
      Forall2 (fun e w => write_of (schemas s) e = Ok w) entries ws /\ add_all ws s = Some s'
  | (s', Err message) => exists before bad after ws mid e,
      entries = before ++ bad :: after /\
      Forall2 (fun e w => write_of (schemas s) e = Ok w) before ws /\ add_all ws s = Some mid /\
      same_tables mid s' /\ message = entry_message (i + length before) bad e total /\
      (write_of (schemas s) bad = Err e \/ exists w, write_of (schemas s) bad = Ok w /\ (add w mid).2 = Err e)
  end.
Proof.
  revert i s. induction entries as [| x entries IH]; intros i s Hi; cbn [apply_from].
  { split_and!; try done. exists []. by split. }
  rewrite install_spec. destruct (write_of (schemas s) x) as [w | e] eqn:Hw.
  - destruct (add w s) as [s1 r] eqn:Ha. destruct (add_kept w s Hi) as [Hi1 Hs1]. rewrite Ha in Hi1, Hs1. cbn in Hi1, Hs1.
    destruct r as [[] | e].
    + destruct (IH (S i) s1 Hi1) as (Hi' & Hs' & Hr). rewrite Hs1 in Hs'. split_and!; [done | done |].
      destruct (apply_from total (S i) entries s1) as [s' [n | m]].
      * destruct Hr as (-> & ws & Hws & Hall). split; [done |]. exists (w :: ws). rewrite Hs1 in Hws.
        split; [by constructor |]. cbn. by rewrite Ha.
      * destruct Hr as (before & bad & after & ws & mid & e & -> & Hws & Hall & Hsame & -> & Hbad).
        rewrite Hs1 in Hws, Hbad. exists (x :: before), bad, after, (w :: ws), mid, e.
        split_and!; [done | by constructor | cbn; by rewrite Ha | done | f_equal; cbn [length]; lia | done].
    + pose proof (add_err w s s1 e Hi Ha). split_and!; [done | done |].
      exists [], x, entries, [], s, e. split_and!; [done | constructor | done | done | f_equal; cbn [length]; lia |].
      right. exists w. by rewrite Ha.
  - split_and!; [done | done |]. exists [], x, entries, [], s, e.
    split_and!; [done | constructor | done | done | f_equal; cbn [length]; lia | by left].
Qed.

(** A batch stops at the first entry that is refused.  Applied, it has
    written every entry in order; refused, the entries before the one the
    message names are written in order, that one and those after it are not, and
    the message says which it was, why, and how many took effect. *)
Theorem batch_stops_at_first_refusal s entries :
  inv s ->
  match apply_entries entries s with
  | (s', Ok n) => n = length entries /\ exists ws,
      Forall2 (fun e w => write_of (schemas s) e = Ok w) entries ws /\ add_all ws s = Some s'
  | (s', Err message) => exists before bad after ws mid e,
      entries = before ++ bad :: after /\
      Forall2 (fun e w => write_of (schemas s) e = Ok w) before ws /\ add_all ws s = Some mid /\
      same_tables mid s' /\ message = entry_message (length before) bad e (length entries) /\
      (write_of (schemas s) bad = Err e \/ exists w, write_of (schemas s) bad = Ok w /\ (add w mid).2 = Err e)
  end.
Proof. intros Hi. by apply (apply_from_spec (length entries) 0 entries s). Qed.
End batches.

(** ** Conversations *)

Section requests.
Context {T : Type} {inv : T -> Prop} `{TableLaws T inv} {J : Type}.
Implicit Types c : Context T J.

Fixpoint handle_all (reqs : list (u64 * u64 * CtlRequest)) c : Context T J * list (CtlResponse J) :=
  match reqs with
  | [] => (c, [])
  | (mono, wall, r) :: reqs =>
      let '(c, reply) := handle mono wall r c in
      let '(c, replies) := handle_all reqs c in (c, reply :: replies)
  end.

Definition is_shutdown (r : CtlRequest) : bool := match r with ReqShutdown => true | _ => false end.

(** The punt queue as a queue of frames, when there is one. *)
Definition punt_holds (mtu depth : nat) (ring : option Ring) (q : option (list PuntFrame)) : Prop :=
  match ring, q with Some r, Some q => ring_holds mtu depth r q | None, None => True | _, _ => False end.

(** What a request makes of that queue, and what a drain is answered: the oldest
    frames and how many are left. *)
Definition punt_request (r : CtlRequest) (q : option (list PuntFrame)) : option (list PuntFrame) * option (list PuntedFrame * nat) :=
  match r, q with
  | ReqPuntDrain max, Some q =>
      let n := ((max `min` PUNT_DRAIN_MAX) `min` length q)%nat in
      (Some (drop n q), Some (punted_frame <$> take n q, (length q - n)%nat))
  | _, _ => (q, None)
  end.

Fixpoint punt_requests (reqs : list (u64 * u64 * CtlRequest)) q : option (list PuntFrame) * list (option (list PuntedFrame * nat)) :=
  match reqs with
  | [] => (q, [])
  | (_, r) :: reqs => let '(q, a) := punt_request r q in let '(q, answers) := punt_requests reqs q in (q, a :: answers)
  end.

Definition punt_answer (reply : CtlResponse J) : option (list PuntedFrame * nat) :=
  match reply with Punted frames remaining => Some (frames, remaining) | _ => None end.

Lemma handle_punt mono wall r c mtu depth q :
  punt_holds mtu depth (cx_punt c) q ->
  punt_holds mtu depth (cx_punt (handle mono wall r c).1) (punt_request r q).1 /\
  punt_answer (handle mono wall r c).2 = (punt_request r q).2.
Proof.
  intros Hq. destruct r; cbn [handle punt_request]; try done.
  - by destruct (apply_entries entries (cx_tables c)) as [s []].
  - destruct (parse_key _ _) as [[] |]; [| done]. unfold reply_count. by destruct (table_remove _ _ (cx_tables c)) as [s []].
  - by destruct (table_dump table (cx_tables c)), (table_default table (cx_tables c)).
  - destruct (rbind _ _) as [[] |]; [| done]. unfold reply_count. by destruct (table_set_default _ _ _ (cx_tables c)) as [s []].
  - by destruct (table_clear table (cx_tables c)) as [s []].
  - destruct (cx_punt c) as [ring |] eqn:Er, q as [q |]; try done; [| cbn; by rewrite Er]. cbn [punt_holds] in Hq.
    unfold punt_drain. rewrite (proj1 (rh_len _ _ _ _ Hq)).
    destruct (drain_holds mtu depth _ ring q Hq (Nat.le_min_r (max `min` PUNT_DRAIN_MAX) (length q))) as (r' & -> & Hr').
    cbn [default id fst snd with_punt cx_punt punt_holds punt_answer]. split; [exact Hr' |].
    by rewrite (proj1 (rh_len _ _ _ _ Hr')), length_drop.
Qed.

(** What no request changes, and what every request keeps. *)
Record steady c c' (stop : bool) : Prop := {
  st_inv : inv (cx_tables c');
  st_schemas : schemas (cx_tables c') = schemas (cx_tables c);
  st_metrics : cx_metrics c' = cx_metrics c;
  st_info : cx_info c' = cx_info c;
  st_stop : cx_stop c' = cx_stop c || stop;
  st_punt : forall mtu depth q, punt_holds mtu depth (cx_punt c) q -> exists n, punt_holds mtu depth (cx_punt c') (drop n <$> q);
}.

(** A request takes at most the front of the queue. *)
Lemma punt_request_drops r q : exists n, (punt_request r q).1 = drop n <$> q.
Proof. destruct r, q as [q |]; cbn [punt_request fst]; try (by exists 0%nat); by eexists. Qed.

Lemma handle_punt_drops mono wall r c mtu depth q :
  punt_holds mtu depth (cx_punt c) q -> exists n, punt_holds mtu depth (cx_punt (handle mono wall r c).1) (drop n <$> q).
Proof.
  intros Hq. destruct (punt_request_drops r q) as [n Hn]. exists n. rewrite <- Hn. by apply handle_punt.
Qed.

Lemma handle_steady mono wall r c :
  inv (cx_tables c) -> steady c (handle mono wall r c).1 (is_shutdown r).
Proof.
  intros Hi. assert (forall c', inv (cx_tables c') -> schemas (cx_tables c') = schemas (cx_tables c) -> cx_metrics c' = cx_metrics c ->
    cx_info c' = cx_info c -> cx_stop c' = cx_stop c || is_shutdown r -> c' = (handle mono wall r c).1 -> steady c c' (is_shutdown r)) as Hs.
  { intros c' ? ? ? ? ? ->. split; try done. intros mtu depth q. apply handle_punt_drops. }
  apply Hs; [.. | done]; clear Hs; destruct r; cbn [handle is_shutdown]; rewrite ?orb_false_r, ?orb_true_r; try done;
    try (by destruct (parse_key _ _) as [[] |]); try (by destruct (rbind _ _) as [[] |]);
    try (by destruct (table_clear table (cx_tables c))); try (by destruct (apply_entries entries (cx_tables c)));
    try (destruct (cx_punt c) as [?|]; [| done]; by destruct (default _ _)).
  - destruct (apply_from_spec (length entries) 0 entries (cx_tables c) Hi) as (H1 & H2 & _).
    unfold apply_entries. by destruct (apply_from _ _ _ _) as [s r].
  - destruct (parse_key _ _) as [[sch k] |]; [| done]. cbn. by apply law_remove_inv.
  - destruct (rbind _ _) as [[sch ps] |]; [| done]. cbn. by apply law_set_default_inv.
  - pose proof (law_clear_inv table _ Hi). by destruct (table_clear _ _) as [s r].
  - destruct (apply_from_spec (length entries) 0 entries (cx_tables c) Hi) as (H1 & H2 & _).
    unfold apply_entries. by destruct (apply_from _ _ _ _) as [s r].
  - destruct (parse_key _ _) as [[sch k] |]; [| done]. cbn. apply law_remove_schemas.
  - destruct (rbind _ _) as [[sch ps] |]; [| done]. cbn. apply law_set_default_schemas.
  - pose proof (law_clear_schemas table (cx_tables c)). by destruct (table_clear _ _) as [s r].
Qed.

Lemma steady_trans c1 c2 c3 a b : steady c1 c2 a -> steady c2 c3 b -> steady c1 c3 (a || b).
Proof.
  intros [] [? ? ? ? ? Hp]. split; try congruence; [rewrite orb_assoc; congruence |]. intros mtu depth q Hq.
  destruct (st_punt0 _ _ _ Hq) as [n Hn]. destruct (Hp _ _ _ Hn) as [m Hm]. exists (n + m)%nat.
  destruct q; [| done]. cbn [fmap option_fmap option_map] in *. by rewrite <- drop_drop.
Qed.

(** A refusal other than a batch's leaves everything as the client sees it. *)
Lemma refusal_keeps mono wall r c message :
  inv (cx_tables c) -> (handle mono wall r c).2 = RspError message ->
  match r with ReqTableAdd _ => True | _ =>
    same_tables (cx_tables c) (cx_tables (handle mono wall r c).1) /\
    cx_punt (handle mono wall r c).1 = cx_punt c end.
Proof.
  intros Hi Hr. destruct r; cbn [handle] in *; try done.
  - destruct (parse_key _ _) as [[sch k] |]; [| done]. unfold reply_count in *. cbn in *.
    destruct (table_remove (table_name sch) k (cx_tables c)) as [s [] ] eqn:E; [done |].
    cbn. split; [by eapply law_remove_err | done].
  - destruct (rbind _ _) as [[sch ps] |]; [| done]. unfold reply_count in *. cbn in *.
    destruct (table_set_default (table_name sch) action ps (cx_tables c)) as [s []] eqn:E; [done |].
    cbn. split; [by eapply law_set_default_err | done].
  - destruct (table_clear table (cx_tables c)) as [s [] ] eqn:E; [done |].
    cbn. split; [by eapply law_clear_err | done].
  - destruct (cx_punt c) as [q |] eqn:E; [| cbn; by rewrite E].
    destruct (default (q, []) (punt_drain (max `min` PUNT_DRAIN_MAX) q)) as [q' frames]. discriminate Hr.
Qed.

Lemma handle_all_steady reqs c :
  inv (cx_tables c) ->
  length (handle_all reqs c).2 = length reqs /\
  steady c (handle_all reqs c).1 (existsb (fun x => is_shutdown x.2) reqs).
Proof.
  revert c. induction reqs as [| [[mono wall] r] reqs IH]; intros c Hi; cbn [handle_all existsb snd].
  { split; [done |]. split; try done; [cbn; by rewrite orb_false_r |]. intros mtu depth q Hq. exists 0%nat. by destruct q. }
  pose proof (handle_steady mono wall r c Hi) as H1. destruct (handle mono wall r c) as [c1 reply]. cbn in H1.
  destruct (IH c1 (st_inv _ _ _ H1)) as [H2 H3]. destruct (handle_all reqs c1) as [c2 replies]. cbn in *.
  split; [by f_equal | by eapply steady_trans].
Qed.

(** The queue and the answers of a conversation. *)
Lemma handle_all_punt mtu depth reqs : forall c q,
  punt_holds mtu depth (cx_punt c) q ->
  punt_holds mtu depth (cx_punt (handle_all reqs c).1) (punt_requests reqs q).1 /\
  punt_answer <$> (handle_all reqs c).2 = (punt_requests reqs q).2.
Proof.
  induction reqs as [| [[mono wall] r] reqs IH]; intros c q Hq; [done |]. cbn [handle_all punt_requests].
  destruct (handle_punt mono wall r c mtu depth q Hq) as [H1 H2]. destruct (handle mono wall r c) as [c1 reply].
  destruct (punt_request r q) as [q1 a]. cbn [fst snd] in *. destruct (IH c1 q1 H1) as [H3 H4].
  destruct (handle_all reqs c1) as [c2 replies], (punt_requests reqs q1) as [q2 answers]. cbn [fst snd] in *.
  split; [done |]. rewrite fmap_cons. by f_equal.
Qed.

(** C16: every request gets exactly one reply, whatever is asked and in whatever
    order; the tables keep their invariant and their schemas, the counters and
    the node's description are only read, and the stop flag is raised exactly by
    a shutdown.  Each drain of the punt queue is answered the oldest frames in it,
    in order and at most [PUNT_DRAIN_MAX], with how many are left, and exactly
    those are left, in order; no other request touches the queue.  In any state so
    reached, a request that is refused (other than a batch, which says how far it
    got) leaves every table and the punt queue as the client sees them. *)
Theorem control_requests_are_sound reqs c :
  inv (cx_tables c) ->
  let '(c', replies) := handle_all reqs c in
  length replies = length reqs /\ steady c c' (existsb (fun x => is_shutdown x.2) reqs) /\
  (forall mtu depth q, punt_holds mtu depth (cx_punt c) q ->
    punt_holds mtu depth (cx_punt c') (punt_requests reqs q).1 /\ punt_answer <$> replies = (punt_requests reqs q).2) /\
  forall mono wall r message,
    (handle mono wall r c').2 = RspError message ->
    match r with ReqTableAdd _ => True | _ =>
      same_tables (cx_tables c') (cx_tables (handle mono wall r c').1) /\
      cx_punt (handle mono wall r c').1 = cx_punt c' end.
Proof.
  intros Hi. destruct (handle_all_steady reqs c Hi) as [Hl Hs]. pose proof (fun mtu depth => handle_all_punt mtu depth reqs c) as Hp.
  destruct (handle_all reqs c) as [c' replies].
  split_and!; [done | done | exact Hp |]. intros mono wall r message. apply refusal_keeps, Hs.
Qed.
End requests.

(** A punt drain hands over the oldest frames in the queue, at most
    [PUNT_DRAIN_MAX] of them, says how many are left, and leaves exactly those;
    each frame's text decodes to the bytes that were punted, with the vport it
    came from and the time it arrived. *)
Theorem punt_drain_reply `{TableOps T} {J} (c : Context T J) mtu depth r q mono wall max :
  cx_punt c = Some r -> ring_holds mtu depth r q ->
  let n := ((max `min` PUNT_DRAIN_MAX) `min` length q)%nat in
  exists r' frames, handle mono wall (ReqPuntDrain max) c = (with_punt r' c, Punted frames (length q - n)) /\
    ring_holds mtu depth r' (drop n q) /\
    Forall2 (fun w f => pt_ingress_vport w = pf_ingress_vport f /\ pt_rx_ts_us w = pf_rx_ts_us f /\
                        decode (pt_frame_b64 w) = Some (pf_bytes f)) frames (take n q).
Proof.
  intros Hp Hr n. cbn [handle]. rewrite Hp. unfold punt_drain.
  assert (ring_len r = length q) as Hl by apply (rh_len _ _ _ _ Hr). rewrite Hl.
  destruct (drain_holds mtu depth n r q Hr) as (r' & E & Hr'); [lia |].
  change ((max `min` PUNT_DRAIN_MAX) `min` length q)%nat with n. rewrite E.
  exists r', (punted_frame <$> take n q). cbn [default]. split_and!; [| done |].
  - pose proof (proj1 (rh_len _ _ _ _ Hr')) as Hl'. rewrite length_drop in Hl'. by rewrite <- Hl'.
  - apply Forall2_fmap_l, Forall_Forall2_diag, Forall_true. intros f. split_and!; try done. apply b64_round_trip.
Qed.

(** The native router under its control channel: two routes are asked for, and
    the second names an action the program has not. *)
Module Sample.
Definition spec (key action : string) (ps : Params) : EntrySpec :=
  {| es_table := "ipv4_lpm"; es_key := key; es_action := action; es_params := ps |}.

Definition good : EntrySpec :=
  spec "10.0.0.0/24" "forward" (from_args ["dmac=02:00:00:00:00:01"; "port=1"]).
Definition bad : EntrySpec := spec "10.0.1.0/24" "forward" Params_default.

Definition router : L3.L3Fwd := L3.new {| vports := [] |}.

Definition context : Context L3.L3Fwd unit := {|
  cx_info := {| in_node := "n"; in_version := "0"; in_pipeline := "l3fwd"; in_pipeline_summary := "";
                in_uptime_s := U64 0; in_threads := 1; in_fabric := "ipv4"; in_inner_mtu := 1450; in_bind := "";
                in_punt_enabled := true; in_vports := []; in_probe := tt |};
  cx_started_us := U64 0;
  cx_metrics := {| m_node := "n"; m_global := []; m_vports := []; m_vport_ids := []; m_hists := [] |};
  cx_tables := router; cx_punt := Some (punt_with_depth 2 4); cx_stop := false;
|}.

Lemma router_inv : L3.l3_inv router.
Proof. unfold L3.l3_inv. cbn. apply Lpm.wf_new. Qed.

Lemma batch_witness :
  match apply_entries [good; bad; good] router with
  | (_, Ok _) => False
  | (s', Err message) =>
      message = "entry 1 (ipv4_lpm 10.0.1.0/24): ipv4_lpm.forward takes 2 parameter(s), got 0 [1 of 3 applied]" /\
      exists ws mid, add_all ws router = Some mid /\ same_tables mid s'
  end.
Proof.
  pose proof (batch_stops_at_first_refusal router [good; bad; good] router_inv) as H.
  assert ((apply_entries [good; bad; good] router).2 =
    Err "entry 1 (ipv4_lpm 10.0.1.0/24): ipv4_lpm.forward takes 2 parameter(s), got 0 [1 of 3 applied]") as E
    by (vm_compute; reflexivity).
  destruct (apply_entries [good; bad; good] router) as [s' [n | m]]; cbn [snd] in E; [discriminate E |].
  injection E as ->. split; [reflexivity |].
  destruct H as (_ & _ & _ & ws & mid & _ & _ & _ & Hall & Hsame & _). by exists ws, mid.
Defined.

(** With a frame in the queue. *)
Definition punted_one : Ring := (punt_push [U8 7] (U16 1) (U32 60) (punt_with_depth 2 4)).1.

Lemma requests_witness :
  let '(c', replies) := handle_all
    [(U64 0, U64 0, ReqTableAdd [good]); (U64 0, U64 0, ReqPuntDrain 5); (U64 0, U64 0, ReqPuntDrain 5); (U64 0, U64 0, ReqShutdown)]
    (with_punt punted_one context) in
  length replies = 4%nat /\ steady (inv := L3.l3_inv) (with_punt punted_one context) c' true /\
  punt_answer <$> replies =
    [None; Some ([{| pt_ingress_vport := U16 1; pt_rx_ts_us := U32 60; pt_frame_b64 := "Bw==" |}], 0%nat); Some ([], 0%nat); None].
Proof.
  pose proof (control_requests_are_sound (inv := L3.l3_inv)
    [(U64 0, U64 0, ReqTableAdd [good]); (U64 0, U64 0, ReqPuntDrain 5); (U64 0, U64 0, ReqPuntDrain 5); (U64 0, U64 0, ReqShutdown)]
    (with_punt punted_one context) router_inv) as H.
  destruct (handle_all _ _) as [c' replies]. destruct H as (H1 & H2 & H3 & _). split; [exact H1 |]. split; [exact H2 |].
  refine (eq_trans (proj2 (H3 4%nat 2%nat (Some [{| pf_ingress_vport := U16 1; pf_rx_ts_us := U32 60; pf_bytes := [U8 7] |}]) _)) _).
  - exact (proj1 (push_holds 4 2 _ [] [U8 7] (U16 1) (U32 60) (ring_holds_new 2 4))).
  - vm_compute. reflexivity.
Defined.

(** A ring of two slots of four bytes, empty. *)
Lemma punt_drain_witness :
  exists r' frames, handle (U64 0) (U64 0) (ReqPuntDrain 5) context = (with_punt r' context, Punted frames 0) /\
    frames = [].
Proof.
  destruct (punt_drain_reply context 4 2 (punt_with_depth 2 4) [] (U64 0) (U64 0) 5 eq_refl (ring_holds_new 2 4))
    as (r' & frames & H & _ & F). exists r', frames. split; [exact H |]. by inversion F.
Defined.
End Sample.
