(* ===== verification/Codec.v ===== *)
(** * Control frames (crates/up4-ctl/src/{codec,client}.rs)

    The length-prefixed messages of the control socket.  [serde_json] is a pair
    of functions, the socket a state that is read and written; the scratch
    buffer is the caller's and keeps what earlier messages left in it. *)

From S2P Require Import Prelude Bytes Socket.

Local Open Scope Z_scope.

Definition MAX_FRAME : Z := 256 * 1024.
Definition LEN_PREFIX : nat := 4.

(** What [codec] returns as an [io::Error]. *)
Inductive CodecError :=
  | TooLarge (len : Z)
  | NoPrefix
  | Disagrees (declared arrived : Z)
  | Serde (what : string)
  | UnexpectedEof
  | SockError (e : IoError).

Definition codec_transient (e : CodecError) : bool :=
  match e with SockError e => is_transient e | _ => false end.

(** [Vec::resize] with zeros. *)
Definition resize (n : nat) (l : bytes) : bytes := take n l ++ replicate (n - length l) (U8 0).

Definition SCRATCH : nat := LEN_PREFIX + Z.to_nat MAX_FRAME.
Arguments SCRATCH : simpl never.

Section codec.
Context {M : Type} (to_vec : M -> result bytes string) (from_slice : bytes -> result M string).

(** The bytes [send] writes. *)
Definition frame_of (m : M) : result bytes CodecError :=
  let? body := map_err Serde (to_vec m) in
  match (n ← try_u 32 (Z.of_nat (length body)); if uv n <=? MAX_FRAME then Some n else None) with
  | None => Err (TooLarge (Z.of_nat (length body)))
  | Some len => Ok (u32_be len ++ body)
  end.

(** [recv] once the socket has delivered [arrived]: a message longer than the
    buffer is cut, as [SOCK_SEQPACKET] does.  The difference in the refusal
    wraps where fewer bytes than a prefix arrived; with overflow checks on it
    is a panic. *)
Definition message_of (scratch arrived : bytes) : bytes * result (option M) CodecError :=
  let buf := resize SCRATCH scratch in
  let n := (length arrived `min` length buf)%nat in
  let buf := copy_at 0 (take n arrived) buf in
  if (n =? 0)%nat then (buf, Ok None)
  else
    match first_chunk LEN_PREFIX buf with
    | None => (buf, Err NoPrefix)
    | Some prefix =>
        let len := uv (be_u32 prefix) in
        if negb (Z.of_nat LEN_PREFIX + len =? Z.of_nat n)
        then (buf, Err (Disagrees len ((Z.of_nat n - Z.of_nat LEN_PREFIX) mod 2 ^ 64)))
        else (buf, match from_slice (slice LEN_PREFIX n buf) with Ok m => Ok (Some m) | Err e => Err (Serde e) end)
    end.
End codec.

(** A connected socket. *)
Class Sock (K : Type) := {
  sock_write : bytes -> K -> K * result unit IoError;
  sock_read : K -> K * result bytes IoError;
}.

Section channel.
Context `{Sock K}.

(** [codec::send] *)
Definition codec_send {M} (to_vec : M -> result bytes string) (m : M) (s : K) : K * result unit CodecError :=
  match frame_of to_vec m with
  | Err e => (s, Err e)
  | Ok f => let '(s, r) := sock_write f s in (s, map_err SockError r)
  end.

(** [codec::recv] *)
Definition codec_recv {M} (from_slice : bytes -> result M string) (s : K) (buf : bytes)
    : K * bytes * result (option M) CodecError :=
  match sock_read s with
  | (s, Err e) => (s, resize SCRATCH buf, Err (SockError e))
  | (s, Ok arrived) => let '(buf, r) := message_of from_slice buf arrived in (s, buf, r)
  end.

(** [Client::call] *)
Definition call {Q R} (to_vec : Q -> result bytes string) (from_slice : bytes -> result R string)
    (request : Q) (s : K) (buf : bytes) : K * bytes * result R CodecError :=
  match codec_send to_vec request s with
  | (s, Err e) => (s, buf, Err e)
  | (s, Ok _) =>
      match codec_recv from_slice s buf with
      | (s, buf, Ok (Some r)) => (s, buf, Ok r)
      | (s, buf, Ok None) => (s, buf, Err UnexpectedEof)
      | (s, buf, Err e) => (s, buf, Err e)
      end
  end.
End channel.

(** ** Lemmas *)

Lemma length_resize n l : length (resize n l) = n.
Proof. unfold resize. rewrite length_app, length_take, length_replicate. lia. Qed.

Lemma SCRATCH_Z : Z.of_nat SCRATCH = 262148.
Proof. unfold SCRATCH, MAX_FRAME, LEN_PREFIX. lia. Qed.

Lemma copy_front {A} (src l : list A) :
  (length src <= length l)%nat -> copy_at 0 src l = src ++ drop (length src) l.
Proof.
  intros Hl. rewrite <- (take_drop (length src) l) at 1. apply list_inserts_0_r. rewrite length_take. lia.
Qed.

Lemma frame_of_Ok {M} (to_vec : M -> result bytes string) m f :
  frame_of to_vec m = Ok f <->
  exists body, to_vec m = Ok body /\ Z.of_nat (length body) <= MAX_FRAME /\ f = be_bytes 4 (Z.of_nat (length body)) ++ body.
Proof.
  unfold frame_of. destruct (to_vec m) as [body |]; cbn [map_err rbind]; [| split; [done | by intros (? & [=] & _)]].
  assert (forall n : u32, Z.of_nat (length body) = uv n -> u32_be n = be_bytes 4 (Z.of_nat (length body))) as Hb.
  { intros n Hn. unfold u32_be. by rewrite <- Hn. }
  destruct (try_u 32 (Z.of_nat (length body))) as [n |] eqn:E; cbn [mbind option_bind].
  - apply try_u_Some in E. rewrite <- E. destruct (Z.leb_spec (Z.of_nat (length body)) MAX_FRAME).
    + rewrite (Hb n E). split; [intros [= <-]; by exists body | by intros (? & [= <-] & _ & ->)].
    + split; [done | intros (? & [= <-] & ? & _); lia].
  - split; [done |]. intros (? & [= <-] & Hm & _). exfalso.
    unfold try_u in E. destruct (in_width _ _) eqn:W; [done |]. apply not_true_iff_false in W. apply W, in_width_spec.
    unfold MAX_FRAME in Hm. change (2 ^ Z.of_N 32) with 4294967296. lia.
Qed.

(** ** Properties *)

Section frames.
Context {M : Type} (to_vec : M -> result bytes string) (from_slice : bytes -> result M string).
Hypothesis serde_inverse : forall m body, to_vec m = Ok body -> from_slice body = Ok m.

(** The bytes [arrived] leaves in the reader's buffer are one frame: a prefix,
    and as many bytes as it says. *)
Definition whole (f : bytes) : Prop := f = be_bytes 4 (Z.of_nat (length (drop 4 f))) ++ drop 4 f.

Definition parsed (body : bytes) : result (option M) CodecError :=
  match from_slice body with Ok m => Ok (Some m) | Err e => Err (Serde e) end.

#[local] Instance whole_dec f : Decision (whole f).
Proof. unfold whole. apply _. Defined.

Lemma whole_frame body : whole (be_bytes 4 (Z.of_nat (length body)) ++ body).
Proof. unfold whole. by rewrite drop_app_length' by (by rewrite length_be_bytes). Qed.

(** The prefix agrees with the length exactly where the bytes are one frame. *)
Lemma whole_prefix f :
  (4 <= length f <= SCRATCH)%nat -> be_val (take 4 f) + 4 = Z.of_nat (length f) <-> whole f.
Proof.
  intros Hl. pose proof SCRATCH_Z as HS. unfold whole.
  assert (length (take 4 f) = 4%nat) as L4 by (rewrite length_take; lia).
  assert (length (drop 4 f) = length f - 4)%nat as Ld by apply length_drop. split.
  - intros Hv. rewrite <- (take_drop 4 f) at 1. f_equal. rewrite <- L4 at 2.
    replace (Z.of_nat (length (drop 4 f))) with (be_val (take 4 f)) by lia. by rewrite be_bytes_be_val.
  - intros Hf. rewrite Hf at 1. rewrite take_app_length' by (by rewrite length_be_bytes).
    rewrite be_val_be_bytes. change (256 ^ Z.of_nat 4) with 4294967296. rewrite Z.mod_small by lia. lia.
Qed.

(** What is read of any bytes, over any scratch. *)
Lemma message_of_any scratch arrived :
  let f := take SCRATCH arrived in
  f <> [] -> exists buf declared, message_of from_slice scratch arrived =
    (buf, if decide (whole f) then parsed (drop 4 f)
          else Err (Disagrees declared ((Z.of_nat (length f) - 4) mod 2 ^ 64))).
Proof.
  intros f Hne. assert (length f = length arrived `min` SCRATCH)%nat as Lf by (unfold f; rewrite length_take; lia).
  assert (0 < length f)%nat as Hpos by (destruct f; [done | cbn; lia]).
  pose proof SCRATCH_Z as HS. set (buf0 := resize SCRATCH scratch).
  assert (length buf0 = SCRATCH) as H0 by apply length_resize.
  unfold message_of. fold buf0. rewrite H0. rewrite <- Lf.
  assert (take (length f) arrived = f) as ->.
  { rewrite Lf. unfold f. rewrite Nat.min_comm, <- take_take. f_equal. by rewrite take_ge. }
  rewrite copy_front by lia. set (buf := f ++ drop (length f) buf0).
  assert (length buf = SCRATCH) as Hl by (unfold buf; rewrite length_app, length_drop; lia).
  rewrite (proj2 (Nat.eqb_neq (length f) 0)) by lia. unfold first_chunk, LEN_PREFIX. rewrite decide_True by lia.
  exists buf, (uv (be_u32 (take 4 buf))).
  assert (length (take 4 buf) = 4%nat) as L4 by (rewrite length_take; lia).
  pose proof (be_val_bound (take 4 buf)) as Hb. rewrite (uv_be_u32 _ L4).
  destruct (decide (length f < 4)%nat).
  - rewrite (proj2 (Z.eqb_neq _ _)) by lia. rewrite decide_False; [done |].
    intros Hw. apply (f_equal length) in Hw. rewrite length_app, length_be_bytes in Hw. lia.
  - assert (take 4 buf = take 4 f) as E4 by (unfold buf; by rewrite take_app_le by lia). rewrite E4.
    pose proof (whole_prefix f ltac:(lia)) as Hw. case_decide as D.
    + rewrite (proj2 (Z.eqb_eq _ _)) by (apply Hw in D; lia). cbn [negb].
      assert (slice 4 (length f) buf = drop 4 f) as ->; [| done].
      unfold slice, buf. rewrite drop_app_le by lia. rewrite take_app_le by (rewrite length_drop; lia).
      apply take_ge. rewrite length_drop. lia.
    + rewrite (proj2 (Z.eqb_neq _ _)); [done |]. intros E. apply D, Hw. lia.
Qed.

(** What is read of a frame. *)
Lemma message_of_frame scratch body :
  Z.of_nat (length body) <= MAX_FRAME ->
  exists buf, message_of from_slice scratch (be_bytes 4 (Z.of_nat (length body)) ++ body) = (buf, parsed body).
Proof.
  intros Hb. pose proof SCRATCH_Z as HS. unfold MAX_FRAME in Hb. set (f := be_bytes 4 _ ++ body).
  assert (length f = 4 + length body)%nat as Lf by (unfold f; rewrite length_app, length_be_bytes; lia).
  assert (take SCRATCH f = f) as Hf by (apply take_ge; lia).
  destruct (message_of_any scratch f) as (buf & declared & ->); rewrite Hf; [by intros ->|].
  exists buf. rewrite decide_True by apply whole_frame. unfold f.
  by rewrite drop_app_length' by (by rewrite length_be_bytes).
Qed.

(** C31: a message is sent exactly when its encoding fits a control frame; what
    was sent is read back as the same message, whatever the reader's buffer
    held.  Whatever else arrives, what fits the reader's buffer is parsed only
    where its first four bytes are the number of the bytes after them: any
    other number, larger or smaller than what arrived, and any arrival too
    short to hold one, is refused as disagreeing, whatever stale bytes of the
    buffer complete the prefix. *)
Theorem frames_round_trip m body scratch :
  to_vec m = Ok body ->
  (if decide (Z.of_nat (length body) <= MAX_FRAME) then
    exists f, frame_of to_vec m = Ok f /\ (message_of from_slice scratch f).2 = Ok (Some m)
   else frame_of to_vec m = Err (TooLarge (Z.of_nat (length body)))) /\
  forall arrived, let f := take SCRATCH arrived in f <> [] ->
    (exists rest, f = be_bytes 4 (Z.of_nat (length rest)) ++ rest /\
      (message_of from_slice scratch arrived).2 =
        match from_slice rest with Ok m => Ok (Some m) | Err e => Err (Serde e) end) \/
    ((forall rest, f <> be_bytes 4 (Z.of_nat (length rest)) ++ rest) /\
      exists declared, (message_of from_slice scratch arrived).2 =
        Err (Disagrees declared ((Z.of_nat (length f) - 4) mod 2 ^ 64))).
Proof using serde_inverse.
  intros Hm. split.
  - case_decide as Hb.
    + exists (be_bytes 4 (Z.of_nat (length body)) ++ body). split; [apply frame_of_Ok; by exists body |].
      destruct (message_of_frame scratch body Hb) as [buf ->]. unfold parsed. by rewrite (serde_inverse m).
    + destruct (frame_of to_vec m) as [f | e] eqn:E.
      * apply frame_of_Ok in E as (b & Hb' & Hl & _). rewrite Hm in Hb'. by injection Hb' as <-.
      * unfold frame_of in E. rewrite Hm in E. cbn [map_err rbind] in E. match type of E with match ?x with _ => _ end = _ => destruct x end; congruence.
  - intros arrived f Hne. destruct (message_of_any scratch arrived Hne) as (buf & declared & ->). fold f.
    case_decide as D; [left; exists (drop 4 f); by split |]. right. split; [| by exists declared].
    intros rest Hf. apply D. rewrite Hf. apply whole_frame.
Qed.
End frames.

(** With messages that are their own encoding, and a longer message than the
    prefix says. *)
Lemma frames_round_trip_witness :
  let m := U8 <$> [123; 125] in
  let stale := U8 <$> [9; 9; 9; 9; 9] in
  (message_of (M := bytes) Ok stale (u32_be (U32 2) ++ m)).2 = Ok (Some m) /\
  exists declared arrived, (message_of (M := bytes) Ok stale (u32_be (U32 1) ++ m)).2 = Err (Disagrees declared arrived).
Proof.
  intros m stale. destruct (frames_round_trip (M := bytes) Ok Ok ltac:(by intros ? ? [= ->]) m m stale eq_refl)
    as [(f & Hf & H) Hany]. split.
  - assert (frame_of Ok m = Ok (u32_be (U32 2) ++ m)) as E by (vm_compute; reflexivity). congruence.
  - assert (take SCRATCH (u32_be (U32 1) ++ m) = u32_be (U32 1) ++ m) as Et.
    { apply take_ge. pose proof SCRATCH_Z as HS. assert (length (u32_be (U32 1) ++ m) = 6%nat) as -> by done. lia. }
    destruct (Hany (u32_be (U32 1) ++ m)) as [(rest & Hr & _) | (_ & d & Hd)]; [by rewrite Et | | by eexists d, _].
    exfalso. rewrite Et in Hr. pose proof (f_equal length Hr) as L. rewrite !length_app in L.
    assert (length rest = 2%nat) as Lr by (rewrite length_be_bytes in L; cbn in L; lia). rewrite Lr in Hr.
    vm_compute in Hr. discriminate.
Defined.
