(* ===== verification/Up4ctl.v ===== *)
(** * The operator's front end (crates/up4-ctl/src/bin/up4ctl.rs, client.rs)

    Every subcommand is one request, [punt --all] a loop of them; what comes back
    is printed and turned into an exit code.  The connection is the class [Line]
    (what [Client::call] gives, an I/O error as its text), the kernel's socket
    [Dial]; JSON is a pair of functions. *)

From S2P Require Import Prelude Bytes Text Value Shim Table Publish Wire Engine Programs L2Fwd L3Fwd Config Metrics Punt B64 Messages Ctl.

Local Open Scope string_scope.

(** ** The command line *)

Inductive TableCommand :=
  | TcDump (table : string)
  | TcAdd (table key action : string) (params : list string)
  | TcDel (table key : string)
  | TcDefault (table action : string) (params : list string)
  | TcClear (table : string)
  | TcLoad (file : string).

Record PuntArgs := mkPuntArgs { pa_max : nat; pa_all : bool }.

(** The default of [--max]. *)
Definition PuntArgs_default : PuntArgs := mkPuntArgs PUNT_DRAIN_MAX false.

Inductive CtlCommand :=
  | CmdPing
  | CmdInfo
  | CmdCounters
  | CmdTables
  | CmdTable (c : TableCommand)
  | CmdPunt (a : PuntArgs)
  | CmdShutdown.

Record CtlCli := mkCtlCli { cl_socket : string; cl_json : bool; cl_command : CtlCommand }.

(** ** Printing *)

(** What a run prints, and its exit code. *)
Record Printed := mkPrinted { stdout : list string; stderr : list string; code : nat }.

Definition success (ls : list string) : Printed := mkPrinted ls [] 0.

(** [{:<n}] *)
Definition pad (n : nat) (s : string) : string :=
  s ++ unchars (replicate (n - String.length s) " "%char).

Definition show_u {w} (x : uint w) : string := unchars (dec (uv x)).

(** The order in which a [BTreeMap] with string keys is walked. *)
Definition key_le {A} (a b : string * A) : Prop := String.compare a.1 b.1 <> Gt.
#[export] Instance key_le_dec {A} (a b : string * A) : Decision (key_le a b).
Proof. unfold key_le. apply _. Defined.

Definition sorted_pairs {A} (m : gmap string A) : list (string * A) := merge_sort key_le (map_to_list m).

Definition plural (n : nat) : string := if (n =? 1)%nat then "y" else "ies".

Definition params_of (e : EntryDesc) : string :=
  join_str " " ((fun kv => kv.1 ++ "=" ++ kv.2) <$> sorted_pairs (entry_params e)).

(** What [Client::call] gives: the reply, or the text of the I/O error. *)
Class Line (S J : Type) := {
  line_call : S -> CtlRequest -> S * result (CtlResponse J) string;
}.

Section front.
  Context {J : Type}.
  (** [serde_json]: the warnings of a probe report (an array, each a string or
      not), and the pretty form of a reply. *)
  Context (warnings_of : J -> option (list (option string))).
  Context (pretty : CtlResponse J -> result string string).

Definition print_info (info : Info J) : list string :=
  let head :=
   ["node       " ++ in_node info;
    "version    up4 " ++ in_version info;
    "pipeline   " ++ in_pipeline info ++ ": " ++ in_pipeline_summary info;
    "uptime     " ++ show_u (in_uptime_s info) ++ " s";
    "bind       " ++ in_bind info ++ " (" ++ show_nat (in_threads info) ++ " shard"
      ++ (if (in_threads info =? 1)%nat then EmptyString else "s") ++ ")";
    "fabric     " ++ in_fabric info ++ " (inner MTU " ++ show_nat (in_inner_mtu info) ++ ")";
    "punt       " ++ (if in_punt_enabled info then "enabled" else "not configured");
    "vports"] in
  let warnings :=
    match warnings_of (in_probe info) with
    | Some (w :: ws) => "probe warnings" :: ((fun w => "  - " ++ default EmptyString w) <$> w :: ws)
    | _ => []
    end in
  let vport v := "  " ++ pad 5 (show_u (vi_id v)) ++ " -> " ++ vi_peer v in
  (head ++ (vport <$> in_vports info) ++ warnings)%list.

Definition print_counter (kv : string * u64) : string := "  " ++ pad 24 kv.1 ++ " " ++ show_u kv.2.

Definition print_bucket (b : HistBucket) : string :=
  match le b with
  | Some bound => "<=" ++ show_Z bound ++ ":" ++ show_u (hb_count b)
  | None => ">64:" ++ show_u (hb_count b)
  end.

Definition print_vport (v : VportSnapshot) : list string :=
  ("vport " ++ show_u (vs_id v)) :: (print_counter <$> sorted_pairs (vs_counters v)).

Definition print_hist (h : string * list HistBucket) : string :=
  pad 24 h.1 ++ " " ++ join_str " " (print_bucket <$> h.2).

Definition print_counters (s : Snapshot) : list string :=
  let head := "node " ++ sn_node s ++ " @ " ++ show_u (sn_ts_us s) ++ " us" in
  let drops := "  " ++ pad 24 "harness_drops (sum)" ++ " " ++ show_u (sn_harness_drops s) in
  (head :: (print_counter <$> sorted_pairs (sn_counters s))
   ++ drops :: (sn_vports s ≫= print_vport) ++ (print_hist <$> sorted_pairs (sn_histograms s)))%list.

Definition print_action (a : ActionDesc) : string :=
  "  action " ++ ad_name a ++ "("
    ++ join_str ", " ((fun p => pd_name p ++ ": " ++ syntax (pd_kind p)) <$> ad_params a) ++ ")".

Definition print_schema (s : SchemaDesc) : list string :=
  let (kd, value) := match sd_key s with KindExact k => ("exact", k) | KindLpm k => ("lpm", k) end in
  ("table " ++ sd_name s) :: ("  key    " ++ sd_key_field s ++ " : " ++ kd ++ "   (" ++ syntax value ++ ")")
    :: (print_action <$> sd_actions s).

Definition print_schemas (schemas : list SchemaDesc) : list string :=
  match schemas with
  | [] => ["this pipeline has no tables"]
  | _ => schemas ≫= print_schema
  end.

Definition print_frame (f : PuntedFrame) : string :=
  "vport " ++ show_u (pt_ingress_vport f) ++ " @ " ++ show_u (pt_rx_ts_us f) ++ " us  " ++ pt_frame_b64 f.

Definition print_punted (frames : list PuntedFrame) (remaining : nat) : list string :=
  let tail := newline ++ show_nat (length frames) ++ " frame(s), " ++ show_nat remaining ++ " still queued" in
  ((print_frame <$> frames) ++ [tail])%list.

Definition print_entry (e : EntryDesc) : string :=
  pad 20 (entry_key e) ++ " " ++ entry_action e ++ " " ++ params_of e.

Definition print_entries (entries : list EntryDesc) (default_ : EntryDesc) : list string :=
  let last := pad 20 "*" ++ " " ++ entry_action default_ ++ " " ++ params_of default_ ++ "   (default)" in
  let count := newline ++ show_nat (length entries) ++ " entr" ++ plural (length entries) in
  ((print_entry <$> entries) ++ [last; count])%list.

(** [report] *)
Definition report (json : bool) (response : CtlResponse J) : Printed :=
  if json then
    let text := match pretty response with
                | Ok t => t
                | Err e => "{" ++ unchars [quote] ++ "error" ++ unchars [quote] ++ ":" ++ unchars [quote] ++ e
                             ++ unchars [quote] ++ "}"
                end in
    mkPrinted [text] [] (match response with RspError _ => 1 | _ => 0 end)
  else
    match response with
    | Pong => success ["pong"]
    | ShuttingDown => success ["shutting down"]
    | Applied count => success [show_nat count ++ " entr" ++ plural count ++ " applied"]
    | RspError message => mkPrinted [] ["error: " ++ message] 1
    | RspInfo info => success (print_info info)
    | RspCounters s => success (print_counters s)
    | RspTables tables => success (print_schemas tables)
    | Entries entries default_ => success (print_entries entries default_)
    | Punted frames remaining => success (print_punted frames remaining)
    end.

(** ** Talking to the node *)

Context {S : Type} {LS : Line S J}.

(** [drain]; [None] is a loop that has not ended. *)
Fixpoint drain_loop (fuel : nat) (args : PuntArgs) (json : bool) (all : list PuntedFrame) (s : S)
    : option (S * result Printed string) :=
  match fuel with
  | O => None
  | Datatypes.S fuel =>
      match line_call s (ReqPuntDrain (pa_max args)) with
      | (s, Err e) => Some (s, Err e)
      | (s, Ok (Punted frames remaining)) =>
          let done := bool_decide (frames = []) || negb (pa_all args) || (remaining =? 0)%nat in
          let all := (all ++ frames)%list in
          if done then Some (s, Ok (report json (Punted all remaining)))
          else drain_loop fuel args json all s
      | (s, Ok response) => Some (s, Ok (report json response))
      end
  end.

Definition drain (fuel : nat) (args : PuntArgs) (json : bool) (s : S) : option (S * result Printed string) :=
  drain_loop fuel args json [] s.

(** The files and JSON of [table load]. *)
Context (read_text : string -> result string string).
Context (batch_of : string -> result EntryBatch string).

(** The request of a command that is not [punt]; an error is one of the batch
    file. *)
Definition request_of (c : CtlCommand) : result CtlRequest string :=
  match c with
  | CmdPing => Ok ReqPing
  | CmdInfo => Ok ReqInfo
  | CmdCounters => Ok ReqCounters
  | CmdTables => Ok ReqTables
  | CmdShutdown => Ok ReqShutdown
  | CmdPunt a => Ok (ReqPuntDrain (pa_max a))
  | CmdTable (TcDump table) => Ok (ReqTableDump table)
  | CmdTable (TcDel table key) => Ok (ReqTableDel table key)
  | CmdTable (TcClear table) => Ok (ReqTableClear table)
  | CmdTable (TcAdd table key action params) =>
      Ok (ReqTableAdd [{| es_table := table; es_key := key; es_action := action; es_params := from_args params |}])
  | CmdTable (TcDefault table action params) => Ok (ReqTableSetDefault table action (from_args params))
  | CmdTable (TcLoad file) =>
      let? text := map_err (fun e => "cannot read " ++ file ++ ": " ++ e) (read_text file) in
      let? batch := map_err (fun e => file ++ ": " ++ e) (batch_of text) in
      Ok (ReqTableAdd (into_entries batch))
  end.

(** [run], once connected. *)
Definition ctl_run (fuel : nat) (cli : CtlCli) (s : S) : option (S * result Printed string) :=
  match cl_command cli with
  | CmdPunt args => drain fuel args (cl_json cli) s
  | command =>
      match request_of command with
      | Err e => Some (s, Err e)
      | Ok request =>
          let (s, r) := line_call s request in
          Some (s, let? response := r in Ok (report (cl_json cli) response))
      end
  end.

(** [main], given what [Client::connect] returned. *)
Definition ctl_main (fuel : nat) (cli : CtlCli) (client : result S string) : option (option S * Printed) :=
  let failed e := mkPrinted [] ["up4ctl: " ++ e] 2 in
  match client with
  | Err e => Some (None, failed e)
  | Ok s =>
      '(s, r) ← ctl_run fuel cli s;
      Some (Some s, match r with Ok p => p | Err e => failed e end)
  end.

End front.

(** ** Connecting ([Client::connect]) *)

Class Dial (K : Type) := {
  socket_new : result K string;
  socket_connect : K -> string -> result unit string;
  set_read_timeout : K -> result unit string;
}.

Definition connect {K} `{Dial K} (path : string) : result K string :=
  let? sock := socket_new in
  let? _ := map_err (fun e => "cannot reach up4d at " ++ path ++ ": " ++ e) (socket_connect sock path) in
  let? _ := set_read_timeout sock in
  Ok sock.

(** ** What is printed can be typed back *)

(** The words of the parameters, as [params_of] joins them. *)
Definition param_words (e : EntryDesc) : list string :=
  (fun kv => kv.1 ++ "=" ++ kv.2) <$> sorted_pairs (entry_params e).

Lemma params_of_words e : params_of e = join_str " " (param_words e).
Proof. done. Qed.

(** A name without an equals sign. *)
Definition plain_name (s : string) : Prop := Forall (fun c => Ascii.eqb c "=" = false) (chars s).

Lemma chars_concat a b : chars (a ++ b) = (chars a ++ chars b)%list.
Proof.
  induction a as [| c a IH]; [done |].
  change (c :: chars (a ++ b) = c :: (chars a ++ chars b))%list. by rewrite IH.
Qed.

Lemma split_word k v : plain_name k -> split_once "=" (chars (k ++ "=" ++ v)) = Some (chars k, chars v).
Proof. intros H. rewrite !chars_concat. by apply split_once_app. Qed.

Lemma foldl_insert {A} (l : list (string * A)) m :
  foldl (fun m kv => <[kv.1 := kv.2]> m) m l = (list_to_map (reverse l) : gmap string A) ∪ m.
Proof.
  revert m. induction l as [| kv l IH]; intros m; cbn [foldl]; [by rewrite reverse_nil, list_to_map_nil, (left_id_L ∅ (∪)) |].
  rewrite IH, reverse_cons, list_to_map_app. cbn [list_to_map fst snd]. destruct kv as [k v].
  rewrite <-(assoc_L (∪)). f_equal. cbn. by rewrite <-insert_union_l, (left_id_L ∅ (∪)).
Qed.

Lemma sorted_pairs_perm {A} (m : gmap string A) : sorted_pairs m ≡ₚ map_to_list m.
Proof. apply merge_sort_Permutation. Qed.

Lemma omap_fmap_id {A B} (f : B -> option A) (g : A -> B) (l : list A) :
  (forall x, x ∈ l -> f (g x) = Some x) -> omap f (g <$> l) = l.
Proof.
  induction l as [| x l IH]; intros H; [done |]. rewrite fmap_cons. cbn [omap list_omap].
  rewrite (H x) by left. f_equal. apply IH. intros y Hy. apply H. by right.
Qed.

Lemma from_args_words e :
  entry_params e <> ∅ -> (forall k v, entry_params e !! k = Some v -> plain_name k) ->
  from_args (param_words e) = Named (entry_params e).
Proof.
  intros Hne Hp. unfold from_args, param_words.
  assert (forall kv, kv ∈ sorted_pairs (entry_params e) -> plain_name kv.1) as Hps.
  { intros [k v] Hkv. rewrite sorted_pairs_perm, elem_of_map_to_list in Hkv. by eapply Hp. }
  set (l := sorted_pairs (entry_params e)) in *.
  assert (l <> []) as Hl.
  { intros E. apply Hne. apply map_to_list_empty_iff. apply Permutation_nil. rewrite <-E.
    apply sorted_pairs_perm. }
  rewrite bool_decide_false by (intros E; apply Hl; by destruct l).
  assert (forallb has_eq ((fun kv => kv.1 ++ "=" ++ kv.2) <$> l) = true) as ->.
  { apply forallb_forall. intros w Hw%list_elem_of_In. apply list_elem_of_fmap in Hw as (kv & -> & Hkv).
    unfold has_eq. rewrite split_word by by apply Hps. by apply bool_decide_eq_true. }
  cbn [negb andb]. f_equal.
  assert (omap (fun a => (fun p => (unchars p.1, unchars p.2)) <$> split_once "=" (chars a))
            ((fun kv => kv.1 ++ "=" ++ kv.2) <$> l) = l) as ->.
  { apply omap_fmap_id. intros kv Hkv. rewrite split_word by by apply Hps.
    cbn [fmap option_fmap option_map fst snd]. rewrite !unchars_chars. by destruct kv. }
  rewrite foldl_insert, (right_id_L ∅ (∪)), <-(list_to_map_to_list (entry_params e)).
  apply list_to_map_proper.
  - assert (reverse l ≡ₚ map_to_list (entry_params e)) as E by (rewrite reverse_Permutation; apply sorted_pairs_perm).
    rewrite E. apply NoDup_fst_map_to_list.
  - rewrite reverse_Permutation. apply sorted_pairs_perm.
Qed.

(** How a table describes an entry: its key's text, its action, and each
    parameter's text under its name ([EntryDesc]). *)
Definition describes (sg : ActionSchema) (k : TypedKey) (a : string) (vs : list TypedVal) (e : EntryDesc) : Prop :=
  entry_key e = key_to_string k /\ entry_action e = a
  /\ entry_params e = list_to_map (zip (param_name <$> action_params sg) (val_to_string <$> vs)).

Lemma values_of_printed sg vs :
  kind <$> vs = param_kind <$> action_params sg -> values_of sg (val_to_string <$> vs) = Ok vs.
Proof.
  unfold values_of. generalize (action_params sg). intros ps. revert ps.
  induction vs as [| v vs IH]; intros [| p ps] H; try done. rewrite !fmap_cons in H. injection H as Hk H.
  cbn [fmap list_fmap zip zip_with rmapM fst snd]. rewrite <-Hk, parse_val_to_string. cbn [rbind].
  unfold fmap, zip in IH. by rewrite IH.
Qed.

(** The words of a described entry make the one request that installs it. *)
Lemma described_typed_back (ss : list TableSchema) sch sg t k a vs e read_text batch_of :
  find_schema ss t = Ok sch -> key_kind k = table_key sch -> key_wf k ->
  Shim.check sch a vs = Ok sg -> NoDup (param_name <$> action_params sg) ->
  Forall plain_name (param_name <$> action_params sg) ->
  describes sg k a vs e ->
  exists spec,
    request_of read_text batch_of (CmdTable (TcAdd t (entry_key e) (entry_action e) (param_words e)))
      = Ok (ReqTableAdd [spec])
    /\ write_of ss spec = Ok (t, k, a, vs).
Proof.
  intros Hs Hk Hw [Hc Hks]%check_Ok Hd Hp (Ek & Ea & Ep).
  eexists. split; [reflexivity |].
  pose proof (find_schema_name _ _ _ Hs) as Hn.
  assert (length (val_to_string <$> vs) = length (param_name <$> action_params sg)) as Hl.
  { rewrite !length_fmap. by apply (f_equal length) in Hks; rewrite !length_fmap in Hks. }
  destruct (named_texts (param_name <$> action_params sg) (val_to_string <$> vs) Hd Hl) as [Hsz Htx].
  rewrite mapM_compose in Htx.
  assert (typed_params sch a (from_args (param_words e)) = Ok vs) as Ht.
  { apply typed_params_spec. exists sg, (val_to_string <$> vs). split; [done |].
    split; [| by apply values_of_printed].
    destruct (decide (entry_params e = ∅)) as [E0 | Hne].
    - assert (param_words e = []) as ->.
      { unfold param_words, sorted_pairs. by rewrite E0, map_to_list_empty. }
      rewrite <-Ep, E0, map_size_empty, length_fmap in Hsz.
      rewrite !length_fmap, <-Hsz in Hl. destruct vs; [| done].
      change (from_args []) with (Positional []). unfold texts_of. by rewrite <-Hsz.
    - rewrite from_args_words; [| done |].
      + cbn [texts_of]. rewrite Ep, Hsz, length_fmap, Nat.eqb_refl. exact Htx.
      + intros n v Hv. rewrite Ep in Hv. rewrite Forall_forall in Hp. apply Hp.
        apply elem_of_list_to_map_2 in Hv. by apply elem_of_zip_l in Hv. }
  unfold write_of. cbn [es_table es_key es_action es_params].
  assert (parse_key (find_schema ss t) (entry_key e) = Ok (sch, k)) as ->.
  { apply parse_key_Ok. split; [done |]. rewrite <-Hk, Ek. by apply key_parse_to_string. }
  cbn [rbind fst snd]. rewrite Ea, Ht. cbn [rbind]. by rewrite Hn.
Qed.

(** *** The native programs *)

(** An entry a dump of table [t] prints, typed back into any program of the
    same kind: [table add] with its words makes a request of one entry, which is
    applied, and the entry is then in the dump. *)
Definition types_back {T} `{TableOps T} (inv : T -> Prop) (t : string) (e : EntryDesc) : Prop :=
  forall read_text batch_of (p' : T), inv p' ->
  exists spec, request_of read_text batch_of (CmdTable (TcAdd t (entry_key e) (entry_action e) (param_words e))) = Ok (ReqTableAdd [spec]) /\
    exists p'' es, apply_entries [spec] p' = (p'', Ok 1%nat) /\ table_dump t p'' = Ok es /\ e ∈ es.

Lemma types_back_intro `{TableOps T} (inv : T -> Prop) ss sch sg t k a vs e :
  (forall p' : T, inv p' -> schemas p' = ss) ->
  find_schema ss t = Ok sch -> key_kind k = table_key sch -> key_wf k -> Shim.check sch a vs = Ok sg ->
  NoDup (param_name <$> action_params sg) -> Forall plain_name (param_name <$> action_params sg) -> describes sg k a vs e ->
  (forall p' : T, inv p' -> exists p'' es, table_add t k a vs p' = (p'', Ok tt) /\ table_dump t p'' = Ok es /\ e ∈ es) ->
  types_back inv t e.
Proof.
  intros Hss Hs Hk Hw Hc Hd Hp He Hadd read_text batch_of p' Hi.
  destruct (described_typed_back ss sch sg t k a vs e read_text batch_of Hs Hk Hw Hc Hd Hp He) as (spec & Hr & Hwr).
  exists spec. split; [exact Hr |]. destruct (Hadd p' Hi) as (p'' & es & Ha & Hes & Hin). exists p'', es. split; [| by split].
  unfold apply_entries. cbn [apply_from length]. rewrite install_spec, (Hss p' Hi), Hwr. cbn [Ctl.add]. unfold Ctl.add. cbn. by rewrite Ha.
Qed.

Lemma l2_row_types_back sch m a name vs sg :
  find_schema L2.SCHEMAS "mac_dst" = Ok sch -> L2.from_call sch name vs = Ok a -> Shim.check sch name vs = Ok sg ->
  NoDup (param_name <$> action_params sg) -> Forall plain_name (param_name <$> action_params sg) ->
  describes sg (KeyExact (ValMac m)) name vs (L2.describe a (mac_to_string m)) ->
  types_back (T := L2.L2Fwd) (fun _ => True) "mac_dst" (L2.describe a (mac_to_string m)).
Proof.
  intros Hs Hf Hc Hd Hp He.
  apply (types_back_intro _ L2.SCHEMAS sch sg "mac_dst" (KeyExact (ValMac m)) name vs); try done.
  { by injection Hs as <-. }
  intros p' _. cbn [table_add table_dump L2.L2_TableOps]. unfold L2.add. rewrite Hs. cbn [try_op exact_mac]. rewrite Hf. cbn [try_op].
  unfold L2.publish, update, L2.dump. rewrite Hs. cbn [rbind L2.mac_dst]. eexists _, _. split; [reflexivity |]. split; [reflexivity |].
  rewrite sort_by_perm. apply list_elem_of_fmap. exists (m, a). split; [done |].
  apply elem_of_map_to_list. apply lookup_insert_eq.
Qed.

Lemma l2_types_back p es e : L2.dump "mac_dst" p = Ok es -> e ∈ es -> types_back (T := L2.L2Fwd) (fun _ => True) "mac_dst" e.
Proof.
  unfold L2.dump. destruct (find_schema L2.SCHEMAS "mac_dst") as [sch |] eqn:Hs; [| done]. intros [= <-] He.
  rewrite sort_by_perm in He. apply list_elem_of_fmap in He as ([m a] & -> & _). cbn [fst snd].
  destruct a as [port | |].
  - eapply (l2_row_types_back sch m _ "forward" [ValU16 port]); [done | by injection Hs as <- | by injection Hs as <- | ..];
      [refine (bool_decide_unpack _ _); reflexivity | refine (bool_decide_unpack _ _); reflexivity | done].
  - eapply (l2_row_types_back sch m _ "broadcast" []); [done | by injection Hs as <- | by injection Hs as <- | ..]; [constructor | constructor | done].
  - eapply (l2_row_types_back sch m _ "drop" []); [done | by injection Hs as <- | by injection Hs as <- | ..]; [constructor | constructor | done].
Qed.

Lemma l3_row_types_back sch q a name vs sg :
  prefix_wf q -> find_schema L3.SCHEMAS "ipv4_lpm" = Ok sch -> L3.from_call sch name vs = Ok a -> Shim.check sch name vs = Ok sg ->
  NoDup (param_name <$> action_params sg) -> Forall plain_name (param_name <$> action_params sg) ->
  describes sg (KeyLpm (ValIpv4 (prefix_addr q)) (plen q)) name vs (L3.describe a (prefix_to_string q)) ->
  types_back (T := L3.L3Fwd) L3.l3_inv "ipv4_lpm" (L3.describe a (prefix_to_string q)).
Proof.
  intros Hq Hs Hf Hc Hd Hp He. pose proof Hq as [Hlen _].
  apply (types_back_intro _ L3.SCHEMAS sch sg "ipv4_lpm" (KeyLpm (ValIpv4 (prefix_addr q)) (plen q)) name vs); try done.
  { by injection Hs as <-. }
  intros p' Hi. cbn [table_add table_dump L3.L3_TableOps]. unfold L3.add. rewrite Hs. cbn [try_op].
  assert (lpm_ipv4 sch (KeyLpm (ValIpv4 (prefix_addr q)) (plen q)) = Ok q) as ->
    by (apply L3.lpm_ipv4_Ok; eexists _, _; split; [done | by apply prefix_new_addr]).
  cbn [try_op]. rewrite Hf. cbn [try_op].
  unfold L3.publish, update, L3.dump. rewrite Hs. cbn [rbind L3.ipv4_lpm]. eexists _, _. split; [reflexivity |]. split; [reflexivity |].
  apply list_elem_of_fmap. exists (L3.row (q, a)). split; [done |]. rewrite sort_by_perm. apply list_elem_of_fmap_2.
  destruct (Lpm.insert_spec q a (current (L3.ipv4_lpm p')) Hi Hq) as (Hw & Hr & _).
  change (load _) with (Lpm.insert q a (current (L3.ipv4_lpm p'))).1. rewrite Lpm.iter_routes by done. apply elem_of_map_to_list. rewrite Hr. apply lookup_insert_eq.
Qed.

Lemma l3_types_back p es e :
  L3.l3_inv p -> L3.dump "ipv4_lpm" p = Ok es -> e ∈ es -> types_back (T := L3.L3Fwd) L3.l3_inv "ipv4_lpm" e.
Proof.
  intros Hi. unfold L3.dump. destruct (find_schema L3.SCHEMAS "ipv4_lpm") as [sch |] eqn:Hs; [| done]. intros [= <-] He.
  apply list_elem_of_fmap in He as (r & -> & Hr). rewrite sort_by_perm in Hr. apply list_elem_of_fmap in Hr as ([q a] & -> & Hr).
  cbn [L3.row fst snd]. assert (prefix_wf q) as Hq by (by eapply Lpm.iter_wf).
  destruct a as [port dmac | |].
  - eapply (l3_row_types_back sch q _ "forward" [ValU16 port; ValMac dmac]); [done | done | by injection Hs as <- | by injection Hs as <- | ..];
      [refine (bool_decide_unpack _ _); reflexivity | refine (bool_decide_unpack _ _); reflexivity | done].
  - eapply (l3_row_types_back sch q _ "punt" []); [done | done | by injection Hs as <- | by injection Hs as <- | ..]; [constructor | constructor | done].
  - eapply (l3_row_types_back sch q _ "drop" []); [done | done | by injection Hs as <- | by injection Hs as <- | ..]; [constructor | constructor | done].
Qed.

(** C27: What [table dump] prints of a native program can be typed back: the
    key, the action and the [name=value] words of an entry, given to [table add],
    make a request of one entry, which any node running that program applies, and
    whose dump then prints that entry.  (The uBPF backend prints keys as numbers,
    and they cannot: [UbpfPipeline].) *)
Theorem dump_can_be_typed_back :
  (forall p es e, L2.dump "mac_dst" p = Ok es -> e ∈ es -> types_back (T := L2.L2Fwd) (fun _ => True) "mac_dst" e) /\
  (forall p es e, L3.l3_inv p -> L3.dump "ipv4_lpm" p = Ok es -> e ∈ es -> types_back (T := L3.L3Fwd) L3.l3_inv "ipv4_lpm" e).
Proof. split; [apply l2_types_back | apply l3_types_back]. Qed.

(** ** Draining *)

Section draining.
  Context {T : Type} {HT : TableOps T} {J : Type} (mono wall : u64).

(** A node that nothing else talks to, as a line. *)
#[local] Instance node_line : Line (Context T J) J := {
  line_call c r := let '(c, response) := handle mono wall r c in (c, Ok response);
}.

(** The frames of a reply are those punted. *)
Definition carries (frames : list PuntedFrame) (q : list PuntFrame) : Prop :=
  Forall2 (fun w f => pt_ingress_vport w = pf_ingress_vport f /\ pt_rx_ts_us w = pf_rx_ts_us f
                      /\ decode (pt_frame_b64 w) = Some (pf_bytes f)) frames q.

Lemma drain_loop_takes pretty warnings json mtu depth max fuel c r q all done_ :
  cx_punt c = Some r -> ring_holds mtu depth r q -> (0 < max)%nat -> (length q < fuel)%nat ->
  carries all done_ ->
  exists r' frames,
    drain_loop warnings pretty fuel (mkPuntArgs max true) json all c
      = Some (with_punt r' c, Ok (report warnings pretty json (Punted frames 0)))
    /\ ring_holds mtu depth r' [] /\ carries frames (done_ ++ q).
Proof.
  intros Hp Hr Hm. revert c r q all done_ Hp Hr.
  induction fuel as [| fuel IH]; intros c r q all done_ Hp Hr Hf Hall; [lia |]. cbn [drain_loop pa_max pa_all].
  destruct (punt_drain_reply c mtu depth r q mono wall max Hp Hr) as (r1 & frames & E & Hr1 & Hfr).
  cbn zeta in *. set (n := ((max `min` PUNT_DRAIN_MAX) `min` length q)%nat) in *.
  change (line_call c (ReqPuntDrain max))
    with (let '(c, response) := handle mono wall (ReqPuntDrain max) c in (c, Ok response : result (CtlResponse J) string)).
  rewrite E. assert (PUNT_DRAIN_MAX = 64%nat) as H64 by done.
  assert (carries (all ++ frames) (done_ ++ take n q)) as Hnow by by apply Forall2_app.
  destruct (decide (length q - n = 0)%nat) as [E0 | E0].
  - rewrite (proj2 (Nat.eqb_eq _ _) E0), !orb_true_r. exists r1, (all ++ frames)%list.
    rewrite E0. rewrite drop_ge in Hr1 by lia. rewrite take_ge in Hnow by lia. done.
  - assert (frames <> []) as Hne.
    { intros ->. apply Forall2_length in Hfr. rewrite length_take in Hfr. cbn [length] in Hfr. lia. }
    rewrite bool_decide_false, (proj2 (Nat.eqb_neq _ _) E0) by done. cbn [negb orb].
    destruct (IH (with_punt r1 c) r1 (drop n q) (all ++ frames)%list (done_ ++ take n q)%list)
      as (r' & fs & -> & Hr' & Hfs); [done | done | rewrite length_drop; lia | done |].
    exists r', fs. split_and!; [done | done |]. by rewrite <-app_assoc, take_drop in Hfs.
Qed.

(** C26: [punt --all] on a node nothing else is talking to ends with exit code 0.
    Unless it was told to take none at a time, it takes the whole queue: however
    the node caps each reply, the frames printed are those punted, oldest first,
    each once, and nothing is left.  With [--max 0] the first reply is empty, which
    the loop takes for an empty queue: nothing is printed and all is left. *)
Theorem drain_all_takes_the_queue pretty warnings read_text batch_of socket mtu depth max fuel (c : Context T J) r q :
  cx_punt c = Some r -> ring_holds mtu depth r q -> (length q < fuel)%nat ->
  let '(taken, kept) := if (max =? 0)%nat then ([], q) else (q, []) in
  exists r' frames,
    ctl_main warnings pretty read_text batch_of fuel (mkCtlCli socket false (CmdPunt (mkPuntArgs max true))) (Ok c)
      = Some (Some (with_punt r' c), success (print_punted frames (length kept)))
    /\ ring_holds mtu depth r' kept /\ carries frames taken.
Proof.
  intros Hp Hr Hf. unfold ctl_main, ctl_run. cbn [cl_command cl_json]. unfold drain. destruct (Nat.eqb_spec max 0) as [-> | Hm].
  - destruct fuel as [| fuel]; [lia |]. cbn [drain_loop pa_max pa_all].
    destruct (punt_drain_reply c mtu depth r q mono wall 0 Hp Hr) as (r1 & frames & E & Hr1 & Hfr).
    cbn zeta in *. cbn [Nat.min take drop] in Hr1, Hfr. rewrite Nat.sub_0_r in E. apply Forall2_nil_inv_r in Hfr as ->.
    exists r1, []. change (line_call c (ReqPuntDrain 0))
      with (let '(c, response) := handle mono wall (ReqPuntDrain 0) c in (c, Ok response : result (CtlResponse J) string)).
    rewrite E. split; [done |]. by split; [| constructor].
  - destruct (drain_loop_takes pretty warnings false mtu depth max fuel c r q [] [] Hp Hr ltac:(lia) Hf ltac:(constructor))
      as (r' & frames & E & Hr' & Hfr).
    exists r', frames. split; [| done]. by rewrite E.
Qed.

End draining.

Module Operator.

Definition route : TypedKey := KeyLpm (ValIpv4 (Ipv4 (U8 10) (U8 0) (U8 0) (U8 0))) (U8 24).
Definition hop : list TypedVal := [ValU16 (U16 1); ValMac (mac_of [U8 2; U8 0; U8 0; U8 0; U8 0; U8 1])].
Definition printed : EntryDesc :=
  L3.describe (L3.AForward (U16 1) (mac_of [U8 2; U8 0; U8 0; U8 0; U8 0; U8 1])) (key_to_string route).

Lemma dump_witness :
  print_entry printed = "10.0.0.0/24          forward dmac=02:00:00:00:00:01 port=1"
  /\ param_words printed = ["dmac=02:00:00:00:00:01"; "port=1"]
  /\ types_back L3.l3_inv "ipv4_lpm" printed.
Proof.
  split; [vm_compute; reflexivity |]. split; [vm_compute; reflexivity |].
  assert (exists es, L3.dump "ipv4_lpm" (L3.add "ipv4_lpm" route "forward" hop Ctl.Sample.router).1 = Ok es /\ printed ∈ es) as (es & Hes & Hin)
    by (eexists; split; [vm_compute; reflexivity | apply list_elem_of_singleton; vm_compute; reflexivity]).
  refine (proj2 dump_can_be_typed_back _ es printed _ Hes Hin). exact (law_add_inv (T := L3.L3Fwd) (inv := L3.l3_inv) "ipv4_lpm" route "forward" hop Ctl.Sample.router Ctl.Sample.router_inv).
Defined.

(** Two frames punted at a router whose queue holds two. *)
Definition queue : Ring :=
  (punt_push [U8 8] (U16 2) (U32 70) (punt_push [U8 7] (U16 1) (U32 60) (punt_with_depth 2 4)).1).1.
Definition queued : list PuntFrame :=
  [{| pf_ingress_vport := U16 1; pf_rx_ts_us := U32 60; pf_bytes := [U8 7] |};
   {| pf_ingress_vport := U16 2; pf_rx_ts_us := U32 70; pf_bytes := [U8 8] |}].

Lemma queue_holds : ring_holds 4 2 queue queued.
Proof.
  pose proof (push_holds 4 2 _ [] [U8 7] (U16 1) (U32 60) (ring_holds_new 2 4)) as [H _].
  pose proof (push_holds 4 2 _ _ [U8 8] (U16 2) (U32 70) H) as [H' _]. exact H'.
Qed.

Lemma drain_witness :
  exists r' frames,
    ctl_main (S := Context L3.L3Fwd unit) (LS := node_line (U64 0) (U64 0))
      (fun _ => None) (fun _ => Err "") (fun _ => Err "") (fun _ => Err "") 3
      (mkCtlCli "/tmp/up4.sock" false (CmdPunt (mkPuntArgs 1 true))) (Ok (with_punt queue Ctl.Sample.context))
    = Some (Some (with_punt r' (with_punt queue Ctl.Sample.context)),
            success ["vport 1 @ 60 us  Bw=="; "vport 2 @ 70 us  CA=="; newline ++ "2 frame(s), 0 still queued"])
    /\ carries frames queued.
Proof.
  destruct (drain_all_takes_the_queue (U64 0) (U64 0) (fun _ => Err "") (fun _ => None) (fun _ => Err "") (fun _ => Err "")
    "/tmp/up4.sock" 4 2 1 3 (with_punt queue Ctl.Sample.context) queue queued eq_refl queue_holds ltac:(cbn; lia))
    as (r' & frames & E & _ & Hc).
  exists r', frames. split; [| exact Hc]. rewrite E. f_equal. f_equal. unfold success. f_equal.
  vm_compute in E. injection E as _ E. symmetry. exact E.
Defined.

(** A drain cut short has already taken what it does not print: the first reply's
    frames are gone from the node, and the error is all that is shown. *)
Definition Cut : Type := list (result (CtlResponse unit) string).
Definition cut_line : Line Cut unit := {|
  line_call s r := match s with x :: s => (s, x) | [] => ([], Err "up4d closed the control connection") end;
|}.

Lemma interrupted_drain_loses_frames frame remaining rest :
  (0 < remaining)%nat ->
  ctl_main (LS := cut_line) (fun _ => None) (fun _ => Err "") (fun _ => Err "") (fun _ => Err "") 2
    (mkCtlCli "/tmp/up4.sock" false (CmdPunt (mkPuntArgs 64 true)))
    (Ok (Ok (Punted [frame] remaining) :: Err "timed out" :: rest))
  = Some (Some rest, mkPrinted [] ["up4ctl: timed out"] 2).
Proof.
  intros H. unfold ctl_main, ctl_run, drain. cbn. by destruct remaining; [lia |].
Qed.

End Operator.
