(* ===== verification/Server.v ===== *)
(** * The control server (crates/up4-ctl/src/server.rs)

    Accepting clients one at a time and answering each until it leaves or goes
    quiet.  What the process sees from outside at each turn of the loop, the
    clocks and whether a signal asked it to stop, is an argument. *)

From S2P Require Import Prelude Bytes Shim Config Metrics Socket Codec Ctl.

Local Open Scope Z_scope.

(** The timeouts, in milliseconds. *)
Definition ACCEPT_TIMEOUT : Z := 200.
Definition IDLE_TIMEOUT : Z := 30 * 1000.

Record Outside := { o_mono : u64; o_wall : u64; o_stop : bool }.

Section server.
Context `{TableOps T} {J : Type} `{Sock K}.
Variable decode_request : bytes -> result CtlRequest string.
Variable encode_response : CtlResponse J -> result bytes string.
Variable show_error : CodecError -> string.
Implicit Types c : Context T J.

(** A reply too large for a control frame is still an answer. *)
Definition answer (response : CtlResponse J) (s : K) : K * result unit CodecError :=
  match codec_send encode_response response s with
  | (s, Err e) => codec_send encode_response (RspError (show_error e)) s
  | r => r
  end.

(** One turn of [Server::converse]: it goes on, with so much idle time behind it,
    or leaves. *)
Inductive Turned :=
  | Goes (idle : Z) (s : K) (buf : bytes) (c : Context T J)
  | Leaves (s : K) (buf : bytes) (c : Context T J) (r : result unit CodecError).

Definition converse_turn (o : Outside) (idle : Z) (s : K) (buf : bytes) c : Turned :=
  match codec_recv decode_request s buf with
  | (s, buf, Ok None) => Leaves s buf c (Ok tt)
  | (s, buf, Ok (Some request)) =>
      let '(c, response) := handle (o_mono o) (o_wall o) request c in
      match answer response s with
      | (s, Ok _) => Goes 0 s buf c
      | (s, Err e) => Leaves s buf c (Err e)
      end
  | (s, buf, Err e) =>
      if codec_transient e then
        if o_stop o || cx_stop c then Leaves s buf c (Ok tt)
        else
          let idle := idle + ACCEPT_TIMEOUT in
          if IDLE_TIMEOUT <=? idle then Leaves s buf c (Ok tt)
          else Goes idle s buf c
      else Leaves s buf c (Err e)
  end.

(** [Server::converse]; [None] is a conversation that is still going on. *)
Fixpoint converse (fuel : nat) (outside : nat -> Outside) (turn : nat) (idle : Z) (s : K) (buf : bytes) c
    : option (K * bytes * Context T J * result unit CodecError) :=
  match fuel with
  | O => None
  | S fuel =>
      match converse_turn (outside turn) idle s buf c with
      | Leaves s buf c r => Some (s, buf, c, r)
      | Goes idle s buf c => converse fuel outside (S turn) idle s buf c
      end
  end.

(** What the listener did at a turn of [serve]. *)
Record Accept := {
  a_outside : nat -> Outside;
  a_result : result K IoError;
  (** [set_read_timeout] on the connection. *)
  a_timeout : result unit IoError;
}.

(** [Server::serve], over what it accepts; each conversation is given the fuel
    of [patience]. *)
Fixpoint serve (patience : K -> nat) (accepts : list Accept) (buf : bytes) c
    : option (Context T J * result unit IoError) :=
  match accepts with
  | [] => Some (c, Ok tt)
  | a :: accepts =>
      if o_stop (a_outside a 0%nat) || cx_stop c then Some (c, Ok tt)
      else
        match a_result a with
        | Err e => if is_transient e then serve patience accepts buf c else Some (c, Err e)
        | Ok s =>
            match a_timeout a with
            | Err e => Some (c, Err e)
            | Ok _ =>
                match converse (patience s) (a_outside a) 0 0 s buf c with
                | None => None
                | Some (_, buf, c, _) => serve patience accepts buf c
                end
            end
        end
  end.

(** ** Properties *)

(** Reads that time out in a row before a client is let go. *)
Definition QUIET : nat := Z.to_nat (IDLE_TIMEOUT / ACCEPT_TIMEOUT).

(** How many more messages the peer will send. *)
Variable budget : K -> nat.
Hypothesis read_spends : forall s s' arrived,
  sock_read s = (s', Ok arrived) -> arrived <> [] -> (budget s' < budget s)%nat.
Hypothesis read_keeps : forall s s' r, sock_read s = (s', r) -> (budget s' <= budget s)%nat.
Hypothesis write_keeps : forall s f, (budget (sock_write f s).1 <= budget s)%nat.

Lemma recv_budget s buf s' buf' r :
  codec_recv decode_request s buf = (s', buf', r) ->
  (budget s' <= budget s)%nat /\ (forall q, r = Ok (Some q) -> (budget s' < budget s)%nat).
Proof using read_spends read_keeps.
  unfold codec_recv. destruct (sock_read s) as [s1 [arrived | e]] eqn:E.
  - destruct (message_of _ _ _) as [b r'] eqn:Em. intros [= <- <- <-]. split; [by eapply read_keeps |].
    intros q ->. eapply read_spends; [exact E |]. intros ->. unfold message_of in Em. cbn in Em. congruence.
  - intros [= <- <- <-]. split; [by eapply read_keeps | done].
Qed.

Lemma send_budget r s : (budget (codec_send encode_response r s).1 <= budget s)%nat.
Proof using write_keeps.
  unfold codec_send. destruct (frame_of _ _) as [f | e]; [| done].
  pose proof (write_keeps s f). by destruct (sock_write f s).
Qed.

Lemma answer_budget r s : (budget (answer r s).1 <= budget s)%nat.
Proof using write_keeps.
  unfold answer. pose proof (send_budget r s). destruct (codec_send encode_response r s) as [s1 [| e]]; [done |].
  pose proof (send_budget (RspError (show_error e)) s1). cbn in *. lia.
Qed.

Lemma converse_ends fuel outside turn k s buf c :
  (k < QUIET)%nat -> (QUIET * budget s + (QUIET - k) <= fuel)%nat ->
  converse fuel outside turn (Z.of_nat k * ACCEPT_TIMEOUT) s buf c <> None.
Proof using read_spends read_keeps write_keeps.
  assert (QUIET = 150%nat) as HQ by reflexivity.
  revert turn k s buf c. induction fuel as [| fuel IH]; intros turn k s buf c Hk Hf; [lia |]. cbn [converse].
  unfold converse_turn.
  destruct (codec_recv decode_request s buf) as [[s1 buf1] r] eqn:E. pose proof (recv_budget _ _ _ _ _ E) as [Hb Hq].
  destruct r as [[q |] | e]; [| done |].
  - specialize (Hq q eq_refl). destruct (handle _ _ q c) as [c1 response].
    pose proof (answer_budget response s1). destruct (answer response s1) as [s2 [[] | e]]; [| done].
    apply (IH (S turn) 0%nat); [lia | cbn in *; nia].
  - destruct (codec_transient e); [| done]. destruct (_ || _); [done |].
    destruct (Z.leb_spec IDLE_TIMEOUT (Z.of_nat k * ACCEPT_TIMEOUT + ACCEPT_TIMEOUT)) as [| Hi]; [done |].
    unfold IDLE_TIMEOUT, ACCEPT_TIMEOUT in Hi.
    replace (Z.of_nat k * ACCEPT_TIMEOUT + ACCEPT_TIMEOUT) with (Z.of_nat (S k) * ACCEPT_TIMEOUT) by (unfold ACCEPT_TIMEOUT; lia).
    apply IH; [lia | nia].
Qed.

(** C32: no client holds the server for ever.  A client that will send [n] more
    messages, whatever they are and however it spaces them, is let go of within
    [150 * (n + 1)] reads: a reply goes out for each message and the idle clock
    starts again, and 150 reads in a row that time out end the conversation.  So
    the server, giving each connection that much, gets through any sequence of
    them. *)
Theorem conversations_end outside s buf c accepts :
  converse (QUIET * S (budget s)) outside 0 0 s buf c <> None /\
  serve (fun s => QUIET * S (budget s))%nat accepts buf c <> None.
Proof using read_spends read_keeps write_keeps.
  assert (forall outside s buf c, converse (QUIET * S (budget s)) outside 0 0 s buf c <> None) as Hc.
  { intros o s' b c'. apply (converse_ends _ _ _ 0%nat); [change QUIET with 150%nat; lia | change QUIET with 150%nat; lia]. }
  split; [apply Hc |]. revert buf c. induction accepts as [| a accepts IH]; intros buf' c'; [done |].
  cbn [serve]. destruct (_ || _); [done |]. destruct (a_result a) as [s' | e].
  - destruct (a_timeout a); [| done]. pose proof (Hc (a_outside a) s' buf' c') as H1.
    destruct (converse _ _ _ _ s' buf' c') as [[[[? ?] ?] ?] |]; [apply IH | done].
  - destruct (is_transient e); [apply IH | done].
Qed.
End server.

(** A peer that will send what is left of a script and then stays silent, and a
    server whose encodings are fixed. *)
Module Script.
Definition script : Sock (list bytes) := {|
  sock_write _ s := (s, Ok tt);
  sock_read s := match s with
                 | [] => ([], Err WouldBlock)
                 | m :: s => (s, Ok m)
                 end;
|}.

Definition info : Info unit := {|
  in_node := "n"; in_version := "0"; in_pipeline := "p"; in_pipeline_summary := ""; in_uptime_s := U64 0;
  in_threads := 1; in_fabric := "ipv4"; in_inner_mtu := 1450; in_bind := ""; in_punt_enabled := false;
  in_vports := []; in_probe := tt;
|}.

Definition context : Context NoTablesOps unit := {|
  cx_info := info; cx_started_us := U64 0;
  cx_metrics := {| m_node := "n"; m_global := []; m_vports := []; m_vport_ids := []; m_hists := [] |};
  cx_tables := {| no_tables_name := "null" |}; cx_punt := None; cx_stop := false;
|}.

Definition quiet : Outside := {| o_mono := U64 0; o_wall := U64 0; o_stop := false |}.

(** A ping, then silence: 151 reads, of which the last 150 time out. *)
Lemma conversations_end_witness :
  let ping := be_bytes 4 1 ++ [U8 7] in
  converse (H0 := script) (fun _ => Ok ReqPing) (fun _ => Ok [U8 0]) (fun _ => EmptyString)
    (QUIET * 2) (fun _ => quiet) 0 0 [ping] [] context <> None.
Proof.
  intros ping.
  apply (conversations_end (H0 := script) (fun _ => Ok ReqPing) (fun _ => Ok [U8 0]) (fun _ => EmptyString) length
           ltac:(intros [| m s] s' arrived; cbn; intros [=]; simplify_eq; lia)
           ltac:(intros [| m s] s' r; cbn; intros [=]; simplify_eq; cbn; lia)
           ltac:(intros s f; cbn; lia)
           (fun _ => quiet) [ping] [] context []).
Defined.
End Script.
