(* ===== verification/CtlSocket.v ===== *)
(** * The control socket's file (crates/up4-ctl/src/server.rs, [Server::bind], [Drop])

    Nodes come and go, or crash, over the paths of one host.  What is at a path
    is a plain file or a socket with its owner; a node that crashed leaves its
    file behind and nobody listening.  [bind] is the sequence of calls the source
    makes, each of which may fail; [life] is what a host sees of many nodes whose
    starts do not overlap. *)

From S2P Require Import Prelude Bytes Text.

(** What a path holds. *)
Inductive Entry :=
  | Plain
  | Sock (owner : nat) (mode : Z).

#[export] Instance Entry_eq_dec : EqDecision Entry.
Proof. solve_decision. Defined.

Record Site := mkSite { at_path : gmap string Entry; listening : gset nat }.

(** What may go wrong: the error of each call, when it fails; [allowed] is
    whether a node may connect to another's socket; a fresh socket's mode is the
    umask's. *)
Class Calls := {
  allowed : nat -> nat -> bool;
  new_fails : option string;
  unlink_fails : string -> option string;
  bind_fails : string -> option string;
  chmod_fails : string -> option string;
  listen_fails : option string;
  timeout_fails : option string;
  umask_mode : Z;
}.

Section socket.
Context {C : Calls}.
Implicit Types (st : Site) (me : nat) (path : string).

Definition failing (e : option string) : result unit string := match e with Some e => Err e | None => Ok tt end.

(** [Path::exists], then [connect]: the entry found, and whether someone
    answers. *)
Definition answers me (e : Entry) st : bool :=
  match e with
  | Plain => false
  | Sock owner _ => bool_decide (owner ∈ listening st) && allowed me owner
  end.

Definition connects me path st : bool :=
  match new_fails, at_path st !! path with
  | None, Some e => answers me e st
  | _, _ => false
  end.

Definition unlink path st : Site := mkSite (delete path (at_path st)) (listening st).
Definition put path e st : Site := mkSite (<[path := e]> (at_path st)) (listening st).

Definition in_use path : string := ("another up4d is listening on " ++ path)%string.
Definition EADDRINUSE : string := "Address already in use (os error 98)".

(** The first half of [bind]: make sure the path is free. *)
Definition clear_path me path st : Site * result unit string :=
  match at_path st !! path with
  | None => (st, Ok tt)
  | Some _ =>
      if connects me path st then (st, Err (in_use path))
      else match unlink_fails path with
           | Some e => (st, Err e)
           | None => (unlink path st, Ok tt)
           end
  end.

(** The second half: from [Socket::new] on.  What was done before a failure
    stays done. *)
Definition open_socket me path st : Site * result unit string :=
  match failing new_fails with
  | Err e => (st, Err e)
  | Ok _ =>
      match at_path st !! path, bind_fails path with
      | Some _, _ => (st, Err EADDRINUSE)
      | None, Some e => (st, Err e)
      | None, None =>
          let st := put path (Sock me umask_mode) st in
          match failing (chmod_fails path) with
          | Err e => (st, Err e)
          | Ok _ =>
              let st := put path (Sock me 384) st in
              match failing listen_fails with
              | Err e => (st, Err e)
              | Ok _ =>
                  let st := mkSite (at_path st) ({[ me ]} ∪ listening st) in
                  match failing timeout_fails with
                  | Err e => (mkSite (at_path st) (listening st ∖ {[ me ]}), Err e)
                  | Ok _ => (st, Ok tt)
                  end
              end
          end
      end
  end.

(** [Server::bind]; the mode is 0600. *)
Definition bind me path st : Site * result unit string :=
  match clear_path me path st with
  | (st, Err e) => (st, Err e)
  | (st, Ok _) => open_socket me path st
  end.

(** [drop]: whatever is at the path is removed, and then the listener closed. *)
Definition drop_server me path st : Site :=
  let st := match unlink_fails path with Some _ => st | None => unlink path st end in
  mkSite (at_path st) (listening st ∖ {[ me ]}).

(** ** Many nodes, one after the other

    A start is one step of [life]: nothing of another node comes between the
    calls of its [bind].  Where something does, [Desk.concurrent_starts_steal]
    shows one node removing the socket of another. *)

(** A node starts, stops, or is killed; each is a process of its own. *)
Inductive Event := Start (me : nat) (path : string) | Stop (me : nat) (path : string) | Kill (me : nat).

(** The nodes serving, with their paths. *)
Record Host := mkHost { site : Site; serving : gmap nat string }.

Inductive life : Host -> Event -> Host -> Prop :=
  | life_start h me path st :
      serving h !! me = None -> me ∉ listening (site h) -> (forall p m, at_path (site h) !! p <> Some (Sock me m)) ->
      bind me path (site h) = (st, Ok tt) ->
      life h (Start me path) (mkHost st (<[me := path]> (serving h)))
  | life_refused h me path st e :
      serving h !! me = None -> me ∉ listening (site h) -> (forall p m, at_path (site h) !! p <> Some (Sock me m)) ->
      bind me path (site h) = (st, Err e) ->
      life h (Start me path) (mkHost st (serving h))
  | life_stop h me path :
      serving h !! me = Some path ->
      life h (Stop me path) (mkHost (drop_server me path (site h)) (delete me (serving h)))
  | life_kill h me :
      life h (Kill me)
        (mkHost (mkSite (at_path (site h)) (listening (site h) ∖ {[ me ]})) (delete me (serving h))).

Inductive lives : Host -> list Event -> Host -> Prop :=
  | lives_nil h : lives h [] h
  | lives_cons h1 e h2 es h3 : life h1 e h2 -> lives h2 es h3 -> lives h1 (e :: es) h3.

(** Each node that serves has its own socket at its path, for its user alone. *)
Definition own (h : Host) : Prop :=
  forall me path, serving h !! me = Some path ->
    at_path (site h) !! path = Some (Sock me 384) /\ me ∈ listening (site h).

(** ** Lemmas *)

Lemma bind_refuses me path st o m :
  at_path st !! path = Some (Sock o m) -> o ∈ listening st -> allowed me o = true -> new_fails = None ->
  bind me path st = (st, Err (in_use path)).
Proof.
  intros Hp Ho Ha Hn. unfold bind, clear_path, connects. rewrite Hp, Hn. cbn [answers].
  by rewrite bool_decide_true, Ha by done.
Qed.

Lemma clear_path_spec me path st st' r :
  clear_path me path st = (st', r) ->
  listening st' = listening st /\ (forall p, p <> path -> at_path st' !! p = at_path st !! p)
  /\ match r with Ok _ => at_path st' !! path = None | Err _ => st' = st end
  /\ (st' = st \/ connects me path st = false).
Proof.
  unfold clear_path. destruct (at_path st !! path) as [e |] eqn:E; [| intros [= <- <-]; by split_and!; [.. | left]].
  destruct (connects me path st) eqn:Ec; [intros [= <- <-]; by split_and!; [.. | left] |].
  destruct (unlink_fails path); intros [= <- <-]; [by split_and!; [.. | left] |].
  split_and!; [done | | apply lookup_delete_eq | by right].
  intros p Hp. by apply lookup_delete_ne.
Qed.

Lemma open_socket_spec me path st st' r :
  at_path st !! path = None -> me ∉ listening st -> open_socket me path st = (st', r) ->
  (forall p, p <> path -> at_path st' !! p = at_path st !! p)
  /\ match r with
     | Ok _ => at_path st' !! path = Some (Sock me 384) /\ listening st' = {[ me ]} ∪ listening st
     | Err _ => listening st' = listening st
     end.
Proof.
  intros Hp Hm. unfold open_socket. destruct (failing new_fails); [| by intros [= <- <-]].
  rewrite Hp. destruct (bind_fails path); [by intros [= <- <-] |].
  assert (forall (x : gmap string Entry) m p, p <> path -> <[path := Sock me m]> x !! p = x !! p) as Hne
    by (intros x m p H; by apply lookup_insert_ne).
  destruct (failing (chmod_fails path)); [| intros [= <- <-]; by split; [apply Hne |]].
  destruct (failing listen_fails); [| intros [= <- <-]; split; [| done]; intros p H; cbn; by rewrite !Hne].
  destruct (failing timeout_fails); intros [= <- <-]; (split; [intros p H; cbn; by rewrite !Hne |]).
  - split; [apply lookup_insert_eq | done].
  - cbn. set_solver.
Qed.

(** What [bind] does to a host where everyone may connect to everyone. *)
Lemma bind_spec me path st st' r :
  me ∉ listening st -> new_fails = None -> (forall o, allowed me o = true) -> bind me path st = (st', r) ->
  (forall p, p <> path -> at_path st' !! p = at_path st !! p)
  /\ match r with
     | Ok _ => at_path st' !! path = Some (Sock me 384) /\ listening st' = {[ me ]} ∪ listening st
     | Err _ => listening st' = listening st
     end
  /\ (forall o m, at_path st !! path = Some (Sock o m) -> o ∈ listening st -> st' = st /\ exists e, r = Err e).
Proof.
  intros Hm Hn Ha H.
  assert (forall o m, at_path st !! path = Some (Sock o m) -> o ∈ listening st -> st' = st /\ exists e, r = Err e) as Hlive.
  { intros o m Hp Ho. rewrite (bind_refuses me path st o m Hp Ho (Ha o) Hn) in H. injection H as <- <-. eauto. }
  unfold bind in H. destruct (clear_path me path st) as [st1 r1] eqn:E1.
  apply clear_path_spec in E1 as (Hl & Hne & Hr & _). destruct r1 as [[] | e].
  - apply open_socket_spec in H as [Hne2 H2]; [| done | by rewrite Hl].
    split_and!; [| | done].
    + intros p Hp. by rewrite Hne2, Hne.
    + by rewrite Hl in H2.
  - injection H as <- <-. subst st1. by split_and!.
Qed.

End socket.

(** ** Properties *)

Section lives.
Context {C : Calls}.

Lemma own_start h me path :
  own h -> serving h !! me = None ->
  (forall p m, at_path (site h) !! p <> Some (Sock me m)) -> me ∉ listening (site h) ->
  new_fails = None -> (forall o, allowed me o = true) ->
  let '(st, r) := bind me path (site h) in
  own (mkHost st (match r with Ok _ => <[me := path]> (serving h) | Err _ => serving h end)).
Proof.
  intros Ho Hs Hf Hm Hn Ha. destruct (bind me path (site h)) as [st r] eqn:E.
  apply bind_spec in E as (Hne & Hr & Hlive); [| done..].
  assert (forall o p, serving h !! o = Some p ->
            at_path st !! p = Some (Sock o 384) /\ o ∈ listening st) as Hold.
  { intros o p Hop. destruct (Ho o p Hop) as [H1 H2]. destruct (decide (p = path)) as [-> | Hp].
    - destruct (Hlive _ _ H1 H2) as [-> _]. done.
    - rewrite Hne by done. split; [done |]. destruct r; [destruct Hr as [_ ->]; set_solver | by rewrite Hr]. }
  destruct r as [[] | e]; [| done]. intros o p. cbn [serving site]. destruct (decide (o = me)) as [-> | Hom].
  - rewrite lookup_insert_eq. intros [= <-]. destruct Hr as [H1 ->]. split; [done | set_solver].
  - rewrite lookup_insert_ne by done. apply Hold.
Qed.

Lemma own_remove h me a :
  own h -> (forall p o, o <> me -> serving h !! o = Some p -> a !! p = at_path (site h) !! p) ->
  own (mkHost (mkSite a (listening (site h) ∖ {[ me ]})) (delete me (serving h))).
Proof.
  intros Ho Ha o p. cbn [serving site at_path listening]. destruct (decide (o = me)) as [-> | Hne].
  { by rewrite lookup_delete_eq. }
  rewrite lookup_delete_ne by done. intros Hop. destruct (Ho o p Hop) as [H1 H2].
  split; [by rewrite (Ha p o) | set_solver].
Qed.

Lemma own_life h e h' :
  own h -> new_fails = None -> (forall me o, allowed me o = true) -> life h e h' -> own h'.
Proof.
  intros Ho Hn Ha H. destruct H as [h me path st Hs Hm Hf E | h me path st e Hs Hm Hf E | h me path Hs | h me].
  - pose proof (own_start h me path Ho Hs Hf Hm Hn (Ha me)) as Hk. by rewrite E in Hk.
  - pose proof (own_start h me path Ho Hs Hf Hm Hn (Ha me)) as Hk. by rewrite E in Hk.
  - unfold drop_server, unlink.
    assert (forall p o, o <> me -> serving h !! o = Some p -> p <> path) as Hne.
    { intros p o Hom Hop ->. destruct (Ho o path Hop) as [H1 _]. destruct (Ho me path Hs) as [H2 _]. congruence. }
    destruct (unlink_fails path); cbn [at_path listening]; apply own_remove; [done | done | done |].
    intros p o Hom Hop. apply lookup_delete_ne. intros ->. by apply (Hne p o).
  - by apply own_remove.
Qed.

(** C24: Nodes that start one after the other do not take each other's control
    socket.  Where every node may connect to every other, as the nodes of one
    user may, and no start overlaps another, however they start, stop and are
    killed, over any paths: each node that serves has its own socket at its path, of mode 0600; a start at the path of a
    node that serves is refused, says so and changes nothing; and a start at the
    path of one that was killed succeeds, if the calls it makes do. *)
Theorem nodes_keep_their_sockets (h h' : Host) (es : list Event) :
  own h -> new_fails = None -> (forall me o, allowed me o = true) -> lives h es h' ->
  own h'
  /\ (forall other path me, serving h' !! other = Some path ->
        bind me path (site h') = (site h', Err (in_use path)))
  /\ (forall dead m path me, at_path (site h') !! path = Some (Sock dead m) -> dead ∉ listening (site h') ->
        unlink_fails path = None -> bind_fails path = None -> chmod_fails path = None ->
        listen_fails = None -> timeout_fails = None ->
        exists st, bind me path (site h') = (st, Ok tt)).
Proof.
  intros Ho Hn Ha H. assert (own h') as Ho'.
  { induction H as [h | h1 e h2 es h3 H1 _ IH]; [done |]. apply IH. by eapply own_life. }
  split; [done |]. split.
  - intros other path me Hs. destruct (Ho' other path Hs) as [H1 H2].
    by eapply bind_refuses.
  - intros dead m path me Hp Hd Hu Hb Hc Hl Ht. unfold bind, clear_path, connects. rewrite Hp, Hn. cbn [answers].
    rewrite bool_decide_false, Hu by done. cbn [andb]. unfold open_socket.
    rewrite Hn, Hb, Hc, Hl, Ht. cbn [failing at_path unlink]. rewrite lookup_delete_eq. by eexists.
Qed.

End lives.

(** ** A host *)
Module Desk.

#[export] Instance calls : Calls := {
  allowed _ _ := true;
  new_fails := None;
  unlink_fails _ := None;
  bind_fails _ := None;
  chmod_fails _ := None;
  listen_fails := None;
  timeout_fails := None;
  umask_mode := 493;
}.

Definition empty : Host := mkHost (mkSite ∅ ∅) ∅.
Definition one : Host := mkHost (bind 1 "/tmp/up4.sock" (site empty)).1 {[ 1%nat := "/tmp/up4.sock" ]}.

Lemma sockets_witness :
  bind 2 "/tmp/up4.sock" (site one) = (site one, Err "another up4d is listening on /tmp/up4.sock").
Proof.
  assert (lives empty [Start 1 "/tmp/up4.sock"] one) as H.
  { eapply lives_cons; [| apply lives_nil]. apply (life_start empty 1 "/tmp/up4.sock"); [done | set_solver | done |].
    reflexivity. }
  destruct (nodes_keep_their_sockets empty one _ ltac:(intros me path Hn; unfold empty in Hn; cbn [serving] in Hn; by rewrite lookup_empty in Hn)
    eq_refl (fun _ _ => eq_refl) H) as (_ & Hr & _).
  apply (Hr 1%nat). reflexivity.
Defined.

(** A plain file at the configured path is taken for a leftover and removed. *)
Lemma bind_removes_any_file me path st :
  at_path st !! path = Some Plain ->
  exists st', bind me path st = (st', Ok tt) /\ at_path st' !! path = Some (Sock me 384).
Proof.
  intros H. unfold bind, clear_path, connects. rewrite H. cbn [answers new_fails calls unlink_fails].
  unfold open_socket. cbn [new_fails calls failing bind_fails chmod_fails listen_fails timeout_fails].
  cbn [at_path unlink]. rewrite lookup_delete_eq. eexists. split; [reflexivity |]. apply lookup_insert_eq.
Qed.

(** Two nodes that start at once over a leftover: the second looked before the
    first was there, and removes its socket; when the first stops, it removes the
    second's. *)
Definition leftover : Site := mkSite {[ "/tmp/up4.sock" := Sock 0 384 ]} ∅.

Lemma concurrent_starts_steal :
  let path : string := "/tmp/up4.sock" in
  connects 1 path leftover = false /\ connects 2 path leftover = false /\
  let first := (open_socket 1 path (unlink path leftover)).1 in
  at_path first !! path = Some (Sock 1 384) /\ 1%nat ∈ listening first /\
  let second := (open_socket 2 path (unlink path first)).1 in
  at_path second !! path = Some (Sock 2 384) /\ 1%nat ∈ listening second /\
  at_path (drop_server 1 path second) !! path = None /\ 2%nat ∈ listening (drop_server 1 path second).
Proof. vm_compute. split_and!; try done; by left || (right; by left) || reflexivity. Qed.

End Desk.
