(* ===== verification/Session.v ===== *)
(** * A session on the control socket (crates/up4-ctl/src/{client,codec,server}.rs)

    A client and the server at the two ends of one connection, with the rest of
    the node running beside them.  [Client::call] is two actions, the send and
    the wait for a reply; the server takes one turn of [converse] at a time; and
    they interleave with each other, with the node, with timeouts and with either
    end leaving.  [session_step] is what any [Client] may do; [up4ctl_step] what
    [up4ctl] does, which makes no call after one that got no reply. *)

From S2P Require Import Prelude Bytes Shim Config Metrics Socket Codec Ctl Server.

Local Open Scope Z_scope.

(** ** The two ends *)

(** One end of a [SOCK_SEQPACKET] pair: what it has not read, what it has
    written, and whether the other end is closed. *)
Record End := mkEnd { inbox : list bytes; outbox : list bytes; peer_gone : bool }.

Definition BROKEN_PIPE : IoError := OtherError "Broken pipe (os error 32)".

(** A read that finds nothing times out; at the end of a closed connection it
    returns no bytes. *)
#[export] Instance end_sock : Sock End := {
  sock_write f e :=
    if peer_gone e then (e, Err BROKEN_PIPE) else (mkEnd (inbox e) (outbox e ++ [f]) false, Ok tt);
  sock_read e :=
    match inbox e with
    | m :: ms => (mkEnd ms (outbox e) (peer_gone e), Ok m)
    | [] => (e, if peer_gone e then Ok [] else Err WouldBlock)
    end;
}.

Section session.
Context `{HT : TableOps T} {J : Type}.
Variable encode_request : CtlRequest -> result bytes string.
Variable decode_request : bytes -> result CtlRequest string.
Variable encode_response : CtlResponse J -> result bytes string.
Variable decode_response : bytes -> result (CtlResponse J) string.
Variable show_error : CodecError -> string.
Implicit Types c : Context T J.

(** ** The system *)

(** What a client made of a call. *)
Definition Outcome : Type := CtlRequest * result (CtlResponse J) CodecError.

(** A request the node acted on, the node it found and the clocks it read. *)
Record Served := mkServed { sv_request : CtlRequest; sv_context : Context T J; sv_outside : Outside }.

Record Session := mkSession {
  s_node : Context T J;
  to_server : list bytes;
  to_client : list bytes;
  (** The client has closed its end; the server has left; the client has had a
      call fail. *)
  s_closed : bool;
  s_left : bool;
  s_failed : bool;
  s_server_buf : bytes;
  s_client_buf : bytes;
  s_idle : Z;
  (** The request the client waits on. *)
  s_waits : option CtlRequest;
  s_calls : list Outcome;
  (** What the server did, for the record. *)
  s_served : list Served;
}.

Definition session_start c : Session := mkSession c [] [] false false false [] [] 0 None [] [].

Definition server_end (s : Session) : End := mkEnd (to_server s) (to_client s) (s_closed s).
Definition client_end (s : Session) : End := mkEnd (to_client s) (to_server s) (s_left s).

(** The request a turn of the server finds. *)
Definition found (s : Session) : option CtlRequest :=
  match codec_recv decode_request (server_end s) (s_server_buf s) with
  | (_, _, Ok (Some q)) => Some q
  | _ => None
  end.

(** A turn of the server. *)
Definition serve_turn (o : Outside) (s : Session) : Session :=
  let served := match found s with Some q => s_served s ++ [mkServed q (s_node s) o] | None => s_served s end in
  match converse_turn decode_request encode_response show_error o (s_idle s) (server_end s) (s_server_buf s) (s_node s) with
  | Goes idle e buf c =>
      mkSession c (inbox e) (outbox e) (s_closed s) false (s_failed s) buf (s_client_buf s) idle (s_waits s) (s_calls s) served
  | Leaves e buf c _ =>
      mkSession c (inbox e) (outbox e) (s_closed s) true (s_failed s) buf (s_client_buf s) (s_idle s) (s_waits s) (s_calls s) served
  end.

(** The first half of [Client::call]. *)
Definition call_send (q : CtlRequest) (s : Session) : Session :=
  match codec_send encode_request q (client_end s) with
  | (e, Ok _) =>
      mkSession (s_node s) (outbox e) (inbox e) (s_closed s) (s_left s) (s_failed s) (s_server_buf s) (s_client_buf s) (s_idle s)
        (Some q) (s_calls s) (s_served s)
  | (_, Err x) =>
      mkSession (s_node s) (to_server s) (to_client s) (s_closed s) (s_left s) (s_failed s) (s_server_buf s) (s_client_buf s) (s_idle s)
        None (s_calls s ++ [(q, Err x)]) (s_served s)
  end.

(** The second half: a reply, the end of the stream, a frame that is no
    response, or the timeout. *)
Definition call_recv (q : CtlRequest) (s : Session) : Session :=
  match codec_recv decode_response (client_end s) (s_client_buf s) with
  | (e, buf, r) =>
      let r := match r with Ok (Some x) => Ok x | Ok None => Err UnexpectedEof | Err x => Err x end in
      mkSession (s_node s) (outbox e) (inbox e) (s_closed s) (s_left s)
        (match r with Ok _ => s_failed s | Err _ => true end) (s_server_buf s) buf (s_idle s) None (s_calls s ++ [(q, r)]) (s_served s)
  end.

(** What may happen next. *)
Inductive session_step : Session -> Session -> Prop :=
  | step_send s q : s_closed s = false -> s_waits s = None -> session_step s (call_send q s)
  | step_recv s q : s_waits s = Some q -> session_step s (call_recv q s)
  | step_close s :
      s_waits s = None ->
      session_step s (mkSession (s_node s) (to_server s) (to_client s) true (s_left s) (s_failed s) (s_server_buf s) (s_client_buf s)
                        (s_idle s) None (s_calls s) (s_served s))
  | step_serve s o : s_left s = false -> session_step s (serve_turn o s)
  | step_node s c :
      session_step s (mkSession c (to_server s) (to_client s) (s_closed s) (s_left s) (s_failed s) (s_server_buf s) (s_client_buf s)
                        (s_idle s) (s_waits s) (s_calls s) (s_served s)).

(** The steps of a session whose client is [up4ctl]: [Client] may be called again
    after a call that got no reply, but the program exits. *)
Definition up4ctl_step (s s' : Session) : Prop :=
  session_step s s' /\ (s_failed s = true -> s_calls s' = s_calls s /\ s_waits s' = s_waits s).

(** What the client is told of a response: itself, or why it could not be sent. *)
Definition told (r : CtlResponse J) : CtlResponse J :=
  match frame_of encode_response r with Ok _ => r | Err e => RspError (show_error e) end.

Definition reply_of (v : Served) : CtlResponse J :=
  told (handle (o_mono (sv_outside v)) (o_wall (sv_outside v)) (sv_request v) (sv_context v)).2.

(** ** One reply for one request *)

(** The calls that got an answer. *)
Definition answered (calls : list Outcome) : list (CtlRequest * CtlResponse J) :=
  omap (fun o => match o.2 with Ok r => Some (o.1, r) | Err _ => None end) calls.

Definition pair_of (v : Served) : CtlRequest * CtlResponse J := (sv_request v, reply_of v).

Hypothesis requests_decode : forall q body, encode_request q = Ok body -> decode_request body = Ok q.
Hypothesis responses_decode : forall r body, encode_response r = Ok body -> decode_response body = Ok r.
(** The text of a failure fits a control frame. *)
Hypothesis errors_fit : forall e, exists f, frame_of encode_response (RspError (show_error e)) = Ok f.

Lemma answered_snoc calls o :
  answered (calls ++ [o]) = answered calls ++ match o.2 with Ok r => [(o.1, r)] | Err _ => [] end.
Proof. unfold answered. rewrite omap_app. f_equal. by destruct o as [q [r | e]]. Qed.

(** A frame that waits is read as the message it was made from. *)
Lemma recv_frame {M} (enc : M -> result bytes string) dec m f e ms buf :
  (forall m body, enc m = Ok body -> dec body = Ok m) ->
  frame_of enc m = Ok f -> inbox e = f :: ms ->
  exists buf', codec_recv dec e buf = (mkEnd ms (outbox e) (peer_gone e), buf', Ok (Some m)).
Proof.
  intros Hinv (body & Hb & Hl & ->)%frame_of_Ok Hi. unfold codec_recv. cbn [sock_read end_sock]. rewrite Hi.
  destruct (message_of_frame dec buf body Hl) as [buf' Hm].
  rewrite Hm. unfold parsed. rewrite (Hinv m) by done. by eexists.
Qed.

Lemma recv_nothing {M} (dec : bytes -> result M string) e buf :
  inbox e = [] -> exists buf',
    codec_recv dec e buf = (e, buf', if peer_gone e then Ok None else Err (SockError WouldBlock)).
Proof.
  intros Hi. unfold codec_recv. cbn [sock_read end_sock]. rewrite Hi. destruct (peer_gone e); [| by eexists].
  unfold message_of. cbn. by eexists.
Qed.

(** An answer reaches a client that is there, as what it is told. *)
Lemma answer_told r e :
  exists f, frame_of encode_response (told r) = Ok f /\
    answer encode_response show_error r e
    = if peer_gone e then (e, Err (SockError BROKEN_PIPE)) else (mkEnd (inbox e) (outbox e ++ [f]) false, Ok tt).
Proof using errors_fit.
  unfold told, answer, codec_send. destruct (frame_of encode_response r) as [f | x] eqn:E.
  - exists f. split; [done |]. cbn [sock_write end_sock]. destruct (peer_gone e) eqn:Eg; [| done].
    cbn [map_err]. destruct (errors_fit (SockError BROKEN_PIPE)) as [g ->]. by rewrite Eg.
  - destruct (errors_fit x) as [g Hg]. exists g. split; [done |]. rewrite Hg. cbn [sock_write end_sock]. by destruct (peer_gone e).
Qed.

(** A turn with a request waiting. *)
Lemma turn_serves o s q f :
  s_left s = false -> to_server s = [f] -> frame_of encode_request q = Ok f ->
  let v := mkServed q (s_node s) o in
  exists g c buf idle, frame_of encode_response (reply_of v) = Ok g /\
    serve_turn o s = mkSession c [] (if s_closed s then to_client s else to_client s ++ [g]) (s_closed s) (s_closed s) (s_failed s) buf
                       (s_client_buf s) idle (s_waits s) (s_calls s) (s_served s ++ [v]).
Proof using requests_decode errors_fit.
  intros Hl Hs Hf v. unfold serve_turn, found, converse_turn.
  destruct (recv_frame encode_request decode_request q f (server_end s) [] (s_server_buf s) requests_decode Hf Hs) as [buf ->].
  unfold reply_of. cbn [sv_request sv_context sv_outside v].
  destruct (handle (o_mono o) (o_wall o) q (s_node s)) as [c response]. cbn [snd].
  destruct (answer_told response (mkEnd [] (outbox (server_end s)) (peer_gone (server_end s)))) as (g & Hg & ->).
  exists g. cbn [server_end peer_gone inbox outbox]. destruct (s_closed s); cbn [inbox outbox]; eauto 8.
Qed.

(** A turn with nothing waiting. *)
Lemma turn_rests o s :
  s_left s = false -> to_server s = [] ->
  exists left_ buf idle,
    serve_turn o s = mkSession (s_node s) [] (to_client s) (s_closed s) left_ (s_failed s) buf (s_client_buf s) idle (s_waits s) (s_calls s) (s_served s).
Proof.
  intros Hl Hs. unfold serve_turn, found, converse_turn.
  destruct (recv_nothing decode_request (server_end s) (s_server_buf s) Hs) as [buf ->].
  cbn [server_end peer_gone]. destruct (s_closed s); cbn [codec_transient is_transient inbox outbox server_end]; [rewrite Hs; eauto |].
  destruct (o_stop o || _); [cbn; rewrite Hs; eauto |].
  destruct (_ <=? _); cbn; rewrite Hs; eauto.
Qed.

(** The client makes no further call. *)
Definition over (s : Session) : bool := s_closed s || s_failed s.

(** How far a call has come. *)
Inductive phase (s : Session) : Prop :=
  | Resting :
      over s = false -> s_waits s = None -> to_server s = [] -> to_client s = [] ->
      pair_of <$> s_served s = answered (s_calls s) -> phase s
  | Asked q f :
      over s = false -> s_waits s = Some q -> to_server s = [f] -> to_client s = [] ->
      frame_of encode_request q = Ok f -> pair_of <$> s_served s = answered (s_calls s) -> phase s
  | Replied q v f served :
      over s = false -> s_waits s = Some q -> to_server s = [] -> to_client s = [f] ->
      frame_of encode_response (reply_of v) = Ok f -> sv_request v = q -> s_served s = served ++ [v] ->
      pair_of <$> served = answered (s_calls s) -> phase s
  | Finished :
      over s = true -> s_waits s = None -> to_server s = [] ->
      pair_of <$> s_served s = answered (s_calls s) -> phase s
  | Abandoned q f e :
      over s = true -> s_waits s = None -> to_server s = [f] -> frame_of encode_request q = Ok f ->
      last (s_calls s) = Some (q, Err e) -> pair_of <$> s_served s = answered (s_calls s) -> phase s
  | Unheard q v e served :
      over s = true -> s_waits s = None -> to_server s = [] -> sv_request v = q ->
      last (s_calls s) = Some (q, Err e) -> s_served s = served ++ [v] ->
      pair_of <$> served = answered (s_calls s) -> phase s.

Lemma over_false s : over s = false <-> s_closed s = false /\ s_failed s = false.
Proof. apply orb_false_iff. Qed.

(** A call, sent. *)
Lemma call_send_phase q s :
  s_closed s = false -> s_failed s = false -> s_waits s = None -> phase s -> phase (call_send q s).
Proof.
  intros Hc Hf Hw Hp. assert (over s = false) as Ho by by apply over_false.
  destruct Hp as [_ _ Hs Ht Hv | | | | |]; try congruence. unfold call_send, codec_send.
  destruct (frame_of encode_request q) as [f | e] eqn:E.
  - cbn [sock_write end_sock client_end peer_gone]. destruct (s_left s).
    + apply Resting; cbn; try done. by rewrite answered_snoc, app_nil_r.
    + eapply Asked; cbn; try done. by rewrite Hs.
  - apply Resting; cbn; try done. by rewrite answered_snoc, app_nil_r.
Qed.

(** A call, answered or not. *)
Lemma call_recv_phase q s : s_waits s = Some q -> phase s -> phase (call_recv q s).
Proof.
  intros Hw Hp. destruct Hp as [| q' f Ho Hq Hs Ht Hf Hv | q' v f served Ho Hq Hs Ht Hf Hr Hv Ha | | |]; try congruence;
    simplify_eq; unfold call_recv.
  - destruct (recv_nothing decode_response (client_end s) (s_client_buf s) Ht) as [buf ->].
    cbn [client_end peer_gone outbox inbox].
    destruct (s_left s); (eapply (Abandoned _ q f); cbn; [apply orb_true_r | done | done | done | apply last_snoc | by rewrite answered_snoc, app_nil_r]).
  - destruct (recv_frame encode_response decode_response _ f (client_end s) [] (s_client_buf s) responses_decode Hf Ht) as [buf ->].
    apply over_false in Ho as [Hc Hx]. apply Resting; cbn; try done; [by rewrite Hc, Hx |].
    by rewrite Hv, answered_snoc, fmap_app, Ha.
Qed.

Lemma answered_call q s v f :
  frame_of encode_response (reply_of v) = Ok f -> to_client s = [f] ->
  s_calls (call_recv q s) = s_calls s ++ [(q, Ok (reply_of v))].
Proof using responses_decode.
  intros Hf Ht. unfold call_recv.
  by destruct (recv_frame encode_response decode_response _ f (client_end s) [] (s_client_buf s) responses_decode Hf Ht) as [buf ->].
Qed.

(** A turn of the server. *)
Lemma serve_phase o s : s_left s = false -> phase s -> phase (serve_turn o s).
Proof.
  intros Hl Hp. destruct Hp as [Ho Hw Hs Ht Hv | q f Ho Hw Hs Ht Hf Hv | q v f served Ho Hw Hs Ht Hf Hr Hv Ha
    | Ho Hw Hs Hv | q f e Ho Hw Hs Hf He Hv | q v e served Ho Hw Hs Hr He Hv Ha].
  - destruct (turn_rests o s Hl Hs) as (l & buf & idle & ->). by apply Resting.
  - destruct (turn_serves o s q f Hl Hs Hf) as (g & c & buf & idle & Hg & ->).
    apply over_false in Ho as [Hc Hx]. rewrite Hc, Ht. by eapply (Replied _ q (mkServed q (s_node s) o) g).
  - destruct (turn_rests o s Hl Hs) as (l & buf & idle & ->). by eapply (Replied _ q v f).
  - destruct (turn_rests o s Hl Hs) as (l & buf & idle & ->). by apply Finished.
  - destruct (turn_serves o s q f Hl Hs Hf) as (g & c & buf & idle & Hg & ->). by eapply (Unheard _ q (mkServed q (s_node s) o) e).
  - destruct (turn_rests o s Hl Hs) as (l & buf & idle & ->). by eapply (Unheard _ q v e).
Qed.

(** The client's end, closed between calls. *)
Lemma close_phase s s' :
  s_waits s = None -> s_closed s' = true -> s_waits s' = None -> to_server s' = to_server s ->
  s_calls s' = s_calls s -> s_served s' = s_served s -> phase s -> phase s'.
Proof.
  intros Hw Hc Hw' Hs Hca Hsv Hp. assert (over s' = true) as Ho by (unfold over; by rewrite Hc).
  destruct Hp; try congruence.
  - apply Finished; congruence.
  - apply Finished; congruence.
  - eapply (Abandoned _ q f e); congruence.
  - eapply (Unheard _ q v e served); congruence.
Qed.

(** A call that is sent or refused shows. *)
Lemma call_send_shows q s :
  s_waits s = None -> s_calls (call_send q s) = s_calls s -> s_waits (call_send q s) = s_waits s -> False.
Proof.
  intros Hw. rewrite Hw. unfold call_send. destruct (codec_send _ _ _) as [e [[] | x]]; cbn; [done |].
  intros H%(f_equal length) _. rewrite length_app in H. cbn in H. lia.
Qed.

Lemma session_phase s s' : up4ctl_step s s' -> phase s -> phase s'.
Proof.
  intros [H Hd]. destruct H as [s q Hc Hw | s q Hw | s Hw | s o Hl | s c]; intros Hp.
  - apply call_send_phase; [done | | done | done]. destruct (s_failed s) eqn:Hf; [| done].
    destruct (Hd eq_refl) as [H1 H2]. by destruct (call_send_shows q s Hw H1 H2).
  - by apply call_recv_phase.
  - by eapply close_phase.
  - by apply serve_phase.
  - destruct Hp; [by apply Resting | by eapply Asked | by eapply Replied | by apply Finished | by eapply Abandoned | by eapply Unheard].
Qed.

(** C33: Every answer is the answer to its question.  However [up4ctl], the server
    and the rest of the node interleave, with reads that time out, a server that
    leaves and a client that does: the calls that were answered are, in order,
    the requests the node acted on, each once, and each answer is what [handle]
    replied to that request on the node as it found it (or, where that fits no
    control frame, the text that says so).  At most one request was acted on
    without the client hearing of it: the one it still waits for, or the one
    whose call failed last, after which it makes no other.  And a client that
    waits has its answer after one turn of a server that is there. *)
Theorem answers_match_requests c s :
  rtc up4ctl_step (session_start c) s ->
  (exists unheard,
    pair_of <$> s_served s = answered (s_calls s) ++ unheard /\ (length unheard <= 1)%nat /\
    forall q r, (q, r) ∈ unheard ->
      s_waits s = Some q \/ over s = true /\ exists e, last (s_calls s) = Some (q, Err e)) /\
  (forall q o, s_waits s = Some q -> s_left s = false ->
    let s1 := if decide (to_client s = []) then serve_turn o s else s in
    exists v, last (s_served s1) = Some v /\ sv_request v = q /\
      s_calls (call_recv q s1) = s_calls s ++ [(q, Ok (reply_of v))]).
Proof using requests_decode responses_decode errors_fit.
  intros Hs. assert (phase s) as Hp.
  { assert (phase (session_start c)) as H0 by by apply Resting. induction Hs as [| x y z Hxy _ IH]; [done |].
    apply IH. by eapply session_phase. }
  split.
  - destruct Hp as [_ _ _ _ Hv | q f _ _ _ _ _ Hv | q v f served _ Hw _ _ _ Hr Hv Ha | _ _ _ Hv | q f e _ _ _ _ _ Hv
      | q v e served Ho _ _ Hr He Hv Ha].
    1, 2, 4, 5: exists []; rewrite app_nil_r; split_and!; [done | cbn; lia | by intros ? ? ?%elem_of_nil].
    all: exists [pair_of v]; rewrite Hv, fmap_app, Ha; split_and!; [done | cbn; lia |].
    all: intros q' r' [= -> _]%list_elem_of_singleton; rewrite Hr; eauto.
  - intros q o Hw Hl s1. destruct Hp as [| q' f Ho Hq Hs' Ht Hf _ | q' v f served _ Hq _ Ht Hf Hr Hv _ | | |]; try congruence; simplify_eq.
    + unfold s1. rewrite decide_True by done. destruct (turn_serves o s q' f Hl Hs' Hf) as (g & c' & buf & idle & Hg & ->).
      exists (mkServed q' (s_node s) o). split; [apply last_snoc |]. split; [done |].
      lazymatch goal with |- s_calls (call_recv _ ?x) = _ => apply (answered_call q' x _ g Hg) end. cbn [to_client]. apply over_false in Ho as [Hc _]. by rewrite Hc, Ht.
    + unfold s1. rewrite decide_False by (by rewrite Ht). exists v. rewrite Hv. split; [apply last_snoc |].
      split; [done |]. by apply answered_call with (f := f).
Qed.
End session.

(** A client of a node without tables, in an encoding of two requests and their
    responses. *)
Module Wire.

Definition encode_request (q : CtlRequest) : result bytes string :=
  match q with ReqPing => Ok [U8 1] | ReqShutdown => Ok [U8 2] | _ => Err "unsupported"%string end.
Definition decode_request (b : bytes) : result CtlRequest string :=
  if bool_decide (b = [U8 1]) then Ok ReqPing else if bool_decide (b = [U8 2]) then Ok ReqShutdown else Err "no request"%string.
Definition encode_response (r : CtlResponse unit) : result bytes string :=
  match r with
  | Pong => Ok [U8 1]
  | ShuttingDown => Ok [U8 2]
  | RspError m => if bool_decide (m = "failed"%string) then Ok [U8 3] else Err "unsupported"%string
  | _ => Err "unsupported"%string
  end.
Definition decode_response (b : bytes) : result (CtlResponse unit) string :=
  if bool_decide (b = [U8 1]) then Ok Pong
  else if bool_decide (b = [U8 2]) then Ok ShuttingDown
  else if bool_decide (b = [U8 3]) then Ok (RspError "failed") else Err "no response"%string.
Definition show_error (_ : CodecError) : string := "failed".

Definition asked : Session (T := NoTablesOps) := call_send encode_request ReqPing (session_start Script.context).
Definition server_turn : Session -> Session := serve_turn decode_request encode_response show_error Script.quiet.

(** The ping is answered after one turn of the server. *)
Lemma answers_witness :
  s_waits asked = Some ReqPing /\
  exists v, last (s_served (server_turn asked)) = Some v /\ sv_request v = ReqPing /\
    s_calls (call_recv decode_response ReqPing (server_turn asked)) = [(ReqPing, Ok Pong)].
Proof.
  split; [reflexivity |].
  destruct (answers_match_requests encode_request decode_request encode_response decode_response show_error) with
    (c := Script.context) (s := asked) as [_ H].
  - intros [] body; try discriminate; intros [= <-]; reflexivity.
  - intros [] body; try discriminate; try (intros [= <-]; reflexivity). cbn.
    case_bool_decide as Hm; [| discriminate]. subst. intros [= <-]. reflexivity.
  - intros e. eexists. reflexivity.
  - apply rtc_once. split; [by apply step_send | discriminate].
  - destruct (H ReqPing Script.quiet eq_refl eq_refl) as (v & Hv & Hq & Hc).
    rewrite decide_True in Hv, Hc by reflexivity. exists v. split; [exact Hv |]. split; [exact Hq |].
    etransitivity; [exact Hc |]. unfold reply_of. rewrite Hq. reflexivity.
Defined.

(** A [Client] that is used again after a call timed out is answered out of
    step: the late reply to the first request comes back for the second. *)
Definition late : Sock (list (result bytes IoError)) := {|
  sock_write _ s := (s, Ok tt);
  sock_read s := match s with r :: s => (s, r) | [] => ([], Err WouldBlock) end;
|}.

Definition response_frame (r : CtlResponse unit) : bytes :=
  match frame_of encode_response r with Ok f => f | Err _ => [] end.

Lemma late_reply_answers_the_next_call :
  let '(s, buf, first) := call (H := late) encode_request decode_response ReqPing
                            [Err WouldBlock; Ok (response_frame Pong); Ok (response_frame ShuttingDown)] [] in
  first = Err (SockError WouldBlock) /\
  (call (H := late) encode_request decode_response ReqShutdown s buf).2 = Ok Pong.
Proof.
  unfold call. cbn [codec_send frame_of]. unfold codec_send, codec_recv.
  assert (exists f, frame_of encode_request ReqPing = Ok f) as [f ->] by (eexists; reflexivity).
  assert (exists f, frame_of encode_request ReqShutdown = Ok f) as [g ->] by (eexists; reflexivity).
  cbn [sock_write sock_read late map_err]. split; [done |].
  destruct (message_of_frame decode_response (resize SCRATCH []) [U8 1]) as [buf Hm]; [done |].
  change (response_frame Pong) with (be_bytes 4 (Z.of_nat (length [U8 1])) ++ [U8 1]).
  by rewrite Hm.
Qed.

End Wire.
