(* ===== verification/Warn.v ===== *)
(** * Clocks and rate-limited warnings (crates/up4-io/src/{clock,warn}.rs)

    The monotonic clock and its 32-bit truncation, and the counter that lets a
    recurring condition be logged once per interval.  A reading of the clock is
    an argument; each tick is one step, as it is for one shard. *)

From S2P Require Import Prelude Wire.

Local Open Scope Z_scope.

(** ** Clocks *)

(** [monotonic_us], of what [clock_gettime] returned. *)
Definition monotonic_us (tv_sec tv_nsec : u64) : u64 := U64 (uv tv_sec * 1000000 + uv tv_nsec / 1000).

(** [now_us] *)
Definition now_us (mono : u64) : u32 := U32 (uv mono).

(** [delta_us] *)
Definition delta_us (later earlier : u32) : Z := as_i32 (uv (U32 (uv later - uv earlier))).

(** The difference of two readings survives the wrap of the wire's clock, as
    long as they are less than 2^31 microseconds apart. *)
Lemma delta_us_exact (later earlier : u64) :
  - 2 ^ 31 <= uv later - uv earlier < 2 ^ 31 ->
  delta_us (now_us later) (now_us earlier) = uv later - uv earlier.
Proof.
  intros H. unfold delta_us, now_us, as_i32. rewrite !uv_of.
  change (Z.of_N 32) with 32. rewrite <- Zminus_mod.
  change (2 ^ 31) with 2147483648 in *. change (2 ^ 32) with 4294967296.
  Z.div_mod_to_equations. lia.
Qed.

(** ** Warnings *)

Definition WARN_INTERVAL_US : Z := 10000000.

Record WarnRate := { wr_count : u64; wr_next_us : u64 }.

Definition WarnRate_new : WarnRate := {| wr_count := U64 0; wr_next_us := U64 0 |}.

(** [WarnRate::tick], with the clock reading it makes. *)
Definition tick (now : u64) (w : WarnRate) : WarnRate * option u64 :=
  let c := U64 (uv (wr_count w) + 1) in
  if bool_decide (uv c = 1) || (uv (wr_next_us w) <=? uv now)
  then ({| wr_count := c; wr_next_us := U64 (uv now + WARN_INTERVAL_US) |}, Some c)
  else ({| wr_count := c; wr_next_us := wr_next_us w |}, None).

Fixpoint ticks (times : list u64) (w : WarnRate) : WarnRate * list (option u64) :=
  match times with
  | [] => (w, [])
  | t :: times => let '(w, r) := tick t w in let '(w, rs) := ticks times w in (w, r :: rs)
  end.

(** ** Lemmas *)

(** The clock does not run backwards, and the deadlines fit its word. *)
Definition clock_ok (times : list u64) : Prop :=
  (forall i j a b, (i <= j)%nat -> times !! i = Some a -> times !! j = Some b -> uv a <= uv b) /\
  Forall (fun t => uv t + WARN_INTERVAL_US < 2 ^ 64) times /\ Z.of_nat (length times) < 2 ^ 64.

Lemma ticks_app t1 t2 w :
  ticks (t1 ++ t2) w =
    ((ticks t2 (ticks t1 w).1).1, (ticks t1 w).2 ++ (ticks t2 (ticks t1 w).1).2).
Proof.
  revert w. induction t1 as [| t t1 IH]; intros w; cbn [app ticks fst snd].
  - by destruct (ticks t2 w).
  - destruct (tick t w) as [w1 r]. rewrite IH. by destruct (ticks t1 w1).
Qed.

(** Which occurrences are reported, and with what. *)
Definition reported (rs : list (option u64)) (i : nat) : Prop := exists n, rs !! i = Some (Some n).

Record tallied (times : list u64) (w : WarnRate) (rs : list (option u64)) : Prop := {
  ta_length : length rs = length times;
  ta_count : uv (wr_count w) = Z.of_nat (length times);
  ta_first : times <> [] -> reported rs 0;
  ta_total : forall i n, rs !! i = Some (Some n) -> uv n = Z.of_nat (S i);
  ta_spaced : forall i j a b, (i < j)%nat -> reported rs i -> reported rs j ->
    times !! i = Some a -> times !! j = Some b -> uv a + WARN_INTERVAL_US <= uv b;
  ta_again : forall i j a b, (i < j)%nat -> reported rs i -> times !! i = Some a -> times !! j = Some b ->
    uv a + WARN_INTERVAL_US <= uv b -> exists k, (i < k <= j)%nat /\ reported rs k;
  ta_next : times <> [] -> exists i a, reported rs i /\ times !! i = Some a /\
    uv (wr_next_us w) = uv a + WARN_INTERVAL_US /\ forall k, (i < k)%nat -> ~ reported rs k;
}.

Lemma reported_app rs r i :
  reported (rs ++ [r]) i <-> reported rs i \/ (i = length rs /\ is_Some r).
Proof.
  unfold reported. split.
  - intros [n [H | [Hge H]]%lookup_app_Some]; [left; by exists n |]. apply list_lookup_singleton_Some in H as [Hz ->].
    right. split; [lia | done].
  - intros [[n H] | [-> [n ->]]].
    + exists n. by apply lookup_app_l_Some.
    + exists n. by rewrite lookup_app_r, Nat.sub_diag by lia.
Qed.

Lemma reported_lt times w rs i : tallied times w rs -> reported rs i -> (i < length times)%nat.
Proof. intros Ht [n H]. rewrite <- (ta_length _ _ _ Ht). by eapply lookup_lt_Some. Qed.

(** No report is later than the one the deadline was set by. *)
Lemma reported_le rs i k : (forall k, (i < k)%nat -> ~ reported rs k) -> reported rs k -> (k <= i)%nat.
Proof. intros H Hk. destruct (decide (k <= i)%nat); [done |]. destruct (H k); [lia | done]. Qed.

Lemma tick_count now w : uv (wr_count w) + 1 < 2 ^ 64 -> uv (wr_count (tick now w).1) = uv (wr_count w) + 1.
Proof.
  intros H. pose proof (uint_range (wr_count w)). unfold tick.
  destruct (_ || _); cbn; apply uv_of_small; change (Z.of_N 64) with 64; lia.
Qed.

Lemma lookup_before {A} (l : list A) x i a : (i < length l)%nat -> (l ++ [x]) !! i = Some a -> l !! i = Some a.
Proof. intros Hi. by rewrite lookup_app_l. Qed.

Lemma lookup_at_end {A} (l : list A) x a : (l ++ [x]) !! length l = Some a -> a = x.
Proof. rewrite lookup_app_r, Nat.sub_diag by lia. by intros [= ->]. Qed.

(** The next occurrence is reported: it is the first, or its time has come. *)
Lemma tallied_report times w rs t w' c :
  clock_ok (times ++ [t]) -> tallied times w rs ->
  (times <> [] -> uv (wr_next_us w) <= uv t) ->
  uv c = Z.of_nat (S (length times)) -> uv (wr_count w') = uv c -> uv (wr_next_us w') = uv t + WARN_INTERVAL_US ->
  tallied (times ++ [t]) w' (rs ++ [Some c]).
Proof.
  intros (Hs & Hb & Hn) Ht Hnext Hc Hw Hd. pose proof (ta_length _ _ _ Ht) as Hl.
  assert (forall i, reported rs i -> (i < length times)%nat) as Hlt by (intros i; by apply (reported_lt times w)).
  split.
  - rewrite !length_app. cbn. lia.
  - rewrite Hw, Hc, length_app. cbn. lia.
  - intros _. apply reported_app. destruct times as [| x times]; [right; by rewrite Hl | left; by apply (ta_first _ _ _ Ht)].
  - intros i n [H | [Hge H]]%lookup_app_Some; [by apply (ta_total _ _ _ Ht) |].
    apply list_lookup_singleton_Some in H as [Hz [= ->]]. rewrite Hc. lia.
  - intros i j a b Hij Hi Hj Ha Hb'.
    assert ((j <= length times)%nat) as Hj' by (apply lookup_lt_Some in Hb'; rewrite length_app in Hb'; cbn in Hb'; lia).
    apply reported_app in Hi as [Hi | [-> _]]; [| lia]. pose proof (Hlt i Hi).
    apply reported_app in Hj as [Hj | [-> _]].
    + apply (ta_spaced _ _ _ Ht i j); [done | done | done | |]; eapply lookup_before; eauto.
    + rewrite Hl in Hb'. apply lookup_at_end in Hb' as ->.
      destruct (ta_next _ _ _ Ht) as (l & al & Hr & Hal & Hnx & Hlast); [intros ->; cbn in *; lia |].
      pose proof (Hs i l a al (reported_le rs l i Hlast Hi) Ha) as Hle.
      specialize (Hle ltac:(by apply lookup_app_l_Some)). specialize (Hnext ltac:(intros ->; cbn in *; lia)). lia.
  - intros i j a b Hij Hi Ha Hb' Hab. destruct (decide (j = length times)) as [-> | Hj].
    + exists (length times). split; [lia |]. apply reported_app. right. split; [done | by exists c].
    + assert ((j < length times)%nat) as Hj' by (apply lookup_lt_Some in Hb'; rewrite length_app in Hb'; cbn in Hb'; lia).
      apply reported_app in Hi as [Hi | [-> _]]; [| lia].
      destruct (ta_again _ _ _ Ht i j a b) as (k & Hk & Hr); try done; [eapply lookup_before, Ha; by apply Hlt | by eapply lookup_before, Hb' |].
      exists k. split; [done |]. apply reported_app. by left.
  - intros _. exists (length times), t. split_and!.
    + apply reported_app. right. split; [done | by exists c].
    + by rewrite lookup_app_r, Nat.sub_diag by lia.
    + done.
    + intros k Hk [Hr%Hlt | [-> _]]%reported_app; lia.
Qed.

(** It is not: the interval since the last report is not over. *)
Lemma tallied_quiet times w rs t w' :
  clock_ok (times ++ [t]) -> tallied times w rs -> times <> [] -> uv t < uv (wr_next_us w) ->
  uv (wr_count w') = Z.of_nat (S (length times)) -> wr_next_us w' = wr_next_us w ->
  tallied (times ++ [t]) w' (rs ++ [None]).
Proof.
  intros (Hs & Hb & Hn) Ht Hne Hnext Hw Hd. pose proof (ta_length _ _ _ Ht) as Hl.
  assert (forall i, reported rs i -> (i < length times)%nat) as Hlt by (intros i; by apply (reported_lt times w)).
  assert (forall i, reported (rs ++ [None]) i <-> reported rs i) as Hr.
  { intros i. rewrite reported_app. split; [intros [| [_ [? [=]]]]; done | by left]. }
  destruct (ta_next _ _ _ Ht Hne) as (l & al & Hlr & Hal & Hnx & Hlast).
  split.
  - rewrite !length_app. cbn. lia.
  - rewrite Hw, length_app. cbn. lia.
  - intros _. by apply Hr, (ta_first _ _ _ Ht).
  - intros i n [H | [Hge H]]%lookup_app_Some; [by apply (ta_total _ _ _ Ht) |].
    by apply list_lookup_singleton_Some in H as [_ [=]].
  - intros i j a b Hij Hi%Hr Hj%Hr Ha Hb'. pose proof (Hlt j Hj).
    apply (ta_spaced _ _ _ Ht i j); [done | done | done | |]; eapply lookup_before; eauto; lia.
  - intros i j a b Hij Hi%Hr Ha Hb' Hab. pose proof (Hlt i Hi).
    destruct (decide (j < length times)%nat) as [Hj |].
    + destruct (ta_again _ _ _ Ht i j a b) as (k & Hk & Hkr); try done; [by eapply lookup_before | by eapply lookup_before |].
      exists k. split; [done | by apply Hr].
    + assert (j = length times) as -> by (apply lookup_lt_Some in Hb'; rewrite length_app in Hb'; cbn in Hb'; lia).
      apply lookup_at_end in Hb' as ->. exists l. pose proof (reported_le rs l i Hlast Hi).
      destruct (decide (i = l)) as [-> |]; [| split; [pose proof (Hlt l Hlr); lia | by apply Hr]].
      apply lookup_before in Ha; [| done]. rewrite Hal in Ha. injection Ha as ->. lia.
  - intros _. exists l, al. rewrite Hd. split_and!; [by apply Hr | by apply lookup_app_l_Some | done |].
    intros k Hk ?%Hr. by apply (Hlast k).
Qed.

Lemma clock_ok_app t1 t2 : clock_ok (t1 ++ t2) -> clock_ok t1.
Proof.
  intros (Hs & Hb & Hn). split_and!.
  - intros i j a b Hij Ha Hb'. apply (Hs i j); [done | by apply lookup_app_l_Some | by apply lookup_app_l_Some].
  - by apply Forall_app in Hb as [Hb _].
  - rewrite length_app in Hn. lia.
Qed.

Lemma ticks_tallied times : clock_ok times -> tallied times (ticks times WarnRate_new).1 (ticks times WarnRate_new).2.
Proof.
  induction times as [| t times IH] using rev_ind; intros Hc.
  - cbn. split; cbn; try done; by intros ? ? ? ? ? [? ?].
  - specialize (IH (clock_ok_app _ _ Hc)). rewrite ticks_app. cbn [fst snd ticks].
    destruct (ticks times WarnRate_new) as [w rs]. cbn [fst snd] in *.
    pose proof Hc as (Hs & Hb & Hn). rewrite length_app in Hn. cbn in Hn.
    pose proof (ta_count _ _ _ IH) as Hcnt.
    assert (uv (U64 (uv (wr_count w) + 1)) = Z.of_nat (S (length times))) as Hu.
    { rewrite Hcnt. rewrite uv_of_small; [lia | change (Z.of_N 64) with 64; lia]. }
    apply Forall_app in Hb as [_ Hb]. rewrite Forall_singleton in Hb. cbn beta in Hb.
    assert (uv (U64 (uv t + WARN_INTERVAL_US)) = uv t + WARN_INTERVAL_US) as Hd.
    { apply uv_of_small. pose proof (uint_range t). change (Z.of_N 64) with 64 in *. unfold WARN_INTERVAL_US in *. lia. }
    unfold tick. rewrite Hu. destruct times as [| x xs] eqn:Et.
    + rewrite bool_decide_eq_true_2 by done. cbn [orb fst snd].
      by apply tallied_report with (w := w).
    + rewrite bool_decide_eq_false_2 by (cbn; lia). cbn [orb]. rewrite <- Et in *.
      destruct (Z.leb_spec (uv (wr_next_us w)) (uv t)); cbn [fst snd].
      * by apply tallied_report with (w := w).
      * apply tallied_quiet with (w := w); try done. by subst.
Qed.

(** ** Property *)

(** A recurring condition is neither hidden nor allowed to flood the log.
    While the clock does not run backwards, the first occurrence is reported;
    every report carries the number of occurrences so far, so silent ones are
    not lost; no two reports are less than an interval apart; and a condition
    that keeps occurring is reported again: an occurrence an interval or more
    after a report is itself reported or follows one that was. *)
Theorem warnings_recur times :
  clock_ok times ->
  let rs := (ticks times WarnRate_new).2 in
  (times <> [] -> reported rs 0) /\
  (forall i n, rs !! i = Some (Some n) -> uv n = Z.of_nat (S i)) /\
  (forall i j a b, (i < j)%nat -> reported rs i -> reported rs j ->
     times !! i = Some a -> times !! j = Some b -> uv a + WARN_INTERVAL_US <= uv b) /\
  (forall i j a b, (i < j)%nat -> reported rs i -> times !! i = Some a -> times !! j = Some b ->
     uv a + WARN_INTERVAL_US <= uv b -> exists k, (i < k <= j)%nat /\ reported rs k).
Proof. intros Hc. destruct (ticks_tallied times Hc). by split_and!. Qed.

Lemma warnings_recur_witness :
  let times := U64 <$> [5; 6; 10000004; 10000005; 10000006] in
  let rs := (ticks times WarnRate_new).2 in
  rs = [Some (U64 1); None; None; Some (U64 4); None] /\
  exists k, (0 < k <= 4)%nat /\ reported rs k.
Proof.
  intros times rs. split; [vm_compute; reflexivity |].
  assert (clock_ok times) as Hc.
  { split_and!.
    - intros i j a b Hij. unfold times.
      do 5 (destruct j as [| j]; [do 5 (destruct i as [| i]; [try (exfalso; lia); intros E1 E2; apply Some_inj in E1 as <-; apply Some_inj in E2 as <-; vm_compute; discriminate |]); lia |]). done.
    - unfold times. repeat constructor.
    - reflexivity. }
  destruct (warnings_recur times Hc) as (_ & _ & _ & H).
  apply (H 0%nat 4%nat (U64 5) (U64 10000006)); [lia | exists (U64 1); vm_compute; reflexivity | reflexivity | reflexivity | vm_compute; done].
Defined.
