(* ===== verification/Traffic.v ===== *)
(** * Synthetic frames (crates/up4-tools/src/frame.rs)

    The load generator's frame template and its per-flow rewriting, and that
    what it makes is what the switch's parsers read. *)

From S2P Require Import Prelude Bytes Value Headers.

Local Open Scope Z_scope.

Definition UDP_HDR_LEN : nat := 8.
Definition MIN_TEMPLATE_LEN : nat := ETH_HDR_LEN + IPV4_MIN_HDR_LEN + UDP_HDR_LEN.

Record FrameSpec := {
  fs_src_mac : MacAddr;
  fs_dst_mac : MacAddr;
  fs_src_ip : Ipv4Addr;
  fs_dst_ip : Ipv4Addr;
  fs_src_port : u16;
  fs_dst_port : u16;
  fs_len : nat;
}.

(** [FrameSpec::default] *)
Definition FrameSpec_default : FrameSpec := {|
  fs_src_mac := Mac (U8 2) (U8 0) (U8 0) (U8 0) (U8 0) (U8 1);
  fs_dst_mac := Mac (U8 2) (U8 0) (U8 0) (U8 0) (U8 0) (U8 2);
  fs_src_ip := Ipv4 (U8 10) (U8 0) (U8 1) (U8 1);
  fs_dst_ip := Ipv4 (U8 10) (U8 0) (U8 2) (U8 1);
  fs_src_port := U16 4000; fs_dst_port := U16 4001; fs_len := 1460;
|}.

Definition with_len (n : nat) (s : FrameSpec) : FrameSpec := {|
  fs_src_mac := fs_src_mac s; fs_dst_mac := fs_dst_mac s; fs_src_ip := fs_src_ip s; fs_dst_ip := fs_dst_ip s;
  fs_src_port := fs_src_port s; fs_dst_port := fs_dst_port s; fs_len := n |}.

Record FrameTemplate := { ft_bytes : bytes; ft_spec : FrameSpec }.

(** The writes of [FrameTemplate::new], in order. *)
Definition template_headers (spec : FrameSpec) (b : bytes) : bytes :=
  let ip := ETH_HDR_LEN in
  let ip_total := (length b - ETH_HDR_LEN)%nat in
  let udp := (ip + IPV4_MIN_HDR_LEN)%nat in
  let b := copy_at 0 (octets (fs_dst_mac spec)) b in
  let b := copy_at 6 (octets (fs_src_mac spec)) b in
  let b := copy_at 12 (u16_be ETHERTYPE_IPV4) b in
  let b := <[ip := U8 69]> b in
  let b := copy_at (ip + 2) (u16_be (U16 (Z.of_nat ip_total))) b in
  let b := <[(ip + 8)%nat := U8 64]> b in
  let b := <[(ip + 9)%nat := IP_PROTO_UDP]> b in
  let b := copy_at (ip + 12) (ip_octets (fs_src_ip spec)) b in
  let b := copy_at (ip + 16) (ip_octets (fs_dst_ip spec)) b in
  let b := copy_at udp (u16_be (fs_src_port spec)) b in
  let b := copy_at (udp + 2) (u16_be (fs_dst_port spec)) b in
  copy_at (udp + 4) (u16_be (U16 (Z.of_nat (ip_total - IPV4_MIN_HDR_LEN)))) b.

(** The recognizable payload behind the headers. *)
Definition template_payload (b : bytes) : bytes :=
  take MIN_TEMPLATE_LEN b ++ imap (fun i _ => U8 (Z.of_nat (i mod 251))) (drop MIN_TEMPLATE_LEN b).

(** [FrameTemplate::new] *)
Definition FrameTemplate_new (spec : FrameSpec) : FrameTemplate :=
  let len := ((fs_len spec `max` MIN_TEMPLATE_LEN) `max` MIN_FRAME_LEN)%nat in
  {| ft_bytes := template_payload (template_headers spec (replicate len (U8 0))); ft_spec := with_len len spec |}.

Definition ft_len (t : FrameTemplate) : nat := length (ft_bytes t).

(** [u8::wrapping_add] and [u16::wrapping_add]. *)
Definition add8 (x y : byte) : byte := U8 (uv x + uv y).
Definition add16 (x y : u16) : u16 := U16 (uv x + uv y).

(** [FrameTemplate::for_flow]; the frame handed out is the template's bytes. *)
Definition for_flow (flow flows : u32) (t : FrameTemplate) : FrameTemplate :=
  if 1 <? uv flows then
    let ip := ETH_HDR_LEN in
    let udp := (ip + IPV4_MIN_HDR_LEN)%nat in
    let '(Ipv4 o0 o1 o2 o3) := fs_src_ip (ft_spec t) in
    let varied := Ipv4 o0 o1 (add8 o2 (U8 (Z.shiftr (uv flow) 8))) (add8 o3 (U8 (uv flow))) in
    let b := copy_at (ip + 12) (ip_octets varied) (ft_bytes t) in
    {| ft_bytes := copy_at udp (u16_be (add16 (fs_src_port (ft_spec t)) (U16 (uv flow)))) b; ft_spec := ft_spec t |}
  else t.

(** ** What the frames are *)

(** The headers of a frame of [len] bytes from this source address and port. *)
Definition headers_of (spec : FrameSpec) (src : Ipv4Addr) (port : u16) (len : nat) : bytes :=
  octets (fs_dst_mac spec) ++ octets (fs_src_mac spec) ++ u16_be ETHERTYPE_IPV4 ++
  [U8 69; U8 0] ++ u16_be (U16 (Z.of_nat (len - 14))) ++ [U8 0; U8 0; U8 0; U8 0; U8 64; IP_PROTO_UDP; U8 0; U8 0] ++
  ip_octets src ++ ip_octets (fs_dst_ip spec) ++
  u16_be port ++ u16_be (fs_dst_port spec) ++ u16_be (U16 (Z.of_nat (len - 14 - 20))) ++ [U8 0; U8 0].

Definition payload_of (n : nat) : bytes := (fun i => U8 (Z.of_nat (i mod 251))) <$> seq 0 n.

Definition frame_of_flow (spec : FrameSpec) (src : Ipv4Addr) (port : u16) (len : nat) : bytes :=
  headers_of spec src port len ++ payload_of (len - 42).

Lemma length_headers_of spec src port len : length (headers_of spec src port len) = 42%nat.
Proof.
  unfold headers_of, u16_be. rewrite !length_app, !length_be_bytes.
  by destruct (fs_dst_mac spec), (fs_src_mac spec), src, (fs_dst_ip spec).
Qed.

Lemma length_payload_of n : length (payload_of n) = n.
Proof. unfold payload_of. by rewrite length_fmap, length_seq. Qed.

Lemma length_frame_of_flow spec src port len : (42 <= len)%nat -> length (frame_of_flow spec src port len) = len.
Proof. intros H. unfold frame_of_flow. rewrite length_app, length_headers_of, length_payload_of. lia. Qed.

Lemma two_bytes (x : u16) : exists a b, u16_be x = [a; b].
Proof.
  unfold u16_be. pose proof (length_be_bytes 2 (uv x)) as H.
  destruct (be_bytes 2 (uv x)) as [| a [| b [|]]]; try discriminate H. by exists a, b.
Qed.

Lemma template_headers_spec spec n :
  template_headers spec (replicate (42 + n) (U8 0)) =
    headers_of spec (fs_src_ip spec) (fs_src_port spec) (42 + n) ++ replicate n (U8 0).
Proof.
  unfold template_headers, headers_of. rewrite length_replicate, replicate_add.
  unfold ETH_HDR_LEN, IPV4_MIN_HDR_LEN.
  destruct (two_bytes ETHERTYPE_IPV4) as (e0 & e1 & ->).
  destruct (two_bytes (U16 (Z.of_nat (42 + n - 14)))) as (t0 & t1 & ->).
  destruct (two_bytes (fs_src_port spec)) as (s0 & s1 & ->). destruct (two_bytes (fs_dst_port spec)) as (d0 & d1 & ->).
  destruct (two_bytes (U16 (Z.of_nat (42 + n - 14 - 20)))) as (u0 & u1 & ->).
  destruct (fs_dst_mac spec), (fs_src_mac spec), (fs_src_ip spec), (fs_dst_ip spec).
  generalize (replicate n (U8 0)). intros q. reflexivity.
Qed.

Lemma template_payload_spec spec src port n :
  template_payload (headers_of spec src port (42 + n) ++ replicate n (U8 0)) = frame_of_flow spec src port (42 + n).
Proof.
  unfold template_payload, frame_of_flow. change MIN_TEMPLATE_LEN with 42%nat.
  rewrite take_app_length', drop_app_length' by (by rewrite length_headers_of). f_equal.
  replace (42 + n - 42)%nat with n by lia. apply list_eq. intros i. rewrite list_lookup_imap. unfold payload_of.
  rewrite list_lookup_fmap. destruct (decide (i < n)%nat) as [Hi | Hi].
  - rewrite lookup_replicate_2, (proj2 (lookup_seq 0 n i i)) by lia. done.
  - rewrite lookup_ge_None_2 by (rewrite length_replicate; lia).
    by rewrite (lookup_ge_None_2 (seq 0 n)) by (rewrite length_seq; lia).
Qed.

(** A template's bytes: the headers from some source address and port. *)
Definition templated (t : FrameTemplate) (src : Ipv4Addr) (port : u16) : Prop :=
  ft_bytes t = frame_of_flow (ft_spec t) src port (fs_len (ft_spec t)) /\ (60 <= fs_len (ft_spec t))%nat.

Lemma new_templated spec :
  let t := FrameTemplate_new spec in
  templated t (fs_src_ip spec) (fs_src_port spec) /\ fs_len (ft_spec t) = (fs_len spec `max` 60)%nat.
Proof.
  cbn zeta. unfold templated, FrameTemplate_new. cbn [ft_bytes ft_spec with_len fs_len].
  change MIN_TEMPLATE_LEN with 42%nat. change MIN_FRAME_LEN with 60%nat.
  set (len := ((fs_len spec `max` 42) `max` 60)%nat). assert (60 <= len)%nat by lia.
  replace len with (42 + (len - 42))%nat by lia. rewrite template_headers_spec, template_payload_spec.
  split; [split; [done | lia] | lia].
Qed.

Lemma template_new_len spec : ft_len (FrameTemplate_new spec) = (fs_len spec `max` 60)%nat.
Proof.
  destruct (new_templated spec) as [[Hb Hl] Hs]. unfold ft_len. rewrite Hb, length_frame_of_flow by lia. exact Hs.
Qed.

(** The source address and port of a flow. *)
Definition flow_src (flow : u32) (src : Ipv4Addr) : Ipv4Addr :=
  let '(Ipv4 o0 o1 o2 o3) := src in
  Ipv4 o0 o1 (add8 o2 (U8 (Z.shiftr (uv flow) 8))) (add8 o3 (U8 (uv flow))).
Definition flow_port (flow : u32) (port : u16) : u16 := add16 port (U16 (uv flow)).

Lemma for_flow_spec_same flow flows t : ft_spec (for_flow flow flows t) = ft_spec t.
Proof. unfold for_flow. destruct (1 <? uv flows); [| done]. by destruct (fs_src_ip (ft_spec t)). Qed.

Lemma for_flow_templated flow flows t src port :
  templated t src port ->
  if 1 <? uv flows
  then templated (for_flow flow flows t) (flow_src flow (fs_src_ip (ft_spec t))) (flow_port flow (fs_src_port (ft_spec t)))
  else for_flow flow flows t = t.
Proof.
  intros [Hb Hl]. unfold for_flow. destruct (1 <? uv flows); [| done]. destruct t as [b spec]. cbn [ft_bytes ft_spec] in *.
  unfold templated, flow_src, flow_port. destruct (fs_src_ip spec) as [o0 o1 o2 o3]. cbn [ft_bytes ft_spec].
  split; [| done]. rewrite Hb. unfold frame_of_flow, ETH_HDR_LEN, IPV4_MIN_HDR_LEN.
  set (p := payload_of (fs_len spec - 42)). set (n := fs_len spec) in *. clearbody p.
  unfold headers_of.
  destruct (two_bytes ETHERTYPE_IPV4) as (e0 & e1 & ->). destruct (two_bytes (U16 (Z.of_nat (n - 14)))) as (t0 & t1 & ->).
  destruct (two_bytes port) as (s0 & s1 & ->). destruct (two_bytes (fs_dst_port spec)) as (d0 & d1 & ->).
  destruct (two_bytes (U16 (Z.of_nat (n - 14 - 20)))) as (u0 & u1 & ->).
  destruct (two_bytes (add16 (fs_src_port spec) (U16 (uv flow)))) as (v0 & v1 & ->).
  by destruct (fs_dst_mac spec), (fs_src_mac spec), src, (fs_dst_ip spec).
Qed.

(** The checksum bytes are zero. *)
Lemma zero_bytes spec src port len i :
  (i = 24 \/ i = 25 \/ i = 40 \/ i = 41)%nat -> (60 <= len)%nat ->
  frame_of_flow spec src port len !! i = Some (U8 0).
Proof.
  intros Hi Hlen. unfold frame_of_flow, headers_of. set (p := payload_of _). clearbody p.
  destruct (two_bytes ETHERTYPE_IPV4) as (e0 & e1 & ->). destruct (two_bytes (U16 (Z.of_nat (len - 14)))) as (t0 & t1 & ->).
  destruct (two_bytes port) as (s0 & s1 & ->). destruct (two_bytes (fs_dst_port spec)) as (d0 & d1 & ->).
  destruct (two_bytes (U16 (Z.of_nat (len - 14 - 20)))) as (u0 & u1 & ->).
  destruct (fs_dst_mac spec), (fs_src_mac spec), src, (fs_dst_ip spec).
  by destruct Hi as [-> | [-> | [-> | ->]]].
Qed.

(** What the parsers read of such a frame. *)
Lemma frame_of_flow_parses spec src port len :
  (60 <= len)%nat ->
  let f := frame_of_flow spec src port len in
  eth_parse f = Some {| eth_dst := fs_dst_mac spec; eth_src := fs_src_mac spec; ethertype := ETHERTYPE_IPV4 |} /\
  ip_parse f ETH_HDR_LEN = Some {| ip_offset := 14; ip_hdr_len := 20; ip_total_len := U16 (Z.of_nat (len - 14));
    ip_ttl := U8 64; ip_protocol := IP_PROTO_UDP; ip_src := src; ip_dst := fs_dst_ip spec |} /\
  zero_inner_checksums f = f.
Proof.
  intros Hlen f. assert (length f = len) as Hf by (unfold f; rewrite length_frame_of_flow; lia).
  assert (eth_parse f = Some {| eth_dst := fs_dst_mac spec; eth_src := fs_src_mac spec; ethertype := ETHERTYPE_IPV4 |}) as He.
  { rewrite eth_parse_unfold, Hf. unfold ETH_HDR_LEN. rewrite decide_True by lia.
    unfold f, frame_of_flow, headers_of. set (p := payload_of _). clearbody p.
    pose proof (be_u16_u16_be ETHERTYPE_IPV4) as Ht. destruct (two_bytes ETHERTYPE_IPV4) as (e0 & e1 & E). rewrite E in Ht |- *.
    destruct (fs_dst_mac spec), (fs_src_mac spec). cbn. by rewrite Ht. }
  assert (ip_parse f ETH_HDR_LEN = Some {| ip_offset := 14; ip_hdr_len := 20; ip_total_len := U16 (Z.of_nat (len - 14));
    ip_ttl := U8 64; ip_protocol := IP_PROTO_UDP; ip_src := src; ip_dst := fs_dst_ip spec |}) as Hi.
  { assert (byte_at f 14 = U8 69) as H14.
    { unfold f, frame_of_flow, headers_of. destruct (two_bytes ETHERTYPE_IPV4) as (e0 & e1 & ->).
      by destruct (fs_dst_mac spec), (fs_src_mac spec). }
    assert (ip_len_at f 14 = 20%nat) as Hh by (unfold ip_len_at, ip_first; by rewrite H14).
    assert (ip_coherent f 14) as Hc.
    { unfold ip_coherent. rewrite Hh, Hf. unfold ip_first, IPV4_MIN_HDR_LEN. rewrite H14. split_and!; [lia | done | lia | lia]. }
    rewrite ip_parse_unfold. change ETH_HDR_LEN with 14%nat. rewrite decide_True by done. rewrite Hh. f_equal.
    unfold f, frame_of_flow, headers_of. set (p := payload_of _). clearbody p.
    destruct (two_bytes ETHERTYPE_IPV4) as (e0 & e1 & ->).
    pose proof (be_u16_u16_be (U16 (Z.of_nat (len - 14)))) as Ht.
    destruct (two_bytes (U16 (Z.of_nat (len - 14)))) as (t0 & t1 & E). rewrite E in Ht |- *.
    destruct (fs_dst_mac spec), (fs_src_mac spec), src, (fs_dst_ip spec). cbn. by rewrite Ht. }
  split_and!; [done | done |].
  apply list_eq. intros i. rewrite lookup_zero_inner. destruct (inner_checksum f i) eqn:Ei; [| done].
  unfold inner_checksum in Ei. rewrite He, Hi in Ei. cbn [ethertype ip_protocol payload_offset ip_offset ip_hdr_len] in Ei.
  apply andb_true_iff in Ei as [_ [H%bool_decide_eq_true | H]%orb_true_iff].
  - symmetry. apply zero_bytes; lia.
  - rewrite decide_False, decide_True in H by done. apply bool_decide_eq_true in H. symmetry. apply zero_bytes; [| lia].
    change (payload_offset _) with 34%nat in H. lia.
Qed.

(** The port is read back from the frame. *)
Lemma frame_port spec src port len : slice 34 36 (frame_of_flow spec src port len) = u16_be port.
Proof.
  unfold frame_of_flow, headers_of. set (p := payload_of _). clearbody p.
  destruct (two_bytes ETHERTYPE_IPV4) as (e0 & e1 & ->). destruct (two_bytes (U16 (Z.of_nat (len - 14)))) as (t0 & t1 & ->).
  destruct (two_bytes port) as (s0 & s1 & ->). destruct (two_bytes (fs_dst_port spec)) as (d0 & d1 & ->).
  destruct (two_bytes (U16 (Z.of_nat (len - 14 - 20)))) as (u0 & u1 & ->).
  by destruct (fs_dst_mac spec), (fs_src_mac spec), src, (fs_dst_ip spec).
Qed.

Lemma flow_port_inj f1 f2 port : flow_port f1 port = flow_port f2 port -> uv f1 mod 65536 = uv f2 mod 65536.
Proof.
  unfold flow_port, add16. intros H%(f_equal uv). rewrite !uv_of in H. change (2 ^ Z.of_N 16) with 65536 in H.
  rewrite !Zplus_mod_idemp_r in H. Z.div_mod_to_equations. lia.
Qed.

Lemma flows_templated spec flows fls :
  let t := foldl (fun t fl => for_flow fl flows t) (FrameTemplate_new spec) fls in
  ft_spec t = ft_spec (FrameTemplate_new spec) /\
  exists src port, templated t src port /\
    (uv flows <= 1 -> src = fs_src_ip spec /\ port = fs_src_port spec).
Proof.
  cbn zeta. induction fls as [| fl fls IH] using rev_ind.
  - split; [done |]. exists (fs_src_ip spec), (fs_src_port spec). split; [apply new_templated | done].
  - rewrite foldl_app. cbn [foldl]. destruct IH as (Hs & src & port & Ht & Hone). rewrite for_flow_spec_same.
    split; [done |]. pose proof (for_flow_templated fl flows _ src port Ht) as H.
    destruct (Z.ltb_spec 1 (uv flows)).
    + eexists _, _. split; [exact H | lia].
    + rewrite H. by exists src, port.
Qed.

(** The frame made for a flow, whatever flows came before. *)
Definition flow_frame (spec : FrameSpec) (flows flow : u32) : bytes :=
  frame_of_flow spec (if 1 <? uv flows then flow_src flow (fs_src_ip spec) else fs_src_ip spec)
    (if 1 <? uv flows then flow_port flow (fs_src_port spec) else fs_src_port spec) (fs_len spec `max` 60).

Lemma flow_frame_spec spec fls flows flow :
  ft_bytes (for_flow flow flows (foldl (fun t fl => for_flow fl flows t) (FrameTemplate_new spec) fls)) =
    flow_frame spec flows flow.
Proof.
  destruct (flows_templated spec flows fls) as (Hs & src & port & Ht & Hone). destruct (new_templated spec) as [_ Hlen].
  set (t := foldl _ _ fls) in *. pose proof (for_flow_templated flow flows t src port Ht) as H1. unfold flow_frame.
  assert (forall s p n, frame_of_flow (ft_spec (FrameTemplate_new spec)) s p n = frame_of_flow spec s p n) as Hw by done.
  destruct (Z.ltb_spec 1 (uv flows)).
  - destruct H1 as [H1 _]. rewrite !for_flow_spec_same, Hs in H1. by rewrite Hw, Hlen in H1.
  - rewrite H1. destruct Ht as [Hb _]. rewrite Hs, Hw, Hlen in Hb. by destruct Hone as [-> ->].
Qed.

Lemma length_flow_frame spec flows flow : length (flow_frame spec flows flow) = (fs_len spec `max` 60)%nat.
Proof. apply length_frame_of_flow. lia. Qed.

(** The switch's own parsers read it. *)
Lemma flow_frame_parses spec flows flow :
  let f := flow_frame spec flows flow in
  eth_parse f = Some {| eth_dst := fs_dst_mac spec; eth_src := fs_src_mac spec; ethertype := ETHERTYPE_IPV4 |} /\
  ip_parse f ETH_HDR_LEN = Some {| ip_offset := 14; ip_hdr_len := 20;
    ip_total_len := U16 (Z.of_nat (length f - 14)); ip_ttl := U8 64; ip_protocol := IP_PROTO_UDP;
    ip_src := if 1 <? uv flows then flow_src flow (fs_src_ip spec) else fs_src_ip spec; ip_dst := fs_dst_ip spec |} /\
  zero_inner_checksums f = f.
Proof.
  intros f. unfold f. rewrite length_flow_frame. apply frame_of_flow_parses. lia.
Qed.

(** ** Property *)

(** Whatever flows came before, the frame made for a flow has the length
    asked for, raised to Ethernet's minimum, and is one the switch's own parsers
    accept: the addresses of the specification with the flow's source, IPv4 over
    UDP with the total length and time to live as written, and inner checksums
    already zero, so nothing the switch does to checksums changes it.  It does
    not depend on the flows before it, and two flows with different low halves
    have different frames. *)
Theorem generated_frames spec fls flow flows :
  let t := foldl (fun t fl => for_flow fl flows t) (FrameTemplate_new spec) fls in
  let f := ft_bytes (for_flow flow flows t) in
  let src := if 1 <? uv flows then flow_src flow (fs_src_ip spec) else fs_src_ip spec in
  length f = (fs_len spec `max` 60)%nat /\
  eth_parse f = Some {| eth_dst := fs_dst_mac spec; eth_src := fs_src_mac spec; ethertype := ETHERTYPE_IPV4 |} /\
  ip_parse f ETH_HDR_LEN = Some {| ip_offset := 14; ip_hdr_len := 20;
    ip_total_len := U16 (Z.of_nat (length f - 14)); ip_ttl := U8 64; ip_protocol := IP_PROTO_UDP;
    ip_src := src; ip_dst := fs_dst_ip spec |} /\
  zero_inner_checksums f = f /\
  f = ft_bytes (for_flow flow flows (FrameTemplate_new spec)) /\
  forall flow', 1 < uv flows -> uv flow mod 65536 <> uv flow' mod 65536 -> ft_bytes (for_flow flow' flows t) <> f.
Proof.
  cbn zeta. pose proof (flow_frame_spec spec [] flows flow) as H0. cbn [foldl] in H0.
  rewrite (flow_frame_spec spec fls), H0, length_flow_frame.
  destruct (flow_frame_parses spec flows flow) as (P1 & P2 & P3). rewrite length_flow_frame in P2.
  split_and!; try done.
  intros flow' Hfl Hne. rewrite flow_frame_spec. intros E. unfold flow_frame in E.
  rewrite (proj2 (Z.ltb_lt _ _) Hfl) in E.
  apply (f_equal (slice 34 36)) in E. rewrite !frame_port in E. apply (f_equal be_u16) in E. rewrite !be_u16_u16_be in E.
  apply Hne. symmetry. by apply flow_port_inj in E.
Qed.
