(* ===== verification/Pktgen.v ===== *)
(** * The load generator (crates/up4-tools/src/pktgen.rs)

    The sending loop, the receiving loop, the integer part of the report, and the
    run that composes them.
    Clock readings and what the socket delivers are arguments; rates, which are
    floating point, are left out. *)

From S2P Require Import Prelude Bytes Value Headers Wire Warn Tx Socket Shard Traffic.

Local Open Scope Z_scope.

Record PktgenConfig (A : Type) := {
  pg_bind : A; pg_target : A; pg_frame : FrameSpec; pg_rate_pps : u64; pg_flows : u32;
  pg_duration_us : Z; pg_vport : u16; pg_batch : nat; pg_same_host : bool;
}.
Arguments pg_bind {A} _.
Arguments pg_target {A} _.
Arguments pg_frame {A} _.
Arguments pg_rate_pps {A} _.
Arguments pg_flows {A} _.
Arguments pg_duration_us {A} _.
Arguments pg_vport {A} _.
Arguments pg_batch {A} _.
Arguments pg_same_host {A} _.

(** [PktgenConfig::default], from its two addresses. *)
Definition PktgenConfig_default {A} (any_port node : A) : PktgenConfig A := {|
  pg_bind := any_port; pg_target := node; pg_frame := FrameSpec_default; pg_rate_pps := U64 0; pg_flows := U32 1;
  pg_duration_us := 1000000; pg_vport := U16 0; pg_batch := TX_BATCH; pg_same_host := true;
|}.

(** How long the receiver outlives the sender, in milliseconds. *)
Definition DRAIN_GRACE : Z := 500.

(** ** Sending *)

(** [Ord::clamp] *)
Definition clamp (lo hi x : nat) : nat := (lo `max` (x `min` hi))%nat.

(** The batch [run] settles on. *)
Definition batch_size (batch segment : nat) : nat :=
  clamp 1 ((TX_BATCH `min` (Z.to_nat GSO_MAX_BYTES / segment)) `max` 1) batch.

(** The sender's state across batches. *)
Record TxState := { g_sent : u64; g_flow : u32; g_template : FrameTemplate }.

Section sender.
Context {A : Type} (config : PktgenConfig A).

(** One frame of a batch. *)
Definition stage_one (st : TxState * bytes) (now : u32) : TxState * bytes :=
  let '(st, buf) := st in
  let hdr := encode {| hdr_ingress_vport := pg_vport config; hdr_seq := Seq_new (U32 (uv (g_sent st))); hdr_ts_us := now |} in
  let t := for_flow (g_flow st) (pg_flows config) (g_template st) in
  ({| g_sent := U64 (uv (g_sent st) + 1);
      g_flow := U32 (uv (U32 (uv (g_flow st) + 1)) mod Z.max (uv (pg_flows config)) 1);
      g_template := t |},
   buf ++ hdr ++ ft_bytes t).

(** One turn of the sending loop: [clock] is read once per frame. *)
Definition send_batch (batch segment : nat) (clock : list u32) (st : TxState) : TxState * Transmit A :=
  let '(st, buf) := foldl stage_one (st, []) (take batch clock) in
  (st, {| destination := pg_target config; contents := buf;
          segment_size := if (1 <? batch)%nat then Some segment else None |}).

(** The sending loop, as many turns as the deadline left it, over a socket. *)
Fixpoint send_loop `{Udp A K} (batch segment : nat) (turns : list (list u32)) (st : TxState) (s : K)
    : K * result TxState IoError :=
  match turns with
  | [] => (s, Ok st)
  | clock :: turns =>
      let '(st, t) := send_batch batch segment clock st in
      match fabric_send t s with
      | (s, Err e) => (s, Err e)
      | (s, Ok _) => send_loop batch segment turns st s
      end
  end.

Definition tx_start : TxState :=
  {| g_sent := U64 0; g_flow := U32 0; g_template := FrameTemplate_new (pg_frame config) |}.

(** [pace]: how long to sleep, in nanoseconds since the start. *)
Definition pace (rate_pps : u64) (now : Z) (sent : u64) : option Z :=
  if uv rate_pps =? 0 then None
  else
    let due := Z.min (uv sent * 1000000000) (2 ^ 64 - 1) / uv rate_pps in
    if now <? due then Some (due - now) else None.
End sender.

(** ** Receiving *)

Record RxStats := { rs_frames : u64; rs_bytes : u64; rs_gaps : u64; rs_reorder : u64; rs_bad_header : u64; rs_length_mismatch : u64 }.

Definition RxStats_new : RxStats :=
  {| rs_frames := U64 0; rs_bytes := U64 0; rs_gaps := U64 0; rs_reorder := U64 0; rs_bad_header := U64 0; rs_length_mismatch := U64 0 |}.

Definition plus (x : u64) (n : Z) : u64 := U64 (uv x + n).

Record Receiver := { rx_stats : RxStats; rx_trackers : list (u16 * SeqTracker); rx_local : list Z }.

Definition Receiver_new : Receiver := {| rx_stats := RxStats_new; rx_trackers := []; rx_local := [] |}.

(** The tracker of a vport, appended when it is new. *)
Fixpoint track (v : u16) (s : Seq) (ts : list (u16 * SeqTracker)) : list (u16 * SeqTracker) * SeqEvent :=
  match ts with
  | [] => let '(e, t) := observe SeqTracker_new s in ([(v, t)], e)
  | (w, t) :: ts =>
      if bool_decide (w = v) then let '(e, t) := observe t s in ((w, t) :: ts, e)
      else let '(ts, e) := track v s ts in ((w, t) :: ts, e)
  end.

(** One segment. *)
Definition receive_one (expect_len : nat) (r : Receiver) (x : bytes * u32) : Receiver :=
  let '(seg, now) := x in
  let st := rx_stats r in
  match decode seg with
  | Err _ =>
      {| rx_stats := {| rs_frames := rs_frames st; rs_bytes := rs_bytes st; rs_gaps := rs_gaps st; rs_reorder := rs_reorder st;
                        rs_bad_header := plus (rs_bad_header st) 1; rs_length_mismatch := rs_length_mismatch st |};
         rx_trackers := rx_trackers r; rx_local := rx_local r |}
  | Ok hdr =>
      let len := (length seg - OVERLAY_HDR_LEN)%nat in
      let '(ts, e) := track (hdr_ingress_vport hdr) (hdr_seq hdr) (rx_trackers r) in
      {| rx_stats := {| rs_frames := plus (rs_frames st) 1;
                        rs_bytes := plus (rs_bytes st) (Z.of_nat len);
                        rs_gaps := match e with Gap missing => plus (rs_gaps st) missing | _ => rs_gaps st end;
                        rs_reorder := match e with Reorder => plus (rs_reorder st) 1 | _ => rs_reorder st end;
                        rs_bad_header := rs_bad_header st;
                        rs_length_mismatch := if (len =? expect_len)%nat then rs_length_mismatch st
                                              else plus (rs_length_mismatch st) 1 |};
         rx_trackers := ts; rx_local := rx_local r ++ [delta_us now (hdr_ts_us hdr)] |}
  end.

(** One read: the segments of a buffer, each with the clock reading it gets.
    [None] is a panic: a datagram of no bytes has a stride of 0, and
    [0.div_ceil(0)] divides by zero. *)
Definition receive_read {A} (expect_len : nat) (data : bytes) (meta : RecvMeta A) (clock : nat -> u32) (r : Receiver)
    : option Receiver :=
  let stride := if (rm_stride meta =? 0)%nat then rm_len meta else rm_stride meta in
  if (stride =? 0)%nat then None
  else
    Some (foldl (receive_one expect_len) r
            ((fun k => (slice (k * stride) (rm_len meta `min` (k * stride + stride)) data, clock k))
               <$> seq 0 (div_ceil (rm_len meta) stride))).

(** [receive_loop] over the reads there were; the samples are flushed to the
    shared vector 4096 at a time and at the end. *)
Fixpoint receive_loop {A} (expect_len : nat) (reads : list (bytes * RecvMeta A * (nat -> u32))) (samples : list Z) (r : Receiver)
    : option (RxStats * list Z) :=
  match reads with
  | [] => Some (rx_stats r, samples ++ rx_local r)
  | (data, meta, clock) :: reads =>
      r ← receive_read expect_len data meta clock r;
      if (4096 <=? length (rx_local r))%nat
      then receive_loop expect_len reads (samples ++ rx_local r)
             {| rx_stats := rx_stats r; rx_trackers := rx_trackers r; rx_local := [] |}
      else receive_loop expect_len reads samples r
  end.

(** ** The report *)

(** [percentile] *)
Definition percentile (sorted : list Z) (p : nat) : Z :=
  if bool_decide (sorted = []) then 0
  else default 0 (sorted !! ((length sorted * p / 100) `min` (length sorted - 1))%nat).

Record Latency := { p50_us : Z; p99_us : Z; l_samples : nat; calibrated : bool }.

(** The integer fields of [Report]. *)
Record Report := {
  rp_sent : u64; rp_sent_bytes : u64; rp_received : u64; rp_received_bytes : u64;
  rp_seq_gap_total : u64; rp_reorder : u64; rp_bad_header : u64; rp_length_mismatch : u64;
  rp_lost : Z; rp_latency : option Latency;
}.

(** [finish]; [rp_lost] is what [loss_pct] is a percentage of. *)
Definition finish {A} (config : PktgenConfig A) (stats : RxStats) (samples : list Z) (sent : u64) (frame_len : nat) : Report :=
  let sorted := merge_sort Z.le samples in
  {| rp_sent := sent; rp_sent_bytes := U64 (uv sent * Z.of_nat frame_len);
     rp_received := rs_frames stats; rp_received_bytes := rs_bytes stats;
     rp_seq_gap_total := rs_gaps stats; rp_reorder := rs_reorder stats; rp_bad_header := rs_bad_header stats;
     rp_length_mismatch := rs_length_mismatch stats;
     rp_lost := Z.max 0 (uv sent - uv (rs_frames stats));
     rp_latency := if bool_decide (sorted = []) then None
                   else Some {| p50_us := percentile sorted 50; p99_us := percentile sorted 99;
                                l_samples := length sorted; calibrated := pg_same_host config |} |}.

(** How a run fails: its socket, a send, or the receiving thread. *)
Inductive RunError := BindError (e : string) | SendError (e : IoError) | ReceiverPanicked.

(** [run]: [bound] is the socket, [turns] the clock readings of the turns the
    deadline left, [reads] what the receiving thread saw until it was stopped. *)
Definition pktgen_run `{Udp A K} (config : PktgenConfig A) (bound : result K string) (turns : list (list u32))
    (reads : list (bytes * RecvMeta A * (nat -> u32))) : result Report RunError :=
  match bound with
  | Err e => Err (BindError e)
  | Ok s =>
      let frame_len := ft_len (FrameTemplate_new (pg_frame config)) in
      let segment := (OVERLAY_HDR_LEN + frame_len)%nat in
      let batch := batch_size (pg_batch config) segment in
      match send_loop config batch segment turns (tx_start config) s with
      | (_, Err e) => Err (SendError e)
      | (_, Ok st) =>
          match receive_loop frame_len reads [] Receiver_new with
          | None => Err ReceiverPanicked
          | Some (stats, samples) => Ok (finish config stats samples (g_sent st) frame_len)
          end
      end
  end.

(** ** Lemmas: sending *)

Section numbering.
Context {A : Type} (config : PktgenConfig A).

(** The number of flows in rotation. *)
Definition rotation : Z := Z.max (uv (pg_flows config)) 1.

(** Frame [n] of a run, under a header stamped [ts]. *)
Definition nth_segment (n : Z) (ts : u32) : bytes :=
  encode {| hdr_ingress_vport := pg_vport config; hdr_seq := seq_at n; hdr_ts_us := ts |} ++
  flow_frame (pg_frame config) (pg_flows config) (U32 (n mod rotation)).

Definition nth_segments (n : Z) (clock : list u32) : list bytes :=
  imap (fun k ts => nth_segment (n + Z.of_nat k) ts) clock.

(** The sender has made [n] frames. *)
Record made (n : Z) (st : TxState) : Prop := {
  md_sent : g_sent st = U64 n;
  md_flow : g_flow st = U32 (n mod rotation);
  md_template : exists fls,
    g_template st = foldl (fun t fl => for_flow fl (pg_flows config) t) (FrameTemplate_new (pg_frame config)) fls;
}.

Lemma made_start : made 0 (tx_start config).
Proof. split; [done | by rewrite Zmod_0_l | by exists []]. Qed.

Lemma rotation_range : 1 <= rotation < 2 ^ 32.
Proof. unfold rotation. pose proof (uint_range (pg_flows config)). change (Z.of_N 32) with 32 in *. lia. Qed.

Lemma stage_one_made n st buf now :
  made n st ->
  made (n + 1) (stage_one config (st, buf) now).1 /\ (stage_one config (st, buf) now).2 = buf ++ nth_segment n now.
Proof.
  intros [Hs Hf (fls & Ht)]. pose proof rotation_range as HR. cbn [stage_one fst snd]. split.
  - split; cbn [g_sent g_flow g_template].
    + rewrite Hs. apply uint_eq. rewrite !uv_of. apply Zplus_mod_idemp_l.
    + rewrite Hf. fold rotation. pose proof (Z.mod_pos_bound n rotation ltac:(lia)).
      rewrite (uv_of_small 32 (n mod rotation)) by (change (Z.of_N 32) with 32; lia).
      destruct (decide (n mod rotation + 1 = 2 ^ 32)) as [E | E].
      * exfalso. lia.
      * rewrite (uv_of_small 32 (n mod rotation + 1)) by (change (Z.of_N 32) with 32; lia).
        f_equal. apply Zplus_mod_idemp_l.
    + exists (fls ++ [g_flow st]). rewrite foldl_app. cbn [foldl]. by rewrite Ht.
  - unfold nth_segment. rewrite Ht, flow_frame_spec, Hf. repeat f_equal. rewrite Hs.
    unfold seq_at. f_equal. apply uint_eq. rewrite !uv_of. change (2 ^ Z.of_N 64) with (2 ^ Z.of_N 32 * 2 ^ 32).
    rewrite Z.rem_mul_r by (cbn; lia). rewrite Z.mul_comm, Z.mod_add by (cbn; lia). by rewrite Zmod_mod.
Qed.

Lemma stage_all_made clock : forall n st buf,
  made n st ->
  made (n + Z.of_nat (length clock)) (foldl (stage_one config) (st, buf) clock).1 /\
  (foldl (stage_one config) (st, buf) clock).2 = buf ++ concat (nth_segments n clock).
Proof.
  induction clock as [| ts clock IH]; intros n st buf Hm; cbn [foldl length].
  { split; [by rewrite Z.add_0_r | by rewrite app_nil_r]. }
  destruct (stage_one_made n st buf ts Hm) as [H1 H2]. destruct (stage_one config (st, buf) ts) as [st1 buf1]. cbn [fst snd] in *.
  destruct (IH (n + 1) st1 buf1 H1) as [H3 H4]. split; [by replace (n + Z.of_nat (S (length clock))) with (n + 1 + Z.of_nat (length clock)) by lia |].
  rewrite H4, H2, <- app_assoc. f_equal. unfold nth_segments. cbn [imap concat]. rewrite Z.add_0_r. do 2 f_equal.
  apply imap_ext. intros k x _. unfold compose. f_equal. lia.
Qed.

(** The length of every segment. *)
Definition segment_bytes : nat := (OVERLAY_HDR_LEN + (fs_len (pg_frame config) `max` 60))%nat.

Lemma length_nth_segment n ts : length (nth_segment n ts) = segment_bytes.
Proof. unfold nth_segment. by rewrite length_app, length_encode, length_flow_frame. Qed.

Lemma nth_segments_lengths n clock : length <$> nth_segments n clock = replicate (length clock) segment_bytes.
Proof.
  apply list_eq. intros i. unfold nth_segments. rewrite list_lookup_fmap, list_lookup_imap.
  destruct (clock !! i) as [ts |] eqn:E.
  - rewrite lookup_replicate_2 by (by eapply lookup_lt_Some). cbn [fmap option_fmap option_map]. by rewrite length_nth_segment.
  - apply lookup_ge_None in E. by rewrite lookup_ge_None_2 by (rewrite length_replicate; lia).
Qed.

Lemma batch_size_bounds batch segment :
  (1 <= batch_size batch segment <= TX_BATCH)%nat /\
  ((1 < batch_size batch segment)%nat -> Z.of_nat (batch_size batch segment * segment) <= GSO_MAX_BYTES).
Proof.
  unfold batch_size, clamp, TX_BATCH. set (m := (Z.to_nat GSO_MAX_BYTES / segment)%nat). split; [lia |].
  intros Hb. assert (((1 `max` (batch `min` ((64 `min` m) `max` 1))) <= m)%nat) as Hm by lia.
  destruct (Nat.eq_dec segment 0) as [-> | Hs]; [unfold GSO_MAX_BYTES; lia |].
  pose proof (Nat.Div0.mul_div_le (Z.to_nat GSO_MAX_BYTES) segment) as Hd. fold m in Hd.
  assert (Z.of_nat (Z.to_nat GSO_MAX_BYTES) = GSO_MAX_BYTES) as HG by done. nia.
Qed.

(** Every turn's transmit. *)
Fixpoint transmits (batch segment : nat) (turns : list (list u32)) (st : TxState) : list (Transmit A) :=
  match turns with
  | [] => []
  | clock :: turns =>
      let '(st, t) := send_batch config batch segment clock st in t :: transmits batch segment turns st
  end.

Lemma cut_segments n clock batch (t : Transmit A) :
  length clock = batch -> (1 <= batch)%nat ->
  contents t = concat (nth_segments n clock) ->
  segment_size t = (if (1 <? batch)%nat then Some segment_bytes else None) ->
  cut t = nth_segments n clock.
Proof.
  intros Hl Hb Hc Hs. unfold cut. rewrite Hs, Hc. pose proof (nth_segments_lengths n clock) as Hg. rewrite Hl in Hg.
  assert (length (nth_segments n clock) = batch) as Hn by (rewrite <- (length_fmap length), Hg; apply length_replicate).
  destruct (Nat.ltb_spec 1 batch).
  - apply gso_split_concat.
    + exists (batch - 1)%nat, segment_bytes. split; [| lia]. rewrite Hg.
      replace batch with (batch - 1 + 1)%nat at 1 by lia. by rewrite replicate_add.
    + apply Forall_lookup. intros i s Hi. assert (length <$> nth_segments n clock !! i = Some segment_bytes) as E.
      { rewrite <- list_lookup_fmap, Hg, lookup_replicate_2; [done |]. rewrite <- Hn. by eapply lookup_lt_Some. }
      rewrite Hi in E. injection E as ->. unfold segment_bytes, OVERLAY_HDR_LEN. lia.
    + assert (forall l : list bytes, length <$> l = replicate (length l) segment_bytes -> (length l <= length (concat l))%nat) as Hx.
      { induction l as [| x l IH]; [done |]. intros [= Hx Hl']. cbn [concat length]. rewrite length_app.
        specialize (IH Hl'). unfold segment_bytes, OVERLAY_HDR_LEN in Hx. lia. }
      apply Hx. by rewrite Hn.
  - destruct (nth_segments n clock) as [| x [| y l]]; cbn in Hn; try lia. cbn. by rewrite app_nil_r.
Qed.

Lemma transmits_made batch turns n st :
  made n st -> (1 <= batch)%nat -> Forall (fun clock => length clock = batch) turns ->
  (transmits batch segment_bytes turns st ≫= cut) = nth_segments n (concat turns) /\
  Forall (fun t => length (contents t) = batch * segment_bytes)%nat (transmits batch segment_bytes turns st).
Proof.
  intros Hm Hb. revert n st Hm. induction turns as [| clock turns IH]; intros n st Hm Ht; [done |].
  apply Forall_cons in Ht as [Hl Ht]. cbn [transmits]. unfold send_batch. rewrite take_ge by lia.
  destruct (stage_all_made clock n st [] Hm) as [H1 H2].
  destruct (foldl (stage_one config) (st, []) clock) as [st1 buf]. cbn [fst snd app] in *.
  set (t := {| destination := _; contents := buf; segment_size := _ |}).
  destruct (IH _ st1 H1 Ht) as [H3 H4]. split.
  - cbn [concat]. change ((t :: transmits batch segment_bytes turns st1) ≫= cut)
      with (cut t ++ (transmits batch segment_bytes turns st1 ≫= cut)).
    rewrite H3, (cut_segments n clock batch t) by done. unfold nth_segments. rewrite imap_app. f_equal.
    apply imap_ext. intros k x _. unfold compose. f_equal. lia.
  - constructor; [| done]. cbn [contents t]. rewrite H2.
    assert (forall l : list bytes, length <$> l = replicate batch segment_bytes -> length (concat l) = (batch * segment_bytes)%nat) as Hx.
    { clear. intros l. revert batch. induction l as [| x l IH]; intros [| b] H; try done. injection H as Hx Hl.
      cbn [concat]. rewrite length_app, (IH b) by done. lia. }
    apply Hx. by rewrite nth_segments_lengths, Hl.
Qed.

(** What the generator sends is what it counts.  However many turns the
    deadline leaves it, the datagrams that leave, after the kernel has cut each
    write, are the frames of the run one after the other: the [n]-th carries
    sequence number [n], the generator's vport and the frame of flow
    [n mod flows]; no write has more segments than the switch's own batch, nor
    more bytes than one segmented write carries. *)
Theorem generator_numbers_its_frames (turns : list (list u32)) :
  let batch := batch_size (pg_batch config) segment_bytes in
  Forall (fun clock => length clock = batch) turns ->
  (transmits batch segment_bytes turns (tx_start config) ≫= cut) = nth_segments 0 (concat turns) /\
  (1 <= batch <= TX_BATCH)%nat /\
  ((1 < batch)%nat ->
   Forall (fun t => Z.of_nat (length (contents t)) <= GSO_MAX_BYTES) (transmits batch segment_bytes turns (tx_start config))).
Proof.
  intros batch Ht. destruct (batch_size_bounds (pg_batch config) segment_bytes) as [Hb Hg]. fold batch in Hb, Hg.
  destruct (transmits_made batch turns 0 (tx_start config) made_start ltac:(lia) Ht) as [H1 H2].
  split_and!; [done | lia | lia |]. intros H. eapply Forall_impl; [exact H2 |]. cbn. intros t ->. by apply Hg.
Qed.
End numbering.

Definition demo : PktgenConfig string := {|
  pg_bind := "b"; pg_target := "t"; pg_frame := FrameSpec_default; pg_rate_pps := U64 0; pg_flows := U32 3;
  pg_duration_us := 1; pg_vport := U16 7; pg_batch := 2; pg_same_host := true;
|}.

Lemma generator_witness :
  (transmits demo 2 (segment_bytes demo) [[U32 5; U32 6]; [U32 7; U32 8]] (tx_start demo) ≫= cut) =
    nth_segments demo 0 [U32 5; U32 6; U32 7; U32 8].
Proof.
  assert (batch_size (pg_batch demo) (segment_bytes demo) = 2%nat) as E by (vm_compute; reflexivity).
  pose proof (generator_numbers_its_frames demo [[U32 5; U32 6]; [U32 7; U32 8]]) as H. cbn zeta in H. rewrite E in H.
  apply H. constructor; [reflexivity | constructor; [reflexivity | constructor]].
Defined.

(** ** Lemmas: receiving *)

Section receiving.
Context {A : Type} (config : PktgenConfig A).

(** Frames that arrived: their numbers, the stamps they carry and the readings
    of the receiver's clock. *)
Definition arrival : Type := Z * u32 * u32.
Definition arrives (a : arrival) : bytes * u32 := (nth_segment config a.1.1 a.1.2, a.2).
Definition number (a : arrival) : Z := a.1.1.
Definition inner_len : nat := fs_len (pg_frame config) `max` 60.

Lemma inner_of_segment n ts : (length (nth_segment config n ts) - OVERLAY_HDR_LEN)%nat = inner_len.
Proof. rewrite length_nth_segment. unfold segment_bytes, inner_len. lia. Qed.

(** The receiver's tallies after [k] good frames. *)
Record tallied (r : Receiver) (t : SeqTracker) (k gaps reorders : Z) : Prop := {
  tl_frames : rs_frames (rx_stats r) = U64 k;
  tl_bytes : rs_bytes (rx_stats r) = U64 (k * Z.of_nat inner_len);
  tl_gaps : rs_gaps (rx_stats r) = U64 gaps;
  tl_reorder : rs_reorder (rx_stats r) = U64 reorders;
  tl_bad : rs_bad_header (rx_stats r) = U64 0;
  tl_mismatch : rs_length_mismatch (rx_stats r) = U64 0;
  tl_track : forall s, track (pg_vport config) s (rx_trackers r) =
      ([(pg_vport config, (observe t s).2)], (observe t s).1);
}.

Definition reorders_of (es : list SeqEvent) : Z := Z.of_nat (length (filter (fun e => e = Reorder) es)).

Lemma reorders_none es : Reorder ∉ es -> reorders_of (InOrder :: es) = 0.
Proof.
  intros H. unfold reorders_of. rewrite filter_cons_False by done.
  induction es as [| e es IH]; [done |]. apply not_elem_of_cons in H as [H1 H2].
  rewrite filter_cons_False by congruence. by apply IH.
Qed.

Lemma plus_of n m : plus (U64 n) m = U64 (n + m).
Proof. apply uint_eq. unfold plus. rewrite !uv_of. apply Zplus_mod_idemp_l. Qed.

Lemma receive_one_tallied r t k g o a :
  tallied r t k g o ->
  tallied (receive_one inner_len r (arrives a)) (observe t (seq_at (number a))).2 (k + 1)
    (g + gap_of (observe t (seq_at (number a))).1)
    (o + reorders_of [(observe t (seq_at (number a))).1]).
Proof.
  intros [H1 H2 H3 H4 H5 H6 H7]. destruct a as [[n ts] now]. cbn [receive_one arrives number fst snd].
  unfold nth_segment at 1. rewrite decode_segment. cbn [hdr_ingress_vport hdr_seq hdr_ts_us]. rewrite H7, inner_of_segment.
  destruct (observe t (seq_at n)) as [e t']. cbn [fst snd]. rewrite Nat.eqb_refl.
  split; cbn [rx_stats rx_trackers rs_frames rs_bytes rs_gaps rs_reorder rs_bad_header rs_length_mismatch].
  - by rewrite H1, plus_of.
  - rewrite H2, plus_of. f_equal. lia.
  - rewrite H3. destruct e; cbn [gap_of]; rewrite ?Z.add_0_r; try done. apply plus_of.
  - rewrite H4. destruct e; cbn; rewrite ?Z.add_0_r; try done. apply plus_of.
  - done.
  - done.
  - intros s. cbn [track]. rewrite bool_decide_eq_true_2 by done. by destruct (observe t' s).
Qed.

Lemma receive_all_tallied al : forall r t k g o,
  tallied r t k g o ->
  let '(es, t') := observe_all t (seq_at <$> (number <$> al)) in
  tallied (foldl (receive_one inner_len) r (arrives <$> al)) t' (k + Z.of_nat (length al))
    (g + total_gap es) (o + reorders_of es).
Proof.
  induction al as [| a al IH]; intros r t k g o Hr; cbn [fmap list_fmap observe_all foldl length].
  { cbn. by rewrite !Z.add_0_r. }
  pose proof (receive_one_tallied r t k g o a Hr) as H1. destruct (observe t (seq_at (number a))) as [e t1]. cbn [fst snd] in H1.
  specialize (IH _ _ _ _ _ H1). cbn [fmap list_fmap] in IH. destruct (observe_all t1 _) as [es t2].
  replace (k + Z.of_nat (S (length al))) with (k + 1 + Z.of_nat (length al)) by lia.
  replace (g + total_gap (e :: es)) with (g + gap_of e + total_gap es) by (cbn [total_gap foldr]; fold (total_gap es); lia).
  replace (o + reorders_of (e :: es)) with (o + reorders_of [e] + reorders_of es); [done |].
  unfold reorders_of. rewrite !filter_cons, filter_nil. case_decide; cbn [length]; lia.
Qed.

Lemma tallied_new : tallied Receiver_new SeqTracker_new 0 0 0.
Proof. by split. Qed.

(** The segments of a buffer of pieces of one length. *)
Lemma length_concat_uniform (l : list bytes) n :
  Forall (fun s => length s = n) l -> length (concat l) = (length l * n)%nat.
Proof. induction 1 as [| s l Hs _ IH]; [done |]. cbn [concat length]. rewrite length_app, IH. lia. Qed.

Lemma slice_uniform (l : list bytes) n k x :
  Forall (fun s => length s = n) l -> l !! k = Some x -> slice (k * n) (k * n + n) (concat l) = x.
Proof.
  intros H. revert k. induction H as [| s l Hs _ IH]; intros [| k] Hk; try done; cbn [concat].
  - injection Hk as ->. unfold slice. cbn [Nat.mul drop]. replace (0 + n - 0)%nat with (length x) by lia. apply take_app_length.
  - rewrite <- (IH k Hk). unfold slice. rewrite (drop_app_ge s) by lia. f_equal; [lia | f_equal; lia].
Qed.

Lemma div_ceil_mul a b : (0 < b)%nat -> div_ceil (a * b) b = a.
Proof.
  intros Hb. unfold div_ceil. symmetry. apply (Nat.div_unique _ b a (b - 1)); lia.
Qed.

Lemma sorted_lookup_le (l : list Z) : Sorted Z.le l ->
  forall i j x y, (i <= j)%nat -> l !! i = Some x -> l !! j = Some y -> x <= y.
Proof.
  intros Hs. apply Sorted_StronglySorted in Hs; [| intros x y z ? ?; lia].
  induction Hs as [| z l _ IH Hz]; intros i j x y Hij Hx Hy; [done |].
  destruct i as [| i], j as [| j]; try lia; cbn in Hx, Hy.
  - injection Hx as ->. injection Hy as ->. lia.
  - injection Hx as ->. rewrite Forall_forall in Hz. apply Hz. by eapply list_elem_of_lookup_2.
  - apply (IH i j); [lia | done | done].
Qed.

(** Samples kept aside before. *)
Definition after_samples (l : list Z) (r : Receiver) : Receiver :=
  {| rx_stats := rx_stats r; rx_trackers := rx_trackers r; rx_local := l ++ rx_local r |}.

Lemma receive_one_after expect l r x :
  receive_one expect (after_samples l r) x = after_samples l (receive_one expect r x).
Proof.
  destruct x as [seg now]. unfold receive_one. cbn [after_samples rx_stats rx_trackers rx_local].
  destruct (decode seg) as [hdr | e]; [| done]. destruct (track _ _ _) as [ts e].
  unfold after_samples. cbn [rx_stats rx_trackers rx_local]. by rewrite app_assoc.
Qed.

Lemma receive_all_after expect l xs : forall r,
  foldl (receive_one expect) (after_samples l r) xs = after_samples l (foldl (receive_one expect) r xs).
Proof. induction xs as [| x xs IH]; intros r; cbn [foldl]; [done |]. by rewrite receive_one_after, IH. Qed.

(** One-way delay of a frame, as the receiver computes it. *)
Definition delay (a : arrival) : Z := delta_us a.2 a.1.2.

Lemma receive_all_samples expect al : forall r,
  rx_local (foldl (receive_one expect) r (arrives <$> al)) = rx_local r ++ (delay <$> al).
Proof.
  induction al as [| [[n ts] now] al IH]; intros r; cbn [fmap list_fmap foldl]; [by rewrite app_nil_r |].
  rewrite IH. cbn [receive_one arrives fst snd]. unfold nth_segment at 1. rewrite decode_segment.
  destruct (track _ _ _) as [ts' e]. cbn [rx_local hdr_ts_us]. by rewrite <- app_assoc.
Qed.

(** One read of the socket: frames that came together, as long as each other,
    with the stride the kernel reports when it coalesced several. *)
Definition read_data (g : list arrival) : bytes := concat ((arrives <$> g).*1).
Definition read_of (addr : A) (g : list arrival) : bytes * RecvMeta A * (nat -> u32) :=
  (read_data g,
   Build_RecvMeta addr (length (read_data g)) (if (length g =? 1)%nat then 0%nat else segment_bytes config),
   fun k => default (U32 0) (snd <$> g !! k)).

Lemma read_lengths g : Forall (fun s => length s = segment_bytes config) ((arrives <$> g).*1).
Proof. induction g as [| a g IH]; constructor; [apply length_nth_segment | done]. Qed.

Lemma length_read g : length (read_data g) = (length g * segment_bytes config)%nat.
Proof.
  unfold read_data. rewrite (length_concat_uniform _ _ (read_lengths g)). by rewrite !length_fmap.
Qed.

Lemma segment_bytes_pos : (0 < segment_bytes config)%nat.
Proof. unfold segment_bytes, OVERLAY_HDR_LEN. lia. Qed.

Lemma receive_read_of addr g r :
  g <> [] ->
  let '(data, meta, clock) := read_of addr g in
  receive_read inner_len data meta clock r = Some (foldl (receive_one inner_len) r (arrives <$> g)).
Proof.
  intros Hg. unfold read_of, receive_read. cbn [rm_len rm_stride]. pose proof segment_bytes_pos as Hp.
  assert ((if ((if (length g =? 1)%nat then 0 else segment_bytes config) =? 0)%nat
           then length (read_data g) else (if (length g =? 1)%nat then 0 else segment_bytes config))
          = segment_bytes config)%nat as ->.
  { rewrite length_read. destruct (Nat.eqb_spec (length g) 1) as [-> |]; [cbn; lia |].
    by destruct (Nat.eqb_spec (segment_bytes config) 0); [lia |]. }
  destruct (Nat.eqb_spec (segment_bytes config) 0) as [| _]; [lia |]. do 2 f_equal.
  rewrite length_read, div_ceil_mul by done. apply list_eq. intros k. rewrite !list_lookup_fmap.
  destruct (decide (k < length g)%nat) as [Hk | Hk].
  - rewrite lookup_seq_lt by done. destruct (lookup_lt_is_Some_2 g k Hk) as [a Ha]. rewrite Ha.
    cbn [fmap option_fmap option_map Nat.add default from_option]. unfold arrives at 1. f_equal. f_equal.
    + rewrite Nat.min_r by nia. apply (slice_uniform _ _ k _ (read_lengths g)). by rewrite !list_lookup_fmap, Ha.
    + exact (f_equal (fun o => default (U32 0) (snd <$> o)) Ha).
  - rewrite lookup_seq_ge by lia. by rewrite lookup_ge_None_2 by lia.
Qed.

Lemma receive_loop_reads addr groups : forall samples r,
  Forall (fun g => g <> []) groups ->
  let r' := foldl (receive_one inner_len) r (arrives <$> concat groups) in
  receive_loop inner_len (read_of addr <$> groups) samples r = Some (rx_stats r', samples ++ rx_local r').
Proof.
  induction groups as [| g groups IH]; intros samples r Hg; [done |]. apply Forall_cons in Hg as [Hg Hgs].
  pose proof (receive_read_of addr g r Hg) as H. cbn [fmap list_fmap receive_loop]. unfold read_of in H |- * at 1. rewrite H.
  cbn [mbind option_bind]. set (r1 := foldl _ r _). cbn [concat]. rewrite fmap_app, foldl_app. fold r1.
  destruct (4096 <=? _)%nat; [| by apply IH].
  rewrite IH by done. cbn zeta.
  pose proof (receive_all_after inner_len (rx_local r1) (arrives <$> concat groups)
    {| rx_stats := rx_stats r1; rx_trackers := rx_trackers r1; rx_local := [] |}) as E.
  assert (after_samples (rx_local r1) {| rx_stats := rx_stats r1; rx_trackers := rx_trackers r1; rx_local := [] |} = r1)
    as E1 by (unfold after_samples; cbn; rewrite app_nil_r; by destruct r1).
  rewrite E1 in E. rewrite E. cbn [after_samples rx_stats rx_local]. by rewrite app_assoc.
Qed.

(** The percentiles of a report are in order. *)
Lemma percentile_le l p q : Sorted Z.le l -> (p <= q)%nat -> percentile l p <= percentile l q.
Proof.
  intros Hs Hpq. unfold percentile.
  case_bool_decide as Hl; [done |]. assert (0 < length l)%nat as H0 by (destruct l; [done | cbn; lia]).
  set (i := ((length l * p / 100) `min` (length l - 1))%nat). set (j := ((length l * q / 100) `min` (length l - 1))%nat).
  assert (i <= j)%nat as Hij by (unfold i, j; apply Nat.min_le_compat_r, Nat.Div0.div_le_mono; nia).
  assert (j < length l)%nat as Hj by (unfold j; lia).
  destruct (lookup_lt_is_Some_2 l i ltac:(lia)) as [x Hx], (lookup_lt_is_Some_2 l j Hj) as [y Hy]. rewrite Hx, Hy. cbn.
  by eapply (sorted_lookup_le l Hs i j).
Qed.

(** The report says where frames went missing.  Of a run of the generator,
    whatever frames arrive, however the kernel coalesced them into reads, in the
    order they were sent and with fewer than 2^31 lost in a row, each is
    counted once, none is called damaged, of the wrong length or reordered, the
    gaps reported are exactly the frames lost between the first and the last
    arrival, across wraps of the counter, there is a latency sample per frame,
    and the percentiles are in order. *)
Theorem report_counts_the_losses addr groups a al sent frame_len :
  Forall (fun g => g <> []) groups -> concat groups = a :: al -> lossy (number a) (number <$> al) ->
  let n := Z.of_nat (length (a :: al)) in
  exists stats samples,
    receive_loop inner_len (read_of addr <$> groups) [] Receiver_new = Some (stats, samples) /\
    stats = {| rs_frames := U64 n; rs_bytes := U64 (n * Z.of_nat inner_len);
               rs_gaps := U64 (List.last (number <$> al) (number a) - number a - Z.of_nat (length al));
               rs_reorder := U64 0; rs_bad_header := U64 0; rs_length_mismatch := U64 0 |} /\
    samples = delay <$> (a :: al) /\
    exists lat, rp_latency (finish config stats samples sent frame_len) = Some lat /\
      l_samples lat = length (a :: al) /\ p50_us lat <= p99_us lat.
Proof.
  intros Hg Hc Hl n. set (r := foldl (receive_one inner_len) Receiver_new (arrives <$> (a :: al))).
  exists (rx_stats r), (rx_local r). split; [by rewrite (receive_loop_reads addr groups [] _ Hg), Hc |].
  assert (rx_local r = delay <$> (a :: al)) as Hs by apply receive_all_samples. split_and!; [| done |].
  - pose proof (receive_all_tallied (a :: al) _ _ _ _ _ tallied_new) as H. fold r in H.
    cbn [fmap list_fmap observe_all] in H. unfold observe at 1 in H. cbn [expected SeqTracker_new] in H. rewrite Seq_next_at in H.
    destruct (observe_lossy_tail (number a) (number <$> al) Hl) as (es & E & Hg' & Hr). cbn [fmap list_fmap] in E. rewrite E in H.
    destruct H as [H1 H2 H3 H4 H5 H6 _]. destruct (rx_stats r) as [f b g o h m]. cbn in H1, H2, H3, H4, H5, H6. subst. f_equal.
    all: f_equal; cbn [length fmap list_fmap gap_of total_gap foldr]; rewrite ?length_fmap.
    + change (foldr _ 0 es) with (total_gap es). rewrite Hg', length_fmap. lia.
    + by rewrite reorders_none.
  - unfold finish. cbn [rp_latency]. pose proof (merge_sort_Permutation Z.le (rx_local r)) as HP.
    apply Permutation_length in HP as HL. rewrite Hs, length_fmap in HL.
    rewrite Hs, bool_decide_eq_false_2 by (intros E; rewrite E in HL; done).
    eexists. split; [done |]. cbn [l_samples p50_us p99_us]. split; [exact HL |].
    apply percentile_le; [| lia]. apply Sorted_merge_sort. intros x y. lia.
Qed.

(** The sender has made a batch of frames for every turn. *)
Lemma send_loop_made `{HU : Udp A K} batch segment turns : forall n st (s : K),
  made config n st -> Forall (fun clock => length clock = batch) turns ->
  match (send_loop config batch segment turns st s).2 with
  | Ok st' => made config (n + Z.of_nat (batch * length turns)) st'
  | Err _ => True
  end.
Proof.
  induction turns as [| clock turns IH]; intros n st s Hm Ht; cbn [send_loop length].
  { cbn [snd]. by rewrite Nat.mul_0_r, Z.add_0_r. }
  apply Forall_cons in Ht as [Hl Ht]. unfold send_batch. rewrite take_ge by lia.
  destruct (stage_all_made config clock n st [] Hm) as [H1 _].
  destruct (foldl (stage_one config) (st, []) clock) as [st1 buf]. cbn [fst] in H1.
  destruct (fabric_send _ s) as [s1 [u | e]]; [| done]. specialize (IH _ st1 s1 H1 Ht).
  destruct (send_loop _ _ _ _ _ _).2; [| done].
  replace (n + Z.of_nat (batch * S (length turns))) with (n + Z.of_nat (length clock) + Z.of_nat (batch * length turns)) by nia.
  exact IH.
Qed.

Lemma lossy_length x l : lossy x l -> x + Z.of_nat (length l) <= List.last l x.
Proof.
  revert x. induction l as [| y l IH]; intros x; [cbn; lia |]. intros [H1 H2]. specialize (IH y H2).
  rewrite last_cons_default. cbn [length]. lia.
Qed.

(** C40: A run accounts for every frame.  Of a run that sends, and whose frames
    come back coalesced in any way, in order, with fewer than 2^31 lost in a row
    and none but its own: the report has as many frames sent as the batches had,
    each arrival counted once, none called damaged, of the wrong length or out of
    order, and what it calls lost is the gaps it saw, the frames missing before
    the first arrival and those missing after the last, so that loss at either
    end, which leaves no gap, is reported too.  There is a latency sample per
    frame, and the percentiles are in order. *)
Theorem run_accounts_for_its_frames `{HU : Udp A K} (s s' : K) st turns addr groups a al :
  let batch := batch_size (pg_batch config) (segment_bytes config) in
  let sent := Z.of_nat (batch * length turns) in
  Forall (fun clock => length clock = batch) turns -> sent < 2 ^ 64 ->
  send_loop config batch (segment_bytes config) turns (tx_start config) s = (s', Ok st) ->
  Forall (fun g => g <> []) groups -> concat groups = a :: al -> lossy (number a) (number <$> al) ->
  let last_ := List.last (number <$> al) (number a) in
  0 <= number a -> last_ < sent ->
  exists rep,
    pktgen_run config (Ok s) turns (read_of addr <$> groups) = Ok rep /\
    uv (rp_sent rep) = sent /\ uv (rp_received rep) = Z.of_nat (length (a :: al)) /\
    uv (rp_bad_header rep) = 0 /\ uv (rp_length_mismatch rep) = 0 /\ uv (rp_reorder rep) = 0 /\
    uv (rp_seq_gap_total rep) = last_ - number a - Z.of_nat (length al) /\
    rp_lost rep = uv (rp_seq_gap_total rep) + number a + (sent - 1 - last_) /\
    exists lat, rp_latency rep = Some lat /\ l_samples lat = length (a :: al) /\ p50_us lat <= p99_us lat.
Proof.
  intros batch sent Ht Hsent Hsend Hg Hc Hl last_ H0 Hlast.
  pose proof (lossy_length _ _ Hl) as Hlen. rewrite length_fmap in Hlen. fold last_ in Hlen.
  pose proof (send_loop_made batch (segment_bytes config) turns 0 (tx_start config) s (made_start config) Ht) as Hm.
  rewrite Hsend in Hm. cbn [snd] in Hm. destruct Hm as [Hm _ _]. change (0 + Z.of_nat (batch * length turns)) with sent in Hm.
  destruct (report_counts_the_losses addr groups a al (U64 sent) inner_len Hg Hc Hl) as (stats & samples & Hr & Hst & Hsa & Hlat).
  assert (ft_len (FrameTemplate_new (pg_frame config)) = inner_len) as Hft by apply template_new_len.
  assert (forall z, 0 <= z < 2 ^ 64 -> uv (U64 z) = z) as Hu by (intros z Hz; apply uv_of_small; exact Hz).
  exists (finish config stats samples (U64 sent) inner_len).
  split.
  { unfold pktgen_run. rewrite Hft. change (OVERLAY_HDR_LEN + inner_len)%nat with (segment_bytes config). fold batch.
    by rewrite Hsend, Hr, Hm. }
  cbn [length] in *. unfold finish. cbn [rp_sent rp_received rp_bad_header rp_length_mismatch rp_reorder rp_seq_gap_total rp_lost].
  rewrite Hst. cbn [rs_frames rs_bad_header rs_length_mismatch rs_reorder rs_gaps]. rewrite !Hu by lia.
  split_and!; try done; try lia.
Qed.
End receiving.

(** A wire that takes every write. *)
#[local] Instance sink : Udp string unit := {
  caps _ := {| rcvbuf := 212992; sndbuf := 212992; gro_segments := 1; max_gso_segments := 64; may_fragment := false; reuse_port := false |};
  udp_try_send _ s := (s, Ok tt);
  udp_recv s := (s, Err WouldBlock);
  udp_poll _ s := (s, Ok tt);
}.

Lemma sink_takes (config : PktgenConfig string) batch segment turns : forall st,
  exists st', send_loop config batch segment turns st tt = (tt, Ok st').
Proof.
  induction turns as [| clock turns IH]; intros st; [by eexists |]. cbn [send_loop].
  destruct (send_batch _ _ _ _ _) as [st1 t]. apply IH.
Qed.

(** Ten frames sent, five back in three reads: frames 1 and 2, then 5 (two
    lost), then 6 and 8 (one lost); 0 and 9 never came. *)
Lemma run_witness :
  let arr n := (n, U32 10, U32 (20 + n)) in
  exists rep,
    pktgen_run demo (Ok tt) (replicate 5 [U32 10; U32 10]) (read_of demo "k" <$> [[arr 1; arr 2]; [arr 5]; [arr 6; arr 8]]) = Ok rep /\
    uv (rp_sent rep) = 10 /\ uv (rp_received rep) = 5 /\ uv (rp_seq_gap_total rep) = 3 /\ rp_lost rep = 5.
Proof.
  intros arr.
  assert (batch_size (pg_batch demo) (segment_bytes demo) = 2%nat) as E by (vm_compute; reflexivity).
  destruct (sink_takes demo (batch_size (pg_batch demo) (segment_bytes demo)) (segment_bytes demo)
    (replicate 5 [U32 10; U32 10]) (tx_start demo)) as [st Hs].
  destruct (run_accounts_for_its_frames demo tt tt st (replicate 5 [U32 10; U32 10]) "k" [[arr 1; arr 2]; [arr 5]; [arr 6; arr 8]]
    (arr 1) [arr 2; arr 5; arr 6; arr 8]) as (rep & H & H1 & H2 & _ & _ & _ & H3 & H4 & _).
  - rewrite E. repeat constructor.
  - rewrite E. reflexivity.
  - exact Hs.
  - repeat constructor; discriminate.
  - reflexivity.
  - cbn. lia.
  - cbn. lia.
  - rewrite E. reflexivity.
  - exists rep. rewrite E in H1, H4. rewrite H3 in H4. split_and!; [exact H | exact H1 | exact H2 | exact H3 | exact H4].
Defined.

(** A datagram of no bytes, which any sender can produce, stops the receiver. *)
Lemma empty_datagram_panics (A : Type) expect (addr : A) clock r :
  receive_read expect [] (Build_RecvMeta addr 0 0) clock r = None.
Proof. done. Qed.
