(* ===== verification/FrontEnds.v ===== *)
(** * The tools' front ends (crates/up4-tools/src/bin/{pktgen,probe}.rs)

    From a command line to a run of the generator and its printed report, and to
    a probe of the host: what is configured, what is printed and the exit code.
    JSON, and the text of a floating point figure, are parameters. *)

From S2P Require Import Prelude Bytes Text Value Headers Wire Messages Tx Socket Traffic Pktgen Probe Up4ctl.

Local Open Scope string_scope.

(** ** pktgen *)

(** [Cli] of pktgen, parsed. *)
Record GenCli (A : Type) := {
  gc_bind : A; gc_target : A; gc_frame_size : nat; gc_rate_pps : u64; gc_flows : u32; gc_duration : u64; gc_vport : u16;
  gc_batch : nat; gc_dst_mac : string; gc_src_mac : string; gc_dst_ip : Ipv4Addr; gc_src_ip : Ipv4Addr;
  gc_cross_host : bool; gc_json : bool;
}.
Arguments gc_bind {A} _.
Arguments gc_target {A} _.
Arguments gc_frame_size {A} _.
Arguments gc_rate_pps {A} _.
Arguments gc_flows {A} _.
Arguments gc_duration {A} _.
Arguments gc_vport {A} _.
Arguments gc_batch {A} _.
Arguments gc_dst_mac {A} _.
Arguments gc_src_mac {A} _.
Arguments gc_dst_ip {A} _.
Arguments gc_src_ip {A} _.
Arguments gc_cross_host {A} _.
Arguments gc_json {A} _.

(** What is not given: the defaults of the options. *)
Definition GenCli_default {A} (bind target : A) : GenCli A := {|
  gc_bind := bind; gc_target := target; gc_frame_size := 1460; gc_rate_pps := U64 0; gc_flows := U32 1; gc_duration := U64 10;
  gc_vport := U16 0; gc_batch := 64; gc_dst_mac := "02:00:00:00:00:02"; gc_src_mac := "02:00:00:00:00:01";
  gc_dst_ip := Ipv4 (U8 10) (U8 0) (U8 2) (U8 1); gc_src_ip := Ipv4 (U8 10) (U8 0) (U8 1) (U8 1);
  gc_cross_host := false; gc_json := false;
|}.

(** The [PktgenConfig] of [main]. *)
Definition gen_config {A} (cli : GenCli A) (src_mac dst_mac : MacAddr) : PktgenConfig A := {|
  pg_bind := gc_bind cli; pg_target := gc_target cli;
  pg_frame := {| fs_src_mac := src_mac; fs_dst_mac := dst_mac; fs_src_ip := gc_src_ip cli; fs_dst_ip := gc_dst_ip cli;
                 fs_src_port := fs_src_port FrameSpec_default; fs_dst_port := fs_dst_port FrameSpec_default;
                 fs_len := gc_frame_size cli |};
  pg_rate_pps := gc_rate_pps cli; pg_flows := if (uv (gc_flows cli) <? 1)%Z then U32 1 else gc_flows cli;
  pg_duration_us := (uv (gc_duration cli) * 1000000)%Z; pg_vport := gc_vport cli; pg_batch := gc_batch cli;
  pg_same_host := negb (gc_cross_host cli);
|}.

(** [{:>n}] *)
Definition pad_left (n : nat) (s : string) : string := unchars (replicate (n - String.length s) " "%char) ++ s.

(** The figures of a report that are floating point, as they are printed. *)
Record Figures := { tx_mpps : string; tx_gbps : string; rx_mpps : string; rx_gbps : string; loss_pct : string }.

(** [print_report] *)
Definition print_report (figures : Figures) (r : Report) : list string :=
  ["sent      " ++ pad_left 12 (show_u (rp_sent r)) ++ " frames  " ++ tx_mpps figures ++ " Mpps  " ++ tx_gbps figures ++ " Gbps";
   "received  " ++ pad_left 12 (show_u (rp_received r)) ++ " frames  " ++ rx_mpps figures ++ " Mpps  " ++ rx_gbps figures ++ " Gbps";
   "loss      " ++ loss_pct figures ++ " %  (" ++ show_u (rp_seq_gap_total r) ++ " missing by sequence)";
   "reorder   " ++ pad_left 12 (show_u (rp_reorder r)) ++ "  bad_header " ++ show_u (rp_bad_header r) ++
     "  length_mismatch " ++ show_u (rp_length_mismatch r);
   match rp_latency r with
   | None => "latency   no frames returned"
   | Some l =>
       let note := if calibrated l then "" else "  (uncalibrated clock delta)" in
       "latency   p50 " ++ show_Z (p50_us l) ++ " us  p99 " ++ show_Z (p99_us l) ++ " us  n=" ++ show_nat (l_samples l) ++ note
   end].

Section gen.
Context {A : Type}.
(** [up4_tools::run], the text of its errors, of a report's figures, and of the
    report as JSON (an error of the serializer as its text). *)
Variable run : PktgenConfig A -> result Report RunError.
Variable show_error : RunError -> string.
Variable figures : Report -> Figures.
Variable json : Report -> string.

(** [main] of pktgen. *)
Definition gen_main (cli : GenCli A) : Printed :=
  match mac_from_str (gc_src_mac cli), mac_from_str (gc_dst_mac cli) with
  | Some src_mac, Some dst_mac =>
      match run (gen_config cli src_mac dst_mac) with
      | Err e => mkPrinted [] ["pktgen: " ++ show_error e] 2
      | Ok report => success (if gc_json cli then [json report] else print_report (figures report) report)
      end
  | _, _ => mkPrinted [] ["pktgen: --src-mac and --dst-mac must look like aa:bb:cc:dd:ee:ff"] 2
  end.
End gen.

(** ** probe *)

Record ProbeCli := mkProbeCli { pc_peer : option IpAddr; pc_pretty : bool }.

(** [main] of probe; [json pretty] is [serde_json::to_string] or its pretty
    sister. *)
Definition probe_main (w : Machine) (json : bool -> Probe -> result string string) (cli : ProbeCli) : Printed :=
  match json (pc_pretty cli) (probe w (pc_peer cli)) with
  | Ok text => success [text]
  | Err e => mkPrinted [] ["probe: " ++ e] 1
  end.

(** ** What the options mean *)

Local Open Scope Z_scope.

(** An address that does not parse stops the tool before it binds anything. *)
Lemma bad_mac_sends_nothing {A} run run' show_error figures json (cli : GenCli A) :
  mac_from_str (gc_src_mac cli) = None \/ mac_from_str (gc_dst_mac cli) = None ->
  gen_main run show_error figures json cli = gen_main run' show_error figures json cli /\
  code (gen_main run show_error figures json cli) = 2%nat.
Proof.
  unfold gen_main. intros [-> | H]; [done |]. rewrite H. by destruct (mac_from_str (gc_src_mac cli)).
Qed.

Section options.
Context {A : Type}.
Implicit Types cli : GenCli A.

(** The flow of the [k]-th frame of a run. *)
Definition flow_at cli (k : nat) : u32 := U32 (Z.of_nat k mod Z.max (uv (gc_flows cli)) 1).

Lemma rotation_of cli src dst : rotation (gen_config cli src dst) = Z.max (uv (gc_flows cli)) 1.
Proof.
  unfold rotation. cbn [pg_flows gen_config]. destruct (Z.ltb_spec (uv (gc_flows cli)) 1); [change (uv (U32 1)) with 1; lia | lia].
Qed.

Lemma nth_segments_lookup (config : PktgenConfig A) n clock k d :
  nth_segments config n clock !! k = Some d ->
  exists ts, clock !! k = Some ts /\ d = nth_segment config (n + Z.of_nat k) ts.
Proof.
  unfold nth_segments. rewrite list_lookup_imap. destruct (clock !! k) as [ts |]; [| done]. intros [= <-]. by exists ts.
Qed.

(** What the options say is what is sent.  With addresses that parse, whatever
    the deadline leaves of the run, the [k]-th datagram to leave, once the kernel
    has cut each write, decodes to the vport asked for, number [k] and the reading
    of its clock, and behind that is a frame of the size asked for (60 bytes at
    least) from and to the addresses asked for, its source varied by the flow
    [k] modulo the number of flows when there are several.  The exit code is 0
    exactly when the run gives a report. *)
Theorem options_say_what_is_sent run show_error figures json cli src dst (turns : list (list u32)) :
  mac_from_str (gc_src_mac cli) = Some src -> mac_from_str (gc_dst_mac cli) = Some dst ->
  let config := gen_config cli src dst in
  let batch := batch_size (pg_batch config) (segment_bytes config) in
  Forall (fun clock => length clock = batch) turns ->
  let sent := transmits config batch (segment_bytes config) turns (tx_start config) ≫= cut in
  length sent = length (concat turns) /\
  (forall k d, sent !! k = Some d ->
     exists hdr ip, Wire.decode d = Ok hdr /\ concat turns !! k = Some (hdr_ts_us hdr) /\
       hdr_ingress_vport hdr = gc_vport cli /\ hdr_seq hdr = seq_at (Z.of_nat k) /\
       let f := drop OVERLAY_HDR_LEN d in
       length f = (gc_frame_size cli `max` 60)%nat /\
       eth_parse f = Some {| eth_dst := dst; eth_src := src; ethertype := ETHERTYPE_IPV4 |} /\
       ip_parse f ETH_HDR_LEN = Some ip /\ ip_dst ip = gc_dst_ip cli /\
       ip_src ip = (if 1 <? uv (gc_flows cli) then flow_src (flow_at cli k) (gc_src_ip cli) else gc_src_ip cli)) /\
  code (gen_main run show_error figures json cli) = (if run config is Ok _ then 0%nat else 2%nat).
Proof.
  intros Hsrc Hdst config batch Ht sent. destruct (generator_numbers_its_frames config turns Ht) as (Hs & _ & _).
  fold batch sent in Hs. rewrite Hs. split_and!.
  - unfold nth_segments. apply length_imap.
  - intros k d (ts & Hts & ->)%nth_segments_lookup. unfold nth_segment. rewrite Z.add_0_l, (rotation_of cli src dst : rotation config = _). fold (flow_at cli k).
    set (frame := flow_frame _ _ _). pose proof (length_flow_frame (pg_frame config) (pg_flows config) (flow_at cli k)) as G1.
    destruct (flow_frame_parses (pg_frame config) (pg_flows config) (flow_at cli k)) as (G2 & G3 & _).
    rewrite decode_segment, drop_app_length' by (symmetry; apply length_encode). eexists _, _. split_and!; try done.
    cbn [ip_src pg_flows config gen_config pg_frame fs_src_ip]. destruct (Z.ltb_spec (uv (gc_flows cli)) 1) as [Hz |]; [| done].
    change (uv (U32 1)) with 1. by rewrite (proj2 (Z.ltb_ge 1 (uv (gc_flows cli)))) by lia.
  - unfold gen_main. rewrite Hsrc, Hdst. fold config. by destruct (run config).
Qed.
End options.

(** The defaults drive [l2fwd]'s and [l3fwd]'s test topology. *)
Lemma options_witness :
  let cli := GenCli_default "b"%string "t"%string in
  exists src dst, mac_from_str (gc_src_mac cli) = Some src /\ mac_from_str (gc_dst_mac cli) = Some dst /\
    code (gen_main (fun _ => Err ReceiverPanicked) (fun _ => EmptyString) (fun _ => Build_Figures "" "" "" "" "") (fun _ => ""%string) cli) = 2%nat.
Proof.
  intros cli. assert (exists src, mac_from_str (gc_src_mac cli) = Some src) as [src Hs] by (eexists; vm_compute; reflexivity).
  assert (exists dst, mac_from_str (gc_dst_mac cli) = Some dst) as [dst Hd] by (eexists; vm_compute; reflexivity).
  exists src, dst. split; [exact Hs |]. split; [exact Hd |].
  apply (options_say_what_is_sent (fun _ => Err ReceiverPanicked) _ _ _ cli src dst [] Hs Hd). constructor.
Defined.
