(* ===== verification/Load.v ===== *)
(** * Loading a selection (crates/up4-catalog/src/lib.rs)

    The total function from the catalog to a boxed pipeline, over the third-party
    code under the compiled backends: the runtime of the generated pipelines and
    the BPF machine. *)

From S2P Require Import Prelude Bytes Shim Table Frame Headers Engine Catalog Programs L2Fwd L3Fwd X4cRuntime X4c GenL2 GenL3 X4cModel Elf UbpfVm UbpfPipeline.

Lemma with_mode_Some d mode q :
  with_mode d mode = Some q ->
  u_desc q = d /\ UbpfPipeline.u_mode q = mode /\ Elf.load (u_object (u_desc q)) = Ok (UbpfPipeline.program q).
Proof.
  intros (prog & Hp & (ts & _ & [= <-])%bind_Some)%bind_Some. cbn. split; [done |]. split; [done |].
  destruct (Elf.load _) as [x | e]; [| discriminate Hp]. by injection Hp as ->.
Qed.

Definition isSome {A} (o : option A) : bool := match o with Some _ => true | None => false end.

(** The committed objects load, and every map they name has a compiled shape. *)
Lemma shipped_objects_load program mode :
  isSome (with_mode (match program with PL2Fwd => UL2FWD | PL3Fwd => UL3FWD end) mode) = true.
Proof. destruct program, mode; vm_compute; reflexivity. Qed.

Section load.
Context {BV M : Type} `{HB : Bitvec BV} `{HR : !P4rt BV} `{HM : Rbpf M}.
Variable jit : bool.

(** The two native renderings, boxed. *)
Definition native (program : Program) (params : PipelineParams) : Object :=
  match program with
  | PL2Fwd => Obj L2.L2Fwd L2.L2Engine _ _ _ (L2.new params)
  | PL3Fwd => Obj L3.L3Fwd L3.L3Engine _ _ _ (L3.new params)
  end.

Definition x4c (program : Program) (params : PipelineParams) : Object :=
  match program with
  | PL2Fwd => Obj (X4cPipeline _) (X4cEngine _) _ _ _ (x4c_new (L2FWD (fun r => Some (G2.new (BV := BV) r))) params)
  | PL3Fwd => Obj (X4cPipeline _) (X4cEngine _) _ _ _ (x4c_new (L3FWD (fun r => Some (G3.new (BV := BV) r))) params)
  end.

(** [None]: a committed object does not load. *)
Definition ubpf (program : Program) : option Object :=
  p ← with_mode (match program with PL2Fwd => UL2FWD | PL3Fwd => UL3FWD end) (preferred jit);
  Some (Obj UbpfPipeline (option (UbpfEngine M)) _ _ _ p).

(** [build]; [None] is a panic. *)
Definition build (sel : Selection) (params : PipelineParams) : option Object :=
  match sel with
  | P4 program Native => Some (native program params)
  | P4 program X4c => Some (wrap (envelope program) (x4c program params))
  | P4 program Ubpf => wrap (envelope program) <$> ubpf program
  | Oracle => Some (Obj Null.NullPipeline Null.NullEngine _ _ _ (Null.new params))
  end.

(** ** Lemmas *)

Definition program_schemas (sel : Selection) : list TableSchema :=
  match sel with P4 PL2Fwd _ => L2.SCHEMAS | P4 PL3Fwd _ => L3.SCHEMAS | Oracle => [] end.

(** The bytecode the machine is given. *)
Definition bytecode (program : Program) : option bytes :=
  p ← to_option (Elf.load (u_object (match program with PL2Fwd => UL2FWD | PL3Fwd => UL3FWD end)));
  Some (prologue ++ Elf.text p).

Definition obj_mints (o : Object) : bool := let '(Obj _ _ _ _ _ v) := o in mints v.

Lemma wrap_name env o : obj_name (wrap env o) = obj_name o.
Proof. unfold wrap. case_decide; [done |]. by destruct o. Qed.

Lemma wrap_schemas env o : obj_schemas (wrap env o) = obj_schemas o.
Proof. unfold wrap. case_decide; [done |]. by destruct o. Qed.

Lemma wrap_mints env o : obj_mints (wrap env o) = obj_mints o.
Proof. unfold wrap. case_decide; [done |]. by destruct o. Qed.

(** ** The envelope, around every backend *)

(** What becomes of a frame after a trace. *)
Definition obj_frame (o : Object) (rs : list Request) (f : FrameCtx) : FrameCtx * Verdict :=
  let '(Obj _ _ _ _ _ v) := o in
  let '(p, e) := serve_state rs (v, engine v) in
  let '(_, f, vd) := process p f e in (f, vd).

Definition departs (v : Verdict) : bool := match v with Forward _ | Broadcast => true | _ => false end.

(** A frame the envelope refuses is dropped as it came; a frame that departs is
    scrubbed. *)
Definition binds (env : Envelope) (f : FrameCtx) (x : FrameCtx * Verdict) : Prop :=
  (admits (env_admit env) (frame f) = false -> x = (f, Drop)) /\
  (departs x.2 = true -> scrub_apply (scrub env) (frame x.1) = frame x.1).

Lemma scrub_idem s f : scrub_apply s (scrub_apply s f) = scrub_apply s f.
Proof. destruct s; [done | apply zero_inner_idem]. Qed.

Lemma binds_identity f x : binds IDENTITY f x.
Proof. by split. Qed.

Lemma enveloped_binds `{EngineLaws P E} (p : Enveloped P) f (e : EnvelopedEngine E) :
  ok f -> let '(_, g, vd) := process p f e in binds (ee_envelope e) f (g, vd).
Proof.
  intros Ho. cbn. unfold enveloped_process. destruct (admits _ _) eqn:Ha; [| by split].
  pose proof (process_ok (e_inner p) f (ee_inner e) Ho) as [Hok _].
  destruct (process (e_inner p) f (ee_inner e)) as [[e' g] vd]. cbn in Hok. split; [congruence |].
  destruct (frame_mut_ok (scrub_apply (scrub (ee_envelope e))) g Hok) as (_ & _ & E1).
  { rewrite length_scrub. by apply length_frame. }
  destruct vd; intros Hd; try done; cbn [fst]; rewrite E1; apply scrub_idem.
Qed.

(** No request touches the envelope of an engine. *)
Lemma serve_envelope `{TableOps P} `{Engine P E} rs : forall (s : Enveloped P * EnvelopedEngine E),
  ee_envelope (serve_state rs s).2 = ee_envelope s.2.
Proof.
  induction rs as [| r rs IH]; intros s; [done |]. cbn. fold (serve_state rs (serve r s).1).
  rewrite IH. destruct s as [p e], r; try done. cbn. unfold enveloped_process.
  destruct (admits _ _); [| done]. by destruct (process _ _ _) as [[e' g] vd].
Qed.

Lemma native_l3_binds p f e : ok f -> let '(_, g, vd) := L3.l3_process p f e in binds (envelope PL3Fwd) f (g, vd).
Proof.
  intros Ho. unfold binds. cbn [envelope env_admit scrub scrub_apply]. rewrite admits_coherent. unfold L3.l3_process.
  destruct (eth_parse (frame f)) as [eth |]; [| done].
  case_bool_decide as Et; cbn [negb orb]; [| by split].
  destruct (ip_parse (frame f) ETH_HDR_LEN) as [ip |] eqn:Ei; [| by split].
  rewrite bool_decide_eq_true_2 by by eexists.
  destruct (_ =? 0)%Z; [by split |]. destruct (Lpm.apply _ _) as [port dmac | |]; [| by split | by split].
  split; [done |]. intros _. cbn [fst].
  destruct (frame_mut_ok (L3.rewrite ip dmac) f Ho) as (_ & _ & ->).
  { rewrite L3.length_rewrite. by apply length_frame. }
  apply zero_inner_idem.
Qed.

Lemma wrap_binds env (o : Object) rs f :
  (let '(Obj P E _ _ _ _) := o in EngineLaws P E) -> ok f -> binds env f (obj_frame (wrap env o) rs f).
Proof.
  destruct o as [P E HT HE HP v]. intros HL Ho. unfold wrap. case_decide as Hi; [subst env; apply binds_identity |].
  unfold obj_frame. pose proof (serve_envelope rs ({| e_envelope := env; e_inner := v |},
    engine {| e_envelope := env; e_inner := v |})) as He. destruct (serve_state _ _) as [p e]. cbn in He.
  pose proof (enveloped_binds p f e Ho) as Hb. cbn [process Enveloped_Engine] in *.
  destruct (enveloped_process p f e) as [[e' g] vd]. by rewrite He in Hb.
Qed.

Lemma ubpf_loads program :
  exists q, ubpf program = Some (Obj UbpfPipeline (option (UbpfEngine M)) _ _ _ q) /\
    u_desc q = (match program with PL2Fwd => UL2FWD | PL3Fwd => UL3FWD end) /\
    UbpfPipeline.u_mode q = preferred jit /\
    Elf.load (u_object (u_desc q)) = Ok (UbpfPipeline.program q).
Proof.
  pose proof (shipped_objects_load program (preferred jit)) as HS. revert HS. unfold ubpf.
  generalize (match program with PL2Fwd => UL2FWD | PL3Fwd => UL3FWD end). intros d.
  destruct (with_mode d _) as [q |] eqn:E; [intros _ | discriminate]. exists q. split; [done |].
  by apply with_mode_Some.
Qed.

Lemma bytecode_of program prog :
  Elf.load (u_object (match program with PL2Fwd => UL2FWD | PL3Fwd => UL3FWD end)) = Ok prog ->
  bytecode program = Some (prologue ++ Elf.text prog).
Proof. unfold bytecode. by intros ->. Qed.

Lemma ubpf_mints_iff (q : UbpfPipeline) :
  mints (Pipeline := Ubpf_Pipeline (M := M)) q = is_ok (vm_with_mode (M := M) (UbpfPipeline.program q) MTU (UbpfPipeline.u_mode q)).
Proof. cbn. unfold u_engine. by destruct (vm_with_mode _ _ _). Qed.
End load.

(** ** Properties *)

(** Loading is total, and transparent to the control plane.  Every member of
    the catalog loads, under the name the catalog gives it, with the tables of
    its program whichever backend runs it; and an engine can be minted from it
    always, except that the uBPF backends need the machine to accept the
    committed bytecode (and, where there is a JIT, to compile it). *)
Theorem every_selection_loads {BV M} `{HB : Bitvec BV} `{HR : !P4rt BV} `{HM : Rbpf M}
    (jit : bool) (sel : Selection) (params : PipelineParams) :
  exists o, build (BV := BV) (M := M) jit sel params = Some o /\
    obj_name o = selection_name sel /\ obj_schemas o = program_schemas sel /\
    match sel with
    | P4 program Ubpf =>
        exists code, bytecode program = Some code /\
          obj_mints o = is_ok (let? m := rbpf_new (M := M) code in if jit then jit_compile m else Ok m)
    | _ => obj_mints o = true
    end.
Proof.
  destruct sel as [program [| |] |]; cbn [build].
  - eexists; split; [reflexivity |]. by destruct program.
  - eexists; split; [reflexivity |]. rewrite wrap_name, wrap_schemas, wrap_mints. by destruct program.
  - destruct (ubpf_loads (M := M) jit program) as (q & -> & Hd & Hm & Hl). eexists; split; [reflexivity |].
    rewrite wrap_name, wrap_schemas, wrap_mints.
    change (obj_mints _) with (mints (Pipeline := Ubpf_Pipeline (M := M)) q).
    cbn [obj_name obj_schemas pipeline_name schemas Ubpf_Pipeline Ubpf_TableOps].
    rewrite Hd in *. split; [by destruct program |]. split; [by destruct program |].
    exists (prologue ++ Elf.text (UbpfPipeline.program q)). split; [by apply bytecode_of |].
    rewrite ubpf_mints_iff, Hm. unfold vm_with_mode. destruct (rbpf_new _) as [m |]; [| done]. cbn [map_err rbind].
    destruct jit; [| done]. cbn. by destruct (jit_compile m).
  - eexists; split; [reflexivity |]. done.
Qed.

(** C15: a program's envelope binds every backend of it.  However long the
    pipeline has been running and whatever it was told, a frame the program's
    ingress check refuses is dropped as it came, and a frame that departs has
    had the program's departing fix-up: l3fwd never sends an IPv4 frame with a
    checksum left in it, whichever of the three implementations runs. *)
Theorem envelope_binds_every_backend {BV M} `{HB : Bitvec BV} `{HR : !P4rt BV} `{HM : Rbpf M}
    (jit : bool) (program : Program) (backend : Backend) (params : PipelineParams) (rs : list Request) (f : FrameCtx) o :
  build (BV := BV) (M := M) jit (P4 program backend) params = Some o -> ok f ->
  binds (envelope program) f (obj_frame o rs f).
Proof.
  intros Hb Ho. destruct backend; cbn [build] in Hb.
  - injection Hb as <-. destruct program; [apply binds_identity |]. cbn [native obj_frame].
    destruct (serve_state _ _) as [p e]. pose proof (native_l3_binds p f e Ho) as H2.
    cbn [process L3.L3_Engine]. by destruct (L3.l3_process p f e) as [[e' g] vd].
  - injection Hb as <-. apply wrap_binds; [| done]. destruct program; cbn; apply _.
  - destruct (ubpf_loads (M := M) jit program) as (q & E & _). rewrite E in Hb. cbn [fmap option_fmap option_map] in Hb.
    injection Hb as <-. apply wrap_binds; [| done]. apply _.
Qed.

Module Toy.
(** A machine that accepts any bytecode and passes every frame. *)
Definition machine : Rbpf unit := {|
  rbpf_new _ := Ok tt;
  jit_compile _ := Ok tt;
  execute_program _ _ _ m := Exit (Ok (U64 1)) m;
|}.

(** A frame that announces IPv4 and carries version 6. *)
Definition confused : FrameCtx := {|
  buf := replicate 12 (U8 0) ++ map U8 [8; 0; 101]%Z ++ replicate 20 (U8 7);
  headroom := 0; len := 35; ingress_vport := U16 0; rx_ts_us := U32 0;
|}.

(** The uBPF router drops it, after a request it does not understand too. *)
Lemma envelope_witness :
  exists o, build (BV := BitVec) (HM := machine) false (P4 PL3Fwd Ubpf) {| vports := [] |} = Some o /\
    obj_frame o [RClear "no such table"] confused = (confused, Drop).
Proof.
  destruct (build (BV := BitVec) (HM := machine) false (P4 PL3Fwd Ubpf) {| vports := [] |})
    as [o |] eqn:E.
  - exists o. split; [reflexivity |].
    refine (proj1 (envelope_binds_every_backend (BV := BitVec) (HM := machine) false PL3Fwd Ubpf
      {| vports := [] |} [RClear "no such table"] confused o E _) _).
    + unfold ok. cbn. lia.
    + vm_compute. reflexivity.
  - exfalso. pose proof (shipped_objects_load PL3Fwd (preferred false)) as HS. cbn [build] in E. unfold ubpf in E.
    destruct (with_mode UL3FWD (preferred false)); discriminate.
Defined.
End Toy.
