(* ===== verification/Agree.v ===== *)
(** * The native and the compiled backend of a program agree

    Both loaded by the same catalog, told the same requests and given the same
    frames in between, they do the same to the next frame. *)

From S2P Require Import Prelude Bytes Value Shim Table Publish Frame Engine Catalog Programs L2Fwd L3Fwd P4 X4cRuntime X4c GenL2 GenL3 X4cModel X4cNative X4cRouter UbpfVm UbpfPipeline Load.

Local Open Scope Z_scope.

(** ** A trace of requests, as events of one shard *)

Definition event_of_request (r : Request) : option XEvent :=
  match r with
  | RAdd t k a ps => Some (XAdd t k a ps)
  | RRemove t k => Some (XRemove t k)
  | RSetDefault t a ps => Some (XSetDefault t a ps)
  | RClear t => Some (XClear t)
  | RFrame f => Some (XFrame 0 f)
  | RDump _ | RDefault _ => None
  end.

Definition events (rs : list Request) : list XEvent := omap event_of_request rs.

(** A request both backends take the same way: no default is set, no reserved
    port is named, and prefixes are canonical. *)
Definition agreeable (r : Request) : Prop :=
  match r with RFrame f => ok f | _ => True end /\
  match event_of_request r with Some e => plain e /\ X3.plain_keys e | None => True end.

Lemma agreeable_events rs :
  Forall agreeable rs -> Forall plain (events rs) /\ Forall X3.plain_keys (events rs) /\ Forall event_ok (events rs).
Proof.
  induction 1 as [| r rs [Hf He] _ (I1 & I2 & I3)]; [done |]. unfold events. cbn [omap list_omap].
  destruct (event_of_request r) as [e |] eqn:Ee; [| done]. destruct He as [Hp Hk].
  split; [by apply Forall_cons |]. split; [by apply Forall_cons |]. apply Forall_cons. split; [| done].
  destruct r; cbn in Ee; simplify_eq; done.
Qed.

Lemma length_events rs : (length (events rs) <= length rs)%nat.
Proof. unfold events. induction rs as [| r rs IH]; [done |]. cbn. destruct (event_of_request r); cbn; lia. Qed.

(** One shard under a trace is the run of its events. *)
Lemma run_served `{P4rs Pipe} rs (p : X4cPipeline Pipe) (e : X4cEngine Pipe) :
  foldl run_event (p, [e]) (events rs) = let '(p', e') := serve_state rs (p, e) in (p', [e']).
Proof.
  revert p e. induction rs as [| r rs IH]; intros p e; [done |].
  unfold serve_state. cbn [foldl]. change (foldl _ (serve r (p, e)).1 rs) with (serve_state rs (serve r (p, e)).1).
  assert (foldl run_event (p, [e]) (events (r :: rs)) = foldl run_event ((serve r (p, e)).1.1, [(serve r (p, e)).1.2]) (events rs)) as ->.
  { destruct r as [t k a ps | t k | t a ps | t | t | t | f]; cbn [events omap list_omap event_of_request foldl run_event serve].
    - by destruct (table_add t k a ps p).
    - by destruct (table_remove t k p).
    - by destruct (table_set_default t a ps p).
    - by destruct (table_clear t p).
    - done.
    - done.
    - cbn [alter list_alter]. by destruct (process p f e) as [[e' g] v]. }
  rewrite IH. by destruct (serve r (p, e)) as [[p' e'] o].
Qed.

(** What a pipeline without engine state was told. *)
Lemma served_told `{TableOps T} `{Engine T unit} rs (s : T) :
  (serve_state rs (s, tt)).1 = told (events rs) s.
Proof.
  revert s. induction rs as [| r rs IH]; intros s; [done |]. unfold serve_state, told. cbn [foldl].
  change (foldl _ (serve r (s, tt)).1 rs) with (serve_state rs (serve r (s, tt)).1).
  destruct (serve r (s, tt)) as [[s' []] o] eqn:Er. cbn [fst]. rewrite IH. unfold told.
  destruct r as [t k a ps | t k | t a ps | t | t | t | f]; cbn [serve events omap list_omap event_of_request foldl tell] in Er |- *.
  - destruct (table_add t k a ps s). by injection Er as -> _.
  - destruct (table_remove t k s). by injection Er as -> _.
  - destruct (table_set_default t a ps s). by injection Er as -> _.
  - destruct (table_clear t s). by injection Er as -> _.
  - by injection Er as -> _.
  - by injection Er as -> _.
  - destruct (process s f tt) as [[[] g] v]. by injection Er as -> _.
Qed.

(** The frames an envelope lets through to what it wraps. *)
Definition admitted (env : Envelope) (r : Request) : bool :=
  match r with RFrame f => admits (env_admit env) (frame f) | _ => true end.

Definition through (env : Envelope) (rs : list Request) : list Request := filter (fun r => admitted env r = true) rs.

Lemma serve_enveloped `{TableOps P} `{Engine P E} env rs (p : P) (e : E) :
  serve_state rs ({| e_envelope := env; e_inner := p |}, {| ee_envelope := env; ee_inner := e |}) =
  let '(p', e') := serve_state (through env rs) (p, e) in
  ({| e_envelope := env; e_inner := p' |}, {| ee_envelope := env; ee_inner := e' |}).
Proof.
  revert p e. induction rs as [| r rs IH]; intros p e; [done |]. unfold serve_state, through. cbn [foldl].
  rewrite filter_cons.
  change (foldl _ (serve r ?s).1 rs) with (serve_state rs (serve r s).1).
  destruct r as [t k a ps | t k | t a ps | t | t | t | f]; cbn [admitted serve];
    try (rewrite decide_True by done; cbn [foldl serve]).
  - cbn [table_add Enveloped_TableOps lift e_inner e_envelope]. destruct (table_add t k a ps p) as [p' x]. apply IH.
  - cbn [table_remove Enveloped_TableOps lift e_inner e_envelope]. destruct (table_remove t k p) as [p' x]. apply IH.
  - cbn [table_set_default Enveloped_TableOps lift e_inner e_envelope]. destruct (table_set_default t a ps p) as [p' x]. apply IH.
  - cbn [table_clear Enveloped_TableOps lift e_inner e_envelope]. destruct (table_clear t p) as [p' x]. apply IH.
  - apply IH.
  - apply IH.
  - cbn [process Enveloped_Engine]. unfold enveloped_process. cbn [ee_envelope e_inner ee_inner].
    destruct (admits _ _); cbn [fst].
    + rewrite decide_True by done. cbn [foldl serve]. destruct (process p f e) as [[e' g] v]. cbn [fst]. apply IH.
    + rewrite decide_False by done. apply IH.
Qed.

Lemma told_through `{TableOps T} env rs (s : T) : told (events (through env rs)) s = told (events rs) s.
Proof.
  revert s. unfold told, through, events. induction rs as [| r rs IH]; intros s; [done |]. rewrite filter_cons.
  destruct r as [t k a ps | t k | t a ps | t | t | t | f]; cbn [admitted];
    try (rewrite decide_True by done; cbn [omap list_omap event_of_request foldl]; apply IH).
  case_decide; cbn [omap list_omap event_of_request foldl tell]; apply IH.
Qed.

(** ** The native side *)

Lemma native_l2_frame params rs f :
  Z.of_nat (length rs) < 2 ^ 64 - 1 ->
  let '(p, e) := serve_state rs (L2.new params, engine (L2.new params)) in
  ((process p f e).1.2, (process p f e).2) =
    ((process (told (events rs) L2.spec_new) f tt).1.2, (process (told (events rs) L2.spec_new) f tt).2).
Proof.
  intros Hn. destruct (serve_state_sim L2.sim (length rs)) with (rs := rs) (n := 0%nat)
    (s1 := (L2.new params, engine (L2.new params))) (s2 := (L2.spec_new, tt)) as (n & Hle & Hs).
  - intros n s1 s2 r HR Hlt. apply (L2.l2_sim_step n s1 s2 r); [lia | done].
  - split; [apply view_new | done].
  - lia.
  - rewrite <- (served_told (T := L2.Spec)). destruct (serve_state rs (L2.new params, _)) as [p e].
    destruct (serve_state rs (L2.spec_new, tt)) as [s []]. cbn [fst].
    destruct (L2.l2_sim_frame n p e s f ltac:(lia) Hs) as (-> & -> & _). done.
Qed.

Lemma native_l3_frame params rs f :
  Z.of_nat (length rs) < 2 ^ 64 - 1 ->
  let '(p, e) := serve_state rs (L3.new params, engine (L3.new params)) in
  ((process p f e).1.2, (process p f e).2) =
    ((process (told (events rs) L3.spec_new) f tt).1.2, (process (told (events rs) L3.spec_new) f tt).2).
Proof.
  intros Hn. destruct (serve_state_sim L3.sim (length rs)) with (rs := rs) (n := 0%nat)
    (s1 := (L3.new params, engine (L3.new params))) (s2 := (L3.spec_new, tt)) as (n & Hle & Hs).
  - intros n s1 s2 r HR Hlt. apply (L3.l3_sim_step n s1 s2 r); [lia | done].
  - split; [apply view_new | split; [apply Lpm.wf_new | done]].
  - lia.
  - rewrite <- (served_told (T := L3.Spec)). destruct (serve_state rs (L3.new params, _)) as [p e].
    destruct (serve_state rs (L3.spec_new, tt)) as [s []]. cbn [fst].
    destruct (L3.l3_sim_frame n p e s f ltac:(lia) Hs) as (-> & -> & _). done.
Qed.

(** ** The compiled side *)

Section compiled.
Context {BV : Type} `{HB : Bitvec BV} `{HP : !P4rt BV} {bits : BV -> list bool} {head_ : BV -> nat} {view : Key -> KeyView} {off : Packet -> nat}.
Context {HL : BitvecLaws BV bits head_} {HR : P4rtLaws BV bits head_ view off}.

(** What the only shard of a trace holds at its next frame. *)
Lemma served_holds `{P4rsLaws Pipe d good contents} params rs p e :
  ids_distinct d -> Forall agreeable rs -> Z.of_nat (length rs) < 2 ^ 64 - 2 ->
  serve_state rs (x4c_new d params, x4c_engine (x4c_new d params)) = (p, e) ->
  e_desc (sync (journal p) e) = d /\
  holds_entries (d := d) (good := good) (contents := contents) (pipe (sync (journal p) e)) (spec_events (d_schemas d) (events rs)).
Proof.
  intros Hids Hag Hn Hrs. pose proof (run_served rs (x4c_new d params) (x4c_engine (x4c_new d params))) as Hrun.
  rewrite Hrs in Hrun. assert (run_events d params (XSpawn :: events rs) = (p, [e])) as He by exact Hrun.
  destruct (agreeable_events rs Hag) as (_ & _ & Hok). pose proof (length_events rs).
  pose proof (shards_hold (d := d) params (XSpawn :: events rs) 0 e Hids ltac:(by constructor) ltac:(cbn [length]; lia)) as Hh.
  rewrite He in Hh. specialize (Hh eq_refl). exact Hh.
Qed.

Lemma compiled_l2_frame params rs f :
  Forall agreeable rs -> Z.of_nat (length rs) < 2 ^ 64 - 2 -> ok f ->
  let '(p, e) := serve_state rs (x4c_new X2.compiled params, x4c_engine (x4c_new (X2.compiled (BV := BV)) params)) in
  ((process p f e).1.2, (process p f e).2) =
    ((process (told (events rs) L2.spec_new) f tt).1.2, (process (told (events rs) L2.spec_new) f tt).2).
Proof.
  intros Hag Hn Ho. destruct (serve_state rs _) as [p e] eqn:E.
  destruct (served_holds (d := X2.compiled) params rs p e (proj1 (Forall_inv (shipped_ids _))) Hag Hn E) as [Hd Hh].
  destruct (agreeable_events rs Hag) as (Hp & _ & _).
  destruct (X2.run_native _ _ f _ Hd Hh (X2.l2_same_told _ Hp) Ho) as [Hf Hv].
  cbn [process X4c_Engine]. unfold x4c_process. by rewrite Hf, Hv.
Qed.

Lemma compiled_l3_frame params rs f :
  Forall agreeable rs -> Z.of_nat (length rs) < 2 ^ 64 - 2 -> ok f ->
  let '(p, e) := serve_state rs (x4c_new X3.compiled params, x4c_engine (x4c_new (X3.compiled (BV := BV)) params)) in
  ((process p f e).1.2, (process p f e).2) = run_frame X3.l3_compiled (told (events rs) L3.spec_new) f.
Proof.
  intros Hag Hn Ho. destruct (serve_state rs _) as [p e] eqn:E.
  destruct (served_holds (d := X3.compiled) params rs p e (proj1 (Forall_inv (Forall_inv_tail (shipped_ids _)))) Hag Hn E) as [Hd Hh].
  destruct (agreeable_events rs Hag) as (Hp & Hk & _).
  exact (X3.run_compiled _ _ f _ Hd Hh (X3.l3_same_told _ Hp Hk) Ho).
Qed.
End compiled.

(** ** Properties *)

(** C2: the backend does not matter.  A program loaded native and the same
    program loaded as x4c compiled it, told the same requests and given the
    same frames in the same order, give the next frame the same verdict and
    leave it with the same bytes: for l2fwd any frame, for l3fwd any frame
    whose fragment offset is zero.  The requests may be any that set no
    default, name no reserved port and spell prefixes without host bits. *)
Theorem backends_agree {BV M} `{HB : Bitvec BV} `{HP : !P4rt BV} `{HM : Rbpf M} {bits head_ view off}
    `{!BitvecLaws BV bits head_} `{!P4rtLaws BV bits head_ view off}
    (jit : bool) (program : Program) (params : PipelineParams) (rs : list Request) f o o' :
  Forall agreeable rs -> Z.of_nat (length rs) < 2 ^ 64 - 2 -> ok f ->
  (program = PL3Fwd -> X3.offset_zero (frame f)) ->
  Load.build (BV := BV) (M := M) jit (P4 program Native) params = Some o ->
  Load.build (BV := BV) (M := M) jit (P4 program X4c) params = Some o' ->
  obj_frame o' rs f = obj_frame o rs f.
Proof.
  intros Hag Hn Ho Hz [= <-] [= <-]. destruct program.
  - pose proof (native_l2_frame params rs f ltac:(lia)) as Hnat. pose proof (compiled_l2_frame (BV := BV) params rs f Hag Hn Ho) as Hcomp.
    cbn [Load.native Load.x4c envelope]. change (wrap IDENTITY ?o) with o. unfold obj_frame.
    change (engine (x4c_new ?d ?p)) with (x4c_engine (x4c_new d p)). fold (X2.compiled (BV := BV)).
    destruct (serve_state rs (x4c_new _ _, _)) as [p1 e1]. destruct (serve_state rs (L2.new params, _)) as [p2 e2].
    rewrite <- Hnat in Hcomp. destruct (process p1 f e1) as [[e1' g1] v1], (process p2 f e2) as [[e2' g2] v2]. exact Hcomp.
  - pose proof (native_l3_frame params rs f ltac:(lia)) as Hnat. set (env := envelope PL3Fwd) in *.
    assert (length (through env rs) <= length rs)%nat as Hlen by apply length_filter.
    assert (Forall agreeable (through env rs)) as Hag' by (rewrite Forall_forall in Hag |- *; intros r [_ Hr]%list_elem_of_filter; auto).
    pose proof (compiled_l3_frame (BV := BV) params (through env rs) f Hag' ltac:(lia) Ho) as Hcomp.
    rewrite told_through in Hcomp. set (s := told (events rs) L3.spec_new) in *.
    destruct (agreeable_events rs Hag) as (Hp & Hk & _). pose proof (X3.same_unreserved _ _ (X3.l3_same_told _ Hp Hk)) as Hu.
    pose proof (l3_enveloped s f Ho Hu) as Hspec. fold env in Hspec.
    assert (up4_frame env X3.l3_compiled s f = up4_frame env l3_program s f) as E
      by (unfold up4_frame; by rewrite X3.run_program by auto).
    cbn [Load.native Load.x4c]. unfold wrap. rewrite decide_False by done. unfold obj_frame.
    change (engine {| e_envelope := env; e_inner := ?x |}) with {| ee_envelope := env; ee_inner := x4c_engine x |}.
    rewrite serve_enveloped. fold (X3.compiled (BV := BV)).
    destruct (serve_state (through env rs) (x4c_new _ _, _)) as [p1 e1]. destruct (serve_state rs (L3.new params, _)) as [p2 e2].
    destruct (process p2 f e2) as [[e2' g2] v2]. rewrite Hspec, <- E in Hnat. cbn [fst snd] in Hnat.
    rewrite <- surjective_pairing in Hnat. rewrite Hnat. cbn [process Enveloped_Engine].
    unfold enveloped_process, up4_frame. cbn [ee_envelope e_inner ee_inner]. destruct (admits _ _); [| done]. rewrite <- Hcomp.
    destruct (process p1 f e1) as [[e1' g1] v1]. cbn [fst snd]. by destruct v1.
Qed.

(** A trace for the sample route, with a frame and a query in it. *)
Definition sample_trace : list Request :=
  let net := KeyLpm (ValIpv4 (ip_of [U8 10; U8 0; U8 0; U8 0])) (U8 8) in
  [RFrame (routed_frame (U8 0)); RAdd "ipv4_lpm" net "forward" [ValU16 (U16 1); ValMac (mac_of (replicate 6 (U8 2)))]; RDump "ipv4_lpm"].

#[local] Existing Instance Toy.machine.

Lemma backends_agree_witness :
  exists o o', Load.build (BV := BitVec) (M := unit) false (P4 PL3Fwd Native) {| vports := [] |} = Some o /\
    Load.build (BV := BitVec) (M := unit) false (P4 PL3Fwd X4c) {| vports := [] |} = Some o' /\
    obj_frame o' sample_trace (routed_frame (U8 0)) = obj_frame o sample_trace (routed_frame (U8 0)) /\
    (obj_frame o sample_trace (routed_frame (U8 0))).2 = Forward (U16 1).
Proof.
  eexists _, _. split; [reflexivity |]. split; [reflexivity |]. split; [| vm_compute; reflexivity].
  apply (backends_agree (HP := BitVec_P4rt) (M := unit) (bits := bv_bits) (head_ := bv_head) (view := id) (off := snd) false PL3Fwd {| vports := [] |}).
  - apply Forall_cons_2; [split; [unfold ok; vm_compute; lia | done] |].
    apply Forall_cons_2; [| by apply Forall_cons_2]. split; [done |]. split.
    + intros port [= <-]. split; intros E; apply (f_equal uv) in E; vm_compute in E; done.
    + split; [vm_compute; discriminate | apply uint_eq; vm_compute; reflexivity].
  - cbn [sample_trace length]. lia.
  - unfold ok. vm_compute. lia.
  - intros _. split; vm_compute; reflexivity.
  - reflexivity.
  - reflexivity.
Defined.
