(* ===== verification/Turn.v ===== *)
(** * What a shard's turn keeps (crates/up4-io/src/shard.rs)

    Two facts about whole turns that the node needs: a shard looks at its engine
    only to process a frame, so everything else it does commutes with replacing
    the engine; and a turn keeps the shard's invariant, the punt queue's, the
    sizes of the receive slots, and leaves nothing staged. *)

From S2P Require Import Prelude Bytes Shim Frame Engine Wire Tx Config Metrics Punt Socket Shard.

Local Open Scope Z_scope.

(** ** Everything but the engine *)

Section reframe.
Context `{HA : Addr A} `{HS : !Udp A K} (params : ShardParams A).

(** [st] with another engine and punt queue. *)
Definition reframe {E1 E2} (e : E2) (r : option Ring) (st : Shard E1 K) : Shard E2 K :=
  Build_Shard (sh_socket st) e (sh_metrics st) r (sh_tx st) (sh_rx_seq st) (sh_tx_seq st).

Definition retype {E1 E2} (e : E2) (st : Shard E1 K) : Shard E2 K := reframe e (sh_punt st) st.

Lemma reframe_id {E} (st : Shard E K) : reframe (sh_engine st) (sh_punt st) st = st.
Proof. by destruct st. Qed.

Lemma send_reframe {E1 E2} (e : E2) r t (st : Shard E1 K) :
  send t (reframe e r st) = (reframe e r (send t st).1, (send t st).2).
Proof.
  unfold send. cbn [sh_socket reframe]. destruct (fabric_send t (sh_socket st)) as [s [u | err]]; [done |].
  destruct err; try done. by destruct (fabric_send t s) as [s' [u | err]].
Qed.

Lemma send_run_reframe {E1 E2} (e : E2) r dest q run (st : Shard E1 K) n :
  send_run dest q (reframe e r st, n) run = (reframe e r (send_run dest q (st, n) run).1, (send_run dest q (st, n) run).2).
Proof. unfold send_run. cbn [fst snd]. rewrite send_reframe. by destruct (send _ st) as [st' []]. Qed.

Lemma send_runs_reframe {E1 E2} (e : E2) r dest q rs : forall (st : Shard E1 K) n,
  foldl (send_run dest q) (reframe e r st, n) rs =
    (reframe e r (foldl (send_run dest q) (st, n) rs).1, (foldl (send_run dest q) (st, n) rs).2).
Proof.
  induction rs as [| x rs IH]; intros st n; [done |]. cbn [foldl]. rewrite send_run_reframe.
  destruct (send_run dest q (st, n) x) as [st' n']. apply IH.
Qed.

Lemma flush_reframe {E1 E2} (e : E2) r i (st : Shard E1 K) :
  flush params i (reframe e r st) = reframe e r (flush params i st).
Proof.
  unfold flush. cbn [sh_tx reframe]. destruct (sh_tx st !! vidx_get i) as [q |]; [| done].
  destruct (vt_get _ i) as [vp |]; [| done]. destruct (q_is_empty q); [done |].
  change (count (mrecord TxBatchSize (q_len q)) (reframe e r st)) with (reframe e r (count (mrecord TxBatchSize (q_len q)) st)).
  cbn [sh_socket reframe count]. rewrite send_runs_reframe.
  destruct (foldl _ _ _) as [st' n]. cbn [fst snd]. by destruct (_ =? _)%nat.
Qed.

Lemma flush_all_reframe {E1 E2} (e : E2) r (st : Shard E1 K) :
  flush_all params (reframe e r st) = reframe e r (flush_all params st).
Proof.
  unfold flush_all. generalize (fanout params). intros l. revert st.
  induction l as [| i l IH]; intros st; [done |]. cbn [foldl]. rewrite <- IH. f_equal.
  cbn [sh_tx reframe]. destruct (sh_tx st !! vidx_get i) as [q |]; [| done]. destruct (q_is_empty q); [done |].
  apply flush_reframe.
Qed.

Lemma stage_reframe {E1 E2} (e : E2) r frame id now i (st : Shard E1 K) :
  stage params frame id now (reframe e r st) i = reframe e r (stage params frame id now st i).
Proof.
  unfold stage. cbn [sh_tx reframe].
  assert (match sh_tx st !! vidx_get i with
          | Some q => if q_is_full q then flush params i (reframe e r st) else reframe e r st
          | None => reframe e r st
          end = reframe e r (match sh_tx st !! vidx_get i with
                             | Some q => if q_is_full q then flush params i st else st
                             | None => st
                             end)) as ->.
  { destruct (sh_tx st !! vidx_get i) as [q |]; [| done]. destruct (q_is_full q); [apply flush_reframe | done]. }
  set (st1 := match sh_tx st !! vidx_get i with Some q => _ | None => st end).
  cbn [sh_tx sh_tx_seq reframe]. destruct (sh_tx st1 !! vidx_get i) as [q |]; [| done].
  destruct (sh_tx_seq st1 !! vidx_get i) as [seq |]; [| done]. by destruct (q_push _ _ _) as [q' []].
Qed.

Lemma flood_reframe {E1 E2} (e : E2) r frame ingress id now l : forall (st : Shard E1 K),
  foldl (fun st egress => if bool_decide (egress = ingress) then st else stage params frame id now st egress) (reframe e r st) l =
  reframe e r (foldl (fun st egress => if bool_decide (egress = ingress) then st else stage params frame id now st egress) st l).
Proof.
  induction l as [| i l IH]; intros st; [done |]. cbn [foldl]. rewrite <- IH. f_equal.
  case_bool_decide; [done | apply stage_reframe].
Qed.

(** Dispatching reads the punt queue, but not the engine. *)
Lemma dispatch_retype {E1 E2} (e : E2) v frame ingress id now (st : Shard E1 K) :
  dispatch params v frame ingress id now (retype e st) = retype e (dispatch params v frame ingress id now st).
Proof.
  assert (forall l (st : Shard E1 K),
    sh_punt (foldl (fun st egress => if bool_decide (egress = ingress) then st else stage params frame id now st egress) st l)
      = sh_punt st) as Hflood.
  { intros l st'. by rewrite <- (reframe_id st') at 1; rewrite flood_reframe. }
  destruct v as [port | | |]; cbn [dispatch].
  - destruct (idx_of_id _ port) as [i |]; [| done]. unfold retype. rewrite stage_reframe. f_equal.
    by rewrite <- (reframe_id st) at 2; rewrite stage_reframe.
  - unfold retype.
    change (count (vbump ingress TxBroadcast) (reframe e (sh_punt st) st))
      with (reframe e (sh_punt st) (count (vbump ingress TxBroadcast) st)).
    rewrite flood_reframe. f_equal. by rewrite Hflood.
  - cbn [sh_punt retype reframe]. destruct (sh_punt st) as [r |]; [| done]. by destruct (punt_push _ _ _ r) as [r' []].
  - done.
Qed.
End reframe.

(** ** The kernel's side of a socket *)

(** What is relied on: what a socket can coalesce is settled when it is bound,
    and a read is no longer than the buffer it was given. *)
Class UdpLaws (A K : Type) `{Udp A K} (mtu : nat) := {
  udp_send_caps t s : caps (udp_try_send t s).1 = caps s;
  udp_recv_caps s : caps (udp_recv s).1 = caps s;
  udp_poll_caps e s : caps (udp_poll e s).1 = caps s;
  udp_recv_fits s reads :
    (udp_recv s).2 = Ok reads ->
    Forall (fun x => (rm_len x.2 <= (OVERLAY_HDR_LEN + mtu) * (gro_segments (caps s) `max` 1))%nat) reads;
  udp_gro_small s : Z.of_nat (gro_segments (caps s)) <= 65535;
}.

Section sockets.
Context {A K : Type} {mtu : nat} `{UdpLaws A K mtu}.

Lemma wait_caps e s : caps (wait e s).1 = caps s.
Proof.
  unfold wait. pose proof (udp_poll_caps e s) as Hc. destruct (udp_poll e s) as [s' [u | err]]; [done |].
  by destruct err.
Qed.

Lemma fabric_send_caps t s : caps (fabric_send t s).1 = caps s.
Proof.
  unfold fabric_send. pose proof (udp_send_caps t s) as Hc. destruct (udp_try_send t s) as [s' [u | err]]; [done |].
  destruct err; try done. pose proof (wait_caps POLLOUT s') as Hw. destruct (wait POLLOUT s') as [s2 [u | e]]; cbn in *; [| congruence].
  rewrite udp_send_caps. congruence.
Qed.

Lemma fabric_recv_spec s :
  caps (fabric_recv s).1 = caps s /\
  forall reads, (fabric_recv s).2 = Ok reads ->
    Forall (fun x => (rm_len x.2 <= (OVERLAY_HDR_LEN + mtu) * (gro_segments (caps s) `max` 1))%nat) reads.
Proof.
  unfold fabric_recv. pose proof (udp_recv_caps s) as Hc. pose proof (udp_recv_fits s) as Hf.
  destruct (udp_recv s) as [s' [u | err]]; [done |]. cbn in Hc. destruct err; try done.
  pose proof (wait_caps POLLIN s') as Hw. destruct (wait POLLIN s') as [s2 [u | e]]; cbn in *; [| by split; [congruence |]].
  rewrite udp_recv_caps. split; [congruence |]. intros reads Hr. pose proof (udp_recv_fits s2 reads Hr) as H2.
  by rewrite Hw, Hc in H2.
Qed.
End sockets.

(** ** The invariant through a turn *)

Section keeps.
Context `{HA : Addr A} `{HE : Engine P E} `{HS : !Udp A K} {HL : EngineLaws P E}.
Variable params : ShardParams A.
Context {HK : UdpLaws A K (sp_inner_mtu params)}.
Hypothesis mtu_fits : Z.of_nat (segment_len (sp_inner_mtu params)) <= 65535.
Hypothesis topology_built : exists entries errs, build entries errs = (errs, Some (topology params)).
Implicit Types st : Shard E K.

(** The punt queue is one. *)
Definition punt_ok (r : option Ring) : Prop :=
  match r with Some r => exists q, ring_holds (sp_inner_mtu params) PUNT_DEPTH r q | None => True end.

(** What no step changes: the punt queue stays one, and the socket's bounds are
    those it was bound with. *)
Definition keeps st st' : Prop :=
  (punt_ok (sh_punt st) -> punt_ok (sh_punt st')) /\ caps (sh_socket st') = caps (sh_socket st).

Lemma keeps_refl st : keeps st st.
Proof. done. Qed.

Lemma keeps_trans st1 st2 st3 : keeps st1 st2 -> keeps st2 st3 -> keeps st1 st3.
Proof. intros [H1 H2] [H3 H4]. split; [auto | congruence]. Qed.

Lemma keeps_foldl {B} (f : Shard E K -> B -> Shard E K) l :
  (forall st b, keeps st (f st b)) -> forall st, keeps st (foldl f st l).
Proof.
  intros Hf. induction l as [| b l IH]; intros st; [done |]. cbn [foldl]. by eapply keeps_trans; [apply Hf |].
Qed.

Lemma send_caps t st : caps (sh_socket (send t st).1) = caps (sh_socket st).
Proof.
  unfold send. pose proof (fabric_send_caps t (sh_socket st)) as Hc. destruct (fabric_send t (sh_socket st)) as [s [u | err]]; [done |].
  cbn in Hc. destruct err; try done. pose proof (fabric_send_caps t s) as Hc'.
  destruct (fabric_send t s) as [s' [u | err]]; cbn in *; congruence.
Qed.

Lemma send_runs_caps dest q rs : forall st n, caps (sh_socket (foldl (send_run dest q) (st, n) rs).1) = caps (sh_socket st).
Proof.
  induction rs as [| r rs IH]; intros st n; [done |]. cbn [foldl]. unfold send_run at 2. cbn [fst snd].
  pose proof (send_caps (transmit_of dest q r) st) as Hc. destruct (send _ st) as [st' ok]. by rewrite IH.
Qed.

Lemma flush_punt i st : sh_punt (flush params i st) = sh_punt st.
Proof. by rewrite <- (reframe_id st) at 1; rewrite flush_reframe. Qed.

Lemma stage_punt frame id now i st : sh_punt (stage params frame id now st i) = sh_punt st.
Proof. by rewrite <- (reframe_id st) at 1; rewrite stage_reframe. Qed.

Lemma flush_caps i st : caps (sh_socket (flush params i st)) = caps (sh_socket st).
Proof.
  unfold flush. destruct (sh_tx st !! _) as [q |]; [| done]. destruct (vt_get _ i) as [vp |]; [| done].
  destruct (q_is_empty q); [done |].
  pose proof (send_runs_caps (vp_peer vp) q (runs (max_gso_segments (caps (sh_socket (count (mrecord TxBatchSize (q_len q)) st)))) q)
    (count (mrecord TxBatchSize (q_len q)) st) 0%nat) as Hc.
  destruct (foldl _ _ _) as [st' n]. cbn in Hc. by destruct (_ =? _)%nat.
Qed.

Lemma stage_caps frame id now i st : caps (sh_socket (stage params frame id now st i)) = caps (sh_socket st).
Proof.
  unfold stage.
  assert (caps (sh_socket (match sh_tx st !! vidx_get i with
          | Some q => if q_is_full q then flush params i st else st | None => st end)) = caps (sh_socket st)) as Hc.
  { destruct (sh_tx st !! _) as [q |]; [| done]. destruct (q_is_full q); [apply flush_caps | done]. }
  revert Hc. generalize (match sh_tx st !! vidx_get i with
          | Some q => if q_is_full q then flush params i st else st | None => st end). intros st1 Hc.
  destruct (sh_tx st1 !! _) as [q |]; [| done]. destruct (sh_tx_seq st1 !! _) as [seq |]; [| done].
  by destruct (q_push _ _ _) as [q' []].
Qed.

Lemma stage_keeps frame id now i st : keeps st (stage params frame id now st i).
Proof. split; [by rewrite stage_punt | apply stage_caps]. Qed.

Lemma flush_keeps i st : keeps st (flush params i st).
Proof. split; [by rewrite flush_punt | apply flush_caps]. Qed.

Lemma push_punt_ok frame id now r : punt_ok (Some r) -> punt_ok (Some (punt_push frame id now r).1).
Proof.
  intros [q Hq]. pose proof (push_holds _ _ _ _ frame id now Hq) as H1. destruct (length q =? PUNT_DEPTH)%nat.
  - rewrite H1. by exists q.
  - destruct H1 as [H1 _]. by eexists.
Qed.

Lemma dispatch_keeps v frame ingress id now st : keeps st (dispatch params v frame ingress id now st).
Proof.
  destruct v as [port | | |]; cbn [dispatch].
  - destruct (idx_of_id _ port) as [e |]; [apply stage_keeps | done].
  - eapply keeps_trans; [| apply keeps_foldl]; [done |]. intros st' i. case_bool_decide; [done | apply stage_keeps].
  - destruct (sh_punt st) as [r |] eqn:Er.
    + pose proof (push_punt_ok frame id now r) as Hr. destruct (punt_push _ _ _ r) as [r' pushed]. cbn in Hr.
      unfold keeps. rewrite Er. by destruct pushed.
    + unfold keeps. cbn. by rewrite Er.
  - done.
Qed.

Lemma receive_segment_keeps ingress id len stride now acc kp :
  keeps acc.1 (receive_segment params ingress id len stride now acc kp).1.
Proof.
  destruct acc as [st slot], kp as [k p]. cbn [receive_segment]. destruct (Wire.decode _) as [hdr |]; [| done].
  destruct (observe _ _) as [event tracker]. destruct (frame_new _ _ _ _ _) as [ctx |]; [| done].
  cbn [sh_engine count set_rx_seq]. destruct (process _ _ _) as [[e ctx'] v].
  destruct (negb _ && _); [done |]. cbn [fst].
  eapply keeps_trans; [| apply dispatch_keeps]. done.
Qed.

Lemma receive_keeps tables slot meta now st : keeps st (receive params tables slot meta now st).1.
Proof.
  unfold receive. destruct (_ =? 0)%nat; [done |]. destruct (idx_of_peer _ _) as [ingress |]; [| done].
  destruct (vt_get _ ingress) as [vp |]; [| done].
  set (st1 := count _ st). assert (keeps st st1) as H1 by done. clearbody st1.
  generalize ((fun k => (k, tables k)) <$> seq 0 (div_ceil (rm_len meta) (if (rm_stride meta =? 0)%nat then rm_len meta else rm_stride meta))).
  intros l. eapply keeps_trans; [exact H1 |]. clear H1 st. revert st1 slot.
  induction l as [| kp l IH]; intros st slot; [done |]. cbn [foldl].
  pose proof (receive_segment_keeps ingress (vport_id (vp_id vp)) (rm_len meta)
    (if (rm_stride meta =? 0)%nat then rm_len meta else rm_stride meta) now (st, slot) kp) as H1.
  destruct (receive_segment _ _ _ _ _ _ _ _) as [st1 slot1]. eapply keeps_trans; [exact H1 | apply IH].
Qed.

Lemma flush_all_keeps st : keeps st (flush_all params st).
Proof.
  unfold flush_all. apply keeps_foldl. intros st' i. destruct (sh_tx st' !! _) as [q |]; [| done].
  destruct (q_is_empty q); [done | apply flush_keeps].
Qed.

(** *** The shard's invariant *)

Lemma receive_ok tables slot meta now st :
  shard_ok params st -> (HEADROOM + rm_len meta <= length slot)%nat -> Z.of_nat (length slot) <= usize_max ->
  shard_ok params (receive params tables slot meta now st).1 /\
  length (receive params tables slot meta now st).2 = length slot.
Proof.
  intros Ho Hslot Husz. unfold receive. fold (stride_of meta). destruct (Nat.eqb_spec (rm_len meta) 0) as [| H0]; [done |].
  change (div_ceil (rm_len meta) (stride_of meta)) with (segments_of meta).
  set (st1 := count (mrecord GroSegmentsPerRead (segments_of meta)) st).
  assert (shard_ok params st1) as Ho1 by (by eapply (shard_ok_same params st _ [MRecord GroSegmentsPerRead (segments_of meta)])).
  destruct (topology_facts params topology_built) as (_ & Hpeer & _). destruct (idx_of_peer _ _) as [ingress |] eqn:Ei.
  - destruct (Hpeer _ _ Ei) as (vp & Hvp & _). rewrite Hvp.
    assert (0 < stride_of meta)%nat as Hst by (unfold stride_of; destruct (Nat.eqb_spec (rm_stride meta) 0); lia).
    pose proof (receive_loop params mtu_fits topology_built ingress (vport_id (vp_id vp)) (rm_len meta) (stride_of meta) now tables 0
      (segments_of meta) st1 slot Ho1 ltac:(by apply lookup_lt_Some in Hvp) Hst
      ltac:(intros k Hk; apply (div_ceil_lt params mtu_fits); [done | apply Hk]) Hslot Husz) as Hl.
    destruct (foldl _ _ _) as [st' slot']. by destruct Hl as (H1 & [H2 _] & _).
  - split; [| done]. by eapply (shard_ok_same params st1 _ [MAdd RxUnknownPeer (U64 (Z.of_nat (segments_of meta)))]).
Qed.

(** The queue of a vport holds nothing. *)
Definition idle (i : VportIdx) st : Prop := exists q, sh_tx st !! vidx_get i = Some q /\ holds q [].

Lemma flush_idle i st : shard_ok params st -> live params i -> idle i (flush params i st).
Proof.
  intros Ho Hi. destruct (shard_queue params st i Ho Hi) as (q & g & seq & Hq & Hg & _).
  destruct (flush_spec params i q g st Hi Hq Hg) as (oks & ops & _ & _ & _ & _ & _ & Htx & _).
  exists (q_clear q). rewrite Htx. split; [| by eapply holds_clear].
  apply list_lookup_insert_eq. by apply lookup_lt_Some in Hq.
Qed.

Lemma flush_idle_other i j st : shard_ok params st -> live params i -> idle j st -> idle j (flush params i st).
Proof.
  intros Ho Hi Hj. destruct (decide (vidx_get i = vidx_get j)) as [Eij | Eij].
  { apply vidx_get_eq in Eij as ->. by apply flush_idle. }
  destruct Hj as (q' & Hq' & Hh). destruct (shard_queue params st i Ho Hi) as (q & g & seq & Hq & Hg & _).
  destruct (flush_spec params i q g st Hi Hq Hg) as (oks & ops & _ & _ & _ & _ & _ & Htx & _).
  exists q'. rewrite Htx. split; [| done]. by rewrite list_lookup_insert_ne.
Qed.

Lemma flush_all_ok st :
  shard_ok params st -> shard_ok params (flush_all params st) /\ forall i, live params i -> idle i (flush_all params st).
Proof.
  intros Ho. destruct (topology_facts params topology_built) as (_ & _ & _ & Hfan).
  assert (forall l st, Forall (live params) l -> shard_ok params st ->
    let st' := foldl (fun st i => match sh_tx st !! vidx_get i with
                       | Some q => if q_is_empty q then st else flush params i st | None => st end) st l in
    shard_ok params st' /\ forall i, i ∈ l \/ idle i st -> idle i st') as Hl.
  { clear Ho Hfan st. induction l as [| i l IH]; intros st Hl Ho; cbn [foldl].
    { split; [done |]. by intros i [?%not_elem_of_nil | ?]. }
    apply Forall_cons in Hl as [Hi Hl]. destruct (shard_queue params st i Ho Hi) as (q & g & seq & Hq & Hg & _). rewrite Hq.
    destruct (q_is_empty q) eqn:Ee.
    - destruct (IH st Hl Ho) as [H1 H2]. split; [done |]. intros j [[-> | Hj]%elem_of_cons | Hj]; apply H2; [right | by left | by right].
      exists q. split; [done |]. unfold q_is_empty in Ee. apply bool_decide_eq_true_1 in Ee.
      by apply (holds_empty q g Hg) in Ee as ->.
    - destruct (IH (flush params i st) Hl ltac:(by apply flush_ok)) as [H1 H2]. split; [done |].
      intros j [[-> | Hj]%elem_of_cons | Hj]; apply H2; [right; by apply flush_idle | by left |].
      right. by apply flush_idle_other. }
  destruct (Hl (fanout params) st) as [H1 H2]; [apply Forall_forall; intros i; apply Hfan | done |].
  split; [exact H1 |]. intros i Hi. apply H2. left. by apply Hfan.
Qed.

(** *** A turn *)

(** The receive slots of a shard on this socket. *)
Definition slots_ok (arena : list bytes) st : Prop := Forall (fun s => length s = slot_len params st) arena.

Lemma slot_len_caps st st' : caps (sh_socket st') = caps (sh_socket st) -> slot_len params st' = slot_len params st.
Proof. unfold slot_len. by intros ->. Qed.

Lemma slot_small st : Z.of_nat (slot_len params st) <= usize_max.
Proof.
  unfold slot_len, HEADROOM. pose proof (udp_gro_small (sh_socket st)) as Hg. pose proof mtu_fits as Hm.
  unfold segment_len, OVERLAY_HDR_LEN in *. unfold usize_max. nia.
Qed.

Lemma receive_slots_ok tables now l : forall st touched L,
  shard_ok params st ->
  Forall (fun x => length x.2.1 = L /\ (HEADROOM + rm_len x.2.2.2 <= L)%nat) l -> Forall (fun s => length s = L) touched ->
  Z.of_nat L <= usize_max ->
  let '(st', touched') := foldl (receive_slot params tables now) (st, touched) l in
  shard_ok params st' /\ keeps st st' /\ Forall (fun s => length s = L) touched' /\
  length touched' = (length touched + length l)%nat.
Proof.
  induction l as [| [j [slot [data meta]]] l IH]; intros st touched L Ho Hl Ht Hu; cbn [foldl].
  { split_and!; [done | apply keeps_refl | done | cbn; lia]. }
  apply Forall_cons in Hl as [[H1 H2] Hl]. cbn [fst snd] in H1, H2. cbn [receive_slot fst snd].
  assert (length (copy_at HEADROOM data slot) = L) as Hc by (by rewrite length_inserts).
  destruct (receive_ok (tables j) (copy_at HEADROOM data slot) meta now st Ho) as [R1 R2]; [lia | lia |].
  pose proof (receive_keeps (tables j) (copy_at HEADROOM data slot) meta now st) as R3.
  destruct (receive _ _ _ _ _ st) as [st1 slot1]. cbn [fst snd] in *.
  specialize (IH st1 (touched ++ [slot1]) L R1 Hl). destruct (foldl _ _ l) as [st2 t2].
  destruct IH as (I1 & I2 & I3 & I4); [| done |].
  { apply Forall_app. split; [done |]. constructor; [lia | constructor]. }
  split_and!; [done | by eapply keeps_trans | done |]. rewrite I4, length_app. cbn. lia.
Qed.

(** A turn keeps the shard, its punt queue and its slots, and leaves nothing
    staged. *)
Lemma run_turn_ok tables now arena st :
  shard_ok params st -> punt_ok (sh_punt st) -> slots_ok arena st -> (forall i, live params i -> idle i st) ->
  let '(st', arena', _) := run_turn params tables now arena st in
  shard_ok params st' /\ punt_ok (sh_punt st') /\ slots_ok arena' st' /\ length arena' = length arena /\
  (forall i, live params i -> idle i st').
Proof.
  intros Ho Hp Ha Hi. unfold run_turn. destruct (fabric_recv_spec (sh_socket st)) as [Hc Hf].
  destruct (fabric_recv (sh_socket st)) as [s [reads | e]]; cbn [fst snd] in *.
  2: { split_and!; try done; [by destruct Ho |]. unfold slots_ok. by rewrite (slot_len_caps st). }
  specialize (Hf reads eq_refl). set (st1 := count (mbump SyscallsRx) (set_socket s st)).
  assert (shard_ok params st1) as Ho1 by (eapply (shard_ok_same params st _ [MAdd SyscallsRx (U64 1)]); done).
  assert (keeps st st1) as K1 by (split; [done | exact Hc]).
  pose proof (receive_slots_ok tables now (imap pair (zip arena reads)) st1 [] (slot_len params st) Ho1) as Hr.
  destruct (foldl _ _ _) as [st2 touched]. destruct Hr as (H1 & H2 & H3 & H4).
  - apply Forall_lookup. intros k x. rewrite list_lookup_imap, lookup_zip_with. destruct (arena !! k) as [slot |] eqn:Ek; [| done].
    destruct (reads !! k) as [[data meta] |] eqn:Er; [| done]. intros [= <-]. cbn [fst snd].
    unfold slots_ok in Ha. rewrite Forall_lookup in Ha. rewrite (Ha _ _ Ek). split; [done |].
    pose proof (Forall_lookup_1 _ _ _ _ Hf Er) as Hm. cbn [snd] in Hm. unfold slot_len. lia.
  - constructor.
  - apply slot_small.
  - destruct (flush_all_ok st2 H1) as [F1 F2]. pose proof (flush_all_keeps st2) as F3.
    assert (keeps st (flush_all params st2)) as Kf by (eapply keeps_trans; [exact K1 | by eapply keeps_trans]).
    cbn [length] in H4. rewrite length_imap, length_zip_with in H4. split_and!; [done | by apply Kf | | | done].
    + unfold slots_ok. rewrite (slot_len_caps st) by apply Kf. apply Forall_app. split; [done |]. by apply Forall_drop.
    + rewrite length_app, length_drop. lia.
Qed.
End keeps.

(** ** The same turn over two pipelines *)

Section alike.
Context `{HA : Addr A} `{HS : !Udp A K} `{HE1 : Engine P1 E1} `{HE2 : Engine P2 E2} (params : ShardParams A).
Variable R : P1 * E1 -> P2 * E2 -> Prop.
Variables (p1 : P1) (p2 : P2).

(** Related engines decide alike, and stay related. *)
Hypothesis process_alike : forall e1 e2 f,
  R (p1, e1) (p2, e2) ->
  (process p1 f e1).1.2 = (process p2 f e2).1.2 /\ (process p1 f e1).2 = (process p2 f e2).2 /\
  R (p1, (process p1 f e1).1.1) (p2, (process p2 f e2).1.1).

(** Two shards that differ in their engines, which are related. *)
Definition alike (st1 : Shard E1 K) (st2 : Shard E2 K) : Prop :=
  exists e2, st2 = retype e2 st1 /\ R (p1, sh_engine st1) (p2, e2).

(** A step that does not look at the engine. *)
Lemma alike_step (f1 : Shard E1 K -> Shard E1 K) (f2 : Shard E2 K -> Shard E2 K) st1 st2 :
  (forall e, f2 (retype e st1) = retype e (f1 st1)) -> sh_engine (f1 st1) = sh_engine st1 ->
  alike st1 st2 -> alike (f1 st1) (f2 st2).
Proof. intros Hf He (e2 & -> & HR). exists e2. by rewrite Hf, He. Qed.

Lemma dispatch_engine {E} v frame ingress id now (st : Shard E K) :
  sh_engine (dispatch params v frame ingress id now st) = sh_engine st.
Proof.
  assert (retype (sh_engine st) st = st) as Hst by apply reframe_id.
  rewrite <- Hst at 1. by rewrite dispatch_retype.
Qed.

Lemma flush_all_engine {E} (st : Shard E K) : sh_engine (flush_all params st) = sh_engine st.
Proof. rewrite <- (reframe_id st) at 1. by rewrite flush_all_reframe. Qed.

Lemma flush_all_punt {E} (st : Shard E K) : sh_punt (flush_all params st) = sh_punt st.
Proof. rewrite <- (reframe_id st) at 1. by rewrite flush_all_reframe. Qed.

Lemma flush_all_alike st1 st2 : alike st1 st2 -> alike (flush_all params st1) (flush_all params st2).
Proof.
  apply alike_step; [| apply flush_all_engine]. intros e. unfold retype. rewrite flush_all_reframe. f_equal.
  by rewrite flush_all_punt.
Qed.

Lemma receive_segment_alike ingress id len stride now st1 st2 slot k :
  alike st1 st2 ->
  let x1 := receive_segment params ingress id len stride now (st1, slot) (k, p1) in
  let x2 := receive_segment params ingress id len stride now (st2, slot) (k, p2) in
  alike x1.1 x2.1 /\ x1.2 = x2.2.
Proof.
  intros (e2 & -> & HR). cbn [receive_segment]. destruct (Wire.decode _) as [hdr |].
  2: { split; [| done]. by exists e2. }
  change (sh_rx_seq (retype e2 st1)) with (sh_rx_seq st1). destruct (observe _ _) as [event tracker].
  destruct (frame_new _ _ _ _ _) as [ctx |].
  2: { split; [| done]. by exists e2. }
  cbn [sh_engine count set_rx_seq retype reframe].
  destruct (process_alike (sh_engine st1) e2 ctx HR) as (H1 & H2 & H3).
  destruct (process p1 ctx (sh_engine st1)) as [[e1' g] v], (process p2 ctx e2) as [[e2' g2] v2]. cbn in H1, H2, H3. subst g2 v2.
  destruct (negb _ && _); cbn [fst snd]; (split; [| done]).
  - by exists e2'.
  - exists e2'. rewrite dispatch_engine. split; [| done]. rewrite <- dispatch_retype. done.
Qed.

Lemma receive_alike slot meta now st1 st2 :
  alike st1 st2 ->
  let x1 := receive params (fun _ => p1) slot meta now st1 in
  let x2 := receive params (fun _ => p2) slot meta now st2 in
  alike x1.1 x2.1 /\ x1.2 = x2.2.
Proof.
  intros Ha. unfold receive. destruct (_ =? 0)%nat; [done |].
  set (stride := if (rm_stride meta =? 0)%nat then rm_len meta else rm_stride meta).
  assert (forall f, alike (count f st1) (count f st2)) as Hc.
  { intros f. destruct Ha as (e2 & -> & HR). by exists e2. }
  destruct (idx_of_peer _ _) as [ingress |].
  2: { split; [| done]. specialize (Hc (mrecord GroSegmentsPerRead (div_ceil (rm_len meta) stride))).
       destruct Hc as (e2 & -> & HR). by exists e2. }
  destruct (vt_get _ ingress) as [vp |]; [| split; [apply Hc | done]].
  set (n := div_ceil (rm_len meta) stride). specialize (Hc (mrecord GroSegmentsPerRead n)).
  generalize (seq 0 n). intros l. revert Hc slot.
  generalize (count (mrecord GroSegmentsPerRead n) st1) (count (mrecord GroSegmentsPerRead n) st2). clear st1 st2 Ha.
  induction l as [| k l IH]; intros st1 st2 Ha slot; [done |]. cbn [fmap list_fmap foldl].
  destruct (receive_segment_alike ingress (vport_id (vp_id vp)) (rm_len meta) stride now st1 st2 slot k Ha) as [H1 H2].
  destruct (receive_segment _ _ _ _ _ _ (st1, slot) _) as [s1 b1], (receive_segment _ _ _ _ _ _ (st2, slot) _) as [s2 b2].
  cbn in H1, H2. subst b2. by apply IH.
Qed.

Lemma receive_slots_alike now l : forall st1 st2 touched,
  alike st1 st2 ->
  let x1 := foldl (receive_slot params (fun _ _ => p1) now) (st1, touched) l in
  let x2 := foldl (receive_slot params (fun _ _ => p2) now) (st2, touched) l in
  alike x1.1 x2.1 /\ x1.2 = x2.2.
Proof.
  induction l as [| [j [slot [data meta]]] l IH]; intros st1 st2 touched Ha; [done |]. cbn [foldl receive_slot fst snd].
  destruct (receive_alike (copy_at HEADROOM data slot) meta now st1 st2 Ha) as [H1 H2].
  destruct (receive _ _ _ _ _ st1) as [s1 b1], (receive _ _ _ _ _ st2) as [s2 b2]. cbn in H1, H2. subst b2. by apply IH.
Qed.

Lemma run_turn_alike now arena st1 st2 :
  alike st1 st2 ->
  let '(st1', arena1, r1) := run_turn params (fun _ _ => p1) now arena st1 in
  let '(st2', arena2, r2) := run_turn params (fun _ _ => p2) now arena st2 in
  alike st1' st2' /\ arena1 = arena2 /\ r1 = r2.
Proof.
  intros Ha. pose proof Ha as (e2 & E & HR). unfold run_turn. rewrite E. cbn [sh_socket retype reframe].
  destruct (fabric_recv (sh_socket st1)) as [s [reads | e]].
  2: { split_and!; try done. by exists e2. }
  assert (alike (count (mbump SyscallsRx) (set_socket s st1))
            (count (mbump SyscallsRx) (set_socket s (reframe e2 (sh_punt st1) st1)))) as Ha' by (by exists e2).
  destruct (receive_slots_alike now (imap pair (zip arena reads)) _ _ [] Ha') as [H1 H2].
  destruct (foldl _ (_, []) _) as [s1 t1], (foldl (receive_slot params (fun _ _ => p2) now) _ _) as [s2 t2]. cbn in H1, H2. subst t2.
  split_and!; [by apply flush_all_alike | done | done].
Qed.
End alike.
