(* ===== verification/Hop.v ===== *)
(** * From node to node (crates/up4-io/src/shard.rs, crates/up4-wire/src/seq.rs)

    One hop of the overlay: what a shard sends a peer, over a network that loses
    frames, into the shard that receives it.  That the receiver's counters are
    the loss of the hop composes the sender's numbering, the receiver's cutting
    of reads and the tracker; and that they are not, when the shards of a node
    number their frames apart. *)

From S2P Require Import Prelude Bytes Wire Value Frame Engine Programs Config Metrics Tx Punt Socket Shard Traffic Pktgen Turn.

Local Open Scope Z_scope.

(** ** Trackers *)

Lemma observe_all_app l1 l2 : forall t,
  observe_all t (l1 ++ l2) =
    ((observe_all t l1).1 ++ (observe_all (observe_all t l1).2 l2).1, (observe_all (observe_all t l1).2 l2).2).
Proof.
  induction l1 as [| s l1 IH]; intros t; [cbn; by destruct (observe_all t l2) |]. cbn [observe_all app].
  destruct (observe t s) as [e t1]. rewrite IH. by destruct (observe_all t1 l1).
Qed.

Lemma total_gap_app es1 es2 : total_gap (es1 ++ es2) = total_gap es1 + total_gap es2.
Proof. unfold total_gap. induction es1 as [| e es IH]; cbn [foldr app]; [done |]. rewrite IH. lia. Qed.

Lemma reorders_app es1 es2 : reorders_of (es1 ++ es2) = reorders_of es1 + reorders_of es2.
Proof. unfold reorders_of. rewrite filter_app, length_app. lia. Qed.

Lemma reorders_of_none es : Reorder ∉ es -> reorders_of es = 0.
Proof.
  intros H. unfold reorders_of. induction es as [| e es IH]; [done |]. apply not_elem_of_cons in H as [H1 H2].
  rewrite filter_cons_False by congruence. by apply IH.
Qed.

(** A gap fits the counter it is added to. *)
Lemma gap_range t s n : (observe t s).1 = Gap n -> 0 <= n < 2 ^ 64.
Proof.
  unfold observe. destruct (expected t) as [x |]; [| done].
  assert (Z.abs (Seq_delta s x) <= 2 ^ 31).
  { unfold Seq_delta, as_i32. destruct s as [s], x as [x]. cbn [Seq_get]. rewrite uv_of. word_lia. }
  destruct (_ =? 0); [done |]. destruct (0 <? _); cbn [fst]; [intros [= <-]; lia |]. by destruct (_ <=? _).
Qed.

(** ** The receiving end *)

(** A slice behind a point both lists agree from. *)
Lemma slice_drop_eq {X} (n a b : nat) (l1 l2 : list X) : drop n l1 = drop n l2 -> (n <= a)%nat -> slice a b l1 = slice a b l2.
Proof. intros H Hn. unfold slice. replace a with (n + (a - n))%nat by lia. by rewrite <- !drop_drop, H. Qed.


Section receiver.
Context `{HA : Addr A} `{HE : Engine P E} `{HS : !Udp A K} {HL : EngineLaws P E}.
Variable params : ShardParams A.
Hypothesis mtu_fits : Z.of_nat (segment_len (sp_inner_mtu params)) <= 65535.
Hypothesis topology_built : exists entries errs, build entries errs = (errs, Some (topology params)).
Implicit Types st : Shard E K.

(** The segments of a read, as they lie in its slot. *)
Definition segments (slot : bytes) (meta : RecvMeta A) : list bytes :=
  (fun k => slice (seg_start (stride_of meta) k) (seg_end (rm_len meta) (stride_of meta) k) slot) <$> seq 0 (segments_of meta).

Definition tracker_of (i : VportIdx) st : SeqTracker := default SeqTracker_new (sh_rx_seq st !! vidx_get i).

(** What hearing these numbers from a peer did. *)
Record hears (i : VportIdx) st st' (seqs : list Seq) : Prop := {
  hr_tracker : tracker_of i st' = (observe_all (tracker_of i st) seqs).2;
  hr_ops : exists ops, emits st st' ops /\
    total (to_vport (vidx_get i) RxPkts) ops = Z.of_nat (length seqs) /\
    total (to_vport (vidx_get i) RxSeqGapTotal) ops = total_gap (observe_all (tracker_of i st) seqs).1 /\
    total (to_vport (vidx_get i) RxReorder) ops = reorders_of (observe_all (tracker_of i st) seqs).1;
}.

Lemma hears_trans i st1 st2 st3 l1 l2 : hears i st1 st2 l1 -> hears i st2 st3 l2 -> hears i st1 st3 (l1 ++ l2).
Proof.
  intros [T1 (o1 & E1 & P1 & G1 & R1)] [T2 (o2 & E2 & P2 & G2 & R2)]. rewrite T1 in *. split.
  - by rewrite observe_all_app.
  - exists (o1 ++ o2). rewrite observe_all_app. cbn [fst]. rewrite !total_app, P1, P2, G1, G2, R1, R2, total_gap_app, reorders_app, length_app.
    split; [by eapply emits_trans | lia].
Qed.

(** What the counters of reception are left by. *)
Definition rx_quiet (i : VportIdx) (o : MOp) : Prop :=
  match o with MVport j c _ => vidx_get j <> vidx_get i \/ c ∉ [RxPkts; RxSeqGapTotal; RxReorder] | _ => True end.

Lemma rx_quiet_total i c ops :
  Forall (rx_quiet i) ops -> c ∈ [RxPkts; RxSeqGapTotal; RxReorder] -> total (to_vport (vidx_get i) c) ops = 0.
Proof.
  intros Hq Hc. apply total_zero. eapply Forall_impl; [exact Hq |]. intros [| j c' n |]; cbn; try done.
  intros [Hj | Hc']; rewrite bool_decide_false; try done; naive_solver.
Qed.

Lemma hears_quiet i st st' ops :
  emits st st' ops -> Forall (rx_quiet i) ops -> sh_rx_seq st' !! vidx_get i = sh_rx_seq st !! vidx_get i -> hears i st st' [].
Proof.
  intros He Hq Hs. split; [unfold tracker_of; by rewrite Hs |]. exists ops.
  rewrite !rx_quiet_total by (done || set_solver). done.
Qed.

Lemma quiet_rx i ops : Forall quiet_op ops -> Forall (rx_quiet i) ops.
Proof.
  intros H. eapply Forall_impl; [exact H |]. intros [| j c n |]; cbn; try done. intros [-> | ->]; right; set_solver.
Qed.

(** A verdict is no reception. *)
Lemma dispatch_hears i v frame ingress id now st :
  shard_ok params st -> (v <> Drop -> (length frame <= sp_inner_mtu params)%nat) ->
  hears i st (dispatch params v frame ingress id now st) [].
Proof.
  intros Hok Hf. destruct (topology_facts params topology_built) as (Hid & _ & Hnd & Hfan). destruct v as [port | | |]; cbn [dispatch].
  - destruct (idx_of_id (topology params) port) as [e |] eqn:Ei.
    + apply Hid in Ei. destruct (shard_queue params st e Hok Ei) as (q & g & seq & Hq & Hg & _ & Hs).
      destruct (stage_spec params mtu_fits st e q g seq frame id now Hok Ei ltac:(by apply Hf) Hq Hg Hs) as (q' & ops & He & Hqt & [_ _ Hr] & _).
      eapply hears_quiet; [exact He | by apply quiet_rx | by rewrite Hr].
    + by eapply (hears_quiet i st _ [MAdd TxUnknownPort (U64 1)]); [| repeat constructor |].
  - set (st1 := count (vbump ingress TxBroadcast) st).
    assert (shard_ok params st1) as Hok1 by (by eapply (shard_ok_same params st _ [MVport ingress TxBroadcast (U64 1)])).
    destruct (flood_spec params mtu_fits ingress frame id now (fanout params) st1 Hnd) as (_ & ops & I2 & I3 & [_ _ I4] & _);
      [apply Forall_forall; intros j; apply Hfan | done | by apply Hf |].
    eapply (hears_quiet i st _ (MVport ingress TxBroadcast (U64 1) :: ops)); [exact I2 | | by rewrite I4].
    constructor; [right; set_solver | by apply quiet_rx].
  - destruct (sh_punt st) as [r |]; [| by eapply (hears_quiet i st _ [MAdd PuntUnconfiguredDrop (U64 1)]); [| repeat constructor |]].
    destruct (punt_push _ _ _ r) as [r' []]; [by eapply (hears_quiet i st _ []); [| constructor |] |].
    by eapply (hears_quiet i st _ [MAdd PuntOverflowDrop (U64 1)]); [| repeat constructor |].
  - by eapply (hears_quiet i st _ [MAdd EngineDrop (U64 1)]); [| repeat constructor |].
Qed.

(** The header of an accepted frame. *)
Lemma accept_hears i ingress s n st :
  live params ingress -> length (sh_rx_seq st) = vt_len (topology params) ->
  hears i st
    (count (charge_event ingress (observe (tracker_of ingress st) s).1)
       (count (vadd ingress RxBytes n) (count (vbump ingress RxPkts) (set_rx_seq ingress (observe (tracker_of ingress st) s).2 st))))
    (if bool_decide (ingress = i) then [s] else []).
Proof.
  intros Hl Hlen. set (e := (observe _ s).1). set (t := (observe _ s).2). case_bool_decide as Hi.
  - subst i. split.
    + unfold tracker_of at 1. cbn [sh_rx_seq count set_rx_seq]. rewrite list_lookup_insert_eq by (rewrite Hlen; exact Hl).
      cbn [default observe_all]. unfold t. by destruct (observe (tracker_of ingress st) s).
    + exists ([MVport ingress RxPkts (U64 1); MVport ingress RxBytes n] ++ event_ops ingress e). split.
      { unfold emits. cbn [sh_metrics count set_rx_seq]. by rewrite charge_event_ops, foldl_app. }
      assert ((observe_all (tracker_of ingress st) [s]).1 = [e]) as ->
        by (cbn [observe_all]; unfold e; by destruct (observe (tracker_of ingress st) s)).
      assert (forall c, total (to_vport (vidx_get ingress) c) ([MVport ingress RxPkts (U64 1); MVport ingress RxBytes n] ++ event_ops ingress e)
        = (if bool_decide (c = RxPkts) then 1 else 0) + (if bool_decide (c = RxBytes) then uv n else 0)
          + total (to_vport (vidx_get ingress) c) (event_ops ingress e)) as Ht.
      { intros c. rewrite total_app. cbn [total foldr to_vport]. change (uv (U64 1)) with 1.
        rewrite !(bool_decide_ext (vidx_get ingress = vidx_get ingress /\ _) _ (conj (@proj2 _ _) (conj eq_refl))). lia. }
      rewrite !Ht. cbn [bool_decide decide decide_rel]. destruct e as [| gap |] eqn:Ee; cbn [event_ops].
      * by vm_compute.
      * pose proof (gap_range (tracker_of ingress st) s gap Ee) as Hg.
        assert (uv (U64 gap) = gap) as Hu by (apply uv_of_small; exact Hg).
        cbn [total foldr to_vport]. rewrite Hu, (bool_decide_eq_true_2 (_ /\ RxSeqGapTotal = RxSeqGapTotal)) by done.
        rewrite !(bool_decide_eq_false_2 (_ /\ _)) by naive_solver.
        change (reorders_of [Gap gap]) with 0. split_and!; [done | | done]. unfold total_gap. cbn [foldr gap_of].
        rewrite !bool_decide_eq_false_2 by done. lia.
      * cbn [total foldr to_vport]. rewrite (bool_decide_eq_true_2 (_ /\ RxReorder = RxReorder)) by done.
        rewrite !(bool_decide_eq_false_2 (_ /\ _)) by naive_solver. by vm_compute.
  - eapply (hears_quiet i st _ ([MVport ingress RxPkts (U64 1); MVport ingress RxBytes n] ++ event_ops ingress e)).
    + unfold emits. cbn [sh_metrics count set_rx_seq]. by rewrite charge_event_ops, foldl_app.
    + assert (vidx_get ingress <> vidx_get i) as Hn by (intros ?; by apply Hi, vidx_get_eq).
      destruct e; repeat (constructor; [by left |]); constructor.
    + cbn [sh_rx_seq count set_rx_seq]. apply list_lookup_insert_ne. intros ?. by apply Hi, vidx_get_eq.
Qed.

Lemma hears_engine i e st st' l : hears i (set_engine e st) st' l -> hears i st st' l.
Proof. intros [T O]. by split. Qed.

(** One segment, on the slot the segments before it left. *)
Lemma receive_segment_hears i ingress id len stride now st slot k p :
  shard_ok params st -> live params ingress -> (0 < stride)%nat -> (k * stride < len)%nat -> (HEADROOM + len <= length slot)%nat ->
  Z.of_nat (length slot) <= usize_max ->
  hears i st (receive_segment params ingress id len stride now (st, slot) (k, p)).1
    (if bool_decide (ingress = i) then numbers_of [slice (seg_start stride k) (seg_end len stride k) slot] else []).
Proof.
  intros Hok Hin Hst Hk Hslot Husz. cbn [receive_segment]. unfold numbers_of. cbn [omap list_omap].
  destruct (Wire.decode _) as [hdr |] eqn:Hd; cbn [to_option fmap option_fmap option_map].
  2: { destruct (bool_decide _); by eapply (hears_quiet i st _ [MAdd RxBadHeader (U64 1)]); [| repeat constructor |]. }
  destruct (segment_frame params len stride k slot hdr id now Hst Hk Hslot Husz Hd) as (ctx & -> & Hctx & _).
  set (n := U64 _). pose proof (accept_hears i ingress (hdr_seq hdr) n st Hin (so_rx_seq _ _ Hok)) as Ha.
  pose proof (moves_accept params topology_built ingress (observe (tracker_of ingress st) (hdr_seq hdr)).2 n
    (observe (tracker_of ingress st) (hdr_seq hdr)).1 st) as [(ops & He & _) _ _].
  unfold tracker_of in Ha, He. destruct (observe _ _) as [event tracker]. cbn [fst snd] in Ha, He.
  lazymatch goal with |- context [count (charge_event ingress event) ?x] => set (st1 := count (charge_event ingress event) x) in * end.
  assert (shard_ok params st1) as Hok1.
  { destruct Hok as [O1 O2 O3 O4 O5]. split; [done | done | | done |].
    - cbn [sh_rx_seq st1 count set_rx_seq]. by rewrite length_insert.
    - by eapply metrics_after. }
  pose proof (process_ok p ctx (sh_engine st1) Hctx) as Hp.
  destruct (process p ctx (sh_engine st1)) as [[e ctx'] v]. cbn [fst snd] in Hp. destruct Hp as [Hctx' _].
  lazymatch goal with |- hears _ _ _ ?l => rewrite <- (app_nil_r l) end. eapply hears_trans; [exact Ha |]. apply hears_engine with e.
  destruct (negb (bool_decide (v = Drop)) && (sp_inner_mtu params <? Frame.len ctx')%nat) eqn:Eo; cbn [fst].
  - by eapply (hears_quiet i (set_engine e st1) _ [MAdd TxOversizeDrop (U64 1)]); [| repeat constructor |].
  - rewrite (slice_ctx params) by done. apply dispatch_hears; [by eapply (shard_ok_same params st1 _ []) |].
    intros Hv. rewrite length_frame by done. rewrite bool_decide_false in Eo by done. by apply Nat.ltb_ge in Eo.
Qed.

(** A run of segments: those still to come are as they were received. *)
Lemma receive_loop_hears i ingress id len stride now (tables : nat -> P) n : forall k0 st slot,
  shard_ok params st -> live params ingress -> (0 < stride)%nat ->
  (forall k, (k0 <= k < k0 + n)%nat -> (k * stride < len)%nat) -> (HEADROOM + len <= length slot)%nat ->
  Z.of_nat (length slot) <= usize_max ->
  hears i st (foldl (receive_segment params ingress id len stride now) (st, slot) ((fun k => (k, tables k)) <$> seq k0 n)).1
    (if bool_decide (ingress = i)
     then numbers_of ((fun k => slice (seg_start stride k) (seg_end len stride k) slot) <$> seq k0 n) else []).
Proof.
  induction n as [| n IH]; intros k0 st slot Hok Hin Hst Hk Hslot Husz.
  { destruct (bool_decide _); by eapply (hears_quiet i st _ []). }
  cbn [seq]. rewrite !fmap_cons. cbn [foldl]. pose proof (Hk k0 ltac:(lia)) as Hk0.
  pose proof (receive_segment_hears i ingress id len stride now st slot k0 (tables k0) Hok Hin Hst Hk0 Hslot Husz) as H1.
  pose proof (receive_segment_moves params mtu_fits topology_built ingress id len stride now st slot k0 (tables k0) Hok Hin Hst Hk0 Hslot Husz) as H2.
  destruct (segment_bounds params len stride k0 slot Hst Hk0 Hslot) as (_ & _ & _ & B4).
  destruct (receive_segment _ _ _ _ _ _ (st, slot) (k0, tables k0)) as [st1 slot1]. destruct H2 as (Hok1 & [L1 D1] & _).
  specialize (IH (S k0) st1 slot1 Hok1 Hin Hst ltac:(intros; apply Hk; lia) ltac:(by rewrite L1) ltac:(by rewrite L1)).
  cbn [fst] in H1. pose proof (hears_trans _ _ _ _ _ _ H1 IH) as H.
  destruct (bool_decide (ingress = i)); [| exact H].
  replace (numbers_of (_ :: _)) with
    (numbers_of [slice (seg_start stride k0) (seg_end len stride k0) slot] ++
     numbers_of ((fun k => slice (seg_start stride k) (seg_end len stride k) slot1) <$> seq (S k0) n)); [exact H |].
  unfold numbers_of. rewrite <- omap_app. cbn [app]. do 2 f_equal. apply list_fmap_ext. intros j k Hj%lookup_seq.
  apply slice_drop_eq with (seg_end len stride k0); [exact D1 |]. etransitivity; [exact B4 |]. unfold seg_start. nia.
Qed.

(** A read. *)
Lemma receive_hears i tables slot meta now st :
  shard_ok params st -> (HEADROOM + rm_len meta <= length slot)%nat -> Z.of_nat (length slot) <= usize_max ->
  hears i st (receive params tables slot meta now st).1
    (if bool_decide (idx_of_peer (topology params) (rm_addr meta) = Some i) then numbers_of (segments slot meta) else []).
Proof.
  intros Hok Hslot Husz. unfold receive, segments. fold (stride_of meta). destruct (Nat.eqb_spec (rm_len meta) 0) as [H0 | H0].
  { rewrite (segments_none params meta H0). destruct (bool_decide _); by eapply (hears_quiet i st _ []). }
  change (div_ceil (rm_len meta) (stride_of meta)) with (segments_of meta). set (n := segments_of meta).
  set (st1 := count (mrecord GroSegmentsPerRead n) st).
  assert (hears i st st1 []) as H1 by (by eapply (hears_quiet i st _ [MRecord GroSegmentsPerRead n]); [| repeat constructor |]).
  assert (shard_ok params st1) as Hok1 by (by eapply (shard_ok_same params st _ [MRecord GroSegmentsPerRead n])).
  assert (0 < stride_of meta)%nat as Hst by (unfold stride_of; destruct (Nat.eqb_spec (rm_stride meta) 0); lia).
  lazymatch goal with |- hears _ _ _ ?l => change l with ([] ++ l) end. eapply hears_trans; [exact H1 |].
  destruct (topology_facts params topology_built) as (_ & Hpeer & _). destruct (idx_of_peer _ _) as [ingress |] eqn:Ei.
  - destruct (Hpeer _ _ Ei) as (vp & Hvp & _). rewrite Hvp, (bool_decide_ext (Some ingress = Some i) (ingress = i)) by naive_solver.
    apply receive_loop_hears; try done; [by apply lookup_lt_Some in Hvp |].
    intros k Hk. apply (div_ceil_lt params mtu_fits); [done | apply Hk].
  - cbn [fst]. by eapply (hears_quiet i st1 _ [MAdd RxUnknownPeer (U64 (Z.of_nat n))]); [| repeat constructor |].
Qed.

(** What a receiving shard does: reads, from any peer, and flushes. *)
Record Read := mkRead { rd_tables : nat -> P; rd_slot : bytes; rd_meta : RecvMeta A; rd_now : u32 }.

Inductive ROp := RRead (r : Read) | RFlush (e : VportIdx).

Definition rop st (o : ROp) : Shard E K :=
  match o with
  | RRead r => (receive params (rd_tables r) (rd_slot r) (rd_meta r) (rd_now r) st).1
  | RFlush e => flush params e st
  end.

Definition rop_fits (o : ROp) : Prop :=
  match o with
  | RRead r => (HEADROOM + rm_len (rd_meta r) <= length (rd_slot r))%nat /\ Z.of_nat (length (rd_slot r)) <= usize_max
  | RFlush e => live params e
  end.

(** The segments that come from the peer of a vport. *)
Definition from_peer (i : VportIdx) (o : ROp) : list bytes :=
  match o with
  | RRead r =>
      if bool_decide (idx_of_peer (topology params) (rm_addr (rd_meta r)) = Some i) then segments (rd_slot r) (rd_meta r) else []
  | RFlush _ => []
  end.

Lemma flush_hears i e st : shard_ok params st -> live params e -> hears i st (flush params e st) [].
Proof.
  intros Hok He. destruct (shard_queue params st e Hok He) as (q & g & seq & Hq & Hg & _).
  destruct (flush_spec params e q g st He Hq Hg) as (oks & ops & _ & Hem & Hqt & [_ _ Hr] & _).
  eapply hears_quiet; [exact Hem | by apply quiet_rx | by rewrite Hr].
Qed.

Lemma rop_hears i o st :
  shard_ok params st -> rop_fits o -> shard_ok params (rop st o) /\ hears i st (rop st o) (numbers_of (from_peer i o)).
Proof.
  intros Hok Ho. destruct o as [r | e]; cbn [rop from_peer rop_fits] in *.
  - destruct Ho as [H1 H2]. split; [by apply receive_ok |].
    pose proof (receive_hears i (rd_tables r) (rd_slot r) (rd_meta r) (rd_now r) st Hok H1 H2) as H. by destruct (bool_decide _).
  - split; [by apply flush_ok | by apply flush_hears].
Qed.

Lemma rops_hear i ops : forall st,
  shard_ok params st -> Forall rop_fits ops ->
  shard_ok params (foldl rop st ops) /\ hears i st (foldl rop st ops) (numbers_of (ops ≫= from_peer i)).
Proof.
  induction ops as [| o ops IH]; intros st Hok Hf; cbn [foldl].
  { split; [done |]. by eapply (hears_quiet i st _ []). }
  apply Forall_cons in Hf as [Ho Hf]. destruct (rop_hears i o st Hok Ho) as [H1 H2]. destruct (IH _ H1 Hf) as [H3 H4].
  split; [done |]. rewrite bind_cons. unfold numbers_of in *. rewrite omap_app. by eapply hears_trans.
Qed.

(** The counters of reception, after. *)
Lemma hears_counters i st st' l :
  shard_ok params st -> live params i -> hears i st st' l ->
  let es := (observe_all (tracker_of i st) l).1 in
  let grew c n := vget (sh_metrics st') (vidx_get i) c = U64 (uv (vget (sh_metrics st) (vidx_get i) c) + n) in
  grew RxPkts (Z.of_nat (length l)) /\ grew RxSeqGapTotal (total_gap es) /\ grew RxReorder (reorders_of es).
Proof.
  intros Hok Hi [_ (ops & He & Hp & Hg & Hr)] es grew. destruct (so_metrics _ _ Hok) as [Hs Hv]. unfold grew, es.
  rewrite He, !vget_after, Hp, Hg, Hr by (done || by rewrite Hv). done.
Qed.
End receiver.

(** ** The sending end *)

(** The frames staged for an egress. *)
Definition staged_for (e : VportIdx) (ops : list SOp) : list bytes :=
  omap (fun o => match o with SStage e' f _ _ => if bool_decide (e' = e) then Some f else None | SFlush _ => None end) ops.

Lemma numbered_nth e ops : forall n p x,
  numbered e (seq_at n) ops !! p = Some x ->
  hdr_seq <$> to_option (Wire.decode x) = Some (seq_at (n + Z.of_nat p)) /\
  staged_for e ops !! p = Some (drop OVERLAY_HDR_LEN x).
Proof.
  unfold staged_for. induction ops as [| [e' f id now | e'] ops IH]; intros n p x; cbn [numbered omap list_omap]; [done | | apply IH].
  case_bool_decide; [| apply IH]. destruct p as [| p]; cbn [lookup list_lookup].
  - intros [= <-]. unfold segment. rewrite decode_segment, Z.add_0_r. split; [done |].
    by rewrite drop_app_length' by (symmetry; apply length_encode).
  - rewrite Seq_next_at. intros Hx. destruct (IH (n + 1) p x Hx) as [H1 H2]. split; [| exact H2].
    rewrite H1. do 2 f_equal. lia.
Qed.

Lemma length_numbered e ops : forall s, length (numbered e s ops) = length (staged_for e ops).
Proof.
  unfold staged_for. induction ops as [| [e' f id now | e'] ops IH]; intros s; cbn [numbered omap list_omap]; [done | | apply IH].
  case_bool_decide; cbn [length]; [by rewrite IH | apply IH].
Qed.

Lemma arrival_numbers e n ops ks segs :
  Forall2 (fun p s => numbered e (seq_at n) ops !! p = Some s) ks segs ->
  numbers_of segs = seq_at <$> ((fun p => n + Z.of_nat p) <$> ks).
Proof.
  induction 1 as [| p s ks segs Hp _ IH]; [done |]. destruct (numbered_nth _ _ _ _ _ Hp) as [H1 _].
  unfold numbers_of in *. cbn [omap list_omap fmap list_fmap]. rewrite H1. f_equal. exact IH.
Qed.

Lemma lossy_shift n ps : forall p, lossy p ps -> lossy (n + p) ((fun x => n + x) <$> ps).
Proof. induction ps as [| q ps IH]; intros p; [done |]. intros [H1 H2]. split; [lia | by apply IH]. Qed.

Lemma last_fmap {X Y} (f : X -> Y) l : forall x, List.last (f <$> l) (f x) = f (List.last l x).
Proof. induction l as [| y [| z l] IH]; intros x; [done | done |]. apply (IH x). Qed.

(** ** One hop *)

Section hop.
Context `{HA : Addr A}.
Context `{HE1 : Engine P1 E1} `{HS1 : !Udp A K1} (sender : ShardParams A).
Context `{HE2 : Engine P2 E2} `{HS2 : !Udp A K2} {HL2 : EngineLaws P2 E2} (receiver : ShardParams A).
Hypothesis sender_fits : Z.of_nat (segment_len (sp_inner_mtu sender)) <= 65535.
Hypothesis receiver_fits : Z.of_nat (segment_len (sp_inner_mtu receiver)) <= 65535.
Hypothesis sender_built : exists entries errs, build entries errs = (errs, Some (topology sender)).
Hypothesis receiver_built : exists entries errs, build entries errs = (errs, Some (topology receiver)).

(** The frames a tracker that has heard nothing cannot know to have missed. *)
Definition unheard (t : SeqTracker) (k : nat) : Z := match expected t with None => Z.of_nat k | Some _ => 0 end.

(** What a tracker makes of the arrivals of a stream that begins at [n], when it
    has heard nothing or all there was. *)
Lemma observe_arrivals t n k ks :
  lossy (Z.of_nat k) (Z.of_nat <$> ks) ->
  (t = SeqTracker_new \/ t = MkSeqTracker (Some (seq_at n)) /\ Z.of_nat k < 2 ^ 31) ->
  exists es, observe_all t (seq_at <$> ((fun p => n + Z.of_nat p) <$> (k :: ks)))
      = (es, MkSeqTracker (Some (seq_at (n + Z.of_nat (List.last ks k) + 1)))) /\
    total_gap es = Z.of_nat (List.last ks k) + 1 - unheard t k - Z.of_nat (length (k :: ks)) /\
    reorders_of es = 0.
Proof.
  intros Hl Ht. pose proof (lossy_shift n _ _ Hl) as Hn. rewrite <- list_fmap_compose in Hn.
  change (lossy (n + Z.of_nat k) ((fun p => n + Z.of_nat p) <$> ks)) in Hn.
  pose proof (last_fmap (fun p => n + Z.of_nat p) ks k) as Hlast. cbn beta in Hlast.
  destruct Ht as [-> | [-> Hk]].
  - destruct (observe_lossy_tail _ _ Hn) as (es & E & Hg & Hr). rewrite Hlast in E, Hg.
    exists (InOrder :: es). rewrite !fmap_cons. cbn [observe_all]. unfold observe at 1. cbn [expected SeqTracker_new].
    rewrite Seq_next_at. rewrite E. split_and!; [done | |].
    + unfold total_gap in *. cbn [foldr gap_of unheard expected SeqTracker_new length]. rewrite Hg, length_fmap. lia.
    + apply reorders_of_none. by intros [? | ?]%elem_of_cons.
  - assert (lossy (n - 1) ((fun p => n + Z.of_nat p) <$> (k :: ks))) as Hn1 by (rewrite fmap_cons; split; [lia | exact Hn]).
    destruct (observe_lossy_tail _ _ Hn1) as (es & E & Hg & Hr). rewrite fmap_cons, last_cons_default, Hlast in E, Hg.
    exists es. rewrite Z.sub_add in E. rewrite fmap_cons. split_and!; [exact E | | by apply reorders_of_none].
    rewrite Hg. cbn [length unheard expected]. rewrite length_fmap. lia.
Qed.

(** C19: A hop counts what it loses.  However a shard stages and flushes for a
    peer and for others, there are the writes its socket is given for that peer.
    Of the datagrams of those the kernel took, let any reach the peer's shard,
    in order, coalesced into reads in any way, with reads from other peers and
    flushes in between, whatever its pipeline does with them.
    Each that arrives carries the frame staged at its position; the receiver
    counts every arrival as a packet, none as out of order, and as missing exactly
    those lost before the last arrival, by the network or because the sender's
    kernel would not take them (those before the first too, unless it had heard
    nothing yet); and it then expects the frame after it, so that the next stretch
    of the stream is accounted for in the same way. *)
Theorem hop_counts_what_it_loses (st1 : Shard E1 (Recorded A K1)) (e : VportIdx) vp (sops : list SOp) (n : Z) :
  shard_ok sender st1 -> vt_get (topology sender) e = Some vp -> Forall (sop_fits sender) sops ->
  sh_tx_seq st1 !! vidx_get e = Some (seq_at n) -> queued e st1 = [] ->
  let st1' := foldl (sop sender) st1 sops in
  exists ws, offered (vp_peer vp) st1 st1' ws /\
    (datagrams_of ws).*1 ++ queued e st1' = numbered e (seq_at n) sops /\
  forall (st2 : Shard E2 K2) (i : VportIdx) (rops : list ROp) (k : nat) (ks : list nat),
  shard_ok receiver st2 -> live receiver i -> Forall (rop_fits receiver) rops ->
  (tracker_of i st2 = SeqTracker_new \/ tracker_of i st2 = MkSeqTracker (Some (seq_at n)) /\ Z.of_nat k < 2 ^ 31) ->
  let arrived := rops ≫= from_peer receiver i in
  Forall2 (fun p s => datagrams_of ws !! p = Some (s, true)) (k :: ks) arrived -> lossy (Z.of_nat k) (Z.of_nat <$> ks) ->
  let st2' := foldl (rop receiver) st2 rops in
  let last_ := Z.of_nat (List.last ks k) in
  let lost := last_ + 1 - unheard (tracker_of i st2) k - Z.of_nat (length arrived) in
  let grew c m := vget (sh_metrics st2') (vidx_get i) c = U64 (uv (vget (sh_metrics st2) (vidx_get i) c) + m) in
  Forall2 (fun p s => staged_for e sops !! p = Some (drop OVERLAY_HDR_LEN s)) (k :: ks) arrived /\
  grew RxPkts (Z.of_nat (length arrived)) /\ grew RxSeqGapTotal lost /\ grew RxReorder 0 /\
  tracker_of i st2' = MkSeqTracker (Some (seq_at (n + last_ + 1))).
Proof.
  intros Hok1 Hvp Hs Hn Hq st1'.
  destruct (sops_offer sender sender_fits sender_built e vp sops st1 (seq_at n) Hok1 Hvp Hs Hn) as (ws & Hws & Hst).
  fold st1' in Hws, Hst. rewrite Hq, <- datagrams_of_fst in Hst. exists ws. split; [exact Hws |]. split; [exact Hst |].
  intros st2 i rops k ks Hok2 Hi Hr Ht arrived Ha Hl st2' last_ lost grew.
  assert (Forall2 (fun p s => numbered e (seq_at n) sops !! p = Some s) (k :: ks) arrived) as Hnb.
  { eapply Forall2_impl; [exact Ha |]. intros p s Hp. cbn [app] in Hst. rewrite <- Hst. apply lookup_app_l_Some.
    by rewrite list_lookup_fmap, Hp. }
  pose proof (arrival_numbers e n sops _ _ Hnb) as Hnum.
  destruct (rops_hear receiver receiver_fits receiver_built i rops st2 Hok2 Hr) as [_ Hh]. fold st2' arrived in Hh. rewrite Hnum in Hh.
  destruct (observe_arrivals _ n k ks Hl Ht) as (es & E & Hg & Hre).
  destruct (hears_counters receiver i st2 st2' _ Hok2 Hi Hh) as (C1 & C2 & C3).
  pose proof (hr_tracker _ _ _ _ Hh) as Htr. rewrite E in C2, C3, Htr. cbn [fst snd] in C2, C3, Htr.
  pose proof (Forall2_length _ _ _ Ha) as Hlen. unfold grew, lost.
  split_and!.
  - eapply Forall2_impl; [exact Hnb |]. intros p s Hp. by apply (numbered_nth e sops n).
  - rewrite C1, !length_fmap. by rewrite Hlen.
  - by rewrite C2, Hg, Hlen.
  - by rewrite C3, Hre.
  - exact Htr.
Qed.
End hop.

(** Two switches of [Shard.Sample]. *)
Module Link.
#[local] Existing Instances Sample.addr Sample.kernel.
Import Sample.

Definition payload (b : Z) : bytes := replicate 14 (U8 b).
Definition send_one (id b : Z) : SOp := SStage (idx 1) (payload b) (U16 id) (U32 5).
Definition three : list SOp := [send_one 0 170; SFlush (idx 0); send_one 0 171; send_one 0 172].

(** The read that coalesces these datagrams. *)
Definition read (segs : list bytes) : ROp (A := string) (P := Null.NullPipeline) :=
  RRead (mkRead (fun _ => pipeline) (replicate HEADROOM (U8 0) ++ concat segs)
           {| rm_addr := "a"; rm_len := length (concat segs); rm_stride := 26 |} (U32 9)).

(** What leaves, when it is then flushed: a kernel that takes everything. *)
Definition sent (ops : list SOp) : list bytes := (tries (foldl (sop params) recording (ops ++ [SFlush (idx 1)]))).*1 ≫= cut.
Definition got : list bytes := [default [] (sent three !! 0%nat); default [] (sent three !! 2%nat)].

(** The second of three frames is lost, and counted. *)
Lemma hop_witness :
  let st := rop params shard (read got) in
  vget (sh_metrics st) 0 RxPkts = U64 2 /\ vget (sh_metrics st) 0 RxSeqGapTotal = U64 1 /\
  vget (sh_metrics st) 0 RxReorder = U64 0.
Proof.
  intros st.
  destruct (hop_counts_what_it_loses params params mtu_fits mtu_fits table_built table_built
    recording (idx 1) {| vp_id := VId (U16 9) I; vp_peer := "b" |} (three ++ [SFlush (idx 1)]) 0) as (ws & Hws & Hst & H).
  - apply recording_fine.
  - vm_compute. reflexivity.
  - repeat constructor; vm_compute; lia.
  - vm_compute. reflexivity.
  - vm_compute. reflexivity.
  - assert (queued (idx 1) (foldl (sop params) recording (three ++ [SFlush (idx 1)])) = []) as Hq by (vm_compute; reflexivity).
    assert (numbered (idx 1) (seq_at 0) (three ++ [SFlush (idx 1)]) = sent three) as Hn by (vm_compute; reflexivity).
    rewrite Hq, app_nil_r, Hn in Hst.
    assert (Forall (fun w => w.2 = true) ws) as Ht.
    { apply (offered_all_taken _ _ _ _ Hws). 
      assert ((tries (foldl (sop params) recording (three ++ [SFlush (idx 1)]))).*2 = [true]) as Hok by (vm_compute; reflexivity).
      apply Forall_fmap with (f := snd) (P := fun b => b = true). rewrite Hok. by repeat constructor. }
    assert (datagrams_of ws = (fun s => (s, true)) <$> sent three) as Hd by (rewrite <- Hst; by apply datagrams_of_taken).
    assert (Forall2 (fun p s => sent three !! p = Some s) [0; 2]%nat ([read got] ≫= from_peer params (idx 0))) as Ha.
    { replace ([read got] ≫= from_peer params (idx 0)) with got by (vm_compute; reflexivity). repeat constructor; vm_compute; reflexivity. }
    destruct (H shard (idx 0) [read got] 0%nat [2]%nat) as (_ & H1 & H2 & H3 & _).
    + apply shard_fine.
    + vm_compute. lia.
    + constructor; [| constructor]. split; vm_compute; [lia | discriminate].
    + left. vm_compute. reflexivity.
    + eapply Forall2_impl; [exact Ha |]. intros p s Hp. by rewrite Hd, list_lookup_fmap, Hp.
    + split; [lia | done].
    + rewrite <- (Forall2_length _ _ _ Ha) in H1, H2. split_and!; [exact H1 | exact H2 | exact H3].
Defined.

(** Two shards of one node share its address, and each numbers what it sends a
    peer from zero.  The peer hears one source: with nothing lost it counts
    frames as out of order, and after more than a window of frames from one shard
    the first of the other makes it count all of them as missing. *)
Lemma shards_of_a_node_look_lossy :
  let one := sent [send_one 0 170; send_one 0 171] in
  let other := sent [send_one 9 180; send_one 9 181] in
  let heard := rop params shard (read (zip_with app one other)) in
  vget (sh_metrics heard) 0 RxPkts = U64 4 /\ vget (sh_metrics heard) 0 RxReorder = U64 2 /\
  total_gap (observe_all SeqTracker_new (seq_at <$> (seqZ 0 1026 ++ [0; 1026]))).1 = 1025.
Proof. vm_compute. done. Qed.

(** The generator keeps a tracker per ingress vport of the node, but the node
    numbers per egress: of three frames that all come back, two from one vport
    and one from another between them, it reports one as missing. *)
Lemma generator_takes_mixing_for_loss :
  let back := sent [send_one 0 170; send_one 9 171; send_one 0 172] in
  let stats := rx_stats (foldl (receive_one 14) Receiver_new ((fun s => (s, U32 9)) <$> back)) in
  rs_frames stats = U64 3 /\ rs_gaps stats = U64 1.
Proof. vm_compute. done. Qed.
End Link.
