(* ===== verification/Journey.v ===== *)
(** * Through a switch (crates/up4-io/src/shard.rs, with pktgen and l2fwd)

    What becomes of the frames of one peer when the pipeline forwards them all:
    the receiving side of a shard is then the staging of what the pipeline makes
    of each, so what its socket is given is known.  Applied to the load generator
    and the native [l2fwd]. *)

From S2P Require Import Prelude Bytes Wire Value Frame Headers Shim Engine Table Publish Programs L2Fwd Config Metrics Tx Punt Socket Shard Traffic Pktgen Turn Hop.

Local Open Scope Z_scope.

(** ** What leaves depends on the socket and the queues alone *)

Record same_tx {E K} (st st' : Shard E K) : Prop := {
  stx_socket : sh_socket st = sh_socket st';
  stx_tx : sh_tx st = sh_tx st';
  stx_seq : sh_tx_seq st = sh_tx_seq st';
}.

#[export] Instance same_tx_equiv {E K} : Equivalence (same_tx (E := E) (K := K)).
Proof. split; [done | by intros ? ? [] | intros ? ? ? [] []; split; congruence]. Qed.

Section same_tx.
Context `{HA : Addr A} {E : Type} `{HS : !Udp A K} (params : ShardParams A).
Implicit Types st : Shard E K.

Lemma send_same_tx t st st' : same_tx st st' -> same_tx (send t st).1 (send t st').1 /\ (send t st).2 = (send t st').2.
Proof.
  intros [H1 H2 H3]. unfold send. rewrite <- H1. destruct (fabric_send t (sh_socket st)) as [s [u | x]]; [done |].
  destruct x; try done. by destruct (fabric_send t s) as [s' [u | x]].
Qed.

Lemma send_runs_same_tx dest q rs : forall st st' n,
  same_tx st st' ->
  same_tx (foldl (send_run dest q) (st, n) rs).1 (foldl (send_run dest q) (st', n) rs).1 /\
  (foldl (send_run dest q) (st, n) rs).2 = (foldl (send_run dest q) (st', n) rs).2.
Proof.
  induction rs as [| r rs IH]; intros st st' n H; [done |]. cbn [foldl]. unfold send_run at 2 4 6 8. cbn [fst snd].
  destruct (send_same_tx (transmit_of dest q r) st st' H) as [H1 H2].
  destruct (send _ st) as [st1 ok], (send _ st') as [st2 ok']. cbn in H1, H2. subst ok'. by apply IH.
Qed.

#[export] Instance flush_same_tx i : Proper (same_tx ==> same_tx) (flush (E := E) (K := K) params i).
Proof.
  intros st st' H. pose proof H as [H1 H2 H3]. unfold flush. rewrite <- H2. destruct (sh_tx st !! _) as [q |]; [| done].
  destruct (vt_get _ i) as [vp |]; [| done]. destruct (q_is_empty q); [done |]. cbn [sh_socket count]. rewrite <- H1.
  destruct (send_runs_same_tx (vp_peer vp) q (runs (max_gso_segments (caps (sh_socket st))) q)
    (count (mrecord TxBatchSize (q_len q)) st) (count (mrecord TxBatchSize (q_len q)) st') 0 ltac:(by split)) as [[S1 S2 S3] Hn].
  destruct (foldl _ _ _) as [st1 n1], (foldl _ _ _) as [st2 n2]. cbn [fst snd] in *. subst n2.
  destruct (_ =? _)%nat; split; cbn [sh_socket sh_tx sh_tx_seq set_tx count]; congruence.
Qed.

#[export] Instance stage_same_tx frame id now : Proper (same_tx ==> eq ==> same_tx) (stage (E := E) (K := K) params frame id now).
Proof.
  intros st st' H i ? <-. unfold stage. rewrite <- (stx_tx _ _ H).
  set (st1 := match sh_tx st !! _ with Some q => if q_is_full q then flush params i st else st | None => st end).
  set (st2 := match sh_tx st !! _ with Some q => if q_is_full q then flush params i st' else st' | None => st' end).
  assert (same_tx st1 st2) as [S1 S2 S3].
  { unfold st1, st2. destruct (sh_tx st !! _) as [q |]; [| done]. destruct (q_is_full q); [by rewrite H | done]. }
  rewrite <- S2, <- S3. destruct (sh_tx st1 !! _) as [q |]; [| by split]. destruct (sh_tx_seq st1 !! _) as [seq |]; [| by split].
  destruct (q_push _ _ q) as [q' []]; split; cbn [sh_socket sh_tx sh_tx_seq set_tx set_tx_seq count]; congruence.
Qed.

#[export] Instance sops_same_tx : Proper (same_tx ==> eq ==> same_tx) (foldl (sop (E := E) (K := K) params)).
Proof.
  intros st st' H ops ? <-. revert st st' H. induction ops as [| o ops IH]; intros st st' H; [done |]. cbn [foldl]. apply IH.
  destruct o; cbn [sop]; by rewrite H.
Qed.

Lemma queued_same_tx e st st' : same_tx st st' -> queued e st = queued e st'.
Proof. intros [H1 H2 _]. unfold queued. by rewrite H1, H2. Qed.
End same_tx.

(** ** A pipeline that forwards *)

Section forwarding.
Context `{HA : Addr A} `{HE : Engine P E} `{HS : !Udp A K} {HL : EngineLaws P E}.
Variable params : ShardParams A.
Hypothesis mtu_fits : Z.of_nat (segment_len (sp_inner_mtu params)) <= 65535.
Hypothesis topology_built : exists entries errs, build entries errs = (errs, Some (topology params)).
Implicit Types st : Shard E K.

(** The tables [p], which do to every frame of a class what [out] says and send
    it to [port], from any state of the engine that keeps [inv]; [e] is the port's
    entry. *)
Variables (p : P) (port : u16) (e : VportIdx) (inv : E -> Prop) (good : bytes -> Prop) (out : bytes -> bytes).
Hypothesis forwards : forall ctx en,
  inv en -> ok ctx -> good (frame ctx) ->
  inv (process p ctx en).1.1 /\ (process p ctx en).2 = Forward port /\ frame (process p ctx en).1.2 = out (frame ctx).
Hypothesis out_fits : forall f, good f -> (length (out f) <= sp_inner_mtu params)%nat.
Hypothesis egress : idx_of_id (topology params) port = Some e.

(** A segment that is a frame of the class. *)
Definition carries (s : bytes) : Prop :=
  (exists hdr, Wire.decode s = Ok hdr) /\ good (drop OVERLAY_HDR_LEN s).

(** What becomes of one. *)
Definition staged (id : u16) (now : u32) (s : bytes) : SOp := SStage e (out (drop OVERLAY_HDR_LEN s)) id now.

Lemma receive_segment_forwards ingress id len stride now st slot k :
  inv (sh_engine st) -> (0 < stride)%nat -> (k * stride < len)%nat -> (HEADROOM + len <= length slot)%nat ->
  Z.of_nat (length slot) <= usize_max ->
  let s := slice (seg_start stride k) (seg_end len stride k) slot in
  carries s ->
  same_tx (receive_segment params ingress id len stride now (st, slot) (k, p)).1 (sop params st (staged id now s)) /\
  inv (sh_engine (receive_segment params ingress id len stride now (st, slot) (k, p)).1).
Proof using forwards out_fits egress HL.
  intros Hi Hst Hk Hslot Husz s [[hdr Hd] Hg]. cbn [receive_segment]. fold s. rewrite Hd.
  destruct (segment_frame params len stride k slot hdr id now Hst Hk Hslot Husz Hd) as (ctx & -> & Hctx & Hf & _). fold s in Hf.
  destruct (observe _ _) as [event tracker].
  lazymatch goal with |- context [count (charge_event ingress event) ?x] => set (st1 := count (charge_event ingress event) x) end.
  assert (same_tx st1 st) as H1 by done. assert (inv (sh_engine st1)) as Hi1 by exact Hi. clearbody st1.
  rewrite <- Hf in Hg. destruct (forwards ctx (sh_engine st1) Hi1 Hctx Hg) as (I1 & I2 & I3).
  destruct (process_ok p ctx (sh_engine st1) Hctx) as [Hok' _].
  destruct (process p ctx (sh_engine st1)) as [[en ctx'] v]. cbn [fst snd] in *. subst v.
  pose proof (out_fits _ Hg) as Hlen. rewrite <- I3, length_frame in Hlen by done.
  rewrite (proj2 (Nat.ltb_ge _ _)) by lia. rewrite andb_false_r. cbn [fst]. rewrite (slice_ctx params), I3, Hf by done. split.
  - cbn [dispatch sop staged]. rewrite egress. apply stage_same_tx; [| done]. etransitivity; [| exact H1]. done.
  - by rewrite (dispatch_engine params).
Qed.

Lemma receive_loop_forwards ingress id len stride now n : forall k0 st slot,
  shard_ok params st -> live params ingress -> inv (sh_engine st) -> (0 < stride)%nat ->
  (forall k, (k0 <= k < k0 + n)%nat -> (k * stride < len)%nat) -> (HEADROOM + len <= length slot)%nat ->
  Z.of_nat (length slot) <= usize_max ->
  let segs := (fun k => slice (seg_start stride k) (seg_end len stride k) slot) <$> seq k0 n in
  Forall carries segs ->
  let st' := (foldl (receive_segment params ingress id len stride now) (st, slot) ((fun k => (k, p)) <$> seq k0 n)).1 in
  same_tx st' (foldl (sop params) st (staged id now <$> segs)) /\ inv (sh_engine st').
Proof using forwards out_fits egress HL mtu_fits topology_built.
  induction n as [| n IH]; intros k0 st slot Hok Hin Hi Hst Hk Hslot Husz segs Hc st'; [done |].
  unfold segs, st' in *. clear segs st'. cbn [seq] in *. rewrite !fmap_cons in *. cbn [foldl].
  apply Forall_cons in Hc as [Hc0 Hc]. pose proof (Hk k0 ltac:(lia)) as Hk0.
  destruct (receive_segment_forwards ingress id len stride now st slot k0 Hi Hst Hk0 Hslot Husz Hc0) as [H1 H2].
  pose proof (receive_segment_moves params mtu_fits topology_built ingress id len stride now st slot k0 p Hok Hin Hst Hk0 Hslot Husz) as H3.
  destruct (segment_bounds params len stride k0 slot Hst Hk0 Hslot) as (_ & _ & _ & B4).
  destruct (receive_segment _ _ _ _ _ _ (st, slot) (k0, p)) as [st1 slot1]. destruct H3 as (Hok1 & [L1 D1] & _). cbn [fst] in H1, H2.
  assert ((fun k => slice (seg_start stride k) (seg_end len stride k) slot) <$> seq (S k0) n
          = (fun k => slice (seg_start stride k) (seg_end len stride k) slot1) <$> seq (S k0) n) as Hsl.
  { apply list_fmap_ext. intros j k Hj%lookup_seq. symmetry. apply slice_drop_eq with (seg_end len stride k0); [exact D1 |].
    etransitivity; [exact B4 |]. unfold seg_start. nia. }
  rewrite Hsl in Hc |- *.
  destruct (IH (S k0) st1 slot1 Hok1 Hin H2 Hst ltac:(intros; apply Hk; lia) ltac:(by rewrite L1) ltac:(by rewrite L1) Hc) as [H5 H6].
  split; [| exact H6]. etransitivity; [exact H5 |]. by rewrite H1.
Qed.

(** What a shard does while it hears one peer: reads of that peer, and flushes. *)
Definition hears_only (i : VportIdx) (o : ROp (A := A) (P := P)) : Prop :=
  match o with
  | RRead r => idx_of_peer (topology params) (rm_addr (rd_meta r)) = Some i /\ rd_tables r = (fun _ => p)
  | RFlush _ => True
  end.

(** What that stages and flushes. *)
Definition onward (id : u16) (o : ROp (A := A) (P := P)) : list SOp :=
  match o with
  | RRead r => staged id (rd_now r) <$> segments (rd_slot r) (rd_meta r)
  | RFlush e => [SFlush e]
  end.

Lemma rop_forwards i vp o st :
  shard_ok params st -> inv (sh_engine st) -> vt_get (topology params) i = Some vp -> rop_fits params o -> hears_only i o ->
  Forall carries (from_peer params i o) ->
  same_tx (rop params st o) (foldl (sop params) st (onward (vport_id (vp_id vp)) o)) /\ inv (sh_engine (rop params st o)).
Proof using forwards out_fits egress HL mtu_fits topology_built.
  intros Hok Hi Hvp Ho Hh Hc. destruct o as [[tables slot meta now] | e']; cbn [rop onward rop_fits hears_only from_peer rd_tables rd_slot rd_meta rd_now] in *.
  - destruct Hh as [Hp ->], Ho as [H1 H2]. rewrite bool_decide_eq_true_2 in Hc by done.
    unfold receive, segments in *. fold (stride_of meta). destruct (Nat.eqb_spec (rm_len meta) 0) as [H0 | H0].
    { by rewrite (segments_none params meta H0). }
    change (div_ceil (rm_len meta) (stride_of meta)) with (segments_of meta). set (n := segments_of meta) in *.
    set (st1 := count (mrecord GroSegmentsPerRead n) st). rewrite Hp, Hvp.
    assert (shard_ok params st1) as Hok1 by (by eapply (shard_ok_same params st _ [MRecord GroSegmentsPerRead n])).
    assert (0 < stride_of meta)%nat as Hst by (unfold stride_of; destruct (Nat.eqb_spec (rm_stride meta) 0); lia).
    destruct (receive_loop_forwards i (vport_id (vp_id vp)) (rm_len meta) (stride_of meta) now n 0 st1 slot Hok1
      ltac:(by apply lookup_lt_Some in Hvp) Hi Hst ltac:(intros k Hk; apply (div_ceil_lt params mtu_fits); [done | apply Hk]) H1 H2 Hc) as [H3 H4].
    split; [| exact H4]. etransitivity; [exact H3 |]. by apply sops_same_tx.
  - split; [done |]. rewrite <- (reframe_id st). by rewrite flush_reframe.
Qed.

Lemma rops_forward i vp rops : forall st,
  shard_ok params st -> inv (sh_engine st) -> vt_get (topology params) i = Some vp ->
  Forall (rop_fits params) rops -> Forall (hears_only i) rops -> Forall carries (rops ≫= from_peer params i) ->
  same_tx (foldl (rop params) st rops) (foldl (sop params) st (rops ≫= onward (vport_id (vp_id vp)))) /\
  inv (sh_engine (foldl (rop params) st rops)).
Proof using forwards out_fits egress HL mtu_fits topology_built.
  induction rops as [| o rops IH]; intros st Hok Hi Hvp Hf Hh Hc; [done |]. rewrite !bind_cons in *. cbn [foldl].
  apply Forall_cons in Hf as [Hf0 Hf]. apply Forall_cons in Hh as [Hh0 Hh]. apply Forall_app in Hc as [Hc0 Hc].
  destruct (rop_forwards i vp o st Hok Hi Hvp Hf0 Hh0 Hc0) as [H1 H2].
  destruct (rop_hears params mtu_fits topology_built i o st Hok Hf0) as [Hok1 _].
  destruct (IH (rop params st o) Hok1 H2 Hvp Hf Hh Hc) as [H3 H4]. split; [| exact H4].
  etransitivity; [exact H3 |]. rewrite foldl_app. by apply sops_same_tx.
Qed.

(** What is staged for the egress is what arrived, each frame as the pipeline
    makes it, in order. *)
Lemma onward_staged i id rops :
  Forall (hears_only i) rops ->
  staged_for e (rops ≫= onward id) = (fun s => out (drop OVERLAY_HDR_LEN s)) <$> (rops ≫= from_peer params i).
Proof.
  unfold staged_for. induction 1 as [| o rops Ho _ IH]; [done |]. rewrite !bind_cons, omap_app, fmap_app, IH. f_equal.
  destruct o as [r | e']; cbn [onward from_peer hears_only] in *; [| done]. destruct Ho as [-> _].
  rewrite bool_decide_eq_true_2 by done. induction (segments _ _) as [| s segs IHs]; [done |].
  cbn [fmap list_fmap omap list_omap staged]. rewrite bool_decide_eq_true_2 by done. f_equal. exact IHs.
Qed.

Lemma onward_fits i id rops :
  Forall (rop_fits params) rops -> Forall (hears_only i) rops -> Forall carries (rops ≫= from_peer params i) ->
  Forall (sop_fits params) (rops ≫= onward id).
Proof using out_fits egress topology_built.
  destruct (topology_facts params topology_built) as (Hid & _).
  induction rops as [| o rops IH]; intros Hf Hh Hc; [constructor |]. rewrite !bind_cons in *.
  apply Forall_cons in Hf as [Hf0 Hf]. apply Forall_cons in Hh as [Hh0 Hh]. apply Forall_app in Hc as [Hc0 Hc].
  apply Forall_app. split; [| by apply IH]. destruct o as [r | e']; cbn [onward from_peer hears_only rop_fits] in *.
  - destruct Hh0 as [Hp _]. rewrite bool_decide_eq_true_2 in Hc0 by done. apply Forall_fmap. eapply Forall_impl; [exact Hc0 |].
    intros s [_ Hg]. split; [by eapply Hid | by apply out_fits].
  - by constructor.
Qed.
End forwarding.

Lemma numbered_ingress id e ops : forall n k x,
  Forall (fun o => match o with SStage _ _ id' _ => id' = id | SFlush _ => True end) ops ->
  numbered e (seq_at n) ops !! k = Some x -> hdr_ingress_vport <$> to_option (Wire.decode x) = Some id.
Proof.
  induction ops as [| [e' f id' now | e'] ops IH]; intros n k x Hf; cbn [numbered]; [done | |];
    apply Forall_cons in Hf as [Hf0 Hf]; [| by apply IH].
  case_bool_decide; [| by apply IH]. destruct k as [| k]; cbn [lookup list_lookup].
  - intros [= <-]. unfold segment. rewrite decode_segment. cbn. by rewrite Hf0.
  - rewrite Seq_next_at. by apply IH.
Qed.

(** ** The load generator through the native switch *)

Section switch.
Context `{HA : Addr A} `{HS : !Udp A K}.
Variable params : ShardParams A.
Hypothesis mtu_fits : Z.of_nat (segment_len (sp_inner_mtu params)) <= 65535.
Hypothesis topology_built : exists entries errs, build entries errs = (errs, Some (topology params)).
Variable config : PktgenConfig A.
Hypothesis frames_fit : (inner_len config <= sp_inner_mtu params)%nat.
Implicit Types st : Shard L2.L2Engine (Recorded A K).

(** Frame [n] of the generator. *)
Definition frame_number (n : Z) : bytes := flow_frame (pg_frame config) (pg_flows config) (U32 (n mod rotation config)).

Definition generated (f : bytes) : Prop := exists n, f = frame_number n.

(** The engine has seen the tables as they are, or an earlier version. *)
Definition in_view (p : L2.L2Fwd) (en : L2.L2Engine) : Prop :=
  exists n, Z.of_nat n < 2 ^ 64 /\ view n (L2.mac_dst p) (L2.cached en).

Lemma l2_forwards p port ctx en :
  Exact.apply (current (L2.mac_dst p)) (fs_dst_mac (pg_frame config)) = L2.AForward port ->
  in_view p en -> ok ctx -> generated (frame ctx) ->
  in_view p (process p ctx en).1.1 /\ (process p ctx en).2 = Forward port /\ frame (process p ctx en).1.2 = frame ctx.
Proof.
  intros Hp (n & Hn & Hv) _ [k Hf]. cbn [process L2.L2_Engine]. unfold L2.l2_process.
  destruct (flow_frame_parses (pg_frame config) (pg_flows config) (U32 (k mod rotation config))) as (He & _ & _).
  rewrite Hf. unfold frame_number. rewrite He. cbn [fst snd].
  destruct (view_get n _ _ Hn Hv) as [Hc Hv']. rewrite Hc. cbn [eth_dst]. rewrite Hp. split; [by exists n |]. split; [done |]. exact Hf.
Qed.

Lemma generated_fits f : generated f -> (length f <= sp_inner_mtu params)%nat.
Proof. intros [n ->]. unfold frame_number. rewrite length_flow_frame. exact frames_fit. Qed.

Lemma nth_segment_frame n ts : drop OVERLAY_HDR_LEN (nth_segment config n ts) = frame_number n.
Proof. unfold nth_segment. apply drop_app_length'. symmetry. apply length_encode. Qed.

Lemma segment_carries n ts : carries generated (nth_segment config n ts).
Proof. split; [unfold nth_segment; rewrite decode_segment; by eexists | rewrite nth_segment_frame; by exists n]. Qed.

(** C20: what the generator sends, the switch passes on.  Let a shard running the
    native [l2fwd], with the generator's destination installed to forward to a
    port, receive frames of a run of the generator, any of them, in any order,
    with any stamps, coalesced into reads in any way, with flushes in between.
    Then the writes its socket is given for the peer of that port, cut as the
    kernel cuts them, and what is still queued, are what was queued before and one
    datagram per arrival, in the order of arrival: under the shard's own
    consecutive numbers, naming the vport the frames came in by, and carrying the
    very bytes the generator made. *)
Theorem generated_traffic_is_switched (p : L2.L2Fwd) (port : u16) (e i : VportIdx) out vp st (n0 : Z) rops (arrivals : list (Z * u32)) :
  shard_ok params st -> vt_get (topology params) i = Some vp ->
  idx_of_id (topology params) port = Some e -> vt_get (topology params) e = Some out ->
  Exact.apply (current (L2.mac_dst p)) (fs_dst_mac (pg_frame config)) = L2.AForward port ->
  in_view p (sh_engine st) -> sh_tx_seq st !! vidx_get e = Some (seq_at n0) ->
  Forall (rop_fits params) rops -> Forall (hears_only params p i) rops ->
  rops ≫= from_peer params i = (fun a => nth_segment config a.1 a.2) <$> arrivals ->
  let st' := foldl (rop params) st rops in
  exists ws sent, offered (vp_peer out) st st' ws /\
    (ws.*1 ≫= cut) ++ queued e st' = queued e st ++ sent /\ length sent = length arrivals /\
    forall k s a, sent !! k = Some s -> arrivals !! k = Some a ->
      exists hdr, Wire.decode s = Ok hdr /\ hdr_seq hdr = seq_at (n0 + Z.of_nat k) /\
        hdr_ingress_vport hdr = vport_id (vp_id vp) /\ drop OVERLAY_HDR_LEN s = frame_number a.1.
Proof.
  intros Hok Hvp Hport Hout Hp Hv Hseq Hf Hh Ha st'. set (sops := rops ≫= onward e (fun f => f) (vport_id (vp_id vp))).
  assert (Forall (carries generated) (rops ≫= from_peer params i)) as Hc
    by (rewrite Ha; apply Forall_forall; intros s (a & -> & _)%list_elem_of_fmap; exact (segment_carries a.1 a.2)).
  assert (same_tx st' (foldl (sop params) st sops)) as Htx.
  { eapply (rops_forward params mtu_fits topology_built p port e (in_view p) generated (fun f => f)); try eassumption.
    - intros ctx en. by apply l2_forwards.
    - exact generated_fits. }
  assert (Forall (sop_fits params) sops) as Hfit
    by (by apply (onward_fits params topology_built p port e generated (fun f => f) generated_fits Hport i)).
  destruct (sops_offer params mtu_fits topology_built e out sops st (seq_at n0) Hok Hout Hfit Hseq) as (ws & Hws & Hq).
  exists ws, (numbered e (seq_at n0) sops).
  pose proof (onward_staged params p e (fun f => f) i (vport_id (vp_id vp)) rops Hh) as Hst. fold sops in Hst.
  rewrite Ha, <- list_fmap_compose in Hst.
  split_and!.
  - eapply offered_same; [| exact Hws]. unfold tries. by rewrite (stx_socket _ _ Htx).
  - by rewrite (queued_same_tx e _ _ Htx).
  - by rewrite length_numbered, Hst, length_fmap.
  - intros k s a Hk Hak. destruct (numbered_nth e sops n0 k s Hk) as [H1 H2].
    assert (hdr_ingress_vport <$> to_option (Wire.decode s) = Some (vport_id (vp_id vp))) as H3.
    { eapply numbered_ingress; [| exact Hk]. clear. unfold sops. induction rops as [| o rops IH]; [constructor |].
      rewrite bind_cons. apply Forall_app. split; [| exact IH]. destruct o as [r | e']; cbn [onward]; [| by repeat constructor].
      by apply Forall_fmap, Forall_true. }
    rewrite Hst, list_lookup_fmap, Hak in H2. injection H2 as H2.
    destruct (Wire.decode s) as [hdr | x]; [| done]. cbn in H1, H3. injection H1 as H1. injection H3 as H3.
    exists hdr. split_and!; [done | done | done |]. rewrite <- H2. symmetry. apply (nth_segment_frame a.1 a.2).
Qed.
End switch.

(** The shard of [Shard.Sample] with the native [l2fwd] in place of the null
    oracle, and the generator's address installed behind the engine's back. *)
Module Learned.
#[local] Existing Instances Sample.addr Sample.kernel.
Import Sample.

Definition switch : L2.L2Fwd :=
  (L2.add "mac_dst" (KeyExact (ValMac (fs_dst_mac (pg_frame demo)))) "forward" [ValU16 (U16 9)] (L2.new {| vports := [] |})).1.

Definition before : Shard L2.L2Engine (Recorded string unit) :=
  shard_new params (Build_Recorded tt []) (engine (L2.new {| vports := [] |})) (metrics_new "sample" table) None.

(** Frame 4, then frame 0, in one read. *)
Definition arrivals : list (Z * u32) := [(4, U32 5); (0, U32 6)].
Definition segs : list bytes := (fun a => nth_segment demo a.1 a.2) <$> arrivals.

Definition read : ROp (A := string) (P := L2.L2Fwd) :=
  RRead (mkRead (fun _ => switch) (replicate HEADROOM (U8 0) ++ concat segs)
           {| rm_addr := "a"; rm_len := length (concat segs); rm_stride := segment_bytes demo |} (U32 9)).

Lemma switched_witness :
  exists ws one two, offered "b" before (foldl (rop params) before [read; RFlush (idx 1)]) ws /\ ws.*1 ≫= cut = [one; two] /\
    drop OVERLAY_HDR_LEN one = frame_number demo 4 /\ drop OVERLAY_HDR_LEN two = frame_number demo 0.
Proof.
  assert ([read; RFlush (idx 1)] ≫= from_peer params (idx 0) = segs) as Ha by (vm_compute; reflexivity).
  assert (queued (idx 1) before = []) as Hq by (vm_compute; reflexivity).
  assert (queued (idx 1) (foldl (rop params) before [read; RFlush (idx 1)]) = []) as Hq' by (vm_compute; reflexivity).
  destruct (generated_traffic_is_switched params mtu_fits table_built demo ltac:(vm_compute; lia)
    switch (U16 9) (idx 1) (idx 0) {| vp_id := VId (U16 9) I; vp_peer := "b" |} {| vp_id := VId (U16 0) I; vp_peer := "a" |}
    before 0 [read; RFlush (idx 1)] arrivals) as (ws & sent & H0 & H1 & H2 & H3).
  - apply shard_ok_new.
  - vm_compute. reflexivity.
  - vm_compute. reflexivity.
  - vm_compute. reflexivity.
  - vm_compute. reflexivity.
  - exists 1%nat. split; [lia |]. split; [vm_compute; reflexivity |]. exists 0%nat. split; [vm_compute; reflexivity | lia].
  - vm_compute. reflexivity.
  - constructor; [split; vm_compute; [lia | discriminate] | constructor; [vm_compute; lia | constructor]].
  - constructor; [split; vm_compute; reflexivity | constructor; [exact I | constructor]].
  - exact Ha.
  - destruct sent as [| one [| two [| ? ?]]]; [done | done | | done].
    exists ws, one, two. rewrite Hq, Hq', app_nil_r in H1. split; [exact H0 |]. split; [exact H1 |]. split.
    + by destruct (H3 0%nat one (4, U32 5) eq_refl eq_refl) as (hdr & _ & _ & _ & H).
    + by destruct (H3 1%nat two (0, U32 6) eq_refl eq_refl) as (hdr & _ & _ & _ & H).
Defined.
End Learned.
