(* ===== verification/Fixture.v ===== *)
(** * The socket fixture of the benchmarks (benches/src/loopback.rs, Fixture)

    [round_trip]: copies of a frame pushed through a shard over real sockets and
    counted as they come back.  Starting the shard is [Shard], with the
    configuration the fixture writes for it, and is not repeated here. *)

From S2P Require Import Prelude Bytes Wire Tx Socket Shard Pktgen.

Local Open Scope Z_scope.

Section fixture.
Context `{HA : Addr A} `{HS : !Udp A K}.

(** The fields [round_trip] uses. *)
Record Fixture := { fx_ingress : K; fx_egress : K; fx_shard_addr : A; fx_seq : u32 }.

(** One copy, behind a header of its own. *)
Definition stage_copy (frame : bytes) (st : u32 * bytes) : u32 * bytes :=
  let hdr := encode {| hdr_ingress_vport := U16 0; hdr_seq := Seq_new st.1; hdr_ts_us := U32 0 |} in
  (U32 (uv st.1 + 1), st.2 ++ hdr ++ frame).

Definition stage_copies (frame : bytes) (count : nat) (seq : u32) : u32 * bytes :=
  Nat.iter count (stage_copy frame) (seq, []).

Definition per_write (segment : nat) : nat := ((Z.to_nat GSO_MAX_BYTES / segment) `max` 1)%nat.

(** [slice::chunks]: [n] at a time, then what is left. *)
Definition slice_chunks (n : nat) (l : bytes) : list bytes := gso_split (length l) n l.

Definition chunk_write (dest : A) (segment : nat) (chunk : bytes) : Transmit A := {|
  destination := dest; contents := chunk;
  segment_size := if (1 <? div_ceil (length chunk) segment)%nat then Some segment else None;
|}.

(** What one [round_trip] writes. *)
Definition writes (frame scratch : bytes) (fx : Fixture) : list (Transmit A) :=
  let segment := (OVERLAY_HDR_LEN + length frame)%nat in
  chunk_write (fx_shard_addr fx) segment <$> slice_chunks (per_write segment * segment) scratch.

(** [false] is the panic of [expect("send")]. *)
Fixpoint send_all (ts : list (Transmit A)) (s : K) : K * bool :=
  match ts with
  | [] => (s, true)
  | t :: ts => match fabric_send t s with (s, Ok _) => send_all ts s | (s, Err _) => (s, false) end
  end.

(** The frames of a read. *)
Definition recovered (meta : RecvMeta A) : nat :=
  let stride := if (rm_stride meta =? 0)%nat then rm_len meta else rm_stride meta in
  div_ceil (rm_len meta) (stride `max` 1).

(** The reading loop, of as many turns as the deadline leaves. *)
Fixpoint recover (turns count received : nat) (s : K) : K * nat :=
  match turns with
  | O => (s, received)
  | S turns =>
      if (received <? count)%nat then
        match fabric_recv s with
        | (s, Err _) => recover turns count received s
        | (s, Ok reads) => recover turns count (received + sum_list (recovered <$> (take 1 reads).*2)) s
        end
      else (s, received)
  end.

(** [Fixture::round_trip]; [None] is a panic. *)
Definition round_trip (turns : nat) (frame : bytes) (count : nat) (fx : Fixture) : option (Fixture * nat) :=
  let '(seq, scratch) := stage_copies frame count (fx_seq fx) in
  match send_all (writes frame scratch fx) (fx_ingress fx) with
  | (_, false) => None
  | (ingress, true) =>
      let '(egress, n) := recover turns count 0 (fx_egress fx) in
      Some ({| fx_ingress := ingress; fx_egress := egress; fx_shard_addr := fx_shard_addr fx; fx_seq := seq |}, n)
  end.

(** ** What is written *)

Definition copy (frame : bytes) (seq : Z) : bytes :=
  encode {| hdr_ingress_vport := U16 0; hdr_seq := Seq_new (U32 seq); hdr_ts_us := U32 0 |} ++ frame.

Lemma length_copy frame n : length (copy frame n) = (OVERLAY_HDR_LEN + length frame)%nat.
Proof. unfold copy. by rewrite length_app, length_encode. Qed.

Lemma stage_copies_spec frame count n :
  stage_copies frame count (U32 n) =
    (U32 (n + Z.of_nat count), concat ((fun k => copy frame (n + Z.of_nat k)) <$> seq 0 count)).
Proof.
  induction count as [| count IH].
  - unfold stage_copies. cbn. by rewrite Z.add_0_r.
  - unfold stage_copies in *. rewrite Nat.iter_succ, IH, seq_S, fmap_app, concat_app. unfold stage_copy. cbn [fst snd]. f_equal.
    + apply uint_eq. rewrite !uv_of, Zplus_mod_idemp_l. f_equal. lia.
    + cbn. by rewrite app_nil_r.
Qed.

Lemma chunk_write_cuts dest segment (g : list bytes) :
  (0 < segment)%nat -> g <> [] -> Forall (fun s => length s = segment) g ->
  cut (chunk_write dest segment (concat g)) = g.
Proof.
  intros Hs Hne Hg. unfold cut, chunk_write. cbn [segment_size contents].
  rewrite (length_concat_uniform g segment Hg), div_ceil_mul by done. destruct (Nat.ltb_spec 1 (length g)) as [H1 | H1].
  - apply gso_split_concat; [| by eapply Forall_impl; [exact Hg |]; intros s ->; lia | nia].
    exists (length g - 1)%nat, segment. split; [| lia].
    assert (length <$> g = replicate (length g) segment) as -> by (clear -Hg; induction Hg as [| s g H _ IH]; [done |]; cbn; by rewrite H, IH).
    replace (length g) with (length g - 1 + 1)%nat at 1 by lia. by rewrite replicate_add.
  - destruct g as [| s [| s' g]]; [done | cbn; by rewrite app_nil_r | cbn in H1; lia].
Qed.

Lemma chunks_cut dest segment m : (0 < segment)%nat -> (0 < m)%nat -> forall fuel (g : list bytes),
  Forall (fun s => length s = segment) g -> (length g <= fuel)%nat ->
  let ts := chunk_write dest segment <$> gso_split fuel (m * segment) (concat g) in
  ts ≫= cut = g /\ Forall (fun t => (length (contents t) <= m * segment)%nat) ts.
Proof.
  intros Hs Hm. induction fuel as [| fuel IH]; intros g Hg Hf; [by destruct g; [| cbn in Hf; lia] |].
  destruct (decide (g = [])) as [-> | Hne]; [done |].
  pose proof (length_concat_uniform g segment Hg) as Hl.
  assert (concat g = concat (take m g) ++ concat (drop m g)) as E by (by rewrite <- concat_app, take_drop).
  assert (Forall (fun s => length s = segment) (take m g)) as Ht by (by apply Forall_take).
  pose proof (length_concat_uniform (take m g) segment Ht) as Hlt. rewrite length_take in Hlt.
  assert (0 < length g)%nat by (destruct g; [done | cbn; lia]).
  assert (take (m * segment) (concat g) = concat (take m g) /\ drop (m * segment) (concat g) = concat (drop m g)) as [E1 E2].
  { destruct (decide (m <= length g)%nat).
    - rewrite E. split; [apply take_app_length' | apply drop_app_length']; rewrite Hlt; f_equal; lia.
    - rewrite (take_ge g), (drop_ge g) by lia. split; [apply take_ge | apply drop_ge]; rewrite Hl; nia. }
  cbn [gso_split]. destruct (concat g) as [| b bs] eqn:Ec; [cbn in Hl; nia |]. rewrite E1, E2.
  destruct (IH (drop m g) ltac:(by apply Forall_drop) ltac:(rewrite length_drop; lia)) as [I1 I2].
  cbn zeta. rewrite fmap_cons, bind_cons, I1, chunk_write_cuts; [| done | | done].
  - split; [apply take_drop |]. constructor; [| exact I2]. cbn [contents chunk_write]. rewrite Hlt. nia.
  - intros Hn. apply (f_equal length) in Hn. rewrite length_take in Hn. cbn in Hn. lia.
Qed.

(** Cut as the kernel cuts them, the writes of a [round_trip] are the copies in
    order, numbered on from where the last one stopped, and none is longer than
    a segmented write carries unless a single copy is. *)
Theorem round_trip_writes_copies (frame : bytes) (count : nat) (n : Z) ingress egress dest :
  let '(seq', scratch) := stage_copies frame count (U32 n) in
  let ts := writes frame scratch {| fx_ingress := ingress; fx_egress := egress; fx_shard_addr := dest; fx_seq := U32 n |} in
  seq' = U32 (n + Z.of_nat count) /\
  ts ≫= cut = (fun k => copy frame (n + Z.of_nat k)) <$> seq 0 count /\
  Forall (fun t => (length (contents t) <= Z.to_nat GSO_MAX_BYTES `max` (OVERLAY_HDR_LEN + length frame))%nat) ts.
Proof.
  rewrite stage_copies_spec. cbn zeta. split; [done |].
  set (g := (fun k => copy frame (n + Z.of_nat k)) <$> seq 0 count). unfold writes. cbn [fx_shard_addr].
  set (segment := (OVERLAY_HDR_LEN + length frame)%nat). assert (0 < segment)%nat as Hs by (unfold segment, OVERLAY_HDR_LEN; lia).
  assert (Forall (fun s => length s = segment) g) as Hg by (apply Forall_forall; intros s (k & -> & _)%list_elem_of_fmap; apply length_copy).
  assert (length g <= length (concat g))%nat as Hl by (rewrite (length_concat_uniform g segment Hg); pose proof (Nat.mul_le_mono_l 1 segment (length g) Hs); lia).
  destruct (chunks_cut dest segment (per_write segment) Hs ltac:(unfold per_write; lia) (length (concat g)) g Hg Hl) as [H1 H2].
  split; [exact H1 |]. eapply Forall_impl; [exact H2 |]. intros t Ht. etransitivity; [exact Ht |]. unfold per_write.
  pose proof (Nat.Div0.mul_div_le (Z.to_nat GSO_MAX_BYTES) segment). revert H. clear. generalize (Z.to_nat GSO_MAX_BYTES). clearbody segment.
  intros m. destruct (Nat.max_spec (m / segment) 1) as [[_ ->] | [_ ->]]; lia.
Qed.

(** The loop stops for having recovered enough, or at the deadline. *)
Lemma recover_enough turns count : forall received s,
  (received <= (recover turns count received s).2)%nat /\
  ((recover turns count received s).2 < count -> forall more, recover (turns + more) count received s =
     recover more count (recover turns count received s).2 (recover turns count received s).1)%nat.
Proof.
  induction turns as [| turns IH]; intros received s; cbn [recover Nat.add]; [done |].
  destruct (Nat.ltb_spec received count) as [H | H]; [| cbn; lia].
  destruct (fabric_recv s) as [s' [reads | e]]; [| apply IH].
  destruct (IH (received + sum_list (recovered <$> (take 1 reads).*2))%nat s') as [H1 H2]. split; [lia | exact H2].
Qed.
End fixture.

(** [per_write] has no bound on the number of segments: more than 64 short frames
    make a write the socket's own limit forbids. *)
Module Bench.
#[local] Existing Instances Sample.addr Sample.kernel.

Lemma round_trip_overfills_a_write :
  let frame := replicate 60 (U8 0) in
  let fx := {| fx_ingress := tt; fx_egress := tt; fx_shard_addr := "b"; fx_seq := U32 0 |} in
  (fun t => length (cut t)) <$> writes frame (stage_copies frame 65 (U32 0)).2 fx = [65%nat] /\
  max_gso_segments (caps tt) = 64%nat.
Proof. split; vm_compute; reflexivity. Qed.
End Bench.
