(* ===== verification/Node.v ===== *)
(** * A node (crates/up4d/src/main.rs)

    Starting a node from its files, and running it: the shards and the control
    channel over one pipeline, one set of counters, one punt queue and one stop
    flag.  What the system answers while the node starts is a [World]; what
    happens while it runs is a sequence of [NodeEvent]s, a turn of one shard and
    the handling of one request being the steps that interleave. *)

From S2P Require Import Prelude Bytes Text Value Shim Frame Engine Catalog L2Fwd Wire Tx Config Metrics Punt Socket Shard Turn Messages Ctl.

Local Open Scope Z_scope.

(** ** Starting *)

(** [Cli], less where the snapshots go. *)
Record Cli := { cli_backend : option string; cli_config : string; cli_tables : option string; cli_check : bool }.

(** What the node asks of the system, and of the parsers of its files. *)
Record World (A K J : Type) := {
  w_read : string -> result string string;
  w_toml : string -> result RawConfig string;
  w_json : string -> result EntryBatch string;
  w_bind : nat -> result K string;
  w_ctl : result unit string;
  w_watcher : result unit string;
  w_rx_batch : nat;
  w_probe : J;
  w_version : string;
  w_started_us : u64;
}.
Arguments w_read {A K J} _ _.
Arguments w_toml {A K J} _ _.
Arguments w_json {A K J} _ _.
Arguments w_bind {A K J} _ _.
Arguments w_ctl {A K J} _.
Arguments w_watcher {A K J} _.
Arguments w_rx_batch {A K J} _.
Arguments w_probe {A K J} _.
Arguments w_version {A K J} _.
Arguments w_started_us {A K J} _.

(** [selection_summary] *)
Definition selection_summary (oracle : bool) (name : string) : string :=
  match find (fun s => bool_decide (selection_name s = name)) (selection_all oracle) with
  | None => EmptyString
  | Some (P4 program backend) => concat_str [summary program; " ["; backend_name backend; "]"]
  | Some Oracle => "benchmark oracle (spec S7.4)"
  end.

(** [Program::ALL] by name: what a configuration may ask for. *)
Definition registry : list string := program_name <$> Program_ALL.

(** What happens to a process that was to become a node. *)
Inductive Startup (S : Type) :=
  | Fatal (message : string)
  | Checked
  | Panicked
  | Running (n : S).
Arguments Fatal {S} _.
Arguments Checked {S}.
Arguments Panicked {S}.
Arguments Running {S} _.

(** Why a configuration file could not be turned into a [Config]. *)
Inductive LoadError := LoadIo (path source : string) | Invalid (errors : Errors).

Definition load_error_to_string (e : LoadError) : string :=
  match e with
  | LoadIo path source => "cannot read " ++ path ++ ": " ++ source
  | Invalid errors => config_errors_to_string errors
  end.

Section node.
Context `{HA : Addr A} `{HE : Pipeline P E} `{HU : !Udp A K} {J : Type}.
Implicit Types w : World A K J.

(** A shard thread: its shard, its receive arena, and whether it is still in
    its loop. *)
Record Thread := { th_shard : Shard E K; th_arena : list bytes; th_running : bool }.

(** A node at work.  The counters and the punt queue are those of the context;
    the copies a shard holds while it is not running are of no account. *)
Record Node := { nd_params : ShardParams A; nd_context : Context P J; nd_threads : list Thread }.

(** [Config::from_toml] *)
Definition from_toml w (src : string) : result (Config A) Errors :=
  match w_toml w src with
  | Err e => Err [TomlError e]
  | Ok raw => validate raw registry
  end.

(** [Config::load] *)
Definition load w (path : string) : result (Config A) LoadError :=
  match w_read w path with
  | Err source => Err (LoadIo path source)
  | Ok src => map_err Invalid (from_toml w src)
  end.

(** What [run] makes of its errors. *)
Definition load_fatal (path : string) (e : LoadError) : string :=
  match e with
  | LoadIo _ _ => load_error_to_string e
  | Invalid errors => config_errors_to_string errors ++ " in " ++ path
  end.

Definition config_load w (path : string) : result (Config A) string := map_err (load_fatal path) (load w path).

(** [load_tables] *)
Definition load_tables w (path : string) (p : P) : P * result nat string :=
  match w_read w path with
  | Err e => (p, Err ("cannot read " ++ path ++ ": " ++ e)%string)
  | Ok text =>
      match w_json w text with
      | Err e => (p, Err (path ++ ": " ++ e)%string)
      | Ok batch =>
          let '(p, r) := apply_entries (into_entries batch) p in
          (p, map_err (fun m => path ++ ": " ++ m)%string r)
      end
  end.

(** [node_info] *)
Definition node_info (oracle : bool) w (c : Config A) (p : P) : Info J := {|
  in_node := nc_id (c_node c);
  in_version := w_version w;
  in_pipeline := pipeline_name p;
  in_pipeline_summary := selection_summary oracle (pipeline_name p);
  in_uptime_s := U64 0;
  in_threads := Z.to_nat (uv (nc_threads (c_node c)));
  in_fabric := as_str (nc_fabric (c_node c));
  in_inner_mtu := inner_mtu (nc_fabric (c_node c));
  in_bind := addr_to_string (nc_bind (c_node c));
  in_punt_enabled := bool_decide (is_Some (c_punt c));
  in_vports := (fun v => {| vi_id := vport_id (vp_id v.2); vi_peer := addr_to_string (vp_peer v.2) |}) <$> vt_iter (c_vports c);
  in_probe := w_probe w;
|}.

(** Every socket, before anything is spawned. *)
Fixpoint bind_all w (bind : string) (shards : list nat) : result (list K) string :=
  match shards with
  | [] => Ok []
  | shard :: shards =>
      match w_bind w shard with
      | Err e => Err ("shard " ++ show_nat shard ++ " cannot bind " ++ bind ++ ": " ++ e)%string
      | Ok s => let? ss := bind_all w bind shards in Ok (s :: ss)
      end
  end.

Definition params_of (c : Config A) : ShardParams A :=
  {| topology := c_vports c; sp_inner_mtu := inner_mtu (nc_fabric (c_node c)) |}.

Definition thread_of (rx_batch : nat) (params : ShardParams A) (p : P) (m : Metrics) (punt : option Ring) (s : K) : Thread :=
  let sh := shard_new params s (engine p) m punt in
  {| th_shard := sh; th_arena := replicate rx_batch (replicate (slot_len params sh) (U8 0)); th_running := true |}.

(** [serve], up to the log line that says the node is ready. *)
Definition serve (oracle : bool) w (c : Config A) (p : P) : Startup Node :=
  let params := params_of c in
  let m := metrics_new (nc_id (c_node c)) (c_vports c) in
  let punt := (fun _ => punt_new (sp_inner_mtu params)) <$> c_punt c in
  match bind_all w (addr_to_string (nc_bind (c_node c))) (seq 0 (Z.to_nat (uv (nc_threads (c_node c))))) with
  | Err message => Fatal message
  | Ok sockets =>
      if negb (mints p) then Panicked
      else
        let threads := thread_of (w_rx_batch w) params p m punt <$> sockets in
        match w_ctl w with
        | Err e => Fatal ("control socket " ++ nc_ctl_socket (c_node c) ++ ": " ++ e)%string
        | Ok _ =>
            match w_watcher w with
            | Err e => Fatal e
            | Ok _ =>
                Running {|
                  nd_params := params;
                  nd_context := {| cx_info := node_info oracle w c p; cx_started_us := w_started_us w; cx_metrics := m;
                                   cx_tables := p; cx_punt := punt; cx_stop := false |};
                  nd_threads := threads |}
            end
        end
  end.

(** [run] from the loaded pipeline on. *)
Definition boot (oracle : bool) w (cli : Cli) (c : Config A) (p : P) : Startup Node :=
  match (match cli_tables cli with
         | None => (p, Ok 0%nat)
         | Some path => load_tables w path p
         end) with
  | (_, Err message) => Fatal message
  | (p, Ok _) => if cli_check cli then Checked else serve oracle w c p
  end.

(** ** Running *)

(** The shared counters and queue, handed to a shard and taken back. *)
Definition enter (c : Context P J) (sh : Shard E K) : Shard E K :=
  Build_Shard (sh_socket sh) (sh_engine sh) (cx_metrics c) (cx_punt c) (sh_tx sh) (sh_rx_seq sh) (sh_tx_seq sh).

Definition leave (sh : Shard E K) (c : Context P J) : Context P J :=
  {| cx_info := cx_info c; cx_started_us := cx_started_us c; cx_metrics := sh_metrics sh;
     cx_tables := cx_tables c; cx_punt := sh_punt sh; cx_stop := cx_stop c |}.

Inductive NodeEvent :=
  | NTurn (shard : nat) (now : u32)
  | NRequest (mono wall : u64) (r : CtlRequest)
  | NSignal.

(** One iteration of a shard's loop, or its end: on a request to stop it
    flushes and leaves; on an error it leaves and stops the node. *)
Definition turn (params : ShardParams A) (now : u32) (t : Thread) (c : Context P J) : Thread * Context P J :=
  if negb (th_running t) then (t, c)
  else if cx_stop c then
    let sh := flush_all params (enter c (th_shard t)) in
    ({| th_shard := sh; th_arena := th_arena t; th_running := false |}, leave sh c)
  else
    match run_turn params (fun _ _ => cx_tables c) now (th_arena t) (enter c (th_shard t)) with
    | (sh, arena, Ok _) => ({| th_shard := sh; th_arena := arena; th_running := true |}, leave sh c)
    | (sh, arena, Err _) =>
        ({| th_shard := sh; th_arena := arena; th_running := false |}, request_stop (leave sh c))
    end.

Definition node_step (ev : NodeEvent) (n : Node) : Node * list (CtlResponse J) :=
  match ev with
  | NTurn i now =>
      match nd_threads n !! i with
      | None => (n, [])
      | Some t =>
          let '(t, c) := turn (nd_params n) now t (nd_context n) in
          ({| nd_params := nd_params n; nd_context := c; nd_threads := <[i := t]> (nd_threads n) |}, [])
      end
  | NRequest mono wall r =>
      let '(c, reply) := handle mono wall r (nd_context n) in
      ({| nd_params := nd_params n; nd_context := c; nd_threads := nd_threads n |}, [reply])
  | NSignal =>
      ({| nd_params := nd_params n; nd_context := request_stop (nd_context n); nd_threads := nd_threads n |}, [])
  end.

Fixpoint node_run (evs : list NodeEvent) (n : Node) : Node * list (CtlResponse J) :=
  match evs with
  | [] => (n, [])
  | ev :: evs =>
      let '(n, out) := node_step ev n in
      let '(n, outs) := node_run evs n in
      (n, out ++ outs)
  end.
End node.
Arguments Node A {HA} P E K J : rename.
Arguments Thread E K : clear implicits.

(** ** The invariant of a node at work *)

Section invariant.
Context `{HA : Addr A} `{HT : TableOps P} {E : Type} {HE : Engine P E} `{HU : !Udp A K} {J : Type}.
Context {inv : P -> Prop} {HL : TableLaws P inv} {HEL : EngineLaws P E}.
Variable params : ShardParams A.
Context {HK : UdpLaws A K (sp_inner_mtu params)}.
Hypothesis mtu_fits : Z.of_nat (segment_len (sp_inner_mtu params)) <= 65535.
Hypothesis topology_built : exists entries errs, build entries errs = (errs, Some (topology params)).
Implicit Types n : Node A P E K J.
Implicit Types c : Context P J.
Implicit Types t : Thread E K.

(** The counters have a cell for every vport. *)
Definition metrics_ok (m : Metrics) : Prop := shaped m /\ length (m_vports m) = vt_len (topology params).

Record context_ok c : Prop := {
  co_tables : inv (cx_tables c);
  co_metrics : metrics_ok (cx_metrics c);
  co_punt : punt_ok params (cx_punt c);
}.

(** A shard between turns: in order, its slots as long as they were made, and
    nothing staged. *)
Record thread_ok c t : Prop := {
  tk_shard : shard_ok params (enter c (th_shard t));
  tk_slots : slots_ok params (th_arena t) (th_shard t);
  tk_idle : th_running t = true -> forall i, live params i -> idle i (th_shard t);
}.

Record node_ok n : Prop := {
  no_params : nd_params n = params;
  no_context : context_ok (nd_context n);
  no_threads : Forall (thread_ok (nd_context n)) (nd_threads n);
}.

(** A shard does not mind which counters it is handed. *)
Lemma thread_ok_context c c' t : metrics_ok (cx_metrics c') -> thread_ok c t -> thread_ok c' t.
Proof. intros Hm [[S1 S2 S3 S4 S5] T2 T3]. by split. Qed.

Lemma threads_ok_context c c' ts :
  metrics_ok (cx_metrics c') -> Forall (thread_ok c) ts -> Forall (thread_ok c') ts.
Proof. intros Hm Ht. eapply Forall_impl; [exact Ht |]. intros t. by apply thread_ok_context. Qed.

(** What a turn leaves of a shard, back among the others. *)
Lemma leave_ok c sh arena running :
  context_ok c -> shard_ok params sh -> punt_ok params (sh_punt sh) -> slots_ok params arena sh ->
  (running = true -> forall i, live params i -> idle i sh) ->
  context_ok (leave sh c) /\ thread_ok (leave sh c) {| th_shard := sh; th_arena := arena; th_running := running |}.
Proof. intros [C1 C2 C3] Hs Hp Ha Hi. pose proof Hs as [S1 S2 S3 S4 S5]. split; [by split | split; [by split | done | done]]. Qed.

Lemma turn_ok now t c :
  context_ok c -> thread_ok c t ->
  let '(t', c') := turn params now t c in
  context_ok c' /\ thread_ok c' t' /\ cx_info c' = cx_info c /\ cx_tables c' = cx_tables c /\
  (cx_stop c = true -> cx_stop c' = true) /\ length (th_arena t') = length (th_arena t) /\
  (cx_stop c = true -> th_running t' = false /\ forall i, live params i -> th_running t = true -> idle i (th_shard t')).
Proof.
  intros Hc Ht. unfold turn. pose proof Hc as [C1 C2 C3]. pose proof Ht as [T1 T2 T3].
  destruct (th_running t) eqn:Er; cbn [negb]; [| by split_and!].
  destruct (cx_stop c) eqn:Es.
  - destruct (flush_all_ok params topology_built _ T1) as [F1 F2].
    destruct (flush_all_keeps params (enter c (th_shard t))) as [F3 F4].
    destruct (leave_ok c _ (th_arena t) false Hc F1 (F3 C3)) as [L1 L2]; [| done |].
    { unfold slots_ok. by rewrite (slot_len_caps params (enter c (th_shard t))). }
    split_and!; try done. intros _. split; [done |]. intros i Hi _. by apply F2.
  - pose proof (run_turn_ok params mtu_fits topology_built (fun _ _ => cx_tables c) now (th_arena t) _ T1 C3 T2 (T3 eq_refl)) as Hr.
    destruct (run_turn _ _ _ _ _) as [[sh arena] r]. destruct Hr as (R1 & R2 & R3 & R4 & R5).
    destruct r as [u | e].
    + destruct (leave_ok c sh arena true Hc R1 R2 R3 (fun _ => R5)) as [L1 L2]. by split_and!.
    + destruct (leave_ok c sh arena false Hc R1 R2 R3) as [L1 L2]; [done |].
      split_and!; try done; [by destruct L1 | by destruct L2].
Qed.

Lemma handle_ok mono wall r c : context_ok c -> context_ok (handle mono wall r c).1.
Proof.
  intros [C1 C2 C3]. destruct (handle_steady mono wall r c C1) as [S1 S2 S3 S4 S5 _]. split; [done | by rewrite S3 |].
  clear S1 S2 S3 S4 S5. destruct r; cbn [handle]; try done.
  - by destruct (apply_entries _ _).
  - by destruct (parse_key _ _) as [[] |].
  - by destruct (rbind _ _) as [[] |].
  - by destruct (table_clear _ _).
  - destruct (cx_punt c) as [ring |] eqn:Er; cbn [fst]; [| by rewrite Er]. destruct C3 as [q Hq]. unfold punt_drain.
    rewrite (proj1 (rh_len _ _ _ _ Hq)).
    destruct (drain_holds _ _ ((max `min` PUNT_DRAIN_MAX) `min` length q) ring q Hq) as (r' & -> & Hr'); [lia |].
    cbn. by exists (drop ((max `min` PUNT_DRAIN_MAX) `min` length q) q).
Qed.

Definition is_request (ev : NodeEvent) : bool := match ev with NRequest _ _ _ => true | _ => false end.

Lemma node_step_ok ev n :
  node_ok n ->
  let '(n', replies) := node_step ev n in
  node_ok n' /\ length replies = (if is_request ev then 1 else 0)%nat /\ length (nd_threads n') = length (nd_threads n) /\
  cx_info (nd_context n') = cx_info (nd_context n) /\
  schemas (cx_tables (nd_context n')) = schemas (cx_tables (nd_context n)) /\
  (cx_stop (nd_context n) = true -> cx_stop (nd_context n') = true).
Proof.
  intros Hn. pose proof Hn as [N1 N2 N3]. destruct ev as [i now | mono wall r |]; cbn [node_step is_request].
  - destruct (nd_threads n !! i) as [t |] eqn:Ei; [| by split_and!]. rewrite Forall_lookup in N3.
    pose proof (turn_ok now t (nd_context n) N2 (N3 _ _ Ei)) as Ht. rewrite N1.
    destruct (turn params now t (nd_context n)) as [t' c']. destruct Ht as (T1 & T2 & T3 & T4 & T5 & _).
    cbn [nd_context nd_threads]. rewrite length_insert. split_and!; try done; [| by rewrite T4].
    split; [done | done |]. cbn [nd_context nd_threads]. apply Forall_insert; [| done].
    apply (threads_ok_context (nd_context n)); [apply T1 |]. by apply Forall_lookup.
  - pose proof (handle_ok mono wall r _ N2) as Hc. destruct (handle_steady mono wall r _ (co_tables _ N2)) as [S1 S2 S3 S4 S5 _].
    destruct (handle mono wall r (nd_context n)) as [c' reply]. cbn [fst] in *. cbn [nd_context nd_threads].
    split_and!; try done; [| intros Hst; by rewrite S5, Hst].
    split; [done | done |]. apply (threads_ok_context (nd_context n)); [apply Hc | done].
  - cbn [nd_context nd_threads]. split_and!; try done. split; [done | by destruct N2 |].
    apply (threads_ok_context (nd_context n)); [apply N2 | done].
Qed.

Lemma node_run_ok evs : forall n,
  node_ok n ->
  let '(n', replies) := node_run evs n in
  node_ok n' /\ length replies = length (filter is_request evs) /\ length (nd_threads n') = length (nd_threads n) /\
  cx_info (nd_context n') = cx_info (nd_context n) /\
  schemas (cx_tables (nd_context n')) = schemas (cx_tables (nd_context n)) /\
  (cx_stop (nd_context n) = true -> cx_stop (nd_context n') = true).
Proof.
  induction evs as [| ev evs IH]; intros n Hn; cbn [node_run]; [done |].
  pose proof (node_step_ok ev n Hn) as H1. destruct (node_step ev n) as [n1 out]. destruct H1 as (H1 & H2 & H3 & H4 & H5 & H6).
  specialize (IH n1 H1). destruct (node_run evs n1) as [n2 outs]. destruct IH as (I1 & I2 & I3 & I4 & I5 & I6).
  split_and!; [done | | congruence | congruence | congruence | auto].
  rewrite length_app, H2, I2, filter_cons. destruct (is_request ev); cbn; [rewrite decide_True by done | rewrite decide_False by naive_solver]; done.
Qed.

(** *** Stopping *)

(** One event, on a node that is to stop: a thread that has left its loop has
    nothing more done to it, and a turn makes it leave with nothing staged. *)
Lemma stopping_step ev i n t :
  node_ok n -> cx_stop (nd_context n) = true -> nd_threads n !! i = Some t ->
  exists t1, nd_threads (node_step ev n).1 !! i = Some t1 /\
    (th_running t = false \/ (forall now, ev <> NTurn i now) -> t1 = t) /\
    (th_running t = true -> (exists now, ev = NTurn i now) ->
       th_running t1 = false /\ forall j, live params j -> idle j (th_shard t1)).
Proof.
  intros [N1 N2 N3] Hs Ht. destruct ev as [k now | mono wall r |]; cbn [node_step].
  - destruct (decide (k = i)) as [-> | Hk].
    + rewrite Ht, N1. rewrite Forall_lookup in N3. pose proof (turn_ok now t _ N2 (N3 _ _ Ht)) as H1.
      assert (th_running t = false -> turn params now t (nd_context n) = (t, nd_context n)) as Hid by (unfold turn; by intros ->).
      destruct (turn params now t (nd_context n)) as [t' c']. destruct H1 as (_ & _ & _ & _ & _ & _ & T7). cbn [fst nd_threads].
      exists t'. rewrite list_lookup_insert_eq by (by eapply lookup_lt_Some). split; [done |]. split.
      * intros [Hr | Hno]; [specialize (Hid Hr); congruence | by destruct (Hno now)].
      * intros Hr _. destruct (T7 Hs) as [B1 B2]. split; [done |]. intros j Hj. by apply B2.
    + exists t. split; [| split; [done |]; intros _ [now' [= ->]]; done].
      destruct (nd_threads n !! k) as [tk |]; [| done]. destruct (turn _ _ _ _) as [t' c']. cbn. by rewrite list_lookup_insert_ne.
  - destruct (handle mono wall r (nd_context n)) as [c' reply]. exists t. split; [done |]. split; [done |]. by intros _ [now' ?].
  - exists t. split; [done |]. split; [done |]. by intros _ [now' ?].
Qed.

Lemma turn_of ev i : (exists now, ev = NTurn i now) \/ (forall now, ev <> NTurn i now).
Proof.
  destruct ev as [k now | |]; [| by right | by right]. destruct (decide (k = i)) as [-> |]; [left; by eexists | right; congruence].
Qed.

Lemma stopping evs i : forall n t,
  node_ok n -> cx_stop (nd_context n) = true -> nd_threads n !! i = Some t ->
  exists t', nd_threads (node_run evs n).1 !! i = Some t' /\
    (th_running t = false -> t' = t) /\
    (th_running t = true -> (exists now, NTurn i now ∈ evs) ->
       th_running t' = false /\ forall j, live params j -> idle j (th_shard t')).
Proof.
  induction evs as [| ev evs IH]; intros n t Hn Hs Ht; cbn [node_run].
  { exists t. split; [done |]. split; [done |]. intros _ [now H%not_elem_of_nil]. done. }
  pose proof (node_step_ok ev n Hn) as H1. destruct (stopping_step ev i n t Hn Hs Ht) as (t1 & Ht1 & A1 & A2).
  destruct (node_step ev n) as [n1 out]. cbn [fst] in *. destruct H1 as (H1 & _ & _ & _ & _ & H6).
  destruct (IH n1 t1 H1 (H6 Hs) Ht1) as (t' & Ht' & B1 & B2). destruct (node_run evs n1) as [n2 outs]. cbn [fst] in *.
  exists t'. split; [done |]. split; [intros Hr; rewrite <- (A1 (or_introl Hr)) at 1; apply B1; by rewrite (A1 (or_introl Hr)) |].
  intros Hr [now Hin]. destruct (turn_of ev i) as [He | He].
  - destruct (A2 Hr He) as [C1 C2]. by rewrite B1.
  - assert (t1 = t) as -> by (apply A1; by right).
    apply B2; [done |]. exists now. apply elem_of_cons in Hin as [<- | Hin]; [by destruct (He now) | done].
Qed.
End invariant.

(** ** A node that starts *)

Section starting.
Context `{HA : Addr A} `{HE : Pipeline P E} `{HU : !Udp A K} {J : Type}.
Context {inv : P -> Prop} {HL : TableLaws P inv} {HEL : EngineLaws P E}.
Implicit Types w : World A K J.

Lemma fabric_mtu_fits fabric : Z.of_nat (segment_len (inner_mtu fabric)) <= 65535.
Proof. by destruct fabric. Qed.

Lemma bind_all_length w bind l : forall ss, bind_all w bind l = Ok ss -> length ss = length l.
Proof.
  induction l as [| i l IH]; intros ss; cbn [bind_all]; [by intros [= <-] |].
  destruct (w_bind w i) as [s |]; [| done]. intros (ss' & H1 & [= <-])%rbind_Ok_inv. cbn. f_equal. by apply IH.
Qed.

Lemma shard_new_idle params (s : K) (e : E) m r i : live params i -> idle i (shard_new params s e m r).
Proof.
  intros Hi. exists (TxQueue_new (sp_inner_mtu params)). split; [| apply holds_new]. by apply lookup_replicate_2.
Qed.

Lemma load_tables_ok w path p :
  inv p -> inv (load_tables w path p).1 /\ schemas (load_tables w path p).1 = schemas p.
Proof.
  intros Hi. unfold load_tables. destruct (w_read w path) as [text |]; [| done]. destruct (w_json w text) as [batch |]; [| done].
  destruct (apply_from_spec (length (into_entries batch)) 0 (into_entries batch) p Hi) as (H1 & H2 & _).
  unfold apply_entries. by destruct (apply_from _ _ _ _) as [p' r].
Qed.

(** What [serve] starts: as many shards as the configuration says, all idle
    over new counters. *)
Lemma serve_ok oracle w (c : Config A) p n :
  well_built c -> inv p -> serve oracle w c p = Running n ->
  node_ok (inv := inv) (params_of c) n /\ length (nd_threads n) = Z.to_nat (uv (nc_threads (c_node c))) /\
  cx_info (nd_context n) = node_info oracle w c p /\ cx_tables (nd_context n) = p /\ cx_stop (nd_context n) = false /\
  Forall (fun t => th_running t = true) (nd_threads n).
Proof.
  intros [Hth Hb] Hi. unfold serve. destruct (bind_all _ _ _) as [ss |] eqn:Es; [| done]. apply bind_all_length in Es.
  rewrite length_seq in Es. destruct (negb (mints p)); [done |]. destruct (w_ctl w); [| done]. destruct (w_watcher w); [| done].
  intros [= <-]. cbn [nd_threads nd_context cx_info cx_tables cx_stop]. rewrite length_fmap.
  split; [| split_and!; try done; by apply Forall_fmap, Forall_true].
  set (m := metrics_new (nc_id (c_node c)) (c_vports c)). set (r := _ <$> c_punt c).
  assert (forall s : K, shard_ok (params_of c) (shard_new (params_of c) s (engine p) m r)) as Hs by (intros s; apply shard_ok_new).
  assert (metrics_ok (params_of c) m) as Hm by (split; [apply shaped_new | cbn [m m_vports metrics_new]; by rewrite length_fmap, length_seq]).
  split; [done | split; [done | exact Hm |] |].
  - cbn [cx_punt nd_context]. unfold r, punt_ok. destruct (c_punt c); [| done]. exists [].
    pose proof (ring_holds_new PUNT_DEPTH (inner_mtu (nc_fabric (c_node c)))) as Hn.
    rewrite Nat.max_l in Hn by (unfold PUNT_DEPTH; lia). exact Hn.
  - cbn [nd_threads nd_context]. apply Forall_fmap, Forall_true. intros s. split; cbn [th_shard th_arena thread_of compose].
    + exact (Hs s).
    + apply Forall_replicate, length_replicate.
    + intros _ i Hli. by apply shard_new_idle.
Qed.

Lemma boot_ok oracle w cli (c : Config A) p n :
  well_built c -> inv p -> boot oracle w cli c p = Running n ->
  node_ok (inv := inv) (params_of c) n /\ length (nd_threads n) = Z.to_nat (uv (nc_threads (c_node c))) /\
  schemas (cx_tables (nd_context n)) = schemas p /\ cx_stop (nd_context n) = false /\
  Forall (fun t => th_running t = true) (nd_threads n).
Proof.
  intros Hw Hi. unfold boot.
  assert (inv (match cli_tables cli with None => (p, Ok 0%nat) | Some path => load_tables w path p end).1 /\
          schemas (match cli_tables cli with None => (p, Ok 0%nat) | Some path => load_tables w path p end).1 = schemas p)
    as [H1 H2] by (destruct (cli_tables cli); [by apply load_tables_ok | done]).
  destruct (match cli_tables cli with None => _ | Some path => _ end) as [p' [k | e]]; [| done]. cbn [fst] in *.
  destruct (cli_check cli); [done |]. intros Hs. destruct (serve_ok oracle w c p' n Hw H1 Hs) as (N1 & N2 & _ & N4 & N5 & N6).
  rewrite N4. by split_and!.
Qed.
End starting.

(** ** Properties *)

(** C9: a node stays sound.  From start-up on, for any configuration that was
    accepted and any pipeline that keeps its contract, whatever arrives on the
    sockets, whatever the control channel is asked and however the two
    interleave: every shard keeps its invariant over the counters and the punt
    queue it shares with the others, with its receive slots as it made them and
    nothing left staged between turns; the tables keep theirs, under the schemas
    of the program; each request gets one reply; and no shard is lost. *)
Theorem node_stays_sound `{HA : Addr A} `{HE : Pipeline P E} `{HU : !Udp A K} {J} {inv : P -> Prop} {HL : TableLaws P inv}
    {HEL : EngineLaws P E} (oracle : bool) (w : World A K J) (cli : Cli) raw names (c : Config A) (p : P) n evs :
  UdpLaws A K (sp_inner_mtu (params_of c)) -> validate raw names = Ok c -> inv p -> boot oracle w cli c p = Running n ->
  let '(n', replies) := node_run evs n in
  node_ok (inv := inv) (params_of c) n' /\
  length (nd_threads n') = Z.to_nat (uv (nc_threads (c_node c))) /\
  length replies = length (filter is_request evs) /\
  cx_info (nd_context n') = cx_info (nd_context n) /\
  schemas (cx_tables (nd_context n')) = schemas p.
Proof.
  intros HK Hv%validate_well_built Hi Hb. destruct (boot_ok oracle w cli c p n Hv Hi Hb) as (N1 & N2 & N3 & _).
  pose proof (node_run_ok (params_of c) (fabric_mtu_fits _) (proj2 Hv) evs n N1) as Hr.
  destruct (node_run evs n) as [n' replies]. destruct Hr as (R1 & R2 & R3 & R4 & R5 & _). split_and!; [done | congruence | done | done | congruence].
Qed.

(** A node that is told to stop stops.  Once the flag is up, by a signal, a
    shutdown request or the failure of another shard, it stays up, and each
    shard leaves its loop at its next turn with every staged frame handed to
    the kernel; nothing that happens afterwards touches it. *)
Theorem node_stops `{HA : Addr A} `{HE : Pipeline P E} `{HU : !Udp A K} {J} {inv : P -> Prop} {HL : TableLaws P inv}
    {HEL : EngineLaws P E} (oracle : bool) (w : World A K J) (cli : Cli) raw names (c : Config A) (p : P) n before after :
  UdpLaws A K (sp_inner_mtu (params_of c)) -> validate raw names = Ok c -> inv p -> boot oracle w cli c p = Running n ->
  let n1 := (node_run before n).1 in
  cx_stop (nd_context n1) = true ->
  let n2 := (node_run after n1).1 in
  cx_stop (nd_context n2) = true /\
  forall i t, nd_threads n1 !! i = Some t -> (exists now, NTurn i now ∈ after) ->
    exists t', nd_threads n2 !! i = Some t' /\ th_running t' = false /\
      (th_running t = true -> forall j, live (params_of c) j -> idle j (th_shard t')).
Proof.
  intros HK Hv%validate_well_built Hi Hb n1 Hs n2. destruct (boot_ok oracle w cli c p n Hv Hi Hb) as (N1 & _).
  assert (node_ok (inv := inv) (params_of c) n1) as Hn1.
  { pose proof (node_run_ok (params_of c) (fabric_mtu_fits _) (proj2 Hv) before n N1) as Hr.
    unfold n1. destruct (node_run before n). apply Hr. }
  split.
  - pose proof (node_run_ok (params_of c) (fabric_mtu_fits _) (proj2 Hv) after n1 Hn1) as Hr.
    unfold n2. destruct (node_run after n1). by apply Hr.
  - intros i t Ht Hin.
    destruct (stopping (params_of c) (fabric_mtu_fits _) (proj2 Hv) after i n1 t Hn1 Hs Ht) as (t' & Ht' & H1 & H2).
    exists t'. split; [done |]. destruct (th_running t) eqn:Er; [destruct (H2 eq_refl Hin); by split |].
    rewrite H1 by done. by rewrite Er.
Qed.

(** A switch of two ports and one shard.  Its start-up batch says that the
    address the waiting frame is for is behind the second port. *)
Module Sample.

Definition addr : Addr string := {| addr_parse := Some; addr_to_string s := s |}.
#[local] Existing Instance addr.

Definition read : bytes * RecvMeta string :=
  (Wire.encode {| hdr_ingress_vport := U16 0; hdr_seq := Seq_new (U32 7); hdr_ts_us := U32 0 |} ++ replicate 14 (U8 2),
   {| rm_addr := "a"; rm_len := 26; rm_stride := 26 |}).

(** A socket with at most one datagram waiting, which keeps what it is given. *)
Record Kernel := { waiting : bool; sent : list (Transmit string) }.

#[local] Instance kernel : Udp string Kernel := {
  caps _ := {| rcvbuf := 212992%Z; sndbuf := 212992%Z; gro_segments := 1; max_gso_segments := 1;
                 may_fragment := false; reuse_port := false |};
  udp_try_send t s := ({| waiting := waiting s; sent := sent s ++ [t] |}, Ok tt);
  udp_recv s := if waiting s then ({| waiting := false; sent := sent s |}, Ok [read]) else (s, Err WouldBlock);
  udp_poll _ s := (s, Ok tt);
}.

#[local] Instance kernel_laws mtu : (14 <= mtu)%nat -> UdpLaws string Kernel mtu.
Proof.
  intros Hm. split; try done; try (intros []; cbn; by destruct waiting0).
  - intros [[] out] reads; [| done]. intros [= <-]. apply Forall_singleton. change (26 <= (12 + mtu) * 1)%nat. lia.
Qed.

Definition raw : RawConfig := {|
  rc_node := {| rn_id := "n"; rn_bind := "self"; rn_fabric := "ipv4"; rn_pipeline := "l2fwd"; rn_threads := U32 1;
                rn_pin_cores := None; rn_ctl_socket := "n.sock"; rn_metrics_interval_s := U64 0 |};
  rc_vport := [{| rv_id := 0; rv_peer := "a" |}; {| rv_id := 9; rv_peer := "b" |}];
  rc_punt := Some 65535;
|}.

Definition batch : EntryBatch :=
  Bare [{| es_table := "mac_dst"; es_key := "02:02:02:02:02:02"; es_action := "forward"; es_params := from_args ["port=9"] |}].

Definition world : World string Kernel unit := {|
  w_read _ := Ok EmptyString; w_toml _ := Ok raw; w_json _ := Ok batch;
  w_bind _ := Ok {| waiting := true; sent := [] |}; w_ctl := Ok tt; w_watcher := Ok tt; w_rx_batch := 1;
  w_probe := tt; w_version := "0"; w_started_us := U64 0;
|}.

Definition cli : Cli := {| cli_backend := None; cli_config := "n.toml"; cli_tables := Some "n.json"; cli_check := false |}.

Definition switch : L2.L2Fwd := L2.new {| vports := [] |}.

(** What is seen of the node after the frame, and a request to stop. *)
Definition before : list NodeEvent := [NTurn 0 (U32 5); NRequest (U64 0) (U64 0) ReqShutdown].

Definition seen (n : Node string L2.L2Fwd L2.L2Engine Kernel unit) : bool * list (bool * list (string * nat)) :=
  (cx_stop (nd_context n),
   (fun t => (th_running t, (fun x => (destination x, length (contents x))) <$> sent (sh_socket (th_shard t)))) <$> nd_threads n).

Definition observed : option (bool * (bool * list (bool * list (string * nat)))) :=
  match validate raw registry with
  | Ok c => match boot false world cli c switch with
            | Running n => Some ((14 <=? sp_inner_mtu (params_of c))%nat, seen (node_run before n).1)
            | _ => None
            end
  | Err _ => None
  end.

Lemma observed_eq : observed = Some (true, (true, [(true, [("b", 26%nat)])])).
Proof. vm_compute. reflexivity. Qed.

Lemma starts : exists c n, validate raw registry = Ok c /\ boot false world cli c switch = Running n /\
  (14 <= sp_inner_mtu (params_of c))%nat /\ seen (node_run before n).1 = (true, [(true, [("b", 26%nat)])]).
Proof.
  pose proof observed_eq as H. unfold observed in H.
  destruct (validate raw registry) as [c |] eqn:E1; [| discriminate H].
  destruct (boot false world cli c switch) as [| | | n] eqn:E2; try discriminate H.
  apply (inj Some), pair_equal_spec in H as [Hm%Nat.leb_le Hs]. exists c, n.
  exact (conj eq_refl (conj E2 (conj Hm Hs))).
Qed.

Lemma sound_witness : exists (c : Config string) (n : Node string L2.L2Fwd L2.L2Engine Kernel unit),
  let '(n', replies) := node_run (before ++ [NTurn 0 (U32 6)]) n in
  node_ok (inv := fun _ => True) (params_of c) n' /\ length replies = 1%nat.
Proof.
  destruct starts as (c & n & Hv & Hb & Hm & _). exists c, n.
  pose proof (node_stays_sound (P := L2.L2Fwd) (E := L2.L2Engine) (HE := L2.L2_Pipeline) (inv := fun _ => True)
    (HL := L2.L2_TableLaws) (HEL := L2.L2_EngineLaws)
    false world cli raw registry c switch n
    (before ++ [NTurn 0 (U32 6)]) (kernel_laws _ Hm) Hv I Hb) as H.
  destruct (node_run _ _) as [n' replies]. destruct H as (H1 & _ & H3 & _). by split.
Defined.
End Sample.
