(* ===== verification/Signal.v ===== *)
(** * Termination signals (crates/up4-io/src/signal.rs)

    The stop flag, the mask, and the thread that turns a signal into the flag.
    A process is what the kernel knows of it that matters here: the signals it
    blocks, those pending, whether the watcher is parked in [sigwait], and
    whether a default action has killed it. *)

From S2P Require Import Prelude.

Definition SIGINT : nat := 2.
Definition SIGTERM : nat := 15.
Definition TERMINATING : list nat := [SIGTERM; SIGINT].

(** The thread of [spawn_watcher]: not there, waiting, or returned. *)
Inductive Watcher := NoWatcher | Parked (set : list nat) | Returned (signum : option nat).

Record Process := mkProcess {
  blocked : list nat;
  pending : gset nat;
  watcher : Watcher;
  stop : bool;
  killed : option nat;
}.

(** [Stop::new], [requested], [request]: one flag, shared by every clone. *)
Definition stop_new : bool := false.
Definition requested (p : Process) : bool := stop p.
Definition request (p : Process) : Process := mkProcess (blocked p) (pending p) (watcher p) true (killed p).

Definition process_new : Process := mkProcess [] ∅ NoWatcher stop_new None.

(** [terminating_set], given whether the libc calls that build it succeed. *)
Definition terminating_set (built : option string) : result (list nat) string :=
  match built with Some e => Err e | None => Ok TERMINATING end.

(** [block_terminating_signals]; [masked] is the error of [pthread_sigmask]. *)
Definition block_terminating_signals (built masked : option string) (p : Process) : Process * result unit string :=
  match terminating_set built with
  | Err e => (p, Err e)
  | Ok set =>
      match masked with
      | Some e => (p, Err e)
      | None => (mkProcess (blocked p ++ set) (pending p) (watcher p) (stop p) (killed p), Ok tt)
      end
  end.

(** [spawn_watcher]; [spawned] is the error of creating the thread. *)
Definition spawn_watcher (built spawned : option string) (p : Process) : Process * result unit string :=
  match terminating_set built with
  | Err e => (p, Err e)
  | Ok set =>
      match spawned with
      | Some e => (p, Err e)
      | None => (mkProcess (blocked p) (pending p) (Parked set) (stop p) (killed p), Ok tt)
      end
  end.

(** What may happen: a signal is sent to the process; the watcher runs, its
    [sigwait] failing or not; anyone else sets the flag. *)
Inductive Happening := Sent (signum : nat) | Watch (fails : bool) | Requested.

(** The default action of either signal ends the process. *)
Definition happens (h : Happening) (p : Process) : Process :=
  match killed p with
  | Some _ => p
  | None =>
      match h with
      | Sent s =>
          if decide (s ∈ blocked p) then mkProcess (blocked p) ({[ s ]} ∪ pending p) (watcher p) (stop p) None
          else if decide (s ∈ TERMINATING) then mkProcess (blocked p) (pending p) (watcher p) (stop p) (Some s)
          else p
      | Watch fails =>
          match watcher p with
          | Parked set =>
              if fails then request (mkProcess (blocked p) (pending p) (Returned None) (stop p) None)
              else match list_find (fun s => s ∈ pending p) set with
                   | Some (_, s) =>
                       request (mkProcess (blocked p) (pending p ∖ {[ s ]}) (Returned (Some s)) (stop p) None)
                   | None => p
                   end
          | _ => p
          end
      | Requested => request p
      end
  end.

Definition happen_all (hs : list Happening) (p : Process) : Process := fold_left (fun p h => happens h p) hs p.

(** ** What the mask and the watcher give *)

(** A process that did what [up4d] does first. *)
Record guarded (p : Process) : Prop := {
  gd_alive : killed p = None;
  gd_mask : forall s, s ∈ TERMINATING -> s ∈ blocked p;
  gd_watch : watcher p = Parked TERMINATING \/ exists r, watcher p = Returned r /\ stop p = true;
}.

Lemma guarded_step h p : guarded p -> guarded (happens h p) /\ (stop p = true -> stop (happens h p) = true).
Proof.
  intros [Ha Hm Hw]. unfold happens. rewrite Ha. destruct h as [s | fails |].
  - destruct (decide (s ∈ blocked p)) as [| Hb]; [by split |].
    rewrite decide_False by (intros Hs; by apply Hb, Hm). by split.
  - destruct Hw as [Hw | (r & Hw & Hs)]; rewrite Hw; [| by split; [split; eauto |]].
    destruct fails; [split; [split; [done | done | right; eauto] | done] |].
    destruct (list_find _ _) as [[i s] |]; [split; [split; [done | done | right; eauto] | done] |].
    split; [split; eauto | done].
  - split; [| done]. split; [done | done |]. destruct Hw as [Hw | (r & Hw & _)]; [by left | right; eauto].
Qed.

Lemma guarded_run hs p : guarded p -> guarded (happen_all hs p) /\ (stop p = true -> stop (happen_all hs p) = true).
Proof.
  unfold happen_all. revert p. induction hs as [| h hs IH]; intros p Hp; [done |]. cbn [fold_left].
  destruct (guarded_step h p Hp) as [H1 H2]. destruct (IH _ H1) as [H3 H4]. split; [done | auto].
Qed.

Lemma guarded_start p :
  fst (spawn_watcher None None (fst (block_terminating_signals None None process_new))) = p -> guarded p.
Proof. intros <-. split; [done | done | by left]. Qed.

(** A node that masked the signals and started the watcher is never killed by
    one; once a signal was sent, the watcher's next turn sets the flag, and the
    flag stays set.  A second signal does not take its default action: it stays
    pending, since nobody waits for it and every thread blocks it. *)
Theorem signals_become_the_flag (p0 : Process) (hs : list Happening) :
  fst (spawn_watcher None None (fst (block_terminating_signals None None process_new))) = p0 ->
  let p := happen_all hs p0 in
  killed p = None
  /\ (forall s, s ∈ TERMINATING -> stop (happens (Watch false) (happens (Sent s) p)) = true)
  /\ (forall s, s ∈ TERMINATING -> watcher p <> Parked TERMINATING ->
        killed (happens (Sent s) p) = None /\ s ∈ pending (happens (Watch false) (happens (Sent s) p))).
Proof.
  intros Hp p. destruct (guarded_run hs p0 (guarded_start p0 Hp)) as [Hg _]. fold p in Hg.
  pose proof Hg as [Ha Hm Hw]. split; [done |].
  assert (forall s, s ∈ TERMINATING ->
    happens (Sent s) p = mkProcess (blocked p) ({[ s ]} ∪ pending p) (watcher p) (stop p) None) as Hsent.
  { intros s Hs. unfold happens. rewrite Ha. by rewrite decide_True by by apply Hm. }
  split.
  - intros s Hs. rewrite Hsent by done. unfold happens. cbn [killed watcher].
    destruct Hw as [Hw | (r & Hw & Hst)]; rewrite Hw; [| done].
    destruct (list_find _ _) as [[i x] |] eqn:E; [done |]. cbn [pending] in E.
    apply list_find_None in E. rewrite Forall_forall in E. exfalso. apply (E s Hs). set_solver.
  - intros s Hs Hn. rewrite Hsent by done. split; [done |]. unfold happens. cbn [killed watcher].
    destruct Hw as [Hw | (r & Hw & _)]; [done |]. rewrite Hw. cbn [pending]. set_solver.
Qed.

Lemma signals_witness :
  let p := fst (spawn_watcher None None (fst (block_terminating_signals None None process_new))) in
  stop (happen_all [Sent SIGTERM; Watch false] p) = true
  /\ killed (happen_all [Sent SIGTERM; Watch false; Sent SIGTERM] p) = None.
Proof.
  intros p. pose proof (signals_become_the_flag p [] eq_refl) as (_ & H & _).
  pose proof (signals_become_the_flag p [Sent SIGTERM; Watch false; Sent SIGTERM] eq_refl) as (Hk & _).
  split; [apply (H SIGTERM); left | exact Hk].
Defined.
