(* ===== verification/Snapshots.v ===== *)
(** * Counter snapshots on disk (crates/up4-metrics/src/snapshot.rs, crates/up4d/src/main.rs)

    [SnapshotWriter] over a [BufWriter] whose file may refuse bytes at any call,
    the thread that writes one snapshot an interval, and the last one, written
    when the node is down.  Files are byte strings; the pieces serde writes a
    snapshot in are a function, and what the file takes of each [write] a stream. *)

From S2P Require Import Prelude Bytes Text Config Metrics Messages.

Local Open Scope Z_scope.

(** ** [BufWriter] *)

(** The [n]-th call to the file: it takes everything, or some bytes and fails. *)
Definition Sink : Type := nat -> option (nat * string).

Definition BUF_CAPACITY : nat := Z.to_nat 8192.

Record Writer := mkWriter { sw_path : string; disk : list ascii; buffer : list ascii; calls : nat }.

Section writer.
Context (sink : Sink).

(** [inner.write_all]: what was taken, and what is left. *)
Definition write_out (data : list ascii) (w : Writer) : Writer * list ascii * result unit string :=
  match sink (calls w) with
  | None => (mkWriter (sw_path w) (disk w ++ data) (buffer w) (S (calls w)), [], Ok tt)
  | Some (n, e) => (mkWriter (sw_path w) (disk w ++ take n data) (buffer w) (S (calls w)), drop n data, Err e)
  end.

Definition set_buffer (b : list ascii) (w : Writer) : Writer := mkWriter (sw_path w) (disk w) b (calls w).

(** [BufWriter::flush_buf]: what the file did not take stays in the buffer. *)
Definition flush_buf (w : Writer) : Writer * result unit string :=
  match buffer w with
  | [] => (w, Ok tt)
  | data => let '(w, left_, r) := write_out data w in (set_buffer left_ w, r)
  end.

(** [BufWriter::write_all] *)
Definition buf_write (data : list ascii) (w : Writer) : Writer * result unit string :=
  let '(w, r) := if (BUF_CAPACITY <? length (buffer w) + length data)%nat then flush_buf w else (w, Ok tt) in
  match r with
  | Err e => (w, Err e)
  | Ok _ =>
      if (BUF_CAPACITY <=? length data)%nat then let '(w, _, r) := write_out data w in (w, r)
      else (set_buffer (buffer w ++ data) w, Ok tt)
  end.

Fixpoint buf_write_all (pieces : list (list ascii)) (w : Writer) : Writer * result unit string :=
  match pieces with
  | [] => (w, Ok tt)
  | p :: pieces =>
      match buf_write p w with
      | (w, Err e) => (w, Err e)
      | (w, Ok _) => buf_write_all pieces w
      end
  end.

(** ** [SnapshotWriter] *)

(** The pieces serde writes a snapshot in, one call of [write_all] each. *)
Context (pieces : Snapshot -> list (list ascii)).

(** [SnapshotWriter::open] of a file that holds [contents]; opening may fail. *)
Definition sw_open (opened : result (list ascii) string) (dir node : string) : result Writer string :=
  let path := (dir ++ "/up4-metrics-" ++ node ++ ".jsonl")%string in
  let? contents := opened in
  Ok (mkWriter path contents [] 0).

(** [SnapshotWriter::append] *)
Definition append (s : Snapshot) (w : Writer) : Writer * result unit string :=
  match buf_write_all (pieces s) w with
  | (w, Err e) => (w, Err e)
  | (w, Ok _) =>
      match buf_write [chr 10] w with
      | (w, Err e) => (w, Err e)
      | (w, Ok _) => flush_buf w
      end
  end.

(** [BufWriter]'s [Drop]: one more attempt, whose failure nobody hears of. *)
Definition sw_drop (w : Writer) : list ascii := disk (flush_buf w).1.

(** ** The snapshot thread ([spawn_snapshot_writer]) *)

(** A pass of the loop: whether a stop was requested before it, the instant
    after its sleep, and the counters then. *)
Record Tick := { t_stop : bool; t_now : Z; t_snapshot : Snapshot }.

Record SnapThread := mkSnapThread { writer : option Writer; next : Z; due : nat }.

(** One pass that was not asked to stop; [due] counts the snapshots attempted. *)
Definition snap_pass (interval : Z) (t : Tick) (s : SnapThread) : SnapThread :=
  if t_now t <? next s then s
  else mkSnapThread ((fun w => (append (t_snapshot t) w).1) <$> writer s) (next s + interval) (S (due s)).

Fixpoint snap_loop (interval : Z) (ticks : list Tick) (s : SnapThread) : SnapThread :=
  match ticks with
  | [] => s
  | t :: ticks => if t_stop t then s else snap_loop interval ticks (snap_pass interval t s)
  end.

Definition snap_start (interval start : Z) (opened : result Writer string) : SnapThread :=
  mkSnapThread (to_option opened) (start + interval) 0.

(** [write_final_snapshot]: nothing without an interval; else the file is opened
    again, now that the thread has closed it. *)
Definition write_final_snapshot (interval : option Z) (opened : result Writer string) (s : Snapshot)
    : result (option Writer) string :=
  match interval with
  | None => Ok None
  | Some _ =>
      let? w := opened in
      match append s w with
      | (w, Ok _) => Ok (Some w)
      | (_, Err e) => Err e
      end
  end.

(** ** Lemmas: no byte is lost or reordered *)

(** All that was ever handed over: on disk, or waiting. *)
Definition stream (w : Writer) : list ascii := disk w ++ buffer w.

Lemma flush_buf_spec w :
  stream (flush_buf w).1 = stream w /\ ((flush_buf w).2 = Ok tt -> buffer (flush_buf w).1 = []).
Proof.
  unfold flush_buf. destruct (buffer w) as [| c b] eqn:E; [by split |]. unfold write_out, stream.
  destruct (sink (calls w)) as [[n e] |]; cbn [fst snd set_buffer disk buffer].
  - split; [| done]. by rewrite E, <-app_assoc, take_drop.
  - split; [| done]. by rewrite E, app_nil_r.
Qed.

Lemma buf_write_spec data w :
  (exists done_ rest, data = done_ ++ rest /\ stream (buf_write data w).1 = stream w ++ done_)
  /\ ((buf_write data w).2 = Ok tt -> stream (buf_write data w).1 = stream w ++ data).
Proof.
  unfold buf_write.
  set (first := if (BUF_CAPACITY <? _)%nat then flush_buf w else (w, Ok tt)).
  assert (stream first.1 = stream w
          /\ (first.2 = Ok tt -> (BUF_CAPACITY <= length data)%nat -> buffer first.1 = [] \/ length data = BUF_CAPACITY)) as [Hs He].
  { unfold first. destruct (flush_buf_spec w) as [H1 H2]. destruct (Nat.ltb_spec BUF_CAPACITY (length (buffer w) + length data)).
    - split; [done |]. intros H3 _. left. by apply H2.
    - split; [done |]. cbn [fst snd]. intros _ Hl. right. lia. }
  assert (forall x, (BUF_CAPACITY <= length data)%nat -> first = (x, Ok tt) -> buffer x = []) as Hb.
  { intros x Hl Hx. unfold first in Hx. destruct (flush_buf_spec w) as [_ H2].
    destruct (Nat.ltb_spec BUF_CAPACITY (length (buffer w) + length data)).
    - rewrite Hx in H2. by apply H2.
    - injection Hx as <-. destruct (buffer w); [done |]. cbn [length] in *. lia. }
  destruct first as [x [[] | e]] eqn:Ef; cbn [fst snd] in *.
  - destruct (Nat.leb_spec BUF_CAPACITY (length data)) as [Hl | Hl].
    + specialize (Hb x Hl eq_refl). assert (disk x = stream w) as Hd by (rewrite <-Hs; unfold stream; by rewrite Hb, app_nil_r).
      unfold write_out. destruct (sink (calls x)) as [[n e] |]; unfold stream at 1 3; cbn [fst snd disk buffer].
      * split; [| done]. exists (take n data), (drop n data). by rewrite take_drop, Hb, app_nil_r, Hd.
      * rewrite Hb, app_nil_r, Hd. split; [exists data, []; by rewrite app_nil_r | done].
    + assert (stream (set_buffer (buffer x ++ data) x) = stream w ++ data) as E
        by (rewrite <-Hs; unfold stream; cbn [set_buffer disk buffer]; by rewrite app_assoc).
      cbn [fst snd]. split; [exists data, []; by rewrite app_nil_r | done].
  - split; [| done]. exists [], data. by rewrite app_nil_r.
Qed.

Lemma buf_write_all_spec ps w :
  (exists done_ rest, concat ps = done_ ++ rest /\ stream (buf_write_all ps w).1 = stream w ++ done_)
  /\ ((buf_write_all ps w).2 = Ok tt -> stream (buf_write_all ps w).1 = stream w ++ concat ps).
Proof.
  revert w. induction ps as [| p ps IH]; intros w; cbn [buf_write_all concat].
  { cbn [fst snd]. split; [exists [], [] | intros _]; by rewrite !app_nil_r. }
  destruct (buf_write_spec p w) as [(d & r & Ep & Es) Hok]. destruct (buf_write p w) as [w1 [[] | e]]; cbn [fst snd] in *.
  - destruct (IH w1) as [(d' & r' & Ep' & Es') Hok'].
    split.
    + exists (p ++ d'), r'. by rewrite Ep', Es', (Hok eq_refl), <-!app_assoc.
    + intros H. rewrite (Hok' H), (Hok eq_refl). by rewrite <-app_assoc.
  - split; [| done]. exists d, (r ++ concat ps). by rewrite Ep, app_assoc.
Qed.

(** The line of a snapshot. *)
Definition line_of (s : Snapshot) : list ascii := concat (pieces s) ++ [chr 10].

Lemma append_spec s w :
  (exists done_ rest, line_of s = done_ ++ rest /\ stream (append s w).1 = stream w ++ done_)
  /\ ((append s w).2 = Ok tt -> disk (append s w).1 = stream w ++ line_of s /\ buffer (append s w).1 = []).
Proof.
  unfold append, line_of. destruct (buf_write_all_spec (pieces s) w) as [(d & r & Ep & Es) Hok].
  destruct (buf_write_all (pieces s) w) as [w1 [[] | e]]; cbn [fst snd] in *.
  2: { split; [| done]. exists d, (r ++ [chr 10]). by rewrite Ep, app_assoc. }
  destruct (buf_write_spec [chr 10] w1) as [(d' & r' & Ep' & Es') Hok'].
  destruct (buf_write [chr 10] w1) as [w2 [[] | e]]; cbn [fst snd] in *.
  - destruct (flush_buf_spec w2) as [Hf Hb].
    assert (stream (flush_buf w2).1 = stream w ++ concat (pieces s) ++ [chr 10]) as E
      by (rewrite Hf, (Hok' eq_refl), (Hok eq_refl); by rewrite <-app_assoc).
    split.
    + exists (concat (pieces s) ++ [chr 10]), []. by rewrite app_nil_r.
    + intros H. specialize (Hb H). split; [| done]. rewrite <-E. unfold stream. by rewrite Hb, app_nil_r.
  - split; [| done]. exists (concat (pieces s) ++ d'), r'. rewrite Es', (Hok eq_refl), Ep'.
    by rewrite <-!app_assoc.
Qed.

(** Snapshots handed to one writer, whichever of them failed. *)
Definition append_all (ss : list Snapshot) (w : Writer) : Writer := fold_left (fun w s => (append s w).1) ss w.

Lemma append_keeps s w : exists x, stream (append s w).1 = stream w ++ x.
Proof. destruct (append_spec s w) as [(d & r & _ & E) _]. eauto. Qed.

Lemma append_all_keeps ss w : exists x, stream (append_all ss w) = stream w ++ x.
Proof.
  unfold append_all. revert w. induction ss as [| s ss IH]; intros w; [exists []; by rewrite app_nil_r |].
  cbn [fold_left]. destruct (append_keeps s w) as [x Hx]. destruct (IH (append s w).1) as [y Hy].
  exists (x ++ y). by rewrite Hy, Hx, app_assoc.
Qed.

(** C29: A line that was reported written is in the file, whole: if [append]
    returns without an error, then whatever the file refused before, it now holds
    all that was ever handed over, in order, and the snapshot's line at its end,
    with nothing waiting in memory; so a process killed then loses none of it.
    And what [append] leaves behind when it fails is a beginning of the line,
    after what was there. *)
Theorem appended_lines_are_on_disk (before : list Snapshot) (s : Snapshot) (w : Writer) :
  let w1 := append_all before w in
  let '(w2, r) := append s w1 in
  match r with
  | Ok _ => disk w2 = stream w1 ++ line_of s /\ buffer w2 = []
  | Err _ => exists written rest, line_of s = written ++ rest /\ stream w2 = stream w1 ++ written
  end
  /\ exists x, stream w1 = stream w ++ x.
Proof.
  intros w1. destruct (append_spec s w1) as [Hp Hok]. pose proof (append_all_keeps before w) as Hk.
  destruct (append s w1) as [w2 [[] | e]]; cbn [fst snd] in *; (split; [| exact Hk]); [by apply Hok | done].
Qed.

(** ** The schedule *)

(** Passes that are at most an interval apart, from [prev] on. *)
Fixpoint paced (interval prev : Z) (ticks : list Tick) : Prop :=
  match ticks with
  | [] => True
  | t :: ticks =>
      t_stop t = false /\ prev <= t_now t <= prev + interval /\ paced interval (t_now t) ticks
  end.

(** The counters at each pass that is the first in its interval. *)
Fixpoint crossings (interval start prev : Z) (ticks : list Tick) : list Snapshot :=
  match ticks with
  | [] => []
  | t :: ticks =>
      (if decide ((t_now t - start) / interval = (prev - start) / interval) then [] else [t_snapshot t])
      ++ crossings interval start (t_now t) ticks
  end.

Fixpoint last_now (prev : Z) (ticks : list Tick) : Z :=
  match ticks with [] => prev | t :: ticks => last_now (t_now t) ticks end.

(** Between passes: the next snapshot is due at the next boundary. *)
Record on_time (interval start prev : Z) (s : SnapThread) : Prop := {
  ot_due : Z.of_nat (due s) = (prev - start) / interval;
  ot_next : next s = start + (Z.of_nat (due s) + 1) * interval;
}.

Lemma snap_pass_on_time interval start prev t s :
  0 < interval -> prev <= t_now t <= prev + interval -> on_time interval start prev s ->
  on_time interval start (t_now t) (snap_pass interval t s)
  /\ writer (snap_pass interval t s)
     = append_all (if decide ((t_now t - start) / interval = (prev - start) / interval) then [] else [t_snapshot t])
         <$> writer s.
Proof.
  intros Hi Ht [Hd Hn]. unfold snap_pass.
  pose proof (Z.div_mod (prev - start) interval ltac:(lia)) as E1.
  pose proof (Z.mod_pos_bound (prev - start) interval Hi) as B1.
  destruct (Z.ltb_spec (t_now t) (next s)) as [Hlt | Hge].
  - assert ((t_now t - start) / interval = (prev - start) / interval) as Eq.
    { symmetry. apply (Z.div_unique_pos _ _ _ (t_now t - start - interval * ((prev - start) / interval))); nia. }
    rewrite decide_True by done. split; [split; [by rewrite Eq | done] |].
    unfold append_all. cbn [fold_left]. by destruct (writer s).
  - assert ((t_now t - start) / interval = (prev - start) / interval + 1) as Eq.
    { symmetry. apply (Z.div_unique_pos _ _ _ (t_now t - start - interval * ((prev - start) / interval + 1))); nia. }
    rewrite decide_False by lia. split; [split; cbn [due next]; lia |]. done.
Qed.

Lemma snap_loop_on_time interval start prev ticks s :
  0 < interval -> paced interval prev ticks -> on_time interval start prev s ->
  on_time interval start (last_now prev ticks) (snap_loop interval ticks s)
  /\ writer (snap_loop interval ticks s) = append_all (crossings interval start prev ticks) <$> writer s.
Proof.
  intros Hi. revert prev s. induction ticks as [| t ticks IH]; intros prev s Hp Hs.
  { split; [done |]. unfold append_all. cbn [snap_loop crossings fold_left]. by destruct (writer s). }
  destruct Hp as (Hst & Ht & Hp). cbn [snap_loop last_now crossings]. rewrite Hst.
  destruct (snap_pass_on_time interval start prev t s Hi Ht Hs) as [H1 H2].
  destruct (IH _ _ Hp H1) as [H3 H4]. split; [done |]. rewrite H4, H2.
  destruct (writer s) as [w |]; [| done]. cbn [fmap option_fmap option_map]. f_equal.
  unfold append_all. by rewrite fold_left_app.
Qed.

(** C39: Snapshots keep their schedule.  While the thread is not delayed by more
    than an interval, it attempts one snapshot for each boundary that passes,
    counted from its start and not from its last one, so that no delay adds up;
    it takes the counters at the first pass past the boundary, and hands them to
    the file in order, whatever the file refused before. *)
Theorem snapshots_keep_their_schedule interval start ticks opened :
  0 < interval -> paced interval start ticks ->
  let s := snap_loop interval ticks (snap_start interval start opened) in
  Z.of_nat (due s) = (last_now start ticks - start) / interval
  /\ next s = start + (Z.of_nat (due s) + 1) * interval
  /\ writer s = append_all (crossings interval start start ticks) <$> to_option opened.
Proof.
  intros Hi Hp s.
  destruct (snap_loop_on_time interval start start ticks (snap_start interval start opened) Hi Hp) as [[H1 H2] H3].
  { split; cbn [snap_start due next]; [by rewrite Z.sub_diag, Z.div_0_l by lia | lia]. }
  done.
Qed.

End writer.

(** A disk that takes everything, and one that is full at its first call. *)
Module Disk.

Definition roomy : Sink := fun _ => None.
Definition full_once : Sink := fun n => if (n =? 0)%nat then Some (0%nat, "No space left on device (os error 28)"%string) else None.

Definition counters (n : Z) : Snapshot :=
  {| sn_node := "n"; sn_ts_us := U64 n; sn_counters := ∅; sn_harness_drops := U64 0; sn_vports := []; sn_histograms := ∅ |}.

Definition json (s : Snapshot) : list (list ascii) := [chars "{"; dec (uv (sn_ts_us s)); chars "}"].
Definition fresh : Writer := mkWriter "up4-metrics-n.jsonl" [] [] 0.

(** A first line refused for want of room is on disk with the second. *)
Lemma appended_witness :
  (append full_once json (counters 1) fresh).2 = Err "No space left on device (os error 28)"%string
  /\ disk (append full_once json (counters 2) (append full_once json (counters 1) fresh).1).1
     = chars "{1}" ++ [chr 10] ++ chars "{2}" ++ [chr 10].
Proof.
  split; [reflexivity |].
  pose proof (appended_lines_are_on_disk full_once json [counters 1] (counters 2) fresh) as [[H _] _].
  vm_compute in H. vm_compute. exact H.
Defined.

Definition pass_at (now : Z) : Tick := {| t_stop := false; t_now := now; t_snapshot := counters now |}.

Lemma schedule_witness :
  let s := snap_loop roomy json 100 [pass_at 50; pass_at 101; pass_at 160; pass_at 220; pass_at 290] (snap_start 100 0 (Ok fresh)) in
  due s = 2%nat /\ next s = 300 /\ disk <$> writer s = Some (chars "{101}" ++ [chr 10] ++ chars "{220}" ++ [chr 10]).
Proof.
  pose proof (snapshots_keep_their_schedule roomy json 100 0 [pass_at 50; pass_at 101; pass_at 160; pass_at 220; pass_at 290]
    (Ok fresh) ltac:(lia) ltac:(cbn; lia)) as (H1 & H2 & H3).
  cbv zeta. split; [apply Nat2Z.inj; rewrite H1; reflexivity |]. split; [rewrite H2, H1; reflexivity |].
  rewrite H3. vm_compute. reflexivity.
Defined.

(** A snapshot too large for the buffer, refused in the middle: the next one that
    is written, and reported written, begins on the same line. *)
Definition large (s : Snapshot) : list (list ascii) :=
  match uv (sn_ts_us s) with 1 => [replicate (Z.to_nat 8000) "a"%char; replicate 200 "b"%char] | _ => json s end.

Lemma failed_append_tears_a_line :
  let w := (append full_once large (counters 1) fresh).1 in
  (append full_once large (counters 2) w).2 = Ok tt
  /\ disk (append full_once large (counters 2) w).1 = replicate (Z.to_nat 8000) "a"%char ++ chars "{2}" ++ [chr 10].
Proof. vm_compute. split; reflexivity. Qed.

End Disk.
