(* ===== verification/Up4d.v ===== *)
(** * The daemon (crates/up4d/src/main.rs, [run])

    From a command line and two files to a node: the configuration, the program
    and backend it asks for, the pipeline, the start-up batch, and the node. *)

From S2P Require Import Prelude Shim Engine Catalog Config Socket Ctl Load Node X4cRuntime X4cModel UbpfVm UbpfPipeline.

Section daemon.
Context {BV M : Type} `{HB : Bitvec BV} `{HR : !P4rt BV} `{HM : Rbpf M}.
Variables (jit oracle : bool).
Context `{HA : Addr A} `{HU : !Udp A K} {J : Type}.
Implicit Types w : World A K J.

(** A start-up, of the pipeline that was loaded or of none. *)
Inductive Launched :=
  | Refused (message : string)
  | Unloadable
  | Launch (P E : Type) (HT : TableOps P) (HE : Engine P E) (HP : Pipeline P E) (s : Startup (Node A P E K J)).

(** [PipelineParams::new] over the vports of a configuration. *)
Definition pipeline_params (c : Config A) : PipelineParams :=
  {| vports := (fun v => vport_id (vp_id v.2)) <$> vt_iter (c_vports c) |}.

Definition launch w (cli : Cli) (c : Config A) (o : Object) : Launched :=
  let '(Obj P E HT HE HP p) := o in Launch P E HT HE HP (boot oracle w cli c p).

(** [run] *)
Definition run w (cli : Cli) : Launched :=
  match config_load w (cli_config cli) with
  | Err message => Refused message
  | Ok c =>
      match selection_parse oracle (nc_pipeline (c_node c)) (cli_backend cli) with
      | Err e => Refused (select_error_to_string e)
      | Ok sel =>
          match Load.build (BV := BV) (M := M) jit sel (pipeline_params c) with
          | None => Unloadable
          | Some o => launch w cli c o
          end
      end
  end.

Lemma config_load_accepts w path c :
  config_load w path = Ok c -> exists raw, validate raw registry = Ok c.
Proof.
  unfold config_load, load, from_toml. destruct (w_read w path) as [src |]; [| done].
  destruct (w_toml w src) as [raw |]; [| done].
  destruct (validate raw registry) as [c' |] eqn:Ev; [| done]. intros [= <-]. by exists raw.
Qed.

Lemma registered name : name ∈ registry -> exists program, name = program_name program.
Proof. unfold registry. intros (p & -> & _)%list_elem_of_fmap. by exists p. Qed.

(** What the command line lets through as a backend. *)
Definition backend_given (given : option string) (b : Backend) : Prop :=
  given = Some (backend_name b) \/ given = None /\ b = Native.

Lemma selection_registered program given b :
  backend_given given b -> selection_parse oracle (program_name program) given = Ok (P4 program b).
Proof. intros [-> | [-> ->]]; destruct oracle, program; try destruct b; reflexivity. Qed.

Lemma build_total program b params :
  exists o, Load.build (BV := BV) (M := M) jit (P4 program b) params = Some o /\ obj_name o = selection_name (P4 program b).
Proof.
  destruct b; cbn [Load.build].
  - eexists. split; [reflexivity |]. by destruct program.
  - eexists. split; [reflexivity |]. rewrite wrap_name. by destruct program.
  - destruct (ubpf_loads (M := M) jit program) as (q & -> & Hd & _). eexists. split; [reflexivity |]. rewrite wrap_name.
    cbn [obj_name pipeline_name Ubpf_Pipeline]. rewrite Hd. by destruct program.
Qed.

(** C37: the daemon runs what it was configured to.  A configuration that is
    accepted, with any backend the command line lets through, names a program
    of the catalog, and that program on that backend is what is loaded and
    started: past validation no name is unknown and nothing is unloadable.  A
    configuration that is refused stops the process with its message.  The
    oracle is never started, whether or not it is compiled in. *)
Theorem runs_what_is_configured w (cli : Cli) :
  (exists b, backend_given (cli_backend cli) b) ->
  match config_load w (cli_config cli) with
  | Err message => run w cli = Refused message
  | Ok c =>
      exists program b o,
        nc_pipeline (c_node c) = program_name program /\ backend_given (cli_backend cli) b /\
        Load.build (BV := BV) (M := M) jit (P4 program b) (pipeline_params c) = Some o /\
        obj_name o = selection_name (P4 program b) /\ run w cli = launch w cli c o
  end.
Proof.
  intros [b Hb]. unfold run. destruct (config_load _ _) as [c |] eqn:Ec; [| done].
  apply config_load_accepts in Ec as (raw & Hv%validate_pipeline). apply registered in Hv as [program Hp].
  destruct (build_total program b (pipeline_params c)) as (o & Ho & Hn).
  exists program, b, o. rewrite Hp, (selection_registered program _ b Hb), Ho. by split_and!.
Qed.
End daemon.

(** The sample switch, asked for on the x4c backend. *)
#[local] Existing Instances Sample.addr Sample.kernel Toy.machine.

Lemma runs_witness : exists (c : Config string) o,
  Load.build (BV := BitVec) (M := unit) false (P4 PL2Fwd X4c) (pipeline_params c) = Some o /\
  run (BV := BitVec) (M := unit) false true Sample.world
    {| cli_backend := Some "x4c"; cli_config := "n.toml"; cli_tables := None; cli_check := false |}
  = launch true Sample.world {| cli_backend := Some "x4c"; cli_config := "n.toml"; cli_tables := None; cli_check := false |} c o.
Proof.
  pose proof (runs_what_is_configured (BV := BitVec) (M := unit) false true Sample.world
    {| cli_backend := Some "x4c"; cli_config := "n.toml"; cli_tables := None; cli_check := false |}
    (ex_intro _ X4c (or_introl eq_refl))) as H.
  destruct Sample.starts as (c & _ & Hv & _). cbn [cli_config cli_backend] in H.
  assert (config_load Sample.world "n.toml" = Ok c) as Hc by (unfold config_load, load, from_toml; cbn [Sample.world w_read w_toml]; by rewrite Hv).
  rewrite Hc in H. destruct H as (program & b & o & Hp & Hb & Ho & _ & Hr). exists c, o.
  assert (match validate Sample.raw registry with Ok c => nc_pipeline (c_node c) = "l2fwd" | Err _ => False end) as Hl
    by (vm_compute; reflexivity).
  rewrite Hv, Hp in Hl. destruct program; [| discriminate Hl]. destruct Hb as [Hb | [Hb _]]; [| discriminate Hb].
  destruct b; try discriminate Hb. exact (conj Ho Hr).
Defined.
