(* ===== verification/Lifecycle.v ===== *)
(** * From the command line to the exit code (crates/up4d/src/main.rs)

    [main] around [run], the peer the probe is asked about, and the end of
    [serve]: the wait for the threads, the final snapshot and the exit code. *)

From S2P Require Import Prelude Bytes Text Lines Shim Engine L2Fwd Wire Config Metrics Socket Shard Messages Ctl Turn X4cRuntime X4cModel UbpfVm UbpfPipeline Load Node Signal Snapshots Up4d.

(** ** The peer to probe *)

(** [str::trim_matches(char)] *)
Fixpoint trim_start_matches (c : ascii) (cs : list ascii) : list ascii :=
  match cs with
  | a :: cs' => if Ascii.eqb a c then trim_start_matches c cs' else cs
  | [] => []
  end.

Definition trim_matches (c : ascii) (cs : list ascii) : list ascii :=
  reverse (trim_start_matches c (reverse (trim_start_matches c cs))).

Definition peer_line `{Addr A} (l : list ascii) : option A :=
  match split_once "=" l with
  | None => None
  | Some (k, v) =>
      if bool_decide (trim k = chars "peer") then addr_parse (unchars (trim_matches quote (trim v))) else None
  end.

(** [first_peer], given what reading the file returns; the probe is told the
    address without its port. *)
Definition first_peer `{Addr A} (text : result string string) : option A :=
  match text with
  | Err _ => None
  | Ok text => head (omap peer_line (lines (chars text)))
  end.

(** ** [main] *)

Definition EXIT_STARTUP : nat := 2.

Section main.
Context {BV M : Type} `{HB : Bitvec BV} `{HR : !P4rt BV} `{HM : Rbpf M}.
Variables (jit oracle : bool).
Context `{HA : Addr A} `{HU : !Udp A K} {J : Type}.
Implicit Types w : World A K J.

(** What has become of the process: it left with a code and its last words, a
    panic killed it, or its node is up. *)
Inductive Outcome :=
  | Exited (code : nat) (said : string)
  | Aborted
  | Up (P E : Type) (HT : TableOps P) (HE : Engine P E) (HP : Pipeline P E) (n : Node A P E K J).

Definition main (built masked : option string) w (cli : Cli) : Outcome :=
  match (block_terminating_signals built masked process_new).2 with
  | Err e => Exited EXIT_STARTUP ("up4d: cannot block terminating signals: " ++ e)
  | Ok _ =>
      match Up4d.run (BV := BV) (M := M) jit oracle w cli with
      | Refused message => Exited EXIT_STARTUP message
      | Unloadable => Aborted
      | Launch P E HT HE HP s =>
          match s with
          | Fatal message => Exited EXIT_STARTUP message
          | Checked => Exited 0 "configuration and tables are valid"
          | Panicked => Aborted
          | Running n => Up P E HT HE HP n
          end
      end
  end.
End main.

(** ** The end of [serve] *)

Record Ended := { en_code : nat; en_snapshot : Snapshot; en_written : result (option Writer) string }.

Section ending.
Context `{HA : Addr A} `{HE : Pipeline P E} `{HU : !Udp A K} {J : Type}.
Implicit Types n : Node A P E K J.

(** Every shard joined, and the loop that waits for the flag left.  The control
    and snapshot threads, joined next, leave by themselves once the flag is up
    ([Server.conversations_end], [snap_loop]). *)
Definition joined n : bool :=
  cx_stop (nd_context n) && forallb (fun t => negb (th_running t)) (nd_threads n).

(** The rest of [serve]; [None] while it still waits. *)
Definition unwind (sink : Sink) (pieces : Snapshot -> list (list ascii)) (wall : u64) (c : Config A)
    (opened : result Writer string) n : option Ended :=
  if joined n then
    let s := Metrics.snapshot wall (cx_metrics (nd_context n)) in
    Some {| en_code := 0; en_snapshot := s;
            en_written := write_final_snapshot sink pieces (uv <$> nc_metrics_interval (c_node c)) opened s |}
  else None.
End ending.

(** ** What the hint is *)

Section hint.
Context `{HA : Addr A}.

Definition plain_text (s : string) : Prop := Forall (fun c => solid c = true /\ Ascii.eqb c quote = false) (chars s).

Definition peer_text (s : string) : list ascii := chars "peer = " ++ quote :: chars s ++ [quote].

(** A [[vport]] table as it is usually laid out. *)
Definition vport_lines (v : RawVport) : list (list ascii) :=
  [[]; chars "[[vport]]"; chars "id = " ++ dec (rv_id v); peer_text (rv_peer v)].

Lemma trim_start_matches_none c cs : Forall (fun a => Ascii.eqb a c = false) cs -> trim_start_matches c cs = cs.
Proof. intros [| a r Ha _]; [done |]. cbn [trim_start_matches]. by rewrite Ha. Qed.

Lemma trim_matches_quoted c cs :
  Forall (fun a => Ascii.eqb a c = false) cs -> trim_matches c (c :: cs ++ [c]) = cs.
Proof.
  intros Hc. unfold trim_matches. cbn [trim_start_matches]. rewrite Ascii.eqb_refl.
  destruct cs as [| a r]; [by cbn [app trim_start_matches]; rewrite Ascii.eqb_refl |].
  inversion_clear Hc as [| ?? Ha Hr].
  assert (trim_start_matches c ((a :: r) ++ [c]) = (a :: r) ++ [c]) as -> by (cbn [app trim_start_matches]; by rewrite Ha).
  rewrite reverse_snoc. cbn [trim_start_matches]. rewrite Ascii.eqb_refl, trim_start_matches_none, reverse_involutive; [done |].
  apply Forall_reverse. by constructor.
Qed.

Lemma trim_space cs : trim (" "%char :: cs) = trim cs.
Proof. reflexivity. Qed.

Lemma peer_line_reads s : plain_text s -> peer_line (peer_text s) = addr_parse s.
Proof.
  intros Hs. unfold peer_line, peer_text.
  change (chars "peer = " ++ ?x) with (chars "peer " ++ "="%char :: " "%char :: x).
  rewrite split_once_app by (repeat constructor). rewrite bool_decide_true by reflexivity.
  rewrite trim_space, (trim_solid _ quote quote), trim_matches_quoted, unchars_chars; try done.
  - eapply Forall_impl; [exact Hs |]. by intros c [_ H].
  - by rewrite app_comm_cons, last_snoc.
Qed.

Lemma id_line_is_no_peer z : peer_line (chars "id = " ++ dec z) = None.
Proof.
  unfold peer_line. change (chars "id = " ++ ?x) with (chars "id " ++ "="%char :: " "%char :: x).
  rewrite split_once_app by (repeat constructor). reflexivity.
Qed.

Lemma peers_of_lines vs :
  Forall (fun v => plain_text (rv_peer v)) vs ->
  omap peer_line (vs ≫= vport_lines) = omap addr_parse (rv_peer <$> vs).
Proof.
  induction 1 as [| v vs Hv _ IH]; [done |]. rewrite bind_cons, omap_app, IH.
  change (omap addr_parse (rv_peer <$> v :: vs)) with
    (match addr_parse (rv_peer v) with Some a => a :: omap addr_parse (rv_peer <$> vs) | None => omap addr_parse (rv_peer <$> vs) end).
  change (omap peer_line (vport_lines v)) with
    (match peer_line (chars "id = " ++ dec (rv_id v)) with
     | Some a => a :: match peer_line (peer_text (rv_peer v)) with Some b => [b] | None => [] end
     | None => match peer_line (peer_text (rv_peer v)) with Some b => [b] | None => [] end end).
  rewrite id_line_is_no_peer, peer_line_reads by done. by destruct (addr_parse (rv_peer v)).
Qed.

(** Printable text is a line as it stands. *)
Definition printable (c : ascii) : Prop := (32 <= code c <= 126)%Z.

Lemma clean_printable l : Forall printable l -> clean_line l.
Proof.
  intros Hl. rewrite Forall_forall in Hl. split.
  - intros Hin. specialize (Hl _ Hin). change (32 <= 10 <= 126)%Z in Hl. lia.
  - intros [l' ->]%last_Some. assert (printable CR) as Hp by (apply Hl; set_solver).
    change (32 <= 13 <= 126)%Z in Hp. lia.
Qed.

Lemma solid_printable l : Forall (fun c => solid c = true) l -> Forall printable l.
Proof. intros H. eapply Forall_impl; [exact H |]. intros c Hc%solid_range. unfold printable. lia. Qed.

Lemma vport_lines_clean v : (0 <= rv_id v)%Z -> plain_text (rv_peer v) -> Forall clean_line (vport_lines v).
Proof.
  intros Hi Hp. unfold vport_lines. rewrite !Forall_cons. split_and!; [.. | done]; apply clean_printable.
  - done.
  - by repeat constructor.
  - apply Forall_app. split; [by repeat constructor | by apply solid_printable, dec_solid].
  - unfold peer_text. apply Forall_app. split; [by repeat constructor |]. constructor; [done |].
    apply Forall_app. split; [| by repeat constructor]. apply solid_printable.
    eapply Forall_impl; [exact Hp |]. by intros c [H _].
Qed.

(** In a file laid out the usual way, the peer hinted at is that of the first
    vport of the configuration the file holds. *)
Theorem hint_is_the_first_peer header raw names (c : Config A) :
  Forall (fun l => clean_line l /\ peer_line (A := A) l = None) header ->
  Forall (fun v => plain_text (rv_peer v)) (rc_vport raw) ->
  validate raw names = Ok c ->
  first_peer (Ok (unchars (unlines (header ++ (rc_vport raw ≫= vport_lines))))) = vp_peer <$> head (vt_entries (c_vports c)).
Proof.
  intros Hh Hp (_ & _ & _ & _ & _ & _ & _ & _ & Hd & _)%validate_describes. unfold first_peer. rewrite chars_unchars, lines_unlines.
  - rewrite omap_app, peers_of_lines by done.
    assert (omap (peer_line (A := A)) header = []) as ->.
    { clear -Hh. induction Hh as [| l ls [_ Hl] _ IH]; [done |]. cbn [omap list_omap]. by rewrite Hl. }
    destruct Hd as [| v x vs xs [_ Hv] _]; [done |]. cbn [fmap list_fmap omap list_omap]. by rewrite Hv.
  - apply Forall_app. split; [eapply Forall_impl; [exact Hh |]; by intros l [Hl _] |].
    apply Forall_bind. induction Hd as [| v x vs xs [Hi Hv] _ IH]; [constructor |]. inversion_clear Hp.
    constructor; [apply vport_lines_clean; [rewrite Hi; apply uint_range | done] | by apply IH].
Qed.
End hint.

(** ** How a node ends *)

(** A file that takes everything takes a line. *)
Lemma roomy_append (sink : Sink) pieces s w : (forall k, sink k = None) -> (append sink pieces s w).2 = Ok tt.
Proof.
  intros Hs. assert (forall v, (flush_buf sink v).2 = Ok tt) as Hf.
  { intros v. unfold flush_buf, write_out. rewrite Hs. by destruct (buffer v). }
  assert (forall d v, exists v', buf_write sink d v = (v', Ok tt)) as Hw.
  { intros d v. unfold buf_write. specialize (Hf v).
    destruct (_ <? _)%nat; [destruct (flush_buf sink v) as [x r]; cbn [snd] in Hf; subst r |];
      (destruct (_ <=? _)%nat; [unfold write_out; rewrite Hs |]); by eexists. }
  assert (forall ps v, exists v', buf_write_all sink ps v = (v', Ok tt)) as Ha.
  { induction ps as [| d ps IH]; intros v; [by eexists |]. cbn [buf_write_all]. destruct (Hw d v) as [v' ->]. apply IH. }
  unfold append. destruct (Ha (pieces s) w) as [w1 ->]. destruct (Hw [chr 10] w1) as [w2 ->]. apply Hf.
Qed.

(** What the end of [serve] leaves in the file: the last snapshot at the end of
    what was there. *)
Lemma final_snapshot_line sink pieces interval dir node old s :
  match write_final_snapshot sink pieces interval (sw_open (Ok old) dir node) s with
  | Ok None => interval = None
  | Ok (Some w) => disk w = old ++ line_of pieces s /\ buffer w = []
  | Err _ => interval <> None /\ ~ forall k, sink k = None
  end.
Proof.
  destruct interval as [i |]; [| done]. cbn [write_final_snapshot sw_open rbind]. set (w := mkWriter _ _ _ _).
  destruct (append_spec sink pieces s w) as [_ Hok].
  assert ((forall k, sink k = None) -> (append sink pieces s w).2 = Ok tt) as Hr by apply roomy_append.
  destruct (append sink pieces s w) as [w' [[] | e]]; cbn [fst snd] in *.
  - destruct (Hok eq_refl) as [Hd Hb]. split; [| done]. rewrite Hd. unfold stream. by cbn; rewrite app_nil_r.
  - split; [done |]. by intros H%Hr.
Qed.

Section quiet.
Context `{HA : Addr A} `{HE : Pipeline P E} `{HU : !Udp A K} {J : Type}.
Context {inv : P -> Prop} {HL : TableLaws P inv} {HEL : EngineLaws P E}.
Variable params : ShardParams A.
Context {HK : UdpLaws A K (sp_inner_mtu params)}.
Hypothesis mtu_fits : (Z.of_nat (segment_len (sp_inner_mtu params)) <= 65535)%Z.
Hypothesis topology_built : exists entries errs, Config.build entries errs = (errs, Some (topology params)).
Implicit Types n : Node A P E K J.

(** Once every shard has left, nothing counts any more. *)
Lemma quiet_step ev n :
  node_ok (inv := inv) params n -> Forall (fun t => th_running t = false) (nd_threads n) ->
  nd_threads (node_step ev n).1 = nd_threads n /\ cx_metrics (nd_context (node_step ev n).1) = cx_metrics (nd_context n).
Proof.
  intros Hn Ht. destruct ev as [i now | mono wall r |]; cbn [node_step]; [| | done].
  - destruct (nd_threads n !! i) as [t |] eqn:Ei; [| done]. rewrite Forall_lookup in Ht. pose proof (Ht _ _ Ei) as Hr.
    unfold turn. rewrite Hr. cbn [negb fst nd_threads nd_context]. split; [| done]. by apply list_insert_id.
  - pose proof (handle_steady mono wall r _ (co_tables _ _ (no_context _ _ Hn))) as [_ _ Hm _ _ _].
    by destruct (handle mono wall r (nd_context n)).
Qed.

Lemma quiet_run evs : forall n,
  node_ok (inv := inv) params n -> Forall (fun t => th_running t = false) (nd_threads n) ->
  nd_threads (node_run evs n).1 = nd_threads n /\ cx_metrics (nd_context (node_run evs n).1) = cx_metrics (nd_context n).
Proof.
  induction evs as [| ev evs IH]; intros n Hn Ht; [done |]. cbn [node_run].
  destruct (quiet_step ev n Hn Ht) as [H1 H2]. pose proof (node_step_ok params mtu_fits topology_built ev n Hn) as H3.
  destruct (node_step ev n) as [n1 out]. cbn [fst] in *. destruct H3 as [H3 _].
  destruct (IH n1 H3) as [I1 I2]; [by rewrite H1 |]. destruct (node_run evs n1) as [n2 outs]. cbn [fst] in *.
  by rewrite I1, I2, H1, H2.
Qed.
End quiet.

(** C23: A node that is told to stop ends well.  Once the flag is up, by a signal,
    a shutdown request or the failure of another shard, each shard leaves its
    loop at its next turn, with every staged frame handed to the kernel, and is
    never touched again; when the last has left, no counter ever moves again, the
    process stops waiting, takes its last snapshot of these counters and exits
    with 0, whatever the disk does.  Unless snapshots are off the snapshot is at
    the end of the node's file, after all that was there, when the disk takes it. *)
Theorem stopped_node_ends_well `{HA : Addr A} `{HE : Pipeline P E} `{HU : !Udp A K} {J} {inv : P -> Prop} {HL : TableLaws P inv}
    {HEL : EngineLaws P E} (oracle : bool) (w : World A K J) (cli : Cli) raw names (c : Config A) (p : P) n before after
    sink pieces wall dir old :
  UdpLaws A K (sp_inner_mtu (params_of c)) -> validate raw names = Ok c -> inv p -> boot oracle w cli c p = Running n ->
  let n1 := (node_run before n).1 in
  cx_stop (nd_context n1) = true ->
  (forall i, (i < length (nd_threads n1))%nat -> exists now, NTurn i now ∈ after) ->
  let n2 := (node_run after n1).1 in
  let counted := cx_metrics (nd_context n2) in
  (forall i t, nd_threads n1 !! i = Some t -> exists t', nd_threads n2 !! i = Some t' /\ th_running t' = false /\
     (th_running t = true -> forall j, live (params_of c) j -> idle j (th_shard t'))) /\
  (forall later, nd_threads (node_run later n2).1 = nd_threads n2 /\ cx_metrics (nd_context (node_run later n2).1) = counted) /\
  exists e, unwind sink pieces wall c (sw_open (Ok old) dir (nc_id (c_node c))) n2 = Some e /\
    en_code e = 0%nat /\ en_snapshot e = Metrics.snapshot wall counted /\
    match en_written e with
    | Ok None => nc_metrics_interval (c_node c) = None
    | Ok (Some f) => disk f = old ++ line_of pieces (Metrics.snapshot wall counted) /\ buffer f = []
    | Err _ => nc_metrics_interval (c_node c) <> None /\ ~ forall k, sink k = None
    end.
Proof.
  intros HK Hv Hi Hb n1 Hs Hall n2 counted.
  destruct (node_stops oracle w cli raw names c p n before after HK Hv Hi Hb Hs) as [Hs2 Hleft]. fold n1 n2 in Hs2, Hleft.
  apply validate_well_built in Hv. destruct (boot_ok oracle w cli c p n Hv Hi Hb) as (N1 & _).
  pose proof (node_run_ok (J := J) (E := E) (params_of c) (fabric_mtu_fits _) (proj2 Hv)) as Hrun.
  assert (node_ok (inv := inv) (params_of c) n1) as Hn1.
  { unfold n1. specialize (Hrun before n N1). destruct (node_run before n). apply Hrun. }
  assert (node_ok (inv := inv) (params_of c) n2 /\ length (nd_threads n2) = length (nd_threads n1)) as [Hn2 Hlen].
  { unfold n2. specialize (Hrun after n1 Hn1). destruct (node_run after n1). cbn [fst]. tauto. }
  assert (forall i t, nd_threads n1 !! i = Some t -> exists t', nd_threads n2 !! i = Some t' /\ th_running t' = false /\
     (th_running t = true -> forall j, live (params_of c) j -> idle j (th_shard t'))) as Hgone.
  { intros i t Ht. apply (Hleft i t Ht), Hall. by eapply lookup_lt_Some. }
  assert (Forall (fun t => th_running t = false) (nd_threads n2)) as Hquiet.
  { apply Forall_lookup. intros i t2 Ht2. destruct (nd_threads n1 !! i) as [t |] eqn:Et.
    - destruct (Hgone i t Et) as (t' & Ht' & Hr & _). congruence.
    - apply lookup_ge_None in Et. apply lookup_lt_Some in Ht2. lia. }
  split; [exact Hgone |]. split; [intros later; by apply (quiet_run (params_of c) (fabric_mtu_fits _) (proj2 Hv)) |].
  unfold unwind, joined. rewrite Hs2. assert (forallb (fun t => negb (th_running t)) (nd_threads n2) = true) as ->.
  { apply Is_true_true, forallb_True, Forall_lookup. intros i t Ht. rewrite Forall_lookup in Hquiet. by rewrite (Hquiet i t Ht). }
  cbn [andb]. eexists. split; [reflexivity |]. cbn [en_code en_snapshot en_written]. split; [done |]. split; [done |].
  pose proof (final_snapshot_line sink pieces (uv <$> nc_metrics_interval (c_node c)) dir (nc_id (c_node c)) old
    (Metrics.snapshot wall counted)) as Hf. fold counted.
  destruct (write_final_snapshot _ _ _ _ _) as [[f |] | e]; [done | by apply fmap_None in Hf |].
  destruct Hf as [Hf1 Hf2]. split; [| done]. intros Hn. by rewrite Hn in Hf1.
Qed.

(** The sample switch, stopped by a request; its disk takes everything. *)
#[local] Existing Instances Sample.addr Sample.kernel.

Lemma ends_witness : exists (c : Config string) (n : Node string L2.L2Fwd L2.L2Engine Sample.Kernel unit) e f,
  boot false Sample.world Sample.cli c Sample.switch = Running n /\
  let n2 := (node_run [NSignal; NTurn 0 (U32 6); NTurn 0 (U32 7)] (node_run Sample.before n).1).1 in
  unwind Disk.roomy Disk.json (U64 9) c (sw_open (Ok (chars "{8}" ++ [chr 10])) "." (nc_id (c_node c))) n2 = Some e /\
  en_code e = 0%nat /\ en_written e = f /\
  match f with
  | Ok (Some f) => disk f = (chars "{8}" ++ [chr 10]) ++ line_of Disk.json (en_snapshot e)
  | Ok None => nc_metrics_interval (c_node c) = None
  | Err _ => False
  end.
Proof.
  destruct Sample.starts as (c & n & Hv & Hb & Hm & Hs). exists c, n.
  unfold Sample.seen in Hs. apply pair_equal_spec in Hs as [Hs Hr].
  assert (length (nd_threads (node_run Sample.before n).1) = 1%nat) as Hl
    by (apply (f_equal length) in Hr; by rewrite length_fmap in Hr).
  destruct (stopped_node_ends_well (P := L2.L2Fwd) (E := L2.L2Engine) (HE := L2.L2_Pipeline) (inv := fun _ => True)
    (HL := L2.L2_TableLaws) (HEL := L2.L2_EngineLaws) false Sample.world Sample.cli Sample.raw registry c Sample.switch n
    Sample.before [NSignal; NTurn 0 (U32 6); NTurn 0 (U32 7)] Disk.roomy Disk.json (U64 9) "." (chars "{8}" ++ [chr 10])
    (Sample.kernel_laws _ Hm) Hv I Hb Hs) as (_ & _ & e & H1 & H2 & H3 & H4).
  { intros i Hi. rewrite Hl in Hi. exists (U32 6). assert (i = 0%nat) as -> by lia. right. left. }
  exists e, (en_written e). split; [exact Hb |]. split; [exact H1 |]. split; [exact H2 |]. split; [reflexivity |].
  destruct (en_written e) as [[f |] | x]; [| exact H4 | destruct H4 as [_ H4]; apply H4; reflexivity].
  rewrite H3. apply H4.
Defined.

Lemma serve_serves `{HA : Addr A} `{HE : Pipeline P E} `{HU : !Udp A K} {J : Type} oracle (w : World A K J) c (p : P) :
  serve oracle w c p <> Checked.
Proof.
  unfold serve. destruct (bind_all _ _ _); [| done]. destruct (negb _); [done |].
  destruct (w_ctl w); [| done]. by destruct (w_watcher w).
Qed.

(** A process that ends before it serves exits with 2, unless it was started to
    check a configuration and found nothing wrong with it or its batch. *)
Lemma exit_codes {BV M : Type} `{HB : Bitvec BV} `{HR : !P4rt BV} `{HM : Rbpf M} jit oracle `{HA : Addr A} `{HU : !Udp A K} {J : Type}
    built masked (w : World A K J) cli code said :
  main (BV := BV) (M := M) jit oracle built masked w cli = Exited code said ->
  code = EXIT_STARTUP \/
  code = 0%nat /\ cli_check cli = true /\
    match cli_tables cli with
    | None => True
    | Some path => exists text batch, w_read w path = Ok text /\ w_json w text = Ok batch
    end.
Proof.
  unfold main. destruct (block_terminating_signals _ _ _).2; [| intros [= <- _]; by left].
  unfold run. destruct (config_load _ _) as [c |]; [| intros [= <- _]; by left].
  destruct (Catalog.selection_parse _ _ _) as [sel |]; [| intros [= <- _]; by left].
  destruct (Load.build _ _ _) as [[P E HT HE HP p] |]; [| done]. cbn [launch]. unfold boot.
  destruct (cli_tables cli) as [path |].
  - unfold load_tables. destruct (w_read w path) as [text |]; [| intros [= <- _]; by left].
    destruct (w_json w text) as [batch |] eqn:Ej; [| intros [= <- _]; by left].
    destruct (apply_entries _ _) as [p' [k | e]]; cbn [map_err]; [| intros [= <- _]; by left].
    destruct (cli_check cli); [intros [= <- _]; right; by split_and!; [.. | exists text, batch] |].
    pose proof (serve_serves oracle w c p'). destruct (serve _ _ _ _); try done. intros [= <- _]. by left.
  - destruct (cli_check cli); [intros [= <- _]; by right |].
    pose proof (serve_serves oracle w c p). destruct (serve _ _ _ _); try done. intros [= <- _]. by left.
Qed.
