(* ===== verification/Reference.v ===== *)
(** * The reference node

    A node over a native pipeline against the same node over that program's
    specification: a finite map with a default instead of cached copies of
    published tables.  A simulation between one engine and the specification
    ([Simulation]) is lifted to a node of any number of shards, so that their
    sockets, counters, punt queue and control channel are told apart by nothing. *)

From S2P Require Import Prelude Bytes Value Shim Table Publish Frame Engine Wire L2Fwd L3Fwd Tx Config Metrics Punt Socket Shard Turn Messages Ctl Node.

Local Open Scope Z_scope.

(** ** Simulations of one engine *)

(** The table operations of [serve], without an engine. *)
Definition table_request `{TableOps T} (r : Engine.Request) (s : T) : T * Engine.Response :=
  match r with
  | RAdd t k a ps => let '(s, x) := table_add t k a ps s in (s, RUnit x)
  | RRemove t k => let '(s, x) := table_remove t k s in (s, RUnit x)
  | RSetDefault t a ps => let '(s, x) := table_set_default t a ps s in (s, RUnit x)
  | RClear t => let '(s, x) := table_clear t s in (s, RCount x)
  | RDump t => (s, RDumped (table_dump t s))
  | RDefault t => (s, REntry (table_default t s))
  | RFrame f => (s, RVerdict f Drop)
  end.

Definition is_frame (r : Engine.Request) : bool := match r with RFrame _ => true | _ => false end.

Lemma serve_table `{TableOps P} `{Engine P E} r (p : P) (e : E) :
  is_frame r = false -> Engine.serve r (p, e) = (((table_request r p).1, e), (table_request r p).2).
Proof.
  destruct r; cbn; try done.
  - by destruct (table_add _ _ _ _ _).
  - by destruct (table_remove _ _ _).
  - by destruct (table_set_default _ _ _ _).
  - by destruct (table_clear _ _).
Qed.

(** [R n]: after at most [n] writes, the two answer alike and stay related,
    frames using up none of the writes a version number can tell apart. *)
Class Simulation {P1 E1 P2 E2 : Type} `{TableOps P1} `{Engine P1 E1} `{TableOps P2} `{Engine P2 E2}
    (R : nat -> P1 * E1 -> P2 * E2 -> Prop) := {
  sim_schemas n s1 s2 : R n s1 s2 -> schemas s1.1 = schemas s2.1;
  sim_request n s1 s2 r :
    Z.of_nat n < 2 ^ 64 -> R n s1 s2 -> is_frame r = false ->
    (Engine.serve r s1).2 = (Engine.serve r s2).2 /\
    exists n', (n' <= S n)%nat /\ R n' (Engine.serve r s1).1 (Engine.serve r s2).1;
  sim_process n p1 e1 p2 e2 f :
    Z.of_nat n < 2 ^ 64 -> R n (p1, e1) (p2, e2) ->
    (process p1 f e1).1.2 = (process p2 f e2).1.2 /\ (process p1 f e1).2 = (process p2 f e2).2 /\
    R n (p1, (process p1 f e1).1.1) (p2, (process p2 f e2).1.1);
}.

#[export] Instance l2_simulation : Simulation L2.sim.
Proof.
  split.
  - done.
  - intros n s1 s2 r Hn Hs _. by apply L2.l2_sim_step.
  - intros n p e s [] f. apply L2.l2_sim_frame.
Qed.

#[export] Instance l3_simulation : Simulation L3.sim.
Proof.
  split.
  - done.
  - intros n s1 s2 r Hn Hs _. by apply L3.l3_sim_step.
  - intros n p e s [] f. apply L3.l3_sim_frame.
Qed.

(** ** The control channel *)

(** A relation between two table surfaces, by the writes so far, that every
    operation below a bound keeps, answering alike. *)
Class TableSim {T1 T2 : Type} `{TableOps T1} `{TableOps T2} (bound : nat) (Q : nat -> T1 -> T2 -> Prop) := {
  ts_schemas n s1 s2 : Q n s1 s2 -> schemas s1 = schemas s2;
  ts_weaken n m s1 s2 : (n <= m)%nat -> Q n s1 s2 -> Q m s1 s2;
  ts_request n s1 s2 r :
    (n < bound)%nat -> Q n s1 s2 -> is_frame r = false ->
    (table_request r s1).2 = (table_request r s2).2 /\ Q (S n) (table_request r s1).1 (table_request r s2).1;
}.

(** A context with other tables. *)
Definition retable {T1 T2 J} (s : T2) (c : Context T1 J) : Context T2 J :=
  {| cx_info := cx_info c; cx_started_us := cx_started_us c; cx_metrics := cx_metrics c;
     cx_tables := s; cx_punt := cx_punt c; cx_stop := cx_stop c |}.

(** How many writes a request may make. *)
Definition writes (r : CtlRequest) : nat :=
  match r with ReqTableAdd entries => length entries | _ => 1%nat end.

Section control.
Context {T1 T2 J : Type} {bound : nat} {Q : nat -> T1 -> T2 -> Prop} `{TableSim T1 T2 bound Q}.

Lemma schema_alike n s1 s2 t : Q n s1 s2 -> schema s1 t = schema s2 t.
Proof. intros HQ. unfold schema. by rewrite (ts_schemas n s1 s2 HQ). Qed.

(** One operation after the other answers, in the shape of its own result. *)
Lemma add_alike n s1 s2 t k a ps :
  (n < bound)%nat -> Q n s1 s2 ->
  (table_add t k a ps s1).2 = (table_add t k a ps s2).2 /\ Q (S n) (table_add t k a ps s1).1 (table_add t k a ps s2).1.
Proof.
  intros Hn HQ. destruct (ts_request n s1 s2 (RAdd t k a ps) Hn HQ eq_refl) as [H3 H4]. cbn in H3, H4.
  destruct (table_add t k a ps s1), (table_add t k a ps s2). cbn in *. split; [congruence | done].
Qed.

Lemma remove_alike n s1 s2 t k :
  (n < bound)%nat -> Q n s1 s2 ->
  (table_remove t k s1).2 = (table_remove t k s2).2 /\ Q (S n) (table_remove t k s1).1 (table_remove t k s2).1.
Proof.
  intros Hn HQ. destruct (ts_request n s1 s2 (RRemove t k) Hn HQ eq_refl) as [H3 H4]. cbn in H3, H4.
  destruct (table_remove t k s1), (table_remove t k s2). cbn in *. split; [congruence | done].
Qed.

Lemma set_default_alike n s1 s2 t a ps :
  (n < bound)%nat -> Q n s1 s2 ->
  (table_set_default t a ps s1).2 = (table_set_default t a ps s2).2 /\
  Q (S n) (table_set_default t a ps s1).1 (table_set_default t a ps s2).1.
Proof.
  intros Hn HQ. destruct (ts_request n s1 s2 (RSetDefault t a ps) Hn HQ eq_refl) as [H3 H4]. cbn in H3, H4.
  destruct (table_set_default t a ps s1), (table_set_default t a ps s2). cbn in *. split; [congruence | done].
Qed.

Lemma clear_alike n s1 s2 t :
  (n < bound)%nat -> Q n s1 s2 ->
  (table_clear t s1).2 = (table_clear t s2).2 /\ Q (S n) (table_clear t s1).1 (table_clear t s2).1.
Proof.
  intros Hn HQ. destruct (ts_request n s1 s2 (RClear t) Hn HQ eq_refl) as [H3 H4]. cbn in H3, H4.
  destruct (table_clear t s1), (table_clear t s2). cbn in *. split; [congruence | done].
Qed.

Lemma read_alike n s1 s2 t :
  (n < bound)%nat -> Q n s1 s2 -> table_dump t s1 = table_dump t s2 /\ table_default t s1 = table_default t s2.
Proof.
  intros Hn HQ. destruct (ts_request n s1 s2 (RDump t) Hn HQ eq_refl) as [H3 _].
  destruct (ts_request n s1 s2 (RDefault t) Hn HQ eq_refl) as [H4 _]. cbn in H3, H4. split; congruence.
Qed.

Lemma install_alike n s1 s2 spec :
  (n < bound)%nat -> Q n s1 s2 ->
  (install spec s1).2 = (install spec s2).2 /\ Q (S n) (install spec s1).1 (install spec s2).1.
Proof.
  intros Hn HQ. assert (Q (S n) s1 s2) as HS by (apply (ts_weaken n); [lia | done]). unfold install.
  rewrite (schema_alike n s1 s2 _ HQ). destruct (parse_key _ _) as [[sch k] |]; [| done]. cbn [try_op fst snd].
  destruct (typed_params _ _ _) as [ps |]; [| done]. cbn [try_op]. by apply add_alike.
Qed.

Lemma apply_from_alike total entries : forall i n s1 s2,
  (n + length entries <= bound)%nat -> Q n s1 s2 ->
  (apply_from total i entries s1).2 = (apply_from total i entries s2).2 /\
  Q (n + length entries) (apply_from total i entries s1).1 (apply_from total i entries s2).1.
Proof.
  induction entries as [| spec entries IH]; intros i n s1 s2 Hn HQ; cbn [apply_from length] in *.
  { split; [done |]. apply (ts_weaken n); [lia | done]. }
  destruct (install_alike n s1 s2 spec ltac:(lia) HQ) as [H3 H4].
  destruct (install spec s1) as [s1' r1], (install spec s2) as [s2' r2]. cbn in H3, H4. subst r2. destruct r1 as [[] | e].
  - replace (n + S (length entries))%nat with (S n + length entries)%nat by lia. by apply IH; [lia |].
  - split; [done |]. apply (ts_weaken (S n)); [lia | done].
Qed.

(** The whole control channel answers alike. *)
Lemma reply_alike n c (x1 : T1 * result unit TableError) (x2 : T2 * result unit TableError) :
  x1.2 = x2.2 -> Q n x1.1 x2.1 ->
  forall s2, exists s2', reply_count (J := J) 1 (retable s2 c) x2 = (retable s2' (reply_count 1 c x1).1, (reply_count 1 c x1).2) /\
    Q n (cx_tables (reply_count 1 c x1).1) s2'.
Proof. intros H3 H4 s2. exists x2.1. unfold reply_count. by rewrite H3. Qed.

Lemma handle_alike n mono wall r c s2 :
  (n + writes r <= bound)%nat -> Q n (cx_tables c) s2 ->
  exists s2', handle mono wall r (retable (J := J) s2 c)
      = (retable s2' (handle mono wall r c).1, (handle mono wall r c).2) /\
    Q (n + writes r) (cx_tables (handle mono wall r c).1) s2'.
Proof.
  intros Hn HQ. assert (Q (n + writes r) (cx_tables c) s2) as HS by (apply (ts_weaken n); [lia | done]).
  pose proof (fun t => schema_alike n _ _ t HQ) as Hsch.
  destruct r as [| | | | entries | t k | t | t a ps | t | max |]; cbn [handle writes retable cx_tables] in *; try (by exists s2).
  - exists s2. by rewrite (ts_schemas n _ _ HQ).
  - unfold apply_entries. destruct (apply_from_alike (length entries) entries 0 n _ _ Hn HQ) as [H3 H4].
    destruct (apply_from _ _ _ (cx_tables c)) as [s1' r1], (apply_from _ _ _ s2) as [s2' r2]. cbn in H3, H4. subst r2. by exists s2'.
  - rewrite Hsch. destruct (parse_key _ _) as [[sch key] |]; [| by exists s2].
    rewrite Nat.add_1_r in *. destruct (remove_alike n _ _ (table_name sch) key ltac:(lia) HQ) as [H3 H4]. by apply reply_alike.
  - assert (table_dump t (cx_tables c) = table_dump t s2 /\ table_default t (cx_tables c) = table_default t s2) as [-> ->].
    { apply (read_alike n); [lia | done]. }
    by exists s2.
  - rewrite Hsch. destruct (rbind _ _) as [[sch vals] |]; [| by exists s2].
    rewrite Nat.add_1_r in *. destruct (set_default_alike n _ _ (table_name sch) a vals ltac:(lia) HQ) as [H3 H4]. by apply reply_alike.
  - rewrite Nat.add_1_r in *. destruct (clear_alike n _ _ t ltac:(lia) HQ) as [H3 H4].
    destruct (table_clear _ (cx_tables c)) as [s1' r1], (table_clear _ s2) as [s2' r2]. cbn in H3, H4. subst r2. by exists s2'.
  - change (cx_punt (retable s2 c)) with (cx_punt c). destruct (cx_punt c) as [q |]; [| by exists s2].
    destruct (default _ _) as [q' frames]. by exists s2.
Qed.
End control.

(** ** Nodes *)

Section nodes.
Context {A : Type} {HA : Addr A} {P1 E1 P2 E2 K J : Type} {R : nat -> P1 * E1 -> P2 * E2 -> Prop} `{HR : Simulation P1 E1 P2 E2 R}.
Context {HU : Udp A K}.

(** A thread with another engine. *)
Definition rethread (e2 : E2) (t : Thread E1 K) : Thread E2 K :=
  {| th_shard := retype e2 (th_shard t); th_arena := th_arena t; th_running := th_running t |}.

Definition thread_alike (n : nat) (p1 : P1) (p2 : P2) (t1 : Thread E1 K) (t2 : Thread E2 K) : Prop :=
  exists e2 m, (m <= n)%nat /\ t2 = rethread e2 t1 /\ R m (p1, sh_engine (th_shard t1)) (p2, e2).

Definition threads_alike (ts1 : list (Thread E1 K)) (ts2 : list (Thread E2 K)) (n : nat) (p1 : P1) (p2 : P2) : Prop :=
  ts1 <> [] /\ Forall2 (thread_alike n p1 p2) ts1 ts2.

(** Two nodes that differ in their pipelines and engines only, and these are
    related shard by shard. *)
Record node_alike (n : nat) (n1 : Node A P1 E1 K J) (n2 : Node A P2 E2 K J) : Prop := {
  na_params : nd_params n2 = nd_params n1;
  na_context : nd_context n2 = retable (cx_tables (nd_context n2)) (nd_context n1);
  na_threads : threads_alike (nd_threads n1) (nd_threads n2) n (cx_tables (nd_context n1)) (cx_tables (nd_context n2));
}.

Lemma thread_request n p1 p2 t1 t2 r :
  Z.of_nat n < 2 ^ 64 -> thread_alike n p1 p2 t1 t2 -> is_frame r = false ->
  (table_request r p1).2 = (table_request r p2).2 /\
  thread_alike (S n) (table_request r p1).1 (table_request r p2).1 t1 t2.
Proof.
  intros Hn (e2 & m & Hm & -> & H3) Hf.
  destruct (sim_request m (p1, sh_engine (th_shard t1)) (p2, e2) r ltac:(lia) H3 Hf) as (H4 & m' & Hm' & H5).
  rewrite !serve_table in H4, H5 by done. cbn in H4, H5. split; [done |].
  exists e2, m'. split; [lia | done].
Qed.

#[local] Instance threads_sim (ts1 : list (Thread E1 K)) (ts2 : list (Thread E2 K)) bound :
  Z.of_nat bound <= 2 ^ 64 -> TableSim bound (threads_alike ts1 ts2).
Proof.
  intros Hb. split.
  - intros n p1 p2 [Hne HF]. destruct HF as [| t1 t2 ts1 ts2 (e2 & m & _ & _ & H3) _]; [done |].
    exact (sim_schemas m _ _ H3).
  - intros n m p1 p2 Hnm [Hne HF]. split; [done |]. eapply Forall2_impl; [exact HF |].
    intros t1 t2 (e2 & k & Hk & -> & H3). exists e2, k. split; [lia | done].
  - intros n p1 p2 r Hn [Hne HF] Hf.
    assert (Forall2 (fun t1 t2 => (table_request r p1).2 = (table_request r p2).2 /\
              thread_alike (S n) (table_request r p1).1 (table_request r p2).1 t1 t2) ts1 ts2) as HG.
    { eapply Forall2_impl; [exact HF |]. intros t1 t2 Ht. apply thread_request; [lia | done | done]. }
    split; [by destruct HG as [| t1 t2 ? ? [H3 _] _] |]. split; [done |].
    eapply Forall2_impl; [exact HG |]. by intros t1 t2 [_ H3].
Qed.

(** A turn of related threads, over related pipelines. *)
Lemma turn_alike params n now t1 t2 c p2 :
  Z.of_nat n < 2 ^ 64 -> thread_alike n (cx_tables c) p2 t1 t2 ->
  let '(t1', c1') := turn params now t1 c in
  let '(t2', c2') := turn params now t2 (retable p2 c) in
  thread_alike n (cx_tables c) p2 t1' t2' /\ c2' = retable (J := J) p2 c1' /\ cx_tables c1' = cx_tables c.
Proof.
  intros Hn (e2 & m & Hm & -> & H3). unfold turn. cbn [th_running rethread]. destruct (th_running t1); cbn [negb].
  2: { split_and!; try done. by exists e2, m. }
  change (cx_stop (retable p2 c)) with (cx_stop c). change (cx_tables (retable p2 c)) with p2. set (sh := enter c (th_shard t1)).
  assert (enter (retable p2 c) (th_shard (rethread e2 t1)) = retype e2 sh) as -> by done.
  change (th_arena (rethread e2 t1)) with (th_arena t1).
  destruct (cx_stop c).
  - unfold retype. rewrite flush_all_reframe.
    assert (sh_punt (flush_all params sh) = sh_punt sh) as Hp by apply flush_all_punt.
    split_and!; [| unfold leave, retable; cbn; by rewrite Hp | done].
    exists e2, m. split; [done |]. unfold rethread, retype. cbn [th_shard th_arena th_running]. rewrite flush_all_engine, Hp. by split.
  - pose proof (run_turn_alike params (R m) (cx_tables c) p2 (fun e1 e2 f => sim_process m _ e1 _ e2 f ltac:(lia)) now (th_arena t1)
      sh (retype e2 sh) (ex_intro _ e2 (conj eq_refl H3))) as Hr.
    destruct (run_turn _ _ _ _ sh) as [[s1 a1] r1], (run_turn _ _ _ _ (retype e2 sh)) as [[s2 a2] r2].
    destruct Hr as ((e2' & -> & H4) & <- & <-).
    destruct r1; (split_and!; [| done | done]); (exists e2', m; split; [done |]; by split).
Qed.

Definition event_writes (ev : NodeEvent) : nat := match ev with NRequest _ _ r => writes r | _ => 0%nat end.
Definition total_writes (evs : list NodeEvent) : nat := sum_list (event_writes <$> evs).

Lemma node_step_alike bound n ev n1 n2 :
  Z.of_nat bound < 2 ^ 64 -> (n + event_writes ev <= bound)%nat -> node_alike n n1 n2 ->
  (node_step ev n1).2 = (node_step ev n2).2 /\
  node_alike (n + event_writes ev) (node_step ev n1).1 (node_step ev n2).1.
Proof.
  intros Hb Hn [N1 N2 [N3 N4]]. destruct n1 as [pa c1 ts1], n2 as [pa2 c2 ts2]. cbn in *. subst pa2.
  set (p2 := cx_tables c2) in *. rewrite N2. clearbody p2. clear N2 c2.
  destruct ev as [i now | mono wall r |]; cbn [node_step event_writes nd_threads nd_context nd_params] in *.
  - rewrite Nat.add_0_r. destruct (ts1 !! i) as [t1 |] eqn:Ei.
    + destruct (Forall2_lookup_l _ _ _ _ _ N4 Ei) as (t2 & Ei2 & Ht). rewrite Ei2.
      pose proof (turn_alike pa n now t1 t2 c1 p2 ltac:(lia) Ht) as Hr.
      destruct (turn pa now t1 c1) as [t1' c1'], (turn pa now t2 (retable p2 c1)) as [t2' c2']. destruct Hr as (H3 & -> & H4).
      split; [done |]. split; cbn [nd_params nd_context nd_threads cx_tables retable fst]; [done | done |].
      rewrite H4. split; [by intros Hx%(f_equal length); rewrite length_insert in Hx; destruct ts1 |].
      by apply Forall2_insert.
    + apply lookup_ge_None in Ei. rewrite lookup_ge_None_2 by (rewrite <- (Forall2_length _ _ _ N4); done).
      split; [done |]. by split.
  - assert (TableSim bound (threads_alike ts1 ts2)) as HT by (apply threads_sim; lia).
    destruct (handle_alike (J := J) n mono wall r c1 p2 Hn (conj N3 N4)) as (p2' & -> & H3).
    destruct (handle mono wall r c1) as [c1' reply]. cbn [fst snd] in *. split; [done |]. by split.
  - rewrite Nat.add_0_r. split; [done |]. by split.
Qed.

Lemma node_run_alike bound evs : forall n n1 n2,
  Z.of_nat bound < 2 ^ 64 -> (n + total_writes evs <= bound)%nat -> node_alike n n1 n2 ->
  (node_run evs n1).2 = (node_run evs n2).2 /\
  node_alike (n + total_writes evs) (node_run evs n1).1 (node_run evs n2).1.
Proof.
  induction evs as [| ev evs IH]; intros n n1 n2 Hb Hn Ha; cbn [node_run].
  { change (total_writes []) with 0%nat. by rewrite Nat.add_0_r. }
  change (total_writes (ev :: evs)) with (event_writes ev + total_writes evs)%nat in *.
  destruct (node_step_alike bound n ev n1 n2 Hb ltac:(lia) Ha) as [H3 H4].
  destruct (node_step ev n1) as [n1' o1], (node_step ev n2) as [n2' o2]. cbn [fst snd] in H3, H4. subst o2.
  destruct (IH (n + event_writes ev)%nat n1' n2' Hb ltac:(lia) H4) as [H5 H6].
  destruct (node_run evs n1') as [n1'' os1], (node_run evs n2') as [n2'' os2]. cbn [fst snd] in *. subst os2.
  split; [done |]. by rewrite Nat.add_assoc.
Qed.
End nodes.

(** ** From start-up on *)

(** What minting adds to a simulation: engines minted over related tables are
    related. *)
Class SimulationStart {P1 E1 P2 E2 : Type} `{Pipeline P1 E1} `{Pipeline P2 E2} (R : nat -> P1 * E1 -> P2 * E2 -> Prop) := {
  sim_mint n p1 e1 p2 e2 : R n (p1, e1) (p2, e2) -> R n (p1, engine p1) (p2, engine p2);
  sim_name (p1 : P1) (p2 : P2) : pipeline_name p1 = pipeline_name p2;
  sim_mints (p1 : P1) (p2 : P2) : mints p1 = mints p2;
}.

(** The specifications, as pipelines. *)
#[export] Instance L2_reference : Pipeline L2.Spec unit := { pipeline_name _ := L2.NAME; engine _ := tt; mints _ := true }.
#[export] Instance L3_reference : Pipeline L3.Spec unit := { pipeline_name _ := L3.NAME; engine _ := tt; mints _ := true }.

#[export] Instance l2_start : SimulationStart L2.sim.
Proof.
  split; [| done | done]. intros n p e s [] [(Hv & m & Hm & Hle & Hc) Hs]. split; [| done]. split; [exact Hv |]. by exists n.
Qed.

#[export] Instance l3_start : SimulationStart L3.sim.
Proof.
  split; [| done | done]. intros n p e s [] ((Hv & m & Hm & Hle & Hc) & Hw & Hs). split; [| done]. split; [exact Hv |]. by exists n.
Qed.

(** How many writes the start-up batch may make. *)
Definition batch_writes {A K J} (w : World A K J) (cli : Cli) : nat :=
  match cli_tables cli with
  | Some path => match w_read w path with
                 | Ok text => match w_json w text with Ok b => length (into_entries b) | Err _ => 0%nat end
                 | Err _ => 0%nat
                 end
  | None => 0%nat
  end.

(** All that can be observed of a node, from outside and through its control
    channel: its sockets with all they were given, its counters, its punt queue,
    its stop flag and what it says of itself. *)
Record same_outside `{Addr A} {P1 E1 P2 E2 K J} (n1 : Node A P1 E1 K J) (n2 : Node A P2 E2 K J) : Prop := {
  ou_sockets : (fun t => sh_socket (th_shard t)) <$> nd_threads n1 = (fun t => sh_socket (th_shard t)) <$> nd_threads n2;
  ou_running : th_running <$> nd_threads n1 = th_running <$> nd_threads n2;
  ou_metrics : cx_metrics (nd_context n1) = cx_metrics (nd_context n2);
  ou_punt : cx_punt (nd_context n1) = cx_punt (nd_context n2);
  ou_stop : cx_stop (nd_context n1) = cx_stop (nd_context n2);
  ou_info : cx_info (nd_context n1) = cx_info (nd_context n2);
}.

(** Two start-ups that come out alike, and if they run, run alike: the same
    replies, and the same node from outside. *)
Definition indistinguishable `{Addr A} `{Pipeline P1 E1} `{Pipeline P2 E2} `{!Udp A K} {J}
    (b1 : Startup (Node A P1 E1 K J)) (b2 : Startup (Node A P2 E2 K J)) (evs : list NodeEvent) : Prop :=
  match b1, b2 with
  | Running n1, Running n2 =>
      (node_run evs n1).2 = (node_run evs n2).2 /\ same_outside (node_run evs n1).1 (node_run evs n2).1
  | Fatal m1, Fatal m2 => m1 = m2
  | Checked, Checked => True
  | Panicked, Panicked => True
  | _, _ => False
  end.

Section start.
Context {A : Type} {HA : Addr A} {P1 E1 P2 E2 K J : Type} {R : nat -> P1 * E1 -> P2 * E2 -> Prop}.
Context `{HT1 : TableOps P1} `{HE1 : !Engine P1 E1} `{HP1 : !Pipeline P1 E1} `{HT2 : TableOps P2} `{HE2 : !Engine P2 E2} `{HP2 : !Pipeline P2 E2}.
Context {HR : Simulation R} {HRS : SimulationStart R} {HU : Udp A K}.
Implicit Types w : World A K J.

Lemma alike_outside n n1 n2 : node_alike (R := R) (K := K) (J := J) (HA := HA) n n1 n2 -> same_outside n1 n2.
Proof.
  intros [N1 N2 [_ N3]]. clear N1.
  split; try by rewrite N2.
  - clear N2. induction N3 as [| t1 t2 ts1 ts2 (e2 & m & _ & -> & _) _ IH]; [done |]. rewrite !fmap_cons, IH. done.
  - clear N2. induction N3 as [| t1 t2 ts1 ts2 (e2 & m & _ & -> & _) _ IH]; [done |]. rewrite !fmap_cons, IH. done.
Qed.

(** The relation of the tables alone, through an engine minted before. *)
Definition tables_alike (e1 : E1) (e2 : E2) (n : nat) (p1 : P1) (p2 : P2) : Prop :=
  exists m, (m <= n)%nat /\ R m (p1, e1) (p2, e2).

#[local] Instance tables_sim e1 e2 bound : Z.of_nat bound <= 2 ^ 64 -> TableSim bound (tables_alike e1 e2).
Proof.
  intros Hb. split.
  - intros n p1 p2 (m & _ & H). exact (sim_schemas m _ _ H).
  - intros n k p1 p2 Hnk (m & Hm & H). exists m. split; [lia | done].
  - intros n p1 p2 r Hn (m & Hm & H) Hf.
    destruct (sim_request m (p1, e1) (p2, e2) r ltac:(lia) H Hf) as (H4 & m' & Hm' & H5).
    rewrite !serve_table in H4, H5 by done. cbn in H4, H5. split; [done |]. exists m'. split; [lia | done].
Qed.

Lemma serve_alike oracle w (c : Config A) n p1 e1 p2 e2 :
  well_built c -> R n (p1, e1) (p2, e2) ->
  match serve oracle w c p1, serve oracle w c p2 with
  | Running n1, Running n2 => node_alike (R := R) n n1 n2
  | Fatal m1, Fatal m2 => m1 = m2
  | Panicked, Panicked => True
  | _, _ => False
  end.
Proof.
  intros [Hth _] Hn. unfold serve. destruct (bind_all _ _ _) as [ss | m] eqn:Es; [| done].
  apply bind_all_length in Es. rewrite length_seq in Es. rewrite (sim_mints p1 p2). destruct (negb (mints p2)); [done |].
  destruct (w_ctl w); [| done]. destruct (w_watcher w); [| done]. split; [done | |].
  - cbn. unfold retable, node_info. cbn. by rewrite (sim_name p1 p2).
  - cbn [nd_threads nd_context cx_tables]. split; [destruct ss; [cbn in Es; lia | done] |].
    rewrite Forall2_fmap_l, Forall2_fmap_r. apply Forall_Forall2_diag, Forall_true. intros s.
    exists (engine p2), n. split; [done |]. split; [done |]. by apply (sim_mint n p1 e1 p2 e2).
Qed.

Lemma boot_alike oracle w cli (c : Config A) p1 e1 p2 e2 :
  well_built c -> R 0 (p1, e1) (p2, e2) -> Z.of_nat (batch_writes w cli) < 2 ^ 64 ->
  match boot oracle w cli c p1, boot oracle w cli c p2 with
  | Running n1, Running n2 => node_alike (R := R) (batch_writes w cli) n1 n2
  | Fatal m1, Fatal m2 => m1 = m2
  | Checked, Checked => True
  | Panicked, Panicked => True
  | _, _ => False
  end.
Proof.
  intros Hc H0 Hb. unfold boot, batch_writes in *.
  assert (forall n p1 p2, R n (p1, e1) (p2, e2) ->
    match (if cli_check cli then Checked else serve oracle w c p1), (if cli_check cli then Checked else serve oracle w c p2) with
    | Running n1, Running n2 => node_alike (R := R) n n1 n2
    | Fatal m1, Fatal m2 => m1 = m2
    | Checked, Checked => True
    | Panicked, Panicked => True
    | _, _ => False
    end) as Hend.
  { intros n q1 q2 Hq. destruct (cli_check cli); [done |].
    pose proof (serve_alike oracle w c n q1 e1 q2 e2 Hc Hq) as Hs. destruct (serve _ _ _ q1), (serve _ _ _ q2); done. }
  destruct (cli_tables cli) as [path |]; [| by apply Hend]. unfold load_tables.
  destruct (w_read w path) as [text |]; [| done]. destruct (w_json w text) as [b |]; [| done].
  unfold apply_entries. set (es := into_entries b) in *.
  assert (TableSim (length es) (tables_alike e1 e2)) as HT by (apply tables_sim; lia).
  destruct (apply_from_alike (length es) es 0 0 p1 p2) as [H3 (m & Hm & H4)]; [lia | by exists 0%nat |].
  destruct (apply_from _ _ _ p1) as [q1 r1], (apply_from _ _ _ p2) as [q2 r2]. cbn [fst snd] in *. subst r2.
  destruct r1 as [k | e]; [| done]. cbn [map_err]. specialize (Hend m q1 q2 H4).
  destruct (if cli_check cli then Checked else serve oracle w c q1), (if cli_check cli then Checked else serve oracle w c q2);
    try done.
  destruct Hend as [N1 N2 [N3 N4]]. split; [done | done | split; [done |]]. eapply Forall2_impl; [exact N4 |].
  intros t1 t2 (e & k' & Hk & -> & H5). exists e, k'. split; [lia | done].
Qed.

Lemma started_alike oracle w cli (c : Config A) p1 e1 p2 e2 evs :
  well_built c -> R 0 (p1, e1) (p2, e2) -> Z.of_nat (batch_writes w cli + total_writes evs) < 2 ^ 64 ->
  indistinguishable (boot oracle w cli c p1) (boot oracle w cli c p2) evs.
Proof.
  intros Hc H0 Hb. pose proof (boot_alike oracle w cli c p1 e1 p2 e2 Hc H0 ltac:(lia)) as Hs. unfold indistinguishable.
  destruct (boot oracle w cli c p1) as [| | | n1], (boot oracle w cli c p2) as [| | | n2]; try done.
  destruct (node_run_alike (batch_writes w cli + total_writes evs) evs (batch_writes w cli) n1 n2 Hb ltac:(lia) Hs) as [H3 H4].
  split; [done |]. by eapply alike_outside.
Qed.
End start.

(** ** Properties *)

(** C1: a node running a native program is the node running its specification.
    From the same configuration, start-up batch and system they start alike,
    down to the message of a failure; and whatever then happens, in whatever
    order the turns of the shards and the requests fall (fewer than 2^64 table
    writes in all), every request gets the same reply, every socket is handed
    the same bytes, and the counters, the punt queue and the stop flag are the
    same: neither the cached copies each shard keeps of the tables, nor the
    order in which shards refresh them, can be observed. *)
Theorem native_node_is_reference `{HA : Addr A} `{HU : !Udp A K} {J} (oracle : bool) (w : World A K J) (cli : Cli) raw names
    (c : Config A) (params : PipelineParams) (evs : list NodeEvent) :
  validate raw names = Ok c -> Z.of_nat (batch_writes w cli + total_writes evs) < 2 ^ 64 ->
  indistinguishable (boot oracle w cli c (L2.new params)) (boot oracle w cli c L2.spec_new) evs /\
  indistinguishable (boot oracle w cli c (L3.new params)) (boot oracle w cli c L3.spec_new) evs.
Proof.
  intros Hv%validate_well_built Hb. split.
  - apply (started_alike (R := L2.sim) oracle w cli c (L2.new params) (engine (L2.new params)) L2.spec_new tt); [done | | done].
    split; [apply view_new | done].
  - apply (started_alike (R := L3.sim) oracle w cli c (L3.new params) (engine (L3.new params)) L3.spec_new tt); [done | | done].
    split; [apply view_new | split; [apply Lpm.wf_new | done]].
Qed.

(** The switch of [Node.Sample] and its specification. *)
#[local] Existing Instances Sample.addr Sample.kernel.

Lemma reference_witness : exists (c : Config string) (n1 : Node string L2.L2Fwd L2.L2Engine Sample.Kernel unit)
    (n2 : Node string L2.Spec unit Sample.Kernel unit),
  boot false Sample.world Sample.cli c Sample.switch = Running n1 /\
  boot false Sample.world Sample.cli c L2.spec_new = Running n2 /\
  Sample.seen (node_run Sample.before n1).1 = (true, [(true, [("b", 26%nat)])]) /\
  (node_run Sample.before n1).2 = (node_run Sample.before n2).2 /\
  same_outside (node_run Sample.before n1).1 (node_run Sample.before n2).1.
Proof.
  destruct Sample.starts as (c & n1 & Hv & Hb & _ & Hs).
  assert (Z.of_nat (batch_writes Sample.world Sample.cli + total_writes Sample.before) < 2 ^ 64) as Hn by reflexivity.
  destruct (native_node_is_reference (HA := Sample.addr) (HU := Sample.kernel) false Sample.world Sample.cli Sample.raw registry c
    {| vports := [] |} Sample.before Hv Hn) as [H _].
  change (L2.new {| vports := [] |}) with Sample.switch in H. rewrite Hb in H. unfold indistinguishable in H.
  destruct (boot false Sample.world Sample.cli c L2.spec_new) as [| | | n2] eqn:E2; try contradiction.
  destruct H as [H1 H2]. exists c, n1, n2. exact (conj Hb (conj E2 (conj Hs (conj H1 H2)))).
Defined.
